(* ===== verification/_CoqProject ===== *)
-Q . S2P
Prelude.v
Errors.v
Wire.v
Address.v
TelegramFsm.v
Escape.v
Enh.v
Heap.v
Queue.v
BusEnv.v
Bus.v
BusScript.v
BusTrace.v
BusEcho.v
BusPlain.v
BusRetry.v
BusExamples.v
BusLoop.v
SourceSelect.v
Collision.v
Responder.v
StateM.v
EnhTransport.v
EnhInvariant.v
EnhSession.v
EnhWire.v
EnhArbitration.v
EnhTermination.v
EnhBus.v
Float.v
Values.v
ValueLaws.v
Structured.v
StdTypes.v
StdLaws.v
StdSpec.v
B503.v
Text.v
Determinism.v
Emulation.v
EmulationLaws.v
Adapter.v
Timing.v
PlanTypes.v
PlanCodec.v
PlanOverlap.v
PlanPool.v
PlanRegistry.v
PlanWorker.v
PlanSystem.v
PlanSafety.v
Memory.v
IpcLayout.v
IpcLayoutLaws.v
IpcFresh.v
IpcRecord.v
IpcLane.v
IpcQueue.v
IpcLanes.v
Calls.v
IpcWorker.v
IpcWorkerWalk.v
IpcWorkerLaws.v
IpcWorkerSafe.v
IpcWorkerObserve.v
IpcHost.v
IpcHostWalk.v
IpcHostLaws.v
IpcHostPlans.v
EngineTypes.v
Engine.v
EngineTrace.v
EngineAttempt.v
EngineSafety.v
EngineReceive.v
EngineLine.v
EngineExamples.v
