(* ===== verification/Prelude.v ===== *)
(** * helianthus-ebusgo: a verification development

    The repository is a Go implementation of eBUS, the two-wire bus of heating
    systems. A gateway arbitrates for the bus through an adapter, sends a
    telegram byte by byte while checking that every byte echoes, reads the
    target's acknowledgement and response, and retries within a policy. Below
    that path is the session with an enhanced adapter, over a codec and a
    streaming escape decoder; beside it stand a passive telegram state machine,
    the selection of a source address, a collision monitor and a responder lane.
    Above it are the data types in which payloads are read and written.

    ** How the program's parts interact

    Callers enter [Bus.Send] and [Bus.RawTransportOp] (src/protocol/bus.go), which
    put requests in a priority queue (src/protocol/queue.go). One run loop takes
    them out and runs [sendWithRetries], which arbitrates, calls
    [sendTransaction] and recovers from collisions, resets and timeouts. A
    transaction reads and writes single bytes through a transport that may or
    may not implement optional interfaces (escape provenance, structural-SYN
    signals, arbitration, reconnection), and reports events to an observer.

    The usual transport is [ENHTransport] (src/transport/enh_transport.go). It
    reads chunks from a connection, parses them into adapter messages (enh.go),
    turns received symbols into events through the escape decoder
    (ebus_escape.go) and keeps them in a bounded queue from which its four read
    methods draw; START, INIT and INFO exchanges run over the same parser.

    A payload is read as a value through a data type (src/types,
    src/protocol/ebus_standard/types) or a vendor service
    (src/protocol/vaillant/b503). Targets are emulated for tests by tables of
    rules (src/emulation).

    The local worker (src/localworker) answers on the bus from plans prepared in
    advance. A registry on the host prepares and publishes plans in a pool of
    slots, and a worker adopts them and pins one per transaction (aa23_plans.go).
    Host and worker are two processes over one shared mapping with four lanes of
    records (aa24_ipc.go): control and data in each direction. Either side treats
    what the other wrote as untrusted, and closes for good (fences) when an
    invariant of the mapping, a deadline or a clock is broken. On the wire works
    a bit-level engine (aa25_engine.go): it samples the line, assembles
    characters and frames, and sends a prepared response bit by bit on an exact
    schedule while it hears its own symbols back.

    ** Files, in dependency order

    - [Prelude]: bytes ([Byte.byte], [u8], [b8]), words of fixed width ([wrap],
      [swrap]), the [result] type with [let*], step sequences ([steps]), list
      lemmas, tactics ([byte_cases], [case_byte], [splits]) and the hint
      databases [ebus].
    - [Errors]: src/errors/errors.go. Error values as chains of wrappers around
      a leaf; [errors_is] is [errors.Is], [error_string] is [Error()]; codes,
      categories and predicates. [error] also holds the marker of bus.go and the
      collision monitor's error.
    - [Wire]: src/internal/crc/crc.go, the CRC of src/protocol/protocol.go and
      src/protocol/slave_encode.go. The CRC table is proved to be division by
      the generator polynomial; a single changed symbol is detected.
    - [Address]: frame types and frames (protocol.go), address_class.go,
      canonical_address_table.go, companion.go, validate_frame_addressing.go and
      the standard table of source_address_selection.go. One partition of the
      256 addresses, and the exact contract of the frame validator.
    - [TelegramFsm]: src/protocol/telegram_fsm/fsm.go. [Machine] is the struct,
      one [feed...] per state handler, [Feed] the dispatcher, [fsm_step] the
      public entry points. [telegram] is the bus grammar; the machine recognises
      it exactly, filters injected AUTO-SYNs, treats passive and active tracking
      alike and bounds the length of a telegram.
    - [Escape]: src/transport/ebus_escape.go. [Feed] over bytes with arrival
      times; [carries] specifies which wire bytes carry a logical symbol.
    - [Enh]: src/transport/enh.go. Codec and stream parser, specified by
      [stream_outcome].
    - [Heap]: container/heap of Go's standard library over a [HeapInterface],
      proved against a key order ([HeapLaws]); sorting in place over it.
    - [Queue]: src/protocol/queue.go. Items are shared objects: the slice holds
      pointers into a store. It instantiates [HeapInterface]; the specification
      is a multiset, refinement and bounded waiting are proved.
    - [BusEnv]: what bus.go runs against, as the class [BusEnv] over a state [W]
      of everything outside (transport, optional interfaces as [option],
      observer, clock, selects), the counters of [Bus], the state monad [M], the
      events of observer.go and the outcome of an error.
    - [Bus]: one transaction of bus.go, from [readByte] to [sendTransaction].
    - [BusScript]: a [BusEnv] that replays a script of reads and records writes,
      with a small program logic ([exec], [behaves], [succeeds], [silent]).
    - [BusTrace]: the grammar of a successful exchange on the wire and the
      theorem that [sendTransaction] succeeds on exactly those exchanges.
    - [BusEcho]: classification of every echo, and the accounting of the
      absorption counters in every environment.
    - [BusPlain]: exchanges on enhanced and plain transports, one of which shows
      a defect of the plain one.
    - [BusRetry]: [sendWithRetries] and everything it calls, and the wait for SYN
      on a given traffic.
    - [BusExamples]: concrete runs that instantiate the theorems on the bus.
    - [BusLoop]: the bus as a concurrent object. [bus_state] holds the queue,
      the flags, the one-slot channels, where each caller and the loop are;
      [bus_step] is one critical section, channel operation or private stretch.
    - [SourceSelect]: src/protocol/source_address_selection.go.
    - [Collision]: src/protocol/collision_monitor.go.
    - [Responder]: src/protocol/responder (frame decoder, acknowledgement
      machine, dispatcher); [Timing]: its timing harness, ack_correlation.go and
      frame_atomic_v8_timeouts.go.
    - [StateM]: a state monad whose computations may run out of fuel, its laws
      and a logic for what a computation keeps.
    - [EnhTransport]: src/transport/enh_transport.go whole, with the events of
      transport.go and the snapshot of baud_observability.go. [ENHTransport] is
      the struct, split in what atomics hold ([Atomics]), what the read mutex
      guards ([Reader]) and the counters; [NetEnv] is the connection, the
      dialer, the clock and what other goroutines do meanwhile.
    - [EnhInvariant]: invariants of every session in every environment.
    - [EnhSession]: a scripted connection; what reads deliver of a stream.
    - [EnhWire]: what [Write] puts on the wire and what [RequestInfo] returns.
    - [EnhArbitration]: the windows of an asynchronous arbitration, and the
      verdict of a blocking one.
    - [EnhTermination]: every call returns.
    - [EnhBus]: the session as an instance of [BusEnv], and a simulation that
      carries the bus's theorems on scripts over to sessions.
    - [Float]: [float32] and [float64] as the specification floats of the
      Standard Library, with the conversions and functions the codecs use.
    - [Values], [ValueLaws], [Structured]: src/types. [any] is a
      dynamic value, [DataType] the interface, [Lawful] its laws, proved for
      every type, and [DecodeFields] against them.
    - [StdTypes], [StdLaws], [StdSpec]:
      src/protocol/ebus_standard/types. A module per primitive; [StdLawful] and
      [StdExact] are the contract of [Codec]; the branch selector against
      [select_spec].
    - [B503]: src/protocol/vaillant/b503.
    - [Text]: strings as bytes, trimming and case folding; [Determinism]:
      src/determinism, retry schedules and the idempotency store; [Emulation],
      [EmulationLaws]: src/emulation; [Adapter]: adapter_info.go,
      aa22_capabilities.go and loopback.go of src/transport.
    - [PlanTypes], [PlanCodec], [PlanOverlap], [PlanPool], [PlanRegistry],
      [PlanWorker]: aa23_plans.go. The pool is a list of slots, a reference an
      index with an incarnation, a pointer into a table of the registry an
      index. [PlanSystem] is the host and any number of workers over one pool as
      steps, with the candidates ever prepared as history; [PlanSafety] holds
      what no order of calls can break.
    - [Memory]: a memory as a list of bytes, little-endian words, disjoint
      stores. [IpcLayout], [IpcLayoutLaws], [IpcFresh]: the mapping of
      aa24_ipc.go, its validation and initialisation. [IpcRecord]: the slot
      envelope. [IpcLane]: one side's view of a lane; [IpcQueue]: a lane over a
      memory represents a bounded queue; [IpcLanes]: the four lanes of a
      mapping do, side by side.
    - [Calls]: a state monad and a logic of the relations its computations
      respect. [IpcWorker], [IpcHost]: the two sides, one definition
      per method; [IpcWorkerWalk], [IpcHostWalk]: every method moves a side by
      a sequence of the named elementary steps, so a property is proved per
      step; [IpcWorkerLaws], [IpcWorkerSafe], [IpcWorkerObserve], [IpcHostLaws],
      [IpcHostPlans]: what each side guarantees whatever the other one writes.
    - [EngineTypes], [Engine]: aa25_engine.go. The fields of [AA25Engine] are
      grouped in records; the four ports are the class [EnginePorts] over a
      state of everything outside. [EngineTrace]: ports that record what is
      done, the part of the state that decides about output ([core]) and a
      weakest-precondition logic over it. [EngineAttempt]: the rational
      schedule is exact and does not wrap; attempts to send a response and what
      a sequence of them explains. [EngineSafety], [EngineReceive]: the
      invariant, method by method. [EngineLine]: prepared responses, runs from
      construction, steps before a deadline; [EngineExamples]: a concrete bus.

    ** What the theorems show

    - Refinement: [transaction_succeeds_iff], [queue_refines_spec],
      [fsm_recognises_telegrams], [Parse_specification], [decode_carried],
      [Decode_accepts_frames], [CRC_is_polynomial_remainder],
      [Select_meets_contract], [DecodeFields_is_cutting],
      [composite_is_components].
    - Round trips: [payload_survives_transport] through framing, escaping and
      chunking; [encode_then_decode], [decode_then_encode], [fields_round_trip]
      for src/types; [encode_reads_back], [exact_reencodes],
      [composite_round_trip] for the standard's types; [slots_round_trip].
    - The adapter session: [pending_bounded_and_paired], [faults_decompose] in
      every environment; [StartArbitration_wins_iff], [pre_grant_silence],
      [echo_is_first_byte]; [Write_counts_decodable],
      [RequestInfo_returns_announced]; [closed_refuses]; [calls_return].
    - Composition: [transaction_over_session] and, from bytes to bytes,
      [exchange_over_connection].
    - The local worker's plans: [pin_answers_prepared_entry],
      [pin_match_is_lookup], [plan_overlaps_iff].
    - The mapping: [validated_mapping_well_formed], [init_is_all_or_nothing] and
      [lanes_refine_queues].
    - The two sides against an arbitrary peer: [admitted_output_is_current],
      [fence_is_final], [observation_is_kept_or_fences], [nothing_comes_twice];
      [completions_answer_commands], [plans_stay_until_retired],
      [account_is_exact].
    - The engine, whatever its ports do: [line_carries_offered_responses],
      [completion_means_echoed], [edges_keep_the_schedule],
      [line_released_unless_sending]; [prepared_response_is_encoded],
      [step_before_next_deadline].
    - Concurrency: [requests_answered_once], [no_lost_wakeup],
      [shutdown_answers_everyone], [bounded_waiting].
    - Termination and budgets: [sendWithRetries_ends],
      [shouldRetry_within_policy], [nack_budget_exact], [inquiry_within_budget],
      [telegram_length_bounded], [pending_resolves].
    - Errors and events: [echo_classified], [round9_accounting],
      [wrapRetryError_transparent].
    - Safety of the address rules: [Select_avoids_heard_addresses],
      [choose_takes_first_acceptable], [own_echo_is_no_collision],
      [collision_blocks_until_address_changes], [ValidateFrameAddressing_spec];
      of the vendor service: [requests_are_never_installer_writes].
    - Defects: [plain_response_with_syn_times_out], [op_can_outlive_its_call],
      [zero_address_is_blind], [reset_keeps_arbitration_window];
      [display_is_ambiguous], [exact_fit_is_approximate],
      [refused_intent_writes_two_edges].

    ** Modelling choices

    Integers have the width of the source where it can overflow ([wrap 64] on
    counters, [wrap 16] on event fields, [swrap 32] on the echo-wait count); Go's
    [int] loop counters are unbounded integers. Times are nanoseconds. Copies of
    slices are invisible in values; where the source shares objects (the queue's
    items) the store is explicit. A mutex-protected method is one step.
    [BusLoop] treats the processing of one request as one step: it touches no
    state the callers touch, and the outside world may change at any other time.
    A single channel send is one step and is only enabled when the slot is
    empty; a theorem shows it always is. In [EnhTransport] a method is one
    computation, because it holds the read or the write mutex throughout; what
    goroutines that do not take it can do to the atomics and the counters
    happens at each blocking read ([others]). An error text is built as the
    source formats it. Floats follow IEEE 754 in round-to-nearest-even; a NaN
    has no payload.

    In [IpcWorker] and [IpcHost] a call of one side is one step on the mapping:
    the peer writes between calls. The safety theorems let it write anything
    there; [lanes_refine_queues] lets both sides take turns operation by
    operation. An acquire load and a release store are a load and a store.
    Slices of fixed capacity are lists with a bound; whether the base of a
    mapping is aligned is an argument.

    In [Engine] a level is one of two values and a port is a function of what is
    outside; a step asks each of them in the order of the source. The arrays of
    fixed size are lists of that length.

    Fuel: [waitForSyn_loop] counts reads and [sendLoop] rounds; [None] means the
    bound was too small. [sendWithRetries_ends] and
    [waitForSyn_counts_idle_syns] give bounds that suffice. The loops of
    [EnhTransport] take one unit of fuel per read of the connection;
    [calls_return] shows that one more than the reads that still deliver
    something is enough. Every other loop is structural: the two attempts of a
    command and of a response, the three absorptions, the length of a response.
    The queue's sequence number is assumed not to wrap (2^64 pushes); lengths and
    offsets of payloads are unbounded integers.

    ** Not modelled

    The socket transports (ebusd_tcp.go, tcp_plain_transport.go,
    udp_plain_transport.go) and driver_runtime.go, hardware access
    (aa29_local_gpio), the responder of the local worker (aa26_responder.go),
    canonical.go (calls of encoding/json and crypto/sha256) and the command-line
    tools. The order in which they are to follow: the responder, the ebusd text
    protocol, the runtime driver. *)

From stdpp Require Export base gmap list strings countable pretty.
From Stdlib Require Export ZArith Lia.
From Stdlib.Strings Require Export Byte.

(** Prelude: bytes and fixed-width words, the [result] type of fallible
    operations, list lemmas and the tactics every component uses. *)

#[export] Set Default Goal Selector "!".
#[export] Set Nonrecursive Elimination Schemes.
#[export] Set Warnings "-clear-no-such-hyp,-notation-for-abbreviation".

Declare Scope ebus_scope.
Delimit Scope ebus_scope with ebus.
Open Scope ebus_scope.
Open Scope Z_scope.

(** ** Bytes *)

#[export] Instance byte_eq_dec_inst : EqDecision Byte.byte := Byte.byte_eq_dec.

#[export] Instance byte_countable : Countable Byte.byte.
Proof.
  refine (inj_countable Byte.to_N Byte.of_N _). apply Byte.of_to_N.
Defined.

(** The unsigned value of a Go [byte]. *)
Definition u8 (b : Byte.byte) : Z := Z.of_N (Byte.to_N b).

(** Conversion of an integer to a Go [byte]: the low eight bits. *)
Definition b8 (z : Z) : Byte.byte :=
  match Byte.of_N (Z.to_N (z mod 256)) with
  | Some b => b
  | None => x00
  end.

Notation "x =b y" := (Byte.eqb x y) (at level 70) : ebus_scope.
Notation "x <b y" := (Z.ltb (u8 x) (u8 y)) (at level 70) : ebus_scope.

Lemma u8_range b : 0 <= u8 b < 256.
Proof. unfold u8. pose proof (Byte.to_N_bounded b). lia. Qed.

Lemma u8_b8 z : u8 (b8 z) = z mod 256.
Proof.
  unfold u8, b8. pose proof (Z.mod_pos_bound z 256 ltac:(lia)) as Hr.
  destruct (Byte.of_N _) as [b|] eqn:E.
  - apply Byte.to_of_N in E. rewrite E. lia.
  - apply Byte.of_N_None_iff in E. lia.
Qed.

Lemma b8_u8 b : b8 (u8 b) = b.
Proof.
  unfold b8, u8. pose proof (u8_range b) as Hr. unfold u8 in Hr.
  rewrite Z.mod_small by lia. by rewrite N2Z.id, Byte.of_to_N.
Qed.

Lemma u8_inj a b : u8 a = u8 b -> a = b.
Proof. intros H. by rewrite <- (b8_u8 a), <- (b8_u8 b), H. Qed.

Lemma u8_b8_small z : 0 <= z < 256 -> u8 (b8 z) = z.
Proof. intros. rewrite u8_b8. by apply Z.mod_small. Qed.

Lemma byte_eqb_spec a b : reflect (a = b) (a =b b).
Proof.
  destruct (a =b b) eqn:E; constructor.
  - by apply Byte.byte_dec_bl.
  - intros ->. by rewrite (Byte.byte_dec_lb eq_refl) in E.
Qed.

Lemma byte_eqb_refl a : (a =b a) = true.
Proof. by apply Byte.byte_dec_lb. Qed.

Lemma byte_eqb_eq a b : (a =b b) = true <-> a = b.
Proof. destruct (byte_eqb_spec a b); split; congruence. Qed.

Lemma byte_eqb_neq a b : (a =b b) = false <-> a <> b.
Proof. destruct (byte_eqb_spec a b); split; congruence. Qed.

(** The 256 bytes in order; a boolean statement that holds on the list holds
    of every byte, which turns a finite claim into one evaluation. *)
Definition all_bytes : list Byte.byte := b8 <$> seqZ 0 256.

Lemma all_bytes_complete b : b ∈ all_bytes.
Proof.
  unfold all_bytes. apply list_elem_of_fmap. exists (u8 b).
  split; [by rewrite b8_u8|]. apply elem_of_seqZ. pose proof (u8_range b). lia.
Qed.

Lemma byte_forallb (P : Byte.byte -> bool) :
  forallb P all_bytes = true -> forall b, P b = true.
Proof.
  intros H b. rewrite forallb_forall in H. apply H.
  apply list_elem_of_In, all_bytes_complete.
Qed.

Lemma byte_forallb2 (P : Byte.byte -> Byte.byte -> bool) :
  forallb (fun a => forallb (P a) all_bytes) all_bytes = true ->
  forall a b, P a b = true.
Proof.
  intros H a b. apply (byte_forallb (P a)).
  by apply (byte_forallb (fun a => forallb (P a) all_bytes)).
Qed.

(** Go's bitwise operators on [byte]. *)
Definition bxor (a b : Byte.byte) : Byte.byte := b8 (Z.lxor (u8 a) (u8 b)).
Definition band (a b : Byte.byte) : Byte.byte := b8 (Z.land (u8 a) (u8 b)).
Definition bor (a b : Byte.byte) : Byte.byte := b8 (Z.lor (u8 a) (u8 b)).
Definition bshl (a : Byte.byte) (n : Z) : Byte.byte := b8 (Z.shiftl (u8 a) n).
Definition bshr (a : Byte.byte) (n : Z) : Byte.byte := b8 (Z.shiftr (u8 a) n).

Lemma u8_testbit_high b i : 8 <= i -> Z.testbit (u8 b) i = false.
Proof.
  intros Hi. pose proof (u8_range b) as [H0 H1].
  rewrite <- (Z.mod_small (u8 b) (2 ^ 8)) by (split; [done|exact H1]).
  apply Z.mod_pow2_bits_high. lia.
Qed.

Lemma u8_bor a b : u8 (bor a b) = Z.lor (u8 a) (u8 b).
Proof.
  unfold bor. rewrite u8_b8. change 256 with (2 ^ 8). apply Z.bits_inj'. intros n Hn.
  destruct (Z.lt_ge_cases n 8); [by rewrite Z.mod_pow2_bits_low|].
  rewrite Z.mod_pow2_bits_high, Z.lor_spec, !u8_testbit_high by lia. done.
Qed.

Lemma u8_bxor a b : u8 (bxor a b) = Z.lxor (u8 a) (u8 b).
Proof.
  unfold bxor. rewrite u8_b8. change 256 with (2 ^ 8).
  apply Z.bits_inj'. intros n Hn. destruct (Z.lt_ge_cases n 8) as [Hlt|Hge].
  - by rewrite Z.mod_pow2_bits_low.
  - rewrite Z.mod_pow2_bits_high, Z.lxor_spec, !u8_testbit_high by lia. done.
Qed.

Lemma bxor_inj_r c a b : bxor c a = bxor c b -> a = b.
Proof.
  intros H. apply u8_inj. apply (f_equal u8) in H. rewrite !u8_bxor in H.
  apply (f_equal (Z.lxor (u8 c))) in H.
  by rewrite <- !Z.lxor_assoc, Z.lxor_nilpotent, !Z.lxor_0_l in H.
Qed.

Lemma bxor_comm a b : bxor a b = bxor b a.
Proof. apply u8_inj. by rewrite !u8_bxor, Z.lxor_comm. Qed.

Lemma bxor_inj_l c a b : bxor a c = bxor b c -> a = b.
Proof. rewrite (bxor_comm a c), (bxor_comm b c). apply bxor_inj_r. Qed.

(** ** Fixed-width words *)

(** Unsigned and signed reduction of an integer to [w] bits. *)
Definition wrap (w z : Z) : Z := z mod 2 ^ w.
Definition swrap (w z : Z) : Z := (z + 2 ^ (w - 1)) mod 2 ^ w - 2 ^ (w - 1).

Lemma wrap_range w z : 0 <= w -> 0 <= wrap w z < 2 ^ w.
Proof. intros. apply Z.mod_pos_bound. by apply Z.pow_pos_nonneg. Qed.

Lemma wrap_small w z : 0 <= z < 2 ^ w -> wrap w z = z.
Proof. apply Z.mod_small. Qed.

Lemma swrap_range w z : 0 < w -> - 2 ^ (w - 1) <= swrap w z < 2 ^ (w - 1).
Proof.
  intros Hw. unfold swrap.
  pose proof (Z.mod_pos_bound (z + 2 ^ (w - 1)) (2 ^ w)
    ltac:(apply Z.pow_pos_nonneg; lia)).
  replace (2 ^ w) with (2 * 2 ^ (w - 1)) in *; [lia|].
  rewrite <- Z.pow_succ_r by lia. f_equal. lia.
Qed.

Lemma swrap_small w z : 0 < w -> - 2 ^ (w - 1) <= z < 2 ^ (w - 1) -> swrap w z = z.
Proof.
  intros Hw Hz. unfold swrap.
  assert (2 ^ w = 2 * 2 ^ (w - 1)) as E.
  { rewrite <- Z.pow_succ_r by lia. f_equal. lia. }
  rewrite Z.mod_small; lia.
Qed.

(** ** Fallible operations *)

(** A Go function that returns [(value, error)] with a meaningless value on
    the error path. *)
Inductive result (E A : Type) : Type :=
| Ok (a : A)
| Err (e : E).
Arguments Ok {E A} _.
Arguments Err {E A} _.

Definition rbind {E A B} (f : A -> result E B) (r : result E A) : result E B :=
  match r with
  | Ok a => f a
  | Err e => Err e
  end.

Notation "'let*' x ':=' r 'in' k" := (rbind (fun x => k) r)
  (at level 10, x pattern, r at level 100, k at level 200) : ebus_scope.

Definition is_ok {E A} (r : result E A) : bool :=
  match r with Ok _ => true | Err _ => false end.

Lemma rbind_ok_inv {E A B} (f : A -> result E B) r b :
  rbind f r = Ok b -> exists a, r = Ok a /\ f a = Ok b.
Proof. destruct r; simpl; [eauto|discriminate]. Qed.

(** ** Go slices as lists *)

(** [s[i:]] and [s[:i]] with integer indices inside the bounds. *)
Definition slice_from {A} (i : Z) (l : list A) : list A := drop (Z.to_nat i) l.
Definition slice_to {A} (i : Z) (l : list A) : list A := take (Z.to_nat i) l.
Definition len {A} (l : list A) : Z := Z.of_nat (length l).

Lemma len_nonneg {A} (l : list A) : 0 <= len l.
Proof. unfold len. lia. Qed.

Lemma len_app {A} (l k : list A) : len (l ++ k) = len l + len k.
Proof. unfold len. rewrite length_app. lia. Qed.

Lemma len_cons {A} (x : A) l : len (x :: l) = 1 + len l.
Proof. unfold len. simpl. lia. Qed.

Lemma len_nil {A} : len (@nil A) = 0.
Proof. reflexivity. Qed.

(** The first index at which [f] holds, as a Go search loop computes it. *)
Fixpoint find_index {A} (f : A -> bool) (l : list A) : option nat :=
  match l with
  | [] => None
  | x :: l' => if f x then Some O else S <$> find_index f l'
  end.

Lemma find_index_Some {A} (f : A -> bool) l i :
  find_index f l = Some i ->
  exists x, l !! i = Some x /\ f x = true /\ forall j y, (j < i)%nat -> l !! j = Some y -> f y = false.
Proof.
  revert i. induction l as [|x l IH]; intros i; simpl; [done|].
  destruct (f x) eqn:Fx.
  - intros [= <-]. exists x. repeat split; [done|lia].
  - destruct (find_index f l) as [k|] eqn:E; simpl; [|done].
    intros [= <-]. destruct (IH k eq_refl) as (y & Hy & Fy & Hmin).
    exists y. repeat split; [done..|].
    intros [|j] z Hj; simpl; [by intros [= <-]|]. intros Hz. apply (Hmin j); [lia|done].
Qed.

Lemma find_index_None {A} (f : A -> bool) l :
  find_index f l = None <-> Forall (fun x => f x = false) l.
Proof.
  induction l as [|x l IH]; simpl; [by split|].
  destruct (f x) eqn:Fx.
  - split; [done|]. inversion 1; congruence.
  - rewrite Forall_cons_iff, <- IH. destruct (find_index f l); simpl; intuition congruence.
Qed.

Lemma list_omap_same {A B} (f g : A -> option B) (l : list A) :
  (forall x, x ∈ l -> f x = g x) -> omap f l = omap g l.
Proof.
  intros Hf. by apply list_omap_ext, Forall_Forall2_diag, Forall_forall.
Qed.

(** ** Step relations *)

(** Reflexive transitive closure, with the list of labels of the steps taken. *)
Inductive steps {S L : Type} (step : S -> L -> S -> Prop) : S -> list L -> S -> Prop :=
| steps_nil s : steps step s [] s
| steps_cons s l s1 ls s2 : step s l s1 -> steps step s1 ls s2 -> steps step s (l :: ls) s2.

Lemma steps_app {S L} (step : S -> L -> S -> Prop) s l1 s1 l2 s2 :
  steps step s l1 s1 -> steps step s1 l2 s2 -> steps step s (l1 ++ l2) s2.
Proof. induction 1; simpl; [done|]. intros. econstructor; eauto. Qed.

(** An invariant that each step preserves holds in every reachable state. *)
Lemma steps_invariant {S L} (step : S -> L -> S -> Prop) (I : S -> Prop) :
  (forall s l s', I s -> step s l s' -> I s') ->
  forall s ls s', steps step s ls s' -> I s -> I s'.
Proof. intros Hpres s ls s'. induction 1; eauto. Qed.

(** ** Tactics *)

(** Case analysis on the first byte comparison in the goal. *)
Ltac case_byte :=
  match goal with
  | |- context [?a =b ?b] => destruct (byte_eqb_spec a b); subst
  end.

(** Case analysis on the scrutinee of the first [match] or [if] in the goal. *)
Ltac case_goal :=
  match goal with
  | |- context [match ?x with _ => _ end] => destruct x eqn:?
  end.

(** Decide a boolean statement about one byte by enumeration. *)
Ltac byte_cases b := pattern b; revert b; apply byte_forallb; vm_compute; reflexivity.

(** The same for a decidable proposition about one byte. *)
Ltac byte_decide b := refine (bool_decide_eq_true_1 _ _); byte_cases b.

Ltac splits := repeat match goal with |- _ /\ _ => split end.

#[global] Arguments u8 : simpl never.
#[global] Arguments b8 : simpl never.
#[global] Arguments bxor : simpl never.
#[global] Arguments band : simpl never.
#[global] Arguments bor : simpl never.
#[global] Arguments bshl : simpl never.
#[global] Arguments bshr : simpl never.
#[global] Arguments Byte.eqb : simpl never.
#[global] Arguments wrap : simpl never.
#[global] Arguments swrap : simpl never.
#[global] Arguments len : simpl never.

Create HintDb ebus.
Create Rewrite HintDb ebus.
#[export] Hint Resolve u8_range len_nonneg byte_eqb_refl : ebus.
#[export] Hint Rewrite u8_b8 b8_u8 @len_app @len_cons @len_nil byte_eqb_refl : ebus.
