(* ===== verification/Errors.v ===== *)
(** Error values and their classification (errors/errors.go).

    A Go [error] is a chain of wrappers around one leaf.  [errors_is] walks the
    chain as [errors.Is] does, [error_string] renders it as [Error()] does, and
    the classifiers are the source's, in the source's order. *)

From S2P Require Import Prelude.
#[local] Open Scope string_scope.

(** Package-level sentinels made with [errors.New]. *)
Inductive sentinel :=
| SBusCollision | STimeout | SCRCMismatch | SNACK | SNoSuchDevice
| SRetryExhausted | SInvalidPayload | STransportClosed | SAdapterReset
| SAdapterHostError | SQueueFull
| SInvalidFrameAddress
| SContextCanceled | SDeadlineExceeded
| SInvalidTransition | SRetriesExhausted
| SFrameTooShort | SLengthMismatch | SBadCRC
| SShortPayload | SWrongPayloadLen | SInstallWriteForbidden | SUnknownSelector.

#[export] Instance sentinel_eq_dec : EqDecision sentinel.
Proof. solve_decision. Defined.

Definition sentinel_string (s : sentinel) : string :=
  match s with
  | SBusCollision => "ebus: bus collision during arbitration"
  | STimeout => "ebus: no response within timeout window"
  | SCRCMismatch => "ebus: CRC validation failed"
  | SNACK => "ebus: target returned NACK"
  | SNoSuchDevice => "ebus: no device responded at address"
  | SRetryExhausted => "ebus: retries exhausted"
  | SInvalidPayload => "ebus: payload does not match expected schema"
  | STransportClosed => "ebus: transport connection closed"
  | SAdapterReset => "ebus: adapter reset during operation"
  | SAdapterHostError => "ebus: adapter host-side protocol error"
  | SQueueFull => "ebus: send queue at capacity"
  | SInvalidFrameAddress => "eBUS: invalid frame address"
  | SContextCanceled => "context canceled"
  | SDeadlineExceeded => "context deadline exceeded"
  | SInvalidTransition => "responder: invalid FSM transition"
  | SRetriesExhausted => "responder: retries exhausted"
  | SFrameTooShort => "responder: frame too short"
  | SLengthMismatch => "responder: NN length mismatch"
  | SBadCRC => "responder: bad CRC"
  | SShortPayload => "b503: payload shorter than required for selector"
  | SWrongPayloadLen => "b503: payload length does not match fixed-size selector"
  | SInstallWriteForbidden => "b503: install-write selector forbidden on public surface (plan AD02, spec §9)"
  | SUnknownSelector => "b503: unknown (family, selector) — not in spec §3 catalog"
  end.

(** [EWrap pre e post] is [fmt.Errorf] of ["pre%wpost"]; [EEchoEmitted] is the
    bus's echo-mismatch marker; [EArbitrationFailed] is the collision monitor's
    error, which unwraps to the collision sentinel; [EOther] is a leaf of some
    other package. *)
Inductive error :=
| ESentinel (s : sentinel)
| EOther (msg : string)
| EWrap (pre : string) (e : error) (post : string)
| EEchoEmitted (e : error)
| EArbitrationFailed (reason : string).

Fixpoint error_string (e : error) : string :=
  match e with
  | ESentinel s => sentinel_string s
  | EOther m => m
  | EWrap pre e post => pre +:+ error_string e +:+ post
  | EEchoEmitted e => error_string e
  | EArbitrationFailed r => "ebus: arbitration failed (" +:+ r +:+ ")"
  end.

Fixpoint errors_is (e : error) (t : sentinel) : bool :=
  match e with
  | ESentinel s => bool_decide (s = t)
  | EOther _ => false
  | EWrap _ e _ => errors_is e t
  | EEchoEmitted e => errors_is e t
  | EArbitrationFailed _ => bool_decide (SBusCollision = t)
  end.

(** [errors.Is] on a Go [error] that may be nil. *)
Definition is_err (e : option error) (t : sentinel) : bool :=
  match e with Some e => errors_is e t | None => false end.

Inductive code :=
| CodeUnknown | CodeInvalidPayload | CodeNoSuchDevice | CodeNACK | CodeTimeout
| CodeBusCollision | CodeRetryExhausted | CodeCRCMismatch | CodeTransportClosed
| CodeAdapterReset | CodeAdapterHostError | CodeQueueFull.

Inductive category :=
| CategoryUnknown | CategoryInvalid | CategoryTransient | CategoryDefinitive | CategoryFatal.

#[export] Instance code_eq_dec : EqDecision code.
Proof. solve_decision. Defined.
#[export] Instance category_eq_dec : EqDecision category.
Proof. solve_decision. Defined.

Definition NormalizeErrorCode (err : option error) : code :=
  if is_err err SInvalidPayload then CodeInvalidPayload
  else if is_err err SNoSuchDevice then CodeNoSuchDevice
  else if is_err err SNACK then CodeNACK
  else if is_err err STimeout then CodeTimeout
  else if is_err err SBusCollision then CodeBusCollision
  else if is_err err SRetryExhausted then CodeRetryExhausted
  else if is_err err SCRCMismatch then CodeCRCMismatch
  else if is_err err STransportClosed then CodeTransportClosed
  else if is_err err SAdapterReset then CodeAdapterReset
  else if is_err err SAdapterHostError then CodeAdapterHostError
  else if is_err err SQueueFull then CodeQueueFull
  else CodeUnknown.

Definition categoryForCode (c : code) : category :=
  match c with
  | CodeInvalidPayload | CodeQueueFull => CategoryInvalid
  | CodeNoSuchDevice | CodeNACK | CodeAdapterHostError => CategoryDefinitive
  | CodeTimeout | CodeBusCollision | CodeRetryExhausted | CodeCRCMismatch
  | CodeAdapterReset => CategoryTransient
  | CodeTransportClosed => CategoryFatal
  | CodeUnknown => CategoryUnknown
  end.

Definition NormalizeErrorCategory (err : option error) : category :=
  categoryForCode (NormalizeErrorCode err).

Definition IsTransient (err : option error) : bool :=
  is_err err SBusCollision || is_err err STimeout || is_err err SCRCMismatch
  || is_err err SRetryExhausted || is_err err SAdapterReset.

Definition IsDefinitive (err : option error) : bool :=
  is_err err SNoSuchDevice || is_err err SNACK || is_err err SAdapterHostError
  || is_err err SInvalidPayload.

Definition IsFatal (err : option error) : bool := is_err err STransportClosed.

(** ** Formatting verbs used in error messages *)

Definition hex_digit (upper : bool) (d : Z) : string :=
  default "?" ((if upper
    then ["0";"1";"2";"3";"4";"5";"6";"7";"8";"9";"A";"B";"C";"D";"E";"F"]
    else ["0";"1";"2";"3";"4";"5";"6";"7";"8";"9";"a";"b";"c";"d";"e";"f"])
    !! Z.to_nat d).

(** [%d], [%02x], [%02X] and [%#x] of a byte. *)
Definition fmt_d (z : Z) : string := pretty z.
Definition fmt_02x (b : byte) : string :=
  hex_digit false (u8 b / 16)%Z +:+ hex_digit false (u8 b mod 16)%Z.
Definition fmt_02X (b : byte) : string :=
  hex_digit true (u8 b / 16)%Z +:+ hex_digit true (u8 b mod 16)%Z.
Definition fmt_sharp_x (b : byte) : string :=
  "0x" +:+ (if (u8 b <? 16)%Z then "" else hex_digit false (u8 b / 16)%Z) +:+ hex_digit false (u8 b mod 16)%Z.

(** ** Lemmas *)

(** The sentinel at the end of a wrapper chain, if the leaf is one. *)
Fixpoint leaf (e : error) : option sentinel :=
  match e with
  | ESentinel s => Some s
  | EOther _ => None
  | EWrap _ e _ => leaf e
  | EEchoEmitted e => leaf e
  | EArbitrationFailed _ => Some SBusCollision
  end.

Lemma errors_is_leaf e t : errors_is e t = bool_decide (leaf e = Some t).
Proof.
  induction e as [s|m|p e IH q|e IH|r]; simpl; try done;
    apply bool_decide_ext; split; congruence.
Qed.

Lemma errors_is_unique e s t : errors_is e s = true -> errors_is e t = true -> s = t.
Proof. rewrite !errors_is_leaf, !bool_decide_eq_true. congruence. Qed.

Lemma errors_is_wrap p e q t : errors_is (EWrap p e q) t = errors_is e t.
Proof. done. Qed.

(** Reduces a classifier of an error to a case analysis on its leaf. *)
Ltac by_leaf e :=
  unfold is_err; repeat rewrite errors_is_leaf; destruct (leaf e) as [[]|]; vm_compute.

(** Case analysis on the leaf, with the classifiers of each case evaluated. *)
Ltac leaf_cases e :=
  rewrite ?errors_is_leaf; destruct (leaf e) as [[]|];
  repeat match goal with
  | |- context [bool_decide (?a = ?b)] =>
      let v := eval vm_compute in (bool_decide (a = b)) in change (bool_decide (a = b)) with v
  end; cbv beta iota.

(** [IsTransient], [IsDefinitive] and [IsFatal] agree with the category that
    [NormalizeErrorCategory] assigns, so the two ways a caller may classify an
    error never contradict each other. *)
Theorem predicates_agree_with_category (err : option error) :
  IsTransient err = bool_decide (NormalizeErrorCategory err = CategoryTransient) /\
  IsDefinitive err = bool_decide (NormalizeErrorCategory err = CategoryDefinitive \/
                                  NormalizeErrorCode err = CodeInvalidPayload) /\
  IsFatal err = bool_decide (NormalizeErrorCategory err = CategoryFatal).
Proof.
  unfold IsTransient, IsDefinitive, IsFatal, NormalizeErrorCategory, NormalizeErrorCode.
  destruct err as [e|]; [by_leaf e; repeat split|vm_compute; repeat split].
Qed.
