(* ===== verification/Wire.v ===== *)
(** Wire encoding (internal/crc/crc.go, protocol/protocol.go, protocol/slave_encode.go):
    the CRC-8 of the bus, the byte-stuffing of the two control symbols, and the
    target response segment. *)

From S2P Require Import Prelude Errors.

Definition AddressBroadcast : byte := xfe.
Definition SymbolEscape : byte := xa9.
Definition SymbolSyn : byte := xaa.
Definition SymbolAck : byte := x00.
Definition SymbolNack : byte := xff.

(** ** CRC-8 with polynomial 0x9b *)

Definition lookupTable : list byte :=
  [  x00; x9b; xad; x36; xc1; x5a; x6c; xf7; x19; x82; xb4; x2f; xd8; x43; x75; xee;
     x32; xa9; x9f; x04; xf3; x68; x5e; xc5; x2b; xb0; x86; x1d; xea; x71; x47; xdc;
     x64; xff; xc9; x52; xa5; x3e; x08; x93; x7d; xe6; xd0; x4b; xbc; x27; x11; x8a;
     x56; xcd; xfb; x60; x97; x0c; x3a; xa1; x4f; xd4; xe2; x79; x8e; x15; x23; xb8;
     xc8; x53; x65; xfe; x09; x92; xa4; x3f; xd1; x4a; x7c; xe7; x10; x8b; xbd; x26;
     xfa; x61; x57; xcc; x3b; xa0; x96; x0d; xe3; x78; x4e; xd5; x22; xb9; x8f; x14;
     xac; x37; x01; x9a; x6d; xf6; xc0; x5b; xb5; x2e; x18; x83; x74; xef; xd9; x42;
     x9e; x05; x33; xa8; x5f; xc4; xf2; x69; x87; x1c; x2a; xb1; x46; xdd; xeb; x70;
     x0b; x90; xa6; x3d; xca; x51; x67; xfc; x12; x89; xbf; x24; xd3; x48; x7e; xe5;
     x39; xa2; x94; x0f; xf8; x63; x55; xce; x20; xbb; x8d; x16; xe1; x7a; x4c; xd7;
     x6f; xf4; xc2; x59; xae; x35; x03; x98; x76; xed; xdb; x40; xb7; x2c; x1a; x81;
     x5d; xc6; xf0; x6b; x9c; x07; x31; xaa; x44; xdf; xe9; x72; x85; x1e; x28; xb3;
     xc3; x58; x6e; xf5; x02; x99; xaf; x34; xda; x41; x77; xec; x1b; x80; xb6; x2d;
     xf1; x6a; x5c; xc7; x30; xab; x9d; x06; xe8; x73; x45; xde; x29; xb2; x84; x1f;
     xa7; x3c; x0a; x91; x66; xfd; xcb; x50; xbe; x25; x13; x88; x7f; xe4; xd2; x49;
     x95; x0e; x38; xa3; x54; xcf; xf9; x62; x8c; x17; x21; xba; x4d; xd6; xe0; x7b ].

Definition crc_update (crc value : byte) : byte :=
  bxor (nth (Z.to_nat (u8 crc)) lookupTable x00) value.

Definition crc_sum (data : list byte) : byte := foldl crc_update x00 data.

(** The frame CRC: control symbols enter as their escape pairs. *)
Definition crc_symbol (value b : byte) : byte :=
  if b =b SymbolEscape then crc_update (crc_update value SymbolEscape) x00
  else if b =b SymbolSyn then crc_update (crc_update value SymbolEscape) x01
  else crc_update value b.

Definition CRC (data : list byte) : byte := foldl crc_symbol x00 data.

(** ** Byte stuffing *)

Definition escape_symbol (b : byte) : list byte :=
  if b =b SymbolEscape then [SymbolEscape; x00]
  else if b =b SymbolSyn then [SymbolEscape; x01]
  else [b].

Fixpoint EscapeBytes (raw : list byte) : list byte :=
  match raw with
  | [] => []
  | b :: raw' => escape_symbol b ++ EscapeBytes raw'
  end.

(** The response segment [NN DB1..DBn CRC] before stuffing. *)
Definition slave_segment (data : list byte) : list byte :=
  let segment := b8 (len data) :: data in segment ++ [CRC segment].

Definition EncodeSlaveResponse (data : list byte) : result error (list byte) :=
  if 255 <? len data
  then Err (EWrap ("target response data length " +:+ fmt_d (len data) +:+ " exceeds 255: ")
              (ESentinel SInvalidPayload) "")
  else Ok (EscapeBytes (slave_segment data)).

(** ** The polynomial CRC the table implements *)

(** One bit of polynomial long division by x^8+x^7+x^4+x^3+x+1. *)
Definition poly_shift (c : Z) : Z :=
  if 128 <=? c then Z.lxor (Z.land (2 * c) 255) 0x9b else 2 * c.

Definition poly_shift8 (c : Z) : Z := Nat.iter 8 poly_shift c.

(** The remainder of the message polynomial, one message byte at a time. *)
Definition poly_crc (data : list byte) : Z :=
  foldl (fun c b => Z.lxor (poly_shift8 c) (u8 b)) 0 data.

Lemma lookupTable_poly c : u8 (nth (Z.to_nat (u8 c)) lookupTable x00) = poly_shift8 (u8 c).
Proof.
  apply Z.eqb_eq.
  byte_cases c.
Qed.

Lemma crc_update_poly c v : u8 (crc_update c v) = Z.lxor (poly_shift8 (u8 c)) (u8 v).
Proof. unfold crc_update. by rewrite u8_bxor, lookupTable_poly. Qed.

Lemma foldl_crc_poly data c :
  u8 (foldl crc_update c data) = foldl (fun c b => Z.lxor (poly_shift8 c) (u8 b)) (u8 c) data.
Proof.
  revert c. induction data as [|b data IH]; intros c; simpl; [done|].
  by rewrite IH, crc_update_poly.
Qed.

Lemma foldl_crc_symbol data c : foldl crc_symbol c data = foldl crc_update c (EscapeBytes data).
Proof.
  revert c. induction data as [|b data IH]; intros c; simpl; [done|].
  rewrite foldl_app, <- IH. f_equal. unfold crc_symbol, escape_symbol.
  repeat case_byte; done.
Qed.

(** The table is the polynomial remainder, and the frame CRC of logical bytes
    is the remainder of their stuffed wire form. *)
Theorem CRC_is_polynomial_remainder data :
  u8 (CRC data) = poly_crc (EscapeBytes data) /\ CRC data = crc_sum (EscapeBytes data).
Proof.
  unfold CRC, poly_crc, crc_sum. by rewrite foldl_crc_symbol, foldl_crc_poly.
Qed.

(** ** Error detection *)

Lemma table_injective a b : crc_update a x00 = crc_update b x00 -> a = b.
Proof.
  intros H. apply (f_equal u8) in H. rewrite !crc_update_poly in H.
  change (u8 x00) with 0 in H. rewrite !Z.lxor_0_r in H.
  assert (forall a b, implb (poly_shift8 (u8 a) =? poly_shift8 (u8 b)) (a =b b) = true) as Hall.
  { apply byte_forallb2. vm_compute. reflexivity. }
  specialize (Hall a b). rewrite (proj2 (Z.eqb_eq _ _) H) in Hall. by apply byte_eqb_eq.
Qed.

Lemma crc_update_inj_state a b v : crc_update a v = crc_update b v -> a = b.
Proof.
  intros H. apply table_injective. unfold crc_update in *.
  apply bxor_inj_l in H. by rewrite H.
Qed.

Lemma crc_update_inj_value c a b : crc_update c a = crc_update c b -> a = b.
Proof. apply bxor_inj_r. Qed.

Lemma foldl_crc_update_inj data a b :
  foldl crc_update a data = foldl crc_update b data -> a = b.
Proof.
  revert a b. induction data as [|v data IH]; intros a b; simpl; [done|].
  intros H. by apply IH, crc_update_inj_state in H.
Qed.

(** A symbol is plain when the wire carries it as one byte. *)
Definition plain_symbol (b : byte) : bool := negb (b =b SymbolEscape) && negb (b =b SymbolSyn).

Lemma plain_symbol_escape b : plain_symbol b = true -> escape_symbol b = [b].
Proof. unfold plain_symbol, escape_symbol. repeat case_byte; done. Qed.

(** Any corruption of a single plain byte of a frame into another plain byte
    changes the CRC. *)
Theorem CRC_detects_single_byte pre a b post :
  plain_symbol a = true -> plain_symbol b = true -> a <> b ->
  CRC (pre ++ a :: post) <> CRC (pre ++ b :: post).
Proof.
  intros Ha Hb Hab. unfold CRC. rewrite !foldl_crc_symbol.
  assert (forall x, plain_symbol x = true ->
    EscapeBytes (pre ++ x :: post) = EscapeBytes pre ++ x :: EscapeBytes post) as Happ.
  { intros x Hx. clear -Hx. induction pre as [|y pre IH]; simpl.
    - by rewrite plain_symbol_escape.
    - by rewrite IH, app_assoc. }
  rewrite !Happ, !foldl_app by done. simpl. intros H.
  by apply foldl_crc_update_inj, crc_update_inj_value in H.
Qed.

Example CRC_detects_single_byte_witness :
  CRC ([x10; x08] ++ x07 :: [x04; x00]) <> CRC ([x10; x08] ++ x05 :: [x04; x00]).
Proof. apply (CRC_detects_single_byte [x10; x08] x07 x05 [x04; x00]); [reflexivity|reflexivity|discriminate]. Defined.

(** ** Stuffing *)

Lemma EscapeBytes_app a b : EscapeBytes (a ++ b) = EscapeBytes a ++ EscapeBytes b.
Proof. induction a as [|x a IH]; simpl; [done|]. by rewrite IH, app_assoc. Qed.

Lemma EscapeBytes_no_syn data : SymbolSyn ∉ EscapeBytes data.
Proof.
  induction data as [|b data IH]; simpl; [apply not_elem_of_nil|].
  rewrite not_elem_of_app. split; [|done]. unfold escape_symbol.
  repeat case_byte; rewrite ?not_elem_of_cons; repeat split;
    solve [discriminate | congruence | apply not_elem_of_nil].
Qed.

Lemma EscapeBytes_length data : (length data <= length (EscapeBytes data) <= 2 * length data)%nat.
Proof.
  induction data as [|b data IH]; simpl; [lia|]. rewrite length_app.
  unfold escape_symbol. repeat case_byte; simpl; lia.
Qed.
