(* ===== verification/Address.v ===== *)
(** Addresses and frames: protocol/protocol.go (frame types),
    protocol/address_class.go, protocol/canonical_address_table.go,
    protocol/companion.go, protocol/validate_frame_addressing.go and the address
    table of protocol/source_address_selection.go. *)

From S2P Require Import Prelude Errors Wire.
#[local] Open Scope string_scope.

(** ** The source-address table *)

Definition SourceAddressPriorityP0 : string := "p0".
Definition SourceAddressPriorityP1 : string := "p1".
Definition SourceAddressPriorityP2 : string := "p2".
Definition SourceAddressPriorityP3 : string := "p3".
Definition SourceAddressPriorityP4 : string := "p4".
Definition SourceAddressDescriptionPCModem : string := "PC/Modem".
Definition SourceAddressDescriptionHeatingRegulator : string := "Heating regulator".
Definition SourceAddressDescriptionHeatingCircuitRegulator1 : string := "Heating circuit regulator 1".
Definition SourceAddressDescriptionHeatingCircuitRegulator2 : string := "Heating circuit regulator 2".
Definition SourceAddressDescriptionHeatingCircuitRegulator3 : string := "Heating circuit regulator 3".
Definition SourceAddressDescriptionHandheldProgrammerRemote : string := "Handheld programmer / remote".
Definition SourceAddressDescriptionBusInterfaceClimateRegulator : string := "Bus interface / climate regulator".
Definition SourceAddressDescriptionBusInterface : string := "Bus interface".
Definition SourceAddressDescriptionCombustionController1 : string := "Combustion controller 1".
Definition SourceAddressDescriptionCombustionController2 : string := "Combustion controller 2".
Definition SourceAddressDescriptionCombustionController3 : string := "Combustion controller 3".
Definition SourceAddressDescriptionCombustionController4 : string := "Combustion controller 4".
Definition SourceAddressDescriptionCombustionController5 : string := "Combustion controller 5".
Definition SourceAddressDescriptionNotPreallocated : string := "Not preallocated".
Definition SourceAddressDescriptionClockRadioClockModule : string := "Clock/radio-clock module".
Definition SourceAddressDescriptionPC : string := "PC".

Record SourceAddressTableRow := mkRow {
  Source : byte;
  PriorityIndex : string;
  ArbitrationNibble : byte;
  OfficialDescriptionSummary : string;
  CanonicalDescription : string;
  FreeUse : bool;
  RecommendedFor : string;
  RowCompanion : byte
}.

#[export] Instance row_eq_dec : EqDecision SourceAddressTableRow.
Proof. solve_decision. Defined.

Definition sourceAddressTableV1 : list SourceAddressTableRow :=
  [  mkRow x00 SourceAddressPriorityP0 x00 "PC/Modem" SourceAddressDescriptionPCModem false "none" x05;
     mkRow x10 SourceAddressPriorityP0 x00 "Heating controller" SourceAddressDescriptionHeatingRegulator false "none" x15;
     mkRow x30 SourceAddressPriorityP0 x00 "Heating circuit controller 1" SourceAddressDescriptionHeatingCircuitRegulator1 false "none" x35;
     mkRow x70 SourceAddressPriorityP0 x00 "Heating circuit controller 2" SourceAddressDescriptionHeatingCircuitRegulator2 false "none" x75;
     mkRow xf0 SourceAddressPriorityP0 x00 "Heating circuit controller 3" SourceAddressDescriptionHeatingCircuitRegulator3 false "none" xf5;
     mkRow x01 SourceAddressPriorityP1 x01 "Hand programmer / Remote control" SourceAddressDescriptionHandheldProgrammerRemote false "none" x06;
     mkRow x11 SourceAddressPriorityP1 x01 "Bus interface / Climate controller" SourceAddressDescriptionBusInterfaceClimateRegulator false "none" x16;
     mkRow x31 SourceAddressPriorityP1 x01 "Bus interface" SourceAddressDescriptionBusInterface false "none" x36;
     mkRow x71 SourceAddressPriorityP1 x01 "Heating controller" SourceAddressDescriptionHeatingRegulator false "none" x76;
     mkRow xf1 SourceAddressPriorityP1 x01 "Heating controller" SourceAddressDescriptionHeatingRegulator false "none" xf6;
     mkRow x03 SourceAddressPriorityP2 x03 "Burner controller 1" SourceAddressDescriptionCombustionController1 false "none" x08;
     mkRow x13 SourceAddressPriorityP2 x03 "Burner controller 2" SourceAddressDescriptionCombustionController2 false "none" x18;
     mkRow x33 SourceAddressPriorityP2 x03 "Burner controller 3" SourceAddressDescriptionCombustionController3 false "none" x38;
     mkRow x73 SourceAddressPriorityP2 x03 "Burner controller 4" SourceAddressDescriptionCombustionController4 false "none" x78;
     mkRow xf3 SourceAddressPriorityP2 x03 "Burner controller 5" SourceAddressDescriptionCombustionController5 false "none" xf8;
     mkRow x07 SourceAddressPriorityP3 x07 "empty" SourceAddressDescriptionNotPreallocated true "none" x0c;
     mkRow x17 SourceAddressPriorityP3 x07 "Heating controller recommendation" SourceAddressDescriptionNotPreallocated true "Heating regulator" x1c;
     mkRow x37 SourceAddressPriorityP3 x07 "Heating controller recommendation" SourceAddressDescriptionNotPreallocated true "Heating regulator" x3c;
     mkRow x77 SourceAddressPriorityP3 x07 "Heating controller recommendation" SourceAddressDescriptionNotPreallocated true "Heating regulator" x7c;
     mkRow xf7 SourceAddressPriorityP3 x07 "Heating controller recommendation" SourceAddressDescriptionNotPreallocated true "Heating regulator" xfc;
     mkRow x0f SourceAddressPriorityP4 x0f "Clock module / Radio clock module" SourceAddressDescriptionClockRadioClockModule false "none" x14;
     mkRow x1f SourceAddressPriorityP4 x0f "Burner controller 6 recommendation" SourceAddressDescriptionNotPreallocated true "Combustion controller 6" x24;
     mkRow x3f SourceAddressPriorityP4 x0f "Burner controller 7 recommendation" SourceAddressDescriptionNotPreallocated true "Combustion controller 7" x44;
     mkRow x7f SourceAddressPriorityP4 x0f "Burner controller 8 recommendation" SourceAddressDescriptionNotPreallocated true "Combustion controller 8" x84;
     mkRow xff SourceAddressPriorityP4 x0f "PC" SourceAddressDescriptionPC false "none" x04 ].

Definition CompanionAddressForSource (source : byte) : byte := b8 (u8 source + 0x05).

Definition LookupSourceAddress (source : byte) : option SourceAddressTableRow :=
  List.find (fun row => Source row =b source) sourceAddressTableV1.

(** ** Frames and frame types *)

(** [FrameType] is a uint8; the values above 3 have no name. *)
Inductive FrameType :=
| FrameTypeUnknown
| FrameTypeBroadcast
| FrameTypeInitiatorTarget
| FrameTypeInitiatorInitiator
| FrameTypeOther (n : byte).

#[export] Instance frametype_eq_dec : EqDecision FrameType.
Proof. solve_decision. Defined.

Record Frame := mkFrame {
  fSource : byte;
  fTarget : byte;
  fPrimary : byte;
  fSecondary : byte;
  fData : list byte;
  fType : FrameType
}.

#[export] Instance frame_eq_dec : EqDecision Frame.
Proof. solve_decision. Defined.

Definition isValidAddress (addr : byte) : bool :=
  negb (addr =b SymbolEscape) && negb (addr =b SymbolSyn).

Definition initiatorPartIndex (bits : byte) : Z :=
  if bits =b x00 then 1
  else if bits =b x01 then 2
  else if bits =b x03 then 3
  else if bits =b x07 then 4
  else if bits =b x0f then 5
  else 0.

Definition IsInitiatorCapableAddress (addr : byte) : bool :=
  (0 <? initiatorPartIndex (band addr x0f))%Z
  && (0 <? initiatorPartIndex (bshr (band addr xf0) 4))%Z.

Definition FrameTypeForTarget (target : byte) : FrameType :=
  if target =b AddressBroadcast then FrameTypeBroadcast
  else if negb (isValidAddress target) then FrameTypeUnknown
  else if IsInitiatorCapableAddress target then FrameTypeInitiatorInitiator
  else FrameTypeInitiatorTarget.

(** [Frame.Type] and [Frame.EffectiveFrameType]. *)
Definition Frame_Type (f : Frame) : FrameType := FrameTypeForTarget (fTarget f).

Definition EffectiveFrameType (f : Frame) : FrameType :=
  if decide (fType f = FrameTypeUnknown) then FrameTypeForTarget (fTarget f) else fType f.

(** ** Address classes *)

Inductive AddressClass :=
| AddressClassReserved | AddressClassMaster | AddressClassSlave | AddressClassBroadcast.

#[export] Instance class_eq_dec : EqDecision AddressClass.
Proof. solve_decision. Defined.

Definition AddressClass_String (c : AddressClass) : string :=
  match c with
  | AddressClassMaster => "master"
  | AddressClassSlave => "slave"
  | AddressClassBroadcast => "broadcast"
  | AddressClassReserved => "reserved"
  end.

(** The 256-entry table that [init] fills: every byte is a slave, then each
    override is stored at its index. *)
Definition set_class (b : byte) (c : AddressClass) (t : list AddressClass) : list AddressClass :=
  <[ Z.to_nat (u8 b) := c ]> t.

Definition addressClassTable : list AddressClass :=
  let t := replicate 256 AddressClassSlave in
  let t := foldl (fun t row => set_class (Source row) AddressClassMaster t) t sourceAddressTableV1 in
  let t := set_class xfe AddressClassBroadcast t in
  let t := set_class xaa AddressClassReserved t in
  set_class xa9 AddressClassReserved t.

Definition AddressClassOf (addr : byte) : AddressClass :=
  nth (Z.to_nat (u8 addr)) addressClassTable AddressClassReserved.

(** ** Canonical pairs *)

Definition canonicalSourceToCompanion : gmap byte byte :=
  foldl (fun m row => <[ Source row := RowCompanion row ]> m) ∅ sourceAddressTableV1.
Definition canonicalCompanionToSource : gmap byte byte :=
  foldl (fun m row => <[ RowCompanion row := Source row ]> m) ∅ sourceAddressTableV1.
Definition canonicalSourceTier : gmap byte string :=
  foldl (fun m row => <[ Source row := PriorityIndex row ]> m) ∅ sourceAddressTableV1.
Definition canonicalSourceFreeUse : gmap byte bool :=
  foldl (fun m row => <[ Source row := FreeUse row ]> m) ∅ sourceAddressTableV1.

Definition CompanionOfSource (source : byte) : option byte := canonicalSourceToCompanion !! source.
Definition SourceOfCompanion (companion : byte) : option byte := canonicalCompanionToSource !! companion.
Definition IsCanonicalSource (addr : byte) : bool :=
  if canonicalSourceToCompanion !! addr is Some _ then true else false.
Definition IsCanonicalCompanion (addr : byte) : bool :=
  if canonicalCompanionToSource !! addr is Some _ then true else false.
Definition SourceTier (source : byte) : option string := canonicalSourceTier !! source.
Definition IsFreeUseSource (source : byte) : option bool := canonicalSourceFreeUse !! source.

Definition Companion (addr : byte) : option byte :=
  match CompanionOfSource addr with
  | Some companion => Some companion
  | None => SourceOfCompanion addr
  end.

(** ** The frame-type addressing contract *)

Definition invalid_address (msg : string) : error :=
  EWrap "" (ESentinel SInvalidFrameAddress) (": " +:+ msg).

Definition requires (what : string) (b : byte) (c : AddressClass) : option error :=
  Some (invalid_address (what +:+ "0x" +:+ fmt_02X b +:+ " (" +:+ AddressClass_String c +:+ ")")).

(** [None] is the nil error. *)
Definition ValidateFrameAddressing (ft : FrameType) (src dst : byte) : option error :=
  if decide (ft = FrameTypeUnknown) then
    Some (invalid_address "frame_type=unknown (caller must declare M2S/M2M/M2BC explicitly)")
  else if src =b dst then
    Some (invalid_address ("src == dst == 0x" +:+ fmt_02X src +:+ " (self-addressing forbidden)"))
  else
  let srcClass := AddressClassOf src in
  let dstClass := AddressClassOf dst in
  if decide (srcClass = AddressClassReserved) then
    Some (invalid_address ("src=0x" +:+ fmt_02X src +:+ " is reserved (SYN/ESCAPE)"))
  else if decide (dstClass = AddressClassReserved) then
    Some (invalid_address ("dst=0x" +:+ fmt_02X dst +:+ " is reserved (SYN/ESCAPE)"))
  else match ft with
  | FrameTypeInitiatorTarget =>
      if negb (bool_decide (srcClass = AddressClassMaster))
      then requires "M2S requires src=Master, got src=" src srcClass
      else if negb (bool_decide (dstClass = AddressClassSlave))
      then requires "M2S requires dst=Slave, got dst=" dst dstClass
      else None
  | FrameTypeInitiatorInitiator =>
      if negb (bool_decide (srcClass = AddressClassMaster))
      then requires "M2M requires src=Master, got src=" src srcClass
      else if negb (bool_decide (dstClass = AddressClassMaster))
      then requires "M2M requires dst=Master, got dst=" dst dstClass
      else None
  | FrameTypeBroadcast =>
      if negb (bool_decide (srcClass = AddressClassMaster))
      then requires "M2BC requires src=Master, got src=" src srcClass
      else if negb (bool_decide (dstClass = AddressClassBroadcast))
      then requires "M2BC requires dst=0xFE, got dst=" dst dstClass
      else None
  | FrameTypeOther n => Some (invalid_address ("unsupported FrameType " +:+ fmt_d (u8 n)))
  | FrameTypeUnknown => None
  end.

Definition Frame_Validate (f : Frame) : option error :=
  ValidateFrameAddressing (EffectiveFrameType f) (fSource f) (fTarget f).

(** ** The table as a whole *)

(** The class of each byte, as the taxonomy states it. *)
Definition class_spec (b : byte) : AddressClass :=
  if (b =b SymbolEscape) || (b =b SymbolSyn) then AddressClassReserved
  else if b =b AddressBroadcast then AddressClassBroadcast
  else if IsInitiatorCapableAddress b then AddressClassMaster
  else AddressClassSlave.

Lemma AddressClassOf_spec b : AddressClassOf b = class_spec b.
Proof. byte_decide b. Qed.

Lemma Master_class b : AddressClassOf b = AddressClassMaster <-> IsInitiatorCapableAddress b = true.
Proof. byte_decide b. Qed.

Lemma Broadcast_class b : AddressClassOf b = AddressClassBroadcast <-> b = AddressBroadcast.
Proof. byte_decide b. Qed.

Lemma Reserved_class b :
  AddressClassOf b = AddressClassReserved <-> b = SymbolEscape \/ b = SymbolSyn.
Proof. byte_decide b. Qed.

(** The table, the nibble rule and the canonical maps define the same 25
    sources; the classes partition the bytes as 25 + 228 + 1 + 2. *)
Theorem address_taxonomy :
  (forall b, AddressClassOf b = AddressClassMaster <-> IsInitiatorCapableAddress b = true) /\
  (forall b, IsCanonicalSource b = IsInitiatorCapableAddress b) /\
  (forall b, AddressClassOf b = AddressClassBroadcast <-> b = AddressBroadcast) /\
  (forall b, AddressClassOf b = AddressClassReserved <-> b = SymbolEscape \/ b = SymbolSyn) /\
  (length (filter (fun b => AddressClassOf b = AddressClassMaster) all_bytes) = 25 /\
   length (filter (fun b => AddressClassOf b = AddressClassSlave) all_bytes) = 228)%nat.
Proof.
  splits.
  - apply Master_class.
  - intros b. apply eqb_prop. byte_cases b.
  - apply Broadcast_class.
  - apply Reserved_class.
  - vm_compute. reflexivity.
  - vm_compute. reflexivity.
Qed.

(** [Companion] is an involution on the 50 canonical addresses, adds 5 modulo
    256 to a source, never pairs two sources, and is undefined elsewhere. *)
Theorem Companion_involutive :
  (forall a b, Companion a = Some b -> Companion b = Some a) /\
  (forall s, IsCanonicalSource s = true -> Companion s = Some (CompanionAddressForSource s)) /\
  (forall a, IsCanonicalSource a && IsCanonicalCompanion a = false) /\
  (forall a, Companion a = None <-> IsCanonicalSource a || IsCanonicalCompanion a = false).
Proof.
  splits.
  - assert (forall a, (match Companion a with
                       | Some b => bool_decide (Companion b = Some a)
                       | None => true end) = true) as Hall by (intros a; byte_cases a).
    intros a b Hab. specialize (Hall a). rewrite Hab in Hall. by apply bool_decide_eq_true in Hall.
  - assert (forall s, implb (IsCanonicalSource s)
      (bool_decide (Companion s = Some (CompanionAddressForSource s))) = true) as Hall
      by (intros s; byte_cases s).
    intros s Hs. specialize (Hall s). rewrite Hs in Hall. by apply bool_decide_eq_true in Hall.
  - intros a. apply negb_true_iff. byte_cases a.
  - intros a. byte_decide a.
Qed.

(** ** What the validator accepts *)

(** The contract of the three frame kinds. *)
Definition addressing_contract (ft : FrameType) (src dst : byte) : Prop :=
  src <> dst /\ AddressClassOf src = AddressClassMaster /\
  match ft with
  | FrameTypeInitiatorTarget => AddressClassOf dst = AddressClassSlave
  | FrameTypeInitiatorInitiator => AddressClassOf dst = AddressClassMaster
  | FrameTypeBroadcast => dst = AddressBroadcast
  | _ => False
  end.

Ltac decide_contract :=
  repeat first [ progress case_decide | case_bool_decide | case_byte ]; simpl; try done.

Lemma validator_contract ft src dst :
  ValidateFrameAddressing ft src dst = None <-> addressing_contract ft src dst.
Proof.
  unfold ValidateFrameAddressing, addressing_contract, requires.
  pose proof (Broadcast_class dst) as HB.
  destruct ft; decide_contract; split; intros; destruct_and?; splits; intuition congruence.
Qed.

(** The validator returns nil exactly on the contract, and every rejection
    wraps [ErrInvalidFrameAddress]. *)
Theorem ValidateFrameAddressing_spec ft src dst :
  (ValidateFrameAddressing ft src dst = None <-> addressing_contract ft src dst) /\
  (forall e, ValidateFrameAddressing ft src dst = Some e -> errors_is e SInvalidFrameAddress = true).
Proof.
  split; [apply validator_contract|].
  - intros e. unfold ValidateFrameAddressing, requires.
    destruct ft; decide_contract; intros [= <-]; reflexivity.
Qed.

Lemma FrameTypeForTarget_class dst :
  match AddressClassOf dst with
  | AddressClassMaster => FrameTypeForTarget dst = FrameTypeInitiatorInitiator
  | AddressClassSlave => FrameTypeForTarget dst = FrameTypeInitiatorTarget
  | AddressClassBroadcast => FrameTypeForTarget dst = FrameTypeBroadcast
  | AddressClassReserved => FrameTypeForTarget dst = FrameTypeUnknown
  end.
Proof.
  assert ((match AddressClassOf dst with
  | AddressClassMaster => bool_decide (FrameTypeForTarget dst = FrameTypeInitiatorInitiator)
  | AddressClassSlave => bool_decide (FrameTypeForTarget dst = FrameTypeInitiatorTarget)
  | AddressClassBroadcast => bool_decide (FrameTypeForTarget dst = FrameTypeBroadcast)
  | AddressClassReserved => bool_decide (FrameTypeForTarget dst = FrameTypeUnknown)
  end) = true) as H by byte_cases dst.
  by destruct (AddressClassOf dst); apply bool_decide_eq_true in H.
Qed.

(** A frame that [Bus.Send] lets through has the type its target implies, so
    the bus, which derives the type from the target, runs the transaction its
    caller declared. *)
Theorem validated_frame_type f :
  Frame_Validate f = None -> Frame_Type f = EffectiveFrameType f.
Proof.
  intros H. apply validator_contract in H as (_ & _ & H).
  unfold Frame_Type. pose proof (FrameTypeForTarget_class (fTarget f)) as HT.
  destruct (EffectiveFrameType f); try done.
  - apply Broadcast_class in H. by rewrite H in HT.
  - by rewrite H in HT.
  - by rewrite H in HT.
Qed.

Example validated_frame_type_witness :
  Frame_Type (mkFrame x31 x08 xb5 x09 [x0d] FrameTypeInitiatorTarget) = FrameTypeInitiatorTarget.
Proof. apply validated_frame_type. reflexivity. Defined.

(** A frame without a declared type is accepted from any source-capable address
    to any other address that is not a control symbol. *)
Theorem undeclared_frame_accepted f :
  fType f = FrameTypeUnknown ->
  (Frame_Validate f = None <->
   fSource f <> fTarget f /\ IsInitiatorCapableAddress (fSource f) = true /\
   isValidAddress (fTarget f) = true).
Proof.
  intros Hft. unfold Frame_Validate, EffectiveFrameType. rewrite decide_True by done.
  rewrite validator_contract. unfold addressing_contract. rewrite Master_class.
  pose proof (FrameTypeForTarget_class (fTarget f)) as HT.
  pose proof (Reserved_class (fTarget f)) as HR.
  assert (isValidAddress (fTarget f) = true <-> AddressClassOf (fTarget f) <> AddressClassReserved) as HV.
  { rewrite HR. unfold isValidAddress. repeat case_byte; simpl; intuition congruence. }
  pose proof (Broadcast_class (fTarget f)) as HB.
  destruct (AddressClassOf (fTarget f)); rewrite HT; intuition congruence.
Qed.

Example undeclared_frame_accepted_witness :
  Frame_Validate (mkFrame x31 xfe xb5 x16 [] FrameTypeUnknown) = None.
Proof. apply undeclared_frame_accepted; [reflexivity|]. splits; [discriminate|reflexivity|reflexivity]. Defined.
