(* ===== verification/TelegramFsm.v ===== *)
(** The per-telegram phase machine (protocol/telegram_fsm/fsm.go).

    [Machine] is the Go struct, the [feed*] functions are its per-phase
    handlers, and [Feed] dispatches on the phase.  The specification is the
    grammar [telegram]: the machine accepts exactly the telegrams of the grammar
    and removes raw AUTO-SYN noise from everything else it forwards. *)

From S2P Require Import Prelude.

(** ** Data *)

Inductive State :=
| StateIdle | StateArbitrating
| StateMasterHeader | StateMasterData | StateMasterCRC | StateWaitMasterAck | StateMasterRetx
| StateSlaveLength | StateSlaveData | StateSlaveCRC | StateWaitSlaveAck | StateSlaveRetx
| StateWaitTerminatorSyn | StateAborted | StatePassiveTracking.

#[export] Instance state_eq_dec : EqDecision State.
Proof. solve_decision. Defined.

Inductive Decision := DecisionForward | DecisionDropAaInjection | DecisionProtocolFault.

#[export] Instance decision_eq_dec : EqDecision Decision.
Proof. solve_decision. Defined.

(** Byte-valued fields are bytes; the counters are integers kept modulo 256. *)
Record Machine := mkMachine {
  state : State;
  masterNN : byte;
  masterBytesConsumed : Z;
  masterDest : byte;
  masterRetxCount : Z;
  slaveNN : byte;
  slaveRetxCount : Z;
  passive : bool
}.

#[export] Instance machine_eq_dec : EqDecision Machine.
Proof. solve_decision. Defined.

Definition MaxRetxPerPhase : Z := 1.
Definition BroadcastDestination : byte := xfe.
Definition ACKByte : byte := x00.
Definition NACKByte : byte := xff.
Definition SynByte : byte := xaa.

Definition IsTerminal (s : State) : bool := bool_decide (s = StateAborted).

(** Field updates. *)
Definition with_state (s : State) (m : Machine) : Machine :=
  mkMachine s (masterNN m) (masterBytesConsumed m) (masterDest m) (masterRetxCount m)
    (slaveNN m) (slaveRetxCount m) (passive m).
Definition with_consumed (c : Z) (m : Machine) : Machine :=
  mkMachine (state m) (masterNN m) (wrap 8 c) (masterDest m) (masterRetxCount m)
    (slaveNN m) (slaveRetxCount m) (passive m).
Definition with_master_nn (n : byte) (m : Machine) : Machine :=
  mkMachine (state m) n (masterBytesConsumed m) (masterDest m) (masterRetxCount m)
    (slaveNN m) (slaveRetxCount m) (passive m).
Definition with_dest (d : byte) (m : Machine) : Machine :=
  mkMachine (state m) (masterNN m) (masterBytesConsumed m) d (masterRetxCount m)
    (slaveNN m) (slaveRetxCount m) (passive m).
Definition with_master_retx (r : Z) (m : Machine) : Machine :=
  mkMachine (state m) (masterNN m) (masterBytesConsumed m) (masterDest m) (wrap 8 r)
    (slaveNN m) (slaveRetxCount m) (passive m).
Definition with_slave_nn (n : byte) (m : Machine) : Machine :=
  mkMachine (state m) (masterNN m) (masterBytesConsumed m) (masterDest m) (masterRetxCount m)
    n (slaveRetxCount m) (passive m).
Definition with_slave_retx (r : Z) (m : Machine) : Machine :=
  mkMachine (state m) (masterNN m) (masterBytesConsumed m) (masterDest m) (masterRetxCount m)
    (slaveNN m) (wrap 8 r) (passive m).
Definition with_passive (p : bool) (m : Machine) : Machine :=
  mkMachine (state m) (masterNN m) (masterBytesConsumed m) (masterDest m) (masterRetxCount m)
    (slaveNN m) (slaveRetxCount m) p.

(** ** Operations *)

Definition New : Machine := mkMachine StateIdle x00 0 x00 0 x00 0 false.

Definition Machine_State (m : Machine) : State :=
  if passive m && negb (bool_decide (state m = StateIdle)) && negb (IsTerminal (state m))
  then StatePassiveTracking
  else state m.

Definition InternalState (m : Machine) : State := state m.
Definition IsPassive (m : Machine) : bool := passive m.

(** Every field is overwritten. *)
Definition ResetToIdle (m : Machine) : Machine := mkMachine StateIdle x00 0 x00 0 x00 0 false.

Definition EnterArbitrating (m : Machine) : Machine :=
  with_passive false (with_state StateArbitrating m).

Definition EnterPassiveTracking (m : Machine) : Machine :=
  mkMachine StateMasterHeader x00 1 x00 0 x00 0 true.

Definition raw_syn (b : byte) (wasEscaped : bool) : bool := (b =b SynByte) && negb wasEscaped.

Definition feedIdle (m : Machine) (b : byte) (wasEscaped : bool) : Machine * Decision :=
  (m, DecisionForward).

Definition transitionAfterArbitrating (m : Machine) (b : byte) : Machine :=
  with_consumed 1 (with_state StateMasterHeader m).

Definition feedArbitrating (m : Machine) (b : byte) (wasEscaped : bool) : Machine * Decision :=
  if raw_syn b wasEscaped then (m, DecisionDropAaInjection)
  else (transitionAfterArbitrating m b, DecisionForward).

Definition feedMasterHeader (m : Machine) (b : byte) (wasEscaped : bool) : Machine * Decision :=
  if raw_syn b wasEscaped then (m, DecisionDropAaInjection)
  else
    let m := if masterBytesConsumed m =? 1 then with_dest b m
             else if masterBytesConsumed m =? 4 then with_master_nn b m
             else m in
    if (masterBytesConsumed m =? 4) && (16 <? u8 b)
    then (with_state StateAborted m, DecisionProtocolFault)
    else
      let m := with_consumed (masterBytesConsumed m + 1) m in
      let m :=
        if 5 <=? masterBytesConsumed m then
          if masterNN m =b x00
          then with_consumed 0 (with_state StateMasterCRC m)
          else with_consumed 0 (with_state StateMasterData m)
        else m in
      (m, DecisionForward).

Definition feedMasterData (m : Machine) (b : byte) (wasEscaped : bool) : Machine * Decision :=
  if raw_syn b wasEscaped then (m, DecisionDropAaInjection)
  else
    let m := with_consumed (masterBytesConsumed m + 1) m in
    if u8 (masterNN m) <=? masterBytesConsumed m
    then (with_consumed 0 (with_state StateMasterCRC m), DecisionForward)
    else (m, DecisionForward).

Definition feedMasterCRC (m : Machine) (b : byte) (wasEscaped : bool) : Machine * Decision :=
  if raw_syn b wasEscaped then (m, DecisionDropAaInjection)
  else if masterDest m =b BroadcastDestination
  then (with_state StateWaitTerminatorSyn m, DecisionForward)
  else (with_state StateWaitMasterAck m, DecisionForward).

Definition feedWaitMasterAck (m : Machine) (b : byte) (wasEscaped : bool) : Machine * Decision :=
  if raw_syn b wasEscaped then (m, DecisionDropAaInjection)
  else if b =b ACKByte
  then (with_consumed 0 (with_state StateSlaveLength m), DecisionForward)
  else if b =b NACKByte then
    if masterRetxCount m <? MaxRetxPerPhase
    then (with_state StateMasterRetx (with_master_retx (masterRetxCount m + 1) m), DecisionForward)
    else (with_state StateAborted m, DecisionForward)
  else (with_state StateAborted m, DecisionProtocolFault).

Definition feedMasterRetx (m : Machine) (b : byte) (wasEscaped : bool) : Machine * Decision :=
  if raw_syn b wasEscaped then (m, DecisionDropAaInjection)
  else (with_dest x00 (with_master_nn x00 (with_consumed 1 (with_state StateMasterHeader m))),
        DecisionForward).

Definition feedSlaveLength (m : Machine) (b : byte) (wasEscaped : bool) : Machine * Decision :=
  if raw_syn b wasEscaped then (m, DecisionDropAaInjection)
  else if 16 <? u8 b then (with_state StateAborted m, DecisionProtocolFault)
  else
    let m := with_slave_nn b m in
    if b =b x00
    then (with_consumed 0 (with_state StateSlaveCRC m), DecisionForward)
    else (with_consumed 0 (with_state StateSlaveData m), DecisionForward).

Definition feedSlaveData (m : Machine) (b : byte) (wasEscaped : bool) : Machine * Decision :=
  if raw_syn b wasEscaped then (m, DecisionDropAaInjection)
  else
    let m := with_consumed (masterBytesConsumed m + 1) m in
    if u8 (slaveNN m) <=? masterBytesConsumed m
    then (with_consumed 0 (with_state StateSlaveCRC m), DecisionForward)
    else (m, DecisionForward).

Definition feedSlaveCRC (m : Machine) (b : byte) (wasEscaped : bool) : Machine * Decision :=
  if raw_syn b wasEscaped then (m, DecisionDropAaInjection)
  else (with_state StateWaitSlaveAck m, DecisionForward).

Definition feedWaitSlaveAck (m : Machine) (b : byte) (wasEscaped : bool) : Machine * Decision :=
  if raw_syn b wasEscaped then (m, DecisionDropAaInjection)
  else if b =b ACKByte then (with_state StateWaitTerminatorSyn m, DecisionForward)
  else if b =b NACKByte then
    if slaveRetxCount m <? MaxRetxPerPhase
    then (with_state StateSlaveRetx (with_slave_retx (slaveRetxCount m + 1) m), DecisionForward)
    else (with_state StateAborted m, DecisionForward)
  else (with_state StateAborted m, DecisionProtocolFault).

Definition feedSlaveRetx (m : Machine) (b : byte) (wasEscaped : bool) : Machine * Decision :=
  if raw_syn b wasEscaped then (m, DecisionDropAaInjection)
  else if 16 <? u8 b then (with_state StateAborted m, DecisionProtocolFault)
  else
    let m := with_slave_nn b m in
    let m := if b =b x00 then with_state StateSlaveCRC m else with_state StateSlaveData m in
    (with_consumed 0 m, DecisionForward).

Definition feedWaitTerminatorSyn (m : Machine) (b : byte) (wasEscaped : bool) : Machine * Decision :=
  if raw_syn b wasEscaped then (ResetToIdle m, DecisionForward)
  else (with_state StateAborted m, DecisionProtocolFault).

Definition Feed (m : Machine) (b : byte) (wasEscaped : bool) : Machine * Decision :=
  match state m with
  | StateIdle => feedIdle m b wasEscaped
  | StateArbitrating => feedArbitrating m b wasEscaped
  | StateMasterHeader => feedMasterHeader m b wasEscaped
  | StateMasterData => feedMasterData m b wasEscaped
  | StateMasterCRC => feedMasterCRC m b wasEscaped
  | StateWaitMasterAck => feedWaitMasterAck m b wasEscaped
  | StateMasterRetx => feedMasterRetx m b wasEscaped
  | StateSlaveLength => feedSlaveLength m b wasEscaped
  | StateSlaveData => feedSlaveData m b wasEscaped
  | StateSlaveCRC => feedSlaveCRC m b wasEscaped
  | StateWaitSlaveAck => feedWaitSlaveAck m b wasEscaped
  | StateSlaveRetx => feedSlaveRetx m b wasEscaped
  | StateWaitTerminatorSyn => feedWaitTerminatorSyn m b wasEscaped
  | StateAborted | StatePassiveTracking => (m, DecisionProtocolFault)
  end.

(** ** Runs *)

(** A decoded symbol: its value and whether it came from an escape pair. *)
Abbreviation sym := (byte * bool)%type.

Definition noise (s : sym) : bool := raw_syn s.1 s.2.

Definition feed_sym (m : Machine) (s : sym) : Machine * Decision := Feed m s.1 s.2.

Fixpoint run (m : Machine) (l : list sym) : Machine * list Decision :=
  match l with
  | [] => (m, [])
  | s :: l' =>
      let '(m1, d) := feed_sym m s in
      let '(m2, ds) := run m1 l' in (m2, d :: ds)
  end.

(** A caller's step: a byte, or one of the three control operations. *)
Inductive event := EvFeed (s : sym) | EvArbitrating | EvPassive | EvReset.

Inductive fsm_step : Machine -> event -> Machine -> Prop :=
| step_feed m s : fsm_step m (EvFeed s) (feed_sym m s).1
| step_arbitrating m : fsm_step m EvArbitrating (EnterArbitrating m)
| step_passive m : fsm_step m EvPassive (EnterPassiveTracking m)
| step_reset m : fsm_step m EvReset (ResetToIdle m).

(** Well-formedness of a machine in each phase. *)
Definition phase_ok (m : Machine) : Prop :=
  match state m with
  | StateIdle => m = New
  | StateMasterHeader => 1 <= masterBytesConsumed m <= 4
  | StateMasterData => u8 (masterNN m) <= 16 /\ 0 <= masterBytesConsumed m < u8 (masterNN m)
  | StateSlaveData => u8 (slaveNN m) <= 16 /\ 0 <= masterBytesConsumed m < u8 (slaveNN m)
  | StatePassiveTracking => False
  | _ => True
  end.

Definition wf (m : Machine) : Prop :=
  0 <= masterRetxCount m <= MaxRetxPerPhase /\
  0 <= slaveRetxCount m <= MaxRetxPerPhase /\
  phase_ok m.

(** ** The telegram grammar *)

Definition wire_syn : sym := (SynByte, false).
Definition ack_sym (s : sym) : Prop := s.1 = ACKByte.
Definition nack_sym (s : sym) : Prop := s.1 = NACKByte.
Definition quiet (l : list sym) : Prop := Forall (fun s => noise s = false) l.

(** [NN DB1..DBn CRC] with at most sixteen data bytes. *)
Inductive response : list sym -> Prop :=
| response_intro nn data crc :
    u8 nn.1 <= 16 -> len data = u8 nn.1 -> quiet (nn :: data ++ [crc]) ->
    response (nn :: data ++ [crc]).

(** [QQ ZZ PB SB NN DB1..DBn CRC] addressed to [zz]. *)
Inductive initiator_frame : byte -> list sym -> Prop :=
| initiator_frame_intro qq zz pb sb r :
    quiet [qq; zz; pb; sb] -> response r ->
    initiator_frame zz.1 (qq :: zz :: pb :: sb :: r).

(** The target's half with [n] retransmissions left: the response, then the
    initiator's verdict on it. *)
Inductive target_half : nat -> list sym -> Prop :=
| target_ack n r a : response r -> ack_sym a -> target_half n (r ++ [a; wire_syn])
| target_nack n r k t :
    response r -> nack_sym k -> target_half n t -> target_half (S n) (r ++ k :: t).

(** A telegram with [n] initiator and one target retransmission left. *)
Inductive telegram : nat -> list sym -> Prop :=
| telegram_broadcast n f :
    initiator_frame BroadcastDestination f -> telegram n (f ++ [wire_syn])
| telegram_ack n zz f a t :
    initiator_frame zz f -> zz <> BroadcastDestination -> ack_sym a -> target_half 1 t ->
    telegram n (f ++ a :: t)
| telegram_nack n zz f k t :
    initiator_frame zz f -> zz <> BroadcastDestination -> nack_sym k -> telegram n t ->
    telegram (S n) (f ++ k :: t).

(** The machine forwards every symbol and is back in Idle exactly at the end. *)
Fixpoint accepts (m : Machine) (l : list sym) : bool :=
  match l with
  | [] => bool_decide (state m = StateIdle)
  | s :: l' =>
      negb (bool_decide (state m = StateIdle))
      && bool_decide ((feed_sym m s).2 = DecisionForward)
      && accepts (feed_sym m s).1 l'
  end.

(** The same when the machine may also drop symbols. *)
Fixpoint completes (m : Machine) (l : list sym) : bool :=
  match l with
  | [] => bool_decide (state m = StateIdle)
  | s :: l' =>
      negb (bool_decide (state m = StateIdle))
      && negb (bool_decide ((feed_sym m s).2 = DecisionProtocolFault))
      && completes (feed_sym m s).1 l'
  end.

(** What the caller forwards downstream. *)
Fixpoint forwarded (m : Machine) (l : list sym) : list sym :=
  match l with
  | [] => []
  | s :: l' =>
      let rest := forwarded (feed_sym m s).1 l' in
      if decide ((feed_sym m s).2 = DecisionForward) then s :: rest else rest
  end.

(** A machine that has just been granted the bus. *)
Definition granted : Machine := EnterArbitrating New.

(** ** The bound on a telegram's length *)

(** The most symbols that can still be consumed from [WAIT_SLAVE_ACK] and from
    [WAIT_MASTER_ACK], by retransmissions left. *)
Definition slave_ack_bound (s : Z) : Z := 2 + 19 * s.
Definition master_ack_bound (m s : Z) : Z := 19 + slave_ack_bound s + 23 * m.

Definition bound (m : Machine) : Z :=
  let ms := MaxRetxPerPhase - masterRetxCount m in
  let ss := MaxRetxPerPhase - slaveRetxCount m in
  let a := master_ack_bound ms ss in
  let w := slave_ack_bound ss in
  match state m with
  | StateIdle | StateAborted | StatePassiveTracking => 0
  | StateArbitrating | StateMasterRetx => 22 + a
  | StateMasterHeader => 22 - masterBytesConsumed m + a
  | StateMasterData => u8 (masterNN m) - masterBytesConsumed m + 1 + a
  | StateMasterCRC => 1 + a
  | StateWaitMasterAck => a
  | StateSlaveLength | StateSlaveRetx => 18 + w
  | StateSlaveData => u8 (slaveNN m) - masterBytesConsumed m + 1 + w
  | StateSlaveCRC => 1 + w
  | StateWaitSlaveAck => w
  | StateWaitTerminatorSyn => 1
  end.

(** ** Proofs *)

(** Evaluates field updates and projections, and nothing else. *)
Ltac fsm_red :=
  cbv beta iota zeta delta [state masterNN masterBytesConsumed masterDest masterRetxCount slaveNN
    slaveRetxCount passive with_state with_consumed with_master_nn with_dest with_master_retx
    with_slave_nn with_slave_retx with_passive ResetToIdle EnterArbitrating EnterPassiveTracking
    fst snd andb].

Ltac fsm_case1 :=
  match goal with
  | |- context [raw_syn ?b ?e] => destruct (raw_syn b e) eqn:?
  | |- context [?a =b ?b] => destruct (byte_eqb_spec a b)
  | |- context [?a =? ?b] => destruct (Z.eqb_spec a b)
  | |- context [?a <=? ?b] => destruct (Z.leb_spec a b)
  | |- context [?a <? ?b] => destruct (Z.ltb_spec a b)
  end.

(** Unfolds the handler of the current phase and splits its branches.  The
    conditions are resolved before the field updates under them, which keeps
    the terms small. *)
Ltac fsm_cases :=
  cbv beta iota delta [feed_sym Feed feedIdle feedArbitrating transitionAfterArbitrating
    feedMasterHeader feedMasterData feedMasterCRC feedWaitMasterAck feedMasterRetx feedSlaveLength
    feedSlaveData feedSlaveCRC feedWaitSlaveAck feedSlaveRetx feedWaitTerminatorSyn
    state masterNN masterBytesConsumed masterDest masterRetxCount slaveNN slaveRetxCount passive
    fst snd];
  repeat (fsm_case1; cbv beta iota delta [andb]); fsm_red; repeat (fsm_case1; fsm_red).

Ltac byte_bounds :=
  repeat match goal with
  | b : byte |- _ => lazymatch goal with
                     | _ : 0 <= u8 b < 256 |- _ => fail
                     | _ => pose proof (u8_range b)
                     end
  end.

Lemma u8_zero b : b <> x00 -> 0 < u8 b.
Proof.
  intros Hne. pose proof (u8_range b). destruct (Z.eq_dec (u8 b) 0) as [E|]; [|lia].
  destruct Hne. by apply u8_inj.
Qed.

Ltac wf_arith :=
  repeat match goal with H : ?b <> x00 |- _ => apply u8_zero in H end;
  byte_bounds; unfold wrap, MaxRetxPerPhase in *; simpl in *;
  repeat rewrite Z.mod_small in * by lia; try lia.

Lemma feed_wf m s : wf m -> wf (feed_sym m s).1.
Proof.
  destruct m as [st nn c d mr snn sr p], s as [b e]. unfold wf, phase_ok.
  intros (Hm & Hs & Hp). simpl in Hm, Hs, Hp.
  destruct st; fsm_cases; subst; splits; try done; wf_arith.
Qed.

Lemma step_wf m ev m' : wf m -> fsm_step m ev m' -> wf m'.
Proof.
  intros Hm Hstep. destruct Hstep; [by apply feed_wf| | |].
  - destruct Hm as (? & ? & ?). by unfold wf, phase_ok.
  - unfold wf, phase_ok; simpl; unfold MaxRetxPerPhase; lia.
  - unfold wf, phase_ok; simpl; unfold MaxRetxPerPhase. splits; (lia || done).
Qed.

Lemma wf_New : wf New.
Proof. unfold wf, phase_ok; simpl; unfold MaxRetxPerPhase. splits; (lia || done). Qed.

Lemma wf_granted : wf granted.
Proof. apply (step_wf New EvArbitrating); [apply wf_New|constructor]. Qed.

(** Whatever bytes and control operations a caller applies to a new machine,
    the counters stay in range, the length of a phase is never overrun, each
    half is retransmitted at most once, and the composite passive state is never
    an internal phase. *)
Theorem reachable_wf evs m : steps fsm_step New evs m -> wf m.
Proof. intros H. exact (steps_invariant fsm_step wf step_wf _ _ _ H wf_New). Qed.

Example reachable_wf_witness : wf (EnterPassiveTracking New).
Proof.
  apply (reachable_wf [EvPassive]). econstructor; [apply step_passive|constructor].
Defined.

(** *** Noise *)

Lemma feed_drop m s : (feed_sym m s).2 = DecisionDropAaInjection -> (feed_sym m s).1 = m.
Proof.
  destruct m as [st nn c d mr snn sr p], s as [b e]. destruct st; fsm_cases; done.
Qed.

Lemma feed_noise m s :
  noise s = true -> state m <> StateIdle -> state m <> StateWaitTerminatorSyn ->
  state m <> StateAborted -> state m <> StatePassiveTracking ->
  feed_sym m s = (m, DecisionDropAaInjection).
Proof.
  destruct m as [st nn c d mr snn sr p], s as [b e]. unfold noise. simpl. intros Hn ????.
  destruct st; fsm_cases; congruence.
Qed.

Lemma completes_forwarded m l : completes m l = true -> accepts m (forwarded m l) = true.
Proof.
  revert m. induction l as [|s l IH]; intros m; simpl; [done|].
  rewrite !andb_true_iff. intros [[Hi Hf] Hc]. apply IH in Hc.
  destruct (feed_sym m s) as [m' d] eqn:E. simpl in *. destruct d; simpl in *; try done.
  - rewrite Hi, E. by simpl.
  - pose proof (feed_drop m s) as Hd. rewrite E in Hd. simpl in Hd.
    rewrite (Hd eq_refl) in *. done.
Qed.

(** *** Bounded length *)

Lemma feed_bound m s :
  wf m -> noise s = false -> state m <> StateIdle -> state m <> StateAborted ->
  bound (feed_sym m s).1 <= bound m - 1 /\ state (feed_sym m s).1 <> StateIdle.
Proof.
  destruct m as [st nn c d mr snn sr p], s as [b e]. unfold wf, phase_ok, noise. simpl.
  intros (Hm & Hs & Hp) Hn ??.
  destruct st; try done; fsm_cases; try congruence; split; try done;
    unfold bound, master_ack_bound, slave_ack_bound; simpl; wf_arith.
Qed.

Lemma bound_pos m : wf m -> state m <> StateIdle -> state m <> StateAborted -> 1 <= bound m.
Proof.
  destruct m as [st nn c d mr snn sr p]. unfold wf, phase_ok, bound, master_ack_bound, slave_ack_bound.
  simpl. intros (Hm & Hs & Hp) ??. destruct st; try done; wf_arith.
Qed.

Lemma run_aborted l m : state m = StateAborted -> state (run m l).1 = StateAborted.
Proof.
  intros Hm. assert (forall s, feed_sym m s = (m, DecisionProtocolFault)) as Hf.
  { intros s. unfold feed_sym, Feed. by rewrite Hm. }
  induction l as [|s l IH]; simpl; [done|]. rewrite Hf. by destruct (run m l).
Qed.

Lemma quiet_run_bound l m :
  wf m -> quiet l -> state m <> StateIdle -> state m <> StateAborted ->
  bound m <= len l -> state (run m l).1 = StateAborted.
Proof.
  revert m. induction l as [|s l IH]; intros m Hwf Hq Hi Ha Hlen.
  { pose proof (bound_pos m Hwf Hi Ha). rewrite len_nil in Hlen. lia. }
  inv Hq. simpl. pose proof (feed_bound m s Hwf ltac:(done) Hi Ha) as [Hb Hni].
  pose proof (feed_wf m s Hwf) as Hwf'. rewrite len_cons in Hlen.
  destruct (feed_sym m s) as [m' d]; simpl in *.
  destruct (decide (state m' = StateAborted)) as [Ha'|Ha'].
  - pose proof (run_aborted l m' Ha') as E. by destruct (run m' l).
  - specialize (IH m' Hwf' ltac:(done) Hni Ha' ltac:(lia)). by destruct (run m' l).
Qed.

(** No telegram is longer than 85 symbols: a machine granted the bus has
    aborted after any 85 symbols none of which is a raw SYN, so it never waits
    for ever on a babbling line. *)
Theorem telegram_length_bounded l :
  quiet l -> 85 <= len l -> state (run granted l).1 = StateAborted.
Proof. intros. apply quiet_run_bound; [apply wf_granted|done..]. Qed.

Example telegram_length_bounded_witness :
  state (run granted (replicate 85 (x00, false))).1 = StateAborted.
Proof.
  apply telegram_length_bounded; [|vm_compute; discriminate].
  apply Forall_replicate. reflexivity.
Defined.

(** *** The grammar *)

Lemma accepts_cons m s l :
  state m <> StateIdle ->
  accepts m (s :: l) = true <->
  (feed_sym m s).2 = DecisionForward /\ accepts (feed_sym m s).1 l = true.
Proof. intros H. simpl. rewrite bool_decide_false by done. simpl. by rewrite andb_true_iff, bool_decide_eq_true. Qed.

Lemma accepts_nil m : state m <> StateIdle -> accepts m [] = false.
Proof. intros. simpl. by rewrite bool_decide_false. Qed.

Lemma accepts_idle m l : state m = StateIdle -> accepts m l = true <-> l = [].
Proof. intros H. destruct l; simpl; rewrite H; by simpl. Qed.

Lemma quiet_app a b : quiet (a ++ b) <-> quiet a /\ quiet b.
Proof. apply Forall_app. Qed.

Lemma quiet_cons s l : quiet (s :: l) <-> noise s = false /\ quiet l.
Proof. apply Forall_cons_iff. Qed.

(** Opens the decomposition [s :: l = data ++ l'] of a non-empty data phase. *)
Ltac data_open data l' Hl :=
  intros ([|s data] & l' & Heq & Hl & Hq & Ha);
    [rewrite len_nil in Hl; lia|];
  simpl in Heq; injection Heq as <- ->; apply quiet_cons in Hq as [Hs Hq];
  rewrite len_cons in Hl; unfold noise in Hs; simpl in Hs.

(** One symbol of a data phase: the noise and wrong-count branches are
    contradictory, the last symbol ends the phase and any other continues it. *)
Ltac data_symbol b e l :=
  destruct l as [|[b e] l];
    [rewrite accepts_nil by done; split; [done|];
     intros ([|] & ? & ? & Hl & ?); [rewrite len_nil in Hl; lia|done]|];
  rewrite accepts_cons by done; fsm_cases; rewrite ?wrap_small in * by lia; try lia;
  try (split; [intros [? _]; done|]; let data := fresh in let l' := fresh in let Hl := fresh in data_open data l' Hl; congruence).

Ltac data_last b e l data l' Hl :=
  split;
  [ intros [_ H1]; exists [(b, e)], l; splits; try done; apply quiet_cons; split; [done|constructor]
  | data_open data l' Hl; destruct data; [done|rewrite len_cons in Hl; pose proof (len_nonneg data); lia] ].

Ltac data_more b e IH data l' Hl :=
  rewrite IH by lia; split;
  [ intros (_ & data & l' & -> & Hl & Hq & Ha); exists ((b, e) :: data), l';
    splits; try done; [rewrite len_cons; lia|by apply quiet_cons]
  | data_open data l' Hl; split; [done|]; exists data, l'; splits; try done; lia ].

Lemma accepts_aborted m l : state m = StateAborted -> accepts m l = false.
Proof. intros H. destruct l; simpl; rewrite H; [done|]. unfold feed_sym, Feed. by rewrite H. Qed.

Section Phases.
Context (nn : byte) (d : byte) (mr : Z) (snn : byte) (sr : Z) (p : bool).

(** The machine in phase [st] with [c] symbols of it consumed. *)
Notation at_ st c := (mkMachine st nn c d mr snn sr p).

Lemma accepts_terminator c l :
  accepts (at_ StateWaitTerminatorSyn c) l = true <-> l = [wire_syn].
Proof.
  destruct l as [|[b e] l]; [by rewrite accepts_nil|]. rewrite accepts_cons by done.
  fsm_cases.
  - rewrite accepts_idle by done. unfold raw_syn in *. unfold wire_syn.
    destruct (byte_eqb_spec b SynByte), e; simpl in *; try done. subst. naive_solver.
  - split; [naive_solver|]. intros [= -> -> ->]. done.
Qed.

(** A phase that consumes one symbol and moves on. *)
Lemma accepts_slave_crc c l :
  accepts (at_ StateSlaveCRC c) l = true <->
  exists crc l', l = crc :: l' /\ noise crc = false /\ accepts (at_ StateWaitSlaveAck c) l' = true.
Proof.
  destruct l as [|[b e] l]; [rewrite accepts_nil; naive_solver|]. rewrite accepts_cons by done.
  fsm_cases; unfold noise; naive_solver congruence.
Qed.

Lemma accepts_master_crc c l :
  accepts (at_ StateMasterCRC c) l = true <->
  exists crc l', l = crc :: l' /\ noise crc = false /\
    accepts (at_ (if d =b BroadcastDestination then StateWaitTerminatorSyn else StateWaitMasterAck) c)
      l' = true.
Proof.
  destruct l as [|[b e] l]; [rewrite accepts_nil; naive_solver|]. rewrite accepts_cons by done.
  fsm_cases; unfold noise; naive_solver congruence.
Qed.

(** The data phases consume exactly the announced number of symbols. *)
Lemma accepts_slave_data n c l :
  0 <= c -> u8 snn = c + 1 + Z.of_nat n ->
  accepts (at_ StateSlaveData c) l = true <->
  exists data l', l = data ++ l' /\ len data = Z.of_nat (S n) /\ quiet data /\
    accepts (at_ StateSlaveCRC 0) l' = true.
Proof.
  revert c l. induction n as [|n IH]; intros c l Hc Hn; pose proof (u8_range snn).
  - data_symbol b e l. data_last b e l data l' Hl.
  - data_symbol b e l. data_more b e IH data l' Hl.
Qed.

Lemma accepts_master_data n c l :
  0 <= c -> u8 nn = c + 1 + Z.of_nat n ->
  accepts (at_ StateMasterData c) l = true <->
  exists data l', l = data ++ l' /\ len data = Z.of_nat (S n) /\ quiet data /\
    accepts (at_ StateMasterCRC 0) l' = true.
Proof.
  revert c l. induction n as [|n IH]; intros c l Hc Hn; pose proof (u8_range nn).
  - data_symbol b e l. data_last b e l data l' Hl.
  - data_symbol b e l. data_more b e IH data l' Hl.
Qed.

(** What the two ack phases do with the next symbol. *)
Lemma accepts_wait_slave_ack c l :
  accepts (at_ StateWaitSlaveAck c) l = true <->
  (exists a, l = [a; wire_syn] /\ ack_sym a) \/
  (exists k t, l = k :: t /\ nack_sym k /\ sr < MaxRetxPerPhase /\
     accepts (mkMachine StateSlaveRetx nn c d mr snn (wrap 8 (sr + 1)) p) t = true).
Proof.
  unfold ack_sym, nack_sym.
  destruct l as [|[b e] l]; [rewrite accepts_nil by done; naive_solver|].
  rewrite accepts_cons by done. fsm_cases; subst; rewrite ?accepts_terminator, ?accepts_aborted by done.
  all: try (destruct e; vm_compute in Heqb0; discriminate).
  all: split; [intros [? ?]; try done; naive_solver|].
  all: intros [(a & [= <- ?] & Ha)|(k & t & [= <- ?] & Hk & Hsr & Ht)]; simpl in *; subst; try done; try lia.
  all: destruct e; vm_compute in Heqb0; discriminate.
Qed.

Lemma accepts_wait_master_ack c l :
  accepts (at_ StateWaitMasterAck c) l = true <->
  (exists a t, l = a :: t /\ ack_sym a /\ accepts (at_ StateSlaveLength 0) t = true) \/
  (exists k t, l = k :: t /\ nack_sym k /\ mr < MaxRetxPerPhase /\
     accepts (mkMachine StateMasterRetx nn c d (wrap 8 (mr + 1)) snn sr p) t = true).
Proof.
  unfold ack_sym, nack_sym.
  destruct l as [|[b e] l]; [rewrite accepts_nil by done; naive_solver|].
  rewrite accepts_cons by done. fsm_cases; subst; rewrite ?accepts_aborted by done.
  all: try (destruct e; vm_compute in Heqb0; discriminate).
  all: split; [intros [? ?]; try done; naive_solver|].
  all: intros [(a & t & [= <- ?] & Ha & Ht)|(k & t & [= <- ?] & Hk & Hsr & Ht)];
    simpl in *; subst; try done; try lia.
  all: destruct e; vm_compute in Heqb0; discriminate.
Qed.
End Phases.

(** A length byte, that many data symbols and a CRC, from acceptance by the
    length, data and CRC phases: shared by the two halves of a telegram. *)
Lemma counted_segment (b : byte) (e : bool) (l : list sym) (Data Crc : list sym -> Prop)
    (Next : byte -> list sym -> Prop) :
  (forall l, Crc l <-> exists crc l', l = crc :: l' /\ noise crc = false /\ Next b l') ->
  (forall n l, u8 b = 1 + Z.of_nat n ->
     Data l <-> exists data l', l = data ++ l' /\ len data = Z.of_nat (S n) /\ quiet data /\ Crc l') ->
  noise (b, e) = false /\ u8 b <= 16 /\ (if b =b x00 then Crc l else Data l) <->
  exists n data crc l', (b, e) :: l = n :: data ++ crc :: l' /\ u8 n.1 <= 16 /\ len data = u8 n.1 /\
    quiet (n :: data ++ [crc]) /\ Next n.1 l'.
Proof.
  intros HC HD. split.
  - intros (Hn & Hb & Ha). destruct (byte_eqb_spec b x00) as [->|Hne].
    + apply HC in Ha as (crc & l' & -> & Hc & Ha).
      exists (x00, e), [], crc, l'. splits; try done.
      apply quiet_cons; split; [done|]. apply quiet_cons; split; [done|constructor].
    + apply u8_zero in Hne. apply (HD (Z.to_nat (u8 b - 1))) in Ha
        as (data & l1 & -> & Hl & Hq & Ha); [|lia].
      apply HC in Ha as (crc & l' & -> & Hc & Ha).
      exists (b, e), data, crc, l'. splits; try done; simpl; [lia|].
      apply quiet_cons; split; [done|]. apply quiet_app; split; [done|].
      apply quiet_cons; split; [done|constructor].
  - intros ([b' e'] & data & crc & l' & [= <- <- ->] & Hb & Hl & Hq & Ha). simpl in *.
    apply quiet_cons in Hq as [Hn Hq]. apply quiet_app in Hq as [Hd Hq].
    apply quiet_cons in Hq as [Hc _]. splits; [done..|].
    destruct (byte_eqb_spec b x00) as [->|Hne].
    + destruct data; [|rewrite len_cons in Hl; pose proof (len_nonneg data);
        change (u8 x00) with 0 in Hl; lia].
      apply HC. eauto.
    + apply u8_zero in Hne. apply (HD (Z.to_nat (u8 b - 1))); [lia|].
      exists data, (crc :: l'). splits; [done|lia|done|]. apply HC. eauto.
Qed.

(** Closes the first symbol of a counted segment: the handler's branches against
    the premises of [counted_segment]. *)
Ltac counted_first :=
  fsm_cases; rewrite ?wrap_small in * by lia; try lia;
  (split; [intros [? ?]; splits; done || lia | intros (? & ? & ?); done || lia]).

(** The response of the target, from the phase that awaits its length. *)
Lemma accepts_response st nn c d mr snn sr p l :
  st = StateSlaveLength \/ st = StateSlaveRetx ->
  accepts (mkMachine st nn c d mr snn sr p) l = true <->
  exists n data crc l', l = n :: data ++ crc :: l' /\ u8 n.1 <= 16 /\ len data = u8 n.1 /\
    quiet (n :: data ++ [crc]) /\
    accepts (mkMachine StateWaitSlaveAck nn 0 d mr n.1 sr p) l' = true.
Proof.
  intros Hst. destruct l as [|[b e] l].
  { destruct Hst as [-> | ->]; rewrite accepts_nil by done; naive_solver. }
  rewrite <- (counted_segment b e l
    (fun l => accepts (mkMachine StateSlaveData nn 0 d mr b sr p) l = true)
    (fun l => accepts (mkMachine StateSlaveCRC nn 0 d mr b sr p) l = true)
    (fun n l => accepts (mkMachine StateWaitSlaveAck nn 0 d mr n sr p) l = true)).
  - unfold noise. destruct Hst as [-> | ->]; rewrite accepts_cons by done; counted_first.
  - apply accepts_slave_crc.
  - intros n l0 Hn. apply accepts_slave_data; lia.
Qed.

Lemma response_cons_inv r :
  response r <-> exists n data crc, r = n :: data ++ [crc] /\ u8 n.1 <= 16 /\ len data = u8 n.1 /\
    quiet (n :: data ++ [crc]).
Proof.
  split; [intros []; eauto 10|]. intros (n & data & crc & -> & ? & ? & ?). by constructor.
Qed.

Lemma accepts_target n st nn c d mr snn p l :
  st = StateSlaveLength \/ st = StateSlaveRetx -> (n <= 1)%nat ->
  accepts (mkMachine st nn c d mr snn (1 - Z.of_nat n) p) l = true <-> target_half n l.
Proof.
  revert st c snn l. induction n as [n IH] using lt_wf_ind. intros st c snn l Hst Hn.
  rewrite accepts_response by done. split.
  - intros (nb & data & crc & l' & -> & Hb & Hl & Hq & Ha).
    assert (response (nb :: data ++ [crc])) as Hr by by constructor.
    replace (nb :: data ++ crc :: l') with ((nb :: data ++ [crc]) ++ l') by (simpl; by rewrite <- app_assoc).
    apply accepts_wait_slave_ack in Ha as [(a & -> & Hack)|(k & t & -> & Hk & Hsr & Ht)].
    + by constructor.
    + destruct n as [|n]; [unfold MaxRetxPerPhase in Hsr; lia|]. apply target_nack; [done..|].
      replace (wrap 8 _) with (1 - Z.of_nat n) in Ht by (rewrite wrap_small; lia).
      eapply IH in Ht; [done|lia|by right|lia].
  - intros Ht. inversion Ht as [n' r a Hr Hack|n' r k t Hr Hk Ht']; subst;
      apply response_cons_inv in Hr as (nb & data & crc & -> & Hb & Hl & Hq).
    + exists nb, data, crc, [a; wire_syn]. splits; try done; [simpl; by rewrite <- app_assoc|].
      apply accepts_wait_slave_ack. left. eauto.
    + exists nb, data, crc, (k :: t). splits; try done; [simpl; by rewrite <- app_assoc|].
      apply accepts_wait_slave_ack. right. exists k, t. splits; try done;
        [unfold MaxRetxPerPhase; lia|].
      replace (wrap 8 _) with (1 - Z.of_nat n') by (rewrite wrap_small; lia).
      apply IH; [lia|by right|lia|done].
Qed.

(** The header, one symbol at a time, then the frame it announces. *)
Lemma accepts_header_symbol nn c d mr snn sr p l :
  1 <= c <= 3 ->
  accepts (mkMachine StateMasterHeader nn c d mr snn sr p) l = true <->
  exists s l', l = s :: l' /\ noise s = false /\
    accepts (mkMachine StateMasterHeader nn (c + 1) (if c =? 1 then s.1 else d) mr snn sr p) l' = true.
Proof.
  intros Hc. destruct l as [|[b e] l]; [rewrite accepts_nil by done; naive_solver|].
  rewrite accepts_cons by done. unfold noise. fsm_cases; subst; try lia;
    rewrite ?wrap_small in * by lia; try lia; naive_solver congruence.
Qed.

Lemma accepts_header_length nn d mr snn sr p l :
  accepts (mkMachine StateMasterHeader nn 4 d mr snn sr p) l = true <->
  exists n data crc l', l = n :: data ++ crc :: l' /\ u8 n.1 <= 16 /\ len data = u8 n.1 /\
    quiet (n :: data ++ [crc]) /\
    accepts (mkMachine (if d =b BroadcastDestination then StateWaitTerminatorSyn else StateWaitMasterAck)
      n.1 0 d mr snn sr p) l' = true.
Proof.
  destruct l as [|[b e] l]; [rewrite accepts_nil by done; naive_solver|].
  rewrite <- (counted_segment b e l
    (fun l => accepts (mkMachine StateMasterData b 0 d mr snn sr p) l = true)
    (fun l => accepts (mkMachine StateMasterCRC b 0 d mr snn sr p) l = true)
    (fun n l => accepts (mkMachine (if d =b BroadcastDestination then StateWaitTerminatorSyn
                                    else StateWaitMasterAck) n 0 d mr snn sr p) l = true)).
  - unfold noise. rewrite accepts_cons by done. counted_first.
  - apply accepts_master_crc.
  - intros n l0 Hn. apply accepts_master_data; lia.
Qed.

(** The first symbol of a frame only starts the header. *)
Lemma accepts_frame_start st nn c d mr snn sr p :
  st = StateArbitrating \/ st = StateMasterRetx ->
  exists nn' d', forall l,
  accepts (mkMachine st nn c d mr snn sr p) l = true <->
  exists s l', l = s :: l' /\ noise s = false /\
    accepts (mkMachine StateMasterHeader nn' 1 d' mr snn sr p) l' = true.
Proof.
  intros [-> | ->]; [exists nn, d|exists x00, x00]; intros [|[b e] l];
    rewrite ?accepts_nil, ?accepts_cons by done; [naive_solver| |naive_solver|];
    unfold noise; fsm_cases; change (wrap 8 1) with 1;
    (split; [intros [? ?]|intros (? & ? & [= <- <-] & Hn & ?)]; simpl in *; try done; try congruence);
    do 2 eexists; splits; done.
Qed.

(** A whole initiator frame, from the phases that await its first symbol. *)
Lemma accepts_frame st nn c d mr snn sr p l :
  st = StateArbitrating \/ st = StateMasterRetx ->
  accepts (mkMachine st nn c d mr snn sr p) l = true <->
  exists qq zz pb sb n data crc l', l = qq :: zz :: pb :: sb :: n :: data ++ crc :: l' /\
    quiet [qq; zz; pb; sb] /\ u8 n.1 <= 16 /\ len data = u8 n.1 /\ quiet (n :: data ++ [crc]) /\
    accepts (mkMachine (if zz.1 =b BroadcastDestination then StateWaitTerminatorSyn
                        else StateWaitMasterAck) n.1 0 zz.1 mr snn sr p) l' = true.
Proof.
  intros Hst. destruct (accepts_frame_start st nn c d mr snn sr p Hst) as (nn' & d' & ->).
  split.
  - intros (qq & l0 & -> & Hqq & Hh).
    apply accepts_header_symbol in Hh as (zz & l1 & -> & Hz & Hh); [|lia].
    apply accepts_header_symbol in Hh as (pb & l2 & -> & Hp & Hh); [|lia].
    apply accepts_header_symbol in Hh as (sb & l3 & -> & Hs & Hh); [|lia]. simpl in Hh.
    apply accepts_header_length in Hh as (n & data & crc & l' & -> & Hb & Hl & Hq & Hh).
    exists qq, zz, pb, sb, n, data, crc, l'. splits; [done| |done..].
    repeat (apply quiet_cons; split; [done|]). constructor.
  - intros (qq & zz & pb & sb & n & data & crc & l' & -> & Hh & Hb & Hl & Hq & Ha).
    repeat (apply quiet_cons in Hh as [? Hh]).
    do 2 eexists. splits; [done..|].
    apply accepts_header_symbol; [lia|]. do 2 eexists. splits; [done..|].
    apply accepts_header_symbol; [lia|]. do 2 eexists. splits; [done..|].
    apply accepts_header_symbol; [lia|]. do 2 eexists. splits; [done..|].
    apply accepts_header_length. exists n, data, crc, l'. by splits.
Qed.

Lemma initiator_frame_inv zz f :
  initiator_frame zz f <-> exists qq z pb sb n data crc,
    f = qq :: z :: pb :: sb :: n :: data ++ [crc] /\ z.1 = zz /\ quiet [qq; z; pb; sb] /\
    u8 n.1 <= 16 /\ len data = u8 n.1 /\ quiet (n :: data ++ [crc]).
Proof.
  split.
  - intros [qq z pb sb r Hq Hr]. apply response_cons_inv in Hr as (n & data & crc & -> & ? & ? & ?).
    eauto 15.
  - intros (qq & z & pb & sb & n & data & crc & -> & <- & ? & ? & ? & ?).
    constructor; [done|by constructor].
Qed.

(** Regroups a frame followed by the rest of the telegram. *)
Lemma frame_app (qq zz pb sb n : sym) data crc l' :
  qq :: zz :: pb :: sb :: n :: data ++ crc :: l' =
  (qq :: zz :: pb :: sb :: n :: data ++ [crc]) ++ l'.
Proof. simpl. by rewrite <- app_assoc. Qed.

Lemma accepts_telegram n st nn c d snn p l :
  st = StateArbitrating \/ st = StateMasterRetx -> (n <= 1)%nat ->
  accepts (mkMachine st nn c d (1 - Z.of_nat n) snn 0 p) l = true <-> telegram n l.
Proof.
  revert st nn c d snn l. induction n as [n IH] using lt_wf_ind. intros st nn c d snn l Hst Hn.
  rewrite accepts_frame by done. split.
  - intros (qq & zz & pb & sb & nb & data & crc & l' & -> & Hh & Hb & Hl & Hq & Ha).
    rewrite frame_app.
    assert (initiator_frame zz.1 (qq :: zz :: pb :: sb :: nb :: data ++ [crc])) as Hf
      by (apply initiator_frame_inv; eauto 15).
    destruct (byte_eqb_spec zz.1 BroadcastDestination) as [Hz|Hz].
    { apply accepts_terminator in Ha as ->. rewrite Hz in Hf. by constructor. }
    apply accepts_wait_master_ack in Ha as [(a & t & -> & Hack & Ht)|(k & t & -> & Hk & Hmr & Ht)].
    + apply (accepts_target 1) in Ht; [|by left|lia]. eapply telegram_ack; eauto.
    + destruct n as [|n]; [unfold MaxRetxPerPhase in Hmr; lia|].
      replace (wrap 8 _) with (1 - Z.of_nat n) in Ht by (rewrite wrap_small; lia).
      apply IH in Ht; [|lia|by right|lia]. eapply telegram_nack; eauto.
  - intros Ht. inversion Ht as [n' f Hf|n' zz f a t Hf Hz Hack Ht'|n' zz f k t Hf Hz Hk Ht']; subst;
      apply initiator_frame_inv in Hf as (qq & z & pb & sb & nb & data & crc & -> & Hzz & Hh & Hb & Hl & Hq);
      rewrite <- frame_app; repeat eexists; try done; subst.
    + rewrite Hzz. by apply accepts_terminator.
    + destruct (byte_eqb_spec z.1 BroadcastDestination) as [?|_]; [done|].
      apply accepts_wait_master_ack. left. exists a, t. splits; try done.
      apply (accepts_target 1); [by left|lia|done].
    + destruct (byte_eqb_spec z.1 BroadcastDestination) as [?|_]; [done|].
      apply accepts_wait_master_ack. right. exists k, t. splits; try done; [unfold MaxRetxPerPhase; lia|].
      replace (wrap 8 _) with (1 - Z.of_nat n') by (rewrite wrap_small; lia).
      apply IH; [lia|by right|lia|done].
Qed.


(** With adapter noise on the line, the symbols the machine lets through from
    grant to idle are still a well-formed telegram. *)
Theorem fsm_filters_noise l : completes granted l = true -> telegram 1 (forwarded granted l).
Proof. intros H%completes_forwarded. by apply (accepts_telegram 1) in H; [|left|lia]. Qed.

Example fsm_filters_noise_witness :
  telegram 1 (forwarded granted
    [(x31, false); (x08, false); (xaa, false); (xb5, false); (x09, false); (x01, false);
     (xaa, true); (x3c, false); (xaa, false); (x00, false); (x01, false); (x07, false);
     (x5a, false); (x00, false); (xaa, false)]).
Proof. apply fsm_filters_noise. vm_compute. reflexivity. Defined.

(** *** Passive tracking *)

Definition same_but_passive (m m' : Machine) : Prop := with_passive false m = with_passive false m'.

Lemma feed_passive m m' s :
  same_but_passive m m' ->
  (feed_sym m s).2 = (feed_sym m' s).2 /\
  same_but_passive (feed_sym m s).1 (feed_sym m' s).1.
Proof.
  destruct m as [st nn c d mr snn sr p], m' as [st' nn' c' d' mr' snn' sr' p'], s as [b e].
  unfold same_but_passive, with_passive. simpl. intros [= <- <- <- <- <- <- <-].
  destruct st; fsm_cases; done.
Qed.

Lemma run_passive l m m' : same_but_passive m m' -> (run m l).2 = (run m' l).2.
Proof.
  revert m m'. induction l as [|s l IH]; intros m m' H; simpl; [done|].
  pose proof (feed_passive m m' s H) as [Hd Hs].
  destruct (feed_sym m s) as [m1 d1], (feed_sym m' s) as [m2 d2]. simpl in *. subst.
  specialize (IH m1 m2 Hs). destruct (run m1 l), (run m2 l). simpl in *. by subst.
Qed.

(** Tracking a foreign telegram passively takes the same decisions, symbol for
    symbol, as owning it: [EnterPassiveTracking] after QQ is the grant and QQ. *)
Theorem passive_equals_active qq l :
  noise qq = false ->
  (run (EnterPassiveTracking New) l).2 = (run (feed_sym granted qq).1 l).2.
Proof.
  intros Hq. apply run_passive. destruct qq as [b e]. unfold noise in Hq. simpl in Hq.
  unfold feed_sym, Feed, feedArbitrating. simpl. by rewrite Hq.
Qed.

Example passive_equals_active_witness :
  (run (EnterPassiveTracking New) [(x08, false); (xb5, false)]).2 =
  (run (feed_sym granted (x31, false)).1 [(x08, false); (xb5, false)]).2.
Proof. apply passive_equals_active. reflexivity. Defined.
