(* ===== verification/Escape.v ===== *)
(** The AUTO-SYN-aware escape decoder (transport/ebus_escape.go).

    A [time.Time] is its distance in nanoseconds from the zero time, so the zero
    time is 0; [time_sub] saturates as [Time.Sub] does. *)

From S2P Require Import Prelude Errors Wire.

Definition MaxAaAbsorptionsPerEscapePair : Z := 8.
Definition EscapePendingTimeout : Z := 32000000.

Definition time_sub (t u : Z) : Z := Z.max (- 2 ^ 63) (Z.min (2 ^ 63 - 1) (t - u)).
Definition IsZero (t : Z) : bool := t =? 0.

Record EbusEscapeDecoder := mkDecoder {
  escape : bool;
  leadObservedAt : Z;
  absorbedCount : Z
}.

Inductive AdminEventKind :=
| AdminEventNone | AdminEventEscapePendingTimeout | AdminEventEscapeRecovery
| AdminEventEscapeBudgetExhausted.

#[export] Instance adminkind_eq_dec : EqDecision AdminEventKind.
Proof. solve_decision. Defined.

Record AdminEvent := mkAdmin { Kind : AdminEventKind; Duration : Z; Absorbed : Z }.

Definition no_event : AdminEvent := mkAdmin AdminEventNone 0 0.

Definition AdminEventKind_String (k : AdminEventKind) : string :=
  match k with
  | AdminEventNone => "none"
  | AdminEventEscapePendingTimeout => "escape_pending_timeout"
  | AdminEventEscapeRecovery => "escape_decoder_recovery"
  | AdminEventEscapeBudgetExhausted => "escape_budget_exhausted"
  end.

(** [Feed]'s results: the logical byte with its provenance when one is ready
    ([ok] and [wasEscaped]), and the admin event. *)
Definition output : Type := option (byte * bool) * AdminEvent.

(** [Reset]; the same three assignments end every pending sequence. *)
Definition Reset (d : EbusEscapeDecoder) : EbusEscapeDecoder := mkDecoder false 0 0.

Definition feedNormal (d : EbusEscapeDecoder) (raw : byte) (now : Z) : EbusEscapeDecoder * output :=
  if raw =b xa9 then (mkDecoder true now 0, (None, no_event))
  else (d, (Some (raw, false), no_event)).

(** The time spent pending, 0 when no clock was supplied. *)
Definition pending_elapsed (d : EbusEscapeDecoder) (now : Z) : Z :=
  if IsZero (leadObservedAt d) then 0 else time_sub now (leadObservedAt d).

Definition feedPending (d : EbusEscapeDecoder) (raw : byte) (now : Z) : EbusEscapeDecoder * output :=
  if negb (IsZero (leadObservedAt d)) && (EscapePendingTimeout <? time_sub now (leadObservedAt d)) then
    let '(d', (out, _)) := feedNormal (Reset d) raw now in
    (d', (out, mkAdmin AdminEventEscapePendingTimeout (time_sub now (leadObservedAt d)) (absorbedCount d)))
  else if raw =b x01 then (Reset d, (Some (xaa, true), no_event))
  else if raw =b x00 then (Reset d, (Some (xa9, true), no_event))
  else if raw =b xaa then
    if absorbedCount d <? MaxAaAbsorptionsPerEscapePair
    then (mkDecoder (escape d) (leadObservedAt d) (absorbedCount d + 1), (None, no_event))
    else (Reset d, (None, mkAdmin AdminEventEscapeBudgetExhausted (pending_elapsed d now) (absorbedCount d)))
  else (Reset d, (None, mkAdmin AdminEventEscapeRecovery (pending_elapsed d now) (absorbedCount d))).

Definition Feed (d : EbusEscapeDecoder) (raw : byte) (now : Z) : EbusEscapeDecoder * output :=
  if escape d then feedPending d raw now else feedNormal d raw now.

(** The legacy entry point: no clock, faults as errors. *)
Definition Push (d : EbusEscapeDecoder) (raw : byte)
    : EbusEscapeDecoder * result error (option (byte * bool)) :=
  let '(d', (out, admin)) := Feed d raw 0 in
  match Kind admin with
  | AdminEventEscapeRecovery =>
      (d', Err (EOther ("ebus escape: 0xA9 0x" +:+ fmt_02X raw
                        +:+ " is not a valid pair (expected 0x00 or 0x01)")))
  | AdminEventEscapeBudgetExhausted =>
      (d', Err (EOther ("ebus escape: AA-injection budget ("
                        +:+ fmt_d MaxAaAbsorptionsPerEscapePair
                        +:+ ") exhausted in pending state")))
  | _ => (d', Ok out)
  end.

Definition HasPendingEscape (d : EbusEscapeDecoder) : bool := escape d.
Definition AbsorbedCount (d : EbusEscapeDecoder) : Z := absorbedCount d.

Definition idle_decoder : EbusEscapeDecoder := mkDecoder false 0 0.

(** ** Streams *)

(** Decoding a stream of timed wire bytes: the logical bytes and the events. *)
Fixpoint feed_all (d : EbusEscapeDecoder) (l : list (byte * Z))
    : EbusEscapeDecoder * (list (byte * bool) * list AdminEvent) :=
  match l with
  | [] => (d, ([], []))
  | (b, t) :: l' =>
      let '(d1, (out, ev)) := Feed d b t in
      let '(d2, (outs, evs)) := feed_all d1 l' in
      (d2, (option_list out ++ outs,
            if decide (Kind ev = AdminEventNone) then evs else ev :: evs))
  end.

(** The wire carries a logical symbol when it is a plain byte, or an escape pair
    into which the adapter may have leaked up to eight AUTO-SYNs within 32 ms. *)
Inductive carries : byte * bool -> list (byte * Z) -> Prop :=
| carries_plain b t : b <> SymbolEscape -> carries (b, false) [(b, t)]
| carries_pair b code t0 leaks t1 :
    (b = SymbolEscape /\ code = x00) \/ (b = SymbolSyn /\ code = x01) ->
    0 < t0 -> len leaks <= MaxAaAbsorptionsPerEscapePair ->
    Forall (fun t => t - t0 <= EscapePendingTimeout) (leaks ++ [t1]) ->
    carries (b, true) ((SymbolEscape, t0) :: ((fun t => (SymbolSyn, t)) <$> leaks) ++ [(code, t1)]).

Inductive carries_all : list (byte * bool) -> list (byte * Z) -> Prop :=
| carries_all_nil : carries_all [] []
| carries_all_cons s w ss ws : carries s w -> carries_all ss ws -> carries_all (s :: ss) (w ++ ws).

(** The provenance each logical byte gets. *)
Definition provenance (b : byte) : byte * bool := (b, negb (plain_symbol b)).

(** The decoder's invariant. *)
Definition decoder_ok (d : EbusEscapeDecoder) : Prop :=
  0 <= absorbedCount d <= MaxAaAbsorptionsPerEscapePair /\
  (escape d = false -> d = idle_decoder).

(** ** Proofs *)

Ltac feed_cases :=
  unfold Feed, feedPending, feedNormal, Reset, pending_elapsed, IsZero; simpl;
  repeat (match goal with
  | |- context [?a =b ?b] => destruct (byte_eqb_spec a b)
  | |- context [?a =? ?b] => destruct (Z.eqb_spec a b)
  | |- context [?a <? ?b] => destruct (Z.ltb_spec a b)
  end; simpl).

Lemma time_sub_le t t0 k : 0 <= k -> t - t0 <= k -> time_sub t t0 <= k.
Proof. unfold time_sub. lia. Qed.

Lemma feed_within d b t :
  escape d = true -> 0 < leadObservedAt d -> t - leadObservedAt d <= EscapePendingTimeout ->
  b = x00 \/ b = x01 ->
  Feed d b t = (idle_decoder, (Some (if b =b x00 then SymbolEscape else SymbolSyn, true), no_event)).
Proof.
  intros He Hl Ht Hb. pose proof (time_sub_le t (leadObservedAt d) EscapePendingTimeout ltac:(done) Ht).
  destruct d as [e l a]. simpl in *. subst e. destruct Hb as [-> | ->]; feed_cases; done || lia.
Qed.

Lemma feed_leak d t :
  escape d = true -> 0 < leadObservedAt d -> t - leadObservedAt d <= EscapePendingTimeout ->
  absorbedCount d < MaxAaAbsorptionsPerEscapePair ->
  Feed d SymbolSyn t = (mkDecoder true (leadObservedAt d) (absorbedCount d + 1), (None, no_event)).
Proof.
  intros He Hl Ht Ha. pose proof (time_sub_le t (leadObservedAt d) EscapePendingTimeout ltac:(done) Ht).
  destruct d as [e l a]. simpl in *. subst e. unfold SymbolSyn. feed_cases; done || lia.
Qed.

Lemma feed_leaks leaks d code t1 rest :
  escape d = true -> 0 < leadObservedAt d -> code = x00 \/ code = x01 ->
  absorbedCount d + len leaks <= MaxAaAbsorptionsPerEscapePair ->
  Forall (fun t => t - leadObservedAt d <= EscapePendingTimeout) (leaks ++ [t1]) ->
  feed_all d (((fun t => (SymbolSyn, t)) <$> leaks) ++ (code, t1) :: rest) =
  let '(d2, (outs, evs)) := feed_all idle_decoder rest in
  (d2, ((if code =b x00 then SymbolEscape else SymbolSyn, true) :: outs, evs)).
Proof.
  revert d. induction leaks as [|t leaks IH]; intros d He Hl Hc Ha Hf; cbn -[Feed].
  - inv Hf. rewrite feed_within by done. by destruct (feed_all idle_decoder rest) as [? [? ?]].
  - inv Hf. rewrite len_cons in Ha. pose proof (len_nonneg leaks).
    rewrite feed_leak by (done || lia).
    rewrite IH; simpl; [|done|done|done|lia|done].
    by destruct (feed_all idle_decoder rest) as [? [? ?]].
Qed.

Lemma feed_carries s w rest :
  carries s w ->
  feed_all idle_decoder (w ++ rest) =
  let '(d2, (outs, evs)) := feed_all idle_decoder rest in (d2, (s :: outs, evs)).
Proof.
  intros [b t Hb|b code t0 leaks t1 Hb Ht0 Hn Hf].
  - simpl. unfold Feed, feedNormal. simpl.
    destruct (byte_eqb_spec b xa9); [done|]. by destruct (feed_all idle_decoder rest) as [? [? ?]].
  - cbn -[Feed feed_all]. rewrite <- app_assoc. cbn [app].
    cbn [feed_all]. unfold Feed at 1. simpl escape. cbv iota. unfold feedNormal.
    change (SymbolEscape =b xa9) with true. cbv iota zeta.
    rewrite feed_leaks; simpl; [|done|done|naive_solver|lia|done].
    destruct (feed_all idle_decoder rest) as [? [? ?]].
    by destruct Hb as [[-> ->]|[-> ->]].
Qed.

(** Round trip under noise: whatever the adapter leaks into escape pairs within
    the budget and the wall-clock cap, the decoder returns exactly the logical
    symbols with their provenance, raises no event and ends idle. *)
Theorem decode_carried ss w :
  carries_all ss w -> feed_all idle_decoder w = (idle_decoder, (ss, [])).
Proof.
  induction 1 as [|s w ss ws Hs _ IH]; [done|]. by rewrite (feed_carries s w ws Hs), IH.
Qed.

Example decode_carried_witness :
  feed_all idle_decoder [(x10, 5); (xa9, 10); (xaa, 20); (xaa, 30); (x01, 40)] =
  (idle_decoder, ([(x10, false); (xaa, true)], [])).
Proof.
  apply decode_carried. apply (carries_all_cons (x10, false) [(x10, 5)]); [by constructor|].
  apply (carries_all_cons (xaa, true) [(xa9, 10); (xaa, 20); (xaa, 30); (x01, 40)] [] []); [|constructor].
  apply (carries_pair xaa x01 10 [20; 30] 40); [by right|lia|by vm_compute|].
  repeat constructor; by vm_compute.
Defined.

Lemma carries_escape raw t :
  0 < t ->
  exists w, carries_all (provenance <$> raw) w /\ w.*1 = EscapeBytes raw.
Proof.
  intros Ht. induction raw as [|b raw (w & Hw & Hfst)]; simpl.
  - exists []. split; [constructor|done].
  - assert (exists w1, carries (provenance b) w1 /\ w1.*1 = escape_symbol b) as (w1 & Hw1 & Hf1).
    { unfold provenance, plain_symbol, escape_symbol.
      destruct (byte_eqb_spec b SymbolEscape) as [->|]; [|destruct (byte_eqb_spec b SymbolSyn) as [->|]]; simpl.
      - exists [(SymbolEscape, t); (x00, t)]. split; [|done].
        apply (carries_pair SymbolEscape x00 t [] t); [by left|done|done|repeat constructor].
        rewrite Z.sub_diag. done.
      - exists [(SymbolEscape, t); (x01, t)]. split; [|done].
        apply (carries_pair SymbolSyn x01 t [] t); [by right|done|done|repeat constructor].
        rewrite Z.sub_diag. done.
      - exists [(b, t)]. split; [by constructor|done]. }
    exists (w1 ++ w). split; [by constructor|]. by rewrite fmap_app, Hfst, Hf1.
Qed.

(** The decoder inverts [EscapeBytes]: some timing of the stuffed bytes decodes
    to the original bytes, the two control symbols flagged as escaped. *)
Theorem decode_EscapeBytes raw :
  exists w, w.*1 = EscapeBytes raw /\
    feed_all idle_decoder w = (idle_decoder, (provenance <$> raw, [])).
Proof.
  destruct (carries_escape raw 1 ltac:(lia)) as (w & Hw & Hf). exists w. split; [done|].
  clear Hf. induction Hw as [|s w ss ws Hs _ IH]; [done|]. by rewrite (feed_carries s w ws Hs), IH.
Qed.

(** *** Safety for arbitrary input *)

Lemma feed_decoder_ok d b t : decoder_ok d -> decoder_ok (Feed d b t).1.
Proof.
  destruct d as [e l a]. unfold decoder_ok, idle_decoder, MaxAaAbsorptionsPerEscapePair. simpl.
  intros [Ha He]. destruct e; [|specialize (He eq_refl); injection He as -> ->];
    feed_cases; splits; simpl;
    solve [done | by intros | unfold MaxAaAbsorptionsPerEscapePair in *; lia
          | subst; simpl in *; intuition congruence].
Qed.

(** For any bytes at any times: the absorbed count stays within the budget, a
    bare escape lead is never emitted as a raw byte, an escaped byte is one of
    the two control symbols, and an event other than the timeout emits nothing. *)
Theorem decoder_safe d b t :
  decoder_ok d ->
  decoder_ok (Feed d b t).1 /\
  match (Feed d b t).2 with
  | (Some (v, esc), ev) =>
      (v = SymbolEscape -> esc = true) /\
      (esc = true -> v = SymbolEscape \/ v = SymbolSyn) /\
      (Kind ev = AdminEventNone \/ Kind ev = AdminEventEscapePendingTimeout /\ v = b /\ esc = false)
  | (None, ev) => True
  end.
Proof.
  intros Hok. split; [by apply feed_decoder_ok|]. destruct d as [e l a].
  destruct e; feed_cases; subst; splits; simpl; try done; auto.
Qed.

Example decoder_safe_witness :
  decoder_ok (Feed (mkDecoder true 100 8) xaa 200).1.
Proof.
  apply (decoder_safe (mkDecoder true 100 8) xaa 200). split; simpl; [|done].
  unfold MaxAaAbsorptionsPerEscapePair. lia.
Defined.

(** How many more bytes the decoder may keep waiting for the end of a pair. *)
Definition patience (d : EbusEscapeDecoder) : Z :=
  if escape d then MaxAaAbsorptionsPerEscapePair + 1 - absorbedCount d else 0.

(** A pending pair resolves: each byte either ends it or uses up one of at most
    nine places, except that a timeout may start a new pair with this byte. *)
Theorem pending_resolves d b t :
  decoder_ok d -> escape d = true ->
  0 < patience d <= 9 /\
  (patience (Feed d b t).1 < patience d \/
   Kind (Feed d b t).2.2 = AdminEventEscapePendingTimeout /\ b = SymbolEscape).
Proof.
  destruct d as [e l a]. unfold decoder_ok, patience, MaxAaAbsorptionsPerEscapePair. simpl.
  intros [Ha _] ->. split; [lia|]. feed_cases; subst; simpl; auto; try lia.
  all: unfold MaxAaAbsorptionsPerEscapePair in *; lia.
Qed.

Example pending_resolves_witness :
  patience (Feed (mkDecoder true 100 3) xaa 200).1 < 6 \/
  Kind (Feed (mkDecoder true 100 3) xaa 200).2.2 = AdminEventEscapePendingTimeout /\ xaa = SymbolEscape.
Proof.
  apply (pending_resolves (mkDecoder true 100 3) xaa 200); [|reflexivity].
  split; simpl; [|done]. unfold MaxAaAbsorptionsPerEscapePair. lia.
Defined.
