(* ===== verification/Enh.v ===== *)
(** transport/enh.go: the enhanced adapter protocol. Two-byte command sequences
    ([EncodeENH], [DecodeENH]), and the incremental parser that reads a stream
    in which data bytes below 0x80 may also travel bare. *)

From S2P Require Import Prelude.
From S2P Require Import Errors.

(** ** Commands *)

Definition ENHReqInit : byte := x00.
Definition ENHReqSend : byte := x01.
Definition ENHReqStart : byte := x02.
Definition ENHReqInfo : byte := x03.
Definition ENHResResetted : byte := x00.
Definition ENHResReceived : byte := x01.
Definition ENHResStarted : byte := x02.
Definition ENHResInfo : byte := x03.
Definition ENHResFailed : byte := x0a.
Definition ENHResErrorEBUS : byte := x0b.
Definition ENHResErrorHost : byte := x0c.

Definition enhByteFlag : byte := x80.
Definition enhByteMask : byte := xc0.
Definition enhByte1 : byte := xc0.
Definition enhByte2 : byte := x80.

Definition ErrUnknownENHCommand : error :=
  EWrap ""%string (ESentinel SInvalidPayload) ": unknown ENH command"%string.

Record ENHFrame := mkENHFrame { Command : byte; Data : byte }.

(** ** Codec *)

Definition EncodeENH (command data : byte) : byte * byte :=
  (bor (bor enhByte1 (bshl command 2)) (bshr (band data xc0) 6),
   bor enhByte2 (band data x3f)).

(** The [switch] of [DecodeENH]. *)
Definition defined_command (cmd : byte) : bool :=
  existsb (Byte.eqb cmd)
    [ENHReqInit; ENHReqSend; ENHReqStart; ENHReqInfo; ENHResFailed; ENHResErrorEBUS; ENHResErrorHost].

Definition DecodeENH (byte1 byte2 : byte) : result error ENHFrame :=
  if negb (band byte1 enhByteMask =b enhByte1) then Err (ESentinel SInvalidPayload)
  else if negb (band byte2 enhByteMask =b enhByte2) then Err (ESentinel SInvalidPayload)
  else
    let cmd := band (bshr byte1 2) x0f in
    if defined_command cmd
    then Ok (mkENHFrame cmd (bor (bshl (band byte1 x03) 6) (band byte2 x3f)))
    else Err ErrUnknownENHCommand.

(** ** Stream parser *)

(** [ENHMessage]; its kind is always [ENHMessageFrame] and its [Byte] unused. *)
Record ENHMessage := mkENHMessage { msgCommand : byte; msgData : byte }.

Record ENHParser := mkParser { pending : bool; byte1 : byte }.

Definition Reset (p : ENHParser) : ENHParser := mkParser false x00.

Definition Feed (p : ENHParser) (b : byte) : ENHParser * result error (option ENHMessage) :=
  if negb (pending p) then
    if band b enhByteFlag =b x00 then (p, Ok (Some (mkENHMessage ENHResReceived b)))
    else if band b enhByteMask =b enhByte2 then (p, Err (ESentinel SInvalidPayload))
    else (mkParser true b, Ok None)
  else if negb (band b enhByteMask =b enhByte2) then (Reset p, Err (ESentinel SInvalidPayload))
  else
    match DecodeENH (byte1 p) b with
    | Err err => (Reset p, Err err)
    | Ok frame => (Reset p, Ok (Some (mkENHMessage (Command frame) (Data frame))))
    end.

(** [Parse] returns the messages before the first error together with it. *)
Fixpoint Parse (p : ENHParser) (data : list byte) : ENHParser * (list ENHMessage * option error) :=
  match data with
  | [] => (p, ([], None))
  | b :: data' =>
      match Feed p b with
      | (p', Err err) => (p', ([], Some err))
      | (p', Ok msg) =>
          let '(p'', (out, err)) := Parse p' data' in (p'', (option_list msg ++ out, err))
      end
  end.

Definition idle_parser : ENHParser := mkParser false x00.

(** ** What a well-formed stream is *)

(** A message travels as its two-byte sequence; a received byte below 0x80 may
    also travel bare. *)
Inductive encodes : ENHMessage -> list byte -> Prop :=
| encodes_bare d : u8 d < 128 -> encodes (mkENHMessage ENHResReceived d) [d]
| encodes_pair cmd d b1 b2 :
    defined_command cmd = true -> EncodeENH cmd d = (b1, b2) ->
    encodes (mkENHMessage cmd d) [b1; b2].

Inductive encodes_all : list ENHMessage -> list byte -> Prop :=
| encodes_nil : encodes_all [] []
| encodes_cons m w ms ws : encodes m w -> encodes_all ms ws -> encodes_all (m :: ms) (w ++ ws).

(** The shortest input no message starts with, and the error it gives. *)
Inductive malformed : list byte -> error -> Prop :=
| stray_second b : band b enhByteMask = enhByte2 -> malformed [b] (ESentinel SInvalidPayload)
| missing_second b1 b2 :
    band b1 enhByteMask = enhByte1 -> band b2 enhByteMask <> enhByte2 ->
    malformed [b1; b2] (ESentinel SInvalidPayload)
| unknown_command b1 b2 :
    band b1 enhByteMask = enhByte1 -> band b2 enhByteMask = enhByte2 ->
    defined_command (band (bshr b1 2) x0f) = false ->
    malformed [b1; b2] ErrUnknownENHCommand.

(** What reading a whole stream amounts to, without the parser: all of it is
    messages, or it stops inside a sequence, or it breaks at a first malformed
    sequence, whose bytes are consumed, and everything after it is unread. *)
Inductive stream_outcome : list byte -> ENHParser * (list ENHMessage * option error) -> Prop :=
| stream_complete ms w :
    encodes_all ms w -> stream_outcome w (idle_parser, (ms, None))
| stream_partial ms w b :
    encodes_all ms w -> band b enhByteMask = enhByte1 ->
    stream_outcome (w ++ [b]) (mkParser true b, (ms, None))
| stream_broken ms w bad err rest :
    encodes_all ms w -> malformed bad err ->
    stream_outcome (w ++ bad ++ rest) (idle_parser, (ms, Some err)).

(** ** Proofs *)

(** The three shapes of a byte outside a sequence. *)
Lemma byte_shape b :
  (u8 b < 128 /\ band b enhByteFlag = x00) \/
  (band b enhByteFlag <> x00 /\ band b enhByteMask = enhByte2) \/
  (band b enhByteFlag <> x00 /\ band b enhByteMask = enhByte1 /\ enhByte1 <> enhByte2).
Proof. byte_decide b. Qed.

(** The two top bits of a data byte, which travel in the first byte. *)
Lemma low_two b : band b x03 ∈ [x00; x01; x02; x03].
Proof. byte_decide b. Qed.

Lemma top_two d : bshr (band d xc0) 6 ∈ [x00; x01; x02; x03].
Proof. byte_decide d. Qed.

Lemma first_byte_fields cmd :
  Forall (fun t => band (bor (bor enhByte1 (bshl cmd 2)) t) enhByteMask = enhByte1 /\
    band (bshr (bor (bor enhByte1 (bshl cmd 2)) t) 2) x0f = band cmd x0f /\
    band (bor (bor enhByte1 (bshl cmd 2)) t) x03 = t)
    [x00; x01; x02; x03].
Proof. byte_decide cmd. Qed.

Lemma second_byte_fields d :
  band (bor enhByte2 (band d x3f)) enhByteMask = enhByte2 /\
  bor (bshl (bshr (band d xc0) 6) 6) (band (bor enhByte2 (band d x3f)) x3f) = d.
Proof. byte_decide d. Qed.

Lemma first_byte_rebuild b1 :
  band b1 enhByteMask = enhByte1 ->
  bor (bor enhByte1 (bshl (band (bshr b1 2) x0f) 2)) (band b1 x03) = b1.
Proof. byte_decide b1. Qed.

Lemma second_byte_rebuild b2 :
  band b2 enhByteMask = enhByte2 ->
  Forall (fun t => bshr (band (bor (bshl t 6) (band b2 x3f)) xc0) 6 = t /\
    bor enhByte2 (band (bor (bshl t 6) (band b2 x3f)) x3f) = b2)
    [x00; x01; x02; x03].
Proof. byte_decide b2. Qed.

Lemma EncodeENH_fst cmd d :
  band (EncodeENH cmd d).1 enhByteMask = enhByte1 /\
  band (bshr (EncodeENH cmd d).1 2) x0f = band cmd x0f /\
  band (EncodeENH cmd d).1 x03 = bshr (band d xc0) 6.
Proof.
  pose proof (first_byte_fields cmd) as H. rewrite Forall_forall in H.
  exact (H _ (top_two d)).
Qed.

Lemma defined_low cmd : defined_command cmd = true -> band cmd x0f = cmd.
Proof. byte_decide cmd. Qed.

Lemma Encode_Decode_raw b1 b2 :
  band b1 enhByteMask = enhByte1 -> band b2 enhByteMask = enhByte2 ->
  EncodeENH (band (bshr b1 2) x0f) (bor (bshl (band b1 x03) 6) (band b2 x3f)) = (b1, b2).
Proof.
  intros E1 E2. pose proof (second_byte_rebuild b2 E2) as H. rewrite Forall_forall in H.
  destruct (H _ (low_two b1)) as [H1 H2]. unfold EncodeENH.
  by rewrite H1, H2, (first_byte_rebuild b1 E1).
Qed.

Lemma DecodeENH_cases b1 b2 :
  band b1 enhByteMask = enhByte1 -> band b2 enhByteMask = enhByte2 ->
  DecodeENH b1 b2 =
  if defined_command (band (bshr b1 2) x0f)
  then Ok (mkENHFrame (band (bshr b1 2) x0f) (bor (bshl (band b1 x03) 6) (band b2 x3f)))
  else Err ErrUnknownENHCommand.
Proof. intros E1 E2. unfold DecodeENH. by rewrite E1, E2, !byte_eqb_refl. Qed.

Lemma Decode_Encode_raw cmd d :
  DecodeENH (EncodeENH cmd d).1 (EncodeENH cmd d).2 =
  if defined_command (band cmd x0f) then Ok (mkENHFrame (band cmd x0f) d) else Err ErrUnknownENHCommand.
Proof.
  destruct (EncodeENH_fst cmd d) as (E1 & E2 & E3), (second_byte_fields d) as [E4 E5].
  rewrite DecodeENH_cases by done. rewrite E2, E3. unfold EncodeENH at 1. simpl. by rewrite E5.
Qed.

(** The codec is a bijection between the frames with a defined command and the
    byte pairs [DecodeENH] accepts; an encoded undefined command is refused. *)
Theorem enh_codec_bijective b1 b2 f :
  (DecodeENH b1 b2 = Ok f <-> defined_command (Command f) = true /\ EncodeENH (Command f) (Data f) = (b1, b2)) /\
  (forall cmd d, defined_command (band cmd x0f) = false ->
     DecodeENH (EncodeENH cmd d).1 (EncodeENH cmd d).2 = Err ErrUnknownENHCommand).
Proof.
  split; [split|].
  - unfold DecodeENH.
    destruct (byte_eqb_spec (band b1 enhByteMask) enhByte1) as [E1|]; [|done].
    destruct (byte_eqb_spec (band b2 enhByteMask) enhByte2) as [E2|]; [|done]. cbn [negb].
    cbv zeta. destruct (defined_command _) eqn:D; [|done]. intros [= <-]. simpl.
    split; [done|]. by apply Encode_Decode_raw.
  - intros [D E]. pose proof (Decode_Encode_raw (Command f) (Data f)) as H.
    rewrite E, (defined_low _ D), D in H. simpl in H. by destruct f.
  - intros cmd d D. by rewrite Decode_Encode_raw, D.
Qed.

(** Feeding from the idle state, by the shape of the byte. *)
Lemma Feed_idle_bare b :
  u8 b < 128 -> Feed idle_parser b = (idle_parser, Ok (Some (mkENHMessage ENHResReceived b))).
Proof.
  intros Hb. destruct (byte_shape b) as [[_ E]|[[E _]|[E _]]]; unfold Feed; simpl.
  - by rewrite E.
  - exfalso. apply E. clear E. revert Hb. byte_decide b.
  - exfalso. apply E. clear E. revert Hb. byte_decide b.
Qed.

Lemma Feed_idle_lead b : band b enhByteMask = enhByte1 -> Feed idle_parser b = (mkParser true b, Ok None).
Proof.
  intros E. unfold Feed. simpl.
  assert ((band b enhByteFlag =b x00) = false) as ->.
  { apply byte_eqb_neq. revert E. byte_decide b. }
  by rewrite E.
Qed.

Lemma Feed_idle_stray b :
  band b enhByteMask = enhByte2 -> Feed idle_parser b = (idle_parser, Err (ESentinel SInvalidPayload)).
Proof.
  intros E. unfold Feed. simpl.
  assert ((band b enhByteFlag =b x00) = false) as ->.
  { apply byte_eqb_neq. revert E. byte_decide b. }
  by rewrite E.
Qed.

Lemma Feed_pending_bad b1 b2 :
  band b2 enhByteMask <> enhByte2 ->
  Feed (mkParser true b1) b2 = (idle_parser, Err (ESentinel SInvalidPayload)).
Proof. intros E. apply byte_eqb_neq in E. unfold Feed. simpl. by rewrite E. Qed.

Lemma Feed_pending_second b1 b2 :
  band b1 enhByteMask = enhByte1 -> band b2 enhByteMask = enhByte2 ->
  Feed (mkParser true b1) b2 =
  (idle_parser,
   if defined_command (band (bshr b1 2) x0f)
   then Ok (Some (mkENHMessage (band (bshr b1 2) x0f) (bor (bshl (band b1 x03) 6) (band b2 x3f))))
   else Err ErrUnknownENHCommand).
Proof.
  intros E1 E2. unfold Feed. simpl. rewrite (DecodeENH_cases b1 b2 E1 E2), E2. simpl.
  by destruct (defined_command _).
Qed.

Lemma Parse_encodes m w rest :
  encodes m w ->
  Parse idle_parser (w ++ rest) =
  let '(p, (out, err)) := Parse idle_parser rest in (p, (m :: out, err)).
Proof.
  intros [d Hd|cmd d b1 b2 Hc E]; cbn -[Feed].
  - by rewrite Feed_idle_bare.
  - destruct (EncodeENH_fst cmd d) as (E1 & E2 & E3), (second_byte_fields d) as [E4 E5].
    injection E as <- <-. simpl in E1, E2, E3.
    rewrite Feed_idle_lead by done. rewrite Feed_pending_second by done.
    rewrite E2, E3, E5, (defined_low _ Hc), Hc. cbn.
    by destruct (Parse idle_parser rest) as [? [? ?]].
Qed.

Lemma Parse_encodes_all ms w rest :
  encodes_all ms w ->
  Parse idle_parser (w ++ rest) =
  let '(p, (out, err)) := Parse idle_parser rest in (p, ((ms ++ out)%list, err)).
Proof.
  induction 1 as [|m w ms ws Hm _ IH]; simpl.
  - by destruct (Parse idle_parser rest) as [? [? ?]].
  - rewrite <- app_assoc, (Parse_encodes m w _ Hm), IH.
    by destruct (Parse idle_parser rest) as [? [? ?]].
Qed.

Lemma stream_outcome_cons m w rest p ms err :
  encodes m w -> stream_outcome rest (p, (ms, err)) ->
  stream_outcome (w ++ rest) (p, (m :: ms, err)).
Proof.
  intros Hm Hs. inv Hs.
  - by apply stream_complete, encodes_cons.
  - rewrite app_assoc. apply stream_partial; [by apply encodes_cons|done].
  - rewrite app_assoc. apply stream_broken; [by apply encodes_cons|done].
Qed.

Lemma Parse_outcome data : stream_outcome data (Parse idle_parser data).
Proof.
  remember (length data) as n eqn:Hn. revert data Hn.
  induction (lt_wf n) as [n _ IH]. intros data ->.
  destruct data as [|b data]; [apply (stream_complete [] []); constructor|].
  assert (forall m w rest, encodes m w -> b :: data = w ++ rest -> (length rest < length (b :: data))%nat ->
    stream_outcome (b :: data) (Parse idle_parser (b :: data))) as Hstep.
  { intros m w rest Hm Hw Hlt. rewrite Hw in *. rewrite (Parse_encodes m w rest Hm).
    specialize (IH _ Hlt rest eq_refl).
    destruct (Parse idle_parser rest) as [p [ms err]]. by apply stream_outcome_cons. }
  destruct (byte_shape b) as [[Hb _]|[[_ E]|(_ & E1 & _)]].
  - apply (Hstep (mkENHMessage ENHResReceived b) [b] data); [by constructor|done|simpl; lia].
  - cbn -[Feed]. rewrite Feed_idle_stray by done.
    apply (stream_broken [] [] [b] _ data); by constructor.
  - destruct data as [|b2 data].
    + cbn -[Feed]. rewrite Feed_idle_lead by done. apply (stream_partial [] []); [constructor|done].
    + destruct (decide (band b2 enhByteMask = enhByte2)) as [E2|E2].
      2:{ cbn -[Feed]. rewrite Feed_idle_lead, Feed_pending_bad by done.
          apply (stream_broken [] [] [b; b2] _ data); by constructor. }
      destruct (defined_command (band (bshr b 2) x0f)) eqn:Hd.
      * eapply (Hstep _ [b; b2] data); [|done|simpl; lia].
        apply encodes_pair; [exact Hd|]. by apply Encode_Decode_raw.
      * cbn -[Feed]. rewrite Feed_idle_lead, Feed_pending_second, Hd by done.
        apply (stream_broken [] [] [b; b2] _ data); by constructor.
Qed.

Lemma Parse_malformed bad err rest :
  malformed bad err -> Parse idle_parser (bad ++ rest) = (idle_parser, ([], Some err)).
Proof.
  intros [b E|b1 b2 E1 E2|b1 b2 E1 E2 Hd]; cbn -[Feed].
  - by rewrite Feed_idle_stray.
  - by rewrite Feed_idle_lead, Feed_pending_bad.
  - by rewrite Feed_idle_lead, Feed_pending_second, Hd.
Qed.

(** The parser implements the stream specification exactly: a stream parses to
    the messages it encodes; an incomplete sequence is kept for the next read;
    and the first malformed sequence ends the parse with the parser reset, the
    messages before it delivered and the bytes after it untouched. *)
Theorem Parse_specification data r :
  Parse idle_parser data = r <-> stream_outcome data r.
Proof.
  split; [intros <-; apply Parse_outcome|]. intros [ms w Hw|ms w b Hw E|ms w bad err rest Hw Hbad].
  - pose proof (Parse_encodes_all ms w [] Hw) as H. simpl in H.
    rewrite !app_nil_r in H. exact H.
  - rewrite (Parse_encodes_all ms w _ Hw). cbn -[Feed]. rewrite Feed_idle_lead by done.
    by rewrite app_nil_r.
  - rewrite (Parse_encodes_all ms w _ Hw), (Parse_malformed bad err rest Hbad). by rewrite app_nil_r.
Qed.

(** How the stream is cut into reads does not matter: parsing a second read from
    the state the first one left gives what one parse of both gives, and a read
    that fails keeps the rest of the data from being looked at. *)
Theorem Parse_app p a b :
  Parse p (a ++ b) =
  match Parse p a with
  | (p1, (out, Some err)) => (p1, (out, Some err))
  | (p1, (out, None)) =>
      let '(p2, (out2, err)) := Parse p1 b in (p2, ((out ++ out2)%list, err))
  end.
Proof.
  revert p. induction a as [|x a IH]; intros p; cbn -[Feed].
  - by destruct (Parse p b) as [? [? ?]].
  - destruct (Feed p x) as [p1 [msg|e]]; [|done]. rewrite IH.
    destruct (Parse p1 a) as [p2 [out [err|]]]; [done|].
    destruct (Parse p2 b) as [p3 [out2 err]]. by rewrite app_assoc.
Qed.
