(* ===== verification/Heap.v ===== *)
(** Go's container/heap, as protocol/queue.go uses it: [heap.Interface] as a
    type class, the library's up, down, Push, Pop and Fix over it, and the laws
    under which they keep a binary heap.

    At the end, sorting in place over the same interface. *)

From S2P Require Import Prelude.
From Stdlib Require Import ZifyNat.
#[local] Ltac Zify.zify_post_hook ::= Z.to_euclidean_division_equations.

(** ** The interface and the algorithms *)

Class HeapInterface (S : Type) := {
  heap_Len : S -> nat;
  heap_Less : S -> nat -> nat -> bool;
  heap_Swap : S -> nat -> nat -> S
}.

(** The parent [(j - 1) / 2]: both Go's truncation and this give 0 at 0. *)
Definition parent (j : nat) : nat := ((j - 1) / 2)%nat.

Section algorithms.
Context {S : Type} `{HeapInterface S}.

Fixpoint up (fuel : nat) (h : S) (j : nat) : S :=
  match fuel with
  | O => h
  | Datatypes.S fuel' =>
      let i := parent j in
      if (i =? j)%nat || negb (heap_Less h j i) then h
      else up fuel' (heap_Swap h i j) i
  end.

(** The smaller child of [i] below [n]; [j1] is its left child. *)
Definition smaller_child (h : S) (j1 n : nat) : nat :=
  if (j1 + 1 <? n)%nat && heap_Less h (j1 + 1) j1 then (j1 + 1)%nat else j1.

(** The state and the place where the element ends up. *)
Fixpoint down (fuel : nat) (h : S) (i n : nat) : S * nat :=
  match fuel with
  | O => (h, i)
  | Datatypes.S fuel' =>
      let j1 := (2 * i + 1)%nat in
      if (n <=? j1)%nat then (h, i)
      else
        let j := smaller_child h j1 n in
        if negb (heap_Less h j i) then (h, i)
        else down fuel' (heap_Swap h i j) j n
  end.

(** [heap.Fix]; the element at [i] has changed its key. *)
Definition Fix (h : S) (i : nat) : S :=
  let '(h', i') := down (heap_Len h) h i (heap_Len h) in
  if (i <? i')%nat then h' else up (Datatypes.S i) h' i.
End algorithms.

(** ** The laws *)

(** Swapping two values of a function. *)
Definition swapf {K} (f : nat -> K) (i j k : nat) : K :=
  if (k =? i)%nat then f j else if (k =? j)%nat then f i else f k.

(** A strict order on keys whose complement is transitive. *)
Class KeyOrder {K : Type} (ltb : K -> K -> bool) : Prop := {
  key_asym a b : ltb a b = true -> ltb b a = false;
  key_trans a b c : ltb b a = false -> ltb c b = false -> ltb c a = false
}.

(** The state shows a list of keys; [Swap] exchanges two of them and [Less]
    compares two of them in a state without dangling pointers. *)
Class HeapLaws (S K : Type) `{HeapInterface S, Inhabited K} (ltb : K -> K -> bool) := {
  heap_order :: KeyOrder ltb;
  heap_wf : S -> Prop;
  view : S -> list K;
  wf_Swap s i j : heap_wf s -> heap_wf (heap_Swap s i j);
  view_Len s : heap_Len s = length (view s);
  view_Less s i j :
    heap_wf s -> (i < heap_Len s)%nat -> (j < heap_Len s)%nat ->
    heap_Less s i j = ltb (view s !!! i) (view s !!! j);
  view_Swap s i j k :
    (i < heap_Len s)%nat -> (j < heap_Len s)%nat ->
    view (heap_Swap s i j) !!! k = swapf (fun k => view s !!! k) i j k;
  view_Swap_perm s i j :
    (i < heap_Len s)%nat -> (j < heap_Len s)%nat -> view (heap_Swap s i j) ≡ₚ view s
}.

(** ** Binary heaps as functions on positions *)

Section heaps.
Context {K : Type} (ltb : K -> K -> bool) `{!KeyOrder ltb}.

Definition le_at (f : nat -> K) (i j : nat) : Prop := ltb (f j) (f i) = false.

(** No position below [n] is smaller than its parent. *)
Definition heap_ok (f : nat -> K) (n : nat) : Prop :=
  forall i, (0 < i < n)%nat -> le_at f (parent i) i.

(** The same, except that [j] may be smaller than its parent. *)
Definition heap_but (f : nat -> K) (n j : nat) : Prop :=
  (forall i, (0 < i < n)%nat -> i <> j -> le_at f (parent i) i) /\
  (forall i, (0 < i < n)%nat -> (0 < j)%nat -> parent i = j -> le_at f (parent j) i).

(** The same, except that [j] may be larger than its children. *)
Definition heap_under (f : nat -> K) (n j : nat) : Prop :=
  (forall i, (0 < i < n)%nat -> parent i <> j -> le_at f (parent i) i) /\
  (forall i, (0 < i < n)%nat -> (0 < j)%nat -> parent i = j -> le_at f (parent j) i).

Lemma le_at_trans f i j k : le_at f i j -> le_at f j k -> le_at f i k.
Proof. unfold le_at. apply key_trans. Qed.

Lemma heap_le_refl a : ltb a a = false.
Proof. destruct (ltb a a) eqn:E; [|done]. by rewrite (key_asym _ _ E) in E. Qed.

Lemma parent_lt j : (0 < j)%nat -> (parent j < j)%nat.
Proof. unfold parent. lia. Qed.

Lemma heap_root f n i : heap_ok f n -> (i < n)%nat -> ltb (f i) (f O) = false.
Proof.
  intros Hh. induction (lt_wf i) as [i _ IH]. intros Hi.
  destruct (decide (i = O)) as [->|Hne].
  - apply heap_le_refl.
  - pose proof (parent_lt i ltac:(lia)).
    apply (key_trans _ (f (parent i))); [apply IH; lia|]. apply Hh. lia.
Qed.

Lemma heap_ok_ext f g n : (forall k, f k = g k) -> heap_ok f n -> heap_ok g n.
Proof. unfold heap_ok, le_at. intros E H i Hi. rewrite <- !E. by apply H. Qed.

Lemma heap_but_ext f g n j : (forall k, f k = g k) -> heap_but f n j -> heap_but g n j.
Proof. unfold heap_but, le_at. intros E [H1 H2]. split; intros; rewrite <- !E; auto. Qed.

Lemma heap_under_ext f g n j : (forall k, f k = g k) -> heap_under f n j -> heap_under g n j.
Proof. unfold heap_under, le_at. intros E [H1 H2]. split; intros; rewrite <- !E; auto. Qed.

Lemma heap_but_done f n j : heap_but f n j -> (j = O \/ le_at f (parent j) j) -> heap_ok f n.
Proof.
  intros [H1 _] Hj i Hi. destruct (decide (i = j)) as [->|]; [|by apply H1].
  destruct Hj as [->|]; [lia|done].
Qed.

(** Lowering one value can only break the order towards its parent. *)
Lemma heap_decrease f g n i :
  heap_ok f n -> (forall k, k <> i -> (k < n)%nat -> g k = f k) -> ltb (f i) (g i) = false ->
  heap_but g n i.
Proof.
  intros Hh Hg Hi. split; intros k Hk Hne; unfold le_at.
  - pose proof (parent_lt k ltac:(lia)). specialize (Hh k Hk). rewrite (Hg k) by lia.
    destruct (decide (parent k = i)) as [<-|]; [by apply (key_trans _ (f (parent k)))|].
    by rewrite Hg by lia.
  - intros Hp. pose proof (parent_lt k ltac:(lia)). pose proof (parent_lt i Hne).
    rewrite !Hg by lia. apply (key_trans _ (f i)); [apply Hh; lia|]. rewrite <- Hp. by apply Hh.
Qed.

Ltac swapf_cases := unfold le_at, swapf in *;
  repeat match goal with |- context [(?a =? ?b)%nat] => destruct (Nat.eqb_spec a b) end;
  subst.

(** One step of [up]: the smaller child moves to its parent's place. *)
Lemma up_step f n j :
  heap_but f n j -> (0 < j < n)%nat -> ltb (f j) (f (parent j)) = true ->
  heap_but (swapf f (parent j) j) n (parent j).
Proof.
  intros [H1 H2] Hj Hlt. pose proof (parent_lt j ltac:(lia)) as Hp.
  pose proof (key_asym _ _ Hlt) as Hle. split; intros k Hk Hne.
  - pose proof (parent_lt k ltac:(lia)). swapf_cases; try congruence; try lia.
    + (* a sibling of [j] *) apply (key_trans _ (f (parent j))); [done|].
      specialize (H1 k Hk ltac:(done)). unfold le_at in H1. congruence.
    + apply (H2 k Hk ltac:(lia) ltac:(done)).
    + by apply H1.
  - intros Hkp. pose proof (parent_lt (parent j) ltac:(lia)).
    pose proof (H1 (parent j) ltac:(lia) ltac:(lia)) as Hgp. pose proof (parent_lt k ltac:(lia)).
    swapf_cases; try lia.
    + exact Hgp.
    + apply (key_trans _ (f (parent j))); [exact Hgp|].
      specialize (H1 k Hk ltac:(done)). unfold le_at in H1. congruence.
Qed.

Lemma children i k : (0 < k)%nat -> parent k = i <-> k = (2 * i + 1)%nat \/ k = (2 * i + 2)%nat.
Proof. unfold parent. intros. lia. Qed.

(** One step of [down]: the smaller child [j] of [i] moves up. *)
Lemma down_step f n i j :
  heap_under f n i -> (0 < j < n)%nat -> parent j = i ->
  (forall k, (0 < k < n)%nat -> parent k = i -> le_at f j k) ->
  ltb (f j) (f i) = true ->
  heap_under (swapf f i j) n j.
Proof.
  intros [H1 H2] Hj Hp Hmin Hlt. pose proof (parent_lt j ltac:(lia)) as Hpj.
  pose proof (key_asym _ _ Hlt) as Hle. split; intros k Hk Hne.
  - pose proof (parent_lt k ltac:(lia)).
    swapf_cases; solve [congruence | lia | exact Hle | by apply Hmin | by apply H1 | apply H2; lia].
  - intros Hkp. rewrite Hp. pose proof (parent_lt k ltac:(lia)).
    swapf_cases; try lia. specialize (H1 k Hk ltac:(lia)). unfold le_at in H1. congruence.
Qed.
End heaps.

(** ** The algorithms keep the heap *)

Section correctness.
Context {S K : Type} `{HeapLaws S K ltb}.
Implicit Types s : S.

#[local] Instance key_order : KeyOrder ltb := heap_order (S:=S).

Definition key_at s (k : nat) : K := view s !!! k.
Definition is_heap s (n : nat) : Prop := heap_ok ltb (key_at s) n.

Lemma Len_Swap s i j :
  (i < heap_Len s)%nat -> (j < heap_Len s)%nat -> heap_Len (heap_Swap s i j) = heap_Len s.
Proof. intros. rewrite !view_Len. by apply Permutation_length, view_Swap_perm. Qed.

Lemma key_at_Swap s i j k :
  (i < heap_Len s)%nat -> (j < heap_Len s)%nat ->
  swapf (key_at s) i j k = key_at (heap_Swap s i j) k.
Proof. intros. symmetry. by apply view_Swap. Qed.

(** Whatever in-range swaps preserve, the algorithms preserve. *)
Definition swap_closed (P : S -> Prop) : Prop :=
  forall s i j, (i < heap_Len s)%nat -> (j < heap_Len s)%nat -> P s -> P (heap_Swap s i j).

Lemma up_closed P fuel s j :
  swap_closed P -> (j < heap_Len s)%nat -> P s ->
  P (up fuel s j) /\ view (up fuel s j) ≡ₚ view s.
Proof.
  intros HP. revert s j. induction fuel as [|fuel IH]; intros s j Hj Hs; simpl; [done|].
  destruct (_ || _) eqn:E; [done|]. apply orb_false_iff in E as [E _].
  apply Nat.eqb_neq in E. assert (parent j < heap_Len s)%nat by (unfold parent in *; lia).
  destruct (IH (heap_Swap s (parent j) j) (parent j)) as [HA HB];
    [by rewrite Len_Swap|by apply HP|].
  split; [done|]. rewrite HB. by apply view_Swap_perm.
Qed.

Lemma up_ok fuel s j :
  heap_wf s -> (j < heap_Len s)%nat -> (j <= fuel)%nat -> heap_but ltb (key_at s) (heap_Len s) j ->
  is_heap (up fuel s j) (heap_Len s).
Proof.
  revert s j. induction fuel as [|fuel IH]; intros s j Hw Hj Hf Hb; simpl.
  - apply (heap_but_done _ _ _ j Hb). left. lia.
  - assert (parent j < heap_Len s)%nat as Hpl by (unfold parent in *; lia).
    destruct (Nat.eqb_spec (parent j) j) as [E|E]; simpl.
    { apply (heap_but_done _ _ _ j Hb). left. unfold parent in E. lia. }
    rewrite view_Less by done. destruct (ltb _ _) eqn:El; simpl.
    2:{ apply (heap_but_done _ _ _ j Hb). right. exact El. }
    assert (0 < j)%nat by (unfold parent in E; lia). pose proof (parent_lt j ltac:(done)).
    rewrite <- (Len_Swap s (parent j) j) by done. apply IH; [by apply wf_Swap|by rewrite Len_Swap|lia|].
    rewrite Len_Swap by done. eapply heap_but_ext; [intros; by apply key_at_Swap|].
    apply (up_step ltb); [done|lia|done].
Qed.

Lemma smaller_child_range s i n :
  (2 * i + 1 < n)%nat -> (i < smaller_child s (2 * i + 1) n < n)%nat.
Proof.
  intros Hi. unfold smaller_child.
  destruct (Nat.ltb_spec (2 * i + 1 + 1) n); cbn [andb]; [case_match|]; lia.
Qed.

Lemma smaller_child_spec s i n :
  heap_wf s -> (2 * i + 1 < n)%nat -> (n <= heap_Len s)%nat ->
  let j := smaller_child s (2 * i + 1) n in
  (i < j < n)%nat /\ parent j = i /\
  (forall k, (0 < k < n)%nat -> parent k = i -> le_at ltb (key_at s) j k).
Proof.
  intros Hw Hi Hn. unfold smaller_child.
  assert (parent (2 * i + 1) = i /\ parent (2 * i + 1 + 1) = i) as [Hp1 Hp2] by (unfold parent; lia).
  assert (forall k, le_at ltb (key_at s) k k) as Hrefl by (intros; apply (heap_le_refl ltb)).
  destruct (Nat.ltb_spec (2 * i + 1 + 1) n) as [Hlt|Hge]; cbn [andb].
  - rewrite view_Less by (done || lia). destruct (ltb _ _) eqn:E; (split; [lia|split; [done|]]);
      intros k Hk [-> | ->]%children; try lia; replace (2 * i + 2)%nat with (2 * i + 1 + 1)%nat by lia;
      try apply Hrefl; [by apply (key_asym (ltb:=ltb))|exact E].
  - split; [lia|split; [done|]]. intros k Hk [-> | ->]%children; [apply Hrefl|lia|lia].
Qed.

Lemma down_unfold fuel s i n :
  down (Datatypes.S fuel) s i n =
  if (n <=? 2 * i + 1)%nat then (s, i)
  else if negb (heap_Less s (smaller_child s (2 * i + 1) n) i) then (s, i)
  else down fuel (heap_Swap s i (smaller_child s (2 * i + 1) n)) (smaller_child s (2 * i + 1) n) n.
Proof. reflexivity. Qed.

Lemma down_closed P fuel s i n :
  swap_closed P -> (n <= heap_Len s)%nat -> (i < heap_Len s)%nat -> P s ->
  P (down fuel s i n).1 /\ view (down fuel s i n).1 ≡ₚ view s.
Proof.
  intros HP. revert s i. induction fuel as [|fuel IH]; intros s i Hn Hi Hs; [done|].
  rewrite down_unfold. destruct (Nat.leb_spec n (2 * i + 1)) as [|Hlt]; [done|].
  destruct (smaller_child_range s i n Hlt) as [_ Hj].
  remember (smaller_child s (2 * i + 1) n) as j. case_match; [done|].
  destruct (IH (heap_Swap s i j) j) as [HA HB];
    [rewrite Len_Swap; lia|rewrite Len_Swap; lia|apply HP; (done || lia)|].
  split; [done|]. rewrite HB. apply view_Swap_perm; lia.
Qed.

Lemma down_ok fuel s i n :
  heap_wf s -> (n <= heap_Len s)%nat -> (i < heap_Len s)%nat -> (n <= i + fuel)%nat ->
  heap_under ltb (key_at s) n i ->
  is_heap (down fuel s i n).1 n /\
  forall k, (n <= k)%nat -> (i < n)%nat -> key_at (down fuel s i n).1 k = key_at s k.
Proof.
  revert s i. induction fuel as [|fuel IH]; intros s i Hw Hn Hi Hf Hu.
  { split; [|done]. intros k Hk. apply Hu; [done|]. unfold parent. lia. }
  rewrite down_unfold. destruct (Nat.leb_spec n (2 * i + 1)) as [|Hlt].
  { split; [|done]. intros k Hk. apply Hu; [done|]. unfold parent. lia. }
  destruct (smaller_child_spec s i n Hw Hlt Hn) as ([Hij Hj] & Hp & Hmin).
  remember (smaller_child s (2 * i + 1) n) as j. rewrite view_Less by (done || lia).
  destruct (ltb _ _) eqn:E; simpl.
  - assert (heap_under ltb (key_at (heap_Swap s i j)) n j) as Hu'.
    { eapply heap_under_ext; [intros; apply key_at_Swap; lia|].
      apply (down_step ltb); [done|lia|done|done|done]. }
    destruct (IH (heap_Swap s i j) j) as [HA HB];
      [by apply wf_Swap|rewrite Len_Swap; lia|rewrite Len_Swap; lia|lia|done|].
    split; [done|]. intros k Hk Hin. rewrite HB by lia. rewrite <- key_at_Swap by lia.
    unfold swapf. destruct (Nat.eqb_spec k i), (Nat.eqb_spec k j); (lia || done).
  - split; [|done]. intros k Hk. destruct (decide (parent k = i)) as [Hk'|]; [|by apply Hu].
    apply (le_at_trans ltb _ _ j); [|by apply Hmin]. by rewrite Hk'.
Qed.

(** An element no larger than its children stays where it is. *)
Lemma down_stays fuel s i n :
  heap_wf s -> (n <= heap_Len s)%nat -> (i < heap_Len s)%nat ->
  (forall k, (0 < k < n)%nat -> parent k = i -> le_at ltb (key_at s) i k) ->
  down fuel s i n = (s, i).
Proof.
  destruct fuel as [|fuel]; [done|]. intros Hw Hn Hi Hc. rewrite down_unfold.
  destruct (Nat.leb_spec n (2 * i + 1)) as [|Hlt]; [done|].
  destruct (smaller_child_spec s i n Hw Hlt Hn) as ([Hij Hj] & Hp & Hmin).
  remember (smaller_child s (2 * i + 1) n) as j.
  rewrite view_Less by (done || lia). specialize (Hc j ltac:(lia) Hp). unfold le_at, key_at in Hc. by rewrite Hc.
Qed.

(** [heap.Push] after the element was appended. *)
Lemma push_ok s :
  heap_wf s -> (0 < heap_Len s)%nat -> is_heap s (heap_Len s - 1) ->
  is_heap (up (heap_Len s) s (heap_Len s - 1)) (heap_Len s).
Proof.
  intros Hw Hl Hh. apply up_ok; [done|lia|lia|]. split; intros i Hi; [intros; apply Hh; lia|].
  intros _ Hp. unfold parent in Hp. lia.
Qed.

(** [heap.Pop] before the last element is cut off. *)
Lemma pop_ok s :
  heap_wf s -> (0 < heap_Len s)%nat -> is_heap s (heap_Len s) ->
  let n := (heap_Len s - 1)%nat in
  let s' := (down n (heap_Swap s 0 n) 0 n).1 in
  is_heap s' n /\ key_at s' n = key_at s 0.
Proof.
  intros Hw Hl Hh n s'. assert (heap_Len (heap_Swap s 0 n) = heap_Len s) as EL by (apply Len_Swap; lia).
  destruct (down_ok n (heap_Swap s 0 n) 0 n) as [HA HB]; [by apply wf_Swap|lia|lia|lia| |].
  - eapply heap_under_ext; [intros; apply key_at_Swap; lia|].
    split; intros k Hk Hp; [|lia]. unfold le_at, swapf.
    assert (parent k < k)%nat by (apply parent_lt; lia).
    destruct (Nat.eqb_spec k 0), (Nat.eqb_spec k n), (Nat.eqb_spec (parent k) 0), (Nat.eqb_spec (parent k) n);
      try lia. apply Hh. lia.
  - split; [done|]. subst s'. destruct (decide (n = 0%nat)) as [E|E].
    + rewrite E. simpl. rewrite <- key_at_Swap by lia. done.
    + rewrite HB by lia. rewrite <- key_at_Swap by lia. unfold swapf.
      destruct (Nat.eqb_spec n 0); [done|]. by rewrite Nat.eqb_refl.
Qed.

(** [heap.Fix] after the key at [i] decreased. *)
Lemma Fix_ok s i :
  heap_wf s -> (i < heap_Len s)%nat -> heap_but ltb (key_at s) (heap_Len s) i ->
  is_heap (Fix s i) (heap_Len s).
Proof.
  intros Hw Hi Hb. unfold Fix. rewrite down_stays; [|done|done|done|].
  - rewrite Nat.ltb_irrefl. apply up_ok; [done|done|lia|done].
  - intros k Hk Hp. rewrite <- Hp. apply Hb; [done|]. unfold parent in Hp. lia.
Qed.

Lemma Fix_closed P s i :
  swap_closed P -> (i < heap_Len s)%nat -> P s -> P (Fix s i) /\ view (Fix s i) ≡ₚ view s.
Proof.
  intros HP Hi Hs. unfold Fix.
  destruct (down_closed P (heap_Len s) s i (heap_Len s) HP) as [HA HB]; [done..|].
  destruct (down _ _ _ _) as [h' i']. simpl in *. case_match; [done|].
  destruct (up_closed P (Datatypes.S i) h' i HP) as [HC HD]; [|done|].
  - by rewrite view_Len, HB, <- view_Len.
  - split; [exact HC|]. etransitivity; [exact HD|done].
Qed.

End correctness.

(** * Sorting in place

    Sorting in place with the heap of Heap.v: a heap is built from its last
    inner node down, then the root moves behind a heap that gets shorter. *)

Section sorting.
Context {S K : Type} `{HeapLaws S K ltb}.
Implicit Types s : S.

#[local] Instance sort_order : KeyOrder ltb := heap_order (S:=S).

(** [build k s n] puts the nodes below [k] under the heap order, last first. *)
Fixpoint build (k : nat) s (n : nat) : S :=
  match k with
  | O => s
  | Datatypes.S k' => build k' (down n s k' n).1 n
  end.

(** [take_out e s] moves the root behind the first [e] elements, then the next. *)
Fixpoint take_out (e : nat) s : S :=
  match e with
  | O => s
  | Datatypes.S e' => take_out e' (down e (heap_Swap s O e) O e).1
  end.

Definition heap_sort s (n : nat) : S := take_out (n - 1) (build (n / 2) s n).

(** The heap order below [n] for nodes whose parent is at least [lo]. *)
Definition heap_from (f : nat -> K) (n lo : nat) : Prop :=
  forall i, (0 < i < n)%nat -> (lo <= parent i)%nat -> le_at ltb f (parent i) i.

Definition under_from (f : nat -> K) (n lo j : nat) : Prop :=
  (forall i, (0 < i < n)%nat -> (lo <= parent i)%nat -> parent i <> j -> le_at ltb f (parent i) i) /\
  (forall i, (0 < i < n)%nat -> (0 < j)%nat -> (lo <= parent j)%nat -> parent i = j -> le_at ltb f (parent j) i).

#[local] Ltac swapf_cases := unfold le_at, swapf in *;
  repeat match goal with |- context [(?a =? ?b)%nat] => destruct (Nat.eqb_spec a b) end;
  subst.

Lemma down_step_from f n lo i j :
  under_from f n lo i -> (lo <= i)%nat -> (0 < j < n)%nat -> parent j = i ->
  (forall k, (0 < k < n)%nat -> parent k = i -> le_at ltb f j k) ->
  ltb (f j) (f i) = true ->
  under_from (swapf f i j) n lo j.
Proof.
  intros [U1 U2] Hlo Hj Hp Hmin Hlt. pose proof (parent_lt j ltac:(lia)) as Hpj.
  pose proof (key_asym _ _ Hlt) as Hle. split; intros k Hk Hklo Hne.
  - pose proof (parent_lt k ltac:(lia)).
    swapf_cases; solve [congruence | lia | exact Hle | by apply Hmin | by apply U1 | apply U2; lia].
  - intros Hkp. rewrite Hp. pose proof (parent_lt k ltac:(lia)).
    swapf_cases; try lia. specialize (U1 k Hk ltac:(lia) ltac:(lia)). unfold le_at in U1. congruence.
Qed.

Lemma down_from fuel s lo i n :
  heap_wf s -> (n <= heap_Len s)%nat -> (i < heap_Len s)%nat -> (n <= i + fuel)%nat -> (lo <= i)%nat ->
  under_from (key_at s) n lo i -> heap_from (key_at (down fuel s i n).1) n lo.
Proof.
  revert s i. induction fuel as [|fuel IH]; intros s i Hw Hn Hi Hf Hlo Hu.
  { intros k Hk Hkl. apply Hu; [done|done|]. unfold parent. lia. }
  rewrite down_unfold. destruct (Nat.leb_spec n (2 * i + 1)) as [|Hlt].
  { intros k Hk Hkl. apply Hu; [done|done|]. unfold parent. lia. }
  destruct (smaller_child_spec s i n Hw Hlt Hn) as ([Hij Hj] & Hp & Hmin).
  remember (smaller_child s (2 * i + 1) n) as j. rewrite view_Less by (done || lia).
  destruct (ltb _ _) eqn:E; simpl.
  - apply IH; [by apply wf_Swap|rewrite Len_Swap; lia|rewrite Len_Swap; lia|lia|lia|].
    assert (under_from (swapf (key_at s) i j) n lo j) as [U1 U2] by (apply (down_step_from _ _ _ i); [done|done|lia|done|done|done]).
    split; intros; unfold le_at; rewrite <- !key_at_Swap by lia; [by apply U1|by apply U2].
  - intros k Hk Hkl. destruct (decide (parent k = i)) as [Hk'|]; [|by apply Hu].
    apply (le_at_trans ltb _ _ j); [|by apply Hmin]. by rewrite Hk'.
Qed.

(** [down] permutes the keys below [n] and leaves the others. *)
Lemma down_within fuel s i n :
  heap_wf s -> (n <= heap_Len s)%nat -> (i < n)%nat ->
  (forall k, (k < n)%nat -> exists k', (k' < n)%nat /\ key_at (down fuel s i n).1 k = key_at s k') /\
  (forall k, (n <= k)%nat -> key_at (down fuel s i n).1 k = key_at s k).
Proof.
  revert s i. induction fuel as [|fuel IH]; intros s i Hw Hn Hi; [by eauto|].
  rewrite down_unfold. destruct (Nat.leb_spec n (2 * i + 1)) as [|Hlt]; [by eauto|].
  destruct (smaller_child_range s i n Hlt) as [Hij Hj]. remember (smaller_child s (2 * i + 1) n) as j.
  destruct (negb _); [by eauto|].
  destruct (IH (heap_Swap s i j) j) as [HA HB]; [by apply wf_Swap|rewrite Len_Swap; lia|lia|].
  split; intros k Hk.
  - destruct (HA k Hk) as (k' & Hk' & ->). rewrite <- key_at_Swap by lia. unfold swapf.
    destruct (Nat.eqb_spec k' i), (Nat.eqb_spec k' j); eauto with lia.
  - rewrite HB by done. rewrite <- key_at_Swap by lia. unfold swapf.
    destruct (Nat.eqb_spec k i), (Nat.eqb_spec k j); (lia || done).
Qed.

Definition kept (P : S -> Prop) : Prop := forall s i j, (i < heap_Len s)%nat -> (j < heap_Len s)%nat -> P s -> P (heap_Swap s i j).

(** What the sorting does to the state as a whole. *)
Definition same_elements s s' : Prop := heap_wf s' /\ heap_Len s' = heap_Len s /\ view s' ≡ₚ view s.

Lemma same_trans s1 s2 s3 : same_elements s1 s2 -> same_elements s2 s3 -> same_elements s1 s3.
Proof. intros (W1 & L1 & P1) (W2 & L2 & P2). split; [done|]. split; [congruence|]. by rewrite P2. Qed.

Lemma swap_same s i j : heap_wf s -> (i < heap_Len s)%nat -> (j < heap_Len s)%nat -> same_elements s (heap_Swap s i j).
Proof. intros. split; [by apply wf_Swap|]. split; [by apply Len_Swap|by apply view_Swap_perm]. Qed.

Lemma down_same fuel s i n :
  heap_wf s -> (n <= heap_Len s)%nat -> (i < heap_Len s)%nat -> same_elements s (down fuel s i n).1.
Proof.
  intros Hw Hn Hi.
  destruct (down_closed (fun s' => heap_wf s' /\ heap_Len s' = heap_Len s) fuel s i n) as [[HA HB] HC]; [|done|done|done|by repeat split].
  intros s' a b Ha Hb [W L]. split; [by apply wf_Swap|]. by rewrite Len_Swap.
Qed.

Lemma build_ok k s n :
  heap_wf s -> n = heap_Len s -> (k <= n)%nat -> heap_from (key_at s) n k ->
  same_elements s (build k s n) /\ heap_from (key_at (build k s n)) n O.
Proof.
  revert s. induction k as [|k IH]; intros s Hw Hn Hk Hf; cbn [build]; [done|].
  assert (same_elements s (down n s k n).1) as Hs by (apply down_same; [done|lia|lia]).
  pose proof Hs as (W & L & _). destruct (IH (down n s k n).1) as [HA HB]; [done|lia|lia| |].
  - apply down_from; [done|lia|lia|lia|lia|]. split; intros i Hi; [|unfold parent at 1; lia].
    intros Hl Hne. apply Hf; [done|lia].
  - split; [by eapply same_trans|done].
Qed.

(** The keys from [e] on are in place: no earlier key is smaller than them. *)
Definition placed (f : nat -> K) (e n : nat) : Prop := forall i j, (i < j < n)%nat -> (e <= j)%nat -> ltb (f i) (f j) = false.

Lemma take_out_ok e s :
  heap_wf s -> (e < heap_Len s)%nat -> is_heap s (Datatypes.S e) -> placed (key_at s) (Datatypes.S e) (heap_Len s) ->
  same_elements s (take_out e s) /\ placed (key_at (take_out e s)) O (heap_Len s).
Proof.
  revert s. induction e as [|e IH]; intros s Hw Hl Hh Hp; cbn [take_out].
  - split; [by repeat split|]. intros i j Hij _. apply Hp; lia.
  - set (n := Datatypes.S e) in *. set (s1 := heap_Swap s O n).
    assert (same_elements s s1) as Hs1 by (apply swap_same; [done|lia|lia]). pose proof Hs1 as (W1 & L1 & _).
    assert (same_elements s1 (down n s1 O n).1) as Hs2 by (apply down_same; [done|lia|lia]). pose proof Hs2 as (W2 & L2 & _).
    assert (forall k, key_at s1 k = swapf (key_at s) O n k) as Ek by (intros k; symmetry; apply key_at_Swap; lia).
    assert (heap_under ltb (key_at s1) n O) as Hu.
    { split; [|lia]. intros k Hk Hne. unfold le_at. rewrite !Ek. pose proof (parent_lt k ltac:(lia)). unfold swapf.
      destruct (Nat.eqb_spec k O), (Nat.eqb_spec k n), (Nat.eqb_spec (parent k) O), (Nat.eqb_spec (parent k) n); try lia. apply Hh. lia. }
    destruct (down_ok n s1 O n W1 ltac:(lia) ltac:(lia) ltac:(lia) Hu) as [Hheap _].
    destruct (down_within n s1 O n W1 ltac:(lia) ltac:(lia)) as [HA HB].
    destruct (IH (down n s1 O n).1) as [HC HD]; [done|lia|exact Hheap| |].
    + intros i j Hij Hj. rewrite L2, L1 in Hij.
      assert (exists i', (i' <= n)%nat /\ (i <= n)%nat /\ key_at (down n s1 O n).1 i = key_at s i' \/ i' = i /\ (n < i)%nat /\ key_at (down n s1 O n).1 i = key_at s i') as [i' Hi'].
      { destruct (Nat.lt_trichotomy i n) as [Hlt|[->|Hgt]].
        - destruct (HA i Hlt) as (k' & Hk' & ->). rewrite Ek. unfold swapf. destruct (Nat.eqb_spec k' O), (Nat.eqb_spec k' n); try lia; [exists n|exists k']; left; (split; [lia|split; [lia|done]]).
        - rewrite HB, Ek by lia. unfold swapf. destruct (Nat.eqb_spec n O); [lia|]. rewrite Nat.eqb_refl. exists O. left. split; [lia|split; [lia|done]].
        - rewrite HB, Ek by lia. unfold swapf. destruct (Nat.eqb_spec i O), (Nat.eqb_spec i n); try lia. exists i. right. split; [done|split; [lia|done]]. }
      assert (key_at (down n s1 O n).1 j = if (j =? n)%nat then key_at s O else key_at s j) as ->.
      { rewrite HB, Ek by lia. unfold swapf. destruct (Nat.eqb_spec j O); [lia|]. done. }
      destruct (Nat.eqb_spec j n) as [->|Hne].
      * destruct Hi' as [(Hi' & _ & ->)|(-> & Hgt & _)]; [|lia]. apply (heap_root ltb _ (Datatypes.S n)); [exact Hh|lia].
      * destruct Hi' as [(Hi' & _ & ->)|(-> & Hgt & ->)]; apply Hp; lia.
    + split; [by eapply same_trans, same_trans|]. rewrite <- L1, <- L2. exact HD.
Qed.

(** The elements are kept, and no earlier key is smaller than a later one. *)
Lemma heap_sort_ok s :
  heap_wf s -> same_elements s (heap_sort s (heap_Len s)) /\ placed (key_at (heap_sort s (heap_Len s))) O (heap_Len s).
Proof.
  intros Hw. unfold heap_sort. set (n := heap_Len s).
  destruct (build_ok (n / 2) s n Hw eq_refl ltac:(lia)) as [HA HB]; [intros i Hi Hl; unfold parent in Hl; lia|].
  pose proof HA as (W & L & _). destruct (decide (n = O)) as [E|Hne].
  - rewrite E in *. split; [exact HA|]. intros i j Hij. lia.
  - destruct (take_out_ok (n - 1) (build (n / 2) s n) W ltac:(lia)) as [HC HD].
    + intros i Hi. apply HB; lia.
    + intros i j Hij Hj. lia.
    + split; [by eapply same_trans|]. rewrite L in HD. exact HD.
Qed.
End sorting.
