(* ===== verification/Queue.v ===== *)
(** protocol/queue.go: the bus's priority queue. Items are shared objects that
    the heap's slice points to, so the queue is a slice of pointers and a store;
    [container/heap] (file Heap) reorders the slice. The specification is a
    multiset of entries from which the entry of least (priority, sequence
    number) leaves, after every entry has aged by one. *)

From S2P Require Import Prelude.
From S2P Require Import Heap.

(** ** Requests, items, queue *)

(** What the queue reads of a [*busRequest]: the frame's source address and
    whether [transportOp] is set. *)
Class QueueRequest (R : Type) := {
  request_source : R -> byte;
  request_is_transport_op : R -> bool
}.

Definition starvationThreshold : Z := 8.
Definition transportOpPriority : byte := x80.

Record queueItem (R : Type) := mkItem {
  request : R;
  priority : byte;
  seq : Z;
  age : Z;
  index : Z
}.
Arguments mkItem {R} _ _ _ _ _.
Arguments request {R} _.
Arguments priority {R} _.
Arguments seq {R} _.
Arguments age {R} _.
Arguments index {R} _.

(** [items] holds pointers into [store]; [q_seq] is the queue's counter and
    [next_ptr] the next unallocated pointer. *)
Record priorityQueue (R : Type) := mkQueue {
  items : list nat;
  store : gmap nat (queueItem R);
  q_seq : Z;
  next_ptr : nat
}.
Arguments mkQueue {R} _ _ _ _.
Arguments items {R} _.
Arguments store {R} _.
Arguments q_seq {R} _.
Arguments next_ptr {R} _.

Section queue.
Context {R : Type} `{QueueRequest R}.
Implicit Types (q : priorityQueue R) (it : queueItem R) (r : R).

Definition newPriorityQueue : priorityQueue R := mkQueue [] ∅ 0 O.

(** The object an element of the slice points to. *)
Definition item_at q (i : nat) : option (queueItem R) := p ← items q !! i; store q !! p.

Definition set_index (i : Z) it : queueItem R :=
  mkItem (request it) (priority it) (seq it) (age it) i.
Definition set_priority (b : byte) it : queueItem R :=
  mkItem (request it) b (seq it) (age it) (index it).
Definition set_age (a : Z) it : queueItem R :=
  mkItem (request it) (priority it) (seq it) a (index it).

(** Assignment through a pointer. *)
Definition update q (f : queueItem R -> queueItem R) (p : nat) : priorityQueue R :=
  mkQueue (items q) (alter f p (store q)) (q_seq q) (next_ptr q).

(** ** The heap interface *)

Definition Len q : nat := length (items q).

Definition Less q (i j : nat) : bool :=
  match item_at q i, item_at q j with
  | Some a, Some b =>
      if priority a =b priority b then seq a <? seq b else priority a <b priority b
  | _, _ => false
  end.

Definition Swap q (i j : nat) : priorityQueue R :=
  match items q !! i, items q !! j with
  | Some pi, Some pj =>
      let q1 := mkQueue (<[i := pj]> (<[j := pi]> (items q))) (store q) (q_seq q) (next_ptr q) in
      let q2 := update q1 (set_index (Z.of_nat i)) pj in
      update q2 (set_index (Z.of_nat j)) pi
  | _, _ => q
  end.

#[export] Instance queue_heap : HeapInterface (priorityQueue R) := {
  heap_Len := Len; heap_Less := Less; heap_Swap := Swap
}.

(** [Push(x)]: the item object [x] is already in the store at [p]. *)
Definition Push q (p : nat) : priorityQueue R :=
  let q1 := update q (set_index (Z.of_nat (Len q))) p in
  mkQueue (items q1 ++ [p]) (store q1) (q_seq q1) (next_ptr q1).

(** [Pop()]: the last pointer and the queue without it. *)
Definition Pop q : option (nat * priorityQueue R) :=
  p ← last (items q);
  let q1 := update q (set_index (-1)) p in
  Some (p, mkQueue (take (Len q - 1) (items q1)) (store q1) (q_seq q1) (next_ptr q1)).

(** [heap.Push(q, x)] and [heap.Pop(q)]. *)
Definition heap_Push q (p : nat) : priorityQueue R :=
  let q1 := Push q p in up (Len q1) q1 (Len q1 - 1).

Definition heap_Pop q : option (nat * priorityQueue R) :=
  let n := (Len q - 1)%nat in Pop (down n (Swap q 0 n) 0 n).1.

(** ** The queue's operations *)

Definition push q r : priorityQueue R :=
  let prio := if request_is_transport_op r then transportOpPriority else request_source r in
  let p := next_ptr q in
  let q1 := mkQueue (items q) (<[p := mkItem r prio (q_seq q) 0 0]> (store q))
                    (wrap 64 (q_seq q + 1)) (S p) in
  heap_Push q1 p.

(** The first loop of [pop] ages the items in slice order and collects the
    pointers to promote. *)
Definition needs_promotion it : bool :=
  (starvationThreshold <=? age it) && (0 <? u8 (priority it)).

Definition age_step (acc : priorityQueue R * list nat) (p : nat) : priorityQueue R * list nat :=
  let '(q, promoted) := acc in
  let q1 := update q (fun it => set_age (age it + 1) it) p in
  match store q1 !! p with
  | Some it => (q1, if needs_promotion it then promoted ++ [p] else promoted)
  | None => (q1, promoted)
  end.

Definition age_items q : priorityQueue R * list nat := foldl age_step (q, []) (items q).

(** The second loop: priority 0 and [heap.Fix] at the item's current index. *)
Definition promote_step q (p : nat) : priorityQueue R :=
  let q1 := update q (set_priority x00) p in
  match store q1 !! p with
  | Some it => Fix q1 (Z.to_nat (index it))
  | None => q1
  end.

Definition pop q : option (R * priorityQueue R) :=
  match items q with
  | [] => None
  | _ =>
      let '(q1, promoted) := age_items q in
      let q2 := foldl promote_step q1 promoted in
      '(p, q3) ← heap_Pop q2;
      it ← store q3 !! p;
      Some (request it, q3)
  end.

(** ** The specification *)

(** What matters of an item. *)
Record entry := mkEntry { e_request : R; e_priority : byte; e_seq : Z; e_age : Z }.

Definition entry_of it : entry := mkEntry (request it) (priority it) (seq it) (age it).

(** The entries of a queue, in slice order. *)
Definition content q : list entry := omap (fun p => entry_of <$> store q !! p) (items q).

(** One turn older, and at the head of the line from the eighth turn on. *)
Definition aged (e : entry) : entry :=
  mkEntry (e_request e)
    (if starvationThreshold <=? e_age e + 1 then x00 else e_priority e) (e_seq e) (e_age e + 1).

Definition before (a b : entry) : Prop :=
  u8 (e_priority a) < u8 (e_priority b) \/ e_priority a = e_priority b /\ e_seq a < e_seq b.

(** The abstract queue: entries with distinct numbers below the counter. *)
Record spec_queue := mkSpec { entries : list entry; counter : Z }.

Definition spec_push (s : spec_queue) r : spec_queue :=
  mkSpec (mkEntry r (if request_is_transport_op r then transportOpPriority else request_source r)
            (counter s) 0 :: entries s) (counter s + 1).

(** [e] leaves: it precedes all the others once everyone has aged. *)
Definition spec_pop (s : spec_queue) (e : entry) (s' : spec_queue) : Prop :=
  counter s' = counter s /\ aged <$> entries s ≡ₚ e :: entries s' /\
  Forall (before e) (entries s').
End queue.

Arguments entry R : clear implicits.
Arguments spec_queue R : clear implicits.

(** ** The queue as a heap of keys *)

(** Priority, sequence number and pointer; the order reads the first two. *)
Definition queue_key : Type := Z * Z * nat.

Definition key_ltb (a b : queue_key) : bool :=
  if a.1.1 =? b.1.1 then a.1.2 <? b.1.2 else a.1.1 <? b.1.1.

#[export] Instance key_ltb_order : KeyOrder key_ltb.
Proof.
  split; intros [[a1 a2] a3] [[b1 b2] b3]; unfold key_ltb; simpl.
  - destruct (Z.eqb_spec a1 b1), (Z.eqb_spec b1 a1); lia.
  - intros [[c1 c2] c3]. simpl.
    destruct (Z.eqb_spec b1 a1), (Z.eqb_spec c1 b1), (Z.eqb_spec c1 a1); lia.
Qed.

Section proofs.
Context {R : Type} `{QueueRequest R}.
Implicit Types (q : priorityQueue R) (it : queueItem R) (r : R).

Definition key_of q (p : nat) : queue_key :=
  match store q !! p with
  | Some it => (u8 (priority it), seq it, p)
  | None => (0, 0, p)
  end.

Definition queue_view q : list queue_key := key_of q <$> items q.

(** The entry behind a pointer; heap operations do not touch it. *)
Definition entry_at q (p : nat) : option (entry R) := entry_of <$> store q !! p.

Definition same_entries q q' : Prop :=
  (forall p, entry_at q p = entry_at q' p) /\ q_seq q = q_seq q' /\ next_ptr q = next_ptr q'.

(** Every pointer of the slice is live and its object knows its position. *)
Definition indexed q : Prop :=
  forall i p, items q !! i = Some p -> exists it, store q !! p = Some it /\ index it = Z.of_nat i.

Lemma lookup_update q f p p' :
  store (update q f p) !! p' = if decide (p = p') then f <$> store q !! p' else store q !! p'.
Proof.
  unfold update. simpl. destruct (decide (p = p')) as [->|].
  - by rewrite lookup_alter_eq.
  - by rewrite lookup_alter_ne.
Qed.

Lemma entry_at_update q f p p' :
  (forall it, entry_of (f it) = entry_of it) -> entry_at (update q f p) p' = entry_at q p'.
Proof.
  intros Hf. unfold entry_at. rewrite lookup_update. case_decide; [|done].
  destruct (store q !! p'); simpl; [by rewrite Hf|done].
Qed.

Lemma key_of_entry q q' p : entry_at q p = entry_at q' p -> key_of q p = key_of q' p.
Proof.
  unfold entry_at, key_of. destruct (store q !! p), (store q' !! p); simpl; try done.
  by intros [= _ -> -> _].
Qed.

Lemma same_entries_refl q : same_entries q q.
Proof. done. Qed.

Lemma same_entries_trans q1 q2 q3 : same_entries q1 q2 -> same_entries q2 q3 -> same_entries q1 q3.
Proof.
  intros (E1 & F1 & G1) (E2 & F2 & G2). split; [|split; congruence]. intros p. by rewrite E1.
Qed.

Lemma queue_view_same q q' :
  same_entries q q' -> items q = items q' -> queue_view q = queue_view q'.
Proof.
  intros [E _] Ei. unfold queue_view. rewrite Ei. apply list_fmap_ext.
  intros _ p _. by apply key_of_entry.
Qed.

Lemma Swap_items q i j pi pj :
  items q !! i = Some pi -> items q !! j = Some pj ->
  items (Swap q i j) = <[i := pj]> (<[j := pi]> (items q)).
Proof. intros Ei Ej. unfold Swap. by rewrite Ei, Ej. Qed.

Lemma Swap_same q i j : same_entries q (Swap q i j).
Proof.
  unfold Swap. destruct (items q !! i) as [pi|], (items q !! j) as [pj|]; try apply same_entries_refl.
  split; [|done]. intros p. rewrite !entry_at_update by done. done.
Qed.

Lemma Swap_live q i j p : is_Some (store q !! p) -> is_Some (store (Swap q i j) !! p).
Proof.
  intros Hp. destruct (Swap_same q i j) as [E _]. specialize (E p). unfold entry_at in E.
  destruct Hp as [it E']. rewrite E' in E. destruct (store (Swap q i j) !! p); [by eexists|done].
Qed.

Lemma lookup_lt_items q i : (i < Len q)%nat -> exists p, items q !! i = Some p.
Proof. intros Hi. destruct (lookup_lt_is_Some_2 (items q) i Hi) as [p E]. by exists p. Qed.

Lemma Swap_items_perm q i j :
  (i < Len q)%nat -> (j < Len q)%nat -> items (Swap q i j) ≡ₚ items q.
Proof.
  intros [pi Ei]%lookup_lt_items [pj Ej]%lookup_lt_items. rewrite (Swap_items q i j pi pj Ei Ej).
  by apply Permutation_insert_swap.
Qed.

Lemma queue_view_Swap q i j pi pj :
  items q !! i = Some pi -> items q !! j = Some pj ->
  queue_view (Swap q i j) = <[i := key_of q pj]> (<[j := key_of q pi]> (queue_view q)).
Proof.
  intros Ei Ej. unfold queue_view. rewrite (Swap_items q i j pi pj Ei Ej), !list_fmap_insert.
  rewrite (list_fmap_ext (key_of (Swap q i j)) (key_of q) (items q))
    by (intros; symmetry; apply key_of_entry, Swap_same).
  by rewrite !(key_of_entry (Swap q i j) q) by (symmetry; apply Swap_same).
Qed.

#[export] Program Instance queue_heap_laws : HeapLaws (priorityQueue R) queue_key key_ltb := {
  heap_wf q := Forall (fun p => is_Some (store q !! p)) (items q);
  view := queue_view
}.
Next Obligation.
  intros q i j Hwf. rewrite Forall_lookup in *. intros k p Hk. simpl in Hk. apply Swap_live.
  revert Hk. unfold Swap. destruct (items q !! i) as [pi|] eqn:Ei, (items q !! j) as [pj|] eqn:Ej;
    try (simpl; apply Hwf). simpl. rewrite !list_lookup_insert_Some.
  intros [(_ & <- & _)|[_ [(_ & <- & _)|[_ Hk]]]]; eauto.
Qed.
Next Obligation. intros q. unfold queue_view. by rewrite length_fmap. Qed.
Next Obligation.
  intros q i j Hwf Hi Hj. simpl. unfold Less, item_at, queue_view.
  destruct (lookup_lt_items q i Hi) as [pi Ei], (lookup_lt_items q j Hj) as [pj Ej].
  rewrite Forall_lookup in Hwf. destruct (Hwf _ _ Ei) as [a Ea], (Hwf _ _ Ej) as [b Eb].
  rewrite !list_lookup_total_alt, !list_lookup_fmap, Ei, Ej. simpl. rewrite Ea, Eb.
  unfold key_of, key_ltb. rewrite Ea, Eb. simpl.
  destruct (byte_eqb_spec (priority a) (priority b)) as [->|Hne]; [by rewrite Z.eqb_refl|].
  destruct (Z.eqb_spec (u8 (priority a)) (u8 (priority b))) as [E|]; [|done].
  by apply u8_inj in E.
Qed.
Next Obligation.
  intros q i j k Hi Hj. simpl in Hi, Hj.
  change (queue_view (Swap q i j) !!! k = swapf (fun k => queue_view q !!! k) i j k).
  pose proof Hi as Hi'. pose proof Hj as Hj'.
  apply lookup_lt_items in Hi' as [pi Ei]. apply lookup_lt_items in Hj' as [pj Ej].
  rewrite (queue_view_Swap q i j pi pj Ei Ej), !list_lookup_total_insert, length_insert.
  unfold swapf. cbn beta. assert (length (queue_view q) = Len q) as -> by apply length_fmap.
  assert (queue_view q !!! i = key_of q pi /\ queue_view q !!! j = key_of q pj) as [-> ->].
  { unfold queue_view. rewrite !list_lookup_total_alt, !list_lookup_fmap, Ei, Ej. done. }
  destruct (Nat.eqb_spec k i) as [->|]; [by rewrite decide_True|].
  rewrite decide_False by (intros [-> _]; done).
  destruct (Nat.eqb_spec k j) as [->|]; [by rewrite decide_True|].
  by rewrite decide_False by (intros [-> _]; done).
Qed.
Next Obligation.
  intros q i j Hi Hj. simpl in *. unfold queue_view.
  rewrite (list_fmap_ext (key_of (Swap q i j)) (key_of q) (items (Swap q i j)))
    by (intros; symmetry; apply key_of_entry, Swap_same).
  by rewrite (Swap_items_perm q i j Hi Hj).
Qed.

(** *** The invariant *)

Lemma indexed_Swap : swap_closed (S:=priorityQueue R) indexed.
Proof.
  intros q i j Hi Hj Hix. simpl in *.
  destruct (lookup_lt_items q i Hi) as [pi Ei], (lookup_lt_items q j Hj) as [pj Ej].
  destruct (Hix _ _ Ei) as (a & Ea & Ia), (Hix _ _ Ej) as (b & Eb & Ib).
  intros k p. rewrite (Swap_items q i j pi pj Ei Ej), !list_lookup_insert_Some, length_insert.
  unfold Swap. rewrite Ei, Ej. rewrite !lookup_update. simpl.
  intros [(<- & <- & _)|[Hik [(<- & <- & _)|[Hjk Hk]]]].
  - rewrite Eb. rewrite (decide_True (P:=pj = pj)) by done. simpl.
    destruct (decide (pi = pj)) as [->|]; simpl; eexists; (split; [done|]); simpl; [|done].
    rewrite Ea in Eb. injection Eb as ->. lia.
  - rewrite Ea. rewrite (decide_True (P:=pi = pi)) by done.
    destruct (decide (pj = pi)); simpl; eexists; done.
  - destruct (Hix _ _ Hk) as (c & Ec & Ic). rewrite Ec.
    repeat case_decide; subst; try (simpl; eexists; done); exfalso; simplify_eq; lia.
Qed.

Lemma items_NoDup q : indexed q -> NoDup (items q).
Proof.
  intros Hix. apply NoDup_alt. intros i j p Hi Hj.
  destruct (Hix _ _ Hi) as (a & Ea & Ia), (Hix _ _ Hj) as (b & Eb & Ib). simplify_eq. lia.
Qed.

Lemma indexed_wf q : indexed q -> heap_wf q.
Proof.
  intros Hix. simpl. apply Forall_lookup. intros i p Hi.
  destruct (Hix _ _ Hi) as (it & E & _). by eexists.
Qed.

Lemma items_view q : snd <$> queue_view q = items q.
Proof.
  unfold queue_view. rewrite <- list_fmap_compose. rewrite <- (list_fmap_id (items q)) at 2.
  apply list_fmap_ext. intros _ p _. unfold key_of. simpl. by destruct (store q !! p).
Qed.

Lemma view_items_perm q q' : queue_view q' ≡ₚ queue_view q -> items q' ≡ₚ items q.
Proof. intros E. rewrite <- !items_view. by rewrite E. Qed.

(** What the heap algorithms do to a queue: they reorder the slice. *)
Definition reordered q q' : Prop := indexed q' /\ same_entries q q' /\ items q' ≡ₚ items q.

Lemma reordered_closed q :
  swap_closed (fun q' => indexed q' /\ same_entries q q').
Proof.
  intros q' i j Hi Hj [Hix Hs]. split; [by apply indexed_Swap|].
  apply (same_entries_trans _ q'); [done|apply Swap_same].
Qed.

Lemma up_reordered fuel q j :
  (j < Len q)%nat -> indexed q -> reordered q (up fuel q j).
Proof.
  intros Hj Hix.
  destruct (up_closed (fun q' => indexed q' /\ same_entries q q') fuel q j) as [[HA HB] HC];
    [apply reordered_closed|done|done|]. split; [done|split; [done|]]. by apply view_items_perm.
Qed.

Lemma down_reordered fuel q i n :
  (n <= Len q)%nat -> (i < Len q)%nat -> indexed q -> reordered q (down fuel q i n).1.
Proof.
  intros Hn Hi Hix.
  destruct (down_closed (fun q' => indexed q' /\ same_entries q q') fuel q i n) as [[HA HB] HC];
    [apply reordered_closed|done|done|done|]. split; [done|split; [done|]]. by apply view_items_perm.
Qed.

Lemma Fix_reordered q i : (i < Len q)%nat -> indexed q -> reordered q (Fix q i).
Proof.
  intros Hi Hix.
  destruct (Fix_closed (fun q' => indexed q' /\ same_entries q q') q i) as [[HA HB] HC];
    [apply reordered_closed|done|done|]. split; [done|split; [done|]]. by apply view_items_perm.
Qed.

Lemma content_entry_at q : content q = omap (entry_at q) (items q).
Proof. done. Qed.

Lemma content_reordered q q' : reordered q q' -> content q' ≡ₚ content q.
Proof.
  intros (_ & [E _] & Hp). rewrite !content_entry_at, Hp. 
  rewrite (list_omap_same (entry_at q') (entry_at q)); [done|]. intros p _. by rewrite E.
Qed.

(** *** push *)

Record queue_ok q : Prop := {
  ok_indexed : indexed q;
  ok_fresh p : is_Some (store q !! p) -> (p < next_ptr q)%nat;
  ok_seqs : NoDup (e_seq <$> content q);
  ok_below : Forall (fun e => 0 <= e_seq e < q_seq q) (content q);
  ok_counter : 0 <= q_seq q < 2 ^ 64;
  ok_heap : is_heap q (Len q)
}.

Definition abstract q : spec_queue R := mkSpec (content q) (q_seq q).

Definition new_entry q r : entry R :=
  mkEntry r (if request_is_transport_op r then transportOpPriority else request_source r) (q_seq q) 0.

(** The queue after [Push] has appended the new item, before [up]. *)
Definition appended q r : priorityQueue R :=
  Push (mkQueue (items q)
          (<[next_ptr q := mkItem r (e_priority (new_entry q r)) (q_seq q) 0 0]> (store q))
          (wrap 64 (q_seq q + 1)) (S (next_ptr q))) (next_ptr q).

Lemma appended_store q r p :
  store (appended q r) !! p =
  if decide (p = next_ptr q)
  then Some (mkItem r (e_priority (new_entry q r)) (q_seq q) 0 (Z.of_nat (Len q)))
  else store q !! p.
Proof.
  unfold appended, Push. cbn [store]. rewrite lookup_update. cbn [store].
  case_decide; subst; [rewrite lookup_insert_eq, decide_True by done; done|].
  rewrite lookup_insert_ne, decide_False by done. done.
Qed.

Lemma appended_key q r k :
  queue_ok q -> (k < Len q)%nat -> key_at (appended q r) k = key_at q k.
Proof.
  intros Hok Hk. destruct (lookup_lt_items q k Hk) as [p Ep].
  unfold key_at. simpl. unfold queue_view. rewrite !list_lookup_total_alt, !list_lookup_fmap.
  unfold appended, Push. cbn [items update]. rewrite lookup_app_l, Ep by done. simpl.
  destruct (ok_indexed q Hok _ _ Ep) as (it & E & _).
  pose proof (ok_fresh q Hok p ltac:(by eexists)) as Hlt.
  pose proof (appended_store q r p) as Es. unfold appended, Push in Es. cbn [store] in Es.
  unfold key_of. simpl. rewrite decide_False in Es by lia. simpl in Es. by rewrite Es, E.
Qed.

Lemma appended_content q r : queue_ok q -> content (appended q r) = content q ++ [new_entry q r].
Proof.
  intros Hok. rewrite !content_entry_at. change (items (appended q r)) with (items q ++ [next_ptr q]).
  rewrite omap_app. f_equal.
  - apply list_omap_same. intros p [i Ep]%list_elem_of_lookup.
    destruct (ok_indexed q Hok _ _ Ep) as (it & E & _).
    pose proof (ok_fresh q Hok p ltac:(by eexists)).
    unfold entry_at. by rewrite appended_store, decide_False by lia.
  - cbn [omap list_omap]. unfold entry_at. by rewrite appended_store, decide_True by done.
Qed.

Lemma appended_indexed q r : queue_ok q -> indexed (appended q r).
Proof.
  intros Hok i p. change (items (appended q r)) with (items q ++ [next_ptr q]).
  rewrite appended_store. intros [Hi|[Hge Hi]]%lookup_app_Some.
  - destruct (ok_indexed q Hok _ _ Hi) as (it & E & Hix).
    pose proof (ok_fresh q Hok p ltac:(by eexists)). rewrite decide_False by lia. by exists it.
  - apply list_lookup_singleton_Some in Hi as [Hi <-]. rewrite decide_True by done.
    eexists. split; [done|]. simpl. unfold Len. lia.
Qed.

Lemma is_heap_ext q q' n :
  (forall k, (k < n)%nat -> key_at q k = key_at q' k) -> is_heap q n -> is_heap q' n.
Proof.
  intros E Hh i Hi. unfold le_at. pose proof (parent_lt i ltac:(lia)).
  rewrite <- !E by lia. by apply Hh.
Qed.

(** [push] adds the entry and keeps the invariant, as long as fewer than 2^64
    requests have been queued. *)
Lemma push_spec q r :
  queue_ok q -> q_seq q < 2 ^ 64 - 1 ->
  queue_ok (push q r) /\ content (push q r) ≡ₚ new_entry q r :: content q /\
  q_seq (push q r) = q_seq q + 1.
Proof.
  intros Hok Hlt. change (push q r) with (up (Len (appended q r)) (appended q r) (Len (appended q r) - 1)).
  assert (Len (appended q r) = S (Len q)) as EL.
  { unfold Len, appended, Push. simpl. rewrite length_app. simpl. lia. }
  assert (q_seq (appended q r) = q_seq q + 1) as Ec.
  { simpl. apply wrap_small. pose proof (ok_counter q Hok). lia. }
  pose proof (appended_indexed q r Hok) as Hix.
  destruct (up_reordered (Len (appended q r)) (appended q r) (Len (appended q r) - 1)) as (HA & HB & HC);
    [lia|done|].
  remember (up _ _ _) as q' eqn:Eq'. destruct HB as (He & Hs & Hn).
  assert (content q' ≡ₚ new_entry q r :: content q) as Hc.
  { rewrite (content_reordered (appended q r) q') by (split; done).
    rewrite appended_content by done. symmetry. apply Permutation_cons_append. }
  split; [|split; [done|congruence]]. split.
  - done.
  - intros p Hp. rewrite <- Hn. simpl.
    assert (is_Some (entry_at (appended q r) p)) as [e E].
    { rewrite He. unfold entry_at. destruct Hp as [it ->]. by eexists. }
    unfold entry_at in E. rewrite appended_store in E. case_decide; [lia|].
    destruct (store q !! p) eqn:Ep; [|done]. pose proof (ok_fresh q Hok p ltac:(by eexists)). lia.
  - rewrite Hc. simpl. apply NoDup_cons. split; [|apply Hok].
    intros (e & Hs' & Hin)%list_elem_of_fmap. pose proof (ok_below q Hok) as Hb.
    rewrite Forall_forall in Hb. specialize (Hb e Hin). lia.
  - rewrite Hc. pose proof (ok_counter q Hok). apply Forall_cons. split; [simpl; lia|].
    eapply Forall_impl; [apply (ok_below q Hok)|]. simpl. lia.
  - pose proof (ok_counter q Hok). lia.
  - assert (Len q' = Len (appended q r)) as -> by (unfold Len; by rewrite HC).
    rewrite Eq'. refine (push_ok (ltb:=key_ltb) (appended q r) _ _ _); [by apply indexed_wf|simpl; lia|].
    replace (heap_Len (appended q r) - 1)%nat with (Len q) by (simpl; lia).
    eapply is_heap_ext; [|apply Hok]. intros k Hk. symmetry. by apply appended_key.
Qed.

(** *** pop *)

Definition bump it : queueItem R := set_age (age it + 1) it.

(** The pointers among [l] whose aged item is due for promotion. *)
Definition due q (p : nat) : bool :=
  match store q !! p with Some it => needs_promotion (bump it) | None => false end.

Lemma age_fold l q acc :
  NoDup l ->
  let res := foldl age_step (q, acc) l in
  items res.1 = items q /\ q_seq res.1 = q_seq q /\ next_ptr res.1 = next_ptr q /\
  (forall p, store res.1 !! p = if decide (p ∈ l) then bump <$> store q !! p else store q !! p) /\
  (forall p, p ∈ res.2 <-> p ∈ acc \/ p ∈ l /\ due q p = true).
Proof.
  revert q acc. induction l as [|p l IH]; intros q acc Hnd; cbn [foldl].
  { splits; try done. set_solver. }
  apply NoDup_cons in Hnd as [Hp Hnd].
  destruct (age_step (q, acc) p) as [q1 acc1] eqn:E.
  destruct (IH q1 acc1 Hnd) as (H1 & H2 & H3 & H4 & H5).
  assert (q1 = update q bump p /\ acc1 = acc ++ if due q p then [p] else []) as [-> ->].
  { unfold age_step in E. rewrite lookup_update, decide_True in E by done. unfold due.
    change (fun it : queueItem R => set_age (age it + 1) it) with bump in E.
    destruct (store q !! p); simpl in E; [destruct (needs_promotion _)|]; simplify_eq;
      by rewrite ?app_nil_r. }
  splits; [done..| |].
  - intros p'. rewrite H4, lookup_update.
    destruct (decide (p = p')) as [<-|]; [by rewrite decide_False, decide_True by set_solver|].
    destruct (decide (p' ∈ l)); [by rewrite decide_True by set_solver|].
    by rewrite decide_False by set_solver.
  - intros p'. rewrite H5, elem_of_app, elem_of_cons.
    assert (p' <> p -> due (update q bump p) p' = due q p') as Hdue.
    { intros Hne. unfold due. by rewrite lookup_update, decide_False by done. }
    destruct (decide (p' = p)) as [->|Hne]; [destruct (due q p) eqn:Ed; set_solver|].
    rewrite Hdue by done. destruct (due q p); set_solver.
Qed.

Definition zeroed (e : entry R) : entry R := mkEntry (e_request e) x00 (e_seq e) (e_age e).

Lemma key_at_item q k p : items q !! k = Some p -> key_at q k = key_of q p.
Proof.
  intros E. unfold key_at. simpl. unfold queue_view.
  by rewrite list_lookup_total_alt, list_lookup_fmap, E.
Qed.

(** Promotion of one item: its key drops and [Fix] restores the heap. *)
Lemma promote_step_spec q p :
  indexed q -> is_heap q (Len q) -> p ∈ items q ->
  let q' := promote_step q p in
  indexed q' /\ is_heap q' (Len q') /\ items q' ≡ₚ items q /\
  q_seq q' = q_seq q /\ next_ptr q' = next_ptr q /\
  forall p', entry_at q' p' = if decide (p = p') then zeroed <$> entry_at q p' else entry_at q p'.
Proof.
  intros Hix Hh [i Hi]%list_elem_of_lookup. destruct (Hix _ _ Hi) as (it & E & Hidx).
  unfold promote_step. rewrite lookup_update, decide_True by done. rewrite E. cbn [fmap option_fmap option_map].
  simpl index. rewrite Hidx, Nat2Z.id. remember (update q (set_priority x00) p) as q1 eqn:Eq1.
  assert (i < Len q1)%nat as Hlen.
  { subst q1. apply lookup_lt_Some in Hi. exact Hi. }
  assert (indexed q1) as Hix1.
  { subst q1. intros k p' Hk. rewrite lookup_update. destruct (Hix _ _ Hk) as (a & Ea & Ia).
    rewrite Ea. case_decide; eexists; split; try done. }
  destruct (Fix_reordered q1 i Hlen Hix1) as (HA & (He & Hs & Hn) & HC).
  splits; [done| | |subst q1; done|subst q1; done|].
  - replace (Len (Fix q1 i)) with (Len q1) by (unfold Len; by rewrite HC).
    refine (Fix_ok (ltb:=key_ltb) q1 i _ _ _); [by apply indexed_wf|done|].
    subst q1. apply (heap_decrease key_ltb (key_at q) _ _ i); [done| |].
    + intros k Hne Hk. destruct (lookup_lt_items q k Hk) as [p' Ep'].
      rewrite !(key_at_item _ k p') by done. apply key_of_entry.
      unfold entry_at. rewrite lookup_update, decide_False; [done|]. intros <-.
      apply Hne. by apply (NoDup_lookup (items q) k i p); [apply items_NoDup| |].
    + rewrite !(key_at_item _ i p) by done. unfold key_of. rewrite lookup_update, decide_True, E by done.
      unfold key_ltb. simpl. pose proof (u8_range (priority it)) as Hr. change (u8 x00) with 0.
      destruct (Z.eqb_spec (u8 (priority it)) 0); lia.
  - subst q1. done.
  - intros p'. rewrite <- He. subst q1. unfold entry_at. rewrite lookup_update.
    case_decide; [|done]. by destruct (store q !! p').
Qed.

Lemma promote_fold l q :
  indexed q -> is_heap q (Len q) -> (forall p, p ∈ l -> p ∈ items q) ->
  let q' := foldl promote_step q l in
  indexed q' /\ is_heap q' (Len q') /\ items q' ≡ₚ items q /\
  q_seq q' = q_seq q /\ next_ptr q' = next_ptr q /\
  forall p, entry_at q' p = if decide (p ∈ l) then zeroed <$> entry_at q p else entry_at q p.
Proof.
  revert q. induction l as [|p l IH]; intros q Hix Hh Hl; cbn [foldl].
  { splits; try done. }
  destruct (promote_step_spec q p Hix Hh) as (H1 & H2 & H3 & H4 & H5 & H6); [set_solver|].
  destruct (IH (promote_step q p) H1 H2) as (I1 & I2 & I3 & I4 & I5 & I6).
  { intros p' Hp'. rewrite H3. set_solver. }
  splits; [done|done|by rewrite I3|congruence|congruence|].
  intros p'. rewrite I6, H6. destruct (decide (p = p')) as [<-|Hne].
  - rewrite (decide_True (P:=p ∈ p :: l)) by set_solver.
    case_decide; [|done]. by destruct (entry_at q p).
  - destruct (decide (p' ∈ l)).
    + by rewrite (decide_True (P:=p' ∈ p :: l)) by set_solver.
    + by rewrite (decide_False (P:=p' ∈ p :: l)) by set_solver.
Qed.

(** The state in which [heap.Pop] runs: every entry has aged. *)
Definition aged_queue q : priorityQueue R :=
  foldl promote_step (age_items q).1 (age_items q).2.

Lemma age_keys q p :
  indexed q -> key_of (age_items q).1 p = key_of q p.
Proof.
  intros Hix. destruct (age_fold (items q) q [] (items_NoDup q Hix)) as (_ & _ & _ & H4 & _).
  change (foldl age_step (q, []) (items q)) with (age_items q) in H4.
  unfold key_of. rewrite H4. case_decide; [|done]. by destruct (store q !! p).
Qed.

Lemma aged_queue_spec q :
  queue_ok q ->
  let q' := aged_queue q in
  indexed q' /\ is_heap q' (Len q') /\ items q' ≡ₚ items q /\
  q_seq q' = q_seq q /\ next_ptr q' = next_ptr q /\
  (forall p, p ∈ items q -> entry_at q' p = aged <$> entry_at q p) /\
  (forall p, is_Some (entry_at q' p) -> is_Some (entry_at q p)).
Proof.
  intros Hok. pose proof (ok_indexed q Hok) as Hix.
  destruct (age_fold (items q) q [] (items_NoDup q Hix)) as (H1 & H2 & H3 & H4 & H5).
  change (foldl age_step (q, []) (items q)) with (age_items q) in *.
  destruct (promote_fold (age_items q).2 (age_items q).1) as (I1 & I2 & I3 & I4 & I5 & I6).
  - intros i p. rewrite H1, H4. intros Hi. destruct (Hix _ _ Hi) as (it & E & Ei).
    rewrite decide_True by by eapply list_elem_of_lookup_2. rewrite E. by exists (bump it).
  - unfold Len. rewrite H1. eapply is_heap_ext; [|apply (ok_heap q Hok)].
    intros k Hk. destruct (lookup_lt_items q k Hk) as [p Ep].
    rewrite !(key_at_item _ k p) by (rewrite ?H1; done). symmetry. by apply age_keys.
  - intros p. rewrite H5, H1. set_solver.
  - unfold aged_queue. splits; [done|done|by rewrite I3, H1|congruence|congruence| |].
    + intros p Hp. rewrite I6. unfold entry_at. rewrite H4, (decide_True (P:=p ∈ items q)) by done.
      apply list_elem_of_lookup in Hp as Hp'. destruct Hp' as [i Hi].
      destruct (Hix _ _ Hi) as (it & E & Ei).
      assert (p ∈ (age_items q).2 <-> needs_promotion (bump it) = true) as Hpr.
      { rewrite H5. unfold due. rewrite E. set_solver. }
      rewrite E. simpl. unfold aged. simpl. unfold needs_promotion, bump in Hpr. simpl in Hpr.
      destruct (starvationThreshold <=? age it + 1); simpl in Hpr.
      * case_decide; [done|]. destruct (Z.ltb_spec 0 (u8 (priority it))); [naive_solver|].
        assert (priority it = x00) as Hz.
        { apply u8_inj. pose proof (u8_range (priority it)). change (u8 x00) with 0. lia. }
        unfold bump, set_age, entry_of. simpl. by rewrite Hz.
      * rewrite decide_False by naive_solver. done.
    + intros p. rewrite I6. unfold entry_at. rewrite H4.
      repeat case_decide; destruct (store q !! p); done.
Qed.

(** [heap.Pop] takes out a least element. *)
Lemma heap_Pop_spec q :
  indexed q -> is_heap q (Len q) -> items q <> [] ->
  exists p q', heap_Pop q = Some (p, q') /\ indexed q' /\ is_heap q' (Len q') /\
    same_entries q q' /\ items q ≡ₚ p :: items q' /\
    forall p', p' ∈ items q -> key_ltb (key_of q p') (key_of q p) = false.
Proof.
  intros Hix Hh Hne. assert (0 < Len q)%nat as Hl by (unfold Len; destruct (items q); simpl; [done|lia]).
  remember (Len q - 1)%nat as n eqn:En.
  assert (reordered q (down n (Swap q 0 n) 0 n).1) as Hre.
  { assert (Len (Swap q 0 n) = Len q) as EL.
    { unfold Len. rewrite Swap_items_perm by lia. done. }
    destruct (down_reordered n (Swap q 0 n) 0 n) as (A & B & C); [lia|lia|apply indexed_Swap; (done || simpl; lia)|].
    split; [done|split]; [apply (same_entries_trans _ (Swap q 0 n)); [apply Swap_same|done]|].
    rewrite C. apply Swap_items_perm; lia. }
  destruct (pop_ok (ltb:=key_ltb) q) as [HA HB]; [by apply indexed_wf|done|done|].
  simpl in HA, HB. rewrite <- En in HA, HB.
  unfold heap_Pop. rewrite <- En. remember (down n (Swap q 0 n) 0 n).1 as qd eqn:Eqd.
  destruct Hre as (Hixd & Hs & Hp).
  assert (Len qd = S n) as ELd by (unfold Len in *; rewrite Hp; lia).
  destruct (lookup_lt_items qd n) as [p Ep]; [lia|].
  assert (last (items qd) = Some p) as Elast.
  { rewrite last_lookup. unfold Len in ELd. by rewrite ELd. }
  unfold Pop. rewrite Elast. simpl. eexists p, _. split; [done|].
  assert (items qd = take n (items qd) ++ [p]) as Esplit.
  { rewrite <- (take_drop n (items qd)) at 1. f_equal. 
    rewrite (drop_S _ p n Ep). f_equal. apply drop_ge. unfold Len in ELd. lia. }
  assert (forall k p', take n (items qd) !! k = Some p' -> items qd !! k = Some p' /\ p' <> p) as Htake.
  { intros k p' Hk. apply lookup_take_Some in Hk as [Hk Hlt]. split; [done|]. intros ->.
    pose proof (NoDup_lookup _ _ _ _ (items_NoDup qd Hixd) Hk Ep). lia. }
  rewrite ELd. replace (S n - 1)%nat with n by lia.
  split; [|split; [|split; [|split]]].
  - intros k p' Hk. cbn [items] in Hk. destruct (Htake k p' Hk) as [Hk' Hne'].
    destruct (Hixd _ _ Hk') as (it & E & Ei). exists it. split; [|done].
    pose proof (lookup_update qd (set_index (-1)) p p') as Hu. simpl in Hu.
    rewrite decide_False in Hu by done. simpl. by rewrite Hu.
  - unfold Len. cbn [items]. rewrite length_take. unfold Len in ELd. rewrite ELd.
    replace (n `min` S n)%nat with n by lia.
    eapply is_heap_ext; [|exact HA]. intros k Hk.
    destruct (lookup_lt_items qd k) as [p' Ep']; [unfold Len; lia|].
    assert (take n (items qd) !! k = Some p') as Hk' by (rewrite lookup_take_lt; done).
    destruct (Htake k p' Hk') as [_ Hne'].
    rewrite (key_at_item _ k p'), (key_at_item _ k p') by done. unfold key_of.
    pose proof (lookup_update qd (set_index (-1)) p p') as Hu. simpl in Hu.
    rewrite decide_False in Hu by done. simpl. by rewrite Hu.
  - apply (same_entries_trans _ qd); [done|]. split; [|done]. intros p'.
    symmetry. apply (entry_at_update qd (set_index (-1)) p p'). done.
  - cbn [items]. rewrite <- Hp, Esplit at 1. symmetry. apply Permutation_cons_append.
  - intros p' [k Hk]%list_elem_of_lookup.
    rewrite <- (key_at_item q k p') by done.
    assert (key_of q p = key_at q 0) as ->.
    { transitivity (key_at qd n); [|exact HB]. rewrite (key_at_item qd n p) by done. apply key_of_entry, Hs. }
    refine (heap_root key_ltb (key_at q) (Len q) k Hh _). by apply lookup_lt_Some in Hk.
Qed.

Lemma omap_fmap_entries (f : entry R -> entry R) (l : list nat) (g h : nat -> option (entry R)) :
  (forall p, p ∈ l -> g p = f <$> h p) -> omap g l = f <$> omap h l.
Proof.
  intros E. rewrite (list_omap_same g (fun p => f <$> h p)) by done. clear E.
  induction l as [|p l IH]; [done|]. cbn. destruct (h p); cbn; by rewrite IH.
Qed.

Lemma content_in q e : e ∈ content q <-> exists p, p ∈ items q /\ entry_at q p = Some e.
Proof. rewrite content_entry_at. apply list_elem_of_omap. Qed.

(** A later entry in key order is later for [before], numbers being distinct. *)
Lemma key_before q p p' (e e' : entry R) :
  entry_at q p = Some e -> entry_at q p' = Some e' -> e_seq e <> e_seq e' ->
  key_ltb (key_of q p') (key_of q p) = false -> before e e'.
Proof.
  unfold entry_at, key_of, key_ltb, before. destruct (store q !! p) as [a|]; [|done].
  destruct (store q !! p') as [a'|]; [|done]. simpl. intros [= <-] [= <-] Hne. simpl in *.
  destruct (Z.eqb_spec (u8 (priority a')) (u8 (priority a))) as [E|E]; intros Hlt; [right|left; lia].
  split; [by apply u8_inj|lia].
Qed.

Lemma pop_spec q :
  queue_ok q -> items q <> [] ->
  exists e q', pop q = Some (e_request e, q') /\ queue_ok q' /\ spec_pop (abstract q) e (abstract q').
Proof.
  intros Hok Hne. destruct (aged_queue_spec q Hok) as (A1 & A2 & A3 & A4 & A5 & A6 & A7).
  remember (aged_queue q) as qa eqn:Eqa.
  assert (items qa <> []) as Hne'.
  { intros E. rewrite E in A3. by apply Permutation_nil in A3. }
  assert (content qa ≡ₚ aged <$> content q) as Hc.
  { rewrite !content_entry_at, A3. by rewrite (omap_fmap_entries aged _ _ (entry_at q)). }
  destruct (heap_Pop_spec qa A1 A2 Hne') as (p & q' & Epop & P1 & P2 & (P3 & P4 & P5) & P6 & P7).
  assert (exists e, entry_at qa p = Some e) as [e Ee].
  { rewrite A6 by (rewrite <- A3, P6; set_solver).
    assert (p ∈ items q) as [i Hi]%list_elem_of_lookup by (rewrite <- A3, P6; set_solver).
    destruct (ok_indexed q Hok _ _ Hi) as (it & E & _). unfold entry_at. rewrite E. by eexists. }
  assert (content qa ≡ₚ e :: content q') as Hc'.
  { rewrite !content_entry_at, P6. cbn. rewrite Ee.
    by rewrite (list_omap_same (entry_at qa) (entry_at q')) by done. }
  assert (aged <$> content q ≡ₚ e :: content q') as Hce by by rewrite <- Hc.
  assert (e_seq <$> content q ≡ₚ e_seq e :: (e_seq <$> content q')) as Hseq.
  { transitivity (e_seq <$> (aged <$> content q)).
    - rewrite <- list_fmap_compose. done.
    - by rewrite Hce. }
  pose proof (ok_seqs q Hok) as Hnd. rewrite Hseq in Hnd. apply NoDup_cons in Hnd as [Hnin Hnd].
  exists e, q'. split; [|split].
  - unfold pop. destruct (items q); [done|]. unfold aged_queue in Eqa.
    destruct (age_items q) as [q1 pr]. simpl in Eqa. rewrite <- Eqa, Epop. simpl.
    rewrite P3 in Ee. unfold entry_at in Ee. destruct (store q' !! p); [|done]. by injection Ee as <-.
  - split; [done| |done| |rewrite <- P4, A4; apply Hok|done].
    + intros p' Hp'. rewrite <- P5, A5. apply (ok_fresh q Hok).
      assert (is_Some (entry_at q' p')) as Hs.
      { unfold entry_at. destruct Hp' as [it ->]. by eexists. }
      rewrite <- P3 in Hs. apply A7 in Hs. unfold entry_at in Hs.
      destruct (store q !! p'); [by eexists|by apply is_Some_None in Hs].
    + rewrite <- P4, A4. pose proof (ok_below q Hok) as Hb. rewrite Forall_forall in Hb |- *.
      intros e' He'. assert (e_seq e' ∈ e_seq <$> content q) as (e0 & -> & He0)%list_elem_of_fmap.
      { rewrite Hseq. apply elem_of_cons. right. by apply list_elem_of_fmap_2. }
      by apply Hb.
  - split; [simpl; congruence|split; [done|]]. simpl. rewrite Forall_forall. intros e' He'.
    assert (e_seq e <> e_seq e') as Hd.
    { intros E. apply Hnin. rewrite E. by apply list_elem_of_fmap_2. }
    apply content_in in He' as (p' & Hp' & Ep'). rewrite <- P3 in Ep'.
    apply (key_before qa p p'); [done|done|done|]. apply P7. rewrite P6. set_solver.
Qed.
End proofs.

(** ** Theorems *)

Section theorems.
Context {R : Type} `{QueueRequest R}.
Implicit Types (q : priorityQueue R) (r : R) (e : entry R).

Definition spec_eq (s s' : spec_queue R) : Prop :=
  entries s ≡ₚ entries s' /\ counter s = counter s'.

Lemma new_queue_ok : queue_ok (newPriorityQueue (R:=R)).
Proof.
  split.
  - intros i p. simpl. rewrite lookup_nil. done.
  - intros p. simpl. rewrite lookup_empty. by intros [? ?].
  - constructor.
  - constructor.
  - done.
  - intros i Hi. unfold Len in Hi. simpl in Hi. lia.
Qed.

(** C12: The heap-backed queue refines the multiset specification and keeps its
    invariant: [push] adds an entry with the next number, [pop] removes the
    least entry after everyone has aged, and fails on the empty queue only. *)
Theorem queue_refines_spec q r :
  queue_ok q ->
  (q_seq q < 2 ^ 64 - 1 ->
     queue_ok (push q r) /\ spec_eq (abstract (push q r)) (spec_push (abstract q) r)) /\
  match pop q with
  | Some (r', q') =>
      queue_ok q' /\ exists e, e_request e = r' /\ spec_pop (abstract q) e (abstract q')
  | None => content q = []
  end.
Proof.
  intros Hok. split.
  - intros Hlt. destruct (push_spec q r Hok Hlt) as (A & B & C). split; [done|by split].
  - destruct (items q) eqn:Ei.
    + unfold pop, content. by rewrite Ei.
    + destruct (pop_spec q Hok) as (e & q' & -> & B & C); [by rewrite Ei|]. split; [done|by exists e].
Qed.

(** Runs of the queue: pushes while the counter lasts, and successful pops. *)
Inductive queue_label := LPush (r : R) | LPop (r : R).

Inductive queue_step : priorityQueue R -> queue_label -> priorityQueue R -> Prop :=
| step_push q r : q_seq q < 2 ^ 64 - 1 -> queue_step q (LPush r) (push q r)
| step_pop q r q' : pop q = Some (r, q') -> queue_step q (LPop r) q'.

Definition is_pop (l : queue_label) : bool := match l with LPop _ => true | LPush _ => false end.
Definition pops (ls : list queue_label) : Z := len (filter (fun l => is_pop l = true) ls).

(** How many pops [e] may still have to let pass among the entries [l]. *)
Definition wait_bound (l : list (entry R)) e : Z :=
  Z.max 0 (starvationThreshold - 1 - e_age e) + len (filter (fun e' => e_seq e' < e_seq e) l).

Lemma wait_bound_perm l l' e : l ≡ₚ l' -> wait_bound l e = wait_bound l' e.
Proof. intros Hp. unfold wait_bound, len. by rewrite Hp. Qed.

Lemma wait_bound_aged l e :
  len (filter (fun e' => e_seq e' < e_seq e) (aged <$> l)) =
  len (filter (fun e' => e_seq e' < e_seq e) l).
Proof.
  unfold len. f_equal. induction l as [|x l IH]; [done|]. rewrite fmap_cons, !filter_cons.
  change (e_seq (aged x)) with (e_seq x). case_decide; cbn [length]; by rewrite IH.
Qed.

(** A pop either serves [e] or brings it one pop closer. *)
Lemma spec_pop_progress s x s' e :
  spec_pop s x s' -> NoDup (e_seq <$> entries s) -> e ∈ entries s ->
  (e_seq x = e_seq e /\ e_seq e ∉ (e_seq <$> entries s')) \/
  (aged e ∈ entries s' /\ wait_bound (entries s') (aged e) + 1 <= wait_bound (entries s) e).
Proof.
  intros (_ & Hp & Hb) Hnd He.
  assert (e_seq <$> entries s ≡ₚ e_seq x :: (e_seq <$> entries s')) as Hseq.
  { transitivity (e_seq <$> (aged <$> entries s)); [by rewrite <- list_fmap_compose|by rewrite Hp]. }
  rewrite Hseq in Hnd. apply NoDup_cons in Hnd as [Hnin _].
  assert (aged e ∈ x :: entries s') as Hin by (rewrite <- Hp; by apply list_elem_of_fmap_2).
  apply elem_of_cons in Hin as [Hx|Hin]; [left; rewrite <- Hx in *; done|]. right. split; [done|].
  rewrite Forall_forall in Hb. specialize (Hb _ Hin).
  assert (wait_bound (x :: entries s') (aged e) =
          Z.max 0 (starvationThreshold - 1 - (e_age e + 1)) +
          len (filter (fun e' => e_seq e' < e_seq e) (entries s))) as Hw.
  { rewrite <- (wait_bound_perm _ _ _ Hp). unfold wait_bound at 1. by rewrite wait_bound_aged. }
  unfold wait_bound in *. rewrite filter_cons in Hw. simpl e_age in *. simpl e_seq in *.
  unfold starvationThreshold in *. pose proof (len_nonneg (filter (fun e' => e_seq e' < e_seq e) (entries s'))).
  case_decide as Hd; rewrite ?len_cons in Hw; [lia|].
  destruct Hb as [Hb|[_ Hb]]; [|simpl in Hb; lia]. simpl in Hb.
  unfold starvationThreshold in Hb. destruct (Z.leb_spec 8 (e_age e + 1)); [|lia].
  pose proof (u8_range (e_priority x)). change (u8 x00) with 0 in Hb. lia.
Qed.

(** One step of the queue is a step of the specification. *)
Lemma queue_step_spec q l q' :
  queue_ok q -> queue_step q l q' ->
  queue_ok q' /\
  match l with
  | LPush r => spec_eq (abstract q') (spec_push (abstract q) r)
  | LPop r => exists e, e_request e = r /\ spec_pop (abstract q) e (abstract q')
  end.
Proof.
  intros Hok Hst. destruct Hst as [q r Hlt|q r q' E].
  - destruct (push_spec q r Hok Hlt) as (A & B & C). split; [done|by split].
  - assert (items q <> []) as Hne by (intros Ei; unfold pop in E; by rewrite Ei in E).
    destruct (pop_spec q Hok Hne) as (e & q1 & E1 & A & B). rewrite E1 in E. simplify_eq.
    split; [done|by exists e].
Qed.

(** A number that has left the queue does not come back. *)
Lemma served_stays_served q ls q' n :
  steps queue_step q ls q' -> queue_ok q -> n < q_seq q ->
  n ∉ e_seq <$> content q -> n ∉ e_seq <$> content q'.
Proof.
  induction 1 as [q|q l q1 ls q2 Hst _ IH]; [done|]. intros Hok Hlt Hn.
  destruct (queue_step_spec q l q1 Hok Hst) as [Hok1 Hspec].
  destruct l as [r|r]; simpl in Hspec.
  - destruct Hspec as [Hp Hc]. simpl in Hp, Hc. apply IH; [done|lia|].
    rewrite Hp, fmap_cons, not_elem_of_cons. split; [simpl; lia|done].
  - destruct Hspec as (x & _ & Hc & Hp & _). simpl in Hp, Hc. apply IH; [done|lia|].
    intros Hin. apply Hn.
    assert (n ∈ e_seq <$> (aged <$> content q)) as Hin'.
    { rewrite Hp, fmap_cons. by apply elem_of_cons; right. }
    by rewrite <- list_fmap_compose in Hin'.
Qed.

(** C38: No starvation: an entry that is still queued has been passed over by at
    most seven pops while it was young, plus one for each older entry. *)
Theorem bounded_waiting q ls q' e :
  queue_ok q -> steps queue_step q ls q' -> e ∈ content q ->
  e_seq e ∈ e_seq <$> content q' ->
  pops ls <= wait_bound (content q) e.
Proof.
  intros Hok Hs. revert e Hok. induction Hs as [q|q l q1 ls q2 Hst Hs IH]; intros e Hok He He'.
  { unfold wait_bound. change (pops []) with 0.
    pose proof (len_nonneg (filter (fun e' => e_seq e' < e_seq e) (content q))). lia. }
  destruct (queue_step_spec q l q1 Hok Hst) as [Hok1 Hspec].
  pose proof (ok_below q Hok) as Hb. rewrite Forall_forall in Hb. specialize (Hb e He).
  destruct l as [r|r]; simpl in Hspec.
  - destruct Hspec as [Hp Hc]. simpl in Hp. specialize (IH e Hok1 ltac:(rewrite Hp; set_solver) He').
    rewrite (wait_bound_perm _ _ _ Hp) in IH. unfold wait_bound in *. rewrite filter_cons in IH.
    rewrite decide_False in IH by (simpl; lia). unfold pops in *. rewrite filter_cons, decide_False by done. lia.
  - destruct Hspec as (x & _ & Hsp). unfold pops. rewrite filter_cons, decide_True by done.
    rewrite len_cons. change (len (filter (fun l => is_pop l = true) ls)) with (pops ls).
    destruct (spec_pop_progress _ _ _ e Hsp (ok_seqs q Hok) He) as [[_ Hgone]|[Hin Hle]].
    + exfalso. destruct Hsp as (Hc & _). simpl in Hc.
      refine (served_stays_served q1 ls q2 _ Hs Hok1 _ Hgone He'). lia.
    + specialize (IH (aged e) Hok1 Hin He'). simpl in Hle. lia.
Qed.
End theorems.

(** ** A queue on concrete requests: a source address, or a transport operation *)

#[export] Instance sample_request : QueueRequest (byte * bool) := {
  request_source := fst;
  request_is_transport_op := snd
}.

(** A low-priority frame is overtaken by seven urgent ones and then served. *)
Fixpoint overtaken (n : nat) (q : priorityQueue (byte * bool)) : list (byte * bool) * priorityQueue (byte * bool) :=
  match n with
  | O => ([], q)
  | S n' =>
      match pop (push q (x10, false)) with
      | Some (r, q') => let '(rs, q'') := overtaken n' q' in (r :: rs, q'')
      | None => ([], q)
      end
  end.

Definition one_waiting : priorityQueue (byte * bool) := push newPriorityQueue (xff, false).

Example overtaken_eight :
  (overtaken 8 one_waiting).1 = repeat (x10, false) 7 ++ [(xff, false)].
Proof. vm_compute. reflexivity. Qed.

Lemma one_waiting_ok : queue_ok one_waiting.
Proof. apply push_spec; [apply new_queue_ok|done]. Qed.

Example queue_refines_spec_witness :
  match pop one_waiting with
  | Some (r', q') =>
      queue_ok q' /\ exists e, e_request e = r' /\ spec_pop (abstract one_waiting) e (abstract q')
  | None => content one_waiting = []
  end.
Proof. apply (queue_refines_spec one_waiting (x10, true)). apply one_waiting_ok. Defined.

Example bounded_waiting_witness :
  pops [LPush (x10, false)] <= wait_bound (content one_waiting) (mkEntry (xff, false) xff 0 0).
Proof.
  apply (bounded_waiting one_waiting [LPush (x10, false)] (push one_waiting (x10, false))).
  - apply one_waiting_ok.
  - eapply steps_cons; [by apply step_push|constructor].
  - vm_compute. constructor.
  - vm_compute. repeat constructor.
Defined.
