(* ===== verification/BusEnv.v ===== *)
(** What protocol/bus.go runs against and reports to: the transport with its
    optional interfaces, the contexts and the clock as one type class, the
    bus's own counters, the observer events of protocol/observer.go and their
    emission, and the classification of errors into outcomes. *)

From S2P Require Import Prelude Errors Wire Address.

(** ** Observer vocabulary *)

Inductive BusEventKind :=
| BusEventArbitration | BusEventTX | BusEventRX | BusEventACK | BusEventNACK
| BusEventTimeout | BusEventCRCMismatch | BusEventEchoMismatch | BusEventRetry
| BusEventAttemptComplete | BusEventRequestComplete | BusEventObserverFault
| BusEventAdapterReset.

Inductive BusOutcomeClass :=
| BusOutcomeUnknown | BusOutcomeSuccess | BusOutcomeTimeout | BusOutcomeNACK
| BusOutcomeCRCMismatch | BusOutcomeEchoMismatch | BusOutcomeCollision
| BusOutcomeObserverFault | BusOutcomeAdapterReset.

Inductive BusRetryReason :=
| BusRetryReasonUnknown | BusRetryReasonTimeout | BusRetryReasonNACK
| BusRetryReasonCRCMismatch | BusRetryReasonCollision | BusRetryReasonAdapterReset.

#[export] Instance eventkind_eq_dec : EqDecision BusEventKind.
Proof. solve_decision. Defined.
#[export] Instance outcome_eq_dec : EqDecision BusOutcomeClass.
Proof. solve_decision. Defined.
#[export] Instance retryreason_eq_dec : EqDecision BusRetryReason.
Proof. solve_decision. Defined.

(** [BusEvent]; an absent request or response is [None] ([HasRequest] and
    [HasResponse] false). *)
Record BusEvent := mkEvent {
  evKind : BusEventKind;
  evFrameType : FrameType;
  evOutcome : BusOutcomeClass;
  evRetry : BusRetryReason;
  evInitiator : byte;
  evByte : byte;
  evByteKnown : bool;
  evEchoWasEscaped : bool;
  evAttempt : Z;
  evTimeoutRetries : Z;
  evNACKRetries : Z;
  evDurationMicros : Z;
  evRequest : option Frame;
  evResponse : option Frame
}.

(** An event with the kind and outcome given and every other field zero. *)
Definition event (kind : BusEventKind) (outcome : BusOutcomeClass) : BusEvent :=
  mkEvent kind FrameTypeUnknown outcome BusRetryReasonUnknown x00 x00 false false 0 0 0 0 None None.

(** ** Outcome of an error *)

Fixpoint containsSubstring (value needle : string) : bool :=
  String.prefix needle value ||
  match value with String _ value' => containsSubstring value' needle | EmptyString => false end.

Definition stringsContains (value needle : string) : bool :=
  negb (String.eqb needle "") && containsSubstring value needle.

Definition containsEchoMismatch (err : option error) : bool :=
  match err with Some e => stringsContains (error_string e) "echo mismatch" | None => false end.

Definition busOutcomeFromError (err : option error) : BusOutcomeClass :=
  match err with
  | None => BusOutcomeSuccess
  | Some e =>
      if errors_is e STimeout then BusOutcomeTimeout
      else if errors_is e SNACK then BusOutcomeNACK
      else if errors_is e SCRCMismatch then BusOutcomeCRCMismatch
      else if errors_is e SBusCollision then
        if containsEchoMismatch err then BusOutcomeEchoMismatch else BusOutcomeCollision
      else if errors_is e SAdapterReset then BusOutcomeAdapterReset
      else BusOutcomeUnknown
  end.

Definition busRetryReasonFromError (err : option error) : BusRetryReason :=
  match busOutcomeFromError err with
  | BusOutcomeTimeout => BusRetryReasonTimeout
  | BusOutcomeNACK => BusRetryReasonNACK
  | BusOutcomeCRCMismatch => BusRetryReasonCRCMismatch
  | BusOutcomeCollision | BusOutcomeEchoMismatch => BusRetryReasonCollision
  | BusOutcomeAdapterReset => BusRetryReasonAdapterReset
  | _ => BusRetryReasonUnknown
  end.

(** [errors.As] for the bus's marker. *)
Fixpoint echoMismatchAlreadyEmitted (e : error) : bool :=
  match e with
  | EEchoEmitted _ => true
  | EWrap _ e _ => echoMismatchAlreadyEmitted e
  | _ => false
  end.

(** ** The environment *)

Inductive CollisionRecoveryDecision := CollisionRecoveryRetry | CollisionRecoveryAbandon.

(** What an observer callback does: return nil, return an error, or panic. *)
Inductive observer_result := ObserverOk | ObserverErr (e : error) | ObserverPanic (msg : string).

(** The branch a [select] on a timer and two contexts takes. *)
Inductive wake := WakeTimer | WakeRunDone | WakeRequestDone.

(** A context: what [Err()] returns now, and whether [Deadline()] is set. *)
Record context (W : Type) := mkContext { ctx_Err : W -> option error; ctx_HasDeadline : bool }.
Arguments mkContext {W} _ _.
Arguments ctx_Err {W} _ _.
Arguments ctx_HasDeadline {W} _.

(** The transport, its optional interfaces ([None] when the type assertion
    fails), the observer, and time, over a state [W] of everything outside. *)
Class BusEnv (W : Type) := {
  tr_ReadByte : W -> W * result error byte;
  tr_Write : list byte -> W -> W * (Z * option error);
  tr_ReadByteWithEscape : option (W -> W * result error (byte * bool));
  tr_SignalStructuralSyn : option (W -> W);
  tr_StartArbitration : option (byte -> W -> W * option error);
  tr_ArbitrationSendsSource : option (W -> bool);
  tr_Reconnect : option (W -> W * option error);
  tr_CollisionLifecycle : option ((W -> W * Z) * (Z -> CollisionRecoveryDecision -> W -> W));
  on_bus_event : option (BusEvent -> W -> W * observer_result);
  time_now : W -> Z;
  select_wait : context W -> context W -> Z -> W -> W * wake
}.

(** ** The bus's state and the monad its methods run in *)

Record ObserverFault := mkFault {
  fault_Count : Z;
  fault_LastKind : option BusEventKind;
  fault_LastOutcome : BusOutcomeClass;
  fault_LastPanic : bool;
  fault_LastError : string
}.

(** The atomic counters of [Bus] and its observer-fault snapshot. *)
Record BusState := mkBusState {
  payloadAaAutoSynAbsorbed : Z;
  payloadAaAutoSynRecovered : Z;
  payloadAaAutoSynDrainExhausted : Z;
  activeEchoWaits : Z;
  round9AbsorbEntered : Z;
  observerFault : ObserverFault
}.

Definition zero_state : BusState :=
  mkBusState 0 0 0 0 0 (mkFault 0 None BusOutcomeUnknown false "").

Definition M (W A : Type) : Type := BusState * W -> (BusState * W) * A.

Definition ret {W A} (a : A) : M W A := fun s => (s, a).
Definition bind {W A B} (m : M W A) (f : A -> M W B) : M W B := fun s => let '(s', a) := m s in f a s'.

(** Sequencing that returns early on an error, Go's [if err != nil]. *)
Definition try_bind {W A B} (m : M W (result error A)) (f : A -> M W (result error B)) : M W (result error B) :=
  bind m (fun r => match r with Ok a => f a | Err e => ret (Err e) end).

Definition lift {W A} (f : W -> W * A) : M W A :=
  fun s => let '(w, a) := f s.2 in ((s.1, w), a).
Definition modify {W} (f : BusState -> BusState) : M W unit := fun s => ((f s.1, s.2), tt).
Definition gets {W A} (f : BusState * W -> A) : M W A := fun s => (s, f s).
Definition fail {W A} (e : error) : M W (result error A) := ret (Err e).
Definition ok {W A} (a : A) : M W (result error A) := ret (Ok a).

Notation "'let!' x ':=' m 'in' k" := (bind m (fun x => k))
  (at level 10, x pattern, m at level 100, k at level 200) : ebus_scope.
Notation "'let?' x ':=' m 'in' k" := (try_bind m (fun x => k))
  (at level 10, x pattern, m at level 100, k at level 200) : ebus_scope.
Notation "m ;; k" := (bind m (fun _ => k)) (at level 100, right associativity) : ebus_scope.

(** A [uint64] counter's [Add(1)]. *)
Definition incr (z : Z) : Z := wrap 64 (z + 1).

Definition count_absorbed (b : BusState) : BusState :=
  mkBusState (incr (payloadAaAutoSynAbsorbed b)) (payloadAaAutoSynRecovered b)
    (payloadAaAutoSynDrainExhausted b) (activeEchoWaits b) (round9AbsorbEntered b) (observerFault b).
Definition count_recovered (b : BusState) : BusState :=
  mkBusState (payloadAaAutoSynAbsorbed b) (incr (payloadAaAutoSynRecovered b))
    (payloadAaAutoSynDrainExhausted b) (activeEchoWaits b) (round9AbsorbEntered b) (observerFault b).
Definition count_exhausted (b : BusState) : BusState :=
  mkBusState (payloadAaAutoSynAbsorbed b) (payloadAaAutoSynRecovered b)
    (incr (payloadAaAutoSynDrainExhausted b)) (activeEchoWaits b) (round9AbsorbEntered b) (observerFault b).
Definition count_entered (b : BusState) : BusState :=
  mkBusState (payloadAaAutoSynAbsorbed b) (payloadAaAutoSynRecovered b)
    (payloadAaAutoSynDrainExhausted b) (activeEchoWaits b) (incr (round9AbsorbEntered b)) (observerFault b).
(** [activeEchoWaits] is an [int32]. *)
Definition add_echo_wait (d : Z) (b : BusState) : BusState :=
  mkBusState (payloadAaAutoSynAbsorbed b) (payloadAaAutoSynRecovered b)
    (payloadAaAutoSynDrainExhausted b) (swrap 32 (activeEchoWaits b + d)) (round9AbsorbEntered b) (observerFault b).
Definition set_fault (f : ObserverFault) (b : BusState) : BusState :=
  mkBusState (payloadAaAutoSynAbsorbed b) (payloadAaAutoSynRecovered b)
    (payloadAaAutoSynDrainExhausted b) (activeEchoWaits b) (round9AbsorbEntered b) f.

Definition inSendRawWithEchoActiveEchoWait (b : BusState) : bool := 0 <? activeEchoWaits b.

(** ** Emission *)

Section emission.
Context {W : Type} `{BusEnv W}.

(** [callObserver]: the error it gives and whether the callback panicked. *)
Definition callObserver (obs : BusEvent -> W -> W * observer_result) (ev : BusEvent)
    : M W (option error * bool) :=
  let! r := lift (obs ev) in
  ret (match r with
       | ObserverOk => (None, false)
       | ObserverErr e => (Some e, false)
       | ObserverPanic msg => (Some (EOther ("observer panic: " +:+ msg)), true)
       end).

Definition recordObserverFault (ev : BusEvent) (r : option error * bool) : M W unit :=
  modify (fun b => set_fault (mkFault (incr (fault_Count (observerFault b))) (Some (evKind ev))
    (evOutcome ev) r.2 (match r.1 with Some e => error_string e | None => "" end)) b).

(** The event sent when the observer failed on [ev]. *)
Definition fault_event (ev : BusEvent) : BusEvent :=
  mkEvent BusEventObserverFault (evFrameType ev) BusOutcomeObserverFault BusRetryReasonUnknown
    (evInitiator ev) x00 false false (evAttempt ev) 0 0 0 (evRequest ev) (evResponse ev).

Definition emitObserverEvent (ev : BusEvent) : M W unit :=
  match on_bus_event with
  | None => ret tt
  | Some obs =>
      let! r := callObserver obs ev in
      match r.1 with
      | None => ret tt
      | Some _ =>
          recordObserverFault ev r ;;
          if decide (evKind ev = BusEventObserverFault) then ret tt
          else let! _ := callObserver obs (fault_event ev) in ret tt
      end
  end.

(** [HasRequest: frameType != FrameTypeUnknown]. *)
Definition outcome_event (kind : BusEventKind) (outcome : BusOutcomeClass)
    (request : Frame) (frameType : FrameType) (attempt : Z) : BusEvent :=
  mkEvent kind frameType outcome BusRetryReasonUnknown x00 x00 false false attempt 0 0 0
    (if decide (frameType = FrameTypeUnknown) then None else Some request) None.

(** The kind of the event an outcome is reported with, if it is reported. *)
Definition outcome_kind (o : BusOutcomeClass) : option BusEventKind :=
  match o with
  | BusOutcomeTimeout => Some BusEventTimeout
  | BusOutcomeNACK => Some BusEventNACK
  | BusOutcomeCRCMismatch => Some BusEventCRCMismatch
  | BusOutcomeEchoMismatch => Some BusEventEchoMismatch
  | BusOutcomeAdapterReset => Some BusEventAdapterReset
  | _ => None
  end.

Definition emitOutcomeEvent (request : Frame) (frameType : FrameType) (attempt : Z) (err : error)
    : M W unit :=
  let outcome := busOutcomeFromError (Some err) in
  if echoMismatchAlreadyEmitted err && bool_decide (outcome = BusOutcomeEchoMismatch) then ret tt
  else
    match outcome_kind outcome with
    | Some kind => emitObserverEvent (outcome_event kind outcome request frameType attempt)
    | None => ret tt
    end.

Definition durationMicros (ns : Z) : Z := Z.quot ns 1000.

Definition time_since (started : Z) (s : BusState * W) : Z := time_now s.2 - started.

Definition emitAttemptComplete (request : Frame) (response : option Frame) (frameType : FrameType)
    (attempt startedAt : Z) : M W unit :=
  let! elapsed := gets (time_since startedAt) in
  emitObserverEvent (mkEvent BusEventAttemptComplete frameType BusOutcomeSuccess BusRetryReasonUnknown
    x00 x00 false false attempt 0 0 (durationMicros elapsed) (Some request) response).

Definition emitRequestComplete (request : Frame) (response : option Frame) (frameType : FrameType)
    (attempt timeoutRetries nackRetries : Z) (err : option error) (startedAt : Z) : M W unit :=
  let! elapsed := gets (time_since startedAt) in
  emitObserverEvent (mkEvent BusEventRequestComplete frameType (busOutcomeFromError err)
    BusRetryReasonUnknown x00 x00 false false attempt timeoutRetries nackRetries
    (durationMicros elapsed) (Some request) response).

Definition emitRetryEvent (request : Frame) (frameType : FrameType)
    (attempt timeoutRetries nackRetries : Z) (err : error) : M W unit :=
  emitObserverEvent (mkEvent BusEventRetry frameType (busOutcomeFromError (Some err))
    (busRetryReasonFromError (Some err)) x00 x00 false false attempt timeoutRetries nackRetries 0
    (Some request) None).
End emission.
