(* ===== verification/Bus.v ===== *)
(** protocol/bus.go, one transaction: symbol reads, echoed writes with the
    bounded absorption of AUTO-SYNs at a payload 0xAA, and the command and
    response phases of [sendTransaction]. *)

From S2P Require Import Prelude Errors Wire Address.
From S2P Require Import BusEnv.

#[local] Open Scope list_scope.

(** [fmt.Errorf(msg + ": %w", sentinel)]. *)
Definition wrapped (msg : string) (s : sentinel) : error := EWrap (msg +:+ ": ") (ESentinel s) "".

Definition errUnknownFrameType : error := wrapped "bus send unknown frame type" SInvalidPayload.
Definition errCommandAckLoopExhausted : error := wrapped "command ack loop exited without ack" STimeout.

Definition maxPayloadAaAutoSynDrains : nat := 3.

Definition echo_mismatch_event (echo : byte) (escaped : bool) : BusEvent :=
  mkEvent BusEventEchoMismatch FrameTypeUnknown BusOutcomeEchoMismatch BusRetryReasonUnknown
    x00 echo true escaped 0 0 0 0 None None.

Definition byte_event (kind : BusEventKind) (b : byte) : BusEvent :=
  mkEvent kind FrameTypeUnknown BusOutcomeSuccess BusRetryReasonUnknown x00 b false false 0 0 0 0 None None.

(** The zero [Frame] that transport-level reports carry. *)
Definition zero_frame : Frame := mkFrame x00 x00 x00 x00 [] FrameTypeUnknown.

Section bus.
Context {W : Type} `{BusEnv W}.
(** [Bus.unescapedTransport], fixed by [NewBus]. *)
Context (unescapedTransport : bool).
Context (runCtx reqCtx : context W).

Definition contextError : M W (option error) :=
  gets (fun s =>
    match ctx_Err reqCtx s.2 with
    | Some err => Some err
    | None =>
        match ctx_Err runCtx s.2 with Some _ => Some (ESentinel STransportClosed) | None => None end
    end).

(** [if err := b.contextError(...); err != nil { return err }]. *)
Definition checkContext : M W (result error unit) :=
  let! err := contextError in match err with Some e => fail e | None => ok tt end.

Definition readByte : M W (result error byte) :=
  let? _ := checkContext in
  let? value := lift tr_ReadByte in
  emitObserverEvent (byte_event BusEventRX value) ;; ok value.

Definition readByteWithEscape (flagged : W -> W * result error (byte * bool))
    : M W (result error (byte * bool)) :=
  let? _ := checkContext in
  let? value := lift flagged in
  emitObserverEvent (byte_event BusEventRX value.1) ;; ok value.

(** ** Symbols *)

(** [busDecoder.readSymbol]; [escape] is the decoder's field, returned with the
    result. The loop runs at most twice: after a lead the next byte returns. *)
Definition readEscaped (raw : byte) : M W (bool * result error byte) :=
  ret (false,
    if raw =b x00 then Ok SymbolEscape
    else if raw =b x01 then Ok SymbolSyn
    else Err (wrapped ("invalid escape sequence 0x" +:+ fmt_02x raw) SInvalidPayload)).

Definition read_failed (escape : bool) (err : error) : M W (bool * result error byte) :=
  ret (if errors_is err STimeout then false else escape, Err err).

Definition readSymbol (escape : bool) : M W (bool * result error byte) :=
  if unescapedTransport then let! r := readByte in ret (escape, r)
  else
    let! r := readByte in
    match r with
    | Err err => read_failed escape err
    | Ok raw =>
        if escape then readEscaped raw
        else if raw =b SymbolEscape then
          let! r2 := readByte in
          match r2 with
          | Err err => read_failed true err
          | Ok raw2 => readEscaped raw2
          end
        else ret (false, Ok raw)
    end.

(** ** Echoed writes *)

(** Emission of a transport-level error before it is returned. *)
Definition report {A} (err : error) : M W (result error A) :=
  emitOutcomeEvent zero_frame FrameTypeUnknown 0 err ;; fail err.

(** The same preceded by the direct echo-mismatch event. *)
Definition reportEcho {A} (echo : byte) (escaped : bool) (err : error) : M W (result error A) :=
  emitObserverEvent (echo_mismatch_event echo escaped) ;; report err.

(** The read half of an echo: escape provenance when the transport has it. *)
Definition readEcho : M W (result error (byte * bool)) :=
  match tr_ReadByteWithEscape with
  | Some flagged =>
      if unescapedTransport then readByteWithEscape flagged
      else let? echo := readByte in ok (echo, false)
  | None => let? echo := readByte in ok (echo, false)
  end.

(** The round-9 loop: [Ok None] when the real echo arrived, [Ok (Some echo)]
    when it stopped on another byte, [Err] when it gave up or a read failed.
    [first] is the AUTO-SYN that started it, the byte reported on exhaustion. *)
Fixpoint absorb (flagged : W -> W * result error (byte * bool)) (first : byte * bool) (left : nat)
    : M W (result error (option (byte * bool))) :=
  match left with
  | O =>
      modify count_exhausted ;;
      reportEcho first.1 first.2
        (wrapped "echo for payload 0xAA expected escape-decoded WasEscaped=true but received real wire SYN"
           SBusCollision)
  | S left' =>
      let! r := readByteWithEscape flagged in
      match r with
      | Err drainErr => report drainErr
      | Ok (nextEcho, nextWasEscaped) =>
          modify count_absorbed ;;
          if (nextEcho =b SymbolSyn) && nextWasEscaped then modify count_recovered ;; ok None
          else if (nextEcho =b SymbolSyn) && negb nextWasEscaped then absorb flagged first left'
          else ok (Some (nextEcho, nextWasEscaped))
      end
  end.

(** The final comparison of the echo with the byte written. *)
Definition compareEcho (raw : byte) (isFirstByte : bool) (echo : byte * bool) : M W (result error unit) :=
  if echo.1 =b raw then ok tt
  else if isFirstByte && negb echo.2 && bool_decide (AddressClassOf echo.1 = AddressClassMaster) then
    report (wrapped ("first-byte arbitration loss: wrote 0x" +:+ fmt_02X raw +:+ ", wire echo 0x"
                     +:+ fmt_02X echo.1 +:+ " (foreign initiator)") SBusCollision)
  else
    reportEcho echo.1 echo.2
      (EEchoEmitted (wrapped ("echo mismatch (sent 0x" +:+ fmt_02x raw +:+ ", got 0x"
                              +:+ fmt_02x echo.1 +:+ ")") SBusCollision)).

(** The guards between the echo's arrival and the comparison, in order. *)
Definition checkEcho (raw : byte) (expectRawSyn isFirstByte : bool) (echo : byte * bool)
    : M W (result error unit) :=
  let '(value, escaped) := echo in
  let unexpected_syn := wrapped "unexpected syn while waiting for echo" SBusCollision in
  if negb unescapedTransport && (value =b SymbolSyn) && negb (raw =b SymbolSyn)
  then reportEcho value escaped unexpected_syn
  else
    match tr_ReadByteWithEscape with
    | None => compareEcho raw isFirstByte echo
    | Some flagged =>
        if (value =b SymbolSyn) && negb escaped && negb (raw =b SymbolSyn)
        then reportEcho value escaped unexpected_syn
        else if expectRawSyn && (raw =b SymbolSyn) && (value =b SymbolSyn) && escaped
        then reportEcho value escaped
               (wrapped ("echo expected real wire SYN (0x" +:+ fmt_02X raw
                         +:+ ") but received escape-decoded payload 0xAA") SBusCollision)
        else if negb expectRawSyn && (raw =b SymbolSyn) && (value =b SymbolSyn) && negb escaped
        then
          let! waiting := gets (fun s => inSendRawWithEchoActiveEchoWait s.1) in
          (if waiting then modify count_entered else ret tt) ;;
          let? r := absorb flagged echo maxPayloadAaAutoSynDrains in
          match r with
          | None => ok tt
          | Some echo' => compareEcho raw isFirstByte echo'
          end
        else compareEcho raw isFirstByte echo
    end.

Definition sendRawWithEcho (raw : byte) (expectRawSyn isFirstByte : bool) : M W (result error unit) :=
  (match tr_SignalStructuralSyn with
   | Some signal => if expectRawSyn then lift (fun w => (signal w, tt)) else ret tt
   | None => ret tt
   end) ;;
  let! r := lift (tr_Write [raw]) in
  match r with
  | (_, Some err) =>
      emitOutcomeEvent zero_frame FrameTypeUnknown 0 err ;;
      fail (if decide (busOutcomeFromError (Some err) = BusOutcomeEchoMismatch)
            then EEchoEmitted err else err)
  | (written, None) =>
      if negb (written =? 1) then report (ESentinel SInvalidPayload)
      else
        emitObserverEvent (byte_event BusEventTX raw) ;;
        modify (add_echo_wait 1) ;;
        let! r := (let! echo := readEcho in
                   match echo with
                   | Err err => report err
                   | Ok echo => checkEcho raw expectRawSyn isFirstByte echo
                   end) in
        (* the deferred decrement *)
        modify (add_echo_wait (-1)) ;; ret r
  end.

Definition sendSymbolWithEcho (symbol : byte) (escape isFirstByte : bool) : M W (result error unit) :=
  if unescapedTransport || negb escape || (negb (symbol =b SymbolEscape) && negb (symbol =b SymbolSyn))
  then sendRawWithEcho symbol (negb escape && (symbol =b SymbolSyn)) isFirstByte
  else
    let? _ := sendRawWithEcho SymbolEscape false isFirstByte in
    sendRawWithEcho (if symbol =b SymbolSyn then x01 else x00) false false.

Definition sendEndOfMessage : M W (result error unit) := sendSymbolWithEcho SymbolSyn false false.

(** The loop of [sendInitiatorTelegram] from index [start]. *)
Fixpoint sendSymbols (symbols : list byte) (isFirst : bool) : M W (result error unit) :=
  match symbols with
  | [] => ok tt
  | b :: symbols' => let? _ := sendSymbolWithEcho b true isFirst in sendSymbols symbols' false
  end.

Definition sendInitiatorTelegram (telegram : list byte) (includeSource : bool) : M W (result error unit) :=
  sendSymbols (drop (if includeSource then 0 else 1) telegram) true.

(** ** The transaction *)

Definition telegram_body (f : Frame) : list byte :=
  [fSource f; fTarget f; fPrimary f; fSecondary f; b8 (len (fData f))] ++ fData f.

Definition telegram_of (f : Frame) : list byte := telegram_body f ++ [CRC (telegram_body f)].

(** SRC is part of the telegram unless arbitration has sent it. *)
Definition includeSource : M W bool :=
  match tr_StartArbitration with
  | None => ret true
  | Some _ =>
      match tr_ArbitrationSendsSource with
      | None => ret false
      | Some sends => gets (fun s => negb (sends s.2))
      end
  end.

Definition response_frame (f : Frame) (data : list byte) : Frame :=
  mkFrame (fTarget f) (fSource f) (fPrimary f) (fSecondary f) data FrameTypeUnknown.

Section transaction.
Context (frame : Frame) (attempt startedAt : Z).

Let frameType : FrameType := Frame_Type frame.

Definition transaction_event (kind : BusEventKind) (outcome : BusOutcomeClass) (b : byte)
    (response : option Frame) : BusEvent :=
  mkEvent kind frameType outcome BusRetryReasonUnknown x00 b false false attempt 0 0 0
    (Some frame) response.

(** [b.emitOutcomeEvent(frame, frameType, attempt, err); return nil, err]. *)
Definition failTransaction {A} (err : error) : M W (result error A) :=
  emitOutcomeEvent frame frameType attempt err ;; fail err.

Definition unexpected_ack (ack : byte) : error :=
  wrapped ("unexpected symbol 0x" +:+ fmt_02x ack +:+ " while waiting for command ack") STimeout.

(** The command phase; [left] attempts remain, two at first. [Ok None]: a
    broadcast is complete; [Ok (Some d)]: acknowledged, [d] the decoder's
    escape flag. *)
Fixpoint commandLoop (left : nat) (withSource decoder : bool)
    : M W (result error (option bool)) :=
  match left with
  | O => fail errCommandAckLoopExhausted
  | S left' =>
      let? _ := sendInitiatorTelegram (telegram_of frame) withSource in
      if decide (frameType = FrameTypeBroadcast) then
        let? _ := sendEndOfMessage in
        emitAttemptComplete frame None frameType attempt startedAt ;; ok None
      else
        let! r := readSymbol decoder in
        match r with
        | (_, Err err) => failTransaction err
        | (decoder, Ok ack) =>
            if ack =b SymbolAck then
              emitObserverEvent (transaction_event BusEventACK BusOutcomeSuccess SymbolAck None) ;;
              ok (Some decoder)
            else if ack =b SymbolNack then
              emitObserverEvent (transaction_event BusEventNACK BusOutcomeNACK SymbolNack None) ;;
              if (left =? 2)%nat then commandLoop left' true decoder
              else
                let! _ := sendEndOfMessage in
                failTransaction (wrapped "nack received" SNACK)
            else if (ack =b SymbolSyn) && negb unescapedTransport then
              failTransaction (wrapped "syn while waiting for command ack" STimeout)
            else failTransaction (unexpected_ack ack)
        end
  end.

(** A response symbol; an idle SYN on a plain transport is a timeout. *)
Definition responseSymbol (decoder : bool) (phase : string) : M W (result error (bool * byte)) :=
  let! r := readSymbol decoder in
  match r with
  | (_, Err err) => failTransaction err
  | (decoder, Ok value) =>
      if negb unescapedTransport && (value =b SymbolSyn)
      then failTransaction (wrapped ("syn while " +:+ phase) STimeout)
      else ok (decoder, value)
  end.

Fixpoint responseData (n : nat) (decoder : bool) : M W (result error (bool * list byte)) :=
  match n with
  | O => ok (decoder, [])
  | S n' =>
      let? (decoder, value) := responseSymbol decoder "reading response data" in
      let? (decoder, data) := responseData n' decoder in
      ok (decoder, value :: data)
  end.

(** The response phase; [left] attempts remain, two at first. *)
Fixpoint responseLoop (left : nat) (decoder : bool) : M W (result error Frame) :=
  match left with
  | O => failTransaction (wrapped "unreachable response loop" STimeout)
  | S left' =>
      let? (decoder, lengthSym) := responseSymbol decoder "waiting for response length" in
      let? (decoder, data) := responseData (Z.to_nat (u8 lengthSym)) decoder in
      let? (decoder, crcValue) := responseSymbol decoder "waiting for response crc" in
      let response := response_frame frame data in
      if negb (CRC (lengthSym :: data) =b crcValue) then
        let? _ := sendSymbolWithEcho SymbolNack true false in
        emitObserverEvent (transaction_event BusEventNACK BusOutcomeCRCMismatch SymbolNack (Some response)) ;;
        if (left =? 2)%nat then
          emitObserverEvent (transaction_event BusEventCRCMismatch BusOutcomeCRCMismatch x00 (Some response)) ;;
          responseLoop left' decoder
        else
          let! _ := sendEndOfMessage in
          failTransaction (wrapped "crc mismatch" SCRCMismatch)
      else
        let? _ := sendSymbolWithEcho SymbolAck true false in
        emitObserverEvent (transaction_event BusEventACK BusOutcomeSuccess SymbolAck (Some response)) ;;
        let? _ := sendEndOfMessage in
        emitAttemptComplete frame (Some response) frameType attempt startedAt ;;
        ok response
  end.
End transaction.

Definition sendTransaction (frame : Frame) (attempt : Z) : M W (result error (option Frame)) :=
  let frameType := Frame_Type frame in
  if decide (frameType = FrameTypeUnknown) then fail errUnknownFrameType
  else if 255 <? len (fData frame) then
    fail (EWrap ("frame data length " +:+ fmt_d (len (fData frame)) +:+ " exceeds eBUS maximum 255: ")
            (ESentinel SInvalidPayload) "")
  else
    let! startedAt := gets (fun s => time_now s.2) in
    let! withSource := includeSource in
    let? r := commandLoop frame attempt startedAt 2 withSource false in
    match r with
    | None => ok None
    | Some decoder =>
        if decide (frameType = FrameTypeInitiatorInitiator) then
          let? _ := sendEndOfMessage in
          emitAttemptComplete frame None frameType attempt startedAt ;; ok None
        else if negb (bool_decide (frameType = FrameTypeInitiatorTarget)) then fail errUnknownFrameType
        else
          let? response := responseLoop frame attempt startedAt 2 decoder in
          ok (Some response)
    end.
End bus.
