(* ===== verification/BusScript.v ===== *)
(** A scripted environment for the bus: the results of reads, writes,
    arbitrations, waits and reconnects are taken from lists, and what the bus
    writes and reports is recorded. A bus method sees its environment only
    through such results, so a claim for every script is a claim for every
    transport. *)

From S2P Require Import Prelude Errors Wire Address.
From S2P Require Import BusEnv.
From S2P Require Import Bus.

#[local] Open Scope list_scope.

Record script := mkScript {
  sc_reads : list (result error (byte * bool));
  sc_writes : list (Z * option error);
  sc_arbitrations : list (option error);
  sc_wakes : list wake;
  sc_reconnects : list (option error);
  sc_observations : list observer_result;
  sc_written : list byte;
  sc_events : list BusEvent;
  sc_time : Z
}.

(** Which optional interfaces the transport has. *)
Record kind := mkKind {
  k_flagged : bool;
  k_arbitration : bool;
  k_sends_source : option bool;
  k_reconnect : bool;
  k_observed : bool
}.

(** The next result of a list, or a default when it is used up. *)
Definition next {A} (default : A) (l : list A) : A * list A :=
  match l with [] => (default, []) | x :: l' => (x, l') end.

Section env.
Context (k : kind).

Definition sc_read (s : script) : script * result error (byte * bool) :=
  let '(r, rest) := next (Err (ESentinel STimeout)) (sc_reads s) in
  (mkScript rest (sc_writes s) (sc_arbitrations s) (sc_wakes s) (sc_reconnects s) (sc_observations s)
     (sc_written s) (sc_events s) (sc_time s), r).

Definition sc_write (bs : list byte) (s : script) : script * (Z * option error) :=
  let '(r, rest) := next (len bs, None) (sc_writes s) in
  (mkScript (sc_reads s) rest (sc_arbitrations s) (sc_wakes s) (sc_reconnects s) (sc_observations s)
     (match r.2 with None => sc_written s ++ bs | Some _ => sc_written s end) (sc_events s) (sc_time s), r).

Definition sc_observe (ev : BusEvent) (s : script) : script * observer_result :=
  let '(r, rest) := next ObserverOk (sc_observations s) in
  (mkScript (sc_reads s) (sc_writes s) (sc_arbitrations s) (sc_wakes s) (sc_reconnects s) rest
     (sc_written s) (sc_events s ++ [ev]) (sc_time s), r).

Definition sc_arbitrate (initiator : byte) (s : script) : script * option error :=
  let '(r, rest) := next None (sc_arbitrations s) in
  (mkScript (sc_reads s) (sc_writes s) rest (sc_wakes s) (sc_reconnects s) (sc_observations s)
     (sc_written s) (sc_events s) (sc_time s), r).

Definition sc_do_reconnect (s : script) : script * option error :=
  let '(r, rest) := next None (sc_reconnects s) in
  (mkScript (sc_reads s) (sc_writes s) (sc_arbitrations s) (sc_wakes s) rest (sc_observations s)
     (sc_written s) (sc_events s) (sc_time s), r).

Definition sc_wait (d : Z) (s : script) : script * wake :=
  let '(r, rest) := next WakeTimer (sc_wakes s) in
  (mkScript (sc_reads s) (sc_writes s) (sc_arbitrations s) rest (sc_reconnects s) (sc_observations s)
     (sc_written s) (sc_events s) (sc_time s + d), r).

Definition sc_read_byte (s : script) : script * result error byte :=
  let '(s', r) := sc_read s in (s', match r with Ok v => Ok v.1 | Err e => Err e end).

Definition script_env : BusEnv script := {|
  tr_ReadByte := sc_read_byte;
  tr_Write := sc_write;
  tr_ReadByteWithEscape := if k_flagged k then Some sc_read else None;
  tr_SignalStructuralSyn := None;
  tr_StartArbitration := if k_arbitration k then Some sc_arbitrate else None;
  tr_ArbitrationSendsSource := match k_sends_source k with Some b => Some (fun _ => b) | None => None end;
  tr_Reconnect := if k_reconnect k then Some sc_do_reconnect else None;
  tr_CollisionLifecycle := None;
  on_bus_event := if k_observed k then Some sc_observe else None;
  time_now := sc_time;
  select_wait := fun _ _ d s => sc_wait d s
|}.
End env.

(** ** Behaviour on a script *)

(** [behaves m Q]: from any state, [m] consumes some reads [r], writes some
    bytes [o] and returns some [a] with [Q r o a]. *)
Definition behaves {A} (m : M script A) (Q : list (result error (byte * bool)) -> list byte -> A -> Prop) : Prop :=
  forall s s' a, m s = (s', a) ->
  exists r o, sc_reads s.2 = r ++ sc_reads s'.2 /\ sc_written s'.2 = sc_written s.2 ++ o /\ Q r o a.

(** [exec m r o a]: with writes succeeding, when the reads to come start with
    [r], [m] consumes exactly [r], writes exactly [o] and returns [a]. *)
Definition exec {A} (m : M script A) (r : list (result error (byte * bool))) (o : list byte) (a : A) : Prop :=
  forall s rest, sc_reads s.2 = r ++ rest -> sc_writes s.2 = [] ->
  exists s', m s = (s', a) /\ sc_reads s'.2 = rest /\ sc_writes s'.2 = [] /\
    sc_written s'.2 = sc_written s.2 ++ o.

Lemma exec_ret {A} (a : A) : exec (ret a) [] [] a.
Proof. intros s rest Hr Hw. exists s. splits; try done. by rewrite app_nil_r. Qed.

Lemma exec_bind {A B} (m : M script A) (f : A -> M script B) r1 o1 a r2 o2 b :
  exec m r1 o1 a -> exec (f a) r2 o2 b -> exec (bind m f) (r1 ++ r2) (o1 ++ o2) b.
Proof.
  intros Hm Hf s rest Hr Hw. rewrite <- app_assoc in Hr.
  destruct (Hm s _ Hr Hw) as (s1 & E1 & R1 & W1 & O1).
  destruct (Hf s1 _ R1 W1) as (s2 & E2 & R2 & W2 & O2).
  exists s2. unfold bind. rewrite E1. splits; try done. by rewrite O2, O1, app_assoc.
Qed.

Lemma exec_try {A B} (m : M script (result error A)) (f : A -> M script (result error B)) r1 o1 a r2 o2 b :
  exec m r1 o1 (Ok a) -> exec (f a) r2 o2 b -> exec (try_bind m f) (r1 ++ r2) (o1 ++ o2) b.
Proof. intros Hm Hf. by apply (exec_bind m _ r1 o1 (Ok a)). Qed.

(** The same rules with the concatenations left to prove. *)
Lemma exec_seq {A B} (m : M script A) (f : A -> M script B) r1 o1 a r2 o2 b r o :
  exec m r1 o1 a -> exec (f a) r2 o2 b -> r = r1 ++ r2 -> o = o1 ++ o2 -> exec (bind m f) r o b.
Proof. intros Hm Hf -> ->. by apply (exec_bind m f r1 o1 a). Qed.

Lemma exec_then {A B} (m : M script (result error A)) (f : A -> M script (result error B)) r1 o1 a r2 o2 b r o :
  exec m r1 o1 (Ok a) -> exec (f a) r2 o2 b -> r = r1 ++ r2 -> o = o1 ++ o2 -> exec (try_bind m f) r o b.
Proof. intros Hm Hf -> ->. by apply (exec_try m f r1 o1 a). Qed.

Lemma exec_try_err {A B} (m : M script (result error A)) (f : A -> M script (result error B)) r o e :
  exec m r o (Err e) -> exec (try_bind m f) r o (Err e).
Proof.
  intros Hm. rewrite <- (app_nil_r r), <- (app_nil_r o).
  apply (exec_bind m _ r o (Err e)); [done|apply exec_ret].
Qed.

Lemma behaves_ret {A} (a : A) (Q : _ -> _ -> A -> Prop) : Q [] [] a -> behaves (ret a) Q.
Proof. intros HQ s s' b [= <- <-]. exists [], []. by rewrite app_nil_r. Qed.

Lemma behaves_bind {A B} (m : M script A) (f : A -> M script B) Q1 (Q2 : A -> _ -> _ -> B -> Prop) (Q : _ -> _ -> B -> Prop) :
  behaves m Q1 -> (forall a, behaves (f a) (Q2 a)) ->
  (forall a b r1 r2 o1 o2, Q1 r1 o1 a -> Q2 a r2 o2 b -> Q (r1 ++ r2) (o1 ++ o2) b) ->
  behaves (bind m f) Q.
Proof.
  intros Hm Hf HQ s s' b. unfold bind. destruct (m s) as [s1 a] eqn:E. intros E2.
  destruct (Hm _ _ _ E) as (r1 & o1 & R1 & O1 & Q1').
  destruct (Hf a _ _ _ E2) as (r2 & o2 & R2 & O2 & Q2').
  exists (r1 ++ r2), (o1 ++ o2). splits; [by rewrite R1, R2, app_assoc|by rewrite O2, O1, app_assoc|eauto].
Qed.

(** The same when the continuation needs to know where its input comes from. *)
Lemma behaves_bind_dep {A B} (m : M script A) (f : A -> M script B) Q1 (Q2 : A -> _ -> _ -> B -> Prop) (Q : _ -> _ -> B -> Prop) :
  behaves m Q1 -> (forall a r o, Q1 r o a -> behaves (f a) (Q2 a)) ->
  (forall a b r1 r2 o1 o2, Q1 r1 o1 a -> Q2 a r2 o2 b -> Q (r1 ++ r2) (o1 ++ o2) b) ->
  behaves (bind m f) Q.
Proof.
  intros Hm Hf HQ s s' b. unfold bind. destruct (m s) as [s1 a] eqn:E. intros E2.
  destruct (Hm _ _ _ E) as (r1 & o1 & R1 & O1 & Q1').
  destruct (Hf a _ _ Q1' _ _ _ E2) as (r2 & o2 & R2 & O2 & Q2').
  exists (r1 ++ r2), (o1 ++ o2). splits; [by rewrite R1, R2, app_assoc|by rewrite O2, O1, app_assoc|eauto].
Qed.

Lemma behaves_weaken {A} (m : M script A) (Q Q' : _ -> _ -> A -> Prop) :
  behaves m Q -> (forall r o a, Q r o a -> Q' r o a) -> behaves m Q'.
Proof. intros Hm HQ s s' a E. destruct (Hm _ _ _ E) as (r & o & ? & ? & ?). exists r, o. auto. Qed.

(** [succeeds m Q]: [behaves], about the runs that return no error. *)
Definition succeeds {A} (m : M script (result error A))
    (Q : list (result error (byte * bool)) -> list byte -> A -> Prop) : Prop :=
  behaves m (fun r o a => match a with Ok x => Q r o x | Err _ => True end).

Lemma succeeds_ok {A} (a : A) (Q : _ -> _ -> A -> Prop) : Q [] [] a -> succeeds (ok a) Q.
Proof. intros HQ. by apply (behaves_ret (Ok a)). Qed.

Lemma succeeds_fail {A} e (Q : _ -> _ -> A -> Prop) : succeeds (fail e) Q.
Proof. by apply behaves_ret. Qed.

Lemma succeeds_match {A B} (m : M script (result error A)) (f : result error A -> M script (result error B))
    Q1 (Q2 : A -> _ -> _ -> B -> Prop) (Q : _ -> _ -> B -> Prop) :
  succeeds m Q1 -> (forall a, succeeds (f (Ok a)) (Q2 a)) ->
  (forall e, succeeds (f (Err e)) (fun _ _ _ => False)) ->
  (forall a b r1 r2 o1 o2, Q1 r1 o1 a -> Q2 a r2 o2 b -> Q (r1 ++ r2) (o1 ++ o2) b) ->
  succeeds (bind m f) Q.
Proof.
  intros Hm Hf He HQ. eapply (behaves_bind _ _ _ (fun r r' o b =>
    match r with Ok a => match b with Ok x => Q2 a r' o x | Err _ => True end
    | Err _ => match b with Ok _ => False | Err _ => True end end)); [exact Hm| |].
  - intros [a|e]; [apply Hf|apply He].
  - intros [a|e] [b|e'] r1 r2 o1 o2 H1 H2; try done. by eapply HQ.
Qed.

Lemma succeeds_try {A B} (m : M script (result error A)) (f : A -> M script (result error B))
    Q1 (Q2 : A -> _ -> _ -> B -> Prop) (Q : _ -> _ -> B -> Prop) :
  succeeds m Q1 -> (forall a, succeeds (f a) (Q2 a)) ->
  (forall a b r1 r2 o1 o2, Q1 r1 o1 a -> Q2 a r2 o2 b -> Q (r1 ++ r2) (o1 ++ o2) b) ->
  succeeds (try_bind m f) Q.
Proof.
  intros Hm Hf HQ. eapply (succeeds_match _ _ Q1 Q2); [exact Hm|exact Hf| |exact HQ].
  intros e. apply succeeds_fail.
Qed.

Lemma succeeds_try_dep {A B} (m : M script (result error A)) (f : A -> M script (result error B))
    Q1 (Q2 : A -> _ -> _ -> B -> Prop) (Q : _ -> _ -> B -> Prop) :
  succeeds m Q1 -> (forall a r o, Q1 r o a -> succeeds (f a) (Q2 a)) ->
  (forall a b r1 r2 o1 o2, Q1 r1 o1 a -> Q2 a r2 o2 b -> Q (r1 ++ r2) (o1 ++ o2) b) ->
  succeeds (try_bind m f) Q.
Proof.
  intros Hm Hf HQ. eapply (behaves_bind_dep _ _ _ (fun r r' o b =>
    match r with Ok a => match b with Ok x => Q2 a r' o x | Err _ => True end
    | Err _ => match b with Ok _ => False | Err _ => True end end)); [exact Hm| |].
  - intros [a|e] r o; [apply Hf|]. intros _. by apply behaves_ret.
  - intros [a|e] [b|e'] r1 r2 o1 o2 H1 H2; try done. by eapply HQ.
Qed.

Lemma succeeds_weaken {A} (m : M script (result error A)) (Q Q' : _ -> _ -> A -> Prop) :
  succeeds m Q -> (forall r o a, Q r o a -> Q' r o a) -> succeeds m Q'.
Proof. intros Hm HQ. eapply behaves_weaken; [exact Hm|]. intros r o [a|e]; [apply HQ|done]. Qed.

(** A method that neither reads nor writes: it only reports and counts. *)
Definition silent {A} (m : M script A) : Prop :=
  forall s, sc_reads (m s).1.2 = sc_reads s.2 /\ sc_writes (m s).1.2 = sc_writes s.2 /\
            sc_written (m s).1.2 = sc_written s.2.

Lemma silent_ret {A} (a : A) : silent (ret a).
Proof. done. Qed.

Lemma silent_bind {A B} (m : M script A) (f : A -> M script B) :
  silent m -> (forall a, silent (f a)) -> silent (bind m f).
Proof.
  intros Hm Hf s. unfold bind. destruct (Hm s) as (R & Wr & O). destruct (m s) as [s1 a]. simpl in *.
  destruct (Hf a s1) as (R' & Wr' & O'). splits; congruence.
Qed.

Lemma silent_modify f : silent (modify f).
Proof. done. Qed.

Lemma silent_gets {A} (f : BusState * script -> A) : silent (gets f).
Proof. done. Qed.

Lemma exec_silent {A B} (m : M script A) (f : A -> M script B) r o b :
  silent m -> (forall a, exec (f a) r o b) -> exec (bind m f) r o b.
Proof.
  intros Hm Hf s rest Hr Hw. destruct (Hm s) as (R & Wr & O). unfold bind.
  destruct (m s) as [s1 a]. simpl in *.
  destruct (Hf a s1 rest) as (s2 & E2 & R2 & W2 & O2); [congruence|congruence|].
  exists s2. splits; try done. by rewrite O2, O.
Qed.

Lemma exec_silent_last {A} (m : M script A) r o (b : A) :
  silent m -> (forall s, (m s).2 = b) -> r = [] -> o = [] -> exec m r o b.
Proof.
  intros Hm Hb -> -> s rest Hr Hw. destruct (Hm s) as (R & Wr & O). specialize (Hb s).
  destruct (m s) as [s1 a]. simpl in *. exists s1. splits; [by rewrite Hb|congruence|congruence|].
  by rewrite O, app_nil_r.
Qed.

Lemma behaves_silent {A B} (m : M script A) (f : A -> M script B) (Q : _ -> _ -> B -> Prop) :
  silent m -> (forall a, behaves (f a) Q) -> behaves (bind m f) Q.
Proof.
  intros Hm Hf s s' b. unfold bind. destruct (Hm s) as (R & Wr & O). destruct (m s) as [s1 a]. simpl in *.
  intros E. destruct (Hf a _ _ _ E) as (r & o & R2 & O2 & HQ). exists r, o. splits; [congruence..|done].
Qed.

Lemma silent_behaves {A} (m : M script A) : silent m -> behaves m (fun r o _ => r = [] /\ o = []).
Proof.
  intros Hm s s' a E. destruct (Hm s) as (R & Wr & O). rewrite E in *. simpl in *.
  exists [], []. rewrite app_nil_r. done.
Qed.

Section events.
Context (k : kind).
#[local] Instance env : BusEnv script := script_env k.

Lemma silent_call ev : silent (callObserver sc_observe ev).
Proof.
  apply silent_bind; [|intros; apply silent_ret]. intros s. unfold lift, sc_observe.
  by destruct (next _ _).
Qed.

Lemma silent_emit ev : silent (emitObserverEvent ev).
Proof.
  unfold emitObserverEvent. simpl. destruct (k_observed k); [|apply silent_ret].
  apply silent_bind; [apply silent_call|]. intros [[e|] p]; simpl; [|apply silent_ret].
  apply silent_bind; [apply silent_modify|]. intros _. case_decide; [apply silent_ret|].
  apply silent_bind; [apply silent_call|intros; apply silent_ret].
Qed.

Lemma silent_outcome f t a e : silent (emitOutcomeEvent f t a e).
Proof.
  unfold emitOutcomeEvent. case_match; [apply silent_ret|].
  case_match; [apply silent_emit|apply silent_ret].
Qed.

Lemma silent_attempt f r t a s : silent (emitAttemptComplete f r t a s).
Proof. apply silent_bind; [apply silent_gets|intros; apply silent_emit]. Qed.
End events.

Create HintDb silent.
#[export] Hint Resolve silent_ret silent_modify silent_gets silent_emit silent_outcome silent_attempt : silent.
