(* ===== verification/BusTrace.v ===== *)
(** When a bus transaction succeeds: the exchange of bytes with the transport,
    described without the bus's code, and the proof that [sendTransaction]
    succeeds on a script exactly when the script is such an exchange. *)

From S2P Require Import Prelude Errors Wire Address.
From S2P Require Import BusEnv Bus BusScript.

#[local] Open Scope list_scope.

Definition read : Type := result error (byte * bool).

(** ** The exchange *)

Section spec.
(** Whether the transport unescapes, and whether it reports provenance. *)
Context (unescaped flagged : bool).

(** The bytes a symbol is on this transport. *)
Definition wire (b : byte) : list byte := if unescaped then [b] else escape_symbol b.

(** The reads that carry the bytes [bs], with any provenance. *)
Definition carried (bs : list byte) (r : list read) : Prop :=
  exists l : list (byte * bool), r = Ok <$> l /\ l.*1 = bs.

(** The echo of a telegram symbol. With provenance, a symbol 0xAA must come
    back as an escaped byte, and up to three AUTO-SYNs may come before it. *)
Definition echo_of (b : byte) (r : list read) : Prop :=
  if unescaped && flagged then
    exists n e, r = repeat (Ok (SymbolSyn, false)) n ++ [Ok (b, e)] /\
      (n <= 3)%nat /\ (b = SymbolSyn -> e = true) /\ ((0 < n)%nat -> b = SymbolSyn)
  else carried (wire b) r.

(** The echo of the SYN that ends a message is a SYN of the wire. *)
Definition end_echo (r : list read) : Prop :=
  exists e, r = [Ok (SymbolSyn, e)] /\ (unescaped && flagged = true -> e = false).

Inductive sends : list byte -> list read -> list byte -> Prop :=
| sends_nil : sends [] [] []
| sends_cons b bs r1 r2 o2 :
    echo_of b r1 -> sends bs r2 o2 -> sends (b :: bs) (r1 ++ r2) (wire b ++ o2).

Context (frame : Frame).

(** The command: acknowledged, or refused once and then acknowledged; the
    repetition always carries the source. [left] sends remain. *)
Inductive command_trace : nat -> bool -> list read -> list byte -> Prop :=
| command_ack left ws r1 r2 o1 :
    sends (drop (if ws : bool then 0 else 1) (telegram_of frame)) r1 o1 ->
    carried (wire SymbolAck) r2 -> command_trace (S left) ws (r1 ++ r2) o1
| command_nack ws r1 r2 r3 o1 o3 :
    sends (drop (if ws : bool then 0 else 1) (telegram_of frame)) r1 o1 ->
    carried (wire SymbolNack) r2 -> command_trace 1 true r3 o3 ->
    command_trace 2 ws (r1 ++ r2 ++ r3) (o1 ++ o3).

(** A response symbol; on a plain transport a SYN is not one. *)
Definition response_symbol (b : byte) (r : list read) : Prop :=
  carried (wire b) r /\ (unescaped = false -> b <> SymbolSyn).

Inductive response_symbols : list byte -> list read -> Prop :=
| response_nil : response_symbols [] []
| response_cons b bs r1 r2 :
    response_symbol b r1 -> response_symbols bs r2 -> response_symbols (b :: bs) (r1 ++ r2).

(** The response: accepted, or once rejected for its CRC and then accepted. *)
Inductive response_trace : nat -> list byte -> list read -> list byte -> Prop :=
| response_good left data n r1 r2 r3 :
    u8 n = len data ->
    response_symbols (n :: data ++ [CRC (n :: data)]) r1 ->
    echo_of SymbolAck r2 -> end_echo r3 ->
    response_trace (S left) data (r1 ++ r2 ++ r3) [SymbolAck; SymbolSyn]
| response_bad data data' n crc r1 r2 r3 o3 :
    u8 n = len data' -> crc <> CRC (n :: data') ->
    response_symbols (n :: data' ++ [crc]) r1 ->
    echo_of SymbolNack r2 -> response_trace 1 data r3 o3 ->
    response_trace 2 data (r1 ++ r2 ++ r3) (SymbolNack :: o3).

(** A successful transaction and what it returns. *)
Inductive transaction_trace (ws : bool) : option Frame -> list read -> list byte -> Prop :=
| trace_broadcast r1 r2 o1 :
    Frame_Type frame = FrameTypeBroadcast ->
    sends (drop (if ws then 0 else 1) (telegram_of frame)) r1 o1 -> end_echo r2 ->
    transaction_trace ws None (r1 ++ r2) (o1 ++ [SymbolSyn])
| trace_initiator r1 r2 o1 :
    Frame_Type frame = FrameTypeInitiatorInitiator ->
    command_trace 2 ws r1 o1 -> end_echo r2 ->
    transaction_trace ws None (r1 ++ r2) (o1 ++ [SymbolSyn])
| trace_target data r1 r2 o1 o2 :
    Frame_Type frame = FrameTypeInitiatorTarget ->
    command_trace 2 ws r1 o1 -> response_trace 2 data r2 o2 ->
    transaction_trace ws (Some (response_frame frame data)) (r1 ++ r2) (o1 ++ o2).
End spec.

(** ** The code on such an exchange *)

Section exec.
Context (k : kind) (unescaped : bool) (run req : context script).
Context (run_alive : forall w, ctx_Err run w = None) (req_alive : forall w, ctx_Err req w = None).
#[local] Instance env : BusEnv script := script_env k.

Lemma exec_checkContext {B} (f : unit -> M script (result error B)) r o b :
  exec (f tt) r o b -> exec (try_bind (checkContext run req) f) r o b.
Proof.
  intros Hf s rest Hr Hw. unfold try_bind, checkContext, contextError, bind, gets.
  rewrite run_alive, req_alive. by apply Hf.
Qed.

Lemma exec_readByte v e : exec (readByte run req) [Ok (v, e)] [] (Ok v).
Proof.
  apply exec_checkContext. rewrite <- (app_nil_r [Ok (v, e)]), <- (app_nil_r []).
  apply (exec_try _ _ _ [] v).
  - intros s rest Hr Hw. unfold lift. simpl. unfold sc_read_byte, sc_read. rewrite Hr. simpl.
    eexists. splits; try done. by rewrite app_nil_r.
  - apply exec_silent; [apply silent_emit|intros; apply exec_ret].
Qed.

Lemma exec_readByteWithEscape v e :
  exec (readByteWithEscape run req sc_read) [Ok (v, e)] [] (Ok (v, e)).
Proof.
  apply exec_checkContext. rewrite <- (app_nil_r [Ok (v, e)]), <- (app_nil_r []).
  apply (exec_try _ _ _ [] (v, e)).
  - intros s rest Hr Hw. unfold lift. simpl. unfold sc_read. rewrite Hr. simpl.
    eexists. splits; try done. by rewrite app_nil_r.
  - apply exec_silent; [apply silent_emit|intros; apply exec_ret].
Qed.

Lemma exec_readEcho v e :
  exec (readEcho unescaped run req) [Ok (v, e)] [] (Ok (v, e && (unescaped && k_flagged k))).
Proof.
  assert (exec (let? echo := readByte run req in ok (echo, false)) [Ok (v, e)] [] (Ok (v, false))) as Hplain.
  { apply (exec_then _ _ [Ok (v, e)] [] v [] []); [apply exec_readByte|apply exec_ret|done|done]. }
  unfold readEcho. simpl. destruct (k_flagged k), unescaped; simpl; rewrite ?andb_true_r, ?andb_false_r;
    try exact Hplain. apply exec_readByteWithEscape.
Qed.

(** Writing a byte and judging its echo. *)
Lemma exec_sendRaw raw structural first v e r a :
  exec (checkEcho unescaped run req raw structural first (v, e && (unescaped && k_flagged k))) r [] a ->
  exec (sendRawWithEcho unescaped run req raw structural first) (Ok (v, e) :: r) [raw] a.
Proof.
  intros Hc. unfold sendRawWithEcho. simpl. apply exec_silent; [apply silent_ret|]. intros _.
  eapply (exec_seq _ _ [] [raw] (1, None)); [| |done|by rewrite app_nil_r].
  { intros s rest Hr Hw. unfold lift, sc_write. simpl. rewrite Hw. simpl. eexists.
    splits; try done. }
  simpl. apply exec_silent; [apply silent_emit|intros _].
  apply exec_silent; [apply silent_modify|intros _].
  apply (exec_seq _ _ (Ok (v, e) :: r) [] a [] []); [| |by rewrite app_nil_r|done].
  - eapply (exec_seq _ _ [Ok (v, e)] [] _ r []); [apply exec_readEcho|exact Hc|done|done].
  - apply exec_silent; [apply silent_modify|intros; apply exec_ret].
Qed.

(** Without provenance any echo equal to the byte is accepted. *)
Lemma exec_raw_bare raw structural first e :
  unescaped && k_flagged k = false -> (structural = true \/ raw <> SymbolSyn \/ k_flagged k = false) ->
  exec (sendRawWithEcho unescaped run req raw structural first) [Ok (raw, e)] [raw] (Ok tt).
Proof.
  intros HP Hraw. apply exec_sendRaw. rewrite HP, andb_false_r. unfold checkEcho, compareEcho.
  cbn [fst snd]. rewrite byte_eqb_refl.
  destruct (byte_eqb_spec raw SymbolSyn) as [->|Hne]; cbn [andb negb]; rewrite ?andb_false_r, ?andb_true_r;
    simpl; destruct (k_flagged k); rewrite ?andb_false_r; simpl; try apply exec_ret.
  destruct structural; simpl; [apply exec_ret|]. naive_solver.
Qed.

Lemma exec_absorb_found first left n :
  (n < left)%nat ->
  exec (absorb run req sc_read first left)
    (repeat (Ok (SymbolSyn, false)) n ++ [Ok (SymbolSyn, true)]) [] (Ok None).
Proof.
  revert left. induction n as [|n IH]; intros left Hn; (destruct left as [|left]; [lia|]); simpl.
  - eapply exec_seq; [apply exec_readByteWithEscape| |by rewrite app_nil_r|done]. cbn.
    apply exec_silent; [apply silent_modify|intros _].
    apply exec_silent; [apply silent_modify|intros _]. apply exec_ret.
  - eapply (exec_seq _ _ [Ok (SymbolSyn, false)]); [apply exec_readByteWithEscape| |done|done]. cbn.
    apply exec_silent; [apply silent_modify|intros _]. apply IH. lia.
Qed.

(** The round-9 site: a wire SYN where the echo of a payload 0xAA belongs. *)
Lemma checkEcho_payload_syn first :
  k_flagged k = true ->
  checkEcho true run req SymbolSyn false first (SymbolSyn, false) =
  (let! waiting := gets (fun s => inSendRawWithEchoActiveEchoWait s.1) in
   (if waiting then modify count_entered else ret tt) ;;
   let? r := absorb run req sc_read (SymbolSyn, false) maxPayloadAaAutoSynDrains in
   match r with None => ok tt | Some echo' => compareEcho SymbolSyn first echo' end).
Proof. intros HF. unfold checkEcho. simpl tr_ReadByteWithEscape. by rewrite HF. Qed.

(** With provenance: the genuine echo, after AUTO-SYNs when it is a payload. *)
Lemma exec_raw_flagged raw structural first n e :
  unescaped && k_flagged k = true -> (n <= 3)%nat ->
  (raw = SymbolSyn -> e = negb structural) -> ((0 < n)%nat -> raw = SymbolSyn /\ structural = false) ->
  exec (sendRawWithEcho unescaped run req raw structural first)
    (repeat (Ok (SymbolSyn, false)) n ++ [Ok (raw, e)]) [raw] (Ok tt).
Proof.
  intros HP Hn He Hpre. apply andb_true_iff in HP as [HU HF].
  destruct n as [|n].
  - apply exec_sendRaw. rewrite HU, HF, andb_true_r. unfold checkEcho, compareEcho. cbn [fst snd negb andb].
    simpl. rewrite HF, byte_eqb_refl.
    destruct (byte_eqb_spec raw SymbolSyn) as [->|Hne]; cbn [andb negb]; rewrite ?andb_false_r, ?andb_true_r;
      [|apply exec_ret].
    rewrite (He eq_refl). destruct structural; simpl; apply exec_ret.
  - destruct (Hpre ltac:(lia)) as [-> ->]. rewrite (He eq_refl).
    change (repeat ?x (S n) ++ ?l) with (x :: (repeat x n ++ l)).
    apply exec_sendRaw. rewrite HU, HF. cbn [andb]. rewrite (checkEcho_payload_syn first HF).
    apply exec_silent; [apply silent_gets|intros w].
    apply exec_silent; [destruct w; auto with silent|intros _].
    eapply exec_then; [apply (exec_absorb_found _ _ n); unfold maxPayloadAaAutoSynDrains; lia|apply exec_ret| |done].
    by rewrite app_nil_r.
Qed.

Lemma exec_symbol b first r :
  echo_of unescaped (k_flagged k) b r ->
  exec (sendSymbolWithEcho unescaped run req b true first) r (wire unescaped b) (Ok tt).
Proof.
  unfold echo_of, wire, sendSymbolWithEcho. destruct (unescaped && k_flagged k) eqn:HP.
  - pose proof HP as [HU _]%andb_true_iff. rewrite HU at 1 2. cbn [orb].
    intros (n & e & -> & Hn & He & Hpre). apply exec_raw_flagged; naive_solver.
  - intros (l & -> & Hl). unfold wire in Hl. destruct unescaped eqn:HU; cbn [orb negb].
    + destruct l as [|[v e] [|]]; try done. injection Hl as ->.
      rewrite <- HU. apply exec_raw_bare; [by rewrite HU|]. right. right. by simpl in HP.
    + assert (forall b', b' <> SymbolSyn -> forall e f,
          exec (sendRawWithEcho false run req b' false f) [Ok (b', e)] [b'] (Ok tt)) as Hraw.
      { intros. rewrite <- HU. apply exec_raw_bare; [by rewrite HU|naive_solver]. }
      unfold escape_symbol in *.
      destruct (byte_eqb_spec b SymbolEscape) as [->|Hne1]; [|destruct (byte_eqb_spec b SymbolSyn) as [->|Hne2]];
        cbn [negb andb];
        [destruct l as [|[v e] [|[v2 e2] [|]]]; try done; injection Hl as -> ->;
         eapply exec_then; [by apply Hraw|by apply Hraw|done|done]..|].
      destruct l as [|[v e] [|]]; try done. injection Hl as ->. by apply Hraw.
Qed.

(** The acknowledge symbols are never stuffed. *)
Lemma exec_ack b r :
  b = SymbolAck \/ b = SymbolNack -> echo_of unescaped (k_flagged k) b r ->
  exec (sendSymbolWithEcho unescaped run req b true false) r [b] (Ok tt).
Proof.
  intros Hb Hr. replace [b] with (wire unescaped b); [by apply exec_symbol|].
  unfold wire. destruct unescaped; [done|]. by destruct Hb as [-> | ->].
Qed.

Lemma exec_end r :
  end_echo unescaped (k_flagged k) r -> exec (sendEndOfMessage unescaped run req) r [SymbolSyn] (Ok tt).
Proof.
  intros (e & -> & He). unfold sendEndOfMessage, sendSymbolWithEcho. cbn [negb]. rewrite orb_true_r.
  cbn [orb andb]. destruct (unescaped && k_flagged k) eqn:HP.
  - rewrite (He eq_refl). apply (exec_raw_flagged _ _ _ 0); [done|lia|done|lia].
  - apply exec_raw_bare; [done|by left].
Qed.

Lemma exec_sends bs first r o :
  sends unescaped (k_flagged k) bs r o -> exec (sendSymbols unescaped run req bs first) r o (Ok tt).
Proof.
  intros Hs. revert first. induction Hs as [|b bs r1 r2 o2 Hb _ IH]; intros first; simpl; [apply exec_ret|].
  eapply exec_then; [by apply exec_symbol|apply IH|done|done].
Qed.

Lemma exec_readPair code e e2 :
  unescaped = false ->
  exec (readSymbol unescaped run req false) [Ok (SymbolEscape, e); Ok (code, e2)] []
    (false, if code =b x00 then Ok SymbolEscape else if code =b x01 then Ok SymbolSyn
            else Err (wrapped ("invalid escape sequence 0x" +:+ fmt_02x code) SInvalidPayload)).
Proof.
  intros HU. unfold readSymbol. rewrite HU.
  apply (exec_seq _ _ [Ok (SymbolEscape, e)] [] (Ok SymbolEscape) [Ok (code, e2)] []);
    [apply exec_readByte| |done|done]. cbn.
  apply (exec_seq _ _ [Ok (code, e2)] [] (Ok code) [] []); [apply exec_readByte|apply exec_ret|done|done].
Qed.

(** Reading one symbol off the wire. *)
Lemma exec_readSymbol b r :
  carried (wire unescaped b) r -> exec (readSymbol unescaped run req false) r [] (false, Ok b).
Proof.
  intros (l & -> & Hl). unfold wire, escape_symbol in Hl.
  assert (unescaped = true \/ unescaped = false) as [HU|HU] by (destruct unescaped; auto); rewrite HU in Hl.
  - destruct l as [|[v e] [|]]; try done. injection Hl as ->. unfold readSymbol. rewrite HU.
    apply (exec_seq _ _ [Ok (b, e)] [] (Ok b) [] []); [apply exec_readByte|apply exec_ret|done|done].
  - destruct (byte_eqb_spec b SymbolEscape) as [->|Hne1]; [|destruct (byte_eqb_spec b SymbolSyn) as [->|Hne2]].
    + destruct l as [|[v e] [|[v2 e2] [|]]]; try done. injection Hl as -> ->. by apply (exec_readPair x00).
    + destruct l as [|[v e] [|[v2 e2] [|]]]; try done. injection Hl as -> ->. by apply (exec_readPair x01).
    + destruct l as [|[v e] [|]]; try done. injection Hl as ->. unfold readSymbol. rewrite HU.
      apply (exec_seq _ _ [Ok (b, e)] [] (Ok b) [] []); [apply exec_readByte|cbn|done|done].
      apply byte_eqb_neq in Hne1. rewrite Hne1. apply exec_ret.
Qed.

(** ** Phases *)

Lemma exec_command frame attempt started left ws r o :
  Frame_Type frame <> FrameTypeBroadcast ->
  command_trace unescaped (k_flagged k) frame left ws r o ->
  exec (commandLoop unescaped run req frame attempt started left ws false) r o (Ok (Some false)).
Proof.
  intros Hty Ht. induction Ht as [left ws r1 r2 o1 Hs Hc|ws r1 r2 r3 o1 o3 Hs Hc Ht IH]; cbn [commandLoop].
  - eapply exec_then; [by apply exec_sends| |done|by rewrite app_nil_r].
    rewrite decide_False by done.
    eapply exec_seq; [by apply exec_readSymbol| |by rewrite app_nil_r|done]. cbn.
    apply exec_silent; [apply silent_emit|intros _; apply exec_ret].
  - eapply exec_then; [by apply exec_sends| |done|done].
    rewrite decide_False by done.
    eapply exec_seq; [by apply exec_readSymbol| |done|done]. cbn -[commandLoop].
    apply exec_silent; [apply silent_emit|intros _; apply IH].
Qed.

Lemma exec_responseSymbol frame attempt b phase r :
  response_symbol unescaped b r ->
  exec (responseSymbol unescaped run req frame attempt false phase) r [] (Ok (false, b)).
Proof.
  intros [Hc Hb]. unfold responseSymbol.
  eapply exec_seq; [by apply exec_readSymbol| |by rewrite app_nil_r|done]. cbn.
  destruct unescaped; [apply exec_ret|]. simpl.
  destruct (byte_eqb_spec b SymbolSyn) as [->|]; [by destruct (Hb eq_refl)|apply exec_ret].
Qed.

Lemma exec_responseData frame attempt data r :
  response_symbols unescaped data r ->
  exec (responseData unescaped run req frame attempt (length data) false) r [] (Ok (false, data)).
Proof.
  induction 1 as [|b bs r1 r2 Hb _ IH]; cbn [responseData length]; [apply exec_ret|].
  eapply exec_then; [by apply exec_responseSymbol| |done|done].
  eapply exec_then; [exact IH|apply exec_ret|by rewrite app_nil_r|done].
Qed.

Lemma response_symbols_app bs1 bs2 r :
  response_symbols unescaped (bs1 ++ bs2) r ->
  exists r1 r2, r = r1 ++ r2 /\ response_symbols unescaped bs1 r1 /\ response_symbols unescaped bs2 r2.
Proof.
  revert r. induction bs1 as [|b bs1 IH]; intros r Hr; simpl in *.
  - exists [], r. splits; [done|constructor|done].
  - inv Hr. destruct (IH _ H3) as (r3 & r4 & -> & H4 & H5).
    exists (r1 ++ r3), r4. splits; [by rewrite app_assoc|by constructor|done].
Qed.

(** A whole response segment: length, data, CRC. *)
Lemma exec_segment {B} frame attempt n data crc r1 (f : bool -> byte -> list byte -> byte -> M script (result error B)) r2 o b :
  u8 n = len data -> response_symbols unescaped (n :: data ++ [crc]) r1 ->
  exec (f false n data crc) r2 o b ->
  exec (let? (decoder, lengthSym) := responseSymbol unescaped run req frame attempt false "waiting for response length" in
        let? (decoder, data) := responseData unescaped run req frame attempt (Z.to_nat (u8 lengthSym)) decoder in
        let? (decoder, crcValue) := responseSymbol unescaped run req frame attempt decoder "waiting for response crc" in
        f decoder lengthSym data crcValue) (r1 ++ r2) o b.
Proof.
  intros Hn Hr Hf. inversion Hr as [|? ? ra rb Ha Hb]; subst.
  destruct (response_symbols_app data [crc] _ Hb) as (r4 & r5 & -> & H4 & H5).
  inversion H5 as [|? ? rc rd Hc Hd]; subst. inversion Hd; subst. rewrite app_nil_r, <- !app_assoc.
  apply (exec_then _ _ ra [] (false, n) (r4 ++ rc ++ r2) o); [by apply exec_responseSymbol| |done|done].
  rewrite Hn. unfold len. rewrite Nat2Z.id.
  apply (exec_then _ _ r4 [] (false, data) (rc ++ r2) o); [by apply exec_responseData| |done|done].
  apply (exec_then _ _ rc [] (false, crc) r2 o); [by apply exec_responseSymbol|exact Hf|done|done].
Qed.

Lemma exec_response frame attempt started left data r o :
  response_trace unescaped (k_flagged k) left data r o ->
  exec (responseLoop unescaped run req frame attempt started left false) r o (Ok (response_frame frame data)).
Proof.
  induction 1 as [left data n r1 r2 r3 Hn Hr H2 H3|data data' n crc r1 r2 r3 o3 Hn Hcrc Hr H2 H3 IH];
    cbn [responseLoop].
  - apply (exec_segment frame attempt n data (CRC (n :: data)) r1
      (fun decoder lengthSym data crcValue => _)); [done|done|].
    rewrite byte_eqb_refl. cbn [negb].
    eapply (exec_then _ _ r2 [SymbolAck]); [by apply exec_ack; [left|]| |done|done].
    apply exec_silent; [apply silent_emit|intros _].
    eapply exec_then; [by apply exec_end| |by rewrite app_nil_r|done].
    apply exec_silent; [apply silent_attempt|intros _; apply exec_ret].
  - apply (exec_segment frame attempt n data' crc r1
      (fun decoder lengthSym data crcValue => _)); [done|done|].
    assert ((CRC (n :: data') =b crc) = false) as -> by (apply byte_eqb_neq; congruence). cbn [negb].
    eapply (exec_then _ _ r2 [SymbolNack]); [by apply exec_ack; [right|]| |done|done].
    apply exec_silent; [apply silent_emit|intros _]. cbn [Nat.eqb].
    apply exec_silent; [apply silent_emit|intros _; apply IH].
Qed.

(** The transport's answer to whether the command carries the source. *)
Definition with_source : bool :=
  if k_arbitration k then match k_sends_source k with Some b => negb b | None => false end else true.

Lemma silent_includeSource : silent includeSource /\ forall s, (includeSource s).2 = with_source.
Proof.
  unfold includeSource, with_source. simpl. by destruct (k_arbitration k), (k_sends_source k).
Qed.

Lemma exec_source {B} (f : bool -> M script B) r o b : exec (f with_source) r o b -> exec (bind includeSource f) r o b.
Proof.
  intros Hf. destruct silent_includeSource as [Hs Hv].
  apply (exec_seq _ _ [] [] with_source r o); [|done|done|done].
  by apply exec_silent_last.
Qed.

Lemma exec_transaction frame attempt resp r o :
  len (fData frame) <= 255 ->
  transaction_trace unescaped (k_flagged k) frame with_source resp r o ->
  exec (sendTransaction unescaped run req frame attempt) r o (Ok resp).
Proof.
  intros Hlen Ht. unfold sendTransaction.
  assert ((255 <? len (fData frame)) = false) as -> by lia.
  destruct Ht as [r1 r2 o1 Hty Hs He|r1 r2 o1 Hty Hc He|data r1 r2 o1 o2 Hty Hc Hr]; rewrite Hty;
    (rewrite decide_False by done); apply exec_silent; try apply silent_gets; intros started; apply exec_source.
  - eapply (exec_then _ _ _ _ None); [|apply exec_ret|by rewrite app_nil_r|by rewrite app_nil_r].
    cbn [commandLoop]. eapply exec_then; [by apply exec_sends| |done|done].
    cbv beta iota. rewrite decide_True by done. eapply exec_then; [by apply exec_end| |by rewrite app_nil_r|by rewrite app_nil_r].
    apply exec_silent; [apply silent_attempt|intros _; apply exec_ret].
  - eapply exec_then; [apply exec_command; [by rewrite Hty|done]| |done|done].
    cbv beta iota. rewrite decide_True by done. eapply exec_then; [by apply exec_end| |by rewrite app_nil_r|by rewrite app_nil_r].
    apply exec_silent; [apply silent_attempt|intros _; apply exec_ret].
  - eapply exec_then; [apply exec_command; [by rewrite Hty|done]| |done|done].
    cbv beta iota. rewrite decide_False by done. rewrite bool_decide_true by done. cbn [negb].
    eapply exec_then; [by apply exec_response|apply exec_ret|by rewrite app_nil_r|by rewrite app_nil_r].
Qed.
End exec.

(** ** Only on such an exchange *)

Section inversion.
Context (k : kind) (unescaped : bool) (run req : context script).
#[local] Instance env_inv : BusEnv script := script_env k.

Lemma silent_checkContext : silent (checkContext run req).
Proof.
  apply silent_bind; [apply silent_gets|]. intros [e|]; apply silent_ret.
Qed.

Lemma succeeds_checkContext {B} (f : unit -> M script (result error B)) Q :
  succeeds (f tt) Q -> succeeds (try_bind (checkContext run req) f) Q.
Proof.
  intros Hf. apply behaves_silent; [apply silent_checkContext|].
  intros [[]|e]; [exact Hf|by apply behaves_ret].
Qed.

Lemma succeeds_emit {B} ev (f : M script (result error B)) Q :
  succeeds f Q -> succeeds (emitObserverEvent ev ;; f) Q.
Proof. intros Hf. by apply behaves_silent; [apply silent_emit|]. Qed.

Lemma succeeds_modify {B} g (f : M script (result error B)) Q :
  succeeds f Q -> succeeds (modify g ;; f) Q.
Proof. intros Hf. by apply behaves_silent; [apply silent_modify|]. Qed.

Lemma succeeds_report {A} e (Q : _ -> _ -> A -> Prop) : succeeds (report e) Q.
Proof. apply behaves_silent; [apply silent_outcome|]. intros _. apply succeeds_fail. Qed.

Lemma succeeds_reportEcho {A} v p e (Q : _ -> _ -> A -> Prop) : succeeds (reportEcho v p e) Q.
Proof. apply succeeds_emit, succeeds_report. Qed.

Lemma succeeds_failTransaction {A} frame attempt e (Q : _ -> _ -> A -> Prop) :
  succeeds (failTransaction frame attempt e) Q.
Proof. apply behaves_silent; [apply silent_outcome|]. intros _. apply succeeds_fail. Qed.

Lemma succeeds_readByteWithEscape :
  succeeds (readByteWithEscape run req sc_read) (fun r o v => o = [] /\ r = [Ok v]).
Proof.
  apply succeeds_checkContext. eapply (succeeds_try _ _ (fun r o v => o = [] /\ r = [Ok v])
    (fun v r o v' => r = [] /\ o = [] /\ v' = v)).
  - intros s s' a. unfold lift, sc_read. destruct (sc_reads s.2) as [|x l] eqn:E; simpl; intros [= <- <-]; simpl.
    + exists [], []. splits; rewrite ?app_nil_r; done.
    + exists [x], []. splits; rewrite ?app_nil_r; try done. by destruct x.
  - intros v. apply succeeds_emit, succeeds_ok. done.
  - intros v v' r1 r2 o1 o2 [-> ->] (-> & -> & ->). done.
Qed.

Lemma succeeds_readByte :
  succeeds (readByte run req) (fun r o v => o = [] /\ exists e, r = [Ok (v, e)]).
Proof.
  apply succeeds_checkContext. eapply (succeeds_try _ _ (fun r o v => o = [] /\ exists e, r = [Ok (v, e)])
    (fun v r o v' => r = [] /\ o = [] /\ v' = v)).
  - intros s s' a. unfold lift. simpl. unfold sc_read_byte, sc_read.
    destruct (sc_reads s.2) as [|x l] eqn:E; simpl; intros [= <- <-]; simpl.
    + exists [], []. splits; rewrite ?app_nil_r; done.
    + exists [x], []. splits; rewrite ?app_nil_r; try done. destruct x as [[v e]|e]; [|done]. by split; [|exists e].
  - intros v. apply succeeds_emit, succeeds_ok. done.
  - intros v v' r1 r2 o1 o2 [-> [e ->]] (-> & -> & ->). split; [done|by exists e].
Qed.

Lemma succeeds_readEcho :
  succeeds (readEcho unescaped run req)
    (fun r o v => o = [] /\ exists e, r = [Ok (v.1, e)] /\ v.2 = e && (unescaped && k_flagged k)).
Proof.
  assert (succeeds (let? echo := readByte run req in ok (echo, false))
    (fun r o v => o = [] /\ exists e, r = [Ok (v.1, e)] /\ v.2 = false)) as Hplain.
  { eapply (succeeds_try _ _ _ (fun v r o v' => r = [] /\ o = [] /\ v' = (v, false)));
      [apply succeeds_readByte|intros; by apply succeeds_ok|].
    intros v v' r1 r2 o1 o2 [-> [e ->]] (-> & -> & ->). split; [done|by exists e]. }
  unfold readEcho. simpl. destruct (k_flagged k), unescaped; simpl;
    [|eapply succeeds_weaken; [exact Hplain|]; simpl; intros r o v [-> (e & -> & ->)];
      split; [done|exists e; by rewrite andb_false_r]..].
  eapply succeeds_weaken; [apply succeeds_readByteWithEscape|]. intros r o [v e] [-> ->].
  split; [done|exists e; by rewrite andb_true_r].
Qed.

Lemma succeeds_absorb first left :
  succeeds (absorb run req sc_read first left)
    (fun r o a => o = [] /\ match a with
      | None => exists n, (n < left)%nat /\ r = repeat (Ok (SymbolSyn, false)) n ++ [Ok (SymbolSyn, true)]
      | Some echo => echo.1 <> SymbolSyn
      end).
Proof.
  induction left as [|left IH]; cbn [absorb]; [apply succeeds_modify, succeeds_reportEcho|].
  eapply (succeeds_match _ _ _ (fun v r o a => o = [] /\ match a with
      | None => v.1 = SymbolSyn /\ if v.2 : bool then r = [] else
          exists n, (n < left)%nat /\ r = repeat (Ok (SymbolSyn, false)) n ++ [Ok (SymbolSyn, true)]
      | Some echo => echo.1 <> SymbolSyn
      end)); [apply succeeds_readByteWithEscape| |intros e; apply succeeds_report|].
  - intros [v e]. apply succeeds_modify.
    destruct (byte_eqb_spec v SymbolSyn) as [->|Hne], e; simpl; try (by apply succeeds_ok);
      [by apply succeeds_modify, succeeds_ok|].
    eapply succeeds_weaken; [exact IH|]. intros r o [[v e]|]; simpl; [done|]. by intros [-> Hr].
  - intros [v e] a r1 r2 o1 o2 [-> ->] [-> Ha]. split; [done|]. destruct a; [done|].
    destruct Ha as [Hv Ha]. simpl in Hv, Ha. subst v. destruct e.
    + subst r2. exists O. split; [lia|done].
    + destruct Ha as (n & Hn & ->). exists (S n). split; [lia|done].
Qed.

Lemma succeeds_compareEcho raw first echo :
  succeeds (compareEcho raw first echo) (fun r o _ => r = [] /\ o = [] /\ echo.1 = raw).
Proof.
  unfold compareEcho. destruct (byte_eqb_spec echo.1 raw); [by apply succeeds_ok|].
  case_match; [apply succeeds_report|apply succeeds_reportEcho].
Qed.

(** What [checkEcho] accepts. *)
Definition accepted (raw : byte) (structural : bool) (echo : byte * bool) (r : list read) : Prop :=
  echo.1 = raw /\
  if k_flagged k && (raw =b SymbolSyn) then
    if structural then r = [] /\ echo.2 = false
    else r = [] /\ echo.2 = true \/
         echo.2 = false /\ exists n, (n < 3)%nat /\ r = repeat (Ok (SymbolSyn, false)) n ++ [Ok (SymbolSyn, true)]
  else r = [].

Lemma succeeds_checkEcho raw structural first echo :
  succeeds (checkEcho unescaped run req raw structural first echo)
    (fun r o _ => o = [] /\ accepted raw structural echo r).
Proof.
  assert (k_flagged k && (raw =b SymbolSyn) = false ->
    succeeds (compareEcho raw first echo) (fun r o _ => o = [] /\ accepted raw structural echo r)) as Hcmp.
  { intros HF. eapply succeeds_weaken; [apply succeeds_compareEcho|].
    intros r o _ (-> & -> & E). unfold accepted. by rewrite HF. }
  unfold checkEcho. destruct echo as [value esc].
  destruct (negb unescaped && (value =b SymbolSyn) && negb (raw =b SymbolSyn)); [apply succeeds_reportEcho|].
  simpl tr_ReadByteWithEscape. destruct (k_flagged k) eqn:HF; [|by apply Hcmp].
  destruct (byte_eqb_spec raw SymbolSyn) as [->|Hraw]; cbn [negb andb].
  - rewrite !andb_false_r, !andb_true_r. destruct (byte_eqb_spec value SymbolSyn) as [->|Hv]; cbn [andb];
      rewrite ?andb_false_r, ?andb_true_r.
    + destruct structural, esc; cbn [andb negb]; [apply succeeds_reportEcho| | |].
      * eapply succeeds_weaken; [apply succeeds_compareEcho|]. intros r o _ (-> & -> & E).
        unfold accepted. by rewrite HF.
      * eapply succeeds_weaken; [apply succeeds_compareEcho|]. intros r o _ (-> & -> & E).
        unfold accepted. rewrite HF. simpl. auto.
      * apply behaves_silent; [apply silent_gets|intros w].
        apply behaves_silent; [destruct w; auto with silent|intros _].
        eapply succeeds_try; [apply succeeds_absorb| |].
        -- intros a. instantiate (1 := fun a r o _ => a = None /\ r = [] /\ o = [] \/ exists e, a = Some e /\ e.1 = SymbolSyn).
           destruct a as [e|]; simpl.
           ++ eapply succeeds_weaken; [apply succeeds_compareEcho|]. intros r o _ (-> & -> & E). right. by exists e.
           ++ apply succeeds_ok. by left.
        -- intros a b r1 r2 o1 o2 [-> Ha] [(-> & -> & ->)|(e & -> & He)]; [|by destruct Ha].
           rewrite !app_nil_r. split; [done|]. unfold accepted. rewrite HF. simpl. split; [done|right; split; [done|exact Ha]].
    + eapply succeeds_weaken; [apply succeeds_compareEcho|]. by intros r o _ (-> & -> & E).
  - rewrite !andb_false_r. cbn [andb]. case_match; [apply succeeds_reportEcho|]. apply Hcmp. by rewrite andb_false_r.
Qed.

(** A write that succeeds has put the byte on the wire and seen its echo. *)
Lemma succeeds_sendRaw raw structural first :
  succeeds (sendRawWithEcho unescaped run req raw structural first)
    (fun r o _ => o = [raw] /\ exists v e r', r = Ok (v, e) :: r' /\
       accepted raw structural (v, e && (unescaped && k_flagged k)) r').
Proof.
  unfold sendRawWithEcho. simpl tr_SignalStructuralSyn. apply behaves_silent; [apply silent_ret|intros _].
  eapply (behaves_bind _ _ (fun r o w => r = [] /\ match w.2 with None => o = [raw] | Some _ => o = [] end)).
  - intros s s' w. unfold lift. simpl. unfold sc_write.
    destruct (sc_writes s.2) as [|[n err] l]; simpl; intros [= <- <-]; simpl.
    + exists [], [raw]. done.
    + exists [], (match err with None => [raw] | Some _ => [] end).
      splits; [done|by destruct err; rewrite ?app_nil_r|done|by destruct err].
  - intros [n err]. instantiate (1 := fun w r o a => match w.2 with
      | Some _ => r = [] /\ o = [] /\ (exists e, a = Err e)
      | None => match a with Ok _ => o = [] /\ exists v e r', r = Ok (v, e) :: r' /\
          accepted raw structural (v, e && (unescaped && k_flagged k)) r' | Err _ => True end end).
    destruct err as [err|]; simpl.
    { apply behaves_silent; [apply silent_outcome|intros _]. apply behaves_ret. eauto. }
    destruct (n =? 1); simpl; [|apply succeeds_report].
    apply succeeds_emit, succeeds_modify.
    eapply (succeeds_match _ _ _ (fun v r o a => r = [] /\ o = [])).
    + eapply succeeds_match; [apply succeeds_readEcho|intros echo; apply succeeds_checkEcho
        |intros e; apply succeeds_report|].
      intros [v p] b r1 r2 o1 o2 [-> (e & -> & He)] [-> Ha]. simpl in He. subst p.
      instantiate (1 := fun r o _ => o = [] /\ exists v e r', r = Ok (v, e) :: r' /\
        accepted raw structural (v, e && (unescaped && k_flagged k)) r').
      simpl. split; [done|by exists v, e, r2].
    + intros []. apply succeeds_modify. by apply succeeds_ok.
    + intros e. apply succeeds_modify, succeeds_fail.
    + intros a b r1 r2 o1 o2 [-> (v & e & r' & -> & Ha)] [-> ->]. split; [done|].
      exists v, e, r'. by rewrite app_nil_r.
  - intros [n err] [[]|e] r1 r2 o1 o2 [-> Ho]; simpl in *; [|done].
    destruct err; [intros (_ & _ & ? & ?); done|]. subst o1. intros [-> Hr]. split; [done|exact Hr].
Qed.

Lemma accepted_echo raw e r :
  (unescaped && k_flagged k = true \/ raw <> SymbolSyn \/ k_flagged k = false) ->
  (unescaped = true \/ wire unescaped raw = [raw]) ->
  accepted raw false (raw, e && (unescaped && k_flagged k)) r ->
  echo_of unescaped (k_flagged k) raw (Ok (raw, e) :: r).
Proof.
  intros Hcase Hwire [_ Ha]. simpl in Ha. unfold echo_of.
  destruct (unescaped && k_flagged k) eqn:HP.
  - apply andb_true_iff in HP as [HU HF]. rewrite HF in Ha. simpl in Ha. rewrite andb_true_r in Ha.
    destruct (byte_eqb_spec raw SymbolSyn) as [->|Hne]; simpl in Ha.
    + destruct Ha as [[-> ->]|(-> & n & Hn & ->)]; [by exists O, true; splits; (done || lia)|].
      exists (S n), true. splits; (done || lia).
    + subst r. exists O, e. splits; (done || lia).
  - assert (r = []) as ->.
    { destruct (k_flagged k && (raw =b SymbolSyn)) eqn:E; [|done].
      apply andb_true_iff in E as [E1 E2%byte_eqb_eq]. naive_solver congruence. }
    exists [(raw, e)]. split; [done|]. simpl. destruct Hwire as [-> | ->]; done.
Qed.

Lemma succeeds_symbol b first :
  succeeds (sendSymbolWithEcho unescaped run req b true first)
    (fun r o _ => echo_of unescaped (k_flagged k) b r /\ o = wire unescaped b).
Proof.
  unfold sendSymbolWithEcho. cbn [negb andb]. rewrite orb_false_r.
  destruct (unescaped || negb (b =b SymbolEscape) && negb (b =b SymbolSyn)) eqn:E.
  - eapply succeeds_weaken; [apply succeeds_sendRaw|].
    intros r o _ (-> & v & e & r' & -> & Ha). pose proof Ha as [Hv _]. simpl in Hv. subst v.
    assert (unescaped = true \/ (b <> SymbolEscape /\ b <> SymbolSyn)) as Hc.
    { destruct unescaped; [by left|right]. simpl in E. apply andb_true_iff in E as [E1 E2].
      destruct (byte_eqb_spec b SymbolEscape), (byte_eqb_spec b SymbolSyn); done. }
    assert (wire unescaped b = [b]) as Hw.
    { unfold wire, escape_symbol. destruct Hc as [->|[H1 H2]]; [done|].
      destruct unescaped; [done|]. apply byte_eqb_neq in H1, H2. by rewrite H1, H2. }
    split; [|by rewrite Hw]. apply accepted_echo; [|by right|done].
    destruct Hc as [->|[_ H2]]; [|by right; left]. destruct (k_flagged k); auto.
  - apply orb_false_iff in E as [HU E]. rewrite HU.
    assert (b = SymbolEscape \/ b = SymbolSyn) as Hb.
    { destruct (byte_eqb_spec b SymbolEscape), (byte_eqb_spec b SymbolSyn); [by left|by left|by right|done]. }
    assert (forall b' f, b' <> SymbolSyn -> succeeds (sendRawWithEcho false run req b' false f)
      (fun r o _ => o = [b'] /\ exists e, r = [Ok (b', e)])) as Hraw.
    { intros b' f Hb'. pose proof (succeeds_sendRaw b' false f) as Hs. rewrite HU in Hs.
      eapply succeeds_weaken; [exact Hs|]. intros r o _ (-> & v & e & r' & -> & Hv & Ha). simpl in Hv. subst v.
      split; [done|]. exists e. apply byte_eqb_neq in Hb'. rewrite Hb', andb_false_r in Ha. by subst r'. }
    eapply succeeds_try; [by apply Hraw|intros u; apply Hraw; by destruct (b =b SymbolSyn)|].
    intros _ _ r1 r2 o1 o2 [-> (e1 & ->)] [-> (e2 & ->)].
    assert (wire false b = [SymbolEscape; if b =b SymbolSyn then x01 else x00]) as Hw by (by destruct Hb as [-> | ->]).
    unfold echo_of. cbn [andb]. rewrite Hw. split; [|done].
    by exists [(SymbolEscape, e1); (if b =b SymbolSyn then x01 else x00, e2)].
Qed.

Lemma succeeds_end :
  succeeds (sendEndOfMessage unescaped run req)
    (fun r o _ => end_echo unescaped (k_flagged k) r /\ o = [SymbolSyn]).
Proof.
  unfold sendEndOfMessage, sendSymbolWithEcho. cbn [negb]. rewrite orb_true_r. cbn [orb andb].
  eapply succeeds_weaken; [apply succeeds_sendRaw|].
  intros r o _ (-> & v & e & r' & -> & Hv & Ha). simpl in Hv, Ha. subst v. split; [|done]. exists e.
  rewrite andb_true_r in Ha. destruct (k_flagged k); simpl in Ha.
  - destruct Ha as [-> He]. split; [done|]. intros HP. by rewrite HP, andb_true_r in He.
  - subst r'. split; [done|]. by rewrite andb_false_r.
Qed.

Lemma succeeds_sends bs first :
  succeeds (sendSymbols unescaped run req bs first) (fun r o _ => sends unescaped (k_flagged k) bs r o).
Proof.
  revert first. induction bs as [|b bs IH]; intros first; cbn [sendSymbols]; [apply succeeds_ok; constructor|].
  eapply succeeds_try; [apply succeeds_symbol|intros u; apply IH|].
  intros _ _ r1 r2 o1 o2 [Hb ->] Hs. by constructor.
Qed.

(** A symbol read from an idle decoder: its wire form, and an idle decoder. A
    plain transport also gives the SYN symbol for a bare SYN. *)
Definition symbol_read (r : list read) (o : list byte) (p : bool * result error byte) : Prop :=
  match p.2 with
  | Ok b => o = [] /\ p.1 = false /\ (unescaped = true \/ b <> SymbolSyn -> carried (wire unescaped b) r)
  | Err _ => True
  end.

Lemma behaves_failed escape err : behaves (read_failed escape err) symbol_read.
Proof. by apply behaves_ret. Qed.

Lemma behaves_readSymbol : behaves (readSymbol unescaped run req false) symbol_read.
Proof.
  unfold readSymbol. destruct unescaped eqn:HU.
  - eapply behaves_bind; [apply succeeds_readByte|intros a; by apply (behaves_ret _ (fun r o p => r = [] /\ o = [] /\ p = (false, a)))|].
    intros [v|e] p r1 r2 o1 o2 H1 (-> & -> & ->); [|done]. destruct H1 as [-> [e ->]].
    unfold symbol_read, wire. simpl. rewrite HU. splits; try done. intros _. by exists [(v, e)].
  - eapply (behaves_bind _ _ _ (fun a r o p => match a with Err _ => exists e, p.2 = Err e
      | Ok v => match p.2 with Err _ => True | Ok b => o = [] /\ p.1 = false /\
          if v =b SymbolEscape then exists c e, r = [Ok (c, e)] /\
            (c = x00 /\ b = SymbolEscape \/ c = x01 /\ b = SymbolSyn)
          else r = [] /\ b = v end end)); [apply succeeds_readByte| |].
    + intros [v|e]; [|apply behaves_ret; by eexists].
      destruct (byte_eqb_spec v SymbolEscape) as [->|Hne]; [|by apply behaves_ret].
      eapply (behaves_bind _ _ _ (fun a r o p => match a with Err _ => exists e, p.2 = Err e
        | Ok c => match p.2 with Err _ => True | Ok b => r = [] /\ o = [] /\ p.1 = false /\
            (c = x00 /\ b = SymbolEscape \/ c = x01 /\ b = SymbolSyn) end end)); [apply succeeds_readByte| |].
      * intros [c|e]; [|apply behaves_ret; by eexists]. apply behaves_ret. simpl.
        destruct (byte_eqb_spec c x00) as [->|]; [|destruct (byte_eqb_spec c x01) as [->|]]; simpl; auto 10.
      * intros [c|e] [d [b|e']] r1 r2 o1 o2 H1 H2; simpl in *; try done; [|by destruct H2].
        destruct H1 as [-> [e ->]], H2 as (-> & -> & -> & Hc). splits; try done. by exists c, e.
    + intros [v|e] [d [b|e']] r1 r2 o1 o2 H1 H2; simpl in *; try done; [|by destruct H2].
      destruct H1 as [-> [e ->]], H2 as (-> & -> & Hr). unfold symbol_read, wire. simpl. rewrite HU.
      splits; try done. intros Hsyn. destruct (byte_eqb_spec v SymbolEscape) as [->|Hne].
      * destruct Hr as (c & e' & -> & [[-> ->]|[-> ->]]); by eexists [(_, _); (_, _)].
      * destruct Hr as [-> ->]. exists [(v, e)]. split; [done|]. simpl. unfold escape_symbol.
        apply byte_eqb_neq in Hne. rewrite Hne. destruct (byte_eqb_spec v SymbolSyn) as [->|]; [|done]. by destruct Hsyn.
Qed.

Lemma succeeds_responseSymbol frame attempt phase :
  succeeds (responseSymbol unescaped run req frame attempt false phase)
    (fun r o a => o = [] /\ a.1 = false /\ response_symbol unescaped a.2 r).
Proof.
  unfold responseSymbol. eapply (behaves_bind _ _ _ (fun p r o a => match p.2 with
    | Err _ => exists e, a = Err e
    | Ok b => match a with Ok x => r = [] /\ o = [] /\ x = (p.1, b) /\ (unescaped = true \/ b <> SymbolSyn)
              | Err _ => True end end)); [apply behaves_readSymbol| |].
  - intros [d [b|e]]; cbn [fst snd].
    + destruct (negb unescaped && (b =b SymbolSyn)) eqn:E; [apply succeeds_failTransaction|].
      apply behaves_ret. splits; try done. apply andb_false_iff in E as [E|E]; [left; by destruct unescaped|].
      right. by apply byte_eqb_neq.
    + eapply behaves_silent; [apply silent_outcome|]. intros _. apply behaves_ret. by eexists.
  - intros [d [b|e]] [x|e'] r1 r2 o1 o2 H1 H2; unfold symbol_read in H1; simpl in *; try done; [|by destruct H2].
    destruct H1 as (-> & -> & Hc), H2 as (-> & -> & -> & Hs). rewrite !app_nil_r. simpl.
    splits; try done. split; [by apply Hc|]. intros HU. rewrite HU in Hs. by destruct Hs.
Qed.

Lemma succeeds_responseData frame attempt n :
  succeeds (responseData unescaped run req frame attempt n false)
    (fun r o a => o = [] /\ a.1 = false /\ length a.2 = n /\ response_symbols unescaped a.2 r).
Proof.
  induction n as [|n IH]; cbn [responseData]; [apply succeeds_ok; splits; try done; constructor|].
  eapply (succeeds_try_dep _ _ _ (fun a r o b => o = [] /\ b.1 = false /\
    exists data, b.2 = a.2 :: data /\ length data = n /\ response_symbols unescaped data r));
    [apply succeeds_responseSymbol| |].
  - intros [d v] r o (_ & Hd & _). simpl in Hd. subst d.
    eapply (succeeds_try _ _ _ (fun a r o b => r = [] /\ o = [] /\ b = (a.1, v :: a.2))); [exact IH|intros []; by apply succeeds_ok|].
    intros [d data] b r1 r2 o1 o2 (-> & Hd & Hn & Hr) (-> & -> & ->). simpl in *. rewrite app_nil_r.
    splits; try done. by exists data.
  - intros [d v] [d' l] r1 r2 o1 o2 (-> & _ & Hv) (-> & Hd & data & Hl & Hn & Hr). simpl in *. subst l.
    splits; try done; [simpl; lia|]. by constructor.
Qed.

Lemma succeeds_command frame attempt started left ws :
  Frame_Type frame <> FrameTypeBroadcast -> (left <= 2)%nat ->
  succeeds (commandLoop unescaped run req frame attempt started left ws false)
    (fun r o a => a = Some false /\ command_trace unescaped (k_flagged k) frame left ws r o).
Proof.
  intros Hty. revert ws. induction left as [|left IH]; intros ws Hleft; cbn [commandLoop]; [apply succeeds_fail|].
  eapply succeeds_try; [apply succeeds_sends|intros u|].
  - rewrite decide_False by done.
    eapply (behaves_bind_dep _ _ _ (fun p r o a => match p.2, a with
      | Err _, Ok _ => False
      | Ok b, Ok x => x = Some false /\
         (b = SymbolAck /\ r = [] /\ o = [] \/
          b = SymbolNack /\ left = 1%nat /\ command_trace unescaped (k_flagged k) frame left true r o)
      | _, Err _ => True end)); [apply behaves_readSymbol| |].
    + intros [d [b|e]] r o Hs; unfold symbol_read in Hs; cbn [fst snd] in *;
        [|eapply behaves_silent; [apply silent_outcome|]; intros _; by apply behaves_ret].
      destruct Hs as (_ & -> & _).
      destruct (byte_eqb_spec b SymbolAck) as [->|Hack].
      { apply succeeds_emit. apply behaves_ret. auto. }
      destruct (byte_eqb_spec b SymbolNack) as [->|Hnack].
      { apply succeeds_emit. destruct (Nat.eqb_spec (S left) 2) as [E|E].
        - eapply succeeds_weaken; [apply (IH true); lia|]. intros r' o' a [-> Ht]. split; [done|right]. auto with lia.
        - eapply (behaves_bind _ _ (fun _ _ _ => True)); [|intros a; apply (succeeds_failTransaction _ _ _ (fun _ _ _ => False))|].
          + eapply behaves_weaken; [apply succeeds_end|done].
          + intros a [x|e'] r1 r2 o1 o2 _ H2; done. }
      case_match; apply succeeds_failTransaction.
    + intros [d [b|e]] [x|e'] r1 r2 o1 o2 H1 H2; unfold symbol_read in H1; cbn [fst snd] in *; try done.
      destruct H1 as (-> & -> & Hc). destruct H2 as [-> H2].
      instantiate (1 := fun u r o x => x = Some false /\ (carried (wire unescaped SymbolAck) r /\ o = [] \/
        left = 1%nat /\ exists r1 r2, r = r1 ++ r2 /\ carried (wire unescaped SymbolNack) r1 /\
          command_trace unescaped (k_flagged k) frame left true r2 o)). simpl.
      split; [done|]. destruct H2 as [(-> & -> & ->)|(-> & Hl & Ht)].
      * left. rewrite app_nil_r. split; [apply Hc; by right|done].
      * right. split; [done|]. exists r1, r2. splits; [done|apply Hc; by right|done].
  - intros u a r1 r2 o1 o2 Hs [-> [[Hc ->]|(-> & r3 & r4 & -> & Hc & Ht)]]; (split; [done|]).
    + rewrite app_nil_r. by constructor.
    + by constructor.
Qed.

(** The three parts of a response segment, handed to the rest of the loop. *)
Lemma succeeds_segment {B} frame attempt (f : bool -> byte -> list byte -> byte -> M script (result error B)) Q2 Q :
  (forall n data crc, u8 n = len data -> succeeds (f false n data crc) (Q2 n data crc)) ->
  (forall n data crc r1 r2 o b, u8 n = len data -> response_symbols unescaped (n :: data ++ [crc]) r1 ->
     Q2 n data crc r2 o b -> Q (r1 ++ r2) o b) ->
  succeeds
    (let? (decoder, lengthSym) := responseSymbol unescaped run req frame attempt false "waiting for response length" in
     let? (decoder, data) := responseData unescaped run req frame attempt (Z.to_nat (u8 lengthSym)) decoder in
     let? (decoder, crcValue) := responseSymbol unescaped run req frame attempt decoder "waiting for response crc" in
     f decoder lengthSym data crcValue) Q.
Proof.
  intros Hf HQ.
  eapply (succeeds_try_dep _ _ _ (fun a r o b => exists data crc r1 r2 r3, r = r1 ++ r2 ++ r3 /\
    u8 a.2 = len data /\ response_symbols unescaped data r1 /\ response_symbol unescaped crc r2 /\
    Q2 a.2 data crc r3 o b)); [apply succeeds_responseSymbol| |].
  - intros [d n] r o (_ & Hd & _). simpl in Hd. subst d.
    eapply (succeeds_try_dep _ _ _ (fun a r o b => exists crc r2 r3, r = r2 ++ r3 /\
      response_symbol unescaped crc r2 /\ Q2 n a.2 crc r3 o b)); [apply succeeds_responseData| |].
    + intros [d data] r' o' (_ & Hd & Hn & _). simpl in Hd, Hn. subst d.
      eapply (succeeds_try_dep _ _ _ (fun a r o b => Q2 n data a.2 r o b)); [apply succeeds_responseSymbol| |].
      * intros [d crc] r'' o'' (_ & Hd & _). simpl in Hd. subst d. apply Hf. unfold len.
        pose proof (u8_range n). lia.
      * intros [d crc] b r1 r2 o1 o2 (-> & _ & Hs) H2. by exists crc, r1, r2.
    + intros [d data] b r1 r2 o1 o2 (-> & _ & Hn & Hs) (crc & r3 & r4 & -> & Hc & H2). simpl in *.
      exists data, crc, r1, r3, r4. splits; try done. unfold len. pose proof (u8_range n). lia.
  - intros [d n] b r1 r2 o1 o2 (-> & _ & Hs) (data & crc & r3 & r4 & r5 & -> & Hn & Hd & Hc & H2). simpl in *.
    rewrite !(app_assoc _ _ r5). eapply HQ; [exact Hn| |exact H2].
    constructor; [done|]. clear -Hd Hc. induction Hd as [|b bs ra rb Hb _ IH]; simpl.
    + rewrite <- (app_nil_r r4). constructor; [done|constructor].
    + rewrite <- app_assoc. by constructor.
Qed.

Lemma succeeds_response frame attempt started left :
  (left <= 2)%nat ->
  succeeds (responseLoop unescaped run req frame attempt started left false)
    (fun r o a => exists data, a = response_frame frame data /\
       response_trace unescaped (k_flagged k) left data r o).
Proof.
  induction left as [|left IH]; intros Hleft; cbn [responseLoop]; [apply succeeds_failTransaction|].
  eapply (succeeds_segment frame attempt (fun decoder lengthSym data crcValue => _)
    (fun n data crc r o a => exists data', a = response_frame frame data' /\
      (crc = CRC (n :: data) /\ data' = data /\ o = [SymbolAck; SymbolSyn] /\ (exists r2 r3, r = r2 ++ r3 /\
          echo_of unescaped (k_flagged k) SymbolAck r2 /\ end_echo unescaped (k_flagged k) r3) \/
       crc <> CRC (n :: data) /\ left = 1%nat /\ exists r2 r3 o3, r = r2 ++ r3 /\ o = SymbolNack :: o3 /\
          echo_of unescaped (k_flagged k) SymbolNack r2 /\
          response_trace unescaped (k_flagged k) left data' r3 o3))).
  - intros n data crc Hn. destruct (byte_eqb_spec (CRC (n :: data)) crc) as [<-|Hne]; cbn [negb].
    + eapply succeeds_try; [apply succeeds_symbol|intros u; apply succeeds_emit|].
      * eapply succeeds_try; [apply succeeds_end|intros u'|].
        -- eapply behaves_silent; [apply silent_attempt|]. intros _.
           apply (succeeds_ok _ (fun r o a => r = [] /\ o = [] /\ a = response_frame frame data)). done.
        -- intros u0 a r1 r2 o1 o2 He (-> & -> & ->).
           instantiate (1 := fun _ r o a => end_echo unescaped (k_flagged k) r /\ o = [SymbolSyn] /\ a = response_frame frame data).
           simpl. rewrite !app_nil_r. destruct He. done.
      * intros u0 a r1 r2 o1 o2 [He ->] (Hend & -> & ->). exists data. split; [done|left].
        splits; try done; [|by exists r1, r2]. unfold wire. by destruct unescaped.
    + eapply succeeds_try; [apply succeeds_symbol|intros u; apply succeeds_emit|].
      * instantiate (1 := fun _ r o a => left = 1%nat /\ exists data', a = response_frame frame data' /\
          response_trace unescaped (k_flagged k) left data' r o).
        destruct (Nat.eqb_spec (S left) 2) as [E|E].
        -- apply succeeds_emit. eapply succeeds_weaken; [apply IH; lia|]. intros r o a Ha. split; [lia|done].
        -- eapply (behaves_bind _ _ (fun _ _ _ => True)); [|intros a; apply (succeeds_failTransaction _ _ _ (fun _ _ _ => False))|].
           ++ eapply behaves_weaken; [apply succeeds_end|done].
           ++ intros a [x|e'] r1 r2 o1 o2 _ H2; done.
      * intros u0 a r1 r2 o1 o2 [He ->] (Hl & data' & -> & Ht). exists data'. split; [done|right].
        splits; [congruence|done|]. exists r1, r2, o2. splits; try done. unfold wire. by destruct unescaped.
  - intros n data crc r1 r2 o b Hn Hr (data' & -> & [(-> & -> & -> & r3 & r4 & -> & He & Hend)|(Hne & -> & r3 & r4 & o3 & -> & -> & He & Ht)]);
      eexists; (split; [done|]).
    + by eapply response_good.
    + by eapply response_bad.
Qed.

Lemma succeeds_transaction frame attempt :
  succeeds (sendTransaction unescaped run req frame attempt)
    (fun r o resp => len (fData frame) <= 255 /\
       transaction_trace unescaped (k_flagged k) frame (with_source k) resp r o).
Proof.
  unfold sendTransaction. case_decide as Hty; [apply succeeds_fail|].
  destruct (Z.ltb_spec 255 (len (fData frame))) as [|Hlen]; [apply succeeds_fail|].
  apply behaves_silent; [apply silent_gets|intros started].
  destruct (silent_includeSource k) as [Hsil Hval].
  eapply (behaves_bind _ _ (fun r o b => r = [] /\ o = [] /\ b = with_source k)
    (fun ws r o a => match a with
       | Ok resp => len (fData frame) <= 255 /\ transaction_trace unescaped (k_flagged k) frame ws resp r o
       | Err _ => True end)).
  - intros s s' b E. destruct (Hsil s) as (R & _ & O). specialize (Hval s).
    change (includeSource (H:=env_inv) s = (s', b)) in E. unfold env_inv in E. unfold env in *.
    rewrite E in *. simpl in *. exists [], []. rewrite app_nil_r. splits; done.
  - intros ws. destruct (Frame_Type frame) eqn:Eft; try done.
    + (* broadcast *)
      cbn [commandLoop].
      eapply (succeeds_try _ _ (fun r o a => a = None /\ transaction_trace unescaped (k_flagged k) frame ws None r o)
        (fun a r o resp => r = [] /\ o = [] /\ (a = None -> resp = None))).
      * eapply succeeds_try; [apply succeeds_sends|intros u|].
        -- rewrite Eft, decide_True by done.
           eapply (succeeds_try _ _ _ (fun _ r o a => r = [] /\ o = [] /\ a = None)); [apply succeeds_end|intros u'|].
           ++ eapply behaves_silent; [apply silent_attempt|]. intros _. by apply behaves_ret.
           ++ intros u' a r1 r2 o1 o2 [He ->] (-> & -> & ->).
              instantiate (1 := fun _ r o a => end_echo unescaped (k_flagged k) r /\ o = [SymbolSyn] /\ a = None).
              simpl. by rewrite app_nil_r.
        -- intros u a r1 r2 o1 o2 Hs (He & -> & ->). split; [done|]. by apply trace_broadcast.
      * intros [d|]; [|by apply succeeds_ok]. rewrite decide_False, bool_decide_false by done. apply succeeds_fail.
      * intros a resp r1 r2 o1 o2 [-> Ht] (-> & -> & Hr). rewrite !app_nil_r. by rewrite Hr.
    + (* initiator to target *)
      eapply succeeds_try_dep; [apply succeeds_command; [by rewrite Eft|lia]| |].
      * intros a r o [-> _]. cbv beta iota. rewrite decide_False, bool_decide_true by done. cbn [negb].
        eapply (succeeds_try _ _ _ (fun a r o resp => r = [] /\ o = [] /\ resp = Some a)); [apply succeeds_response; lia|intros x; by apply succeeds_ok|].
        intros x resp r1 r2 o1 o2 Hx (-> & -> & ->). rewrite !app_nil_r.
        instantiate (1 := fun _ r o resp => exists data, resp = Some (response_frame frame data) /\
          response_trace unescaped (k_flagged k) 2 data r o). simpl.
        destruct Hx as (data & -> & Ht). by exists data.
      * intros a resp r1 r2 o1 o2 [-> Hc] (data & -> & Ht). split; [done|]. by apply trace_target.
    + (* initiator to initiator *)
      eapply succeeds_try_dep; [apply succeeds_command; [by rewrite Eft|lia]| |].
      * intros a r o [-> _]. cbv beta iota. rewrite decide_True by done.
        eapply (succeeds_try _ _ _ (fun _ r o a => r = [] /\ o = [] /\ a = None)); [apply succeeds_end|intros u'|].
        -- eapply behaves_silent; [apply silent_attempt|]. intros _. by apply behaves_ret.
        -- intros u' b r1 r2 o1 o2 [He ->] (-> & -> & ->).
           instantiate (1 := fun _ r o a => end_echo unescaped (k_flagged k) r /\ o = [SymbolSyn] /\ a = None).
           simpl. by rewrite app_nil_r.
      * intros a resp r1 r2 o1 o2 [-> Hc] (He & -> & ->). split; [done|]. by apply trace_initiator.
    + (* no such frame type *)
      eapply (succeeds_try_dep _ _ _ (fun _ _ _ _ => False)); [apply succeeds_command; [by rewrite Eft|lia]| |].
      * intros a r o [-> _]. cbv beta iota. rewrite decide_False, bool_decide_false by done.
        apply (succeeds_fail _ (fun _ _ _ => False)).
      * done.
  - intros ws [resp|e] r1 r2 o1 o2 (-> & -> & ->) H2; done.
Qed.
End inversion.

(** ** The theorem *)

(** C1: A transaction returns [resp] without error, leaving [rest] unread and having
    written [o], exactly when the bytes read before [rest] are a transaction
    exchange for this frame on this kind of transport. *)
Theorem transaction_succeeds_iff k unescaped run req frame attempt resp s rest o :
  (forall w, ctx_Err run w = None) -> (forall w, ctx_Err req w = None) ->
  sc_writes s.2 = [] ->
  (exists s', sendTransaction (H:=script_env k) unescaped run req frame attempt s = (s', Ok resp) /\
     sc_reads s'.2 = rest /\ sc_written s'.2 = sc_written s.2 ++ o) <->
  (exists r, sc_reads s.2 = r ++ rest /\ len (fData frame) <= 255 /\
     transaction_trace unescaped (k_flagged k) frame (with_source k) resp r o).
Proof.
  intros Hrun Hreq Hw. split.
  - intros (s' & E & <- & Hout).
    destruct (succeeds_transaction k unescaped run req frame attempt s s' _ E) as (r & o' & Hr & Ho & Hlen & Ht).
    exists r. assert (o' = o) as -> by (rewrite Hout in Ho; by apply app_inv_head in Ho). done.
  - intros (r & Hr & Hlen & Ht).
    destruct (exec_transaction k unescaped run req Hrun Hreq frame attempt resp r o Hlen Ht s rest Hr Hw)
      as (s' & E & R & _ & O). by exists s'.
Qed.
