(* ===== verification/BusEcho.v ===== *)
(** The echo of one written byte: how a wrong echo is classified and reported,
    and what the AUTO-SYN counters record. *)

From S2P Require Import Prelude Errors Wire Address.
From S2P Require Import BusEnv Bus BusScript.

#[local] Open Scope list_scope.

(** ** Classification of the messages *)

(** No occurrence of [needle] can start in [u], whatever follows [u]. *)
Fixpoint inert (needle u : string) : bool :=
  match u with
  | EmptyString => true
  | String _ u' => negb (String.prefix needle u) && negb (String.prefix u needle) && inert needle u'
  end.

Lemma prefix_app needle u v :
  String.prefix needle (u +:+ v) = true -> String.prefix needle u = true \/ String.prefix u needle = true.
Proof.
  revert u. induction needle as [|c needle IH]; intros [|d u]; simpl; auto.
  change (String d u +:+ v) with (String d (u +:+ v)). simpl.
  destruct (Ascii.ascii_dec c d) as [<-|]; [|done].
  destruct (Ascii.ascii_dec c c); [|done]. apply IH.
Qed.

Lemma contains_inert needle u v :
  inert needle u = true -> containsSubstring (u +:+ v) needle = containsSubstring v needle.
Proof.
  induction u as [|c u IH]; [done|]. intros Hu. cbn [inert] in Hu.
  apply andb_true_iff in Hu as [[H1 H2]%andb_true_iff Hu].
  change (String c u +:+ v) with (String c (u +:+ v)) at 1. cbn [containsSubstring].
  change (String c (u +:+ v)) with (String c u +:+ v).
  destruct (String.prefix needle (String c u +:+ v)) eqn:E; [|by apply IH].
  destruct (prefix_app _ _ _ E) as [E1|E1]; [by rewrite E1 in H1|by rewrite E1 in H2].
Qed.

Lemma fmt_02X_inert b : inert "echo mismatch" (fmt_02X b) = true.
Proof. byte_cases b. Qed.

Lemma append_assoc (a b c : string) : (a +:+ b) +:+ c = a +:+ (b +:+ c).
Proof.
  induction a as [|x a IH]; [done|].
  change (String x ((a +:+ b) +:+ c) = String x (a +:+ (b +:+ c))). by rewrite IH.
Qed.

(** The message of a first-byte arbitration loss does not say "echo mismatch". *)
Lemma arbitration_loss_message raw echo :
  containsEchoMismatch (Some (wrapped ("first-byte arbitration loss: wrote 0x" +:+ fmt_02X raw +:+
    ", wire echo 0x" +:+ fmt_02X echo +:+ " (foreign initiator)") SBusCollision)) = false.
Proof.
  unfold containsEchoMismatch, wrapped, stringsContains. cbn [error_string]. rewrite !append_assoc.
  do 4 rewrite contains_inert by (reflexivity || apply fmt_02X_inert). reflexivity.
Qed.

(** The message of a plain mismatch does. *)
Lemma echo_mismatch_message raw echo :
  containsEchoMismatch (Some (EEchoEmitted (wrapped ("echo mismatch (sent 0x" +:+ fmt_02x raw +:+
    ", got 0x" +:+ fmt_02x echo +:+ ")") SBusCollision))) = true.
Proof. reflexivity. Qed.

Lemma outcome_collision msg :
  busOutcomeFromError (Some (wrapped msg SBusCollision)) =
  if containsEchoMismatch (Some (wrapped msg SBusCollision)) then BusOutcomeEchoMismatch else BusOutcomeCollision.
Proof. reflexivity. Qed.

(** ** The verdict on an echo *)

Section verdict.
Context (k : kind) (unescaped : bool) (run req : context script).
Context (run_alive : forall w, ctx_Err run w = None) (req_alive : forall w, ctx_Err req w = None).
Context (observed : k_observed k = true).
#[local] Instance env : BusEnv script := script_env k.

(** The outcome class of an echo [v] with provenance [e], [None] when it is
    accepted: a SYN of the wire, an escaped 0xAA in place of the final SYN and
    another initiator's first byte are collisions, any other byte a mismatch. *)
Definition echo_verdict (raw : byte) (structural first : bool) (v : byte) (e : bool) : option BusOutcomeClass :=
  if (v =b SymbolSyn) && negb (raw =b SymbolSyn) && negb e && (negb unescaped || k_flagged k)
  then Some BusOutcomeCollision
  else if k_flagged k && structural && (raw =b SymbolSyn) && (v =b SymbolSyn) && e
  then Some BusOutcomeCollision
  else if v =b raw then None
  else if first && negb e && bool_decide (AddressClassOf v = AddressClassMaster)
  then Some BusOutcomeCollision
  else Some BusOutcomeEchoMismatch.

(** Arbitration loss is left to the retry event; every other wrong echo is
    reported once, with the byte seen and its provenance. *)
Definition echo_report (raw : byte) (first : bool) (v : byte) (e : bool) : list BusEvent :=
  if negb (v =b SymbolSyn) && (first && negb e && bool_decide (AddressClassOf v = AddressClassMaster))
  then [] else [echo_mismatch_event v e].

(** [m] adds [evs] to the event log and fails with a collision error whose
    outcome class is [c]. *)
Definition rejects {A} (m : M script (result error A)) (evs : list BusEvent) (c : BusOutcomeClass) : Prop :=
  forall s, sc_observations s.2 = [] ->
  exists s' err, m s = (s', Err err) /\ sc_events s'.2 = sc_events s.2 ++ evs /\
    errors_is err SBusCollision = true /\ busOutcomeFromError (Some err) = c.

Lemma emit_logs ev s :
  sc_observations s.2 = [] ->
  exists s', emitObserverEvent ev s = (s', tt) /\ sc_observations s'.2 = [] /\
    sc_events s'.2 = sc_events s.2 ++ [ev] /\ sc_reads s'.2 = sc_reads s.2 /\
    sc_writes s'.2 = sc_writes s.2 /\ s'.1 = s.1.
Proof.
  intros Ho. unfold emitObserverEvent. simpl. rewrite observed.
  unfold callObserver, bind, lift, sc_observe, ret. rewrite Ho. simpl. eexists. splits; done.
Qed.

Lemma rejects_report {A} (err : error) c :
  errors_is err SBusCollision = true -> busOutcomeFromError (Some err) = c ->
  c = BusOutcomeCollision \/ c = BusOutcomeEchoMismatch /\ echoMismatchAlreadyEmitted err = true ->
  rejects (report (A:=A) err) [] c.
Proof.
  intros He Hc Hcase s Ho. unfold report, bind, emitOutcomeEvent. rewrite Hc.
  exists s, err. rewrite app_nil_r. splits; try done.
  destruct Hcase as [->|[-> ->]]; simpl; [by rewrite andb_false_r|done].
Qed.

Lemma rejects_reportEcho {A} v e (err : error) c :
  errors_is err SBusCollision = true -> busOutcomeFromError (Some err) = c ->
  c = BusOutcomeCollision \/ c = BusOutcomeEchoMismatch /\ echoMismatchAlreadyEmitted err = true ->
  rejects (reportEcho (A:=A) v e err) [echo_mismatch_event v e] c.
Proof.
  intros He Hc Hcase s Ho. destruct (emit_logs (echo_mismatch_event v e) s Ho) as (s1 & E & O1 & L1 & _).
  destruct (rejects_report (A:=A) err c He Hc Hcase s1 O1) as (s2 & err2 & E2 & L2 & H2 & H3).
  exists s2, err2. unfold reportEcho, bind. rewrite E, E2. splits; try done. by rewrite L2, L1, app_nil_r.
Qed.

Lemma byte_class_syn : bool_decide (AddressClassOf SymbolSyn = AddressClassMaster) = false.
Proof. reflexivity. Qed.

Lemma rejects_compareEcho raw first v e :
  v <> raw ->
  rejects (compareEcho raw first (v, e))
    (echo_report raw first v e)
    (if first && negb e && bool_decide (AddressClassOf v = AddressClassMaster)
     then BusOutcomeCollision else BusOutcomeEchoMismatch).
Proof.
  intros Hne. unfold compareEcho, echo_report. cbn [fst snd].
  apply byte_eqb_neq in Hne. rewrite Hne.
  destruct (first && negb e && bool_decide (AddressClassOf v = AddressClassMaster)) eqn:E.
  - assert ((v =b SymbolSyn) = false) as Hs.
    { destruct (byte_eqb_spec v SymbolSyn) as [->|]; [|done]. by rewrite byte_class_syn, andb_false_r in E. }
    rewrite Hs. cbn [negb andb]. 
    apply rejects_report; [done| |by left].
    by rewrite outcome_collision, arbitration_loss_message.
  - rewrite andb_false_r.
    by apply rejects_reportEcho; [| |right].
Qed.

Lemma rejects_checkEcho raw structural first v e c :
  (e = true -> unescaped && k_flagged k = true) ->
  (negb structural && (raw =b SymbolSyn) && (v =b SymbolSyn) && negb e && k_flagged k) = false ->
  echo_verdict raw structural first v e = Some c ->
  rejects (checkEcho unescaped run req raw structural first (v, e)) (echo_report raw first v e) c.
Proof.
  intros Hesc Hround9 Hv. unfold checkEcho. change (tr_ReadByteWithEscape (BusEnv:=env)) with (if k_flagged k then Some sc_read else None). unfold echo_verdict in Hv.
  assert (forall (c' : BusOutcomeClass) err, v = SymbolSyn -> errors_is err SBusCollision = true ->
    busOutcomeFromError (Some err) = BusOutcomeCollision ->
    rejects (reportEcho (A:=unit) v e err) (echo_report raw first v e) BusOutcomeCollision) as Hsyn.
  { intros _ err -> He Ho. unfold echo_report. change (SymbolSyn =b SymbolSyn) with true. cbn [negb andb].
    by apply rejects_reportEcho; [| |left]. }
  revert Hround9 Hv.
  destruct (byte_eqb_spec raw SymbolSyn) as [->|Hraw], (byte_eqb_spec v SymbolSyn) as [->|Hvs];
    cbn [negb andb]; rewrite ?andb_false_r, ?andb_true_r; cbn [andb]; intros Hround9 Hv.
  - (* a SYN in answer to a SYN *)
    destruct (k_flagged k); [|done]. destruct structural, e; try done. injection Hv as <-.
    by apply (Hsyn BusOutcomeCollision).
  - (* another byte in answer to a SYN *)
    assert (rejects (compareEcho SymbolSyn first (v, e)) (echo_report SymbolSyn first v e) c) as Hcmp.
    { pose proof (rejects_compareEcho SymbolSyn first v e Hvs) as Hr.
      by destruct (first && negb e && _); injection Hv as <-. }
    by destruct (k_flagged k).
  - (* a SYN in answer to another byte *)
    destruct unescaped, (k_flagged k), e; try (by specialize (Hesc eq_refl));
      cbn [negb andb orb] in *; try (injection Hv as <-);
      try by apply (Hsyn BusOutcomeCollision).
    all: assert (forall e', rejects (compareEcho raw first (SymbolSyn, e')) (echo_report raw first SymbolSyn e')
        BusOutcomeEchoMismatch) as Hcmp
      by (intros e'; pose proof (rejects_compareEcho raw first SymbolSyn e' ltac:(congruence)) as Hr;
          by rewrite byte_class_syn, andb_false_r in Hr).
    all: assert ((SymbolSyn =b raw) = false) as Hneq by (apply byte_eqb_neq; congruence).
    all: rewrite Hneq, ?byte_class_syn, ?andb_false_r in Hv; injection Hv as <-; apply Hcmp.
  - (* other bytes *)
    rewrite ?andb_false_r in Hv. cbn [andb] in Hv.
    destruct (byte_eqb_spec v raw) as [->|Hne]; [done|].
    assert (rejects (compareEcho raw first (v, e)) (echo_report raw first v e) c) as Hcmp.
    { pose proof (rejects_compareEcho raw first v e Hne) as Hr.
      by destruct (first && negb e && _); injection Hv as <-. }
    by destruct (k_flagged k); rewrite ?andb_false_r.
Qed.

Lemma accepts_checkEcho raw structural first v e s :
  (e = true -> unescaped && k_flagged k = true) ->
  (negb structural && (raw =b SymbolSyn) && (v =b SymbolSyn) && negb e && k_flagged k) = false ->
  echo_verdict raw structural first v e = None ->
  checkEcho unescaped run req raw structural first (v, e) s = (s, Ok tt).
Proof.
  unfold echo_verdict, checkEcho, compareEcho. change (tr_ReadByteWithEscape (BusEnv:=env)) with (if k_flagged k then Some sc_read else None). cbn [fst snd]. intros Hesc.
  destruct (byte_eqb_spec raw SymbolSyn) as [->|Hraw], (byte_eqb_spec v SymbolSyn) as [->|Hvs];
    cbn [negb andb]; rewrite ?andb_false_r, ?andb_true_r; cbn [andb]; intros Hround9.
  - rewrite ?byte_eqb_refl. destruct (k_flagged k); [|done]. by destruct structural, e.
  - by case_match.
  - assert ((SymbolSyn =b raw) = false) as -> by (apply byte_eqb_neq; congruence).
    case_match; [done|]. by case_match.
  - destruct (byte_eqb_spec v raw) as [->|]; [|by case_match]. intros _.
    by destruct (k_flagged k).
Qed.

Lemma read_logs {A} (f : script -> script * result error A) (g : byte * bool -> A) (b : A -> byte) v e rest s :
  (forall w, f w = ((sc_read w).1, match (sc_read w).2 with Ok x => Ok (g x) | Err err => Err err end)) ->
  b (g (v, e)) = v ->
  sc_reads s.2 = Ok (v, e) :: rest -> sc_observations s.2 = [] ->
  exists s', (let? _ := checkContext run req in
              let? value := lift f in
              emitObserverEvent (byte_event BusEventRX (b value)) ;; ok value) s = (s', Ok (g (v, e))) /\
    sc_observations s'.2 = [] /\ sc_events s'.2 = sc_events s.2 ++ [byte_event BusEventRX v].
Proof.
  intros Hf Hb Hr Ho. unfold try_bind, checkContext, contextError, bind, gets, ok, ret.
  rewrite run_alive, req_alive. unfold lift. rewrite Hf. unfold sc_read. rewrite Hr. simpl.
  rewrite Hb. match goal with |- context [emitObserverEvent ?ev ?st] =>
    destruct (emit_logs ev st Ho) as (s1 & E & O1 & L1 & _) end.
  rewrite E. by exists s1.
Qed.

Lemma readEcho_logs v e rest s :
  sc_reads s.2 = Ok (v, e) :: rest -> sc_observations s.2 = [] ->
  exists s', readEcho unescaped run req s = (s', Ok (v, e && (unescaped && k_flagged k))) /\
    sc_observations s'.2 = [] /\ sc_events s'.2 = sc_events s.2 ++ [byte_event BusEventRX v].
Proof.
  intros Hr Ho.
  destruct (read_logs sc_read_byte fst id v e rest s) as (s1 & E1 & O1 & L1); [|done|done|done|].
  { intros w. unfold sc_read_byte. destruct (sc_read w) as [? []]; done. }
  assert ((let? echo := readByte run req in ok (echo, false)) s = (s1, Ok (v, false))) as Hplain.
  { assert (readByte run req s = (s1, Ok v)) as E1' by exact E1.
    unfold try_bind, bind. by rewrite E1'. }
  destruct (read_logs sc_read id fst v e rest s) as (s2 & E2 & O2 & L2); [|done|done|done|].
  { intros w. destruct (sc_read w) as [? []]; done. }
  unfold readEcho. change (tr_ReadByteWithEscape (BusEnv:=env)) with (if k_flagged k then Some sc_read else None).
  destruct (k_flagged k), unescaped; simpl; rewrite ?andb_true_r, ?andb_false_r; try (by exists s1).
  exists s2. by split.
Qed.

(** The frame around the judgement: the write, the two events, the counters. *)
Lemma sendRaw_frame raw structural first v e rest s :
  sc_reads s.2 = Ok (v, e) :: rest -> sc_writes s.2 = [] -> sc_observations s.2 = [] ->
  exists s1, sc_observations s1.2 = [] /\
    sc_events s1.2 = sc_events s.2 ++ [byte_event BusEventTX raw; byte_event BusEventRX v] /\
    forall s2 r, checkEcho unescaped run req raw structural first (v, e && (unescaped && k_flagged k)) s1 = (s2, r) ->
      exists s', sendRawWithEcho unescaped run req raw structural first s = (s', r) /\ sc_events s'.2 = sc_events s2.2.
Proof.
  intros Hr Hw Ho.
  pose (w1 := mkScript (sc_reads s.2) [] (sc_arbitrations s.2) (sc_wakes s.2) (sc_reconnects s.2)
    (sc_observations s.2) (sc_written s.2 ++ [raw]) (sc_events s.2) (sc_time s.2)).
  destruct (emit_logs (byte_event BusEventTX raw) (s.1, w1) Ho) as (s2 & E2 & O2 & L2 & R2 & _).
  destruct (readEcho_logs v e rest (add_echo_wait 1 s2.1, s2.2)) as (s3 & E3 & O3 & L3); [simpl; by rewrite R2|done|].
  exists s3. splits; [done|rewrite L3; simpl; rewrite L2; by rewrite <- app_assoc|].
  intros s4 r E4. exists (add_echo_wait (-1) s4.1, s4.2). split; [|done].
  unfold sendRawWithEcho. simpl tr_SignalStructuralSyn.
  assert (lift (tr_Write [raw]) s = ((s.1, w1), (1, None))) as EW.
  { unfold lift. simpl. unfold sc_write. by rewrite Hw. }
  unfold bind, ret, modify. rewrite EW. cbn [Z.eqb negb Pos.eqb]. rewrite E2, E3, E4. done.
Qed.
End verdict.

(** ** The theorem *)


(** ** The AUTO-SYN counters *)

Section counters.
Context {W : Type} `{BusEnv W} (unescaped : bool) (run req : context W).

(** absorbed, recovered, exhausted, active waits, entered *)
Definition counters (b : BusState) : Z * Z * Z * Z * Z :=
  (payloadAaAutoSynAbsorbed b, payloadAaAutoSynRecovered b, payloadAaAutoSynDrainExhausted b,
   activeEchoWaits b, round9AbsorbEntered b).

Definition uncounted {A} (m : M W A) : Prop := forall s, counters (m s).1.1 = counters s.1.

Lemma uncounted_bind {A B} (m : M W A) (f : A -> M W B) :
  uncounted m -> (forall a, uncounted (f a)) -> uncounted (bind m f).
Proof.
  intros Hm Hf s. unfold bind. specialize (Hm s). destruct (m s) as [s1 a]. by rewrite Hf.
Qed.

Lemma uncounted_try {A B} (m : M W (result error A)) (f : A -> M W (result error B)) :
  uncounted m -> (forall a, uncounted (f a)) -> uncounted (try_bind m f).
Proof. intros Hm Hf. apply uncounted_bind; [done|]. by intros [a|e]. Qed.

Lemma uncounted_ret {A} (a : A) : uncounted (ret (W:=W) a).
Proof. done. Qed.

Lemma uncounted_lift {A} (f : W -> W * A) : uncounted (lift f).
Proof. intros s. unfold lift. by destruct (f s.2). Qed.

Lemma uncounted_gets {A} (f : BusState * W -> A) : uncounted (gets f).
Proof. done. Qed.

Lemma uncounted_emit ev : uncounted (emitObserverEvent ev).
Proof.
  unfold emitObserverEvent. destruct on_bus_event as [obs|]; [|done].
  assert (forall e, uncounted (callObserver obs e)) as Hcall.
  { intros e. apply uncounted_bind; [apply uncounted_lift|done]. }
  apply uncounted_bind; [apply Hcall|]. intros [[e|] p]; [|done].
  apply uncounted_bind; [done|]. intros _. case_decide; [done|].
  apply uncounted_bind; [apply Hcall|done].
Qed.

Lemma uncounted_outcome f t a e : uncounted (emitOutcomeEvent f t a e).
Proof. unfold emitOutcomeEvent. case_match; [done|]. case_match; [apply uncounted_emit|done]. Qed.

Lemma uncounted_report {A} e : uncounted (report (A:=A) e).
Proof. apply uncounted_bind; [apply uncounted_outcome|done]. Qed.

Lemma uncounted_reportEcho {A} v p e : uncounted (reportEcho (A:=A) v p e).
Proof. apply uncounted_bind; [apply uncounted_emit|intros; apply uncounted_report]. Qed.

Lemma uncounted_read {A} (f : W -> W * result error A) (ev : A -> BusEvent) :
  uncounted (let? _ := checkContext run req in
             let? value := lift f in emitObserverEvent (ev value) ;; ok value).
Proof.
  apply uncounted_try; [apply uncounted_bind; [apply uncounted_gets|by intros []]|intros _].
  apply uncounted_try; [apply uncounted_lift|intros a].
  apply uncounted_bind; [apply uncounted_emit|done].
Qed.

Lemma uncounted_readByteWithEscape flagged : uncounted (readByteWithEscape run req flagged).
Proof. apply uncounted_read. Qed.

Lemma uncounted_readEcho : uncounted (readEcho unescaped run req).
Proof.
  unfold readEcho. assert (uncounted (let? echo := readByte run req in ok (echo, false))).
  { apply uncounted_try; [apply uncounted_read|done]. }
  destruct tr_ReadByteWithEscape; [|done]. destruct unescaped; [apply uncounted_read|done].
Qed.

Lemma uncounted_compareEcho raw first echo : uncounted (compareEcho raw first echo).
Proof.
  unfold compareEcho. case_match; [done|]. case_match; [apply uncounted_report|apply uncounted_reportEcho].
Qed.

(** What the drain loop adds to the counters. *)
Definition drained (d : nat) (rec exh : bool) (c c' : Z * Z * Z * Z * Z) : Prop :=
  let '(a, r, x, w, e) := c in
  c' = (Nat.iter d incr a, (if rec then incr r else r), (if exh then incr x else x), w, e).

Lemma drained_step d rec exh a r x w e c' :
  drained d rec exh (incr a, r, x, w, e) c' -> drained (S d) rec exh (a, r, x, w, e) c'.
Proof. unfold drained. intros ->. f_equal. by rewrite Nat.iter_succ_r. Qed.

Lemma absorb_counts flagged first left s s' r :
  absorb run req flagged first left s = (s', r) ->
  exists d rec exh, (d <= left)%nat /\ drained d rec exh (counters s.1) (counters s'.1) /\
    match r with
    | Ok None => rec = true /\ exh = false /\ (0 < d)%nat
    | Ok (Some echo) => rec = false /\ exh = false /\ (0 < d)%nat /\ echo.1 <> SymbolSyn
    | Err _ => rec = false /\ (exh = true -> d = left)
    end.
Proof.
  revert s. induction left as [|left IH]; intros s; cbn [absorb].
  - unfold bind at 1, modify at 1. intros E.
    pose proof (uncounted_reportEcho (A:=option (byte * bool)) first.1 first.2
      (wrapped "echo for payload 0xAA expected escape-decoded WasEscaped=true but received real wire SYN" SBusCollision)
      (count_exhausted s.1, s.2)) as Hc.
    rewrite E in Hc. cbn [fst] in Hc. exists O, false, true. splits; [lia|by rewrite Hc|].
    assert (exists e, r = Err e) as [e ->]; [|done].
    unfold reportEcho, report, bind, fail, ret in E.
    destruct (emitObserverEvent _ _) as [s1 u]. destruct (emitOutcomeEvent _ _ _ _ _) as [s2 u2].
    injection E as _ <-. by eexists.
  - unfold bind at 1. pose proof (uncounted_readByteWithEscape flagged s) as Hc.
    destruct (readByteWithEscape run req flagged s) as [s1 [[v e]|err]]; cbn [fst] in Hc.
    2:{ intros E. pose proof (uncounted_report (A:=option (byte * bool)) err s1) as Hc2. rewrite E in Hc2. cbn [fst] in Hc2.
        exists O, false, false. splits; [lia|by rewrite Hc2, Hc|].
        unfold report, bind, fail, ret in E. destruct (emitOutcomeEvent _ _ _ _ _). by injection E as _ <-. }
    unfold bind at 1, modify at 1. rewrite <- Hc.
    destruct (byte_eqb_spec v SymbolSyn) as [->|Hne], e; cbn [andb negb].
    + unfold bind, modify, ok, ret. intros [= <- <-]. exists 1%nat, true, false. splits; (lia || done).
    + intros E. destruct (IH _ E) as (d & rec & exh & Hd & Hdr & Hr).
      exists (S d), rec, exh. split; [lia|split; [by apply drained_step|]].
      destruct r as [[echo|]|err]; [|destruct Hr as (? & ? & ?); splits; (done || lia)|].
      * destruct Hr as (? & ? & ? & ?). splits; (done || lia).
      * destruct Hr as [? Hr]. split; [done|]. intros Hx. rewrite (Hr Hx). done.
    + unfold ok, ret. intros [= <- <-]. exists 1%nat, false, false. splits; (lia || done).
    + unfold ok, ret. intros [= <- <-]. exists 1%nat, false, false. splits; (lia || done).
Qed.

(** One visit of the round-9 site: it was entered, drained [d] bytes, and the
    write succeeded exactly when a genuine echo was recovered. *)
Definition visited (d : nat) (rec exh : bool) (c c' : Z * Z * Z * Z * Z) : Prop :=
  let '(a, r, x, w, e) := c in drained d rec exh (a, r, x, w, incr e) c'.

Definition round9_visit (r : result error unit) (c c' : Z * Z * Z * Z * Z) : Prop :=
  exists d rec exh, (d <= 3)%nat /\ visited d rec exh c c' /\
    (r = Ok tt <-> rec = true) /\ (exh = true -> rec = false /\ d = 3%nat) /\ (rec = true -> (0 < d)%nat).

Lemma checkEcho_counts raw structural first echo s s' r :
  0 < activeEchoWaits s.1 ->
  checkEcho unescaped run req raw structural first echo s = (s', r) ->
  counters s'.1 = counters s.1 \/
  raw = SymbolSyn /\ structural = false /\ echo = (SymbolSyn, false) /\
    round9_visit r (counters s.1) (counters s'.1).
Proof.
  intros Hact. unfold checkEcho. destruct echo as [value esc].
  assert (forall (m : M W (result error unit)), uncounted m -> m s = (s', r) -> counters s'.1 = counters s.1) as Hun.
  { intros m Hm E. specialize (Hm s). by rewrite E in Hm. }
  case_match eqn:E1; [intros E; left; revert E; apply Hun, uncounted_reportEcho|]. clear E1.
  destruct tr_ReadByteWithEscape as [flagged|]; [|intros E; left; revert E; apply Hun, uncounted_compareEcho].
  case_match eqn:E1; [intros E; left; revert E; apply Hun, uncounted_reportEcho|]. clear E1.
  case_match eqn:E1; [intros E; left; revert E; apply Hun, uncounted_reportEcho|]. clear E1.
  case_match eqn:E1; [|intros E; left; revert E; apply Hun, uncounted_compareEcho].
  apply andb_true_iff in E1 as [[[E1 E2%byte_eqb_eq]%andb_true_iff E3%byte_eqb_eq]%andb_true_iff E4].
  subst raw value. destruct structural, esc; try done. intros E. right. splits; try done.
  unfold bind at 1, gets at 1 in E. unfold inSendRawWithEchoActiveEchoWait in E.
  assert ((0 <? activeEchoWaits s.1) = true) as Ha by lia. rewrite Ha in E. unfold bind at 1, modify at 1 in E.
  unfold try_bind, bind in E.
  destruct (absorb run req flagged (SymbolSyn, false) maxPayloadAaAutoSynDrains (count_entered s.1, s.2)) as [s1 a] eqn:Eabs.
  destruct (absorb_counts _ _ _ _ _ _ Eabs) as (d & rec & exh & Hd & Hdr & Hr). cbn [fst] in Hdr.
  exists d, rec, exh. destruct a as [[echo|]|err].
  - destruct Hr as (-> & -> & Hpos & Hne). pose proof (uncounted_compareEcho SymbolSyn first echo s1) as Hc.
    rewrite E in Hc. cbn [fst] in Hc. splits; [exact Hd|by rewrite Hc| |done|done].
    split; [|done]. intros ->. unfold compareEcho in E. apply byte_eqb_neq in Hne. rewrite Hne in E.
    unfold report, reportEcho, bind, fail, ret in E. exfalso.
    destruct (first && negb echo.2 && _); repeat case_match; simplify_eq.
  - destruct Hr as (-> & -> & Hpos). injection E as <- <-. splits; done.
  - destruct Hr as [-> Hr]. injection E as <- <-. splits; [exact Hd|exact Hdr|done|intros Hx; by rewrite (Hr Hx)|done].
Qed.
End counters.

(** C30: Every echoed write leaves [activeEchoWaits] as it found it, and touches the
    AUTO-SYN counters only when it visits the round-9 site for a payload 0xAA:
    then [round9AbsorbEntered] rises by one, [payloadAaAutoSynAbsorbed] by the at
    most three bytes drained, [Recovered] by one exactly when the write
    succeeded, and [DrainExhausted] by one only after three drained bytes. *)
Theorem round9_accounting {W} `{BusEnv W} unescaped run req raw structural first s s' r :
  0 <= activeEchoWaits s.1 < 2 ^ 31 - 1 ->
  sendRawWithEcho unescaped run req raw structural first s = (s', r) ->
  counters s'.1 = counters s.1 \/
  raw = SymbolSyn /\ structural = false /\ round9_visit r (counters s.1) (counters s'.1).
Proof.
  intros Ha. unfold sendRawWithEcho. unfold bind at 1.
  match goal with |- context [let '(_, _) := ?m s in _] =>
    assert (uncounted m) as H1 by (destruct tr_SignalStructuralSyn; [destruct structural; [apply uncounted_lift|done]|done]);
    specialize (H1 s); destruct (m s) as [s1 u1]; cbn [fst] in H1 end.
  unfold bind at 1. pose proof (uncounted_lift (tr_Write [raw]) s1) as H2.
  destruct (lift (tr_Write [raw]) s1) as [s2 [n [err|]]]; cbn [fst] in H2.
  { unfold bind, fail, ret. pose proof (uncounted_outcome zero_frame FrameTypeUnknown 0 err s2) as H3.
    destruct (emitOutcomeEvent _ _ _ _ _) as [s3 u3]. intros [= <- <-]. left. cbn [fst] in H3. congruence. }
  destruct (negb (n =? 1)).
  { intros E. pose proof (uncounted_report (A:=unit) (ESentinel SInvalidPayload) s2) as H3.
    rewrite E in H3. left. cbn [fst] in H3. congruence. }
  unfold bind at 1. pose proof (uncounted_emit (byte_event BusEventTX raw) s2) as H3.
  destruct (emitObserverEvent (byte_event BusEventTX raw) s2) as [s3 u3]. cbn [fst] in H3.
  unfold bind at 1, modify at 1. unfold bind at 1. unfold bind at 1.
  pose proof (uncounted_readEcho unescaped run req (add_echo_wait 1 s3.1, s3.2)) as H4. cbn [fst] in H4.
  destruct (readEcho unescaped run req _) as [s4 echo]. cbn [fst] in H4.
  assert (counters s3.1 = counters s.1) as H13 by congruence. clear H1 H2 H3.
  destruct s as [[ba br bx bw be bf] w0], s3 as [[ca cr cx cw ce cf] w3], s4 as [[da dr dx dw de df] w4].
  unfold counters in H13, H4. cbn in H13, H4, Ha |- *. injection H13 as -> -> -> -> ->.
  rewrite swrap_small in H4 by lia. injection H4 as -> -> -> -> ->.
  destruct echo as [echo|err].
  2:{ match goal with |- context [report err ?st] => pose proof (uncounted_report (A:=unit) err st) as H5;
        destruct (report err st) as [[[fa fr fx fw fe ff] w5] u5] end.
      unfold counters in H5. cbn in H5. injection H5 as -> -> -> -> ->. unfold bind, modify, ret. cbn.
      intros [= <- <-]. left. unfold counters. cbn. rewrite swrap_small by lia. do 2 f_equal. lia. }
  destruct (checkEcho _ _ _ _ _ _ _ _) as [[[fa fr fx fw fe ff] w5] u5] eqn:E5.
  apply checkEcho_counts in E5 as [H5|(Hraw & Hst & Hecho & d & rec & exh & Hd & Hv & Hr)]; [| |cbn; lia];
    unfold bind, modify, ret; cbn; intros [= <- <-].
  - left. unfold counters in *. cbn in *. injection H5 as -> -> -> -> ->.
    rewrite swrap_small by lia. do 2 f_equal. lia.
  - right. splits; [done|done|]. exists d, rec, exh. splits; [done| |by apply Hr..].
    unfold visited, drained, counters in *. cbn in *. injection Hv as -> -> -> -> ->.
    rewrite swrap_small by lia. do 2 f_equal. lia.
Qed.
