(* ===== verification/BusPlain.v ===== *)
(** Consequences of the transaction's characterisation: a conforming target
    answers a transport that unescapes, whatever bytes it sends; a transport
    that does not unescape loses every response with a 0xAA in it, although the
    response arrives correctly stuffed. *)

From S2P Require Import Prelude Errors Wire Address.
From S2P Require Import BusEnv Bus BusScript BusTrace.

#[local] Open Scope list_scope.

(** Bytes arriving without further provenance. *)
Definition arriving (bs : list byte) : list read := (fun b => Ok (b, false)) <$> bs.

(** Bytes arriving from a transport that unescapes and tells which were escaped. *)
Definition arriving_logical (bs : list byte) : list read := (fun b => Ok (b, negb (plain_symbol b))) <$> bs.

Lemma carried_arriving bs : carried bs (arriving bs).
Proof.
  exists ((fun b => (b, false)) <$> bs). unfold arriving. rewrite <- !list_fmap_compose.
  split; [done|]. rewrite <- (list_fmap_id bs) at 2. done.
Qed.

Lemma sends_logical bs : sends true true bs (arriving_logical bs) bs.
Proof.
  induction bs as [|b bs IH]; [constructor|].
  change (arriving_logical (b :: bs)) with ([Ok (b, negb (plain_symbol b))] ++ arriving_logical bs).
  change (b :: bs) with (wire true b ++ bs) at 2. constructor; [|done].
  exists O, (negb (plain_symbol b)). splits; [done|lia| |lia]. intros ->. done.
Qed.

Lemma sends_plain bs : sends false false bs (arriving (EscapeBytes bs)) (EscapeBytes bs).
Proof.
  induction bs as [|b bs IH]; [constructor|]. simpl. unfold arriving. rewrite fmap_app.
  constructor; [|done]. apply carried_arriving.
Qed.

Lemma response_symbols_logical bs : response_symbols true bs (arriving_logical bs).
Proof.
  induction bs as [|b bs IH]; [constructor|].
  change (arriving_logical (b :: bs)) with ([Ok (b, negb (plain_symbol b))] ++ arriving_logical bs).
  constructor; [|done]. split; [|done]. by exists [(b, negb (plain_symbol b))].
Qed.

(** The reads of an initiator-target exchange form a transaction. *)
Lemma enh_exchange_trace frame data :
  Frame_Type frame = FrameTypeInitiatorTarget -> len data <= 255 ->
  transaction_trace true true frame false (Some (response_frame frame data))
    (arriving_logical (drop 1 (telegram_of frame) ++ [SymbolAck] ++ slave_segment data ++ [SymbolAck]) ++ [Ok (SymbolSyn, false)])
    (drop 1 (telegram_of frame) ++ [SymbolAck; SymbolSyn]).
Proof.
  intros Hty Hdata.
  replace (arriving_logical (drop 1 (telegram_of frame) ++ [SymbolAck] ++ slave_segment data ++ [SymbolAck]) ++ [Ok (SymbolSyn, false)])
    with ((arriving_logical (drop 1 (telegram_of frame)) ++ [Ok (SymbolAck, false)]) ++
      arriving_logical (slave_segment data) ++ [Ok (SymbolAck, false)] ++ [Ok (SymbolSyn, false)]).
  2:{ unfold arriving_logical. rewrite !fmap_app, <- !app_assoc. reflexivity. }
  apply (trace_target true true frame false data); [done| |].
  - apply command_ack; [apply sends_logical|by exists [(SymbolAck, false)]].
  - apply response_good with (n := b8 (len data)); [apply (u8_b8_small (len data)); pose proof (len_nonneg data); lia
      |apply response_symbols_logical| |].
    + exists O, false. splits; (done || lia).
    + by exists false.
Qed.

(** An initiator-target exchange over an adapter that unescapes and sends the
    source during arbitration: for every request and every response of at most
    255 bytes, an adapter that echoes the command and relays the target's
    acknowledgement and response gives the caller exactly that response, and
    the bytes written are the command without its source, the ACK and the SYN. *)
Theorem enh_exchange_delivers k run req frame attempt data s rest :
  (forall w, ctx_Err run w = None) -> (forall w, ctx_Err req w = None) ->
  k_flagged k = true -> with_source k = false ->
  Frame_Type frame = FrameTypeInitiatorTarget -> len (fData frame) <= 255 -> len data <= 255 ->
  sc_writes s.2 = [] ->
  sc_reads s.2 = arriving_logical (drop 1 (telegram_of frame) ++ [SymbolAck] ++ slave_segment data ++ [SymbolAck])
                 ++ Ok (SymbolSyn, false) :: rest ->
  exists s', sendTransaction (H:=script_env k) true run req frame attempt s = (s', Ok (Some (response_frame frame data))) /\
    sc_reads s'.2 = rest /\
    sc_written s'.2 = sc_written s.2 ++ drop 1 (telegram_of frame) ++ [SymbolAck; SymbolSyn].
Proof.
  intros Hrun Hreq HF Hws Hty Hlen Hdata Hw Hr.
  pose proof (enh_exchange_trace frame data Hty Hdata) as Ht.
  edestruct (exec_transaction k true run req Hrun Hreq frame attempt) as (s' & E & R & _ & O);
    [exact Hlen|rewrite HF, Hws; exact Ht| |exact Hw|exists s'; split; [exact E|split; [exact R|exact O]]].
  by rewrite <- app_assoc.
Qed.

Section syn.
Context (k : kind) (run req : context script).
Context (run_alive : forall w, ctx_Err run w = None) (req_alive : forall w, ctx_Err req w = None).
#[local] Instance env : BusEnv script := script_env k.

Lemma exec_fail_transaction {A} frame attempt err : exec (failTransaction (A:=A) frame attempt err) [] [] (Err err).
Proof. apply exec_silent; [apply silent_outcome|intros _; apply exec_ret]. Qed.

Lemma exec_response_syn frame attempt phase r :
  carried (wire false SymbolSyn) r ->
  exec (responseSymbol false run req frame attempt false phase) r [] (Err (wrapped ("syn while " +:+ phase) STimeout)).
Proof.
  intros Hc. unfold responseSymbol. eapply exec_seq; [by apply exec_readSymbol| |by rewrite app_nil_r|done].
  apply exec_fail_transaction.
Qed.

Lemma exec_data_syn frame attempt pre post r1 r2 :
  response_symbols false pre r1 -> carried (wire false SymbolSyn) r2 ->
  exec (responseData false run req frame attempt (length (pre ++ SymbolSyn :: post)) false) (r1 ++ r2) []
    (Err (wrapped "syn while reading response data" STimeout)).
Proof.
  intros Hpre Hs. induction Hpre as [|b bs ra rb Hb _ IH]; cbn [app length responseData].
  - by apply exec_try_err, exec_response_syn.
  - rewrite <- app_assoc. eapply exec_then; [by apply exec_responseSymbol| |done|done].
    by apply exec_try_err.
Qed.

Lemma response_symbols_plain bs : SymbolSyn ∉ bs -> response_symbols false bs (arriving (EscapeBytes bs)).
Proof.
  induction bs as [|b bs IH]; intros Hn; [constructor|]. apply not_elem_of_cons in Hn as [Hb Hn].
  simpl. unfold arriving. rewrite fmap_app. constructor; [|by apply IH].
  split; [apply carried_arriving|congruence].
Qed.
Lemma arriving_app a b : arriving (a ++ b) = arriving a ++ arriving b.
Proof. apply fmap_app. Qed.

Lemma exec_segment_syn frame attempt data :
  len data <= 255 -> SymbolSyn ∈ slave_segment data ->
  exists r1 r2 err, arriving (EscapeBytes (slave_segment data)) = r1 ++ r2 /\
    busOutcomeFromError (Some err) = BusOutcomeTimeout /\
    forall started, exec (responseLoop false run req frame attempt started 2 false) r1 [] (Err err).
Proof.
  intros Hdata (pre & post & Hseg & Hpre)%list_elem_of_split_l. rewrite Hseg.
  assert (u8 (b8 (len data)) = len data) as Hn by (apply u8_b8_small; pose proof (len_nonneg data); lia).
  assert (Z.to_nat (u8 (b8 (len data))) = length data) as Hnat by (rewrite Hn; unfold len; lia).
  unfold slave_segment in Hseg. destruct pre as [|n pre]; injection Hseg as Hfirst Hseg; [|subst n].
  - exists (arriving (wire false SymbolSyn)), (arriving (EscapeBytes post)), (wrapped "syn while waiting for response length" STimeout). splits; [|reflexivity|].
    + change (EscapeBytes ([] ++ SymbolSyn :: post)) with (wire false SymbolSyn ++ EscapeBytes post).
      by rewrite arriving_app.
    + intros started. cbn [responseLoop]. apply exec_try_err, exec_response_syn. apply carried_arriving.
  - apply not_elem_of_cons in Hpre as [Hn1 Hpre].
    set (n := b8 (len data)) in *.
    destruct post as [|x post' _] using rev_ind.
    + apply app_inj_tail in Hseg as [<- Hcrc].
      exists (arriving (wire false n) ++ arriving (EscapeBytes data) ++ arriving (wire false SymbolSyn)), [],
        (wrapped "syn while waiting for response crc" STimeout). splits; [|reflexivity|].
      * change (EscapeBytes ((n :: data) ++ [SymbolSyn])) with (escape_symbol n ++ EscapeBytes (data ++ [SymbolSyn])).
        rewrite EscapeBytes_app, !arriving_app, app_nil_r. done.
      * intros started. cbn [responseLoop].
        apply (exec_then _ _ (arriving (wire false n)) [] (false, n) (arriving (EscapeBytes data) ++ arriving (wire false SymbolSyn)) []); [| |done|done].
        { apply exec_responseSymbol; [done..|]. split; [apply carried_arriving|congruence]. }
        rewrite Hnat.
        apply (exec_then _ _ (arriving (EscapeBytes data)) [] (false, data) (arriving (wire false SymbolSyn)) []); [| |done|done].
        { apply exec_responseData; [done..|]. by apply response_symbols_plain. }
        apply exec_try_err, exec_response_syn, carried_arriving.
    + rewrite app_comm_cons, app_assoc in Hseg. apply app_inj_tail in Hseg as [-> _].
      exists (arriving (wire false n) ++ arriving (EscapeBytes pre) ++ arriving (wire false SymbolSyn)),
        (arriving (EscapeBytes (post' ++ [x]))),
        (wrapped "syn while reading response data" STimeout). splits; [|reflexivity|].
      * change (EscapeBytes ((n :: pre) ++ ?l)) with (escape_symbol n ++ EscapeBytes (pre ++ l)).
        rewrite EscapeBytes_app, !arriving_app. change (EscapeBytes (SymbolSyn :: ?l)) with (wire false SymbolSyn ++ EscapeBytes l).
        by rewrite arriving_app, <- !app_assoc.
      * intros started. cbn [responseLoop].
        apply (exec_then _ _ (arriving (wire false n)) [] (false, n) (arriving (EscapeBytes pre) ++ arriving (wire false SymbolSyn)) []); [| |done|done].
        { apply exec_responseSymbol; [done..|]. split; [apply carried_arriving|congruence]. }
        rewrite Hnat. apply exec_try_err, exec_data_syn; [by apply response_symbols_plain|apply carried_arriving].
Qed.
End syn.

(** A plain transport cannot deliver a response that contains a 0xAA: for every
    request the target has acknowledged and every response whose segment (the
    length, the data or the CRC) contains 0xAA, correctly stuffed on the wire,
    the transaction fails with a timeout. *)
Theorem plain_response_with_syn_times_out k run req frame attempt data r0 o0 s rest :
  (forall w, ctx_Err run w = None) -> (forall w, ctx_Err req w = None) ->
  Frame_Type frame = FrameTypeInitiatorTarget -> len (fData frame) <= 255 -> len data <= 255 ->
  sc_writes s.2 = [] ->
  command_trace false (k_flagged k) frame 2 (with_source k) r0 o0 ->
  SymbolSyn ∈ slave_segment data ->
  sc_reads s.2 = r0 ++ arriving (EscapeBytes (slave_segment data)) ++ rest ->
  exists s' err, sendTransaction (H:=script_env k) false run req frame attempt s = (s', Err err) /\
    busOutcomeFromError (Some err) = BusOutcomeTimeout.
Proof.
  intros Hrun Hreq Hty Hlen Hdata Hw Hcmd Hsyn Hr.
  destruct (exec_segment_syn k run req Hrun Hreq frame attempt data Hdata Hsyn) as (r1 & r2 & err & Hsplit & Herr & Hexec).
  assert (exec (sendTransaction (H:=script_env k) false run req frame attempt) (r0 ++ r1) o0 (Err err)) as Hall.
  { unfold sendTransaction. rewrite Hty, decide_False by done.
    assert ((255 <? len (fData frame)) = false) as -> by lia.
    apply exec_silent; [apply silent_gets|intros started]. apply (exec_source k).
    apply (exec_then _ _ r0 o0 (Some false) r1 []); [| |done|by rewrite app_nil_r].
    { apply exec_command; [done..|by rewrite Hty|done]. }
    cbv beta iota. rewrite decide_False, bool_decide_true by done. cbn [negb]. apply exec_try_err, Hexec. }
  destruct (Hall s (r2 ++ rest)) as (s' & E & _); [|done|by exists s', err].
  by rewrite Hr, Hsplit, <- !app_assoc.
Qed.
