(* ===== verification/BusRetry.v ===== *)
(** protocol/bus.go, one request: arbitration, retries, collision recovery and
    transport reconnects around [sendTransaction].

    At the end, the wait for SYN on a given traffic. *)

From S2P Require Import Prelude Errors Wire Address BusEnv Bus BusScript BusTrace BusEcho BusPlain.
#[local] Open Scope list_scope.

(** Nanoseconds. *)
Definition collisionBackoffFloor : Z := 50 * 1000 * 1000.
Definition adapterResetRetryDelay : Z := 200 * 1000 * 1000.
Definition CollisionRetryResyncSYNCount : nat := 2.

Record RetryPolicy := mkPolicy { TimeoutRetries : Z; NACKRetries : Z }.

Record BusConfig := mkConfig {
  InitiatorTarget : RetryPolicy;
  InitiatorInitiator : RetryPolicy;
  ReconnectRetries : Z;
  ReconnectDelay : Z
}.

Definition DefaultBusConfig : BusConfig :=
  mkConfig (mkPolicy 0 1) (mkPolicy 0 1) 3 (2 * 1000 * 1000 * 1000).

Definition retryPolicy (config : BusConfig) (frameType : FrameType) : RetryPolicy :=
  match frameType with
  | FrameTypeInitiatorInitiator => InitiatorInitiator config
  | FrameTypeInitiatorTarget => InitiatorTarget config
  | _ => mkPolicy 0 0
  end.

(** Whether to retry, and the two counters afterwards. *)
Definition shouldRetry (err : error) (policy : RetryPolicy) (timeoutAttempts nackAttempts : Z)
    (deadlineBoundsRetries : bool) : bool * Z * Z :=
  let no := (false, timeoutAttempts, nackAttempts) in
  let timeout_retry := (true, timeoutAttempts + 1, nackAttempts) in
  if errors_is err SAdapterHostError then no
  else if errors_is err SBusCollision then
    if deadlineBoundsRetries then (true, timeoutAttempts, nackAttempts)
    else if timeoutAttempts <? TimeoutRetries policy then timeout_retry else no
  else if errors_is err SAdapterReset then
    if timeoutAttempts <? TimeoutRetries policy then timeout_retry else no
  else if errors_is err STimeout then no
  else if errors_is err SCRCMismatch && (timeoutAttempts <? TimeoutRetries policy) then timeout_retry
  else if errors_is err SNACK && (nackAttempts <? NACKRetries policy)
  then (true, timeoutAttempts, nackAttempts + 1)
  else no.

Definition wrapRetryError (err : error) : error :=
  let msg :=
    if errors_is err SBusCollision then "bus send collision: "
    else if errors_is err STimeout then "bus send timeout: "
    else if errors_is err SNACK then "bus send nack: "
    else if errors_is err SCRCMismatch then "bus send crc mismatch: "
    else if errors_is err SAdapterReset then "bus send adapter reset: "
    else if errors_is err STransportClosed then "bus transport closed: "
    else "bus send failed: " in
  EWrap msg err "".

Definition isBoundedContext {W} (ctx : context W) : bool := ctx_HasDeadline ctx.

Section retry.
Context {W : Type} `{BusEnv W} (unescapedTransport : bool) (config : BusConfig).
Context (runCtx reqCtx : context W).

(** ** Waiting for the bus to be free *)

(** Errors after which [waitForSyn] keeps listening. *)
Definition keeps_listening (err : error) : bool :=
  errors_is err STimeout || errors_is err SAdapterReset || errors_is err SInvalidPayload.

(** The loop of [waitForSyn] with its plain-transport escape flag; [None] when
    [fuel] reads were not enough. The pre-unescaped branch of the source has no
    flag and never sets it. *)
Fixpoint waitForSyn_loop (fuel : nat) (left : nat) (prevWasEscape : bool) : M W (option (result error unit)) :=
  match left, fuel with
  | O, _ => ret (Some (Ok tt))
  | S _, O => ret None
  | S left', S fuel' =>
      let! ctx := contextError runCtx reqCtx in
      match ctx with
      | Some err => ret (Some (Err err))
      | None =>
          let! r :=
            match (if unescapedTransport then tr_ReadByteWithEscape else None) with
            | Some flagged => readByteWithEscape runCtx reqCtx flagged
            | None => let? raw := readByte runCtx reqCtx in ok (raw, false)
            end in
          match r with
          | Err err =>
              if keeps_listening err then waitForSyn_loop fuel' left false
              else ret (Some (Err err))
          | Ok (raw, wasEscaped) =>
              if unescapedTransport then
                waitForSyn_loop fuel' (if (raw =b SymbolSyn) && negb wasEscaped then left' else left) false
              else if prevWasEscape then waitForSyn_loop fuel' left false
              else if raw =b SymbolEscape then waitForSyn_loop fuel' left true
              else waitForSyn_loop fuel' (if raw =b SymbolSyn then left' else left) false
          end
      end
  end.

Definition waitForSyn (fuel count : nat) : M W (option (result error unit)) :=
  waitForSyn_loop fuel count false.

(** ** Arbitration and recovery *)

Definition arbitration_event (initiator : byte) (frameType : FrameType) (attempt : Z)
    (outcome : BusOutcomeClass) (elapsed : Z) : BusEvent :=
  mkEvent BusEventArbitration frameType outcome BusRetryReasonUnknown initiator x00 false false
    attempt 0 0 (durationMicros elapsed) None None.

Definition startArbitration (initiator : byte) (frameType : FrameType) (attempt : Z)
    : M W (result error unit) :=
  match tr_StartArbitration with
  | None => ok tt
  | Some start =>
      let! startedAt := gets (fun s => time_now s.2) in
      let! err := lift (start initiator) in
      let! elapsed := gets (time_since startedAt) in
      emitObserverEvent (arbitration_event initiator frameType attempt (busOutcomeFromError err) elapsed) ;;
      match err with
      | Some e => fail (EWrap "bus arbitration failed: " e "")
      | None => ok tt
      end
  end.

(** The lifecycle's token, 0 when the transport has no lifecycle. *)
Definition collisionRecoveryLifecycle : M W Z :=
  match tr_CollisionLifecycle with
  | None => ret 0
  | Some (token, _) => lift token
  end.

Definition completeCollisionRecovery (token : Z) (decision : CollisionRecoveryDecision) : M W unit :=
  match tr_CollisionLifecycle with
  | Some (_, complete) =>
      if negb (token =? 0) then lift (fun w => (complete token decision w, tt)) else ret tt
  | None => ret tt
  end.

(** [Err()] of a context whose [Done()] channel is closed: never nil. *)
Definition done_error (ctx : context W) : M W error :=
  gets (fun s => default (ESentinel SContextCanceled) (ctx_Err ctx s.2)).

Record attempts := mkAttempts { timeoutAttempts : Z; nackAttempts : Z; reconnectAttempts : Z }.

(** How one round of the loop ends: another round, a return, or a wait for SYN
    that outlasted its fuel. *)
Inductive round := Again (a : attempts) | Return (r : result error (option Frame)) | OutOfFuel.

Section request.
Context (frame : Frame) (startedAt : Z) (attemptCount : Z).
Let frameType : FrameType := Frame_Type frame.

(** [emitRequestComplete] with the counters as [uint16]. *)
Definition complete (attempt : Z) (response : option Frame) (a : attempts) (err : option error) : M W unit :=
  emitRequestComplete frame response frameType attempt
    (wrap 16 (timeoutAttempts a)) (wrap 16 (nackAttempts a)) err startedAt.

Definition retry_event (a : attempts) (err : error) : M W unit :=
  emitRetryEvent frame frameType attemptCount (wrap 16 (timeoutAttempts a)) (wrap 16 (nackAttempts a)) err.

Definition return_error (err : error) : M W round := ret (Return (Err (wrapRetryError err))).

(** The 50 ms floor, two SYNs, then [k]. *)
Definition recoverFromCollision (fuel : nat) (token : Z) (a : attempts) (k : M W round) : M W round :=
  let! woken := lift (select_wait runCtx reqCtx collisionBackoffFloor) in
  match woken with
  | WakeRunDone =>
      completeCollisionRecovery token CollisionRecoveryAbandon ;;
      let! err := done_error runCtx in return_error err
  | WakeRequestDone =>
      completeCollisionRecovery token CollisionRecoveryAbandon ;;
      let! err := done_error reqCtx in return_error err
  | WakeTimer =>
      let! waited := waitForSyn fuel CollisionRetryResyncSYNCount in
      match waited with
      | None => ret OutOfFuel
      | Some (Err waitErr) =>
          completeCollisionRecovery token CollisionRecoveryAbandon ;;
          complete attemptCount None a (Some waitErr) ;;
          return_error waitErr
      | Some (Ok _) => completeCollisionRecovery token CollisionRecoveryRetry ;; k
      end
  end.

(** The 200 ms stabilisation after an adapter reset. *)
Definition recoverFromReset (err : error) (a : attempts) : M W round :=
  if errors_is err SAdapterReset then
    let! woken := lift (select_wait runCtx reqCtx adapterResetRetryDelay) in
    match woken with
    | WakeRunDone => let! err := done_error runCtx in return_error err
    | WakeRequestDone => let! err := done_error reqCtx in return_error err
    | WakeTimer => ret (Again a)
    end
  else ret (Again a).

(** [tryTransportReconnect]: [Some a] when the loop should go on with [a]. *)
Definition tryTransportReconnect (err : error) (a : attempts) : M W (option attempts * attempts) :=
  if ReconnectRetries config <=? 0 then ret (None, a)
  else if negb (errors_is err STimeout) && negb (errors_is err SAdapterReset) && negb (errors_is err SCRCMismatch)
  then ret (None, a)
  else
    match tr_Reconnect with
    | None => ret (None, a)
    | Some reconnect =>
        if ReconnectRetries config <=? reconnectAttempts a then ret (None, a)
        else
          let a1 := mkAttempts (timeoutAttempts a) (nackAttempts a) (reconnectAttempts a + 1) in
          let! woken := lift (select_wait runCtx reqCtx (ReconnectDelay config)) in
          match woken with
          | WakeRunDone | WakeRequestDone => ret (None, a1)
          | WakeTimer =>
              let! r := lift reconnect in
              match r with
              | Some _ => ret (Some a1, a1)
              | None => let a2 := mkAttempts 0 0 (reconnectAttempts a1) in ret (Some a2, a2)
              end
          end
    end.

(** The budget is spent: reconnect or give up. *)
Definition giveUp (err : error) (a : attempts) : M W round :=
  let! r := tryTransportReconnect err a in
  match r with
  | (Some a', _) => ret (Again a')
  | (None, a') => complete attemptCount None a' (Some err) ;; return_error err
  end.

Definition bump_counters (a : attempts) (t n : Z) : attempts := mkAttempts t n (reconnectAttempts a).

Definition arbitrationFailed (fuel : nat) (err : error) (a : attempts) : M W round :=
  let policy := retryPolicy config frameType in
  let '(retry, t, n) := shouldRetry err policy (timeoutAttempts a) (nackAttempts a) (isBoundedContext reqCtx) in
  if errors_is err SBusCollision then
    let! token := collisionRecoveryLifecycle in
    if retry then
      let a' := bump_counters a t n in
      retry_event a' err ;; recoverFromCollision fuel token a' (ret (Again a'))
    else
      completeCollisionRecovery token CollisionRecoveryAbandon ;;
      complete attemptCount None a (Some err) ;; return_error err
  else if retry then
    let a' := bump_counters a t n in
    retry_event a' err ;; recoverFromReset err a'
  else giveUp err a.

Definition transactionFailed (fuel : nat) (err : error) (a : attempts) : M W round :=
  let policy := retryPolicy config frameType in
  let '(retry, t, n) := shouldRetry err policy (timeoutAttempts a) (nackAttempts a) (isBoundedContext reqCtx) in
  if retry then
    let a' := bump_counters a t n in
    retry_event a' err ;;
    if errors_is err SBusCollision then
      let! token := collisionRecoveryLifecycle in
      recoverFromCollision fuel token a' (recoverFromReset err a')
    else recoverFromReset err a'
  else
    (if errors_is err SBusCollision then
       let! token := collisionRecoveryLifecycle in completeCollisionRecovery token CollisionRecoveryAbandon
     else ret tt) ;;
    giveUp err a.

(** One round of the [for] loop of [sendWithRetries]. *)
Definition sendRound (fuel : nat) (a : attempts) : M W round :=
  let! ctx := contextError runCtx reqCtx in
  match ctx with
  | Some err => complete (wrap 16 (attemptCount - 1)) None a (Some err) ;; ret (Return (Err err))
  | None =>
      let! started := startArbitration (fSource frame) frameType attemptCount in
      match started with
      | Err err => arbitrationFailed fuel err a
      | Ok _ =>
          let! r := sendTransaction unescapedTransport runCtx reqCtx frame attemptCount in
          match r with
          | Ok response =>
              complete attemptCount response a None ;; ret (Return (Ok response))
          | Err err => transactionFailed fuel err a
          end
      end
  end.
End request.

(** The loop: [rounds] bounds the rounds, [fuel] the reads of each wait. *)
Fixpoint sendLoop (frame : Frame) (startedAt : Z) (fuel rounds : nat) (attemptCount : Z) (a : attempts)
    : M W (option (result error (option Frame))) :=
  match rounds with
  | O => ret None
  | S rounds' =>
      let attemptCount := wrap 16 (attemptCount + 1) in
      let! r := sendRound frame startedAt attemptCount fuel a in
      match r with
      | Again a' => sendLoop frame startedAt fuel rounds' attemptCount a'
      | Return result => ret (Some result)
      | OutOfFuel => ret None
      end
  end.

Definition sendWithRetries (frame : Frame) (fuel rounds : nat) : M W (option (result error (option Frame))) :=
  let! startedAt := gets (fun s => time_now s.2) in
  sendLoop frame startedAt fuel rounds 0 (mkAttempts 0 0 0).

Definition handleRequest (frame : Frame) (fuel rounds : nat) : M W (option (result error (option Frame))) :=
  let! err := contextError runCtx reqCtx in
  match err with
  | Some e => ret (Some (Err e))
  | None => sendWithRetries frame fuel rounds
  end.
End retry.

(** ** Retry budgets *)

(** A decision to retry stays within the policy: it spends one attempt of one
    budget, or it is a collision under a deadline; timeouts, host errors and
    everything that is neither a collision, a reset, a CRC mismatch nor a NACK
    are never retried. *)
Theorem shouldRetry_within_policy err policy t n bounded :
  let '(retry, t', n') := shouldRetry err policy t n bounded in
  if retry then
    (t' = t + 1 /\ n' = n /\ t < TimeoutRetries policy /\
       (errors_is err SBusCollision || errors_is err SAdapterReset || errors_is err SCRCMismatch = true)) \/
    (t' = t /\ n' = n + 1 /\ n < NACKRetries policy /\ errors_is err SNACK = true) \/
    (t' = t /\ n' = n /\ bounded = true /\ errors_is err SBusCollision = true)
  else t' = t /\ n' = n /\
    (errors_is err SNACK = true -> NACKRetries policy <= n) /\
    (errors_is err SCRCMismatch || errors_is err SAdapterReset = true -> TimeoutRetries policy <= t) /\
    (errors_is err SBusCollision = true -> bounded = false /\ TimeoutRetries policy <= t).
Proof.
  unfold shouldRetry. leaf_cases err; cbn [andb orb];
    repeat match goal with
    | |- context [?x <? ?y] => destruct (Z.ltb_spec x y)
    | |- context [if bounded then _ else _] => destruct bounded
    end; cbn [andb]; auto 10; splits; (done || (intros; (lia || done))).
Qed.

Section bound.
Context {W : Type} `{BusEnv W} (unescaped : bool) (config : BusConfig) (runCtx reqCtx : context W).

(** Every result [m] can give satisfies [P]. *)
Definition returns {A} (m : M W A) (P : A -> Prop) : Prop := forall s, P (m s).2.

Lemma returns_ret {A} (a : A) (P : A -> Prop) : P a -> returns (ret a) P.
Proof. by intros HP s. Qed.

Lemma returns_bind {A B} (m : M W A) (f : A -> M W B) P :
  (forall a, returns (f a) P) -> returns (bind m f) P.
Proof. intros Hf s. unfold bind. destruct (m s) as [s1 a]. apply Hf. Qed.

Lemma returns_bind_dep {A B} (m : M W A) (f : A -> M W B) Q P :
  returns m Q -> (forall a, Q a -> returns (f a) P) -> returns (bind m f) P.
Proof. intros Hm Hf s. unfold bind. specialize (Hm s). destruct (m s) as [s1 a]. by apply Hf. Qed.

Definition policy_of (frame : Frame) : RetryPolicy := retryPolicy config (Frame_Type frame).

Definition budget (z : Z) : Z := Z.max 0 z.

Definition rounds_per_session (p : RetryPolicy) : Z := budget (TimeoutRetries p) + budget (NACKRetries p) + 1.

(** The attempts a request may still make. *)
Definition remaining (p : RetryPolicy) (a : attempts) : Z :=
  (budget (ReconnectRetries config) - reconnectAttempts a) * rounds_per_session p
  + (budget (TimeoutRetries p) - timeoutAttempts a) + (budget (NACKRetries p) - nackAttempts a).

Definition within (p : RetryPolicy) (a : attempts) : Prop :=
  0 <= timeoutAttempts a <= budget (TimeoutRetries p) /\
  0 <= nackAttempts a <= budget (NACKRetries p) /\
  0 <= reconnectAttempts a <= budget (ReconnectRetries config).

(** A round that asks for another leaves fewer attempts, and waits end. *)
Definition progress (p : RetryPolicy) (a : attempts) (r : round) : Prop :=
  match r with
  | Again a' => within p a' /\ remaining p a' < remaining p a
  | Return _ => True
  | OutOfFuel => False
  end.

Context (fuel : nat).
Context (wait_ends : forall s, (waitForSyn unescaped runCtx reqCtx fuel CollisionRetryResyncSYNCount s).2 <> None).
Context (unbounded : ctx_HasDeadline reqCtx = false).

Lemma return_progress p a err : returns (return_error err) (progress p a).
Proof. by intros s. Qed.

Lemma recover_progress frame started attempt token p a a' k :
  returns k (progress p a) ->
  returns (recoverFromCollision unescaped runCtx reqCtx frame started attempt fuel token a' k) (progress p a).
Proof.
  intros Hk. apply returns_bind. intros [| |].
  - apply (returns_bind_dep _ _ (fun r => r <> None)); [exact wait_ends|]. intros [[[]|e]|] Hw; [| |done]; apply returns_bind; intros _; [done|].
    apply returns_bind. intros _. apply return_progress.
  - apply returns_bind. intros _. apply returns_bind. intros e. apply return_progress.
  - apply returns_bind. intros _. apply returns_bind. intros e. apply return_progress.
Qed.

Lemma reset_progress err p a a' :
  progress p a (Again a') -> returns (recoverFromReset runCtx reqCtx err a') (progress p a).
Proof.
  intros Hp. unfold recoverFromReset. destruct (errors_is err SAdapterReset); [|by apply returns_ret].
  apply returns_bind. intros [| |]; [by apply returns_ret|apply returns_bind; intros e; apply return_progress..].
Qed.

Lemma shouldRetry_progress err frame a t n :
  within (policy_of frame) a ->
  shouldRetry err (policy_of frame) (timeoutAttempts a) (nackAttempts a) (isBoundedContext reqCtx) = (true, t, n) ->
  progress (policy_of frame) a (Again (bump_counters a t n)).
Proof.
  intros (Ht & Hn & Hr) E. unfold isBoundedContext in E. rewrite unbounded in E.
  unfold shouldRetry in E. unfold progress, within, remaining, bump_counters, budget in *.
  remember (policy_of frame) as p eqn:Ep. clear Ep. cbn [timeoutAttempts nackAttempts reconnectAttempts].
  revert E. leaf_cases err; cbn [andb];
    repeat match goal with |- context [?x <? ?y] => destruct (Z.ltb_spec x y) end; cbn [andb];
    intros [= <- <-]; splits; lia.
Qed.

Lemma giveUp_progress frame started attempt err a :
  within (policy_of frame) a ->
  returns (giveUp config runCtx reqCtx frame started attempt err a) (progress (policy_of frame) a).
Proof.
  intros (Ht & Hn & Hr). unfold giveUp.
  eapply (returns_bind_dep _ _ (fun r => match r.1 with
    | Some a' => progress (policy_of frame) a (Again a') | None => True end)).
  - unfold tryTransportReconnect. destruct (Z.leb_spec (ReconnectRetries config) 0); [done|].
    case_match; [done|]. destruct tr_Reconnect as [reconnect|]; [|done].
    destruct (Z.leb_spec (ReconnectRetries config) (reconnectAttempts a)); [done|].
    apply returns_bind. intros [| |]; try done. apply returns_bind. unfold budget in *.
    intros [e|]; apply returns_ret; cbn [fst]; unfold progress, within, remaining, rounds_per_session, budget;
      cbn [timeoutAttempts nackAttempts reconnectAttempts]; splits; nia.
  - intros [[a'|] a2] Hp; cbn [fst] in Hp; [by apply returns_ret|].
    apply returns_bind. intros _. apply return_progress.
Qed.

Lemma sendRound_progress frame started attempt a :
  within (policy_of frame) a ->
  returns (sendRound unescaped config runCtx reqCtx frame started attempt fuel a) (progress (policy_of frame) a).
Proof.
  intros Hw. unfold sendRound. apply returns_bind. intros [e|]; [apply returns_bind; done|].
  apply returns_bind. intros [[]|err].
  - apply returns_bind. intros [resp|err]; [apply returns_bind; done|]. unfold transactionFailed.
    fold (policy_of frame).
    destruct (shouldRetry _ _ _ _ _) as [[[] t] n] eqn:E.
    + apply shouldRetry_progress in E; [|done]. apply returns_bind. intros _.
      destruct (errors_is err SBusCollision); [apply returns_bind; intros token; apply recover_progress|];
        by apply reset_progress.
    + apply returns_bind. intros _. by apply giveUp_progress.
  - unfold arbitrationFailed. fold (policy_of frame).
    destruct (shouldRetry _ _ _ _ _) as [[[] t] n] eqn:E.
    + apply shouldRetry_progress in E; [|done].
      destruct (errors_is err SBusCollision); apply returns_bind; intros token.
      * apply returns_bind. intros _. apply recover_progress. by apply returns_ret.
      * by apply reset_progress.
    + destruct (errors_is err SBusCollision); [|by apply giveUp_progress].
      apply returns_bind. intros token. apply returns_bind. intros _. apply returns_bind. intros _. apply return_progress.
Qed.

Lemma remaining_nonneg p a : within p a -> 0 <= remaining p a.
Proof. unfold within, remaining, rounds_per_session, budget. intros (? & ? & ?). nia. Qed.

Lemma sendLoop_ends frame started rounds attempt a :
  within (policy_of frame) a -> remaining (policy_of frame) a < Z.of_nat rounds ->
  returns (sendLoop unescaped config runCtx reqCtx frame started fuel rounds attempt a) (fun r => r <> None).
Proof.
  revert attempt a. induction rounds as [|rounds IH]; intros attempt a Hw Hlt.
  - pose proof (remaining_nonneg _ _ Hw). lia.
  - cbn [sendLoop]. eapply returns_bind_dep; [by apply sendRound_progress|].
    intros [a'|r|] Hp; [|by apply returns_ret|done]. destruct Hp as [Hw' Hlt']. apply IH; [done|lia].
Qed.
End bound.

(** C14: Without a deadline on the request, and as long as each wait for SYN ends, a
    request is answered after at most (ReconnectRetries + 1) *
    (TimeoutRetries + NACKRetries + 1) attempts, whatever the transport does. *)
Theorem sendWithRetries_ends {W} `{BusEnv W} unescaped config runCtx reqCtx frame fuel rounds s :
  (forall s, (waitForSyn unescaped runCtx reqCtx fuel CollisionRetryResyncSYNCount s).2 <> None) ->
  ctx_HasDeadline reqCtx = false ->
  let p := retryPolicy config (Frame_Type frame) in
  (Z.max 0 (ReconnectRetries config) + 1) *
    (Z.max 0 (TimeoutRetries p) + Z.max 0 (NACKRetries p) + 1) <= Z.of_nat rounds ->
  exists r, (sendWithRetries unescaped config runCtx reqCtx frame fuel rounds s).2 = Some r.
Proof.
  intros Hwait Hctx p Hrounds. unfold sendWithRetries, bind, gets.
  pose proof (sendLoop_ends unescaped config runCtx reqCtx fuel Hwait Hctx frame (time_now s.2) rounds 0
    (mkAttempts 0 0 0)) as Hends.
  assert (within config (policy_of config frame) (mkAttempts 0 0 0)) as Hw by (unfold within, budget; simpl; lia).
  assert (remaining config (policy_of config frame) (mkAttempts 0 0 0) < Z.of_nat rounds) as Hlt.
  { unfold remaining, rounds_per_session, budget, policy_of. fold p. simpl. nia. }
  specialize (Hends Hw Hlt s). destruct (sendLoop _ _ _ _ _ _ _ _ _ _ s) as [s1 [r|]]; [by exists r|done].
Qed.

(** ** The wrapped error *)

Lemma append_nil_r (a : string) : a +:+ "" = a.
Proof.
  induction a as [|x a IH]; [done|]. change (String x (a +:+ "") = String x a). by rewrite IH.
Qed.

(** Wrapping keeps every classification: the sentinel, the code and category,
    the outcome class reported to observers and the retry reason. *)
Theorem wrapRetryError_transparent err :
  (forall t, errors_is (wrapRetryError err) t = errors_is err t) /\
  NormalizeErrorCode (Some (wrapRetryError err)) = NormalizeErrorCode (Some err) /\
  busOutcomeFromError (Some (wrapRetryError err)) = busOutcomeFromError (Some err) /\
  busRetryReasonFromError (Some (wrapRetryError err)) = busRetryReasonFromError (Some err).
Proof.
  assert (busOutcomeFromError (Some (wrapRetryError err)) = busOutcomeFromError (Some err)) as Ho.
  { unfold busOutcomeFromError. change (errors_is (wrapRetryError err) ?t) with (errors_is err t).
    destruct (errors_is err SBusCollision) eqn:Ec; [|done].
    assert (containsEchoMismatch (Some (wrapRetryError err)) = containsEchoMismatch (Some err)) as ->; [|done].
    unfold wrapRetryError. rewrite Ec. unfold containsEchoMismatch, stringsContains. cbn [error_string].
    by rewrite append_nil_r, contains_inert by reflexivity. }
  splits; [done|done|exact Ho|]. unfold busRetryReasonFromError. by rewrite Ho.
Qed.

(** * The wait for SYN

    protocol/bus.go, [waitForSyn]: after a collision the bus listens for two SYNs
    of the wire. Bytes of other telegrams that merely decode to 0xAA do not count,
    on any kind of transport. *)

(** What passes on the bus while a request waits: idle SYNs, the bytes of other
    participants' telegrams, and reads that fail without ending the wait. *)
Inductive traffic := IdleSyn | TelegramByte (b : byte) | FailedRead (err : error).

(** The reads it gives: stuffed bytes on a plain transport, logical bytes with
    their provenance on one that unescapes. *)
Definition on_wire (unescaped : bool) (t : traffic) : list read :=
  match t with
  | IdleSyn => [Ok (SymbolSyn, false)]
  | TelegramByte b => if unescaped then [Ok (b, negb (plain_symbol b))] else arriving (escape_symbol b)
  | FailedRead err => [Err err]
  end.

Fixpoint idle_count (ts : list traffic) : nat :=
  match ts with
  | [] => O
  | IdleSyn :: ts' => S (idle_count ts')
  | _ :: ts' => idle_count ts'
  end.

(** Failed reads are timeouts, adapter resets or invalid payloads. *)
Definition tolerable (t : traffic) : Prop :=
  match t with FailedRead err => keeps_listening err = true | _ => True end.

Section wait.
Context (k : kind) (unescaped : bool) (run req : context script).
Context (run_alive : forall w, ctx_Err run w = None) (req_alive : forall w, ctx_Err req w = None).
Context (flagged : unescaped = true -> k_flagged k = true).
#[local] Instance env : BusEnv script := script_env k.

(** One read inside the loop, and what it does to the loop's state. *)
Definition read_step (left' : nat) (prev : bool) (r : read) : option (nat * bool) :=
  match r with
  | Err err => if keeps_listening err then Some (S left', false) else None
  | Ok (raw, e) =>
      if unescaped then Some (if (raw =b SymbolSyn) && negb e then left' else S left', false)
      else if prev then Some (S left', false)
      else if raw =b SymbolEscape then Some (S left', true)
      else Some (if raw =b SymbolSyn then left' else S left', false)
  end.

Lemma exec_readByte_err err : exec (readByte run req) [Err err] [] (Err err).
Proof.
  apply exec_checkContext; [done..|]. apply exec_try_err.
  intros s rest Hr Hw. unfold lift. simpl. unfold sc_read_byte, sc_read. rewrite Hr. simpl.
  eexists. splits; try done. by rewrite app_nil_r.
Qed.

Lemma exec_readByteWithEscape_err err : exec (readByteWithEscape run req sc_read) [Err err] [] (Err err).
Proof.
  apply exec_checkContext; [done..|]. apply exec_try_err.
  intros s rest Hr Hw. unfold lift. simpl. unfold sc_read. rewrite Hr. simpl.
  eexists. splits; try done. by rewrite app_nil_r.
Qed.

Lemma exec_wait_step fuel left' prev r left1 prev1 rs a :
  read_step left' prev r = Some (left1, prev1) ->
  exec (waitForSyn_loop unescaped run req fuel left1 prev1) rs [] a ->
  exec (waitForSyn_loop unescaped run req (S fuel) (S left') prev) (r :: rs) [] a.
Proof.
  intros Hstep Hloop. cbn [waitForSyn_loop].
  apply (exec_seq _ _ [] [] None (r :: rs) []); [| |done|done].
  { apply exec_silent_last; [apply silent_gets| |done|done].
    intros s. unfold contextError, gets. simpl. by rewrite run_alive, req_alive. }
  assert (exec (match (if unescaped then tr_ReadByteWithEscape (BusEnv:=env) else None) with
      | Some flagged => readByteWithEscape run req flagged
      | None => let? raw := readByte run req in ok (raw, false)
      end) [r] [] (match r with Ok (v, e) => Ok (v, e && unescaped) | Err err => Err err end)) as Hread.
  { destruct unescaped.
    - change (tr_ReadByteWithEscape (BusEnv:=env)) with (if k_flagged k then Some sc_read else None).
      rewrite flagged by done. destruct r as [[v e]|err]; [rewrite andb_true_r; by apply exec_readByteWithEscape|].
      apply exec_readByteWithEscape_err.
    - destruct r as [[v e]|err]; [|by apply exec_try_err, exec_readByte_err]. rewrite andb_false_r.
      eapply exec_then; [by apply exec_readByte|apply exec_ret|done|done]. }
  apply (exec_seq _ _ [r] [] _ rs [] _ _ _ Hread); [|done|done]. clear Hread.
  destruct r as [[v e]|err]; simpl in Hstep.
  - destruct unescaped; [rewrite andb_true_r; by injection Hstep as <- <-|].
    destruct prev; [by injection Hstep as <- <-|].
    destruct (v =b SymbolEscape); by injection Hstep as <- <-.
  - destruct (keeps_listening err); [by injection Hstep as <- <-|done].
Qed.

Lemma exec_wait ts fuel :
  ts = [] \/ last ts = Some IdleSyn -> Forall tolerable ts -> (2 * length ts <= fuel)%nat ->
  exec (waitForSyn_loop unescaped run req fuel (idle_count ts) false) (ts ≫= on_wire unescaped) [] (Some (Ok tt)).
Proof.
  revert fuel. induction ts as [|t ts IH]; intros fuel Hlast Htol Hfuel.
  { destruct fuel; apply exec_ret. }
  apply Forall_cons_iff in Htol as [Ht Htol]. simpl in Hfuel.
  destruct fuel as [|[|fuel]]; [lia..|].
  assert (ts = [] \/ last ts = Some IdleSyn) as Hlast'.
  { destruct ts as [|t' ts]; [by left|right]. destruct Hlast as [|Hl]; [done|]. by rewrite last_cons_cons in Hl. }
  assert (t <> IdleSyn -> exists n, idle_count ts = S n) as Hmore.
  { intros Hne. destruct Hlast' as [->|Hl]; [by destruct Hlast as [|[= ->]]|].
    clear -Hl. induction ts as [|t ts IH]; [done|]. destruct ts as [|t' ts].
    - injection Hl as ->. by eexists.
    - rewrite last_cons_cons in Hl. destruct (IH Hl) as [n Hn].
      destruct t; [exists (S n); cbn [idle_count] in *; by rewrite Hn|by exists n..]. }
  assert (forall f, (2 * length ts <= f)%nat ->
    exec (waitForSyn_loop unescaped run req f (idle_count ts) false) (ts ≫= on_wire unescaped) [] (Some (Ok tt)))
    as Hrest by (intros f Hf; by apply IH).
  rewrite bind_cons. destruct t as [|b|err]; cbn [idle_count].
  - cbn [on_wire app]. eapply exec_wait_step; [|apply Hrest; lia]. unfold read_step.
    by assert (unescaped = true \/ unescaped = false) as [-> | ->] by (destruct unescaped; auto).
  - destruct (Hmore ltac:(done)) as [n Hn]. rewrite Hn in *.
    assert (unescaped = true \/ unescaped = false) as [HU|HU] by (destruct unescaped; auto).
    + assert (on_wire unescaped (TelegramByte b) = [Ok (b, negb (plain_symbol b))]) as -> by (simpl; by rewrite HU).
      cbn [app]. eapply exec_wait_step; [|apply Hrest; lia]. unfold read_step. rewrite HU.
      unfold plain_symbol. destruct (byte_eqb_spec b SymbolSyn) as [->|]; done.
    + assert (on_wire unescaped (TelegramByte b) = arriving (escape_symbol b)) as -> by (simpl; by rewrite HU).
      unfold escape_symbol. destruct (byte_eqb_spec b SymbolEscape) as [->|He];
        [|destruct (byte_eqb_spec b SymbolSyn) as [->|Hs]]; cbn [arriving fmap list_fmap app].
      * apply (exec_wait_step _ _ _ _ (S n) true); [unfold read_step; by rewrite HU|].
        apply (exec_wait_step _ _ _ _ (S n) false); [unfold read_step; by rewrite HU|apply Hrest; lia].
      * apply (exec_wait_step _ _ _ _ (S n) true); [unfold read_step; by rewrite HU|].
        apply (exec_wait_step _ _ _ _ (S n) false); [unfold read_step; by rewrite HU|apply Hrest; lia].
      * eapply exec_wait_step; [|apply Hrest; lia]. unfold read_step. rewrite HU.
        apply byte_eqb_neq in He, Hs. by rewrite He, Hs.
  - destruct (Hmore ltac:(done)) as [n Hn]. rewrite Hn in *. simpl in Ht. cbn [on_wire app].
    eapply exec_wait_step; [|apply Hrest; lia]. unfold read_step. by rewrite Ht.
Qed.
End wait.

(** Waiting for [n] SYNs ends exactly at the [n]-th idle SYN: telegram bytes,
    0xAA included, and tolerable read failures are consumed without counting. *)
Theorem waitForSyn_counts_idle_syns k unescaped run req ts fuel s rest :
  (forall w, ctx_Err run w = None) -> (forall w, ctx_Err req w = None) ->
  (unescaped = true -> k_flagged k = true) ->
  Forall tolerable ts -> last ts = Some IdleSyn -> (2 * length ts <= fuel)%nat ->
  sc_writes s.2 = [] -> sc_reads s.2 = (ts ≫= on_wire unescaped) ++ rest ->
  exists s', waitForSyn (H:=script_env k) unescaped run req fuel (idle_count ts) s = (s', Some (Ok tt)) /\
    sc_reads s'.2 = rest /\ sc_written s'.2 = sc_written s.2.
Proof.
  intros Hrun Hreq Hf Htol Hlast Hfuel Hw Hr.
  destruct (exec_wait k unescaped run req Hrun Hreq Hf ts fuel (or_intror Hlast) Htol Hfuel s rest Hr Hw)
    as (s' & E & R & _ & O).
  exists s'. rewrite app_nil_r in O. done.
Qed.
