(* ===== verification/BusExamples.v ===== *)
(** Concrete bus exchanges: the transaction, the echo rules, the retry bound and
    the wait for SYN at inputs where their hypotheses hold. *)

From S2P Require Import Prelude Errors Wire Address.
From S2P Require Import BusEnv Bus BusScript BusTrace BusEcho BusPlain BusRetry.

#[local] Open Scope list_scope.

(** An enhanced adapter with provenance that sends the source in arbitration. *)
Definition enh_kind : kind := mkKind true true (Some true) false true.

(** A plain serial transport. *)
Definition plain_kind : kind := mkKind false false None false true.

Definition alive : context script := mkContext (fun _ => None) false.

Definition reading (reads : list read) : BusState * script :=
  (zero_state, mkScript reads [] [] [] [] [] [] [] 0).

(** A register read of the boiler; the request and the response carry 0xAA. *)
Definition read_register : Frame := mkFrame x10 x08 xb5 x09 [x0d; xaa; x01] FrameTypeUnknown.
Definition register_value : list byte := [xaa; x17].

Definition enh_exchange : list read :=
  arriving_logical (drop 1 (telegram_of read_register) ++ [SymbolAck] ++ slave_segment register_value ++ [SymbolAck])
  ++ [Ok (SymbolSyn, false)].

Example enh_exchange_run :
  (sendTransaction (H:=script_env enh_kind) true alive alive read_register 1 (reading enh_exchange)).2
  = Ok (Some (response_frame read_register register_value)).
Proof. vm_compute. reflexivity. Qed.

Example transaction_succeeds_iff_witness :
  exists r, sc_reads (reading enh_exchange).2 = r ++ [] /\ len (fData read_register) <= 255 /\
    transaction_trace true true read_register false (Some (response_frame read_register register_value)) r
      (drop 1 (telegram_of read_register) ++ [SymbolAck; SymbolSyn]).
Proof.
  apply (transaction_succeeds_iff enh_kind true alive alive read_register 1); [done|done|done|].
  eexists. split; [vm_compute; reflexivity|]. split; vm_compute; reflexivity.
Defined.

Example enh_exchange_delivers_witness :
  exists s', sendTransaction (H:=script_env enh_kind) true alive alive read_register 1 (reading enh_exchange)
      = (s', Ok (Some (response_frame read_register register_value))) /\
    sc_reads s'.2 = [] /\
    sc_written s'.2 = [] ++ drop 1 (telegram_of read_register) ++ [SymbolAck; SymbolSyn].
Proof.
  apply (enh_exchange_delivers enh_kind alive alive read_register 1 register_value (reading enh_exchange) []);
    try reflexivity; vm_compute; done.
Defined.

(** The same exchange on a plain transport: the response is lost. *)
Definition plain_command : list read := arriving (EscapeBytes (telegram_of read_register) ++ [SymbolAck]).

Lemma plain_command_trace :
  command_trace false false read_register 2 true plain_command (EscapeBytes (telegram_of read_register)).
Proof.
  unfold plain_command, arriving. rewrite fmap_app. apply command_ack; [apply sends_plain|].
  by exists [(SymbolAck, false)].
Qed.

Example plain_response_with_syn_times_out_witness :
  exists s' err, sendTransaction (H:=script_env plain_kind) false alive alive read_register 1
      (reading (plain_command ++ arriving (EscapeBytes (slave_segment register_value)) ++ [])) = (s', Err err) /\
    busOutcomeFromError (Some err) = BusOutcomeTimeout.
Proof.
  apply (plain_response_with_syn_times_out plain_kind alive alive read_register 1 register_value
    plain_command (EscapeBytes (telegram_of read_register)) _ []); try reflexivity; try (vm_compute; done).
  - apply plain_command_trace.
  - vm_compute. repeat constructor.
Defined.


(** Two AUTO-SYNs arrive before the echo of a payload 0xAA. *)
Definition auto_syns : BusState * script :=
  reading [Ok (SymbolSyn, false); Ok (SymbolSyn, false); Ok (SymbolSyn, true)].

Example round9_accounting_witness :
  counters (sendRawWithEcho (H:=script_env enh_kind) true alive alive xaa false false auto_syns).1.1
    = counters zero_state \/
  xaa = SymbolSyn /\ false = false /\
    round9_visit (Ok tt) (counters zero_state)
      (counters (sendRawWithEcho (H:=script_env enh_kind) true alive alive xaa false false auto_syns).1.1).
Proof.
  apply (round9_accounting (H:=script_env enh_kind) true alive alive xaa false false auto_syns); [vm_compute; done|].
  vm_compute. reflexivity.
Defined.

(** ** A bus on which every read is an idle SYN *)

#[local] Instance idle_bus : BusEnv unit := {
  tr_ReadByte := fun w => (w, Ok SymbolSyn);
  tr_Write := fun bs w => (w, (len bs, None));
  tr_ReadByteWithEscape := None;
  tr_SignalStructuralSyn := None;
  tr_StartArbitration := None;
  tr_ArbitrationSendsSource := None;
  tr_Reconnect := Some (fun w => (w, None));
  tr_CollisionLifecycle := None;
  on_bus_event := None;
  time_now := fun _ => 0;
  select_wait := fun _ _ _ w => (w, WakeTimer)
}.

Definition idle_ctx : context unit := mkContext (fun _ => None) false.

Example sendWithRetries_ends_witness :
  exists r, (sendWithRetries false DefaultBusConfig idle_ctx idle_ctx read_register 2 8 (zero_state, tt)).2 = Some r.
Proof.
  apply sendWithRetries_ends; [|done|vm_compute; done].
  intros [b []]. destruct b as [? ? ? ? ? []]. vm_compute. done.
Defined.

Example waitForSyn_counts_idle_syns_witness :
  exists s', waitForSyn (H:=script_env plain_kind) false alive alive 12 2
      (reading ([IdleSyn; TelegramByte xaa; TelegramByte xa9; FailedRead (ESentinel STimeout); IdleSyn] ≫= on_wire false))
      = (s', Some (Ok tt)) /\ sc_reads s'.2 = [] /\ sc_written s'.2 = [].
Proof.
  apply (waitForSyn_counts_idle_syns plain_kind false alive alive
    [IdleSyn; TelegramByte xaa; TelegramByte xa9; FailedRead (ESentinel STimeout); IdleSyn] 12);
    try reflexivity; try done; try (simpl; lia). repeat constructor.
Defined.
