(* ===== verification/BusLoop.v ===== *)
(** protocol/bus.go, the bus as a concurrent object: callers of [Send] and
    [RawTransportOp], the priority queue they share under [queueMu], the
    one-slot wake-up channel, and the run loop that serves, closes and drains.
    Each step of the relation is a critical section, a channel operation or a
    stretch of one goroutine that touches nothing the others share. *)

From S2P Require Import Prelude Errors Wire Address.
From S2P Require Import Heap Queue BusEnv Bus BusScript BusTrace BusEcho BusPlain BusRetry.

#[local] Open Scope list_scope.

(** ** Requests and the shared state *)

(** What a caller gets back. *)
Inductive answer :=
| SendAnswer (r : result error (option Frame))
| OpAnswer (err : option error).

(** A request's work: a frame to exchange, or a function on the transport. *)
Inductive request_body (W : Type) :=
| SendFrame (frame : Frame)
| TransportOp (op : W -> W * option error).
Arguments SendFrame {W} _.
Arguments TransportOp {W} _.

(** [busRequest]; [req_id] is its address. *)
Record busRequest (W : Type) := mkRequest {
  req_id : nat;
  req_body : request_body W;
  req_ctx : context W
}.
Arguments mkRequest {W} _ _ _.
Arguments req_id {W} _.
Arguments req_body {W} _.
Arguments req_ctx {W} _.

Definition is_op {W} (r : busRequest W) : bool :=
  match req_body r with TransportOp _ => true | SendFrame _ => false end.

(** The zero [Frame] of a transport operation has source 0. *)
#[export] Instance bus_queue_request {W} : QueueRequest (busRequest W) := {
  request_source r := match req_body r with SendFrame f => fSource f | TransportOp _ => x00 end;
  request_is_transport_op := is_op
}.

(** Where the run loop is. *)
Inductive loop_pc (W : Type) :=
| LoopNotStarted
| LoopDequeue                        (* about to dequeue *)
| LoopWait                           (* in the select on ctx.Done and notify *)
| LoopServe (r : busRequest W)       (* dequeued *)
| LoopStartOp (r : busRequest W)     (* context checked, about to set transportOpStarted *)
| LoopRunOp (r : busRequest W)       (* transportOpStarted set *)
| LoopClose                          (* about to mark the bus closed *)
| LoopDrain
| LoopExit.
Arguments LoopNotStarted {W}.
Arguments LoopDequeue {W}.
Arguments LoopWait {W}.
Arguments LoopServe {W} _.
Arguments LoopStartOp {W} _.
Arguments LoopRunOp {W} _.
Arguments LoopClose {W}.
Arguments LoopDrain {W}.
Arguments LoopExit {W}.

(** Where a call of [Send] or [RawTransportOp] is. *)
Inductive caller_pc :=
| AtEnqueue                          (* checks passed, about to lock the queue *)
| AtNotify                           (* pushed, about to wake the loop *)
| AtSelect                           (* waiting for the answer or the context *)
| AtReceive                          (* the operation has started: waiting for it *)
| Returned (a : answer).

(** [resp] holds the one-slot channels [resp] and [transportOpResp]. *)
Record bus_state (W : Type) := mkBus {
  queue : priorityQueue (busRequest W);
  closed : bool;
  notify : bool;
  opStarted : gset nat;
  resp : gmap nat answer;
  callers : gmap nat (busRequest W * caller_pc);
  invalidFrames : Z;
  pc : loop_pc W;
  world : BusState * W
}.
Arguments mkBus {W} _ _ _ _ _ _ _ _ _.
Arguments queue {W} _.
Arguments closed {W} _.
Arguments notify {W} _.
Arguments opStarted {W} _.
Arguments resp {W} _.
Arguments callers {W} _.
Arguments invalidFrames {W} _.
Arguments pc {W} _.
Arguments world {W} _.

(** [NewBus]. *)
Definition NewBus {W} (w : W) : bus_state W :=
  mkBus newPriorityQueue false false ∅ ∅ ∅ 0 LoopNotStarted (zero_state, w).

Definition defaultQueueCapacity : Z := 64.

(** [outCap] as [NewBus] computes it. *)
Definition queue_capacity (queueCapacity : Z) : Z :=
  if queueCapacity <=? 0 then defaultQueueCapacity else queueCapacity.

(** [context.Background()]. *)
Definition background {W} : context W := mkContext (fun _ => None) false.

Section loop.
Context {W : Type} `{BusEnv W} (unescapedTransport : bool) (config : BusConfig) (outCap : Z).
Context (runCtx : context W) (fuel rounds : nat).
Implicit Types (s : bus_state W) (r : busRequest W).

Definition set_pc (p : loop_pc W) s : bus_state W :=
  mkBus (queue s) (closed s) (notify s) (opStarted s) (resp s) (callers s) (invalidFrames s) p (world s).
Definition set_queue (q : priorityQueue (busRequest W)) s : bus_state W :=
  mkBus q (closed s) (notify s) (opStarted s) (resp s) (callers s) (invalidFrames s) (pc s) (world s).
Definition set_notify (b : bool) s : bus_state W :=
  mkBus (queue s) (closed s) b (opStarted s) (resp s) (callers s) (invalidFrames s) (pc s) (world s).
Definition set_caller r (p : caller_pc) s : bus_state W :=
  mkBus (queue s) (closed s) (notify s) (opStarted s) (resp s) (<[req_id r := (r, p)]> (callers s))
    (invalidFrames s) (pc s) (world s).
Definition set_world (w : BusState * W) s : bus_state W :=
  mkBus (queue s) (closed s) (notify s) (opStarted s) (resp s) (callers s) (invalidFrames s) (pc s) w.
Definition count_invalid s : bus_state W :=
  mkBus (queue s) (closed s) (notify s) (opStarted s) (resp s) (callers s)
    (wrap 64 (invalidFrames s + 1)) (pc s) (world s).
Definition mark_started r s : bus_state W :=
  mkBus (queue s) (closed s) (notify s) ({[req_id r]} ∪ opStarted s) (resp s) (callers s) (invalidFrames s)
    (pc s) (world s).
Definition send_resp r (a : answer) s : bus_state W :=
  mkBus (queue s) (closed s) (notify s) (opStarted s) (<[req_id r := a]> (resp s)) (callers s)
    (invalidFrames s) (pc s) (world s).
Definition take_resp r s : bus_state W :=
  mkBus (queue s) (closed s) (notify s) (opStarted s) (delete (req_id r) (resp s)) (callers s)
    (invalidFrames s) (pc s) (world s).
Definition markClosed s : bus_state W :=
  mkBus (queue s) true (notify s) (opStarted s) (resp s) (callers s) (invalidFrames s) (pc s) (world s).

(** An error as the caller of [r] sees it. *)
Definition refusal r (err : error) : answer :=
  if is_op r then OpAnswer (Some err) else SendAnswer (Err err).

(** ** The callers *)

(** [Send] and [RawTransportOp] up to the lock; a nil context is the background. *)
Definition Send (id : nat) (ctx : option (context W)) (frame : Frame) s : bus_state W :=
  let ctx := default background ctx in
  let r := mkRequest id (SendFrame frame) ctx in
  match ctx_Err ctx (world s).2 with
  | Some err => set_caller r (Returned (SendAnswer (Err err))) s
  | None =>
      match Frame_Validate frame with
      | Some err => set_caller r (Returned (SendAnswer (Err err))) (count_invalid s)
      | None => set_caller r AtEnqueue s
      end
  end.

Definition RawTransportOp (id : nat) (ctx : option (context W)) (fn : option (W -> W * option error)) s
    : bus_state W :=
  let ctx := default background ctx in
  let r := mkRequest id (TransportOp (default (fun w => (w, None)) fn)) ctx in
  match ctx_Err ctx (world s).2 with
  | Some err => set_caller r (Returned (OpAnswer (Some err))) s
  | None =>
      match fn with
      | None => set_caller r (Returned (OpAnswer (Some (EOther "ebus: raw transport op function is nil")))) s
      | Some _ => set_caller r AtEnqueue s
      end
  end.

(** The critical section of both. *)
Definition enqueue r s : bus_state W :=
  if closed s then set_caller r (Returned (refusal r (ESentinel STransportClosed))) s
  else if outCap <=? Z.of_nat (Len (queue s)) then set_caller r (Returned (refusal r (ESentinel SQueueFull))) s
  else set_caller r AtNotify (set_queue (push (queue s) r) s).

(** [select { case b.notify <- struct{}{}: default: }]. *)
Definition wake_loop r s : bus_state W := set_caller r AtSelect (set_notify true s).

(** The context is done: return, or wait for an operation that has started. *)
Definition abandon r (err : error) s : bus_state W :=
  if is_op r && bool_decide (req_id r ∈ opStarted s) then set_caller r AtReceive s
  else set_caller r (Returned (refusal r err)) s.

(** ** The run loop *)

(** [Run]; [started] is the loop having left [LoopNotStarted]. *)
Definition Run s : bus_state W :=
  match pc s with LoopNotStarted => set_pc LoopDequeue s | _ => s end.

Definition dequeue s : option (busRequest W * bus_state W) :=
  '(r, q) ← pop (queue s); Some (r, set_queue q s).

Definition next_request s : bus_state W :=
  match dequeue s with
  | Some (r, s') => set_pc (LoopServe r) s'
  | None => set_pc LoopWait s
  end.

(** One turn of [drainQueue]: the request it answers, if any. *)
Definition drainQueue_turn s : option (busRequest W) * bus_state W :=
  match dequeue s with
  | Some (r, s') => (Some r, send_resp r (refusal r (ESentinel STransportClosed)) s')
  | None => (None, set_pc LoopExit s)
  end.

(** Steps, labelled by what the channels see. *)
Inductive label := Quiet | Delivered (id : nat) (a : answer) | Ended (id : nat) (a : answer) | OpRan (id : nat).

Inductive bus_step : bus_state W -> label -> bus_state W -> Prop :=
| step_send id ctx frame s :
    callers s !! id = None -> bus_step s Quiet (Send id ctx frame s)
| step_op id ctx fn s :
    callers s !! id = None -> bus_step s Quiet (RawTransportOp id ctx fn s)
| step_enqueue r s :
    callers s !! req_id r = Some (r, AtEnqueue) -> q_seq (queue s) < 2 ^ 64 - 1 ->
    bus_step s Quiet (enqueue r s)
| step_notify r s :
    callers s !! req_id r = Some (r, AtNotify) -> bus_step s Quiet (wake_loop r s)
| step_receive r p a s :
    callers s !! req_id r = Some (r, p) -> p = AtSelect \/ p = AtReceive ->
    resp s !! req_id r = Some a ->
    bus_step s (Ended (req_id r) a) (set_caller r (Returned a) (take_resp r s))
| step_abandon r err s :
    callers s !! req_id r = Some (r, AtSelect) -> ctx_Err (req_ctx r) (world s).2 = Some err ->
    bus_step s Quiet (abandon r err s)
| step_run s : bus_step s Quiet (Run s)
| step_dequeue s : pc s = LoopDequeue -> bus_step s Quiet (next_request s)
| step_woken s :
    pc s = LoopWait -> notify s = true -> bus_step s Quiet (set_pc LoopDequeue (set_notify false s))
| step_stop s err :
    pc s = LoopWait -> ctx_Err runCtx (world s).2 = Some err -> bus_step s Quiet (set_pc LoopClose s)
| step_frame r frame res w s :
    pc s = LoopServe r -> req_body r = SendFrame frame -> resp s !! req_id r = None ->
    handleRequest unescapedTransport config runCtx (req_ctx r) frame fuel rounds (world s) = (w, Some res) ->
    bus_step s (Delivered (req_id r) (SendAnswer res))
      (set_pc LoopDequeue (send_resp r (SendAnswer res) (set_world w s)))
| step_op_refused r err s :
    pc s = LoopServe r -> is_op r = true -> resp s !! req_id r = None ->
    (contextError runCtx (req_ctx r) (world s)).2 = Some err ->
    bus_step s (Delivered (req_id r) (OpAnswer (Some err)))
      (set_pc LoopDequeue (send_resp r (OpAnswer (Some err)) s))
| step_op_checked r s :
    pc s = LoopServe r -> is_op r = true -> (contextError runCtx (req_ctx r) (world s)).2 = None ->
    bus_step s Quiet (set_pc (LoopStartOp r) s)
| step_op_started r s :
    pc s = LoopStartOp r -> bus_step s (OpRan (req_id r)) (set_pc (LoopRunOp r) (mark_started r s))
| step_op_done r op w err s :
    pc s = LoopRunOp r -> req_body r = TransportOp op -> resp s !! req_id r = None ->
    op (world s).2 = (w, err) ->
    bus_step s (Delivered (req_id r) (OpAnswer err))
      (set_pc LoopDequeue (send_resp r (OpAnswer err) (set_world ((world s).1, w) s)))
| step_close s : pc s = LoopClose -> bus_step s Quiet (set_pc LoopDrain (markClosed s))
| step_drain r s s' :
    pc s = LoopDrain -> drainQueue_turn s = (Some r, s') -> resp s !! req_id r = None ->
    bus_step s (Delivered (req_id r) (refusal r (ESentinel STransportClosed))) s'
| step_drained s s' : pc s = LoopDrain -> drainQueue_turn s = (None, s') -> bus_step s Quiet s'
| step_world w s : bus_step s Quiet (set_world ((world s).1, w) s).

End loop.

(** ** The ledger of requests *)

(** The requests the bus still owes an answer: in the loop's hand or queued. *)
Definition queued {W} (s : bus_state W) : list (busRequest W) := e_request <$> content (queue s).
Definition in_hand {W} (p : loop_pc W) : list (busRequest W) :=
  match p with LoopServe r | LoopStartOp r | LoopRunOp r => [r] | _ => [] end.
Definition pending {W} (s : bus_state W) : list (busRequest W) := in_hand (pc s) ++ queued s.

(** A caller that has pushed its request and not returned. *)
Definition waiting (p : caller_pc) : Prop := p = AtNotify \/ p = AtSelect \/ p = AtReceive.

Section ledger.
Context {W : Type}.
Implicit Types (pend : list (busRequest W)) (chans : gmap nat answer) (cs : gmap nat (busRequest W * caller_pc)).

(** Owed requests are distinct, belong to a caller past its enqueue and have an
    empty channel; a waiting caller is owed an answer or has one. *)
Record ledger pend chans cs : Prop := {
  ledger_nodup : NoDup (req_id <$> pend);
  ledger_owed r : r ∈ pend ->
    chans !! req_id r = None /\ exists p, cs !! req_id r = Some (r, p) /\ p <> AtEnqueue;
  ledger_chan id a : chans !! id = Some a -> exists r p, cs !! id = Some (r, p) /\ p <> AtEnqueue;
  ledger_id id r p : cs !! id = Some (r, p) -> req_id r = id;
  ledger_waiting id r p : cs !! id = Some (r, p) -> waiting p -> r ∈ pend \/ is_Some (chans !! id)
}.

Lemma ledger_perm pend pend' chans cs : pend ≡ₚ pend' -> ledger pend chans cs -> ledger pend' chans cs.
Proof.
  intros Hp [A B C D E]. split; [by rewrite <- Hp| |done|done|].
  - intros r Hr. apply B. by rewrite Hp.
  - intros id r p Hc Hw. rewrite <- Hp. by apply (E id r p).
Qed.

(** A call appears, or returns without having pushed. *)
Lemma ledger_outside pend chans cs r p :
  ledger pend chans cs -> ~ waiting p ->
  cs !! req_id r = None /\ p = AtEnqueue \/ (cs !! req_id r = None \/ cs !! req_id r = Some (r, AtEnqueue)) /\ p <> AtEnqueue ->
  ledger pend chans (<[req_id r := (r, p)]> cs).
Proof.
  intros [A B C D E] Hnw Hc. split; [done| | | |].
  - intros r' Hr'. destruct (B r' Hr') as (Hn & p' & Hp' & Hne). split; [done|].
    destruct (decide (req_id r = req_id r')) as [Ei|]; [|exists p'; by rewrite lookup_insert_ne].
    rewrite <- Ei in Hp'. naive_solver.
  - intros id a Ha. destruct (C id a Ha) as (r' & p' & Hp' & Hne).
    destruct (decide (req_id r = id)) as [<-|]; [|exists r', p'; by rewrite lookup_insert_ne]. naive_solver.
  - intros id r' p'. rewrite lookup_insert. case_decide; [by intros [= <- <-]|apply D].
  - intros id r' p'. rewrite lookup_insert. case_decide; [by intros [= <- <-]|apply E].
Qed.

(** The caller of a pushed request goes on. *)
Lemma ledger_moves pend chans cs r p p' :
  ledger pend chans cs -> cs !! req_id r = Some (r, p) -> waiting p -> p' <> AtEnqueue ->
  ledger pend chans (<[req_id r := (r, p')]> cs).
Proof.
  intros [A B C D E] Hc Hw Hne. split; [done| | | |].
  - intros r' Hr'. destruct (B r' Hr') as (Hn & q & Hq & Hqe). split; [done|].
    rewrite lookup_insert. case_decide as Ei; [|by exists q].
    rewrite <- Ei in Hq. exists p'. split; [congruence|done].
  - intros id a Ha. destruct (C id a Ha) as (r' & q & Hq & Hqe). rewrite lookup_insert.
    case_decide; [by exists r, p'|by exists r', q].
  - intros id r' q. rewrite lookup_insert. case_decide; [by intros [= <- <-]|apply D].
  - intros id r' q. rewrite lookup_insert. case_decide; [|apply E].
    intros [= <- <-] _. subst. by apply (E _ _ p).
Qed.

Lemma ledger_push pend chans cs r :
  ledger pend chans cs -> cs !! req_id r = Some (r, AtEnqueue) ->
  ledger (r :: pend) chans (<[req_id r := (r, AtNotify)]> cs).
Proof.
  intros [A B C D E] Hc.
  assert (chans !! req_id r = None) as Hn.
  { destruct (chans !! req_id r) as [a|] eqn:Ea; [|done]. destruct (C _ a Ea) as (r' & p & Hp & Hne).
    naive_solver. }
  assert (forall r', r' ∈ pend -> req_id r <> req_id r') as Hfresh.
  { intros r' Hr' Ei. destruct (B r' Hr') as (_ & p & Hp & Hne). rewrite <- Ei in Hp. naive_solver. }
  split.
  - rewrite fmap_cons. apply NoDup_cons. split; [|done].
    intros (r' & Ei & Hr')%list_elem_of_fmap. by apply (Hfresh r').
  - intros r' [->|Hr']%elem_of_cons; [split; [done|]; exists AtNotify; by rewrite lookup_insert_eq|].
    destruct (B r' Hr') as (? & p & Hp & Hne). split; [done|]. exists p. by rewrite lookup_insert_ne by auto.
  - intros id a Ha. destruct (C id a Ha) as (r' & p & Hp & Hne). rewrite lookup_insert.
    case_decide; [by exists r, AtNotify|by exists r', p].
  - intros id r' p. rewrite lookup_insert. case_decide; [by intros [= <- <-]|apply D].
  - intros id r' p. rewrite lookup_insert. case_decide; [|set_solver].
    intros [= <- <-] _. left. set_solver.
Qed.

Lemma ledger_deliver pend chans cs r a :
  ledger (r :: pend) chans cs -> ledger pend (<[req_id r := a]> chans) cs.
Proof.
  intros [A B C D E]. rewrite fmap_cons, NoDup_cons in A. destruct A as [Hfresh A]. split; [done| | |done|].
  - intros r' Hr'. destruct (B r' ltac:(set_solver)) as (? & ?). split; [|done].
    rewrite lookup_insert_ne; [done|]. intros Ei. apply Hfresh. rewrite Ei. by apply list_elem_of_fmap_2.
  - intros id a'. rewrite lookup_insert. case_decide; [|apply C]. intros _. subst.
    destruct (B r ltac:(set_solver)) as (_ & p & Hp & Hne). by exists r, p.
  - intros id r' p Hc Hw. destruct (E id r' p Hc Hw) as [[->|Hr']%elem_of_cons|Hs]; [|by left|].
    + rewrite (D _ _ _ Hc), lookup_insert_eq. by right.
    + right. rewrite lookup_insert. by case_decide.
Qed.

Lemma ledger_receive pend chans cs r p a :
  ledger pend chans cs -> cs !! req_id r = Some (r, p) -> chans !! req_id r = Some a ->
  ledger pend (delete (req_id r) chans) (<[req_id r := (r, Returned a)]> cs).
Proof.
  intros [A B C D E] Hc Ha. split; [done| | | |].
  - intros r' Hr'. destruct (B r' Hr') as (Hn & q & Hq & Hqe).
    assert (req_id r <> req_id r') by congruence. split; [by rewrite lookup_delete_ne|].
    exists q. by rewrite lookup_insert_ne.
  - intros id a' Hd. apply lookup_delete_Some in Hd as [Hne Hd]. destruct (C id a' Hd) as (r' & q & Hq & Hqe).
    exists r', q. by rewrite lookup_insert_ne.
  - intros id r' q. rewrite lookup_insert. case_decide; [by intros [= <- <-]|apply D].
  - intros id r' q. rewrite lookup_insert. case_decide.
    + intros [= <- <-] [?|[?|?]]; done.
    + intros Hq Hw. destruct (E id r' q Hq Hw) as [?|?]; [by left|]. right. by rewrite lookup_delete_ne.
Qed.
End ledger.

(** ** The queue as a multiset of requests *)

Lemma push_requests {W} (q : priorityQueue (busRequest W)) r :
  queue_ok q -> q_seq q < 2 ^ 64 - 1 ->
  queue_ok (push q r) /\ (e_request <$> content (push q r)) ≡ₚ r :: (e_request <$> content q).
Proof.
  intros Hok Hlt. destruct (push_spec q r Hok Hlt) as (A & B & _). split; [done|]. by rewrite B.
Qed.

Lemma pop_requests {W} (q : priorityQueue (busRequest W)) :
  queue_ok q ->
  match pop q with
  | Some (r, q') => queue_ok q' /\ (e_request <$> content q) ≡ₚ r :: (e_request <$> content q')
  | None => content q = []
  end.
Proof.
  intros Hok. destruct (items q) as [|p l] eqn:Ei.
  - unfold pop, content. by rewrite Ei.
  - destruct (pop_spec q Hok) as (e & q' & -> & A & _ & B & _); [by rewrite Ei|]. split; [done|].
    simpl in B. apply (fmap_Permutation e_request) in B. by rewrite <- list_fmap_compose in B.
Qed.

(** ** The invariant of the bus *)

Record bus_ok {W} (s : bus_state W) : Prop := {
  bo_queue : queue_ok (queue s);
  bo_ledger : ledger (pending s) (resp s) (callers s);
  bo_closed : closed s = true <-> pc s = LoopDrain \/ pc s = LoopExit;
  bo_exit : pc s = LoopExit -> queued s = [];
  bo_wake : pc s = LoopWait ->
    queued s = [] \/ notify s = true \/ exists id r, callers s !! id = Some (r, AtNotify)
}.

(** Some caller has pushed and not yet signalled. *)
Definition signalling {W} (s : bus_state W) : Prop := exists id r, callers s !! id = Some (r, AtNotify).

Lemma signalling_insert {W} (s : bus_state W) r p :
  callers s !! req_id r <> Some (r, AtNotify) ->
  (forall r', callers s !! req_id r = Some (r', AtNotify) -> r' = r) ->
  signalling s -> signalling (set_caller r p s).
Proof.
  intros Hne Heq (id & r' & Hc). destruct (decide (req_id r = id)) as [<-|]; [naive_solver|].
  exists id, r'. simpl. by rewrite lookup_insert_ne.
Qed.

(** A caller's own step: only its entry changes. *)
Lemma bus_ok_caller {W} (s : bus_state W) r p :
  bus_ok s -> ledger (pending s) (resp s) (<[req_id r := (r, p)]> (callers s)) ->
  (forall r', callers s !! req_id r <> Some (r', AtNotify)) -> bus_ok (set_caller r p s).
Proof.
  intros [A B C D E] HL Hne. split; simpl; [done..|].
  intros Hpc. destruct (E Hpc) as [?|[?|?]]; [by left|by right; left|]. right. right.
  apply signalling_insert; [done| |done]. intros r' Hr'. by apply Hne in Hr'.
Qed.

(** The loop delivers the answer of the request it holds. *)
Lemma bus_ok_deliver {W} (s : bus_state W) r a w :
  bus_ok s -> in_hand (pc s) = [r] -> bus_ok (set_pc LoopDequeue (send_resp r a (set_world w s))).
Proof.
  intros [A B C D E] Hh. unfold pending in B. rewrite Hh in B. split; simpl; [done| | |done|done].
  - by apply (ledger_deliver _ _ _ r a) in B.
  - rewrite C. destruct (pc s); simpl in *; try done; by split; intros [?|?].
Qed.

(** The loop moves without touching what it owes. *)
Lemma bus_ok_pc {W} (s : bus_state W) p :
  bus_ok s -> in_hand p = in_hand (pc s) -> closed s = false ->
  p <> LoopDrain -> p <> LoopExit -> p <> LoopWait -> bus_ok (set_pc p s).
Proof.
  intros [A B C D E] Hh Hcl H1 H2 H3. split; simpl; [done| | |done|done].
  - unfold pending in *. simpl. by rewrite Hh.
  - rewrite Hcl. by split; [|intros [?|?]].
Qed.

Lemma bus_ok_open {W} (s : bus_state W) : bus_ok s -> pc s <> LoopDrain -> pc s <> LoopExit -> closed s = false.
Proof.
  intros [_ _ C _ _] ? ?. destruct (closed s); [|done]. destruct C as [C _]. by destruct (C eq_refl).
Qed.

Lemma bus_ok_new {W} (w : W) : bus_ok (NewBus w).
Proof.
  split; simpl; [apply new_queue_ok| |by split; [|intros [?|?]]|done|done].
  split; simpl; [constructor|intros ? Hin; by apply elem_of_nil in Hin|by intros ? ?|by intros ? ?|by intros ? ?].
Qed.

(** The closed flag of a bus that is not draining. *)
Ltac still_open :=
  match goal with Hcl : closed _ = false |- _ => rewrite Hcl; split; [done|by intros [?|?]] end.

Section invariant.
Context {W : Type} `{BusEnv W} (unescaped : bool) (config : BusConfig) (outCap : Z).
Context (runCtx : context W) (fuel rounds : nat).
Implicit Types (s : bus_state W) (r : busRequest W).

Lemma Send_ok id ctx frame s :
  bus_ok s -> callers s !! id = None -> bus_ok (Send id ctx frame s).
Proof.
  intros Hok Hc. unfold Send. case_match; [|case_match].
  - apply bus_ok_caller; [done| |simpl; congruence]. apply ledger_outside; [apply Hok|by intros [?|[?|?]]|simpl; naive_solver].
  - apply bus_ok_caller; [by destruct Hok| |simpl; congruence].
    apply ledger_outside; [apply Hok|by intros [?|[?|?]]|simpl; naive_solver].
  - apply bus_ok_caller; [done| |simpl; congruence]. apply ledger_outside; [apply Hok|by intros [?|[?|?]]|simpl; naive_solver].
Qed.

Lemma RawTransportOp_ok id ctx fn s :
  bus_ok s -> callers s !! id = None -> bus_ok (RawTransportOp id ctx fn s).
Proof.
  intros Hok Hc. unfold RawTransportOp. destruct (ctx_Err _ _); [|destruct fn];
    (apply bus_ok_caller; [done| |simpl; congruence]; apply ledger_outside; [apply Hok|by intros [?|[?|?]]|simpl; naive_solver]).
Qed.

Lemma enqueue_ok r s :
  bus_ok s -> callers s !! req_id r = Some (r, AtEnqueue) -> q_seq (queue s) < 2 ^ 64 - 1 ->
  bus_ok (enqueue outCap r s).
Proof.
  intros Hok Hc Hlt. unfold enqueue. destruct (closed s) eqn:Ecl; [|case_match].
  - apply bus_ok_caller; [done| |congruence]. apply ledger_outside; [apply Hok|by intros [?|[?|?]]|naive_solver].
  - apply bus_ok_caller; [done| |congruence]. apply ledger_outside; [apply Hok|by intros [?|[?|?]]|naive_solver].
  - destruct Hok as [A B C D E]. destruct (push_requests (queue s) r A Hlt) as [Hq Hp].
    split; simpl; [done| |done| |].
    + eapply ledger_perm; [|apply ledger_push; [exact B|done]]. unfold pending, queued. simpl. rewrite Hp.
      by rewrite Permutation_middle.
    + intros Hx. rewrite Ecl in C. destruct C as [_ C]. discriminate C. by right.
    + intros _. right. right. exists (req_id r), r. simpl. by rewrite lookup_insert_eq.
Qed.

Lemma wake_loop_ok r s :
  bus_ok s -> callers s !! req_id r = Some (r, AtNotify) -> bus_ok (wake_loop r s).
Proof.
  intros [A B C D E] Hc. split; simpl; [done| |done|done|by right; left].
  eapply ledger_moves; [done|done|by left|done].
Qed.

Lemma abandon_ok r err s :
  bus_ok s -> callers s !! req_id r = Some (r, AtSelect) -> bus_ok (abandon r err s).
Proof.
  intros Hok Hc. unfold abandon.
  destruct (is_op r && bool_decide (req_id r ∈ opStarted s)); (apply bus_ok_caller; [done| |congruence];
    eapply ledger_moves; [apply Hok|exact Hc|by right; left|done]).
Qed.

Lemma receive_ok r p a s :
  bus_ok s -> callers s !! req_id r = Some (r, p) -> p = AtSelect \/ p = AtReceive ->
  resp s !! req_id r = Some a -> bus_ok (set_caller r (Returned a) (take_resp r s)).
Proof.
  intros [A B C D E] Hc Hp Ha. split; simpl; [done|by eapply ledger_receive|done|done|].
  intros Hpc. destruct (E Hpc) as [?|[?|Hs]]; [by left|by right; left|]. right. right.
  apply signalling_insert; [simpl; naive_solver..|exact Hs].
Qed.

Lemma next_request_ok s : bus_ok s -> pc s = LoopDequeue -> bus_ok (next_request s).
Proof.
  intros Hok Hpc. pose proof (bus_ok_open s Hok ltac:(congruence) ltac:(congruence)) as Hcl.
  unfold next_request, dequeue. pose proof (pop_requests (queue s) (bo_queue s Hok)) as Hpop.
  destruct Hok as [A B C D E]. destruct (pop (queue s)) as [[r q]|]; simpl in *.
  - destruct Hpop as [Hq Hp]. split; simpl; [done| |still_open|done|done].
    eapply ledger_perm; [|exact B]. unfold pending, queued. rewrite Hpc. simpl. by rewrite Hp.
  - split; simpl; [done| |still_open|done|].
    + unfold pending in *. by rewrite Hpc in B.
    + intros _. left. unfold queued. simpl. by rewrite Hpop.
Qed.

Lemma drain_ok s : bus_ok s -> pc s = LoopDrain -> bus_ok (drainQueue_turn s).2.
Proof.
  intros [A B C D E] Hpc. unfold drainQueue_turn, dequeue. pose proof (pop_requests (queue s) A) as Hpop.
  destruct (pop (queue s)) as [[r q]|]; simpl in *.
  - destruct Hpop as [Hq Hp]. split; simpl; [done| |done|congruence|congruence].
    apply (ledger_deliver _ _ _ r). eapply ledger_perm; [|exact B].
    unfold pending, queued. simpl. rewrite Hpc. simpl. by rewrite Hp.
  - split; simpl; [done| | |intros _; unfold queued; simpl; by rewrite Hpop|done].
    + unfold pending in *. by rewrite Hpc in B.
    + rewrite C, Hpc. split; [by right|by left].
Qed.

Lemma bus_step_ok s l s' :
  bus_ok s -> bus_step unescaped config outCap runCtx fuel rounds s l s' -> bus_ok s'.
Proof.
  intros Hok Hst. destruct Hst as [id ctx frame s Hc|id ctx fn s Hc|r s Hc Hlt|r s Hc|r p a s Hc Hp Ha|r err s Hc _|s|s Hpc|s Hpc Hn|s err Hpc _|r frame res w s Hpc _ _ _|r err s Hpc _ _ _|r s Hpc _ _|r s Hpc|r op w err s Hpc _ _ _|s Hpc|r s s' Hpc Hd _|s s' Hpc Hd|w s].
  - by apply Send_ok.
  - by apply RawTransportOp_ok.
  - by apply enqueue_ok.
  - by apply wake_loop_ok.
  - by apply (receive_ok r p).
  - by apply abandon_ok.
  - unfold Run. destruct (pc s) eqn:Hpc; try done. apply bus_ok_pc; try done; [by rewrite Hpc|].
    apply bus_ok_open; congruence.
  - by apply next_request_ok.
  - pose proof (bus_ok_open s Hok ltac:(congruence) ltac:(congruence)) as Hcl.
    destruct Hok as [A B C D E]. split; simpl; [done| |still_open|done|done].
    unfold pending in *. by rewrite Hpc in B.
  - apply bus_ok_pc; try done; [by rewrite Hpc|apply bus_ok_open; congruence].
  - apply bus_ok_deliver; [done|by rewrite Hpc].
  - pose proof (bus_ok_deliver s r (OpAnswer (Some err)) (world s) Hok ltac:(by rewrite Hpc)) as Hd. by destruct s.
  - apply bus_ok_pc; try done; [by rewrite Hpc|apply bus_ok_open; congruence].
  - pose proof (bus_ok_pc s (LoopRunOp r) Hok ltac:(by rewrite Hpc) (bus_ok_open s Hok ltac:(congruence) ltac:(congruence))
      ltac:(done) ltac:(done) ltac:(done)) as [A B C D E]. by split.
  - apply bus_ok_deliver; [done|by rewrite Hpc].
  - destruct Hok as [A B C D E]. split; simpl; [done| |by split; [left|]|done|done].
    unfold pending in *. by rewrite Hpc in B.
  - pose proof (drain_ok s Hok Hpc) as HD. by rewrite Hd in HD.
  - pose proof (drain_ok s Hok Hpc) as HD. by rewrite Hd in HD.
  - destruct Hok. by split.
Qed.

Lemma reachable_ok w ls s :
  steps (bus_step unescaped config outCap runCtx fuel rounds) (NewBus w) ls s -> bus_ok s.
Proof.
  intros Hs. eapply steps_invariant; [|exact Hs|apply bus_ok_new]. intros; by eapply bus_step_ok.
Qed.
End invariant.

(** ** Deliveries *)

Section deliveries.
Context {W : Type} `{BusEnv W} (unescaped : bool) (config : BusConfig) (outCap : Z).
Context (runCtx : context W) (fuel rounds : nat).
Implicit Types (s : bus_state W) (r : busRequest W).
Local Notation step := (bus_step unescaped config outCap runCtx fuel rounds).

(** The request [id] may still be answered: it is owed, or not yet pushed. *)
Definition unanswered s (id : nat) : Prop :=
  id ∈ req_id <$> pending s \/ callers s !! id = None \/ exists r, callers s !! id = Some (r, AtEnqueue).

Definition delivers (id : nat) (l : label) : Prop := match l with Delivered i _ => i = id | _ => False end.
#[local] Instance delivers_dec id l : Decision (delivers id l).
Proof. destruct l; simpl; apply _. Defined.

Definition deliveries (id : nat) (ls : list label) : nat := length (filter (delivers id) ls).

Lemma unanswered_caller s r p id :
  callers s !! req_id r = None \/ p <> AtEnqueue ->
  unanswered (set_caller r p s) id -> unanswered s id.
Proof.
  intros Hp [Hin|[Hn|[r' Hr']]]; [by left| |].
  - simpl in Hn. rewrite lookup_insert in Hn. case_decide; [done|]. by right; left.
  - simpl in Hr'. rewrite lookup_insert in Hr'. case_decide as Ei; [|by right; right; exists r'].
    simplify_eq. destruct Hp as [Hp|]; [|done]. by right; left.
Qed.

Lemma unanswered_dequeue s r s' :
  queue_ok (queue s) -> dequeue s = Some (r, s') ->
  queued s ≡ₚ r :: queued s' /\ callers s' = callers s /\ resp s' = resp s /\ pc s' = pc s.
Proof.
  intros Hok. unfold dequeue. pose proof (pop_requests (queue s) Hok) as Hp.
  destruct (pop (queue s)) as [[r' q]|]; [|done]. intros [= -> <-]. by destruct Hp.
Qed.

(** A delivery uses the request up, and no step makes one answerable again. *)
Lemma step_unanswered s l s' id :
  bus_ok s -> step s l s' ->
  (unanswered s' id -> unanswered s id) /\
  (forall a, l = Delivered id a -> unanswered s id /\ ~ unanswered s' id).
Proof.
  intros Hok Hst.
  assert (forall r a w s2, id = req_id r -> r ∈ pending s -> callers s2 = callers s ->
    pending s ≡ₚ r :: pending s2 ->
    unanswered s id /\ ~ unanswered (set_world w (send_resp r a s2)) id) as Hdel.
  { intros r a w s2 -> Hin Hc Hp. pose proof (bo_ledger s Hok) as HL.
    destruct (ledger_owed _ _ _ HL r Hin) as (_ & p & Hcp & Hne). split; [left; by apply list_elem_of_fmap_2|].
    intros [Hin'|[Hn|[r' Hr']]].
    - pose proof (ledger_nodup _ _ _ HL) as Hnd. rewrite Hp, fmap_cons, NoDup_cons in Hnd.
      by destruct Hnd.
    - simpl in Hn. congruence.
    - simpl in Hr'. rewrite Hc in Hr'. naive_solver. }
  assert (forall r a w, pc s = LoopServe r \/ pc s = LoopRunOp r ->
    (unanswered (set_pc LoopDequeue (send_resp r a (set_world w s))) id -> unanswered s id) /\
    (forall i a', Delivered (req_id r) a = Delivered i a' -> i = id ->
       unanswered s id /\ ~ unanswered (set_pc LoopDequeue (send_resp r a (set_world w s))) id)) as Hserve.
  { intros r a w Hpc. split.
    - intros [Hin|Hx]; [|by right]. left. unfold pending in *. simpl in Hin. set_solver.
    - intros i a' [= <- <-] Hi. apply (Hdel r a w (set_pc LoopDequeue s)); [done| |done|].
      + unfold pending. destruct Hpc as [->| ->]; simpl; set_solver.
      + unfold pending. by destruct Hpc as [->| ->]. }
  destruct Hst as [i ctx frame s Hc|i ctx fn s Hc|r s Hc Hlt|r s Hc|r p a s Hc Hp Ha|r err s Hc _|s|s Hpc|s Hpc Hn|s err Hpc _|r frame res w s Hpc _ _ _|r err s Hpc _ _ _|r s Hpc _ _|r s Hpc|r op w err s Hpc _ _ _|s Hpc|r s s' Hpc Hd _|s s' Hpc Hd|w s];
    try (split; [|done]).
  - unfold Send. destruct (ctx_Err _ _); [|destruct (Frame_Validate frame)].
    + apply unanswered_caller. by right.
    + intros Hu. by apply unanswered_caller in Hu; [|right].
    + apply unanswered_caller. by left.
  - unfold RawTransportOp. destruct (ctx_Err _ _); [|destruct fn]; apply unanswered_caller; [by right|by left|by right].
  - unfold enqueue. destruct (closed s); [apply unanswered_caller; by right|]. case_match; [apply unanswered_caller; by right|].
    intros Hu. apply unanswered_caller in Hu; [|by right]. destruct Hu as [Hin|Hx]; [|by right].
    destruct (push_requests (queue s) r (bo_queue s Hok) Hlt) as [_ Hp].
    unfold pending, queued in Hin. simpl in Hin. rewrite Hp, <- Permutation_middle, fmap_cons in Hin.
    apply elem_of_cons in Hin as [->|Hin]; [right; right; by exists r|by left].
  - intros Hu. apply unanswered_caller in Hu; [|by right]. exact Hu.
  - intros Hu. apply unanswered_caller in Hu; [|by right]. exact Hu.
  - unfold abandon. destruct (is_op r && bool_decide (req_id r ∈ opStarted s)); apply unanswered_caller; by right.
  - unfold Run. destruct (pc s) eqn:Hpc; try done. intros [Hin|Hx]; [|by right]. left. unfold pending in *. by rewrite Hpc.
  - unfold next_request. destruct (dequeue s) as [[r s1]|] eqn:Hd.
    + destruct (unanswered_dequeue s r s1 (bo_queue s Hok) Hd) as (Hq & Hcs & _ & Hpc').
      intros [Hin|Hx]; [|right; simpl in Hx; by rewrite Hcs in Hx]. left.
      unfold pending in *. rewrite Hpc. simpl in *. by rewrite Hq.
    + intros [Hin|Hx]; [|by right]. left. unfold pending in *. by rewrite Hpc.
  - intros [Hin|Hx]; [|by right]. left. unfold pending in *. by rewrite Hpc.
  - intros [Hin|Hx]; [|by right]. left. unfold pending in *. by rewrite Hpc.
  - destruct (Hserve r (SendAnswer res) w (or_introl Hpc)) as [A B]. split; [done|].
    intros a E. exact (B id a E eq_refl).
  - destruct (Hserve r (OpAnswer (Some err)) (world s) (or_introl Hpc)) as [A B].
    assert (set_world (world s) s = s) as Es by by destruct s. rewrite Es in *. split; [done|].
    intros a E. exact (B id a E eq_refl).
  - intros [Hin|Hx]; [|by right]. left. unfold pending in *. by rewrite Hpc.
  - intros [Hin|Hx]; [|by right]. left. unfold pending in *. by rewrite Hpc.
  - destruct (Hserve r (OpAnswer err) ((world s).1, w) (or_intror Hpc)) as [A B]. split; [done|].
    intros a E. exact (B id a E eq_refl).
  - intros [Hin|Hx]; [|by right]. left. unfold pending in *. by rewrite Hpc.
  - unfold drainQueue_turn in Hd. destruct (dequeue s) as [[r' s1]|] eqn:Hq; [|done]. simplify_eq.
    destruct (unanswered_dequeue s r s1 (bo_queue s Hok) Hq) as (Hp & Hcs & _ & Hpc').
    assert (pending s ≡ₚ r :: pending s1) as Hpend by (unfold pending; by rewrite Hpc', Hpc).
    split.
    + intros [Hin|Hx]; [|right; simpl in Hx; by rewrite Hcs in Hx]. left. rewrite Hpend.
      rewrite fmap_cons. by apply elem_of_cons; right.
    + intros a [= Hi <-]. pose proof (Hdel r (refusal r (ESentinel STransportClosed)) (world s1) s1 (eq_sym Hi)
        ltac:(rewrite Hpend; set_solver) Hcs Hpend) as Hres. by destruct s1.
  - unfold drainQueue_turn in Hd. destruct (dequeue s) as [[r' s1]|] eqn:Hq; [done|]. simplify_eq.
    intros [Hin|Hx]; [|by right]. left. unfold pending in *. by rewrite Hpc.
  - done.
Qed.

Lemma deliveries_bound s ls s' id :
  steps step s ls s' -> bus_ok s ->
  (deliveries id ls <= 1)%nat /\ (~ unanswered s id -> deliveries id ls = O).
Proof.
  induction 1 as [s|s l s1 ls s2 Hst _ IH]; intros Hok; [unfold deliveries; simpl; lia|].
  destruct (step_unanswered s l s1 id Hok Hst) as [Hmono Hdel].
  destruct (IH (bus_step_ok _ _ _ _ _ _ _ _ _ Hok Hst)) as [IH1 IH2].
  unfold deliveries in *. rewrite filter_cons. destruct (decide _) as [Hl|Hl].
  - destruct l as [|i a|i a|i]; try done. simpl in Hl. subst i. destruct (Hdel a eq_refl) as [Hu Hnu]. simpl.
    rewrite (IH2 Hnu). split; [lia|done].
  - split; [done|]. intros Hnu. apply IH2. tauto.
Qed.

(** An answer in a channel was delivered there. *)
Lemma step_resp s l s' id a :
  step s l s' -> resp s' !! id = Some a -> resp s !! id = Some a \/ l = Delivered id a.
Proof.
  assert (forall r b s2, resp s2 = resp s -> resp (send_resp r b s2) !! id = Some a ->
    resp s !! id = Some a \/ Delivered (req_id r) b = Delivered id a) as Hsend.
  { intros r b s2 Es Hr. simpl in Hr. rewrite lookup_insert in Hr. case_decide; [right; congruence|].
    left. by rewrite <- Es. }
  destruct 1 as [i ctx frame s Hc|i ctx fn s Hc|r s Hc Hlt|r s Hc|r p b s Hc Hp Ha|r err s Hc _|s|s Hpc|s Hpc Hn|s err Hpc _|r frame res w s Hpc _ _ _|r err s Hpc _ _ _|r s Hpc _ _|r s Hpc|r op w err s Hpc _ _ _|s Hpc|r s s' Hpc Hd _|s s' Hpc Hd|w s];
    try (by left).
  - intros Hr. left. revert Hr. unfold Send. by repeat case_match.
  - intros Hr. left. revert Hr. unfold RawTransportOp. by repeat case_match.
  - intros Hr. left. revert Hr. unfold enqueue. by repeat case_match.
  - intros Hr. left. simpl in Hr. by apply lookup_delete_Some in Hr as [_ Hr].
  - intros Hr. left. revert Hr. unfold abandon. by case_match.
  - intros Hr. left. revert Hr. unfold Run. by case_match.
  - intros Hr. left. revert Hr. unfold next_request, dequeue. by destruct (pop (queue s)) as [[]|].
  - by apply Hsend.
  - by apply Hsend.
  - by apply Hsend.
  - unfold drainQueue_turn, dequeue in Hd. destruct (pop (queue s)) as [[r' q]|]; simpl in Hd; [|done].
    simplify_eq. by apply Hsend.
  - unfold drainQueue_turn, dequeue in Hd. destruct (pop (queue s)) as [[r' q]|]; simpl in Hd; [done|].
    simplify_eq. by left.
Qed.

(** An answer received was in the channel at first or delivered there. *)
Lemma ended_delivered s ls s' id a :
  steps step s ls s' -> Ended id a ∈ ls -> resp s !! id = Some a \/ Delivered id a ∈ ls.
Proof.
  induction 1 as [s|s l s1 ls s2 Hst _ IH]; [by intros ?%elem_of_nil|].
  intros [<-|Hin]%elem_of_cons; [left; inversion Hst; congruence|].
  destruct (IH Hin) as [Hr|Hd]; [|right; by apply elem_of_cons; right].
  destruct (step_resp _ _ _ _ _ Hst Hr) as [?| ->]; [by left|right; by apply elem_of_cons; left].
Qed.
End deliveries.

(** ** Theorems *)

(** C20: In every run, a request is answered at most once; what a caller receives is
    what the loop delivered to it; and the channel of a request still owed is
    empty, so the run loop never blocks on delivering an answer. *)
Theorem requests_answered_once {W} `{BusEnv W} unescaped config outCap runCtx fuel rounds w ls s :
  steps (bus_step unescaped config outCap runCtx fuel rounds) (NewBus w) ls s ->
  (forall id, (deliveries id ls <= 1)%nat) /\
  (forall id a, Ended id a ∈ ls -> Delivered id a ∈ ls) /\
  (forall r, r ∈ pending s -> resp s !! req_id r = None).
Proof.
  intros Hs. splits.
  - intros id. by apply (deliveries_bound _ _ _ _ _ _ _ _ _ _ Hs), bus_ok_new.
  - intros id a Hin. by destruct (ended_delivered _ _ _ _ _ _ _ _ _ id a Hs Hin).
  - intros r Hr. by apply (ledger_owed _ _ _ (bo_ledger _ (reachable_ok _ _ _ _ _ _ _ _ _ Hs))).
Qed.

(** C24: Wake-ups are not lost: while the loop sleeps on a non-empty queue, its
    channel holds a signal or a caller is about to send one. *)
Theorem no_lost_wakeup {W} `{BusEnv W} unescaped config outCap runCtx fuel rounds w ls s :
  steps (bus_step unescaped config outCap runCtx fuel rounds) (NewBus w) ls s ->
  pc s = LoopWait -> queued s <> [] -> notify s = true \/ signalling s.
Proof.
  intros Hs Hpc Hne. by destruct (bo_wake _ (reachable_ok _ _ _ _ _ _ _ _ _ Hs) Hpc) as [?|[?|?]]; [|left|right].
Qed.

(** C23: When the loop has exited, the bus is closed, nothing is queued and every
    caller still waiting has its answer in its channel: no call hangs. *)
Theorem shutdown_answers_everyone {W} `{BusEnv W} unescaped config outCap runCtx fuel rounds w ls s :
  steps (bus_step unescaped config outCap runCtx fuel rounds) (NewBus w) ls s -> pc s = LoopExit ->
  closed s = true /\ queued s = [] /\
  forall id r p, callers s !! id = Some (r, p) -> waiting p -> is_Some (resp s !! id).
Proof.
  intros Hs Hpc. destruct (reachable_ok _ _ _ _ _ _ _ _ _ Hs) as [A B C D E].
  splits; [by apply C; right|by apply D|]. intros id r p Hc Hw.
  destruct (ledger_waiting _ _ _ B id r p Hc Hw) as [Hin|?]; [|done].
  unfold pending in Hin. rewrite Hpc, (D Hpc) in Hin. by apply elem_of_nil in Hin.
Qed.

(** ** A transport operation outliving its call *)

(** A bus whose world is whether the caller's context has been cancelled. *)
#[local] Instance cancellable : BusEnv bool := {
  tr_ReadByte := fun w => (w, Err (ESentinel STimeout));
  tr_Write := fun bs w => (w, (len bs, None));
  tr_ReadByteWithEscape := None;
  tr_SignalStructuralSyn := None;
  tr_StartArbitration := None;
  tr_ArbitrationSendsSource := None;
  tr_Reconnect := None;
  tr_CollisionLifecycle := None;
  on_bus_event := None;
  time_now := fun _ => 0;
  select_wait := fun _ _ _ w => (w, WakeTimer)
}.

Definition op_ctx : context bool :=
  mkContext (fun cancelled : bool => if cancelled then Some (ESentinel SContextCanceled) else None) true.

Definition some_op : busRequest bool := mkRequest 0 (TransportOp (fun w => (w, None))) op_ctx.

Local Notation small_step := (bus_step false DefaultBusConfig 64 background 8 8).

(** One step of a concrete run. *)
Tactic Notation "run_step" uconstr(c) := eapply steps_cons; [apply c; vm_compute; reflexivity|].

(** The check of the context and the store of [transportOpStarted] are not
    atomic: a caller whose context ends in between returns the context's error
    and its operation runs on the transport afterwards. *)
Theorem op_can_outlive_its_call :
  exists ls1 s1 ls2 s2,
    steps small_step (NewBus false) ls1 s1 /\
    callers s1 !! 0%nat = Some (some_op, Returned (OpAnswer (Some (ESentinel SContextCanceled)))) /\
    (OpRan 0 ∉ ls1) /\
    steps small_step s1 ls2 s2 /\ (OpRan 0 ∈ ls2).
Proof.
  set (s0 := Run (RawTransportOp 0 (Some op_ctx) (Some (fun w => (w, None))) (NewBus false))).
  set (s1 := set_pc (LoopStartOp some_op) (next_request (wake_loop some_op (enqueue 64 some_op s0)))).
  set (s2 := abandon some_op (ESentinel SContextCanceled) (set_world (zero_state, true) s1)).
  exists (repeat Quiet 8), s2, [OpRan 0], (set_pc (LoopRunOp some_op) (mark_started some_op s2)).
  splits.
  - run_step (step_op (W:=bool) false DefaultBusConfig 64 background 8 8 0 (Some op_ctx) (Some (fun w => (w, None)))).
    eapply steps_cons; [apply step_run|]. fold s0.
    run_step (step_enqueue _ _ _ _ _ _ some_op).
    run_step (step_notify _ _ _ _ _ _ some_op).
    run_step step_dequeue.
    run_step (step_op_checked _ _ _ _ _ _ some_op).
    eapply steps_cons; [apply step_world with (w := true)|].
    run_step (step_abandon _ _ _ _ _ _ some_op).
    constructor.
  - done.
  - intros Hin. apply list_elem_of_In, repeat_spec in Hin. done.
  - run_step (step_op_started (W:=bool) false DefaultBusConfig 64 background 8 8 some_op). constructor.
  - by left.
Qed.

(** ** Concrete runs *)

Definition read_it : Frame := mkFrame x10 x08 xb5 x09 [x0d] FrameTypeUnknown.
Definition read_request : busRequest bool := mkRequest 0 (SendFrame read_it) background.
Definition pushed : bus_state bool := enqueue 64 read_request (Send 0 None read_it (NewBus false)).

Lemma pushed_run : steps small_step (NewBus false) [Quiet; Quiet] pushed.
Proof.
  run_step (step_send _ _ _ _ _ _ 0 None read_it).
  run_step (step_enqueue _ _ _ _ _ _ read_request). constructor.
Qed.

Example requests_answered_once_witness :
  (deliveries 0 [Quiet; Quiet] <= 1)%nat /\ resp pushed !! 0%nat = None.
Proof.
  destruct (requests_answered_once false DefaultBusConfig 64 background 8 8 false _ _ pushed_run) as (A & _ & B).
  split; [apply A|]. apply (B read_request). vm_compute. by left.
Defined.

(** The loop sleeps, a request is pushed: its caller is about to signal. *)
Definition sleeping : bus_state bool := next_request (Run (NewBus false)).
Definition pushed_asleep : bus_state bool := enqueue 64 read_request (Send 0 None read_it sleeping).

Lemma pushed_asleep_run : steps small_step (NewBus false) (repeat Quiet 4) pushed_asleep.
Proof.
  eapply steps_cons; [apply step_run|].
  run_step step_dequeue.
  run_step (step_send _ _ _ _ _ _ 0 None read_it).
  run_step (step_enqueue _ _ _ _ _ _ read_request). constructor.
Qed.

Example no_lost_wakeup_witness : notify pushed_asleep = true \/ signalling pushed_asleep.
Proof.
  apply (no_lost_wakeup false DefaultBusConfig 64 background 8 8 false _ _ pushed_asleep_run);
    vm_compute; [reflexivity|discriminate].
Defined.

(** The run context ends while the loop sleeps on a queue just filled. *)
Definition stopping : context bool := mkContext (fun _ => Some (ESentinel SContextCanceled)) false.
Definition drained : bus_state bool :=
  (drainQueue_turn (drainQueue_turn (set_pc LoopDrain (markClosed (set_pc LoopClose pushed_asleep)))).2).2.

Lemma drained_run :
  steps (bus_step false DefaultBusConfig 64 stopping 8 8) (NewBus false)
    (repeat Quiet 6 ++ [Delivered 0 (SendAnswer (Err (ESentinel STransportClosed))); Quiet]) drained.
Proof.
  eapply steps_cons; [apply step_run|].
  run_step step_dequeue.
  run_step (step_send _ _ _ _ _ _ 0 None read_it).
  run_step (step_enqueue _ _ _ _ _ _ read_request).
  run_step (step_stop _ _ _ _ _ _ _ (ESentinel SContextCanceled)).
  run_step step_close.
  run_step (step_drain _ _ _ _ _ _ read_request).
  run_step step_drained. constructor.
Qed.

Example shutdown_answers_everyone_witness : is_Some (resp drained !! 0%nat).
Proof.
  destruct (shutdown_answers_everyone false DefaultBusConfig 64 stopping 8 8 false _ _ drained_run) as (_ & _ & A);
    [reflexivity|].
  apply (A 0%nat read_request AtNotify); [vm_compute; reflexivity|by left].
Defined.
