(* ===== verification/SourceSelect.v ===== *)
(** protocol/source_address_selection.go: choosing the address a gateway sends
    from. A selector listens to the bus for a warm-up window, may provoke
    traffic with an inquiry and listen again, merges what it saw with evidence
    learned elsewhere, and takes the first candidate row whose source and
    companion addresses are not occupied. *)

From S2P Require Import Prelude Errors Wire Address.
From S2P Require Import BusEnv.
From stdpp Require Import sorting.

#[local] Open Scope string_scope.
#[local] Open Scope list_scope.
#[local] Open Scope Z_scope.

(** ** Constants (durations in nanoseconds) *)

Definition defaultSourceAddressListenWarmup : Z := 5 * 1000000000.
Definition defaultSourceAddressInquiryCooldown : Z := 60 * 1000000000.
Definition defaultSourceAddressInquiryMaxAttempts : Z := 3.
Definition defaultSourceAddressInquiryFollowupWindow : Z := 1500 * 1000000.
Definition defaultSourceAddressLikelyTargetSourceMin : Z := 2.
Definition defaultSourceAddressLikelyTargetTargetMin : Z := 2.
Definition defaultSourceAddressTopTalkerCount : Z := 8.
Definition SourceAddressTableAnchor : string := "#ebus-source-address-table-v1".
Definition SourceAddressTableVersion : string := "ebus-source-address-table/v1".
Definition SourceAddressTableHash : string :=
  "e78954445087f63064818ab60a2739b9a6b9bf0ae0147fbe92aac5ac76592103".

(** ** The policy and the arbitration order *)

Definition helianthusGatewayDefaultPolicyV1 : list byte :=
  [xff; x7f; x3f; x1f; xf7; x77; x37; x17; x07; x11; x31; x00].

Definition SourceAddressTableRows : list SourceAddressTableRow := sourceAddressTableV1.
Definition HelianthusGatewayDefaultPolicy : list byte := helianthusGatewayDefaultPolicyV1.

Definition sourceAddressPriorityRank (priority : string) : Z :=
  if String.eqb priority SourceAddressPriorityP0 then 0
  else if String.eqb priority SourceAddressPriorityP1 then 1
  else if String.eqb priority SourceAddressPriorityP2 then 2
  else if String.eqb priority SourceAddressPriorityP3 then 3
  else if String.eqb priority SourceAddressPriorityP4 then 4
  else 255.

Definition OfficialSourceAddressArbitrationRank (source : byte) : option Z :=
  row ← LookupSourceAddress source; Some (sourceAddressPriorityRank (PriorityIndex row)).

Definition CompareOfficialSourceAddressArbitration (a b : byte) : option Z :=
  aRank ← OfficialSourceAddressArbitrationRank a;
  bRank ← OfficialSourceAddressArbitrationRank b;
  Some (if aRank <? bRank then -1
        else if bRank <? aRank then 1
        else if a <b b then -1
        else if b <b a then 1
        else 0)%Z.

(** ** Occupancy *)

Inductive SourceAddressOccupancyState :=
| SourceAddressOccupancyUnknown
| SourceAddressOccupancyObservedFree
| SourceAddressOccupancyObservedOccupied
| SourceAddressOccupancyStaleKnownDevice.

#[export] Instance occupancy_eq_dec : EqDecision SourceAddressOccupancyState.
Proof. solve_decision. Defined.

Record KnownAddressOccupancy := mkOccupancy {
  Address : byte;
  State : SourceAddressOccupancyState
}.

Record KnownAddressEvidence := mkEvidence {
  CurrentObservation : list KnownAddressOccupancy;
  Topology : list KnownAddressOccupancy;
  Cache : list KnownAddressOccupancy;
  StaleKnownDevices : list byte;
  CompanionProvenance : list KnownAddressOccupancy
}.

Definition mergeSourceAddressOccupancy (current next : SourceAddressOccupancyState)
    : SourceAddressOccupancyState :=
  match next with
  | SourceAddressOccupancyObservedOccupied => SourceAddressOccupancyObservedOccupied
  | SourceAddressOccupancyStaleKnownDevice =>
      if decide (current = SourceAddressOccupancyObservedOccupied) then current
      else SourceAddressOccupancyStaleKnownDevice
  | SourceAddressOccupancyObservedFree =>
      if decide (current = SourceAddressOccupancyUnknown) then SourceAddressOccupancyObservedFree
      else current
  | SourceAddressOccupancyUnknown => current
  end.

(** ** Observation of bus traffic *)

(** [int] counters are integers; the maps used as sets are sets. *)
Record sourceAddressObservation := mkObservation {
  sourceCount : gmap byte Z;
  targetCount : gmap byte Z;
  observedSources : gset byte;
  observedSourceAddresses : gset byte;
  observedProbableTargets : gset byte
}.

Definition newSourceAddressObservation : sourceAddressObservation := mkObservation ∅ ∅ ∅ ∅ ∅.

(** Reading a Go map: the zero value when the key is absent. *)
Definition count_of (m : gmap byte Z) (a : byte) : Z := default 0 (m !! a).

Definition addFrame (o : sourceAddressObservation) (frame : Frame) : sourceAddressObservation :=
  let src := fSource frame in
  let dst := fTarget frame in
  let sources := <[src := count_of (sourceCount o) src + 1]> (sourceCount o) in
  let targets := <[dst := count_of (targetCount o) dst + 1]> (targetCount o) in
  let addresses :=
    if IsInitiatorCapableAddress src && (defaultSourceAddressLikelyTargetSourceMin <=? count_of sources src)
    then {[src]} ∪ observedSourceAddresses o else observedSourceAddresses o in
  let probable :=
    if IsInitiatorCapableAddress src then observedProbableTargets o
    else {[src]} ∪ observedProbableTargets o in
  mkObservation sources targets ({[src]} ∪ observedSources o) addresses
    (if defaultSourceAddressLikelyTargetTargetMin <=? count_of targets dst
     then {[dst]} ∪ probable else probable).

(** [sort.Slice] with a strict order on distinct keys: the sorted list. *)
Definition byte_le (a b : byte) : Prop := u8 a <= u8 b.
#[local] Instance byte_le_dec : RelDecision byte_le.
Proof. intros a b. unfold byte_le. apply _. Defined.

Definition sortedKeys (keys : gset byte) : list byte := merge_sort byte_le (elements keys).

(** The order of [topTalkers]: higher count first, then lower address. *)
Definition talks_more (a b : byte * Z) : Prop :=
  b.2 < a.2 \/ a.2 = b.2 /\ u8 a.1 <= u8 b.1.
#[local] Instance talks_more_dec : RelDecision talks_more.
Proof. intros a b. unfold talks_more. apply _. Defined.

Definition topTalkers (o : sourceAddressObservation) (limit : Z) : list byte :=
  let sorted := merge_sort talks_more (map_to_list (sourceCount o)) in
  fst <$> (if (0 <? limit) && (limit <? len sorted) then slice_to limit sorted else sorted).

(** ** Resolution of the evidence on one address *)

Definition merge_records (address : byte) (state : SourceAddressOccupancyState)
    (records : list KnownAddressOccupancy) : SourceAddressOccupancyState :=
  foldl (fun state record =>
    if Address record =b address then mergeSourceAddressOccupancy state (State record) else state)
    state records.

Definition merge_stale (address : byte) (state : SourceAddressOccupancyState) (stale : list byte)
    : SourceAddressOccupancyState :=
  foldl (fun state a =>
    if a =b address then mergeSourceAddressOccupancy state SourceAddressOccupancyStaleKnownDevice else state)
    state stale.

Definition occupied_if (b : bool) (state : SourceAddressOccupancyState) : SourceAddressOccupancyState :=
  if b then mergeSourceAddressOccupancy state SourceAddressOccupancyObservedOccupied else state.

Definition resolveKnownAddressOccupancy (evidence : KnownAddressEvidence) (address : byte)
    (observation : option sourceAddressObservation) : SourceAddressOccupancyState :=
  let state := merge_records address SourceAddressOccupancyUnknown (CurrentObservation evidence) in
  let state := merge_records address state (Topology evidence) in
  let state := merge_records address state (Cache evidence) in
  let state := merge_stale address state (StaleKnownDevices evidence) in
  let state := merge_records address state (CompanionProvenance evidence) in
  match observation with
  | None => state
  | Some o =>
      let state := occupied_if (bool_decide (address ∈ observedSourceAddresses o)) state in
      let state := occupied_if
        (defaultSourceAddressLikelyTargetSourceMin <=? count_of (sourceCount o) address) state in
      occupied_if (defaultSourceAddressLikelyTargetTargetMin <=? count_of (targetCount o) address) state
  end.

Definition ResolveKnownAddressOccupancy (evidence : KnownAddressEvidence) (address : byte)
    : SourceAddressOccupancyState := resolveKnownAddressOccupancy evidence address None.

(** ** Configuration *)

Record SourceAddressSelectionConfig := mkSelectionConfig {
  ListenWarmup : Z;
  InquiryEnabled : bool;
  InquiryCooldown : Z;
  InquiryMaxAttempts : Z;
  InquiryDisableOnNoNew : bool;
  SourceDescription : string;
  cfg_PriorityIndex : string;
  ExplicitSource : byte;
  ExplicitSourceSet : bool;
  HintCandidate : byte;
  HintCandidateSet : bool;
  Evidence : KnownAddressEvidence
}.

Definition normalizeSourceAddressSelectionConfig (cfg : SourceAddressSelectionConfig)
    : SourceAddressSelectionConfig :=
  let or_default (v d : Z) := if v <=? 0 then d else v in
  mkSelectionConfig (or_default (ListenWarmup cfg) defaultSourceAddressListenWarmup)
    (InquiryEnabled cfg) (or_default (InquiryCooldown cfg) defaultSourceAddressInquiryCooldown)
    (or_default (InquiryMaxAttempts cfg) defaultSourceAddressInquiryMaxAttempts)
    (InquiryDisableOnNoNew cfg) (SourceDescription cfg) (cfg_PriorityIndex cfg) (ExplicitSource cfg)
    (ExplicitSourceSet cfg) (HintCandidate cfg) (HintCandidateSet cfg) (Evidence cfg).

Inductive SourceAddressSelectionMode :=
| SourceAddressSelectionModeDefaultPolicy
| SourceAddressSelectionModeSourceDescriptionConstrainedPolicy
| SourceAddressSelectionModePriorityFilteredDefaultPolicy
| SourceAddressSelectionModeExplicitValidateOnly.

(** [s != ""]. *)
Definition nonempty (s : string) : bool := negb (String.eqb s "").

Definition selectionMode (cfg : SourceAddressSelectionConfig) : SourceAddressSelectionMode :=
  if ExplicitSourceSet cfg then SourceAddressSelectionModeExplicitValidateOnly
  else if nonempty (SourceDescription cfg) then SourceAddressSelectionModeSourceDescriptionConstrainedPolicy
  else if nonempty (cfg_PriorityIndex cfg) then SourceAddressSelectionModePriorityFilteredDefaultPolicy
  else SourceAddressSelectionModeDefaultPolicy.

(** ** Metrics, results, errors *)

Record SourceAddressSelectionMetrics := mkMetrics {
  m_Mode : SourceAddressSelectionMode;
  WarmupDurationActual : Z;
  CandidatesConsidered : list byte;
  RejectionReasons : gmap byte (list string);
  Occupancy : gmap byte SourceAddressOccupancyState;
  ObservedSources : list byte;
  ObservedSourceAddresses : list byte;
  ObservedProbableTargets : list byte;
  TopTalkersBySource : list byte;
  m_HintCandidate : byte;
  m_HintCandidateSet : bool;
  HintAccepted : bool;
  HintRejectionReason : string
}.

Record SourceAddressSelection := mkSelection {
  sel_Source : byte;
  sel_Companion : byte;
  TableAnchor : string;
  TableVersion : string;
  TableHash : string;
  sel_Mode : SourceAddressSelectionMode;
  Metrics : SourceAddressSelectionMetrics
}.

(** The reasons of a configuration error, each the text of the source. *)
Inductive config_reason :=
| SelectionBusIsNil
| ExplicitWithDescription
| ExplicitWithPriority
| UnknownDescription (d : string)
| UnknownPriority (p : string)
| PolicySourceMissing (source : byte).

(** The error types of the package; [SelectOther] is a context's own error. *)
Inductive select_error :=
| ErrSourceAddressConfig (reason : config_reason)
| ErrSourceAddressValidation (source companion : byte) (reason : string)
| ErrNoAvailableSourceAddress (metrics : SourceAddressSelectionMetrics)
| ErrSourceAddressBusObservation (operation : string) (err : error)
| SelectOther (err : error).

(** [errors.Is(err, context.Canceled) || errors.Is(err, context.DeadlineExceeded)]. *)
Definition is_context_error (err : error) : bool :=
  errors_is err SContextCanceled || errors_is err SDeadlineExceeded.

Definition ended (err : select_error) : bool :=
  match err with
  | ErrSourceAddressBusObservation _ err | SelectOther err => is_context_error err
  | _ => false
  end.

Definition isKnownSourceAddressPriority (priority : string) : bool :=
  existsb (String.eqb priority)
    [SourceAddressPriorityP0; SourceAddressPriorityP1; SourceAddressPriorityP2;
     SourceAddressPriorityP3; SourceAddressPriorityP4].

Definition isKnownSourceAddressDescription (description : string) : bool :=
  existsb (fun row => String.eqb (CanonicalDescription row) description) sourceAddressTableV1.

Definition validateSourceAddressSelectionConfig (cfg : SourceAddressSelectionConfig) : option select_error :=
  if ExplicitSourceSet cfg && nonempty (SourceDescription cfg)
  then Some (ErrSourceAddressConfig ExplicitWithDescription)
  else if ExplicitSourceSet cfg && nonempty (cfg_PriorityIndex cfg)
  then Some (ErrSourceAddressConfig ExplicitWithPriority)
  else if nonempty (SourceDescription cfg) && negb (isKnownSourceAddressDescription (SourceDescription cfg))
  then Some (ErrSourceAddressConfig (UnknownDescription (SourceDescription cfg)))
  else if nonempty (cfg_PriorityIndex cfg) && negb (isKnownSourceAddressPriority (cfg_PriorityIndex cfg))
  then Some (ErrSourceAddressConfig (UnknownPriority (cfg_PriorityIndex cfg)))
  else None.

(** ** Candidates *)

(** [hintIdx <= 0] leaves the rows alone; otherwise the hint's row is moved to
    the front. *)
Definition applyHintBias (rows : list SourceAddressTableRow) (cfg : SourceAddressSelectionConfig)
    : list SourceAddressTableRow :=
  if negb (HintCandidateSet cfg) || ExplicitSourceSet cfg then rows
  else if len rows <=? 1 then rows
  else
    match find_index (fun row => Source row =b HintCandidate cfg) rows with
    | Some (S i) =>
        match rows !! S i with
        | Some hint => [hint] ++ take (S i) rows ++ drop (S (S i)) rows
        | None => rows
        end
    | _ => rows
    end.

Definition keeps_priority (cfg : SourceAddressSelectionConfig) (row : SourceAddressTableRow) : bool :=
  negb (nonempty (cfg_PriorityIndex cfg) && negb (String.eqb (PriorityIndex row) (cfg_PriorityIndex cfg))).

(** The loop over the default policy; a source missing from the table stops it. *)
Fixpoint policy_rows (cfg : SourceAddressSelectionConfig) (sources : list byte)
    : result select_error (list SourceAddressTableRow) :=
  match sources with
  | [] => Ok []
  | source :: sources' =>
      match LookupSourceAddress source with
      | None => Err (ErrSourceAddressConfig (PolicySourceMissing source))
      | Some row =>
          let* rows := policy_rows cfg sources' in
          Ok (if keeps_priority cfg row then row :: rows else rows)
      end
  end.

Definition candidateRowsForSourceAddressSelection (cfg : SourceAddressSelectionConfig)
    : result select_error (list SourceAddressTableRow) :=
  if ExplicitSourceSet cfg then
    match LookupSourceAddress (ExplicitSource cfg) with
    | Some row => Ok [row]
    | None =>
        Err (ErrSourceAddressValidation (ExplicitSource cfg) (CompanionAddressForSource (ExplicitSource cfg))
          "source-not-in-standard-table")
    end
  else if nonempty (SourceDescription cfg) then
    Ok (applyHintBias
      (List.filter (fun row => String.eqb (CanonicalDescription row) (SourceDescription cfg) && keeps_priority cfg row)
        sourceAddressTableV1) cfg)
  else
    let* rows := policy_rows cfg helianthusGatewayDefaultPolicyV1 in
    Ok (applyHintBias rows cfg).

(** ** Validation of one candidate *)

(** Updates of the metrics. *)
Definition recordSourceAddressOccupancy (address : byte) (state : SourceAddressOccupancyState)
    (m : SourceAddressSelectionMetrics) : SourceAddressSelectionMetrics :=
  mkMetrics (m_Mode m) (WarmupDurationActual m) (CandidatesConsidered m) (RejectionReasons m)
    (<[address := state]> (Occupancy m)) (ObservedSources m) (ObservedSourceAddresses m)
    (ObservedProbableTargets m) (TopTalkersBySource m) (m_HintCandidate m) (m_HintCandidateSet m)
    (HintAccepted m) (HintRejectionReason m).

Definition appendUniqueByte (values : list byte) (value : byte) : list byte :=
  if existsb (fun existing => existing =b value) values then values else values ++ [value].

Definition consider (source : byte) (m : SourceAddressSelectionMetrics) : SourceAddressSelectionMetrics :=
  mkMetrics (m_Mode m) (WarmupDurationActual m) (appendUniqueByte (CandidatesConsidered m) source)
    (RejectionReasons m) (Occupancy m) (ObservedSources m) (ObservedSourceAddresses m)
    (ObservedProbableTargets m) (TopTalkersBySource m) (m_HintCandidate m) (m_HintCandidateSet m)
    (HintAccepted m) (HintRejectionReason m).

Definition record_rejection (source : byte) (reason : string) (isHint : bool)
    (m : SourceAddressSelectionMetrics) : SourceAddressSelectionMetrics :=
  mkMetrics (m_Mode m) (WarmupDurationActual m) (CandidatesConsidered m)
    (<[source := default [] (RejectionReasons m !! source) ++ [reason]]> (RejectionReasons m))
    (Occupancy m) (ObservedSources m) (ObservedSourceAddresses m) (ObservedProbableTargets m)
    (TopTalkersBySource m) (m_HintCandidate m) (m_HintCandidateSet m) (HintAccepted m)
    (if isHint && String.eqb (HintRejectionReason m) "" then reason else HintRejectionReason m).

Definition record_acceptance (isHint : bool) (m : SourceAddressSelectionMetrics)
    : SourceAddressSelectionMetrics :=
  mkMetrics (m_Mode m) (WarmupDurationActual m) (CandidatesConsidered m) (RejectionReasons m)
    (Occupancy m) (ObservedSources m) (ObservedSourceAddresses m) (ObservedProbableTargets m)
    (TopTalkersBySource m) (m_HintCandidate m) (m_HintCandidateSet m) (isHint || HintAccepted m)
    (HintRejectionReason m).

Definition companionRejectionReason (state : SourceAddressOccupancyState) : string :=
  match state with
  | SourceAddressOccupancyObservedOccupied => "companion-observed-occupied"
  | SourceAddressOccupancyStaleKnownDevice => "companion-stale-known-device"
  | SourceAddressOccupancyObservedFree => ""
  | SourceAddressOccupancyUnknown => "companion-unknown"
  end.

(** The reason of the rejection, if any, and the metrics. *)
Definition validateSourceAddressCandidate (row : SourceAddressTableRow) (evidence : KnownAddressEvidence)
    (observation : option sourceAddressObservation) (m : SourceAddressSelectionMetrics)
    : option string * SourceAddressSelectionMetrics :=
  let sourceState := resolveKnownAddressOccupancy evidence (Source row) observation in
  let m := recordSourceAddressOccupancy (Source row) sourceState m in
  match sourceState with
  | SourceAddressOccupancyObservedOccupied => (Some "source-observed-occupied", m)
  | SourceAddressOccupancyStaleKnownDevice => (Some "source-stale-known-device", m)
  | _ =>
      let companionState := resolveKnownAddressOccupancy evidence (RowCompanion row) observation in
      let m := recordSourceAddressOccupancy (RowCompanion row) companionState m in
      if (Source row =b xff) && negb (bool_decide (companionState = SourceAddressOccupancyObservedFree))
      then (Some (companionRejectionReason companionState), m)
      else
        match companionState with
        | SourceAddressOccupancyObservedOccupied => (Some "companion-observed-occupied", m)
        | SourceAddressOccupancyStaleKnownDevice => (Some "companion-stale-known-device", m)
        | _ => (None, m)
        end
  end.

(** ** The decision *)

Definition hintActive (cfg : SourceAddressSelectionConfig) : bool :=
  HintCandidateSet cfg && negb (ExplicitSourceSet cfg).

Definition initial_metrics (cfg : SourceAddressSelectionConfig) (o : sourceAddressObservation) (warmup : Z)
    : SourceAddressSelectionMetrics :=
  mkMetrics (selectionMode cfg) warmup [] ∅ ∅ (sortedKeys (observedSources o))
    (sortedKeys (observedSourceAddresses o)) (sortedKeys (observedProbableTargets o))
    (topTalkers o defaultSourceAddressTopTalkerCount)
    (if hintActive cfg then HintCandidate cfg else x00) (hintActive cfg) false "".

Definition select_row (row : SourceAddressTableRow) (m : SourceAddressSelectionMetrics)
    : SourceAddressSelection :=
  mkSelection (Source row) (RowCompanion row) SourceAddressTableAnchor SourceAddressTableVersion
    SourceAddressTableHash (m_Mode m) m.

(** The loop over the candidate rows. *)
Fixpoint try_rows (cfg : SourceAddressSelectionConfig) (o : sourceAddressObservation)
    (rows : list SourceAddressTableRow) (m : SourceAddressSelectionMetrics)
    : result select_error SourceAddressSelection :=
  match rows with
  | [] => Err (ErrNoAvailableSourceAddress m)
  | row :: rows' =>
      let isHint := hintActive cfg && (Source row =b HintCandidate cfg) in
      match validateSourceAddressCandidate row (Evidence cfg) (Some o) (consider (Source row) m) with
      | (Some reason, m) =>
          let m := record_rejection (Source row) reason isHint m in
          if ExplicitSourceSet cfg
          then Err (ErrSourceAddressValidation (Source row) (RowCompanion row) reason)
          else try_rows cfg o rows' m
      | (None, m) => Ok (select_row row (record_acceptance isHint m))
      end
  end.

(** The part of [Select] after the observation. *)
Definition choose (cfg : SourceAddressSelectionConfig) (o : sourceAddressObservation) (warmup : Z)
    : result select_error SourceAddressSelection :=
  let* rows := candidateRowsForSourceAddressSelection cfg in
  try_rows cfg o rows (initial_metrics cfg o warmup).

(** ** The selector *)

(** The bus capabilities, over a state [W]: [Listen] returns the frames it
    delivered and how it ended, for a context and a window. *)
Record SourceAddressSelectionBus (W : Type) := mkSelectionBus {
  Listen : context W -> Z -> W -> W * (list Frame * option error);
  InquiryExistence : context W -> W -> W * option error
}.
Arguments mkSelectionBus {W} _ _.
Arguments Listen {W} _ _ _ _.
Arguments InquiryExistence {W} _ _ _.

(** The inquiry bookkeeping that outlives a call of [Select]; [None] is the
    zero time. *)
Record inquiry_state := mkInquiry {
  inquiryAttempts : Z;
  inquiryNoNewCount : Z;
  inquiryDisabled : bool;
  lastInquiryAt : option Z
}.

Definition fresh_inquiry : inquiry_state := mkInquiry 0 0 false None.

Definition shouldRunInquiry (cfg : SourceAddressSelectionConfig) (s : inquiry_state) (now : Z) : bool :=
  if negb (InquiryEnabled cfg) || (InquiryMaxAttempts cfg <=? 0) then false
  else if inquiryDisabled s then false
  else if InquiryMaxAttempts cfg <=? inquiryAttempts s then false
  else
    match lastInquiryAt s with
    | Some at_ => negb ((0 <? InquiryCooldown cfg) && (now - at_ <? InquiryCooldown cfg))
    | None => true
    end.

Definition markInquiryAttempt (s : inquiry_state) (now : Z) : inquiry_state :=
  mkInquiry (inquiryAttempts s + 1) (inquiryNoNewCount s) (inquiryDisabled s) (Some now).

Definition markInquiryResult (cfg : SourceAddressSelectionConfig) (foundNew : bool) (s : inquiry_state)
    : inquiry_state :=
  if foundNew then mkInquiry (inquiryAttempts s) 0 (inquiryDisabled s) (lastInquiryAt s)
  else
    let n := inquiryNoNewCount s + 1 in
    mkInquiry (inquiryAttempts s) n
      (inquiryDisabled s || (InquiryDisableOnNoNew cfg && (InquiryMaxAttempts cfg <=? n))) (lastInquiryAt s).

Section selector.
Context {W : Type} (bus : option (SourceAddressSelectionBus W)) (now : W -> Z) (ctx : context W).

(** The observation is updated whatever the outcome. *)
Definition observeWindow (duration : Z) (o : sourceAddressObservation) (w : W)
    : W * sourceAddressObservation * result select_error Z :=
  if duration <=? 0 then (w, o, Ok 0)
  else
    match bus with
    | None => (w, o, Err (ErrSourceAddressConfig SelectionBusIsNil))
    | Some b =>
        let started := now w in
        let '(w, (frames, err)) := Listen b ctx duration w in
        let o := foldl addFrame o frames in
        let elapsed := now w - started in
        match err with
        | None => (w, o, Ok elapsed)
        | Some err =>
            if is_context_error err then
              match ctx_Err ctx w with
              | Some e => (w, o, Err (SelectOther e))
              | None => (w, o, Ok elapsed)
              end
            else (w, o, Err (ErrSourceAddressBusObservation "listen" err))
        end
    end.

(** The inquiry of [Select] and the window after it. *)
Definition runInquiry (b : SourceAddressSelectionBus W) (cfg : SourceAddressSelectionConfig)
    (s : inquiry_state) (o : sourceAddressObservation) (w : W)
    : W * inquiry_state * result select_error sourceAddressObservation :=
  let s := markInquiryAttempt s (now w) in
  let '(w, err) := InquiryExistence b ctx w in
  match err with
  | None =>
      let before := size (observedSourceAddresses o) in
      let '(w, o, listened) := observeWindow defaultSourceAddressInquiryFollowupWindow o w in
      let go_on := (w, markInquiryResult cfg (bool_decide (before < size (observedSourceAddresses o))%nat) s, Ok o) in
      match listened with
      | Err err => if ended err then go_on else (w, s, Err err)
      | Ok _ => go_on
      end
  | Some err =>
      if is_context_error err then (w, s, Err (SelectOther err))
      else
        match ctx_Err ctx w with
        | Some e => (w, s, Err (SelectOther e))
        | None => (w, markInquiryResult cfg false s, Ok o)
        end
  end.

(** [Select] on a selector that is not nil. The warm-up is positive after
    normalisation, so a nil bus has failed before the inquiry. *)
Definition Select (config : SourceAddressSelectionConfig) (s : inquiry_state) (w : W)
    : W * inquiry_state * result select_error SourceAddressSelection :=
  let cfg := normalizeSourceAddressSelectionConfig config in
  match validateSourceAddressSelectionConfig cfg with
  | Some err => (w, s, Err err)
  | None =>
      match observeWindow (ListenWarmup cfg) newSourceAddressObservation w with
      | (w, _, Err err) => (w, s, Err err)
      | (w, o, Ok warmup) =>
          match bus with
          | Some b =>
              if shouldRunInquiry cfg s (now w) then
                match runInquiry b cfg s o w with
                | (w, s, Err err) => (w, s, Err err)
                | (w, s, Ok o) => (w, s, choose cfg o warmup)
                end
              else (w, s, choose cfg o warmup)
          | None => (w, s, choose cfg o warmup)
          end
      end
  end.
End selector.

(** ** What an observation holds *)

Definition observe (frames : list Frame) : sourceAddressObservation :=
  foldl addFrame newSourceAddressObservation frames.

Definition sent_by (a : byte) (frames : list Frame) : Z := len (filter (fun f => fSource f = a) frames).
Definition sent_to (a : byte) (frames : list Frame) : Z := len (filter (fun f => fTarget f = a) frames).

Lemma count_of_insert m k v a : count_of (<[k := v]> m) a = if decide (k = a) then v else count_of m a.
Proof.
  unfold count_of. destruct (decide (k = a)) as [->|]; [by rewrite lookup_insert_eq|by rewrite lookup_insert_ne].
Qed.

Lemma sent_by_snoc a frames f :
  sent_by a (frames ++ [f]) = sent_by a frames + if decide (fSource f = a) then 1 else 0.
Proof. unfold sent_by. rewrite filter_app, len_app, filter_cons. by case_decide. Qed.

Lemma sent_to_snoc a frames f :
  sent_to a (frames ++ [f]) = sent_to a frames + if decide (fTarget f = a) then 1 else 0.
Proof. unfold sent_to. rewrite filter_app, len_app, filter_cons. by case_decide. Qed.

Lemma observe_snoc frames f : observe (frames ++ [f]) = addFrame (observe frames) f.
Proof. unfold observe. by rewrite foldl_app. Qed.

Lemma observe_counts frames a :
  count_of (sourceCount (observe frames)) a = sent_by a frames /\
  count_of (targetCount (observe frames)) a = sent_to a frames.
Proof.
  induction frames as [|f frames [IH1 IH2]] using rev_ind; [done|].
  rewrite observe_snoc, sent_by_snoc, sent_to_snoc. simpl. rewrite !count_of_insert.
  split; case_decide; subst; lia.
Qed.

Lemma sent_nonneg a frames : 0 <= sent_by a frames /\ 0 <= sent_to a frames.
Proof. split; apply len_nonneg. Qed.

Lemma observe_sources frames a : a ∈ observedSources (observe frames) <-> 0 < sent_by a frames.
Proof.
  induction frames as [|f frames IH] using rev_ind; [change (a ∈ (∅ : gset byte) <-> 0 < 0); rewrite elem_of_empty; intuition lia|].
  rewrite observe_snoc, sent_by_snoc. cbn [addFrame observedSources].
  rewrite elem_of_union, elem_of_singleton, IH. destruct (sent_nonneg a frames). case_decide; subst; intuition (try congruence; lia).
Qed.

Lemma observe_addresses frames a :
  a ∈ observedSourceAddresses (observe frames) <-> IsInitiatorCapableAddress a = true /\ 2 <= sent_by a frames.
Proof.
  induction frames as [|f frames IH] using rev_ind; 
    [change (a ∈ (∅ : gset byte) <-> IsInitiatorCapableAddress a = true /\ 2 <= 0); rewrite elem_of_empty; intuition lia|].
  destruct (observe_counts frames (fSource f)) as [Hs _].
  rewrite observe_snoc, sent_by_snoc. cbn [addFrame observedSourceAddresses].
  rewrite count_of_insert, decide_True, Hs by done. unfold defaultSourceAddressLikelyTargetSourceMin.
  destruct (IsInitiatorCapableAddress (fSource f)) eqn:Ei, (Z.leb_spec 2 (sent_by (fSource f) frames + 1));
    cbn [andb]; rewrite ?elem_of_union, ?elem_of_singleton, IH; case_decide; subst; intuition (try congruence; lia).
Qed.

Lemma observe_targets frames a :
  a ∈ observedProbableTargets (observe frames) <->
  (IsInitiatorCapableAddress a = false /\ 0 < sent_by a frames) \/ 2 <= sent_to a frames.
Proof.
  induction frames as [|f frames IH] using rev_ind.
  { change (a ∈ (∅ : gset byte) <-> (IsInitiatorCapableAddress a = false /\ 0 < 0) \/ 2 <= 0).
    rewrite elem_of_empty. intuition lia. }
  destruct (observe_counts frames (fTarget f)) as [_ Ht]. destruct (sent_nonneg a frames).
  rewrite observe_snoc, sent_by_snoc, sent_to_snoc. cbn [addFrame observedProbableTargets].
  rewrite count_of_insert, decide_True, Ht by done. unfold defaultSourceAddressLikelyTargetTargetMin.
  destruct (IsInitiatorCapableAddress (fSource f)) eqn:Ei, (Z.leb_spec 2 (sent_to (fTarget f) frames + 1));
    cbn [andb]; rewrite ?elem_of_union, ?elem_of_singleton, IH; repeat case_decide; subst;
    intuition (try congruence; try lia).
  right. match goal with E : fTarget f = fSource f |- _ => rewrite E in * end. lia.
Qed.

(** After any traffic: every address's frames are counted, a sender is seen, an
    initiator-capable sender counts as a source address from its second frame
    on, and a probable target is a sender that cannot be an initiator or an
    address written to at least twice. *)
Theorem observation_counts frames a :
  let o := observe frames in
  count_of (sourceCount o) a = sent_by a frames /\
  count_of (targetCount o) a = sent_to a frames /\
  (a ∈ observedSources o <-> 0 < sent_by a frames) /\
  (a ∈ observedSourceAddresses o <-> IsInitiatorCapableAddress a = true /\ 2 <= sent_by a frames) /\
  (a ∈ observedProbableTargets o <->
     (IsInitiatorCapableAddress a = false /\ 0 < sent_by a frames) \/ 2 <= sent_to a frames).
Proof.
  cbv zeta. splits; [apply observe_counts..|apply observe_sources|apply observe_addresses|apply observe_targets].
Qed.

(** ** Evidence *)

Definition severity (s : SourceAddressOccupancyState) : Z :=
  match s with
  | SourceAddressOccupancyUnknown => 0
  | SourceAddressOccupancyObservedFree => 1
  | SourceAddressOccupancyStaleKnownDevice => 2
  | SourceAddressOccupancyObservedOccupied => 3
  end.

Definition records_on (a : byte) (records : list KnownAddressOccupancy) : list SourceAddressOccupancyState :=
  State <$> filter (fun r => Address r = a) records.

(** Everything said about [a]: the records, the stale list, the traffic. *)
Definition said_of (ev : KnownAddressEvidence) (a : byte) (o : option sourceAddressObservation)
    : list SourceAddressOccupancyState :=
  records_on a (CurrentObservation ev) ++ records_on a (Topology ev) ++ records_on a (Cache ev) ++
  ((fun _ => SourceAddressOccupancyStaleKnownDevice) <$> filter (fun b => b = a) (StaleKnownDevices ev)) ++
  records_on a (CompanionProvenance ev) ++
  match o with
  | None => []
  | Some o =>
      if bool_decide (a ∈ observedSourceAddresses o)
         || (defaultSourceAddressLikelyTargetSourceMin <=? count_of (sourceCount o) a)
         || (defaultSourceAddressLikelyTargetTargetMin <=? count_of (targetCount o) a)
      then [SourceAddressOccupancyObservedOccupied] else []
  end.

Lemma merge_severity c n : severity (mergeSourceAddressOccupancy c n) = Z.max (severity c) (severity n).
Proof. by destruct c, n. Qed.

Lemma merge_either c n :
  mergeSourceAddressOccupancy c n = c \/ mergeSourceAddressOccupancy c n = n.
Proof. destruct c, n; simpl; auto. Qed.

Lemma merge_records_foldl a s l :
  merge_records a s l = foldl mergeSourceAddressOccupancy s (records_on a l).
Proof.
  unfold merge_records, records_on. revert s. induction l as [|r l IH]; intros s; [done|]. simpl.
  rewrite filter_cons. destruct (byte_eqb_spec (Address r) a); [rewrite decide_True by done|rewrite decide_False by done];
    simpl; apply IH.
Qed.

Lemma merge_stale_foldl a s l :
  merge_stale a s l = foldl mergeSourceAddressOccupancy s
    ((fun _ => SourceAddressOccupancyStaleKnownDevice) <$> filter (fun b => b = a) l).
Proof.
  unfold merge_stale. revert s. induction l as [|b l IH]; intros s; [done|]. cbn [foldl].
  rewrite filter_cons. destruct (byte_eqb_spec b a); [rewrite decide_True by done|rewrite decide_False by done];
    rewrite ?fmap_cons; apply IH.
Qed.

Lemma resolve_foldl ev a o :
  resolveKnownAddressOccupancy ev a o =
  foldl mergeSourceAddressOccupancy SourceAddressOccupancyUnknown (said_of ev a o).
Proof.
  unfold resolveKnownAddressOccupancy, said_of. rewrite !foldl_app, !merge_records_foldl, merge_stale_foldl.
  destruct o as [o|]; [|done]. unfold occupied_if.
  destruct (bool_decide _), (_ <=? count_of (sourceCount o) a), (_ <=? count_of (targetCount o) a); done.
Qed.

Lemma foldl_merge_worst s l :
  let r := foldl mergeSourceAddressOccupancy s l in
  severity s <= severity r /\ Forall (fun x => severity x <= severity r) l /\ (r = s \/ r ∈ l).
Proof.
  cbv zeta. revert s. induction l as [|x l IH]; intros s; simpl; [split; [lia|by split; [|left]]|].
  destruct (IH (mergeSourceAddressOccupancy s x)) as (A & B & C). rewrite merge_severity in A.
  splits; [lia|constructor; [lia|done]|].
  destruct C as [C|C]; [|right; by apply elem_of_cons; right].
  destruct (merge_either s x) as [E|E]; rewrite E in *; [by left|right; by apply elem_of_cons; left].
Qed.

(** The verdict on an address is the worst thing said about it, in whatever
    order and from whichever of the six sources it came, and nothing else. *)
Theorem occupancy_is_worst_evidence ev a o :
  let verdict := resolveKnownAddressOccupancy ev a o in
  Forall (fun s => severity s <= severity verdict) (said_of ev a o) /\
  (verdict = SourceAddressOccupancyUnknown \/ verdict ∈ said_of ev a o).
Proof.
  cbv zeta. rewrite resolve_foldl.
  by destruct (foldl_merge_worst SourceAddressOccupancyUnknown (said_of ev a o)) as (_ & A & B).
Qed.

(** ** The choice *)

Definition taken (s : SourceAddressOccupancyState) : bool :=
  bool_decide (s = SourceAddressOccupancyObservedOccupied) || bool_decide (s = SourceAddressOccupancyStaleKnownDevice).

(** The rule a candidate must satisfy; address 0xFF needs positive evidence that
    its companion is free. *)
Definition acceptable (ev : KnownAddressEvidence) (o : sourceAddressObservation) (row : SourceAddressTableRow) : bool :=
  let state a := resolveKnownAddressOccupancy ev a (Some o) in
  negb (taken (state (Source row))) && negb (taken (state (RowCompanion row))) &&
  (negb (Source row =b xff) || bool_decide (state (RowCompanion row) = SourceAddressOccupancyObservedFree)).

Lemma validate_acceptable row ev o m :
  is_Some (validateSourceAddressCandidate row ev (Some o) m).1 <-> acceptable ev o row = false.
Proof.
  unfold validateSourceAddressCandidate, acceptable. cbv zeta.
  destruct (resolveKnownAddressOccupancy ev (Source row) (Some o)),
    (resolveKnownAddressOccupancy ev (RowCompanion row) (Some o)), (Source row =b xff);
    simpl; split; done || (intros [? ?]; done) || eauto.
Qed.

Lemma validate_None row ev o m m' :
  validateSourceAddressCandidate row ev (Some o) m = (None, m') -> acceptable ev o row = true.
Proof.
  intros E. apply not_false_iff_true. intros Ha. apply (validate_acceptable row ev o m) in Ha.
  rewrite E in Ha. by destruct Ha.
Qed.

Lemma try_rows_spec cfg o rows m :
  match try_rows cfg o rows m with
  | Ok sel => exists pre row post, rows = pre ++ row :: post /\
      Forall (fun r => acceptable (Evidence cfg) o r = false) pre /\
      acceptable (Evidence cfg) o row = true /\
      sel_Source sel = Source row /\ sel_Companion sel = RowCompanion row
  | Err _ => Forall (fun r => acceptable (Evidence cfg) o r = false) rows \/ ExplicitSourceSet cfg = true
  end.
Proof.
  revert m. induction rows as [|row rows IH]; intros m; simpl; [by left|].
  destruct (validateSourceAddressCandidate _ _ _ _) as [[reason|] m'] eqn:Ev.
  - assert (acceptable (Evidence cfg) o row = false) as Ha.
    { eapply validate_acceptable. rewrite Ev. by eexists. }
    destruct (ExplicitSourceSet cfg) eqn:Ee; [by right|]. specialize (IH (record_rejection (Source row) reason
      (hintActive cfg && (Source row =b HintCandidate cfg)) m')).
    destruct (try_rows _ _ _ _) as [sel|e].
    + destruct IH as (pre & r & post & -> & A & B). exists (row :: pre), r, post. split; [done|]. split; [by constructor|done].
    + destruct IH as [IH|IH]; [left; by constructor|done].
  - exists [], row, rows. splits; try done. by eapply validate_None.
Qed.

Lemma explicit_rows cfg rows :
  ExplicitSourceSet cfg = true -> candidateRowsForSourceAddressSelection cfg = Ok rows -> length rows = 1%nat.
Proof.
  unfold candidateRowsForSourceAddressSelection. intros ->. destruct (LookupSourceAddress _); [|done]. by intros [= <-].
Qed.

(** The selector takes the first acceptable candidate, and fails only when no
    candidate is acceptable. *)
Theorem choose_takes_first_acceptable cfg o warmup rows :
  candidateRowsForSourceAddressSelection cfg = Ok rows ->
  match choose cfg o warmup with
  | Ok sel => exists pre row post, rows = pre ++ row :: post /\
      Forall (fun r => acceptable (Evidence cfg) o r = false) pre /\
      acceptable (Evidence cfg) o row = true /\
      sel_Source sel = Source row /\ sel_Companion sel = RowCompanion row
  | Err _ => Forall (fun r => acceptable (Evidence cfg) o r = false) rows
  end.
Proof.
  intros Er. unfold choose. rewrite Er. cbn [rbind].
  pose proof (try_rows_spec cfg o rows (initial_metrics cfg o warmup)) as Ht.
  destruct (try_rows _ _ _ _) as [sel|e] eqn:Et; [done|]. destruct Ht as [?|He]; [done|].
  pose proof (explicit_rows cfg rows He Er) as Hl. destruct rows as [|row [|]]; [done| |done].
  simpl in Et. destruct (validateSourceAddressCandidate _ _ _ _) as [[reason|] m'] eqn:Ev; [|done].
  constructor; [|done]. eapply validate_acceptable. rewrite Ev. by eexists.
Qed.

(** ** Hints *)

(** The hint only moves one row to the front: the first row with its address;
    without such a row, or with the hint inactive, the order is unchanged. *)
Theorem hint_moves_one_row rows cfg :
  (hintActive cfg = true /\ exists pre row post, rows = pre ++ row :: post /\ Source row = HintCandidate cfg /\
     Forall (fun r => Source r <> HintCandidate cfg) pre /\ applyHintBias rows cfg = row :: pre ++ post) \/
  ((hintActive cfg = false \/ Forall (fun r => Source r <> HintCandidate cfg) rows) /\ applyHintBias rows cfg = rows).
Proof.
  unfold applyHintBias, hintActive.
  destruct (HintCandidateSet cfg), (ExplicitSourceSet cfg); cbn [negb orb andb]; try (right; split; [by left|done]).
  assert (forall i, find_index (fun row => Source row =b HintCandidate cfg) rows = Some i ->
    exists pre row post, rows = pre ++ row :: post /\ Source row = HintCandidate cfg /\
      Forall (fun r => Source r <> HintCandidate cfg) pre /\ i = length pre /\ rows !! i = Some row /\
      take i rows = pre /\ drop (S i) rows = post) as Hf.
  { intros i Ei. destruct (find_index_Some _ _ _ Ei) as (row & Er & Es & Hmin). apply byte_eqb_eq in Es.
    exists (take i rows), row, (drop (S i) rows). pose proof (lookup_lt_Some _ _ _ Er).
    splits; try done; [by rewrite take_drop_middle| |by rewrite length_take; lia].
    apply Forall_forall. intros r Hin.
    apply list_elem_of_lookup in Hin as [j Hj]. apply lookup_take_Some in Hj as [Hj Hlt].
    specialize (Hmin j r Hlt Hj). by apply byte_eqb_neq. }
  destruct (find_index (fun row => Source row =b HintCandidate cfg) rows) as [i|] eqn:Ei.
  - left. split; [done|]. destruct (Hf i eq_refl) as (pre & row & post & Er & Es & Hpre & El & Hl & Ht & Hd).
    exists pre, row, post. splits; try done. destruct (Z.leb_spec (len rows) 1) as [Hle|Hgt].
    + rewrite Er in Hle. unfold len in Hle. rewrite length_app in Hle. cbn [length] in Hle.
      rewrite Er. clear Er Ht Hd Hf. destruct pre, post; cbn [length] in Hle; (lia || done).
    + destruct i as [|i]; [by destruct pre|]. rewrite Hl. by rewrite Ht, Hd.
  - right. split; [right|by case_match]. apply find_index_None in Ei. eapply Forall_impl; [exact Ei|].
    intros r. apply byte_eqb_neq.
Qed.

(** ** The arbitration order *)

(** The address as arbitration reads it: the priority class, its low nibble,
    before the high nibble. *)
Definition arbitration_key (a : byte) : Z := 16 * Z.land (u8 a) 15 + Z.shiftr (u8 a) 4.

(** The table holds exactly the initiator-capable addresses, and among them the
    official order is the order of the keys: lower wins, and only equal
    addresses tie. *)
Theorem arbitration_order a b :
  CompareOfficialSourceAddressArbitration a b =
    (if IsInitiatorCapableAddress a && IsInitiatorCapableAddress b
     then Some (if arbitration_key a <? arbitration_key b then -1
                else if arbitration_key b <? arbitration_key a then 1 else 0)%Z
     else None) /\
  (arbitration_key a = arbitration_key b <-> a = b).
Proof.
  split.
  - refine (bool_decide_eq_true_1 _ _). revert a b. apply byte_forallb2. vm_compute. reflexivity.
  - assert (bool_decide (arbitration_key a = arbitration_key b) = (a =b b)) as E.
    { refine (bool_decide_eq_true_1 _ _). revert a b. apply byte_forallb2. vm_compute. reflexivity. }
    rewrite <- byte_eqb_eq, <- E. by rewrite bool_decide_eq_true.
Qed.

(** ** Selections *)

Lemma table_rows_found : Forall (fun row => LookupSourceAddress (Source row) = Some row) sourceAddressTableV1.
Proof. refine (bool_decide_eq_true_1 _ _). vm_compute. reflexivity. Qed.

Definition standard (row : SourceAddressTableRow) : Prop := LookupSourceAddress (Source row) = Some row.

Lemma found_standard a row : LookupSourceAddress a = Some row -> standard row /\ Source row = a.
Proof.
  intros E. unfold LookupSourceAddress in E. apply find_some in E as [Hin Hs]. apply byte_eqb_eq in Hs.
  split; [|done]. pose proof table_rows_found as Ht. rewrite Forall_forall in Ht. by apply Ht, list_elem_of_In.
Qed.

Lemma applyHintBias_perm rows cfg : applyHintBias rows cfg ≡ₚ rows.
Proof.
  unfold applyHintBias. destruct (_ || _); [done|]. destruct (_ <=? 1); [done|].
  destruct (find_index _ rows) as [[|i]|]; [done| |done]. destruct (rows !! S i) as [hint|] eqn:El; [|done].
  rewrite <- (take_drop_middle rows (S i) hint El) at 3.
  change ([hint] ++ ?l ++ ?k) with (hint :: l ++ k). by rewrite Permutation_middle.
Qed.

Lemma policy_rows_standard cfg sources rows : policy_rows cfg sources = Ok rows -> Forall standard rows.
Proof.
  revert rows. induction sources as [|a sources IH]; intros rows; simpl; [by intros [= <-]|].
  destruct (LookupSourceAddress a) as [row|] eqn:El; [|done]. intros (rest & Er & E)%rbind_ok_inv.
  specialize (IH rest Er). injection E as <-. case_match; [|done]. constructor; [|done]. exact (proj1 (found_standard _ _ El)).
Qed.

Lemma Ok_inj {E A} (a b : A) : @Ok E A a = Ok b -> a = b.
Proof. by intros [=]. Qed.

Lemma candidates_standard cfg rows :
  candidateRowsForSourceAddressSelection cfg = Ok rows -> Forall standard rows.
Proof.
  unfold candidateRowsForSourceAddressSelection. destruct (ExplicitSourceSet cfg); [|destruct (nonempty _)].
  - destruct (LookupSourceAddress (ExplicitSource cfg)) as [row|] eqn:El; [|done]. intros [= <-].
    constructor; [exact (proj1 (found_standard _ _ El))|done].
  - intros Eq. apply Ok_inj in Eq. rewrite <- Eq, applyHintBias_perm. apply Forall_forall. intros row Hin.
    apply list_elem_of_In, filter_In in Hin as [Hin _]. pose proof table_rows_found as Ht.
    rewrite Forall_forall in Ht. by apply Ht, list_elem_of_In.
  - intros (rest & Er & E)%rbind_ok_inv. injection E as <-. rewrite applyHintBias_perm.
    by eapply policy_rows_standard.
Qed.

Lemma occupied_worst ev a o :
  SourceAddressOccupancyObservedOccupied ∈ said_of ev a o ->
  resolveKnownAddressOccupancy ev a o = SourceAddressOccupancyObservedOccupied.
Proof.
  intros Hin. rewrite resolve_foldl.
  destruct (foldl_merge_worst SourceAddressOccupancyUnknown (said_of ev a o)) as (_ & A & _).
  rewrite Forall_forall in A. specialize (A _ Hin). by destruct (foldl _ _ _).
Qed.

Lemma untaken_unheard ev a frames :
  taken (resolveKnownAddressOccupancy ev a (Some (observe frames))) = false ->
  sent_by a frames < 2 /\ sent_to a frames < 2.
Proof.
  intros Ht. destruct (observe_counts frames a) as [Hs Hd].
  assert (SourceAddressOccupancyObservedOccupied ∉ said_of ev a (Some (observe frames))) as Hn.
  { intros Hin. by rewrite (occupied_worst ev a _ Hin) in Ht. }
  unfold said_of, defaultSourceAddressLikelyTargetSourceMin, defaultSourceAddressLikelyTargetTargetMin in Hn.
  rewrite Hs, Hd in Hn.
  destruct (Z.leb_spec 2 (sent_by a frames)), (Z.leb_spec 2 (sent_to a frames)); try lia;
    exfalso; apply Hn; rewrite ?orb_true_r; set_solver.
Qed.

Lemma sent_app a l k : sent_by a l <= sent_by a (l ++ k) /\ sent_to a l <= sent_to a (l ++ k).
Proof.
  unfold sent_by, sent_to. rewrite !filter_app, !len_app.
  split; pose proof (len_nonneg (filter (fun f => fSource f = a) k));
    pose proof (len_nonneg (filter (fun f => fTarget f = a) k)); lia.
Qed.

Lemma normalized_positive config :
  let cfg := normalizeSourceAddressSelectionConfig config in
  0 < ListenWarmup cfg /\ 0 < InquiryCooldown cfg /\ 0 < InquiryMaxAttempts cfg.
Proof.
  cbn. destruct (Z.leb_spec (ListenWarmup config) 0), (Z.leb_spec (InquiryCooldown config) 0),
    (Z.leb_spec (InquiryMaxAttempts config) 0); repeat split; done || lia.
Qed.

Section selections.
Context {W : Type} (now : W -> Z) (ctx : context W).

Lemma observeWindow_observes bus d frames w :
  exists more, (observeWindow bus now ctx d (observe frames) w).1.2 = observe (frames ++ more).
Proof.
  assert (forall (w : W) (r : result select_error Z), exists more, (w, observe frames, r).1.2 = observe (frames ++ more)) as Hnil.
  { intros w' r. exists []. by rewrite app_nil_r. }
  unfold observeWindow. destruct (d <=? 0); [apply Hnil|]. destruct bus as [b|]; [|apply Hnil].
  destruct (Listen b ctx d w) as [w1 [more err]]. exists more. unfold observe. rewrite foldl_app.
  by repeat case_match.
Qed.

Lemma runInquiry_observes bus b cfg s frames w w' s' o :
  runInquiry bus now ctx b cfg s (observe frames) w = (w', s', Ok o) -> exists more, o = observe (frames ++ more).
Proof.
  unfold runInquiry. destruct (InquiryExistence b ctx w) as [w1 [err|]].
  - destruct (is_context_error err); [done|]. destruct (ctx_Err ctx w1); [done|]. intros [= _ _ <-].
    exists []. by rewrite app_nil_r.
  - destruct (observeWindow_observes bus defaultSourceAddressInquiryFollowupWindow frames w1) as [more Hm].
    destruct (observeWindow _ _ _ _ _ _) as [[w2 o2] listened]. simpl in Hm. subst o2. exists more.
    destruct listened as [|err]; [congruence|]. destruct (ended err); congruence.
Qed.
End selections.

(** C39: A selected address is in the standard table with its companion, is an
    initiator's, honours an explicit request, and neither it nor its companion
    was heard sending twice or being written to twice during the warm-up. *)
Theorem Select_avoids_heard_addresses {W} (b : SourceAddressSelectionBus W) now ctx config s w w1 frames err w' s' sel :
  Listen b ctx (ListenWarmup (normalizeSourceAddressSelectionConfig config)) w = (w1, (frames, err)) ->
  Select (Some b) now ctx config s w = (w', s', Ok sel) ->
  (exists row, LookupSourceAddress (sel_Source sel) = Some row /\ sel_Companion sel = RowCompanion row) /\
  (ExplicitSourceSet config = true -> sel_Source sel = ExplicitSource config) /\
  Forall (fun a => sent_by a frames < 2 /\ sent_to a frames < 2) [sel_Source sel; sel_Companion sel].
Proof.
  unfold Select. remember (normalizeSourceAddressSelectionConfig config) as cfg eqn:Ecfg. intros Hl Hs.
  destruct (validateSourceAddressSelectionConfig cfg); [done|].
  assert (0 < ListenWarmup cfg) as Hw by (subst cfg; apply normalized_positive).
  assert (exists more warmup, choose cfg (observe (frames ++ more)) warmup = Ok sel) as (more & warmup & Hc).
  { assert ((observeWindow (Some b) now ctx (ListenWarmup cfg) newSourceAddressObservation w).1.2 = observe frames) as Ho.
    { unfold observeWindow. destruct (Z.leb_spec (ListenWarmup cfg) 0); [lia|]. rewrite Hl. by repeat case_match. }
    destruct (observeWindow _ _ _ _ _ _) as [[w2 o] [warmup|]]; [|done]. simpl in Ho. subst o.
    destruct (shouldRunInquiry cfg s (now w2)).
    - destruct (runInquiry _ _ _ _ _ _ _ _) as [[w3 s3] [o|]] eqn:Er; [|done].
      destruct (runInquiry_observes _ _ _ _ _ _ _ _ _ _ _ Er) as [more ->]. injection Hs as _ _ Hs. by exists more, warmup.
    - exists [], warmup. rewrite app_nil_r. by injection Hs. }
  unfold choose in Hc. apply rbind_ok_inv in Hc as (rows & Er & Hc).
  pose proof (try_rows_spec cfg (observe (frames ++ more)) rows (initial_metrics cfg (observe (frames ++ more)) warmup)) as Ht.
  rewrite Hc in Ht. destruct Ht as (pre & row & post & -> & _ & Ha & Es & Ec).
  pose proof (candidates_standard cfg _ Er) as Hstd. apply Forall_app in Hstd as [_ Hstd].
  apply Forall_cons in Hstd as [Hstd _]. rewrite Es, Ec. splits.
  - by exists row.
  - intros He. assert (ExplicitSourceSet cfg = true) as He' by by subst cfg.
    unfold candidateRowsForSourceAddressSelection in Er. rewrite He' in Er.
    destruct (LookupSourceAddress (ExplicitSource cfg)) as [row'|] eqn:El; [|done].
    apply found_standard in El as [_ El]. replace (ExplicitSource config) with (ExplicitSource cfg) by by subst cfg.
    destruct pre as [|? [|]]; simplify_eq Er. by intros <- _.
  - unfold acceptable in Ha. rewrite !andb_true_iff, !negb_true_iff in Ha. destruct Ha as [[Ha Hb] _].
    apply untaken_unheard in Ha, Hb. destruct (sent_app (Source row) frames more), (sent_app (RowCompanion row) frames more).
    apply Forall_cons. split; [lia|]. apply Forall_cons. split; [lia|done].
Qed.

(** Inquiries stay within their budget: a selection makes at most one, only
    when enabled, never beyond the configured attempts or after the selector
    disabled itself, and not before the cooldown of the previous one is over. *)
Theorem inquiry_within_budget {W} (b : SourceAddressSelectionBus W) now ctx config s w :
  let cfg := normalizeSourceAddressSelectionConfig config in
  let s' := (Select (Some b) now ctx config s w).1.2 in
  s' = s \/
  inquiryAttempts s' = inquiryAttempts s + 1 /\ inquiryAttempts s < InquiryMaxAttempts cfg /\
    InquiryEnabled cfg = true /\ inquiryDisabled s = false /\
    exists t, lastInquiryAt s' = Some t /\ forall t0, lastInquiryAt s = Some t0 -> InquiryCooldown cfg <= t - t0.
Proof.
  cbv zeta. unfold Select. remember (normalizeSourceAddressSelectionConfig config) as cfg eqn:Ecfg.
  assert (0 < InquiryCooldown cfg) as Hcool by (subst cfg; apply normalized_positive).
  destruct (validateSourceAddressSelectionConfig cfg); [by left|].
  destruct (observeWindow _ _ _ _ _ _) as [[w2 o] [warmup|]]; [|by left].
  destruct (shouldRunInquiry cfg s (now w2)) eqn:Hq; [right|by left].
  assert (forall r : W * inquiry_state * result select_error sourceAddressObservation,
    (match r with (w, s, Err err) => (w, s, Err err) | (w, s, Ok o) => (w, s, choose cfg o warmup) end).1.2 = r.1.2) as Hsame
    by by intros [[? ?] []].
  rewrite Hsame.
  assert (inquiryAttempts (runInquiry (Some b) now ctx b cfg s o w2).1.2 = inquiryAttempts s + 1 /\
    lastInquiryAt (runInquiry (Some b) now ctx b cfg s o w2).1.2 = Some (now w2)) as [-> ->].
  { unfold runInquiry. destruct (InquiryExistence b ctx w2) as [w3 [err|]].
    - destruct (is_context_error err); [done|]. by destruct (ctx_Err ctx w3).
    - destruct (observeWindow _ _ _ _ _ _) as [[w4 o4] listened].
      destruct listened as [|err]; [|destruct (ended err)]; simpl; try done; by case_bool_decide. }
  unfold shouldRunInquiry in Hq. destruct (InquiryEnabled cfg), (Z.leb_spec (InquiryMaxAttempts cfg) 0); try done.
  simpl in Hq. destruct (inquiryDisabled s); [done|]. destruct (Z.leb_spec (InquiryMaxAttempts cfg) (inquiryAttempts s)); [done|].
  splits; try done. exists (now w2). split; [done|]. intros t0 Et. rewrite Et in Hq.
  destruct (Z.ltb_spec 0 (InquiryCooldown cfg)), (Z.ltb_spec (now w2 - t0) (InquiryCooldown cfg)); (lia || done).
Qed.

(** ** A selection: 0xFF has no proof that its companion is free, 0x7F is heard
    twice, 0x3F is chosen *)

Definition heard_frame : Frame := mkFrame x7f x08 xb5 x09 [] FrameTypeUnknown.
Definition no_evidence : KnownAddressEvidence := mkEvidence [] [] [] [] [].
Definition default_selection : SourceAddressSelectionConfig :=
  mkSelectionConfig 0 true 0 0 false "" "" x00 false x00 false no_evidence.
Definition busy_bus : SourceAddressSelectionBus Z :=
  mkSelectionBus (fun _ d t => (t + d, ([heard_frame; heard_frame], Some (ESentinel SDeadlineExceeded))))
    (fun _ t => (t, None)).
Definition open_context : context Z := mkContext (fun _ => None) false.

Definition example_selection : result select_error SourceAddressSelection :=
  (Select (Some busy_bus) (fun t => t) open_context default_selection fresh_inquiry 0).2.

Example selection_run : sel_Source <$> match example_selection with Ok s => Some s | Err _ => None end = Some x3f.
Proof. vm_compute. reflexivity. Qed.

Example choose_takes_first_acceptable_witness :
  match choose default_selection (observe [heard_frame; heard_frame]) 0 with
  | Ok sel => exists pre row post, SourceAddressTableRows <> [] /\
      acceptable no_evidence (observe [heard_frame; heard_frame]) row = true /\ sel_Source sel = Source row /\
      (match candidateRowsForSourceAddressSelection default_selection with
       | Ok rows => rows = pre ++ row :: post | Err _ => False end)
  | Err _ => False
  end.
Proof.
  destruct (candidateRowsForSourceAddressSelection default_selection) as [rows|] eqn:Er; [|vm_compute in Er; discriminate].
  pose proof (choose_takes_first_acceptable default_selection (observe [heard_frame; heard_frame]) 0 rows Er) as Hc.
  destruct (choose _ _ _) as [sel|e] eqn:Ec; [|vm_compute in Ec; discriminate].
  destruct Hc as (pre & row & post & -> & _ & Ha & Es & _). by exists pre, row, post.
Defined.

Example Select_avoids_heard_addresses_witness :
  match example_selection with
  | Ok sel => Forall (fun a => sent_by a [heard_frame; heard_frame] < 2 /\ sent_to a [heard_frame; heard_frame] < 2)
                [sel_Source sel; sel_Companion sel]
  | Err _ => False
  end.
Proof.
  unfold example_selection.
  destruct (Select (Some busy_bus) (fun t => t) open_context default_selection fresh_inquiry 0) as [[w' s'] r] eqn:Es.
  destruct r as [sel|e]; [|vm_compute in Es; discriminate].
  refine (proj2 (proj2 (Select_avoids_heard_addresses busy_bus (fun t => t) open_context default_selection
    fresh_inquiry 0 _ _ _ w' s' sel _ Es))). reflexivity.
Defined.
