(* ===== verification/Collision.v ===== *)
(** protocol/collision_monitor.go: detection of another participant that sends
    from our address. Frames we sent are remembered for an echo window; a frame
    from our address that is not such an echo raises a collision, which blocks
    sending until the address changes. Each method runs under the monitor's
    mutex and reads the clock [now] (nanoseconds). *)

From S2P Require Import Prelude Errors Wire Address.
From S2P Require Import Escape.

#[local] Open Scope list_scope.
#[local] Open Scope Z_scope.

Definition defaultCollisionEchoWindow : Z := 200 * 1000000.
Definition defaultCollisionHistoryCapacity : Z := 128.
Definition defaultCollisionGraceWindow : Z := 750 * 1000000.

Definition ArbitrationFailureReasonAddressCollision : string := "address_collision".

Inductive CollisionReason := CollisionReasonForeignSameSource | CollisionReasonObservedWhileMuted.

Record EventCollisionDetected := mkCollisionEvent {
  ev_Initiator : byte;
  ev_Frame : Frame;
  ev_Timestamp : Z;
  ev_Reason : CollisionReason
}.

Record CollisionMonitorConfig := mkMonitorConfig {
  EchoWindow : Z;
  HistoryCapacity : Z;
  SourceAddressChangeGrace : Z
}.

Record txRecord := mkTx { tx_frame : Frame; timestamp : Z }.

(** [old_initiator] holds the previous address and the end of its grace period
    while [oldInitiatorValid]. *)
Record CollisionMonitor := mkMonitor {
  cfg : CollisionMonitorConfig;
  initiator : byte;
  muted : bool;
  old_initiator : option (byte * Z);
  history : list txRecord;
  collisionActive : bool;
  lastEvent : option EventCollisionDetected
}.

Definition normalizeCollisionMonitorConfig (c : CollisionMonitorConfig) : CollisionMonitorConfig :=
  let or_default v d := if v <=? 0 then d else v in
  mkMonitorConfig (or_default (EchoWindow c) defaultCollisionEchoWindow)
    (or_default (HistoryCapacity c) defaultCollisionHistoryCapacity)
    (or_default (SourceAddressChangeGrace c) defaultCollisionGraceWindow).

Definition NewCollisionMonitor (c : CollisionMonitorConfig) : CollisionMonitor :=
  mkMonitor (normalizeCollisionMonitorConfig c) x00 false None [] false None.

Definition SetInitiator (m : CollisionMonitor) (a : byte) (now : Z) : CollisionMonitor :=
  if negb (initiator m =b x00) && negb (initiator m =b a)
  then mkMonitor (cfg m) a (muted m) (Some (initiator m, now + SourceAddressChangeGrace (cfg m))) (history m) false None
  else mkMonitor (cfg m) a (muted m) (old_initiator m) (history m) (collisionActive m) (lastEvent m).

Definition SetMuted (m : CollisionMonitor) (b : bool) : CollisionMonitor :=
  mkMonitor (cfg m) (initiator m) b (old_initiator m) (history m) (collisionActive m) (lastEvent m).

Definition appendHistory (capacity : Z) (records : list txRecord) (r : txRecord) : list txRecord :=
  let records := records ++ [r] in
  if len records <=? capacity then records else slice_from (len records - capacity) records.

Definition RecordTX (m : CollisionMonitor) (frame : Frame) (now : Z) : CollisionMonitor * option error :=
  if collisionActive m then (m, Some (EArbitrationFailed ArbitrationFailureReasonAddressCollision))
  else
    (mkMonitor (cfg m) (initiator m) (muted m) (old_initiator m)
       (appendHistory (HistoryCapacity (cfg m)) (history m) (mkTx frame now)) (collisionActive m) (lastEvent m), None).

(** The frame type is not compared. *)
Definition framesEqual (l r : Frame) : bool :=
  (fSource l =b fSource r) && (fTarget l =b fTarget r) && (fPrimary l =b fPrimary r) &&
  (fSecondary l =b fSecondary r) && bool_decide (fData l = fData r).

(** The scan runs backwards; whether some record matches does not depend on the
    direction, but the order is the source's. *)
Definition matchesRecentTX (m : CollisionMonitor) (frame : Frame) (now : Z) : bool :=
  existsb (fun r => negb (EchoWindow (cfg m) <? time_sub now (timestamp r)) && framesEqual (tx_frame r) frame)
    (rev (history m)).

Definition activateCollision (m : CollisionMonitor) (now : Z) (frame : Frame) (reason : CollisionReason)
    : CollisionMonitor * option EventCollisionDetected :=
  let ev := mkCollisionEvent (initiator m) frame now reason in
  (mkMonitor (cfg m) (initiator m) (muted m) (old_initiator m) (history m) true (Some ev), Some ev).

(** The grace period of the previous address ends. *)
Definition expire_grace (m : CollisionMonitor) (now : Z) : CollisionMonitor :=
  match old_initiator m with
  | Some (_, graceEnd) =>
      if graceEnd <? now
      then mkMonitor (cfg m) (initiator m) (muted m) None (history m) (collisionActive m) (lastEvent m)
      else m
  | None => m
  end.

Definition ObserveRX (m : CollisionMonitor) (frame : Frame) (now : Z)
    : CollisionMonitor * option EventCollisionDetected :=
  let m := expire_grace m now in
  if match old_initiator m with Some (a, _) => fSource frame =b a | None => false end then (m, None)
  else if (initiator m =b x00) || negb (fSource frame =b initiator m) then (m, None)
  else if muted m then activateCollision m now frame CollisionReasonObservedWhileMuted
  else if matchesRecentTX m frame now then (m, None)
  else activateCollision m now frame CollisionReasonForeignSameSource.

Definition CollisionActive (m : CollisionMonitor) : bool := collisionActive m.
Definition LastEvent (m : CollisionMonitor) : option EventCollisionDetected := lastEvent m.

(** [errors.As] for the monitor's error. *)
Fixpoint IsErrArbitrationFailed (e : error) : bool :=
  match e with
  | EArbitrationFailed _ => true
  | EWrap _ e _ | EEchoEmitted e => IsErrArbitrationFailed e
  | _ => false
  end.

(** ** The monitor in operation *)

Inductive call :=
| CallSetInitiator (a : byte)
| CallSetMuted (b : bool)
| CallRecordTX (f : Frame)
| CallObserveRX (f : Frame).

(** What a call answers: sending refused, or a collision detected. *)
Inductive answer := Silent | Refused (e : error) | Detected (ev : EventCollisionDetected).

Definition perform (m : CollisionMonitor) (t : Z) (c : call) : CollisionMonitor * answer :=
  match c with
  | CallSetInitiator a => (SetInitiator m a t, Silent)
  | CallSetMuted b => (SetMuted m b, Silent)
  | CallRecordTX f =>
      let '(m', e) := RecordTX m f t in (m', match e with Some e => Refused e | None => Silent end)
  | CallObserveRX f =>
      let '(m', ev) := ObserveRX m f t in (m', match ev with Some ev => Detected ev | None => Silent end)
  end.

(** Calls with the times at which they run. *)
Inductive monitor_step : CollisionMonitor -> Z * call * answer -> CollisionMonitor -> Prop :=
| monitor_perform m t c m' a : perform m t c = (m', a) -> monitor_step m (t, c, a) m'.

Definition changes_address (m : CollisionMonitor) (c : call) : bool :=
  match c with
  | CallSetInitiator a => negb (initiator m =b x00) && negb (initiator m =b a)
  | _ => false
  end.

Definition monitor_ok (m : CollisionMonitor) : Prop :=
  0 < HistoryCapacity (cfg m) /\ 0 < EchoWindow (cfg m) /\ len (history m) <= HistoryCapacity (cfg m) /\
  (collisionActive m = true -> initiator m <> x00 /\
     exists ev, lastEvent m = Some ev /\ ev_Initiator ev = initiator m /\ fSource (ev_Frame ev) = initiator m).

(** ** Invariant *)

Lemma appendHistory_len capacity records r : 0 < capacity -> len (appendHistory capacity records r) <= capacity.
Proof.
  intros Hc. unfold appendHistory. cbv zeta. destruct (Z.leb_spec (len (records ++ [r])) capacity); [done|].
  unfold len, slice_from in *. rewrite length_drop. lia.
Qed.

Lemma ObserveRX_frame m f t :
  let m' := (ObserveRX m f t).1 in
  cfg m' = cfg m /\ initiator m' = initiator m /\ muted m' = muted m /\ history m' = history m.
Proof.
  unfold ObserveRX, expire_grace, activateCollision. cbv zeta. by repeat case_match.
Qed.

Lemma ObserveRX_active m f t :
  let '(m', ev) := ObserveRX m f t in
  match ev with
  | Some ev => collisionActive m' = true /\ lastEvent m' = Some ev /\ ev_Initiator ev = initiator m /\
      ev_Frame ev = f /\ fSource f = initiator m /\ initiator m <> x00
  | None => collisionActive m' = collisionActive m /\ lastEvent m' = lastEvent m
  end.
Proof.
  unfold ObserveRX. cbv zeta.
  assert (initiator (expire_grace m t) = initiator m /\ collisionActive (expire_grace m t) = collisionActive m /\
    lastEvent (expire_grace m t) = lastEvent m) as (Ei & Ea & El) by (unfold expire_grace; by repeat case_match).
  remember (expire_grace m t) as m1 eqn:E1. clear E1.
  destruct (match old_initiator m1 with Some (a, _) => fSource f =b a | None => false end); [done|].
  destruct (byte_eqb_spec (initiator m1) x00) as [|H0]; [done|].
  destruct (byte_eqb_spec (fSource f) (initiator m1)) as [Hs|]; [|done]. cbn [negb orb].
  destruct (muted m1); [simpl; splits; congruence|]. destruct (matchesRecentTX m1 f t); [done|].
  simpl. splits; congruence.
Qed.

Lemma monitor_perform_ok m t c : monitor_ok m -> monitor_ok (perform m t c).1.
Proof.
  intros (Hc & He & Hl & Ha). unfold monitor_ok. destruct c as [a|b|f|f]; simpl.
  - unfold SetInitiator. destruct (byte_eqb_spec (initiator m) x00) as [E0|], (byte_eqb_spec (initiator m) a) as [Ea|];
      simpl; splits; try done; intros Hact; destruct (Ha Hact) as (Hn & ev & ? & ? & ?); try done;
      rewrite <- Ea; split; [done|by exists ev].
  - done.
  - unfold RecordTX. destruct (collisionActive m) eqn:Eact; simpl; [splits; try done; intros _; by apply Ha|].
    splits; try done. by apply appendHistory_len.
  - pose proof (ObserveRX_frame m f t) as (E1 & E2 & _ & E4). pose proof (ObserveRX_active m f t) as Hev.
    destruct (ObserveRX m f t) as [m' ev]. simpl in *. rewrite E1, E2, E4. split; [done|]. split; [done|]. split; [done|]. intros Hact.
    destruct ev as [ev|]; simpl.
    + destruct Hev as (_ & El & Ei & Ef & Es & Hn). split; [done|]. exists ev. splits; try done. by rewrite Ef.
    + destruct Hev as [Ea El]. rewrite Ea in Hact. rewrite El. exact (Ha Hact).
Qed.

(** From any configuration and through any calls, the history stays within its
    capacity, and an active collision is about the current, non-zero address:
    the last event names it and carries a frame sent from it. *)
Theorem monitor_invariant c ls m :
  steps monitor_step (NewCollisionMonitor c) ls m -> monitor_ok m.
Proof.
  intros Hs. eapply steps_invariant; [|exact Hs|].
  - intros s l s' Hok Hst. destruct Hst as [m0 t c0 m' a E]. pose proof (monitor_perform_ok m0 t c0 Hok) as Hp. by rewrite E in Hp.
  - assert (0 < HistoryCapacity (normalizeCollisionMonitorConfig c) /\ 0 < EchoWindow (normalizeCollisionMonitorConfig c)) as [Hh He].
    { cbn. destruct (Z.leb_spec (HistoryCapacity c) 0), (Z.leb_spec (EchoWindow c) 0); split; done || lia. }
    split; [exact Hh|]. split; [exact He|]. split; [|done]. change (0 <= HistoryCapacity (normalizeCollisionMonitorConfig c)). lia.
Qed.

(** ** Detection *)

(** Still within the grace of the previous address. *)
Definition in_grace (m : CollisionMonitor) (a : byte) (t : Z) : Prop :=
  exists graceEnd, old_initiator m = Some (a, graceEnd) /\ t <= graceEnd.

Definition is_echo (m : CollisionMonitor) (f : Frame) (t : Z) : Prop :=
  exists r, r ∈ history m /\ time_sub t (timestamp r) <= EchoWindow (cfg m) /\ framesEqual (tx_frame r) f = true.

Lemma matchesRecentTX_spec m f t : matchesRecentTX m f t = true <-> is_echo m f t.
Proof.
  unfold matchesRecentTX, is_echo. rewrite existsb_exists. split.
  - intros (r & Hin & E). apply andb_true_iff in E as [E1 E2]. exists r. rewrite <- in_rev in Hin.
    splits; [by apply list_elem_of_In| |done]. destruct (Z.ltb_spec (EchoWindow (cfg m)) (time_sub t (timestamp r))); [done|lia].
  - intros (r & Hin & E1 & E2). exists r. rewrite <- in_rev. split; [by apply list_elem_of_In|].
    rewrite E2. destruct (Z.ltb_spec (EchoWindow (cfg m)) (time_sub t (timestamp r))); [lia|done].
Qed.

(** C40: A frame raises a collision exactly when it comes from our non-zero address,
    outside the grace of that address, and we are listen-only or have no equal
    frame of ours within the echo window. *)
Theorem ObserveRX_detects_iff m f t ev :
  (ObserveRX m f t).2 = Some ev <->
  initiator m <> x00 /\ fSource f = initiator m /\ ~ in_grace m (fSource f) t /\
  (muted m = true \/ ~ is_echo m f t) /\
  ev = mkCollisionEvent (initiator m) f t
         (if muted m then CollisionReasonObservedWhileMuted else CollisionReasonForeignSameSource).
Proof.
  assert (initiator (expire_grace m t) = initiator m /\ muted (expire_grace m t) = muted m /\
    history (expire_grace m t) = history m /\ cfg (expire_grace m t) = cfg m) as (Ei & Em & Eh & Ec)
    by (unfold expire_grace; by repeat case_match).
  assert (match old_initiator (expire_grace m t) with Some (a, _) => fSource f =b a | None => false end = true
    <-> in_grace m (fSource f) t) as Hg.
  { unfold expire_grace, in_grace. destruct (old_initiator m) as [[a e]|] eqn:Eo; [|rewrite Eo; naive_solver].
    destruct (Z.ltb_spec e t) as [Hlt|Hle]; simpl.
    - split; [done|]. intros (e' & [= _ <-] & Hle'). lia.
    - rewrite Eo. rewrite byte_eqb_eq. split; [intros <-; by exists e|]. by intros (e' & [= -> <-] & _). }
  assert (matchesRecentTX (expire_grace m t) f t = matchesRecentTX m f t) as Er
    by (unfold matchesRecentTX; by rewrite Eh, Ec).
  unfold ObserveRX, activateCollision. cbv zeta. rewrite Ei, Em, Er.
  rewrite <- (matchesRecentTX_spec m f t), <- Hg.
  destruct (match old_initiator (expire_grace m t) with Some (a, _) => fSource f =b a | None => false end); [naive_solver|].
  destruct (byte_eqb_spec (initiator m) x00); [naive_solver|].
  destruct (byte_eqb_spec (fSource f) (initiator m)); [|naive_solver]. cbn [negb orb].
  destruct (muted m); cbn [snd]; [|destruct (matchesRecentTX m f t); cbn [snd]]; naive_solver.
Qed.

(** The address 0x00 belongs to the standard table and closes the gateway's
    default policy, but the monitor reads it as no address at all: nothing sent
    from it is ever a collision. *)
Theorem zero_address_is_blind m t0 f t :
  (ObserveRX (SetInitiator m x00 t0) f t).2 = None /\ is_Some (LookupSourceAddress x00).
Proof.
  split; [|by eexists]. destruct (ObserveRX (SetInitiator m x00 t0) f t) as [m' [ev|]] eqn:E; [|done].
  pose proof (ObserveRX_active (SetInitiator m x00 t0) f t) as Hev. rewrite E in Hev.
  destruct Hev as (_ & _ & _ & _ & _ & Hn). exfalso. apply Hn. unfold SetInitiator. by case_match.
Qed.

(** ** Sequences of calls *)

Definition call_of (l : Z * call * answer) : call := l.1.2.
Definition is_record (c : call) : bool := match c with CallRecordTX _ => true | _ => false end.

(** [r] is remembered, with at most [n] newer records after it. *)
Definition remembers (m : CollisionMonitor) (r : txRecord) (n : Z) : Prop :=
  exists pre post, history m = pre ++ r :: post /\ len post <= n.

Lemma appendHistory_remembers capacity pre r post x :
  len post + 1 < capacity ->
  exists pre', appendHistory capacity (pre ++ r :: post) x = pre' ++ r :: (post ++ [x]).
Proof.
  intros Hlt. unfold appendHistory. cbv zeta. rewrite <- app_assoc. change ((r :: post) ++ [x]) with (r :: (post ++ [x])).
  destruct (_ <=? _) eqn:Ele; [by exists pre|]. apply Z.leb_gt in Ele.
  rewrite len_app, len_cons, len_app in *. change (len [x]) with 1 in *.
  unfold slice_from. exists (drop (Z.to_nat (len pre + (1 + (len post + 1)) - capacity)) pre).
  rewrite drop_app_le; [done|]. unfold len in *. lia.
Qed.

Lemma perform_remembers m t c r n :
  remembers m r n -> n + 1 < HistoryCapacity (cfg m) \/ is_record c = false ->
  remembers (perform m t c).1 r (if is_record c then n + 1 else n) /\ cfg (perform m t c).1 = cfg m.
Proof.
  intros (pre & post & Eh & Hl) Hn. destruct c as [a|b|f|f]; simpl.
  - unfold SetInitiator. by case_match; split; try done; exists pre, post.
  - split; [by exists pre, post|done].
  - destruct Hn as [Hn|]; [|done]. unfold RecordTX. destruct (collisionActive m); simpl.
    + split; [|done]. exists pre, post. split; [done|lia].
    + split; [|done]. destruct (appendHistory_remembers (HistoryCapacity (cfg m)) pre r post (mkTx f t)) as [pre' E]; [lia|].
      exists pre', (post ++ [mkTx f t]). simpl. rewrite Eh, E. split; [done|]. rewrite len_app. change (len [_]) with 1. lia.
  - pose proof (ObserveRX_frame m f t) as (Ec & _ & _ & Ehi). destruct (ObserveRX m f t) as [m' ev]. simpl in *.
    split; [|done]. exists pre, post. by rewrite Ehi.
Qed.

Definition records (ls : list (Z * call * answer)) : Z := len (List.filter (fun l => is_record (call_of l)) ls).

Lemma steps_remember m ls m' r n :
  steps monitor_step m ls m' -> remembers m r n -> n + records ls < HistoryCapacity (cfg m) ->
  remembers m' r (n + records ls) /\ cfg m' = cfg m.
Proof.
  intros Hs. revert n. induction Hs as [m|m l m1 ls m2 Hst Hs IH]; intros n Hr Hlt.
  { unfold records. simpl. by rewrite len_nil, Z.add_0_r. }
  destruct Hst as [m t c m1 a E]. pose proof (len_nonneg (List.filter (fun l => is_record (call_of l)) ls)).
  unfold records in *. cbn [List.filter call_of fst snd] in *.
  pose proof (perform_remembers m t c r n Hr) as Hp. rewrite E in Hp. cbn [fst] in Hp.
  destruct (is_record c); rewrite ?len_cons in *.
  - destruct Hp as [Hp Ec]; [left; lia|]. rewrite <- Ec in *.
    destruct (IH (n + 1) Hp) as [A B]; [lia|]. split; [|done]. by replace (n + (1 + _)) with (n + 1 + len (List.filter (fun l => is_record (call_of l)) ls)) by lia.
  - destruct Hp as [Hp Ec]; [by right|]. rewrite <- Ec in *. by apply IH.
Qed.

(** Our own echo is no collision: a frame recorded at [t] and heard within the
    echo window raises nothing, whatever happened in between, as long as fewer
    than a history's worth of frames were sent since and the monitor listens
    and sends (is not muted). *)
Theorem own_echo_is_no_collision m f t m1 ls m2 t' :
  RecordTX m f t = (m1, None) -> steps monitor_step m1 ls m2 ->
  1 <= HistoryCapacity (cfg m) -> records ls < HistoryCapacity (cfg m) ->
  muted m2 = false -> 0 <= EchoWindow (cfg m) -> t' - t <= EchoWindow (cfg m) ->
  (ObserveRX m2 f t').2 = None.
Proof.
  unfold RecordTX. destruct (collisionActive m); [done|]. intros [= <-] Hs Hc Hlt Hm He Ht.
  edestruct (steps_remember _ _ _ (mkTx f t) 0 Hs) as [(pre & post & Eh & _) Ec]; [|exact Hlt|].
  { unfold remembers, appendHistory. simpl. cbv zeta. destruct (_ <=? _); [by exists (history m), []|].
    destruct (Z.leb_spec (HistoryCapacity (cfg m)) 0); [lia|].
    exists (drop (Z.to_nat (len (history m ++ [mkTx f t]) - HistoryCapacity (cfg m))) (history m)), [].
    split; [|done]. unfold slice_from. rewrite drop_app_le; [done|]. unfold len. rewrite length_app. simpl. lia. }
  destruct (ObserveRX m2 f t') as [m3 [ev|]] eqn:E; [|done]. exfalso.
  assert (is_echo m2 f t') as Hecho.
  { exists (mkTx f t). rewrite Eh, Ec. splits; [set_solver|by apply time_sub_le|].
    unfold framesEqual. cbn [tx_frame]. by rewrite !byte_eqb_refl, bool_decide_true. }
  apply matchesRecentTX_spec in Hecho. revert E. unfold ObserveRX. cbv zeta.
  assert (matchesRecentTX (expire_grace m2 t') f t' = true /\ muted (expire_grace m2 t') = false) as [-> ->].
  { unfold expire_grace. by repeat case_match. }
  by repeat case_match.
Qed.

Definition keeps_address (m : CollisionMonitor) (l : Z * call * answer) : Prop :=
  forall a, call_of l = CallSetInitiator a -> a = initiator m.

Lemma perform_active m t c :
  collisionActive m = true -> keeps_address m (t, c, Silent) ->
  let '(m', a) := perform m t c in
  collisionActive m' = true /\ initiator m' = initiator m /\ history m' = history m /\
  (is_record c = true -> a = Refused (EArbitrationFailed ArbitrationFailureReasonAddressCollision)).
Proof.
  intros Ha Hk. destruct c as [a|b|f|f]; simpl.
  - pose proof (Hk a eq_refl) as ->. unfold SetInitiator. rewrite byte_eqb_refl, andb_false_r. done.
  - done.
  - unfold RecordTX. by rewrite Ha.
  - pose proof (ObserveRX_frame m f t) as (_ & Ei & _ & Eh). pose proof (ObserveRX_active m f t) as Hev.
    destruct (ObserveRX m f t) as [m' ev]. simpl in *. splits; try done. destruct ev; [apply Hev|]. by destruct Hev as [-> _].
Qed.

(** A collision blocks sending until the address changes: every attempt to
    record a frame is refused with the arbitration error, and nothing else
    lifts the block or alters the history. *)
Theorem collision_blocks_until_address_changes m ls m' :
  steps monitor_step m ls m' -> collisionActive m = true -> Forall (keeps_address m) ls ->
  collisionActive m' = true /\ history m' = history m /\
  Forall (fun l => is_record (call_of l) = true ->
    l.2 = Refused (EArbitrationFailed ArbitrationFailureReasonAddressCollision)) ls.
Proof.
  induction 1 as [m|m l m1 ls m2 Hst Hs IH]; intros Ha Hk; [done|].
  apply Forall_cons in Hk as [Hk Hks]. destruct Hst as [m t c m1 a E].
  pose proof (perform_active m t c Ha Hk) as Hp. rewrite E in Hp. destruct Hp as (Ha1 & Ei & Eh & Hr).
  destruct (IH Ha1) as (A & B & C).
  { eapply Forall_impl; [exact Hks|]. intros l Hl b Hb. rewrite Ei. by apply Hl. }
  splits; [done|congruence|]. by constructor.
Qed.

(** ** A collision: our frame echoes, a foreign one with our address follows *)

Definition our_frame : Frame := mkFrame x31 x08 xb5 x09 [x0d] FrameTypeUnknown.
Definition foreign_frame : Frame := mkFrame x31 x08 xb5 x10 [] FrameTypeUnknown.
Definition fresh : CollisionMonitor := SetInitiator (NewCollisionMonitor (mkMonitorConfig 0 0 0)) x31 0.
Definition sent : CollisionMonitor := (RecordTX fresh our_frame 1000).1.
Definition collided : CollisionMonitor := (ObserveRX sent foreign_frame 2000).1.

Example own_echo_is_no_collision_witness : (ObserveRX sent our_frame 9000).2 = None.
Proof.
  apply (own_echo_is_no_collision fresh our_frame 1000 sent [] sent 9000); try reflexivity; try constructor;
    vm_compute; discriminate.
Defined.

Example collision_blocks_until_address_changes_witness :
  collisionActive collided = true /\
  (perform collided 3000 (CallRecordTX our_frame)).2 =
    Refused (EArbitrationFailed ArbitrationFailureReasonAddressCollision).
Proof.
  destruct (collision_blocks_until_address_changes collided
    [(3000, CallRecordTX our_frame, Refused (EArbitrationFailed ArbitrationFailureReasonAddressCollision))] collided)
    as (A & _ & B).
  - eapply steps_cons; [by constructor|constructor].
  - reflexivity.
  - constructor; [by intros a|constructor].
  - split; [exact A|]. reflexivity.
Defined.

Example monitor_invariant_witness : monitor_ok sent.
Proof.
  apply (monitor_invariant (mkMonitorConfig 0 0 0)
    [(0, CallSetInitiator x31, Silent); (1000, CallRecordTX our_frame, Silent)] sent).
  do 2 (eapply steps_cons; [by constructor|]). constructor.
Defined.
