(* ===== verification/Responder.v ===== *)
(** protocol/responder: the lane that answers for a local address. A frame
    decoder (frame_decoder.go), the acknowledgement state machine (fsm.go) and
    the dispatcher that joins them behind the destination filter
    (dispatcher.go). The mutexes serialise the operations; each is one step. *)

From S2P Require Import Prelude Errors Wire Address.

#[local] Open Scope list_scope.

(** ** The frame decoder *)

Record DecodedFrame := mkDecoded {
  d_Source : byte;
  d_Target : byte;
  d_Primary : byte;
  d_Secondary : byte;
  Payload : list byte;
  d_CRC : byte
}.

Definition Decode (frame : list byte) : result error DecodedFrame :=
  if len frame <? 6 then Err (ESentinel SFrameTooShort)
  else
    let nn := u8 (nth 4 frame x00) in
    let want := 5 + nn + 1 in
    if negb (len frame =? want) then Err (ESentinel SLengthMismatch)
    else
      let crcByte := nth (Z.to_nat (want - 1)) frame x00 in
      let body := slice_to (want - 1) frame in
      if negb (CRC body =b crcByte) then Err (ESentinel SBadCRC)
      else Ok (mkDecoded (nth 0 frame x00) (nth 1 frame x00) (nth 2 frame x00) (nth 3 frame x00)
                 (slice_from 5 (slice_to (5 + nn) frame)) crcByte).

(** The frame of a telegram: the header, the length, the data and the CRC. *)
Definition frame_body (f : DecodedFrame) : list byte :=
  [d_Source f; d_Target f; d_Primary f; d_Secondary f; b8 (len (Payload f))] ++ Payload f.
Definition frame_bytes (f : DecodedFrame) : list byte := frame_body f ++ [d_CRC f].

(** ** The state machine *)

Inductive State := StateIdle | StateAckReceived | StateNackReceived | StateResponseSent.

#[export] Instance responder_state_eq_dec : EqDecision State.
Proof. solve_decision. Defined.

(** [String]; a [State] outside the constants would print StateUnknown. *)
Definition State_String (s : State) : string :=
  match s with
  | StateIdle => "StateIdle"
  | StateAckReceived => "StateAckReceived"
  | StateNackReceived => "StateNackReceived"
  | StateResponseSent => "StateResponseSent"
  end.

Definition DefaultMaxNackRetries : Z := 3.

Record FSM := mkFSM { state : State; retries : Z; MaxNackRetries : Z }.

Definition NewFSM : FSM := mkFSM StateIdle 0 DefaultMaxNackRetries.

Definition FSM_State (f : FSM) : State := state f.

(** What a transition method returns. *)
Definition transition : Type := State * option error.

Definition refuse (f : FSM) : FSM * transition := (f, (state f, Some (ESentinel SInvalidTransition))).

(** The transient NackReceived is overwritten before the lock is released. *)
Definition OnInboundFrame (f : FSM) (crcOk : bool) : FSM * transition :=
  if negb (bool_decide (state f = StateIdle)) then refuse f
  else
    let f' :=
      if crcOk then mkFSM StateAckReceived 0 (MaxNackRetries f)
      else mkFSM StateIdle (retries f) (MaxNackRetries f) in
    (f', (state f', None)).

Definition OnEmitResponse (f : FSM) : FSM * transition :=
  if negb (bool_decide (state f = StateAckReceived)) then refuse f
  else (mkFSM StateResponseSent (retries f) (MaxNackRetries f), (StateResponseSent, None)).

Definition OnInitiatorFinalAck (f : FSM) : FSM * transition :=
  if negb (bool_decide (state f = StateResponseSent)) then refuse f
  else (mkFSM StateIdle 0 (MaxNackRetries f), (StateIdle, None)).

Definition OnInitiatorNack (f : FSM) : FSM * transition :=
  if negb (bool_decide (state f = StateResponseSent)) then refuse f
  else if MaxNackRetries f <=? retries f
  then (mkFSM StateIdle (retries f) (MaxNackRetries f), (StateIdle, Some (ESentinel SRetriesExhausted)))
  else (mkFSM StateAckReceived (retries f + 1) (MaxNackRetries f), (StateAckReceived, None)).

Definition Reset (f : FSM) : FSM := mkFSM StateIdle 0 (MaxNackRetries f).

(** ** The dispatcher *)

(** The dispatcher with the FSM it is bound to, if any. *)
Record LocalResponderDispatcher := mkDispatcher {
  localAddr : byte;
  fsm : option FSM;
  dropped : Z
}.

Definition NewLocalResponderDispatcher (addr : byte) (f : option FSM) : LocalResponderDispatcher :=
  mkDispatcher addr f 0.

Definition LocalAddress (d : LocalResponderDispatcher) : byte := localAddr d.
Definition Dropped (d : LocalResponderDispatcher) : Z := dropped d.

Definition Handle (d : LocalResponderDispatcher) (frame : DecodedFrame)
    : LocalResponderDispatcher * (bool * option error) :=
  if negb (d_Target frame =b localAddr d)
  then (mkDispatcher (localAddr d) (fsm d) (wrap 64 (dropped d + 1)), (false, None))
  else
    match fsm d with
    | None => (d, (true, None))
    | Some f =>
        let '(f', (_, err)) := OnInboundFrame f true in
        (mkDispatcher (localAddr d) (Some f') (dropped d), (negb (bool_decide (is_Some err)), err))
    end.

(** ** Decoding *)

Lemma nth_app_l {A} (l k : list A) d i : (i < length l)%nat -> nth i (l ++ k) d = nth i l d.
Proof. apply app_nth1. Qed.

(** A frame of at least five bytes is a header followed by a rest. *)
Lemma header_split (l : list byte) :
  5 <= len l -> exists q z p s n rest, l = [q; z; p; s; n] ++ rest.
Proof.
  destruct l as [|q [|z [|p [|s [|n rest]]]]]; unfold len; simpl; try lia. intros _.
  by exists q, z, p, s, n, rest.
Qed.

(** The decoder accepts exactly the bytes of a frame whose length byte counts
    its payload and whose CRC is right, and returns that frame. *)
Theorem Decode_accepts_frames bytes f :
  Decode bytes = Ok f <->
  bytes = frame_bytes f /\ len (Payload f) <= 255 /\ d_CRC f = CRC (frame_body f).
Proof.
  split.
  - unfold Decode. destruct (Z.ltb_spec (len bytes) 6) as [|Hlen]; [done|].
    destruct (header_split bytes) as (q & z & p & s & n & rest & ->); [lia|]. clear Hlen.
    change (nth 4 ([q; z; p; s; n] ++ rest) x00) with n. change (nth 0 ([q; z; p; s; n] ++ rest) x00) with q.
    change (nth 1 ([q; z; p; s; n] ++ rest) x00) with z. change (nth 2 ([q; z; p; s; n] ++ rest) x00) with p.
    change (nth 3 ([q; z; p; s; n] ++ rest) x00) with s. cbv zeta.
    destruct (Z.eqb_spec (len ([q; z; p; s; n] ++ rest)) (5 + u8 n + 1)) as [El|]; [|done]. cbn [negb].
    rewrite len_app, !len_cons, len_nil in El.
    assert (exists payload c, rest = payload ++ [c] /\ len payload = u8 n) as (payload & c & -> & Ep).
    { assert (rest <> []) as Hne by (intros E; rewrite E in El; unfold len in El; simpl in El; pose proof (u8_range n); lia).
      destruct (exists_last Hne) as (payload & c & ->).
      exists payload, c. split; [done|]. rewrite len_app in El. change (len [c]) with 1 in El. lia. }
    rewrite app_assoc. remember ([q; z; p; s; n] ++ payload) as body eqn:Eb.
    assert (len body = 5 + u8 n) as Elb by (subst body; rewrite len_app, !len_cons, len_nil; lia).
    assert (Z.to_nat (5 + u8 n + 1 - 1) = length body) as En by (unfold len in Elb; lia).
    assert (Z.to_nat (5 + u8 n) = length body) as En' by (unfold len in Elb; lia).
    unfold slice_from, slice_to. rewrite En, En', take_app_length, nth_middle.
    assert (drop (Z.to_nat 5) body = payload) as -> by by subst body.
    destruct (byte_eqb_spec (CRC body) c) as [Ec|]; [|done]. cbn [negb].
    intros [= <-]. unfold frame_bytes, frame_body. cbn [d_Source d_Target d_Primary d_Secondary Payload d_CRC].
    rewrite Ep, b8_u8. pose proof (u8_range n). subst body. splits; [done|lia|done].
  - intros (-> & Hlen & Hc). unfold Decode, frame_bytes.
    pose proof (len_nonneg (Payload f)) as H0.
    assert (len (frame_body f ++ [d_CRC f]) = 5 + len (Payload f) + 1) as El
      by (unfold frame_body; rewrite !len_app, !len_cons, !len_nil; lia).
    rewrite El. destruct (Z.ltb_spec (5 + len (Payload f) + 1) 6); [lia|].
    rewrite !(nth_app_l (frame_body f) [d_CRC f] x00) by (unfold frame_body; simpl; lia).
    change (nth 4 (frame_body f) x00) with (b8 (len (Payload f))). rewrite u8_b8_small by lia.
    rewrite Z.eqb_refl. cbn [negb].
    assert (Z.to_nat (5 + len (Payload f) + 1 - 1) = length (frame_body f)) as En.
    { unfold frame_body. rewrite length_app. unfold len. simpl. lia. }
    rewrite En, nth_middle. unfold slice_to, slice_from. rewrite En, take_app_length, <- Hc, byte_eqb_refl. cbn [negb].
    replace (Z.to_nat (5 + len (Payload f))) with (length (frame_body f)) by (rewrite <- En; f_equal; lia).
    rewrite take_app_length. by destruct f.
Qed.

(** ** The state machine in operation *)

(** The calls a lane can make, in any order. *)
Inductive call := CallInbound (crcOk : bool) | CallEmit | CallFinalAck | CallNack | CallReset.

Definition perform (f : FSM) (c : call) : FSM * transition :=
  match c with
  | CallInbound crcOk => OnInboundFrame f crcOk
  | CallEmit => OnEmitResponse f
  | CallFinalAck => OnInitiatorFinalAck f
  | CallNack => OnInitiatorNack f
  | CallReset => (Reset f, (StateIdle, None))
  end.

Fixpoint perform_all (f : FSM) (cs : list call) : FSM * list transition :=
  match cs with
  | [] => (f, [])
  | c :: cs' => let '(f1, r) := perform f c in let '(f2, rs) := perform_all f1 cs' in (f2, r :: rs)
  end.

Lemma perform_all_app f a b :
  perform_all f (a ++ b) =
  let '(f1, ra) := perform_all f a in let '(f2, rb) := perform_all f1 b in (f2, ra ++ rb).
Proof.
  revert f. induction a as [|c a IH]; intros f; simpl; [by destruct (perform_all f b)|].
  destruct (perform f c) as [f1 r]. rewrite IH. destruct (perform_all f1 a) as [f2 ra].
  by destruct (perform_all f2 b).
Qed.

Definition fsm_ok (f : FSM) : Prop := state f <> StateNackReceived /\ 0 <= retries f <= Z.max 0 (MaxNackRetries f).

Lemma responder_perform_ok f c :
  fsm_ok f ->
  fsm_ok (perform f c).1 /\ MaxNackRetries (perform f c).1 = MaxNackRetries f /\ (perform f c).2.1 = state (perform f c).1.
Proof.
  intros [Hs Hr]. unfold fsm_ok.
  destruct c as [[]| | | |]; simpl; unfold OnInboundFrame, OnEmitResponse, OnInitiatorFinalAck, OnInitiatorNack, refuse;
    try case_bool_decide; simpl; try (destruct (Z.leb_spec (MaxNackRetries f) (retries f)); simpl);
    repeat split; (done || lia).
Qed.

(** Whatever the lane is called with, observers never see NackReceived, the
    count of re-sends stays within the budget, and each call returns the state
    it leaves. *)
Theorem responder_stays_within_budget cs :
  let '(f, rs) := perform_all NewFSM cs in
  state f <> StateNackReceived /\ 0 <= retries f <= DefaultMaxNackRetries /\
  Forall (fun r => r.1 <> StateNackReceived) rs.
Proof.
  assert (forall f, fsm_ok f -> fsm_ok (perform_all f cs).1 /\ MaxNackRetries (perform_all f cs).1 = MaxNackRetries f /\
    Forall (fun r => r.1 <> StateNackReceived) (perform_all f cs).2) as Hall.
  { induction cs as [|c cs IH]; intros f Hf; [by repeat split; try apply Hf|]. simpl.
    destruct (responder_perform_ok f c Hf) as (A & B & C). destruct (perform f c) as [f1 r]. simpl in *.
    destruct (IH f1 A) as (A' & B' & C'). destruct (perform_all f1 cs) as [f2 rs]. simpl in *.
    split; [exact A'|split; [congruence|constructor; [rewrite C; apply A|done]]]. }
  destruct (Hall NewFSM) as ([A B] & C & D); [by split|]. destruct (perform_all NewFSM cs) as [f rs]. simpl in *.
  rewrite C in B. change (Z.max 0 _) with DefaultMaxNackRetries in B. destruct B. by splits.
Qed.

(** [n] rounds in which the response is sent and refused. *)
Definition refusals (n : nat) : list call := concat (repeat [CallEmit; CallNack] n).

Lemma refusals_snoc n : refusals (S n) = refusals n ++ [CallEmit; CallNack].
Proof. unfold refusals. cbn [repeat]. rewrite repeat_cons, concat_app. done. Qed.

(** An accepted frame is answered and, as long as the initiator refuses, answered
    again exactly [MaxNackRetries] times; the next refusal aborts the exchange. *)
Theorem nack_budget_exact f n :
  state f = StateIdle -> MaxNackRetries f = Z.of_nat n ->
  (forall k, (k <= n)%nat ->
     (perform_all f (CallInbound true :: refusals k)).1 = mkFSM StateAckReceived (Z.of_nat k) (MaxNackRetries f)) /\
  (perform_all f (CallInbound true :: refusals n ++ [CallEmit; CallNack])).1
    = mkFSM StateIdle (Z.of_nat n) (MaxNackRetries f) /\
  last (perform_all f (CallInbound true :: refusals n ++ [CallEmit; CallNack])).2
    = Some (StateIdle, Some (ESentinel SRetriesExhausted)).
Proof.
  intros Hs Hn. destruct f as [st r m]. simpl in Hs, Hn. subst st m.
  assert (forall k, (k <= n)%nat -> exists rs,
    perform_all (mkFSM StateIdle r (Z.of_nat n)) (CallInbound true :: refusals k)
      = (mkFSM StateAckReceived (Z.of_nat k) (Z.of_nat n), rs)) as Hk.
  { induction k as [|k IH]; intros Hle; [by eexists|]. destruct IH as [rs E]; [lia|].
    rewrite refusals_snoc, app_comm_cons, perform_all_app, E. simpl. unfold OnInitiatorNack. simpl.
    destruct (Z.leb_spec (Z.of_nat n) (Z.of_nat k)); [lia|]. eexists. do 2 f_equal. lia. }
  destruct (Hk n) as [rs E]; [done|]. splits.
  - intros k Hle. destruct (Hk k Hle) as [rs' ->]. done.
  - rewrite app_comm_cons, perform_all_app, E. simpl. unfold OnInitiatorNack. simpl. by rewrite Z.leb_refl.
  - rewrite app_comm_cons, perform_all_app, E. simpl. unfold OnInitiatorNack. simpl. rewrite Z.leb_refl. simpl.
    by rewrite last_app_cons.
Qed.

(** The dispatcher keeps the bus clean: a frame for another address changes
    nothing but the drop count, and a frame for the local one is accepted
    exactly when the state machine was idle, which it leaves. *)
Theorem Handle_filters d frame :
  let '(d', (accepted, err)) := Handle d frame in
  localAddr d' = localAddr d /\
  if d_Target frame =b localAddr d then
    dropped d' = dropped d /\
    match fsm d with
    | None => accepted = true /\ err = None /\ fsm d' = None
    | Some f =>
        if bool_decide (state f = StateIdle)
        then accepted = true /\ err = None /\ fsm d' = Some (mkFSM StateAckReceived 0 (MaxNackRetries f))
        else accepted = false /\ err = Some (ESentinel SInvalidTransition) /\ fsm d' = Some f
    end
  else accepted = false /\ err = None /\ fsm d' = fsm d /\ dropped d' = wrap 64 (dropped d + 1).
Proof.
  unfold Handle. destruct (d_Target frame =b localAddr d); [|done]. cbn [negb].
  destruct (fsm d) as [f|] eqn:Ef; [|done]. unfold OnInboundFrame, refuse.
  by destruct (bool_decide (state f = StateIdle)).
Qed.

Example nack_budget_exact_witness :
  last (perform_all NewFSM (CallInbound true :: refusals 3 ++ [CallEmit; CallNack])).2
    = Some (StateIdle, Some (ESentinel SRetriesExhausted)).
Proof. apply (nack_budget_exact NewFSM 3); reflexivity. Defined.
