(* ===== verification/StateM.v ===== *)
(** A state monad with a bound on its loops, for components that read and write
    a connection.  [None] means that a loop's bound was too small; everything
    a source function returns, errors included, is an ordinary value. *)

From S2P Require Import Prelude.

Definition SM (S A : Type) : Type := S -> S * option A.

#[export] Instance sm_ret {S} : MRet (SM S) := fun A a s => (s, Some a).
#[export] Instance sm_bind {S} : MBind (SM S) := fun A B f m s =>
  match m s with
  | (s', Some a) => f a s'
  | (s', None) => (s', None)
  end.

Definition out_of_fuel {S A} : SM S A := fun s => (s, None).
Definition gets {S A} (f : S -> A) : SM S A := fun s => (s, Some (f s)).
Definition modify {S} (f : S -> S) : SM S unit := fun s => (f s, Some tt).
Definition when {S} (b : bool) (m : SM S unit) : SM S unit := if b then m else mret tt.

(** A loop over a list that stops at the first element whose body returns. *)
Fixpoint for_each {S A R} (body : A -> SM S (option R)) (l : list A) : SM S (option R) :=
  match l with
  | [] => mret None
  | a :: l' => r ← body a; match r with Some r => mret (Some r) | None => for_each body l' end
  end.

(** A loop over a list that carries a value and stops at the first error. *)
Fixpoint fold_each {S A B E} (body : B -> A -> SM S (result E B)) (b : B) (l : list A) : SM S (result E B) :=
  match l with
  | [] => mret (Ok b)
  | a :: l' => r ← body b a; match r with Ok b' => fold_each body b' l' | Err e => mret (Err e) end
  end.

(** ** Reasoning about runs *)

(** Every result [m] can return from [s] satisfies [Q]; running out of fuel is
    not a result. *)
Definition runs {S A} (m : SM S A) (s : S) (Q : A -> S -> Prop) : Prop :=
  match m s with
  | (s', Some a) => Q a s'
  | (_, None) => True
  end.

(** [m] preserves [I], also when it runs out of fuel. *)
Definition keeps {S A} (I : S -> Prop) (m : SM S A) : Prop := forall s, I s -> I (m s).1.

(** [m] has enough fuel from [s]. *)
Definition returns {S A} (m : SM S A) (s : S) : Prop := exists a, (m s).2 = Some a.

Lemma bind_run {S A B} (m : SM S A) (f : A -> SM S B) s s' a :
  m s = (s', Some a) -> (m ≫= f) s = f a s'.
Proof. intros E. unfold mbind, sm_bind. by rewrite E. Qed.

Lemma bind_inv {S A B} (m : SM S A) (f : A -> SM S B) s s2 b :
  (m ≫= f) s = (s2, Some b) -> exists s1 a, m s = (s1, Some a) /\ f a s1 = (s2, Some b).
Proof.
  unfold mbind, sm_bind. destruct (m s) as [s1 [a|]]; [eauto|done].
Qed.

Lemma runs_ret {S A} (a : A) (s : S) Q : Q a s -> runs (mret a) s Q.
Proof. done. Qed.

Lemma runs_bind {S A B} (m : SM S A) (f : A -> SM S B) s Q :
  runs m s (fun a s' => runs (f a) s' Q) -> runs (m ≫= f) s Q.
Proof. unfold runs, mbind, sm_bind. by destruct (m s) as [s' [a|]]. Qed.

Lemma runs_mono {S A} (m : SM S A) s (P Q : A -> S -> Prop) :
  runs m s P -> (forall a s', P a s' -> Q a s') -> runs m s Q.
Proof. unfold runs. destruct (m s) as [s' [a|]]; auto. Qed.

Lemma runs_modify {S} (f : S -> S) s Q : Q tt (f s) -> runs (modify f) s Q.
Proof. done. Qed.

Lemma runs_gets {S A} (f : S -> A) s Q : Q (f s) s -> runs (gets f) s Q.
Proof. done. Qed.

Lemma keeps_ret {S A} (I : S -> Prop) (a : A) : keeps I (mret a).
Proof. intros s Hs. exact Hs. Qed.

Lemma keeps_bind {S A B} (I : S -> Prop) (m : SM S A) (f : A -> SM S B) :
  keeps I m -> (forall a, keeps I (f a)) -> keeps I (m ≫= f).
Proof.
  intros Hm Hf s Hs. unfold mbind, sm_bind. specialize (Hm s Hs).
  destruct (m s) as [s' [a|]]; [by apply Hf|done].
Qed.

Lemma keeps_gets {S A} (I : S -> Prop) (f : S -> A) : keeps I (gets f).
Proof. intros s Hs. exact Hs. Qed.

Lemma keeps_modify {S} (I : S -> Prop) (f : S -> S) : (forall s, I s -> I (f s)) -> keeps I (modify f).
Proof. intros Hf s Hs. by apply Hf. Qed.

Lemma keeps_when {S} (I : S -> Prop) b (m : SM S unit) : keeps I m -> keeps I (when b m).
Proof. intros H. destruct b; [done|apply keeps_ret]. Qed.

Lemma keeps_out_of_fuel {S A} (I : S -> Prop) : keeps I (@out_of_fuel S A).
Proof. intros s Hs. exact Hs. Qed.

Lemma keeps_for_each {S A R} (I : S -> Prop) (body : A -> SM S (option R)) l :
  (forall a, keeps I (body a)) -> keeps I (for_each body l).
Proof.
  intros Hb. induction l as [|a l IH]; simpl; [apply keeps_ret|].
  apply keeps_bind; [apply Hb|]. intros [r|]; [apply keeps_ret|apply IH].
Qed.

Lemma keeps_fold_each {S A B E} (I : S -> Prop) (body : B -> A -> SM S (result E B)) l b :
  (forall b a, keeps I (body b a)) -> keeps I (fold_each body b l).
Proof.
  intros Hb. revert b. induction l as [|a l IH]; intros b; simpl; [apply keeps_ret|].
  apply keeps_bind; [apply Hb|]. intros [b'|e]; [apply IH|apply keeps_ret].
Qed.

Create HintDb keeps.
#[export] Hint Resolve keeps_ret keeps_gets keeps_when keeps_out_of_fuel keeps_for_each keeps_fold_each : keeps.

(** Decompose a [keeps] goal along the structure of the program. *)
Ltac keeps_step :=
  match goal with
  | |- keeps _ (mret _) => apply keeps_ret
  | |- keeps _ (gets _) => apply keeps_gets
  | |- keeps _ out_of_fuel => apply keeps_out_of_fuel
  | |- keeps _ (when _ _) => apply keeps_when
  | |- keeps _ (_ ≫= _) => apply keeps_bind; [|intros ?]
  | |- keeps _ (for_each _ _) => apply keeps_for_each; intros ?
  | |- keeps _ (fold_each _ _ _) => apply keeps_fold_each; intros ? ?
  | |- keeps _ (match ?x with _ => _ end) => destruct x
  | |- keeps _ _ => solve [auto with keeps]
  end.
Ltac keeps_tac := repeat keeps_step.

Lemma returns_then {S A B} (m : SM S A) (f : A -> SM S B) s :
  returns m s -> (forall s' a, m s = (s', Some a) -> returns (f a) s') -> returns (m ≫= f) s.
Proof.
  intros [a Ha] Hf. unfold returns, mbind, sm_bind. destruct (m s) as [s' r] eqn:E.
  simpl in Ha. subst r. by apply Hf.
Qed.
