(* ===== verification/EnhTransport.v ===== *)
(** transport/enh_transport.go: the session with an enhanced adapter over a
    network connection.  Stream events and their bounded queue, the arbitration
    and post-grant windows, the escape decoder's accounting, the steady-state
    read, the three public readers, writing, blocking and asynchronous
    arbitration, INIT, reconnection and INFO requests.

    The connection, the dialer and the clocks are the class [NetEnv] over a state
    [W] of everything outside.  A method runs under its locks, so other
    goroutines only show at the calls that block: [others] lists what they did
    to the atomic fields meanwhile ([RequestStart] takes no read lock and
    [Close] takes none).  Loops that wait for the adapter take fuel. *)

From S2P Require Import Prelude Errors Enh Escape StateM.
#[local] Open Scope string_scope.
#[local] Open Scope Z_scope.

Definition maxPendingEvents : Z := 256.
Definition rawSymbolCompletesNext : byte := x01.
Definition arbitrationWindowTimeout : Z := 500000000.
Definition postGrantPreEchoTimeout : Z := 50000000.
Definition ebusSymbolSyn : byte := xaa.

(** ** Stream events *)

(** [StreamEventNone] is the kind of the zero [StreamEvent]. *)
Inductive StreamEventKind :=
| StreamEventNone | StreamEventByte | StreamEventReset | StreamEventStarted
| StreamEventFailed | StreamEventWireSyn | streamEventRawSymbol.

#[export] Instance streamkind_eq_dec : EqDecision StreamEventKind.
Proof. solve_decision. Defined.

Record StreamEvent := mkStreamEvent {
  seKind : StreamEventKind; seByte : byte; seData : byte; seWasEscaped : bool }.

Definition zeroEvent : StreamEvent := mkStreamEvent StreamEventNone x00 x00 false.
Definition byteEvent (b : byte) (esc : bool) : StreamEvent := mkStreamEvent StreamEventByte b x00 esc.
Definition wireSynEvent : StreamEvent := mkStreamEvent StreamEventWireSyn ebusSymbolSyn x00 false.
Definition controlEvent (k : StreamEventKind) (d : byte) : StreamEvent := mkStreamEvent k x00 d false.
Definition isKind (k : StreamEventKind) (ev : StreamEvent) : bool := bool_decide (seKind ev = k).

(** ** What the network can report *)

Inductive net_error :=
| NetEOF | NetErrClosed | NetClosedPipe | NetOsClosed | NetConnReset | NetConnAborted
| NetDeadlineExceeded
| NetFailed (msg : string) (timeout : bool)
| NetOpError (op : string) (inner : net_error).

(** [errors.As] finds the outermost [net.Error]; [OpError.Timeout] asks its cause. *)
Fixpoint isTimeout (err : net_error) : bool :=
  match err with
  | NetDeadlineExceeded => true
  | NetFailed _ t => t
  | NetOpError _ inner => isTimeout inner
  | _ => false
  end.

Fixpoint isClosed (err : net_error) : bool :=
  match err with
  | NetEOF | NetErrClosed | NetClosedPipe | NetOsClosed | NetConnReset | NetConnAborted => true
  | NetOpError _ inner => isClosed inner
  | _ => false
  end.

Fixpoint net_error_string (err : net_error) : string :=
  match err with
  | NetEOF => "EOF"
  | NetErrClosed => "use of closed network connection"
  | NetClosedPipe => "io: read/write on closed pipe"
  | NetOsClosed => "file already closed"
  | NetConnReset => "connection reset by peer"
  | NetConnAborted => "software caused connection abort"
  | NetDeadlineExceeded => "i/o timeout"
  | NetFailed msg _ => msg
  | NetOpError op inner => op +:+ ": " +:+ net_error_string inner
  end.

(** [fmt.Errorf] of a text that ends in [": %w"]. *)
Definition wrapf (pre : string) (s : sentinel) : error := EWrap (pre +:+ ": ") (ESentinel s) "".

Definition mapReadError (err : net_error) : error :=
  if isTimeout err then wrapf "enh transport read timeout" STimeout
  else if isClosed err then wrapf "enh transport read closed" STransportClosed
  else wrapf ("enh transport read failed: " +:+ net_error_string err) STransportClosed.

Definition mapWriteError (err : net_error) : error :=
  if isTimeout err then wrapf "enh transport write timeout" STimeout
  else if isClosed err then wrapf "enh transport write closed" STransportClosed
  else wrapf ("enh transport write failed: " +:+ net_error_string err) STransportClosed.

Definition errTransportClosed : error := wrapf "enh transport closed" STransportClosed.

(** ** The environment *)

(** What another goroutine does to the atomic fields while this one blocks. *)
Inductive other_call :=
| OtherStart (initiator : byte) (deadline : Z)
| OtherStartFailed
| OtherClose.

Class NetEnv (W Conn : Type) := {
  conn_Write : Conn -> list byte -> W -> W * (nat * option net_error);
  conn_Read : Conn -> W -> W * (list byte * option net_error);
  conn_SetReadDeadline : Conn -> option Z -> W -> W * option net_error;
  conn_SetWriteDeadline : Conn -> option Z -> W -> W * option net_error;
  conn_Close : Conn -> W -> W * option net_error;
  dialFunc : option (W -> W * result net_error Conn);
  time_Now : W -> W * Z;
  escapeNow : W -> W * Z;
  others : W -> W * list other_call
}.

(** ** The transport *)

(** The fields that goroutines share without the read lock. *)
Record Atomics := mkAtomics {
  closed : bool;
  awaitingStart : bool;
  awaitingStartInitiator : byte;
  arbitrationDeadline : Z;
  postGrantPreEcho : bool;
  postGrantPreEchoDeadline : Z;
  escapeResetPending : bool
}.

(** The fields the read lock protects. *)
Record Reader := mkReader {
  parser : ENHParser;
  pendingEvents : list StreamEvent;
  deferredErr : option error;
  resets : Z;
  escDecoder : EbusEscapeDecoder;
  rawSymbolItems : bool
}.

Record Counters := mkCounters {
  postGrantWindowExpiredCount : Z;
  decodeFaultTotal : Z;
  escapePendingTimeoutTotal : Z;
  escapeRecoveryTotal : Z;
  escapeBudgetExhaustedTotal : Z;
  escapeAaAbsorbedTotal : Z;
  receivedSymbolsTotal : Z;
  enhFramingErrorsTotal : Z;
  enhParserResetsTotal : Z;
  adapterResetResponsesTotal : Z
}.

Record ENHTransport (Conn : Type) := mkTransport {
  conn : Conn;
  readTimeout : Z;
  writeTimeout : Z;
  arbitrationSendsSource : bool;
  at_ : Atomics;
  rd : Reader;
  ct : Counters
}.
Arguments mkTransport {Conn} _ _ _ _ _ _ _.
Arguments conn {Conn} _.
Arguments readTimeout {Conn} _.
Arguments writeTimeout {Conn} _.
Arguments arbitrationSendsSource {Conn} _.
Arguments at_ {Conn} _.
Arguments rd {Conn} _.
Arguments ct {Conn} _.

Definition NewENHTransport {Conn} (c : Conn) (rt wt : Z) : ENHTransport Conn :=
  mkTransport c rt wt true (mkAtomics false false x00 0 false 0 false)
    (mkReader idle_parser [] None 0 idle_decoder false) (mkCounters 0 0 0 0 0 0 0 0 0 0).

Definition NewENSTransport {Conn} (c : Conn) (rt wt : Z) : ENHTransport Conn := NewENHTransport c rt wt.
Definition ArbitrationSendsSource {Conn} (t : ENHTransport Conn) : bool := arbitrationSendsSource t.
Definition BytesAreUnescaped {Conn} (t : ENHTransport Conn) : bool := true.

(** Updates of single fields. *)
Definition set_closed (v : bool) (a : Atomics) : Atomics :=
  mkAtomics v (awaitingStart a) (awaitingStartInitiator a) (arbitrationDeadline a)
    (postGrantPreEcho a) (postGrantPreEchoDeadline a) (escapeResetPending a).
Definition set_awaiting (v : bool) (a : Atomics) : Atomics :=
  mkAtomics (closed a) v (awaitingStartInitiator a) (arbitrationDeadline a)
    (postGrantPreEcho a) (postGrantPreEchoDeadline a) (escapeResetPending a).
Definition set_initiator (v : byte) (a : Atomics) : Atomics :=
  mkAtomics (closed a) (awaitingStart a) v (arbitrationDeadline a)
    (postGrantPreEcho a) (postGrantPreEchoDeadline a) (escapeResetPending a).
Definition set_deadline (v : Z) (a : Atomics) : Atomics :=
  mkAtomics (closed a) (awaitingStart a) (awaitingStartInitiator a) v
    (postGrantPreEcho a) (postGrantPreEchoDeadline a) (escapeResetPending a).
Definition set_grant (open : bool) (deadline : Z) (a : Atomics) : Atomics :=
  mkAtomics (closed a) (awaitingStart a) (awaitingStartInitiator a) (arbitrationDeadline a)
    open deadline (escapeResetPending a).
Definition set_escape_reset (v : bool) (a : Atomics) : Atomics :=
  mkAtomics (closed a) (awaitingStart a) (awaitingStartInitiator a) (arbitrationDeadline a)
    (postGrantPreEcho a) (postGrantPreEchoDeadline a) v.

Definition set_parser (v : ENHParser) (r : Reader) : Reader :=
  mkReader v (pendingEvents r) (deferredErr r) (resets r) (escDecoder r) (rawSymbolItems r).
Definition set_events (v : list StreamEvent) (r : Reader) : Reader :=
  mkReader (parser r) v (deferredErr r) (resets r) (escDecoder r) (rawSymbolItems r).
Definition set_deferred (v : option error) (r : Reader) : Reader :=
  mkReader (parser r) (pendingEvents r) v (resets r) (escDecoder r) (rawSymbolItems r).
Definition set_resets (v : Z) (r : Reader) : Reader :=
  mkReader (parser r) (pendingEvents r) (deferredErr r) v (escDecoder r) (rawSymbolItems r).
Definition set_decoder (v : EbusEscapeDecoder) (r : Reader) : Reader :=
  mkReader (parser r) (pendingEvents r) (deferredErr r) (resets r) v (rawSymbolItems r).
Definition set_raw (v : bool) (r : Reader) : Reader :=
  mkReader (parser r) (pendingEvents r) (deferredErr r) (resets r) (escDecoder r) v.

(** ** The bounded queue of events *)

Definition pendingCapLocked (r : Reader) : Z :=
  if rawSymbolItems r then 2 * maxPendingEvents else maxPendingEvents.

Definition evictable (ev : StreamEvent) : bool :=
  isKind StreamEventByte ev || isKind StreamEventWireSyn ev || isKind streamEventRawSymbol ev.

Definition completes_next (ev : StreamEvent) : bool :=
  isKind streamEventRawSymbol ev && (seData ev =b rawSymbolCompletesNext).

(** The eviction scan of [appendControlEventLocked]: the first evictable event,
    and the logical item a raw item announces, are cut out. *)
Fixpoint evict (evs : list StreamEvent) : option (list StreamEvent) :=
  match evs with
  | [] => None
  | ev :: rest =>
      if evictable ev then
        Some (if completes_next ev && negb (bool_decide (rest = [])) then tail rest else rest)
      else cons ev <$> evict rest
  end.

Definition appendControlEventLocked (ev : StreamEvent) (r : Reader) : Reader :=
  let evs :=
    if pendingCapLocked r <=? len (pendingEvents r) then
      match evict (pendingEvents r) with
      | Some evs => evs
      | None => tail (pendingEvents r)
      end
    else pendingEvents r in
  set_events (evs ++ [ev]) r.

Definition appendDecodedByteLocked (decoded : byte) (wasEscaped : bool) (r : Reader) : Reader :=
  if len (pendingEvents r) <? maxPendingEvents
  then set_events (pendingEvents r ++ [byteEvent decoded wasEscaped]) r else r.

Definition appendWireSynLocked (r : Reader) : Reader :=
  if len (pendingEvents r) <? maxPendingEvents
  then set_events (pendingEvents r ++ [wireSynEvent]) r else r.

(** [None] for a symbol that completed no logical item. *)
Definition queueObservedSymbolLocked (symbol : byte) (logical : option StreamEvent) (r : Reader) : Reader :=
  if negb (rawSymbolItems r) then
    match logical with
    | None => r
    | Some ev =>
        if isKind StreamEventWireSyn ev then appendWireSynLocked r
        else appendDecodedByteLocked (seByte ev) (seWasEscaped ev) r
    end
  else
    let need := match logical with Some _ => 2 | None => 3 end in
    if pendingCapLocked r <? len (pendingEvents r) + need then r
    else
      let raw := mkStreamEvent streamEventRawSymbol symbol
        (match logical with Some _ => rawSymbolCompletesNext | None => x00 end) false in
      set_events (pendingEvents r ++ raw :: option_list logical) r.

(** ** Counters *)

Definition add_count (d z : Z) : Z := wrap 64 (z + d).

Definition count_received (d : Z) (c : Counters) : Counters :=
  mkCounters (postGrantWindowExpiredCount c) (decodeFaultTotal c) (escapePendingTimeoutTotal c)
    (escapeRecoveryTotal c) (escapeBudgetExhaustedTotal c) (escapeAaAbsorbedTotal c)
    (add_count d (receivedSymbolsTotal c)) (enhFramingErrorsTotal c) (enhParserResetsTotal c)
    (adapterResetResponsesTotal c).
Definition count_framing_error (c : Counters) : Counters :=
  mkCounters (postGrantWindowExpiredCount c) (decodeFaultTotal c) (escapePendingTimeoutTotal c)
    (escapeRecoveryTotal c) (escapeBudgetExhaustedTotal c) (escapeAaAbsorbedTotal c)
    (receivedSymbolsTotal c) (add_count 1 (enhFramingErrorsTotal c)) (enhParserResetsTotal c)
    (adapterResetResponsesTotal c).
Definition count_parser_reset (c : Counters) : Counters :=
  mkCounters (postGrantWindowExpiredCount c) (decodeFaultTotal c) (escapePendingTimeoutTotal c)
    (escapeRecoveryTotal c) (escapeBudgetExhaustedTotal c) (escapeAaAbsorbedTotal c)
    (receivedSymbolsTotal c) (enhFramingErrorsTotal c) (add_count 1 (enhParserResetsTotal c))
    (adapterResetResponsesTotal c).
Definition count_adapter_reset (c : Counters) : Counters :=
  mkCounters (postGrantWindowExpiredCount c) (decodeFaultTotal c) (escapePendingTimeoutTotal c)
    (escapeRecoveryTotal c) (escapeBudgetExhaustedTotal c) (escapeAaAbsorbedTotal c)
    (receivedSymbolsTotal c) (enhFramingErrorsTotal c) (enhParserResetsTotal c)
    (add_count 1 (adapterResetResponsesTotal c)).
Definition count_grant_expired (c : Counters) : Counters :=
  mkCounters (add_count 1 (postGrantWindowExpiredCount c)) (decodeFaultTotal c) (escapePendingTimeoutTotal c)
    (escapeRecoveryTotal c) (escapeBudgetExhaustedTotal c) (escapeAaAbsorbedTotal c)
    (receivedSymbolsTotal c) (enhFramingErrorsTotal c) (enhParserResetsTotal c)
    (adapterResetResponsesTotal c).
Definition count_aa_absorbed (d : Z) (c : Counters) : Counters :=
  mkCounters (postGrantWindowExpiredCount c) (decodeFaultTotal c) (escapePendingTimeoutTotal c)
    (escapeRecoveryTotal c) (escapeBudgetExhaustedTotal c) (add_count d (escapeAaAbsorbedTotal c))
    (receivedSymbolsTotal c) (enhFramingErrorsTotal c) (enhParserResetsTotal c)
    (adapterResetResponsesTotal c).

(** The four counters an admin event moves, and whether the byte is dropped. *)
Definition applyEscapeAdminEvent (admin : AdminEvent) (c : Counters) : Counters * bool :=
  match Kind admin with
  | AdminEventEscapePendingTimeout =>
      (mkCounters (postGrantWindowExpiredCount c) (decodeFaultTotal c) (add_count 1 (escapePendingTimeoutTotal c))
        (escapeRecoveryTotal c) (escapeBudgetExhaustedTotal c) (escapeAaAbsorbedTotal c)
        (receivedSymbolsTotal c) (enhFramingErrorsTotal c) (enhParserResetsTotal c)
        (adapterResetResponsesTotal c), false)
  | AdminEventEscapeRecovery =>
      (mkCounters (postGrantWindowExpiredCount c) (add_count 1 (decodeFaultTotal c)) (escapePendingTimeoutTotal c)
        (add_count 1 (escapeRecoveryTotal c)) (escapeBudgetExhaustedTotal c) (escapeAaAbsorbedTotal c)
        (receivedSymbolsTotal c) (enhFramingErrorsTotal c) (enhParserResetsTotal c)
        (adapterResetResponsesTotal c), true)
  | AdminEventEscapeBudgetExhausted =>
      (mkCounters (postGrantWindowExpiredCount c) (add_count 1 (decodeFaultTotal c)) (escapePendingTimeoutTotal c)
        (escapeRecoveryTotal c) (add_count 1 (escapeBudgetExhaustedTotal c)) (escapeAaAbsorbedTotal c)
        (receivedSymbolsTotal c) (enhFramingErrorsTotal c) (enhParserResetsTotal c)
        (adapterResetResponsesTotal c), true)
  | AdminEventNone => (c, false)
  end.

Record BaudObservabilitySnapshot := mkBaudSnapshot {
  ReceivedSymbolsTotal : Z; ENHFramingErrorsTotal : Z; ENHParserResetsTotal : Z;
  AdapterResetResponsesTotal : Z; EscapeDecodeFaultsTotal : Z; EscapeRecoveriesTotal : Z;
  EscapeBudgetExhausted : Z; EscapePendingTimeoutsTotal : Z }.

Definition DecodeFaultTotal {Conn} (t : ENHTransport Conn) : Z := decodeFaultTotal (ct t).
Definition EscapePendingTimeoutTotal {Conn} (t : ENHTransport Conn) : Z := escapePendingTimeoutTotal (ct t).
Definition EscapeRecoveryTotal {Conn} (t : ENHTransport Conn) : Z := escapeRecoveryTotal (ct t).
Definition EscapeBudgetExhaustedTotal {Conn} (t : ENHTransport Conn) : Z := escapeBudgetExhaustedTotal (ct t).
Definition EscapeAaAbsorbedTotal {Conn} (t : ENHTransport Conn) : Z := escapeAaAbsorbedTotal (ct t).
Definition PostGrantWindowExpiredCount {Conn} (t : ENHTransport Conn) : Z := postGrantWindowExpiredCount (ct t).

Definition BaudSnapshot {Conn} (t : ENHTransport Conn) : BaudObservabilitySnapshot :=
  mkBaudSnapshot (receivedSymbolsTotal (ct t)) (enhFramingErrorsTotal (ct t)) (enhParserResetsTotal (ct t))
    (adapterResetResponsesTotal (ct t)) (DecodeFaultTotal t) (EscapeRecoveryTotal t)
    (EscapeBudgetExhaustedTotal t) (EscapePendingTimeoutTotal t).

(** ** Methods *)

Section Methods.
Context {W Conn : Type} `{NetEnv W Conn}.

Definition TS : Type := ENHTransport Conn * W.

Definition atomics (f : Atomics -> Atomics) : SM TS unit :=
  modify (fun s => (mkTransport (conn s.1) (readTimeout s.1) (writeTimeout s.1) (arbitrationSendsSource s.1)
                      (f (at_ s.1)) (rd s.1) (ct s.1), s.2)).
Definition reader (f : Reader -> Reader) : SM TS unit :=
  modify (fun s => (mkTransport (conn s.1) (readTimeout s.1) (writeTimeout s.1) (arbitrationSendsSource s.1)
                      (at_ s.1) (f (rd s.1)) (ct s.1), s.2)).
Definition counters (f : Counters -> Counters) : SM TS unit :=
  modify (fun s => (mkTransport (conn s.1) (readTimeout s.1) (writeTimeout s.1) (arbitrationSendsSource s.1)
                      (at_ s.1) (rd s.1) (f (ct s.1)), s.2)).
Definition set_conn (c : Conn) : SM TS unit :=
  modify (fun s => (mkTransport c (readTimeout s.1) (writeTimeout s.1) (arbitrationSendsSource s.1)
                      (at_ s.1) (rd s.1) (ct s.1), s.2)).
Definition get_at {A} (f : Atomics -> A) : SM TS A := gets (fun s => f (at_ s.1)).
Definition get_rd {A} (f : Reader -> A) : SM TS A := gets (fun s => f (rd s.1)).

(** A call into the environment. *)
Definition env {A} (f : W -> W * A) : SM TS A := fun s => let '(w, a) := f s.2 in ((s.1, w), Some a).
Definition on_conn {A} (f : Conn -> W -> W * A) : SM TS A := fun s => env (f (conn s.1)) s.
Definition Now : SM TS Z := env time_Now.

(** [openPostGrantPreEchoWindow] and its companions. *)
Definition openPostGrantPreEchoWindow : SM TS unit :=
  t ← Now; atomics (set_grant true (t + postGrantPreEchoTimeout)).
Definition closePostGrant (a : Atomics) : Atomics := set_grant false 0 a.
Definition closePostGrantPreEchoWindow : SM TS unit := atomics closePostGrant.

Definition arbitrationWindowExpired : SM TS bool :=
  deadline ← get_at arbitrationDeadline;
  if deadline =? 0 then mret false else t ← Now; mret (deadline <=? t).
Definition postGrantPreEchoExpired : SM TS bool :=
  deadline ← get_at postGrantPreEchoDeadline;
  if deadline =? 0 then mret false else t ← Now; mret (deadline <=? t).

(** The stores of [RequestStart] before its write and after a failed one. *)
Definition openArbitration (initiator : byte) (deadline : Z) (a : Atomics) : Atomics :=
  set_awaiting true (set_initiator initiator (set_deadline deadline a)).
Definition abortArbitration (a : Atomics) : Atomics :=
  set_deadline 0 (set_awaiting false (set_escape_reset true a)).
Definition closeAtomics (a : Atomics) : Atomics :=
  closePostGrant (set_deadline 0 (set_awaiting false (set_closed true a))).

Definition other_effect (a : Atomics) (o : other_call) : Atomics :=
  match o with
  | OtherStart initiator deadline => openArbitration initiator deadline a
  | OtherStartFailed => abortArbitration a
  | OtherClose => closeAtomics a
  end.

(** What other goroutines did while this one was blocked. *)
Definition blocked : SM TS unit := os ← env others; atomics (fun a => foldl other_effect a os).

Definition resetENHParserLocked : SM TS unit :=
  reader (fun r => set_parser (Enh.Reset (parser r)) r);; counters count_parser_reset.
Definition resetDecoder : SM TS unit := reader (fun r => set_decoder (Escape.Reset (escDecoder r)) r).

Definition resetStateLocked : SM TS unit :=
  resetENHParserLocked;;
  reader (set_events []);;
  reader (set_deferred None);;
  atomics (set_awaiting false);;
  atomics (set_deadline 0);;
  closePostGrantPreEchoWindow;;
  atomics (set_escape_reset false);;
  resetDecoder.

Definition surfaceResetLocked : SM TS unit := resetStateLocked;; reader (fun r => set_resets (resets r + 1) r).

Definition resetPendingEscapeBeforeEmissionLocked : SM TS unit :=
  p ← get_at escapeResetPending; atomics (set_escape_reset false);; when p resetDecoder.

Definition feedEscapeDecoderLocked (raw : byte) : SM TS (option (byte * bool)) :=
  before ← get_rd (fun r => AbsorbedCount (escDecoder r));
  t ← env escapeNow;
  d ← get_rd escDecoder;
  let '(d', (out, admin)) := Escape.Feed d raw t in
  reader (set_decoder d');;
  when (0 <? AbsorbedCount d' - before) (counters (count_aa_absorbed (AbsorbedCount d' - before)));;
  counters (fun c => (applyEscapeAdminEvent admin c).1);;
  c ← gets (fun s : TS => ct s.1);
  mret (if (applyEscapeAdminEvent admin c).2 then None else out).

Definition queueObserved (symbol : byte) (logical : option StreamEvent) : SM TS unit :=
  reader (queueObservedSymbolLocked symbol logical).
Definition appendControl (ev : StreamEvent) : SM TS unit := reader (appendControlEventLocked ev).

Definition setReadDeadline : SM TS (option net_error) :=
  rt ← gets (fun s : TS => readTimeout s.1);
  if rt <=? 0 then on_conn (fun c => conn_SetReadDeadline c None)
  else t ← Now; on_conn (fun c => conn_SetReadDeadline c (Some (t + rt))).
Definition setWriteDeadline : SM TS (option net_error) :=
  wt ← gets (fun s : TS => writeTimeout s.1);
  if wt <=? 0 then on_conn (fun c => conn_SetWriteDeadline c None)
  else t ← Now; on_conn (fun c => conn_SetWriteDeadline c (Some (t + wt))).

Definition connRead : SM TS (list byte * option net_error) := r ← on_conn conn_Read; blocked;; mret r.
Definition connWrite (data : list byte) : SM TS (nat * option net_error) :=
  r ← on_conn (fun c => conn_Write c data); blocked;; mret r.

Fixpoint count_messages (msgs : list ENHMessage) (c : Counters) : Counters :=
  match msgs with
  | [] => c
  | m :: msgs' =>
      count_messages msgs'
        (if msgCommand m =b ENHResReceived then count_received 1 c
         else if msgCommand m =b ENHResResetted then count_adapter_reset c else c)
  end.

Definition parseObservedLocked (data : list byte) : SM TS (list ENHMessage * option error) :=
  p ← get_rd parser;
  let '(p', (msgs, err)) := Enh.Parse p data in
  reader (set_parser p');;
  counters (count_messages msgs);;
  when (bool_decide (err <> None)) (counters count_framing_error);;
  mret (msgs, err).

(** The write loop the source repeats in [initSendLocked], [Write],
    [StartArbitration] and [RequestInfo]: how much was written, and the mapped
    error that ended it.  Every turn that continues writes at least one byte, so
    the length of the data bounds the turns. *)
Fixpoint write_turns (fuel : nat) (written : nat) (data : list byte) : SM TS (nat * option error) :=
  match fuel with
  | O => mret (written, None)
  | S fuel' =>
      if bool_decide (written < length data)%nat then
        e ← setWriteDeadline;
        match e with
        | Some err => mret (written, Some (mapWriteError err))
        | None =>
            r ← connWrite (drop written data);
            let '(n, err) := r : nat * option net_error in
            match err with
            | Some err => mret ((written + n)%nat, Some (mapWriteError err))
            | None => if (n =? 0)%nat then mret (written, None) else write_turns fuel' (written + n)%nat data
            end
        end
      else mret (written, None)
  end.
Definition writeAll (data : list byte) : SM TS (nat * option error) := write_turns (length data) 0 data.

Definition sendFrame (command data : byte) : list byte :=
  let '(b1, b2) := EncodeENH command data in [b1; b2].

(** *** INIT *)

Record InitResult := mkInitResult { Features : byte; Confirmed : bool }.

Definition initSendLocked (features : byte) : SM TS (option error) :=
  let seq := sendFrame ENHReqInit features in
  r ← writeAll seq;
  let '(written, err) := r : nat * option error in
  mret (match err with
        | Some e => Some e
        | None => if (written =? length seq)%nat then None else Some (ESentinel SInvalidPayload)
        end).

(** The timeout branch of the INIT wait: the adapter did not confirm. *)
Definition initUnconfirmed : SM TS (result error InitResult) :=
  resetENHParserLocked;;
  reader (set_deferred None);;
  atomics (set_awaiting false);;
  mret (Ok (mkInitResult x00 false)).

Definition initMessage (msg : ENHMessage) : SM TS (option (result error InitResult)) :=
  let d := msgData msg in
  if msgCommand msg =b ENHResReceived then
    out ← feedEscapeDecoderLocked d;
    match out with
    | Some (decoded, wasEscaped) => queueObserved d (Some (byteEvent decoded wasEscaped))
    | None => queueObserved d None
    end;;
    mret None
  else if msgCommand msg =b ENHResResetted then
    resetStateLocked;; mret (Some (Ok (mkInitResult d true)))
  else if msgCommand msg =b ENHResErrorEBUS then
    mret (Some (Err (wrapf ("enh init ebus error 0x" +:+ fmt_02x d) SInvalidPayload)))
  else if msgCommand msg =b ENHResErrorHost then
    mret (Some (Err (wrapf ("enh init host error 0x" +:+ fmt_02x d) SAdapterHostError)))
  else mret None.

Definition initDeadline (remaining : Z) : SM TS (option net_error) :=
  rt ← gets (fun s : TS => readTimeout s.1);
  if (rt <=? 0) || (remaining <? rt)
  then t ← Now; on_conn (fun c => conn_SetReadDeadline c (Some (t + remaining)))
  else setReadDeadline.

Fixpoint initRecv_loop (fuel : nat) (maxWait start : Z) : SM TS (result error InitResult) :=
  match fuel with
  | O => out_of_fuel
  | S fuel' =>
      t ← Now;
      let remaining := maxWait - (t - start) in
      if remaining <=? 0 then initUnconfirmed
      else
        e ← initDeadline remaining;
        match e with
        | Some err => mret (Err (mapReadError err))
        | None =>
            r ← connRead;
            match r with
            | (_, Some err) => if isTimeout err then initUnconfirmed else mret (Err (mapReadError err))
            | ([], None) => initRecv_loop fuel' maxWait start
            | (data, None) =>
                m ← parseObservedLocked data;
                let '(msgs, parseErr) := m : list ENHMessage * option error in
                res ← for_each initMessage msgs;
                match res with
                | Some res => mret res
                | None =>
                    match parseErr with
                    | Some err => resetENHParserLocked;; resetDecoder;; mret (Err err)
                    | None => initRecv_loop fuel' maxWait start
                    end
                end
            end
        end
  end.

Definition initRecvResultLocked (fuel : nat) : SM TS (result error InitResult) :=
  rt ← gets (fun s : TS => readTimeout s.1);
  start ← Now;
  initRecv_loop fuel (if rt <=? 0 then 2000000000 else rt) start.

Definition initWithResultLocked (fuel : nat) (features : byte) : SM TS (result error InitResult) :=
  e ← initSendLocked features;
  match e with
  | Some err => mret (Err err)
  | None => initRecvResultLocked fuel
  end.

(** [initLocked] is the same handshake with the features byte as its result. *)
Definition InitWithResult (fuel : nat) (features : byte) : SM TS (result error InitResult) :=
  c ← get_at closed;
  if c : bool then mret (Err errTransportClosed) else initWithResultLocked fuel features.
Definition Init (fuel : nat) (features : byte) : SM TS (result error byte) :=
  r ← InitWithResult fuel features;
  mret (match r with Ok i => Ok (Features i) | Err e => Err e end).

(** *** Reconnection *)

(** The swap of connections, under both locks, with [Close] checked once more. *)
Definition swapAndSendInit (newConn : Conn) : SM TS (option error) :=
  c ← get_at closed;
  if c : bool then
    env (conn_Close newConn);; mret (Some (wrapf "enh transport closed during reconnect" STransportClosed))
  else
    oldConn ← gets (fun s : TS => conn s.1);
    set_conn newConn;;
    env (conn_Close oldConn);;
    resetStateLocked;;
    e ← initSendLocked x01;
    match e with
    | Some err =>
        on_conn conn_Close;;
        mret (Some (wrapf ("enh reconnect init send: " +:+ error_string err) STransportClosed))
    | None => mret None
    end.

Definition reconnectLocked (fuel : nat) : SM TS (option error) :=
  c ← get_at closed;
  if c : bool then mret (Some errTransportClosed)
  else
    match dialFunc with
    | None => resetStateLocked;; mret None
    | Some dial =>
        r ← env dial;
        blocked;;
        match r with
        | Err err => mret (Some (wrapf ("enh reconnect dial: " +:+ net_error_string err) STransportClosed))
        | Ok newConn =>
            e ← swapAndSendInit newConn;
            match e with
            | Some err => mret (Some err)
            | None =>
                i ← initRecvResultLocked fuel;
                mret (match i with
                      | Ok _ => None
                      | Err err => Some (EWrap "enh reconnect init recv: " err "")
                      end)
            end
        end
    end.

Definition Reconnect (fuel : nat) : SM TS (option error) :=
  c ← get_at closed;
  if c : bool then mret (Some errTransportClosed)
  else
    match dialFunc with
    | None => mret (Some (wrapf "enh transport reconnect: no dial function configured" STransportClosed))
    | Some _ => reconnectLocked fuel
    end.

(** *** Messages of the steady-state read *)

(** A symbol while [RequestStart] awaits its grant: only idle SYNs pass, as
    markers that [ReadByte] skips. *)
Definition receivedBeforeGrant (raw : byte) : SM TS unit :=
  out ← feedEscapeDecoderLocked raw;
  match out with
  | Some (decoded, wasEscaped) =>
      when ((decoded =b ebusSymbolSyn) && negb wasEscaped) (queueObserved raw (Some wireSynEvent))
  | None => mret tt
  end.

(** The post-grant window's verdict on a decoded byte: whether to deliver it. *)
Definition passesGrantWindow (decoded : byte) (wasEscaped : bool) : SM TS bool :=
  open ← get_at postGrantPreEcho;
  if open : bool then
    expired ← postGrantPreEchoExpired;
    if expired : bool then
      closePostGrantPreEchoWindow;; counters count_grant_expired;; mret true
    else if (decoded =b ebusSymbolSyn) && negb wasEscaped then mret false
    else closePostGrantPreEchoWindow;; mret true
  else mret true.

Definition receivedSteady (raw : byte) : SM TS unit :=
  resetPendingEscapeBeforeEmissionLocked;;
  out ← feedEscapeDecoderLocked raw;
  match out with
  | None => queueObserved raw None
  | Some (decoded, wasEscaped) =>
      pass ← passesGrantWindow decoded wasEscaped;
      when pass (queueObserved raw (Some (byteEvent decoded wasEscaped)))
  end.

(** The [ENHResReceived] case of [fillPendingLocked] and [RequestInfo]. *)
Definition onReceived (raw : byte) : SM TS unit :=
  awaiting ← get_at awaitingStart;
  if awaiting : bool then
    expired ← arbitrationWindowExpired;
    if expired : bool then
      resetDecoder;; atomics (set_awaiting false);; atomics (set_deadline 0);; receivedSteady raw
    else receivedBeforeGrant raw
  else receivedSteady raw.

(** The [ENHResStarted] and [ENHResFailed] cases of both. *)
Definition onStarted (d : byte) : SM TS unit :=
  awaiting ← get_at awaitingStart;
  mine ← get_at awaitingStartInitiator;
  if awaiting && negb (mine =b d) then appendControl (controlEvent StreamEventStarted d)
  else
    atomics (set_awaiting false);;
    atomics (set_deadline 0);;
    resetDecoder;;
    openPostGrantPreEchoWindow;;
    appendControl (controlEvent StreamEventStarted d).

Definition onFailed (d : byte) : SM TS unit :=
  atomics (set_awaiting false);;
  atomics (set_deadline 0);;
  closePostGrantPreEchoWindow;;
  resetDecoder;;
  appendControl (controlEvent StreamEventFailed d).

(** [ENHResResetted]: [Some] when the read returns there. *)
Definition onResetted (fuel : nat) (d : byte) : SM TS (option (option error)) :=
  match dialFunc with
  | Some _ =>
      e ← reconnectLocked fuel;
      match e with
      | Some _ => mret (Some (Some (wrapf "enh adapter reset during read, reconnect failed" STransportClosed)))
      | None => reader (fun r => set_resets (resets r + 1) r);; mret (Some None)
      end
  | None =>
      closePostGrantPreEchoWindow;;
      resetDecoder;;
      appendControl (controlEvent StreamEventReset d);;
      mret None
  end.

Definition fillMessage (fuel : nat) (msg : ENHMessage) : SM TS (option (option error)) :=
  let d := msgData msg in
  if msgCommand msg =b ENHResReceived then onReceived d;; mret None
  else if msgCommand msg =b ENHResStarted then onStarted d;; mret None
  else if msgCommand msg =b ENHResFailed then onFailed d;; mret None
  else if msgCommand msg =b ENHResResetted then onResetted fuel d
  else mret None.

(** The treatment of a framing error after the messages before it. *)
Definition fillParseError (msgs : list ENHMessage) (err : error) : SM TS (option error) :=
  if errors_is err SInvalidPayload then
    resetENHParserLocked;;
    resetDecoder;;
    wasAwaiting ← get_at awaitingStart;
    atomics (set_awaiting false);;
    if wasAwaiting : bool then mret (Some err)
    else if bool_decide (msgs <> []) then reader (set_deferred (Some err));; mret None
    else mret (Some err)
  else mret (Some err).

Definition fillChunk (fuel : nat) (data : list byte) : SM TS (option error) :=
  m ← parseObservedLocked data;
  let '(msgs, parseErr) := m : list ENHMessage * option error in
  res ← for_each (fillMessage fuel) msgs;
  match res with
  | Some res => mret res
  | None => match parseErr with Some err => fillParseError msgs err | None => mret None end
  end.

Definition fillTimeout : SM TS unit :=
  resetENHParserLocked;;
  awaiting ← get_at awaitingStart;
  when awaiting resetDecoder;;
  atomics (set_awaiting false).

Definition fillPendingLocked (fuel : nat) : SM TS (option error) :=
  e ← setReadDeadline;
  match e with
  | Some err => mret (Some (mapReadError err))
  | None =>
      r ← connRead;
      match r with
      | (_, Some err) => when (isTimeout err) fillTimeout;; mret (Some (mapReadError err))
      | ([], None) => mret None
      | (data, None) => fillChunk fuel data
      end
  end.

(** *** The readers *)

(** A reader's turn: pending resets first, then queued events, then a deferred
    framing error, and only then the connection. [take] looks for something to
    return in the queue and gives what is left of it. *)
Fixpoint read_loop {A} (fuel : nat) (reset : result error A)
    (take : list StreamEvent -> list StreamEvent * option A) : SM TS (result error A) :=
  match fuel with
  | O => out_of_fuel
  | S fuel' =>
      n ← get_rd resets;
      if 0 <? n then reader (set_resets (n - 1));; mret reset
      else
        evs ← get_rd pendingEvents;
        reader (set_events (take evs).1);;
        match (take evs).2 with
        | Some a => mret (Ok a)
        | None =>
            d ← get_rd deferredErr;
            match d with
            | Some err => reader (set_deferred None);; mret (Err err)
            | None =>
                e ← fillPendingLocked fuel';
                match e with
                | Some err => mret (Err err)
                | None => read_loop fuel' reset take
                end
            end
        end
  end.

(** [readByteAndFlag]: the first byte event; everything before it is skipped. *)
Fixpoint takeByte (evs : list StreamEvent) : list StreamEvent * option (byte * bool) :=
  match evs with
  | [] => ([], None)
  | ev :: rest => if isKind StreamEventByte ev then (rest, Some (seByte ev, seWasEscaped ev)) else takeByte rest
  end.

Fixpoint takeEvent (evs : list StreamEvent) : list StreamEvent * option StreamEvent :=
  match evs with
  | [] => ([], None)
  | ev :: rest => if isKind streamEventRawSymbol ev then takeEvent rest else (rest, Some ev)
  end.

(** The raw reader's item: the event, and the symbol when it has one. *)
Definition takeRaw (evs : list StreamEvent) : list StreamEvent * option (StreamEvent * option byte) :=
  match evs with
  | [] => ([], None)
  | ev :: rest =>
      if negb (isKind streamEventRawSymbol ev) then (rest, Some (ev, None))
      else if seData ev =b rawSymbolCompletesNext then
        match rest with
        | logical :: rest' => (rest', Some (logical, Some (seByte ev)))
        | [] => ([], Some (zeroEvent, Some (seByte ev)))
        end
      else (rest, Some (zeroEvent, Some (seByte ev)))
  end.

Definition resetEvent : StreamEvent := mkStreamEvent StreamEventReset x00 x00 false.

Definition guarded {A} (m : SM TS (result error A)) : SM TS (result error A) :=
  c ← get_at closed; if c : bool then mret (Err errTransportClosed) else m.

Definition ReadByteWithEscape (fuel : nat) : SM TS (result error (byte * bool)) :=
  guarded (read_loop fuel (Err (ESentinel SAdapterReset)) takeByte).
Definition ReadByte (fuel : nat) : SM TS (result error byte) :=
  r ← ReadByteWithEscape fuel; mret (match r with Ok (b, _) => Ok b | Err e => Err e end).
Definition ReadEvent (fuel : nat) : SM TS (result error StreamEvent) :=
  guarded (read_loop fuel (Ok resetEvent) takeEvent).
Definition ReadEventWithRawSymbol (fuel : nat) : SM TS (result error (StreamEvent * option byte)) :=
  guarded (reader (set_raw true);; read_loop fuel (Ok (resetEvent, None)) takeRaw).

(** *** Writing *)

Definition Write (payload : list byte) : SM TS (Z * option error) :=
  c ← get_at closed;
  if c : bool then mret (0, Some errTransportClosed)
  else if bool_decide (payload = []) then mret (0, None)
  else
    let encoded := payload ≫= sendFrame ENHReqSend in
    r ← writeAll encoded;
    let '(written, err) := r : nat * option error in
    mret (match err with
          | Some e => (Z.of_nat written / 2, Some e)
          | None =>
              if (written =? length encoded)%nat then (len payload, None)
              else (Z.of_nat written / 2, Some (ESentinel SInvalidPayload))
          end).

Definition SendResponderBytes (payload : list byte) : SM TS (Z * option error) := Write payload.

(** *** Blocking arbitration *)

(** The loop's variables: mismatches so far, whether it is over, and its error. *)
Record arbitration := mkArbitration { mismatchCount : Z; arbitrationDone : bool; arbitrationErr : option error }.

Definition decided (err : option error) (s : arbitration) : arbitration := mkArbitration (mismatchCount s) true err.

Definition arbitrationMessage (fuel : nat) (initiator : byte) (s : arbitration) (msg : ENHMessage)
    : SM TS (result error arbitration) :=
  let d := msgData msg in
  if msgCommand msg =b ENHResReceived then feedEscapeDecoderLocked d;; mret (Ok s)
  else if msgCommand msg =b ENHResResetted then
    e ← reconnectLocked fuel;
    mret (Ok (decided (Some (match e with
      | Some _ => wrapf "enh adapter reset during arbitration, reconnect failed" STransportClosed
      | None => wrapf ("enh adapter reset during arbitration (features 0x" +:+ fmt_02x d +:+ ")") SAdapterReset
      end)) s))
  else if msgCommand msg =b ENHResStarted then
    mret (Ok (
      if d =b initiator then mkArbitration (mismatchCount s) true (arbitrationErr s)
      else
        let count := mismatchCount s + 1 in
        if 3 <=? count then
          mkArbitration count true
            (Some (wrapf ("enh arbitration started with wrong address 0x" +:+ fmt_02x d +:+ " (expected 0x"
                          +:+ fmt_02x initiator +:+ ", " +:+ fmt_d count +:+ " mismatches)") SInvalidPayload))
        else mkArbitration count (arbitrationDone s) (arbitrationErr s)))
  else if msgCommand msg =b ENHResFailed then
    mret (Ok (decided (Some (wrapf ("enh arbitration failed (initiator 0x" +:+ fmt_02x initiator +:+ ", winner 0x"
                                    +:+ fmt_02x d +:+ ")") SBusCollision)) s))
  else if msgCommand msg =b ENHResErrorEBUS then
    mret (Ok (decided (Some (wrapf ("enh arbitration ebus error 0x" +:+ fmt_02x d) SBusCollision)) s))
  else if msgCommand msg =b ENHResErrorHost then
    mret (Ok (decided (Some (wrapf ("enh arbitration host error 0x" +:+ fmt_02x d) SAdapterHostError)) s))
  else mret (Ok s).

(** Everything an arbitration that is over leaves behind. *)
Definition finishArbitration (err : option error) : SM TS unit :=
  resetENHParserLocked;;
  reader (set_events []);;
  reader (set_deferred None);;
  atomics (set_awaiting false);;
  resetDecoder;;
  match err with
  | None => openPostGrantPreEchoWindow
  | Some _ => closePostGrantPreEchoWindow
  end.

(** Giving up on a timeout or on a framing error. *)
Definition abandonArbitration : SM TS unit :=
  resetENHParserLocked;;
  reader (set_deferred None);;
  atomics (set_awaiting false);;
  resetDecoder.

Fixpoint arbitration_loop (fuel : nat) (initiator : byte) (mismatches : Z) : SM TS (option error) :=
  match fuel with
  | O => out_of_fuel
  | S fuel' =>
      e ← setReadDeadline;
      match e with
      | Some err => mret (Some (mapReadError err))
      | None =>
          r ← connRead;
          match r with
          | (_, Some err) => when (isTimeout err) abandonArbitration;; mret (Some (mapReadError err))
          | ([], None) => arbitration_loop fuel' initiator mismatches
          | (data, None) =>
              m ← parseObservedLocked data;
              let '(msgs, parseErr) := m : list ENHMessage * option error in
              res ← fold_each (arbitrationMessage fuel' initiator) (mkArbitration mismatches false None) msgs;
              match res with
              | Err err => mret (Some err)
              | Ok s =>
                  if arbitrationDone s then finishArbitration (arbitrationErr s);; mret (arbitrationErr s)
                  else
                    match parseErr with
                    | Some err => abandonArbitration;; mret (Some err)
                    | None => arbitration_loop fuel' initiator (mismatchCount s)
                    end
              end
          end
      end
  end.

Definition StartArbitration (fuel : nat) (initiator : byte) : SM TS (option error) :=
  c ← get_at closed;
  if c : bool then mret (Some errTransportClosed)
  else
    let seq := sendFrame ENHReqStart initiator in
    r ← writeAll seq;
    let '(written, err) := r : nat * option error in
    match err with
    | Some e => mret (Some e)
    | None =>
        if (written =? length seq)%nat then arbitration_loop fuel initiator 0
        else mret (Some (ESentinel SInvalidPayload))
    end.

(** *** Asynchronous arbitration *)

Definition RequestStart (initiator : byte) : SM TS (option error) :=
  c ← get_at closed;
  if c : bool then mret (Some errTransportClosed)
  else
    let seq := sendFrame ENHReqStart initiator in
    e ← setWriteDeadline;
    match e with
    | Some err => mret (Some (mapWriteError err))
    | None =>
        t ← Now;
        atomics (openArbitration initiator (t + arbitrationWindowTimeout));;
        r ← connWrite seq;
        let '(n, err) := r : nat * option net_error in
        match err with
        | Some err => atomics abortArbitration;; mret (Some (mapWriteError err))
        | None =>
            if (n =? length seq)%nat then mret None
            else
              atomics abortArbitration;;
              mret (Some (wrapf ("enh request start short write (" +:+ fmt_d (Z.of_nat n) +:+ "/"
                                 +:+ fmt_d (len seq) +:+ ")") SInvalidPayload))
        end
    end.

(** *** INFO requests *)

Definition requestInfoFail (err : error) : SM TS error :=
  wasAwaitingStart ← get_at awaitingStart;
  resetENHParserLocked;;
  reader (set_deferred None);;
  atomics (set_awaiting false);;
  atomics (set_deadline 0);;
  closePostGrantPreEchoWindow;;
  when (negb (errors_is err STimeout) || wasAwaitingStart) resetDecoder;;
  when (errors_is err STransportClosed || errors_is err SAdapterReset) (reader (set_events []));;
  mret err.

Record info_exchange := mkInfo {
  payloadLen : Z; infoPayload : list byte; payloadComplete : bool; resetBeforeCompletion : bool }.

(** The [ENHResInfo] case: the first answer is the length, the rest the data. *)
Definition onInfo (d : byte) (x : info_exchange) : info_exchange :=
  if payloadLen x <? 0 then
    if u8 d =? 0 then mkInfo 0 [] true (resetBeforeCompletion x)
    else mkInfo (u8 d) [] (payloadComplete x) (resetBeforeCompletion x)
  else if len (infoPayload x) <? payloadLen x then
    let payload := (infoPayload x ++ [d])%list in
    mkInfo (payloadLen x) payload (payloadComplete x || (payloadLen x <=? len payload)) (resetBeforeCompletion x)
  else x.

Definition infoMessage (x : info_exchange) (msg : ENHMessage) : SM TS (result error info_exchange) :=
  let d := msgData msg in
  if msgCommand msg =b ENHResInfo then mret (Ok (onInfo d x))
  else if msgCommand msg =b ENHResReceived then onReceived d;; mret (Ok x)
  else if msgCommand msg =b ENHResStarted then onStarted d;; mret (Ok x)
  else if msgCommand msg =b ENHResFailed then onFailed d;; mret (Ok x)
  else if msgCommand msg =b ENHResResetted then
    surfaceResetLocked;;
    mret (Ok (if payloadComplete x then x
              else mkInfo (payloadLen x) (infoPayload x) (payloadComplete x) true))
  else if msgCommand msg =b ENHResErrorEBUS then
    e ← requestInfoFail (wrapf ("enh info ebus error 0x" +:+ fmt_02x d) SInvalidPayload); mret (Err e)
  else if msgCommand msg =b ENHResErrorHost then
    e ← requestInfoFail (wrapf ("enh info host error 0x" +:+ fmt_02x d) SAdapterHostError); mret (Err e)
  else mret (Ok x).

Definition infoFail {A} (err : error) : SM TS (result error A) := e ← requestInfoFail err; mret (Err e).

Fixpoint info_loop (fuel : nat) (readDeadline : Z) (x : info_exchange) : SM TS (result error (list byte)) :=
  match fuel with
  | O => out_of_fuel
  | S fuel' =>
      t ← Now;
      if readDeadline <? t then infoFail (wrapf "enh info exchange deadline exceeded" STimeout)
      else
        e ← on_conn (fun c => conn_SetReadDeadline c (Some readDeadline));
        match e with
        | Some err => infoFail (mapReadError err)
        | None =>
            r ← connRead;
            match r with
            | (_, Some err) => infoFail (mapReadError err)
            | ([], None) => info_loop fuel' readDeadline x
            | (data, None) =>
                m ← parseObservedLocked data;
                let '(msgs, parseErr) := m : list ENHMessage * option error in
                res ← fold_each infoMessage x msgs;
                match res with
                | Err err => mret (Err err)
                | Ok x' =>
                    if resetBeforeCompletion x' then
                      infoFail (wrapf "enh adapter resetted during info request" SAdapterReset)
                    else if payloadComplete x' then mret (Ok (infoPayload x'))
                    else
                      match parseErr with
                      | Some err => infoFail err
                      | None => info_loop fuel' readDeadline x'
                      end
                end
            end
        end
  end.

Definition RequestInfo (fuel : nat) (id : byte) : SM TS (result error (list byte)) :=
  guarded (
    let seq := sendFrame ENHReqInfo id in
    r ← writeAll seq;
    let '(written, err) := r : nat * option error in
    match err with
    | Some e => infoFail e
    | None =>
        if (written =? length seq)%nat then
          rt ← gets (fun s : TS => readTimeout s.1);
          t ← Now;
          info_loop fuel (t + (if rt <=? 0 then 2000000000 else rt)) (mkInfo (-1) [] false false)
        else infoFail (wrapf "enh info request write incomplete" SInvalidPayload)
    end).

(** *** Closing *)

Definition Close : SM TS (option net_error) := atomics closeAtomics;; on_conn conn_Close.

End Methods.
