(* ===== verification/EnhInvariant.v ===== *)
(** Invariants of the enhanced transport that hold in every environment: the
    bounded queue keeps raw and logical items together, the fault counter is
    the sum of its causes, and the escape decoder stays well formed, through
    every public method and whatever the network, the clock and other goroutines
    do. *)

From S2P Require Import Prelude Errors Enh Escape StateM EnhTransport.
#[local] Open Scope Z_scope.

(** ** The queue *)

(** A raw item that announces a logical item is followed by it. *)
Inductive paired : list StreamEvent -> Prop :=
| paired_nil : paired []
| paired_one ev l : completes_next ev = false -> paired l -> paired (ev :: l)
| paired_unit raw ev l :
    completes_next raw = true -> isKind StreamEventByte ev || isKind StreamEventWireSyn ev = true ->
    paired l -> paired (raw :: ev :: l).

Definition is_raw (ev : StreamEvent) : bool := isKind streamEventRawSymbol ev.

Record queue_ok (r : Reader) : Prop := {
  queue_bounded : len (pendingEvents r) <= pendingCapLocked r;
  queue_paired : paired (pendingEvents r);
  queue_logical : rawSymbolItems r = false -> Forall (fun ev => is_raw ev = false) (pendingEvents r)
}.

Lemma completes_raw ev : is_raw ev = false -> completes_next ev = false.
Proof. unfold completes_next, is_raw. by intros ->. Qed.

Lemma paired_logical l : Forall (fun ev => is_raw ev = false) l -> paired l.
Proof. induction 1; [constructor|apply paired_one; auto using completes_raw]. Qed.

Lemma paired_app l k : paired l -> paired k -> paired (l ++ k).
Proof. induction 1; simpl; intros; [done|apply paired_one; auto|apply paired_unit; auto]. Qed.

Lemma logical_not_completing ev :
  isKind StreamEventByte ev || isKind StreamEventWireSyn ev = true -> completes_next ev = false.
Proof.
  unfold completes_next, isKind. destruct (seKind ev); simpl; try done; repeat case_bool_decide; done.
Qed.

Lemma paired_tail ev l : paired (ev :: l) -> paired l.
Proof. inversion 1; subst; [done|]. constructor; auto using logical_not_completing. Qed.

Lemma evict_spec l :
  paired l ->
  match evict l with
  | Some l' => paired l' /\ (length l' < length l)%nat /\ (forall P, Forall P l -> Forall P l') /\
               filter (fun ev => evictable ev = false) l' = filter (fun ev => evictable ev = false) l
  | None => Forall (fun ev => evictable ev = false) l
  end.
Proof.
  induction 1 as [|ev l Hc Hl IH|raw ev l Hr Hev Hl IH]; simpl; [done| |].
  - destruct (evictable ev) eqn:He.
    + rewrite Hc. simpl. split_and!; [done|lia|by inversion 1|].
      rewrite filter_cons_False by congruence. done.
    + destruct (evict l) as [l'|]; simpl; [|by constructor].
      destruct IH as (Hp & Hlen & HP & Hf). split_and!; [by constructor|lia| |].
      * intros P HF. inversion HF; subst. constructor; auto.
      * by rewrite !filter_cons_True, Hf by done.
  - assert (evictable raw = true) as ->.
    { unfold completes_next in Hr. unfold evictable. apply andb_prop in Hr as [-> _]. by rewrite orb_true_r. }
    rewrite Hr. simpl. split_and!; [done|lia| |].
    + intros P HF. inversion HF as [|? ? ? HF2]; subst. by inversion HF2.
    + assert (evictable ev = true) by (unfold evictable; by rewrite Hev).
      assert (evictable raw = true).
      { unfold completes_next in Hr. unfold evictable. apply andb_prop in Hr as [-> _]. by rewrite orb_true_r. }
      by rewrite !filter_cons_False by congruence.
Qed.

Lemma cap_pos r : 256 <= pendingCapLocked r.
Proof. unfold pendingCapLocked, maxPendingEvents. destruct (rawSymbolItems r); lia. Qed.

Lemma queue_ok_events evs r :
  len evs <= pendingCapLocked r -> paired evs ->
  (rawSymbolItems r = false -> Forall (fun ev => is_raw ev = false) evs) -> queue_ok (set_events evs r).
Proof. intros. split; done. Qed.

Lemma append_control_ok ev r : is_raw ev = false -> queue_ok r -> queue_ok (appendControlEventLocked ev r).
Proof.
  intros Hev [Hb Hp Hl]. pose proof (cap_pos r) as Hc. unfold appendControlEventLocked.
  assert (paired [ev]) as Hone by (constructor; [by apply completes_raw|constructor]).
  destruct (Z.leb_spec (pendingCapLocked r) (len (pendingEvents r))) as [Hle|Hlt].
  - pose proof (evict_spec _ Hp) as He. destruct (evict (pendingEvents r)) as [l'|].
    + destruct He as (Hp' & Hlen & HP & _). apply queue_ok_events.
      * rewrite len_app. unfold len in *. simpl. lia.
      * by apply paired_app.
      * intros Hr. apply Forall_app. split; [by apply HP, Hl|by repeat constructor].
    + destruct (pendingEvents r) as [|e l] eqn:E; [unfold len in *; simpl in *; lia|]. simpl.
      apply queue_ok_events.
      * rewrite len_app. unfold len in *. simpl in *. lia.
      * apply paired_app; [by apply paired_tail in Hp|done].
      * intros Hr. specialize (Hl Hr). inversion Hl; subst. apply Forall_app. split; [done|by repeat constructor].
  - apply queue_ok_events.
    + rewrite len_app. unfold len in *. simpl. lia.
    + by apply paired_app.
    + intros Hr. apply Forall_app. split; [by auto|by repeat constructor].
Qed.

(** What the readers queue for a symbol is a byte or a SYN marker. *)
Definition is_logical (ev : StreamEvent) : bool := isKind StreamEventByte ev || isKind StreamEventWireSyn ev.

Lemma logical_not_raw ev : is_logical ev = true -> is_raw ev = false.
Proof. unfold is_logical, is_raw, isKind. destruct (seKind ev); simpl; repeat case_bool_decide; done. Qed.

Lemma append_logical_ok ev r :
  is_logical ev = true -> queue_ok r ->
  queue_ok (if len (pendingEvents r) <? maxPendingEvents then set_events (pendingEvents r ++ [ev]) r else r).
Proof.
  intros Hev [Hb Hp Hl]. pose proof (cap_pos r). destruct (Z.ltb_spec (len (pendingEvents r)) maxPendingEvents) as [Hlt|];
    [|by split].
  apply logical_not_raw in Hev. apply queue_ok_events.
  - rewrite len_app. unfold maxPendingEvents, len in *. simpl. lia.
  - apply paired_app; [done|]. constructor; [by apply completes_raw|constructor].
  - intros Hr. apply Forall_app. split; [by auto|by repeat constructor].
Qed.

Lemma queue_observed_ok sym logical r :
  (forall ev, logical = Some ev -> is_logical ev = true) -> queue_ok r ->
  queue_ok (queueObservedSymbolLocked sym logical r).
Proof.
  intros Hlog Hq. pose proof Hq as [Hb Hp Hl]. unfold queueObservedSymbolLocked.
  destruct (rawSymbolItems r) eqn:Hraw; simpl.
  - case_match eqn:Hroom; [done|]. apply Z.ltb_ge in Hroom. apply queue_ok_events.
    + rewrite len_app, len_cons. destruct logical; simpl in *; unfold len in *; simpl; lia.
    + apply paired_app; [done|]. destruct logical as [ev|]; simpl.
      * apply paired_unit; [done|by apply Hlog|constructor].
      * apply paired_one; [done|constructor].
    + congruence.
  - destruct logical as [ev|]; [|done]. case_match.
    + by apply append_logical_ok.
    + by apply (append_logical_ok (byteEvent (seByte ev) (seWasEscaped ev))).
Qed.

(** Taking from the front leaves a suffix. *)
Lemma queue_ok_suffix r k l : pendingEvents r = k ++ l -> queue_ok r -> queue_ok (set_events l r).
Proof.
  intros E [Hb Hp Hl]. rewrite E in *. apply queue_ok_events.
  - rewrite len_app in Hb. pose proof (len_nonneg k). lia.
  - clear -Hp. induction k as [|ev k IH]; [done|]. apply IH. by apply paired_tail in Hp.
  - intros Hr. by apply Forall_app in Hl as [? ?].
Qed.

Lemma takeByte_suffix l : exists k, l = k ++ (takeByte l).1.
Proof.
  induction l as [|ev l [k IH]]; simpl; [by exists []|].
  destruct (isKind StreamEventByte ev); [by exists [ev]|]. exists (ev :: k). simpl. by rewrite <- IH.
Qed.

Lemma takeEvent_suffix l : exists k, l = k ++ (takeEvent l).1.
Proof.
  induction l as [|ev l [k IH]]; simpl; [by exists []|].
  destruct (isKind streamEventRawSymbol ev); [|by exists [ev]]. exists (ev :: k). simpl. by rewrite <- IH.
Qed.

Lemma takeRaw_suffix l : exists k, l = k ++ (takeRaw l).1.
Proof.
  destruct l as [|ev [|ev2 l]]; simpl; [by exists []|..]; repeat case_match;
    first [by exists [ev] | by exists [ev; ev2]].
Qed.

(** ** The whole transport *)

Definition faults_ok (c : Counters) : Prop :=
  decodeFaultTotal c = wrap 64 (escapeRecoveryTotal c + escapeBudgetExhaustedTotal c).

Record transport_ok {Conn} (t : ENHTransport Conn) : Prop := {
  ok_queue : queue_ok (rd t);
  ok_faults : faults_ok (ct t);
  ok_decoder : decoder_ok (escDecoder (rd t));
  ok_resets : 0 <= resets (rd t)
}.

Lemma add_count_sum a b c : add_count a (wrap 64 (b + c)) = wrap 64 (add_count a b + c).
Proof. unfold add_count, wrap. rewrite !Zplus_mod_idemp_l. f_equal. lia. Qed.

Lemma applyEscapeAdminEvent_ok admin c : faults_ok c -> faults_ok (applyEscapeAdminEvent admin c).1.
Proof.
  unfold faults_ok, applyEscapeAdminEvent. intros Hc. destruct (Kind admin); simpl; [done..| |]; rewrite Hc.
  - by rewrite add_count_sum.
  - rewrite (Z.add_comm (escapeRecoveryTotal c)), add_count_sum. f_equal. lia.
Qed.

Lemma Reset_decoder_ok d : decoder_ok (Escape.Reset d).
Proof. unfold Escape.Reset, decoder_ok, MaxAaAbsorptionsPerEscapePair. simpl. split; [lia|done]. Qed.

Section Preservation.
Context {W Conn : Type} `{NetEnv W Conn}.

Definition inv (s : TS (W := W) (Conn := Conn)) : Prop := transport_ok s.1.

Lemma atomics_inv f : keeps inv (atomics f).
Proof. intros s [Hq Hf Hd Hr]. by split. Qed.

Lemma env_inv {A} (f : W -> W * A) : keeps inv (env f).
Proof. intros s Hs. unfold env. by destruct (f s.2). Qed.

Lemma on_conn_inv {A} (f : Conn -> W -> W * A) : keeps inv (on_conn f).
Proof. intros s Hs. unfold on_conn. by apply env_inv. Qed.

Lemma set_conn_inv c : keeps inv (set_conn c).
Proof. intros s [Hq Hf Hd Hr]. by split. Qed.

(** A change of the read side that keeps the queue's part of the invariant. *)
Lemma reader_inv f :
  (forall r, queue_ok r -> decoder_ok (escDecoder r) -> 0 <= resets r ->
     queue_ok (f r) /\ decoder_ok (escDecoder (f r)) /\ 0 <= resets (f r)) ->
  keeps inv (reader f).
Proof. intros Hf s [Hq Hfl Hd Hr]. destruct (Hf _ Hq Hd Hr) as (? & ? & ?). by split. Qed.

Lemma counters_inv f : (forall c, faults_ok c -> faults_ok (f c)) -> keeps inv (counters f).
Proof. intros Hf s [Hq Hfl Hd Hr]. split; simpl; auto. Qed.

Lemma queue_ok_congr r r' :
  pendingEvents r' = pendingEvents r -> rawSymbolItems r' = rawSymbolItems r -> queue_ok r -> queue_ok r'.
Proof. intros E1 E2 [Hb Hp Hl]. split; unfold pendingCapLocked in *; by rewrite ?E1, ?E2. Qed.

Lemma queue_ok_nil r : queue_ok (set_events [] r).
Proof. pose proof (cap_pos r). apply queue_ok_events; [unfold len; simpl; lia|constructor..]. Qed.

Lemma set_events_nil_inv : keeps inv (reader (set_events [])).
Proof. apply reader_inv. intros. split_and!; [apply queue_ok_nil|done..]. Qed.

Lemma set_parser_inv p : keeps inv (reader (fun r => set_parser (p r) r)).
Proof. apply reader_inv. intros. split_and!; [by apply (queue_ok_congr r)|done..]. Qed.

Lemma set_parser_inv' p : keeps inv (reader (set_parser p)).
Proof. apply (set_parser_inv (fun _ => p)). Qed.

Lemma set_deferred_inv d : keeps inv (reader (set_deferred d)).
Proof. apply reader_inv. intros. split_and!; [by apply (queue_ok_congr r)|done..]. Qed.

Lemma set_decoder_inv d : decoder_ok d -> keeps inv (reader (set_decoder d)).
Proof. intros Hd. apply reader_inv. intros. split_and!; [by apply (queue_ok_congr r)|done..]. Qed.

Lemma resetDecoder_inv : keeps inv resetDecoder.
Proof.
  apply reader_inv. intros. split_and!; [by apply (queue_ok_congr r)|apply Reset_decoder_ok|done].
Qed.

Lemma count_resets_inv : keeps inv (reader (fun r => set_resets (resets r + 1) r)).
Proof. apply reader_inv. intros. split_and!; [by apply (queue_ok_congr r)|done|simpl; lia]. Qed.

Lemma queueObserved_inv sym ev : is_logical ev = true -> keeps inv (queueObserved sym (Some ev)).
Proof.
  intros Hev. apply reader_inv. intros r Hq Hd Hr. split_and!.
  - apply queue_observed_ok; [|done]. by intros ? [= <-].
  - unfold queueObservedSymbolLocked, appendWireSynLocked, appendDecodedByteLocked. by repeat case_match.
  - unfold queueObservedSymbolLocked, appendWireSynLocked, appendDecodedByteLocked. by repeat case_match.
Qed.

Lemma queueObserved_none_inv sym : keeps inv (queueObserved sym None).
Proof.
  apply reader_inv. intros r Hq Hd Hr. split_and!; [by apply queue_observed_ok| |];
    unfold queueObservedSymbolLocked; by repeat case_match.
Qed.

Lemma appendControl_inv ev : is_raw ev = false -> keeps inv (appendControl ev).
Proof. intros Hev. apply reader_inv. intros. split_and!; [by apply append_control_ok|done..]. Qed.

Lemma count_parser_reset_inv : keeps inv (counters count_parser_reset).
Proof. apply counters_inv. by intros c. Qed.
Lemma count_framing_inv : keeps inv (counters count_framing_error).
Proof. apply counters_inv. by intros c. Qed.
Lemma count_expired_inv : keeps inv (counters count_grant_expired).
Proof. apply counters_inv. by intros c. Qed.
Lemma count_absorbed_inv d : keeps inv (counters (count_aa_absorbed d)).
Proof. apply counters_inv. by intros c. Qed.
Lemma count_messages_inv msgs : keeps inv (counters (count_messages msgs)).
Proof.
  apply counters_inv. induction msgs as [|m msgs IH]; simpl; intros c Hc; [done|].
  apply IH. by repeat case_match.
Qed.
Lemma count_admin_inv admin : keeps inv (counters (fun c => (applyEscapeAdminEvent admin c).1)).
Proof. apply counters_inv. intros. by apply applyEscapeAdminEvent_ok. Qed.

Hint Resolve atomics_inv env_inv on_conn_inv set_conn_inv set_events_nil_inv set_parser_inv set_parser_inv'
  set_deferred_inv resetDecoder_inv count_resets_inv queueObserved_none_inv count_parser_reset_inv
  count_framing_inv count_expired_inv count_absorbed_inv count_messages_inv count_admin_inv : keeps.
Hint Extern 1 (keeps inv (queueObserved _ (Some _))) => apply queueObserved_inv; reflexivity : keeps.
Hint Extern 1 (keeps inv (appendControl _)) => apply appendControl_inv; reflexivity : keeps.

Ltac kinv := intros; unfold get_at, get_rd, Now; keeps_tac.

Lemma closePostGrant_inv : keeps inv closePostGrantPreEchoWindow.
Proof. unfold closePostGrantPreEchoWindow. kinv. Qed.
Lemma openPostGrant_inv : keeps inv openPostGrantPreEchoWindow.
Proof. unfold openPostGrantPreEchoWindow. kinv. Qed.
Lemma arbExpired_inv : keeps inv arbitrationWindowExpired.
Proof. unfold arbitrationWindowExpired. kinv. Qed.
Lemma grantExpired_inv : keeps inv postGrantPreEchoExpired.
Proof. unfold postGrantPreEchoExpired. kinv. Qed.
Lemma blocked_inv : keeps inv blocked.
Proof. unfold blocked. kinv. Qed.
Hint Resolve closePostGrant_inv openPostGrant_inv arbExpired_inv grantExpired_inv blocked_inv : keeps.

Lemma resetENHParser_inv : keeps inv resetENHParserLocked.
Proof. unfold resetENHParserLocked. kinv. Qed.
Hint Resolve resetENHParser_inv : keeps.
Lemma resetState_inv : keeps inv resetStateLocked.
Proof. unfold resetStateLocked. kinv. Qed.
Hint Resolve resetState_inv : keeps.

Lemma feedEscapeDecoder_inv raw : keeps inv (feedEscapeDecoderLocked raw).
Proof.
  intros s Hs. unfold feedEscapeDecoderLocked, get_rd, mbind, sm_bind, gets. unfold env.
  destruct (escapeNow s.2) as [w t] eqn:Et. cbn [fst snd].
  destruct (Escape.Feed (escDecoder (rd s.1)) raw t) as [d' [out admin]] eqn:Ef.
  assert (decoder_ok d') as Hd.
  { pose proof (feed_decoder_ok _ raw t (ok_decoder _ Hs)) as Hd. by rewrite Ef in Hd. }
  pose proof (set_decoder_inv d' Hd (s.1, w) Hs) as H1.
  set (k := (when _ _)).
  assert (keeps inv k) as Hk by (subst k; kinv).
  unfold reader, modify in H1 |- *. cbn [fst snd] in H1 |- *.
  specialize (Hk _ H1). destruct (k _) as [s2 [[]|]]; [|done]. cbn [fst snd] in *.
  apply (count_admin_inv admin s2 Hk).
Qed.
Hint Resolve feedEscapeDecoder_inv : keeps.

Lemma resetPending_inv : keeps inv resetPendingEscapeBeforeEmissionLocked.
Proof. unfold resetPendingEscapeBeforeEmissionLocked. kinv. Qed.
Lemma setReadDeadline_inv : keeps inv setReadDeadline.
Proof. unfold setReadDeadline. kinv. Qed.
Lemma setWriteDeadline_inv : keeps inv setWriteDeadline.
Proof. unfold setWriteDeadline. kinv. Qed.
Hint Resolve resetPending_inv setReadDeadline_inv setWriteDeadline_inv : keeps.
Lemma connRead_inv : keeps inv connRead.
Proof. unfold connRead. kinv. Qed.
Lemma connWrite_inv data : keeps inv (connWrite data).
Proof. unfold connWrite. kinv. Qed.
Hint Resolve connRead_inv connWrite_inv : keeps.

Lemma parseObserved_inv data : keeps inv (parseObservedLocked data).
Proof.
  unfold parseObservedLocked. apply keeps_bind; [kinv|]. intros p.
  destruct (Parse p data) as [p' [msgs err]]. kinv.
Qed.
Lemma write_turns_inv fuel n data : keeps inv (write_turns fuel n data).
Proof. revert n. induction fuel as [|fuel IH]; intros n; simpl; kinv. Qed.
Hint Resolve parseObserved_inv write_turns_inv : keeps.
Lemma writeAll_inv data : keeps inv (writeAll data).
Proof. unfold writeAll. kinv. Qed.
Hint Resolve writeAll_inv : keeps.
Lemma initSend_inv f : keeps inv (initSendLocked f).
Proof. unfold initSendLocked. kinv. Qed.
Lemma initUnconfirmed_inv : keeps inv initUnconfirmed.
Proof. unfold initUnconfirmed. kinv. Qed.
Lemma initMessage_inv msg : keeps inv (initMessage msg).
Proof. unfold initMessage. kinv. Qed.
Lemma initDeadline_inv z : keeps inv (initDeadline z).
Proof. unfold initDeadline. kinv. Qed.
Hint Resolve initSend_inv initUnconfirmed_inv initMessage_inv initDeadline_inv : keeps.
Lemma initRecv_loop_inv fuel maxWait start : keeps inv (initRecv_loop fuel maxWait start).
Proof. induction fuel as [|fuel IH]; simpl; kinv. Qed.
Hint Resolve initRecv_loop_inv : keeps.
Lemma initRecv_inv fuel : keeps inv (initRecvResultLocked fuel).
Proof. unfold initRecvResultLocked. kinv. Qed.
Hint Resolve initRecv_inv : keeps.
Lemma swap_inv c : keeps inv (swapAndSendInit c).
Proof. unfold swapAndSendInit. kinv. Qed.
Hint Resolve swap_inv : keeps.
Lemma reconnectLocked_inv fuel : keeps inv (reconnectLocked fuel).
Proof. unfold reconnectLocked. kinv. Qed.
Hint Resolve reconnectLocked_inv : keeps.

Lemma beforeGrant_inv raw : keeps inv (receivedBeforeGrant raw).
Proof. unfold receivedBeforeGrant. kinv. Qed.
Lemma passes_inv b e : keeps inv (passesGrantWindow b e).
Proof. unfold passesGrantWindow. kinv. Qed.
Hint Resolve beforeGrant_inv passes_inv : keeps.
Lemma steady_inv raw : keeps inv (receivedSteady raw).
Proof. unfold receivedSteady. kinv. Qed.
Hint Resolve steady_inv : keeps.
Lemma onReceived_inv raw : keeps inv (onReceived raw).
Proof. unfold onReceived. kinv. Qed.
Lemma onStarted_inv d : keeps inv (onStarted d).
Proof. unfold onStarted. kinv. Qed.
Lemma onFailed_inv d : keeps inv (onFailed d).
Proof. unfold onFailed. kinv. Qed.
Lemma onResetted_inv fuel d : keeps inv (onResetted fuel d).
Proof. unfold onResetted. kinv. Qed.
Hint Resolve onReceived_inv onStarted_inv onFailed_inv onResetted_inv : keeps.
Lemma fillMessage_inv fuel msg : keeps inv (fillMessage fuel msg).
Proof. unfold fillMessage. kinv. Qed.
Lemma fillParseError_inv msgs err : keeps inv (fillParseError msgs err).
Proof. unfold fillParseError. kinv. Qed.
Hint Resolve fillMessage_inv fillParseError_inv : keeps.
Lemma fillChunk_inv fuel data : keeps inv (fillChunk fuel data).
Proof. unfold fillChunk. kinv. Qed.
Lemma fillTimeout_inv : keeps inv fillTimeout.
Proof. unfold fillTimeout. kinv. Qed.
Hint Resolve fillChunk_inv fillTimeout_inv : keeps.
Lemma fillPending_inv fuel : keeps inv (fillPendingLocked fuel).
Proof. unfold fillPendingLocked. kinv. Qed.
Hint Resolve fillPending_inv : keeps.

(** ** The public methods *)

Lemma read_loop_inv {A} fuel reset (take : list StreamEvent -> list StreamEvent * option A) :
  (forall l, exists k, l = k ++ (take l).1) -> keeps inv (read_loop fuel reset take).
Proof.
  intros Htake. induction fuel as [|fuel IH]; simpl; [apply keeps_out_of_fuel|].
  intros s Hs. unfold get_rd, gets, mbind at 1, sm_bind at 1.
  destruct (Z.ltb_spec 0 (resets (rd s.1))) as [Hpos|_].
  - destruct Hs as [Hq Hf Hd Hr]. split; simpl; [by apply (queue_ok_congr (rd s.1))|done..|lia].
  - unfold mbind at 1, sm_bind at 1. destruct (Htake (pendingEvents (rd s.1))) as [k Hk].
    unfold mbind at 1, sm_bind at 1. cbn [reader modify fst snd].
    match goal with |- inv ((?m _) ).1 => enough (keeps inv m) as Hm end.
    + apply Hm. destruct Hs as [Hq Hf Hd Hr]. split; simpl; [by eapply queue_ok_suffix|done..].
    + kinv. intros s0 Hs0. exact Hs0.
Qed.
Hint Resolve read_loop_inv takeByte_suffix takeEvent_suffix takeRaw_suffix : keeps.

Lemma arbitrationMessage_inv fuel i s msg : keeps inv (arbitrationMessage fuel i s msg).
Proof. unfold arbitrationMessage. kinv. Qed.
Lemma finishArbitration_inv err : keeps inv (finishArbitration err).
Proof. unfold finishArbitration. kinv. Qed.
Lemma abandonArbitration_inv : keeps inv abandonArbitration.
Proof. unfold abandonArbitration. kinv. Qed.
Hint Resolve arbitrationMessage_inv finishArbitration_inv abandonArbitration_inv : keeps.
Lemma arbitration_loop_inv fuel i n : keeps inv (arbitration_loop fuel i n).
Proof. revert n. induction fuel as [|fuel IH]; intros n; simpl; kinv. Qed.
Lemma requestInfoFail_inv err : keeps inv (requestInfoFail err).
Proof. unfold requestInfoFail. kinv. Qed.
Lemma surfaceReset_inv : keeps inv surfaceResetLocked.
Proof. unfold surfaceResetLocked. kinv. Qed.
Hint Resolve arbitration_loop_inv requestInfoFail_inv surfaceReset_inv : keeps.
Lemma infoMessage_inv x msg : keeps inv (infoMessage x msg).
Proof. unfold infoMessage. kinv. Qed.
Lemma infoFail_inv {A} err : keeps inv (infoFail (A := A) err).
Proof. unfold infoFail. kinv. Qed.
Hint Resolve infoMessage_inv infoFail_inv : keeps.
Lemma info_loop_inv fuel dl x : keeps inv (info_loop fuel dl x).
Proof. revert x. induction fuel as [|fuel IH]; intros x; simpl; kinv. Qed.
Hint Resolve info_loop_inv : keeps.

(** A call of a public method, with the bound on its loops. *)
Inductive session_call :=
| CallInit (fuel : nat) (features : byte)
| CallReconnect (fuel : nat)
| CallReadByte (fuel : nat)
| CallReadEvent (fuel : nat)
| CallReadRaw (fuel : nat)
| CallWrite (payload : list byte)
| CallStartArbitration (fuel : nat) (initiator : byte)
| CallRequestStart (initiator : byte)
| CallRequestInfo (fuel : nat) (id : byte)
| CallClose.

Definition run_call (c : session_call) : TS -> TS :=
  match c with
  | CallInit fuel f => fun s => (InitWithResult fuel f s).1
  | CallReconnect fuel => fun s => (Reconnect fuel s).1
  | CallReadByte fuel => fun s => (ReadByte fuel s).1
  | CallReadEvent fuel => fun s => (ReadEvent fuel s).1
  | CallReadRaw fuel => fun s => (ReadEventWithRawSymbol fuel s).1
  | CallWrite p => fun s => (Write p s).1
  | CallStartArbitration fuel i => fun s => (StartArbitration fuel i s).1
  | CallRequestStart i => fun s => (RequestStart i s).1
  | CallRequestInfo fuel id => fun s => (RequestInfo fuel id s).1
  | CallClose => fun s => (Close s).1
  end.

(** What a fresh transport has become after some calls. *)
Definition session (c : Conn) (rt wt : Z) (w : W) (calls : list session_call) : ENHTransport Conn :=
  (foldl (fun s call => run_call call s) (NewENHTransport c rt wt, w) calls).1.

Lemma set_raw_inv : keeps inv (reader (set_raw true)).
Proof.
  apply reader_inv. intros r [Hb Hp Hl] Hd Hr. split_and!; [|done..]. split; simpl; [|done..].
  pose proof (cap_pos r). unfold pendingCapLocked, maxPendingEvents in *. simpl.
  destruct (rawSymbolItems r); lia.
Qed.
Hint Resolve set_raw_inv : keeps.

Lemma run_call_inv c s : inv s -> inv (run_call c s).
Proof.
  revert s. change (keeps inv (fun s => (run_call c s, Some tt))).
  assert (forall A (m : SM TS A), keeps inv m -> keeps inv (fun s => ((m s).1, Some tt))) as Hm by (intros A m Hm; exact Hm).
  destruct c; apply Hm; unfold InitWithResult, initWithResultLocked, Reconnect, ReadByte, ReadByteWithEscape,
    ReadEvent, ReadEventWithRawSymbol, Write, StartArbitration, RequestStart, RequestInfo, Close; unfold guarded; kinv.
Qed.

Lemma session_ok c rt wt w calls : transport_ok (session c rt wt w calls).
Proof.
  unfold session. change (inv (foldl (fun s call => run_call call s) (NewENHTransport c rt wt, w) calls)).
  assert (inv (NewENHTransport c rt wt, w)) as Hinit.
  { split; [apply (queue_ok_nil (rd (NewENHTransport c rt wt)))|done|split; [cbv; split; discriminate|done]|done]. }
  revert Hinit. generalize (NewENHTransport c rt wt, w). induction calls as [|call calls IH]; intros s Hs; [done|].
  apply IH. by apply run_call_inv.
Qed.

(** C27: After any calls, and whatever the network, the clocks and other goroutines
    do, the event queue is within its bound, holds raw items only under raw
    capture, and a raw item that announces a logical item is followed by it. *)
Theorem pending_bounded_and_paired (c : Conn) rt wt w calls :
  let r := rd (session c rt wt w calls) in
  len (pendingEvents r) <= pendingCapLocked r /\ paired (pendingEvents r) /\
  (rawSymbolItems r = false -> Forall (fun ev => is_raw ev = false) (pendingEvents r)).
Proof. destruct (session_ok c rt wt w calls) as [[Hb Hp Hl] _ _ _]. done. Qed.

(** C21: The snapshot's fault counter is the sum of the two counters that decompose
    it, and the escape decoder never absorbs more than its budget. *)
Theorem faults_decompose (c : Conn) rt wt w calls :
  let t := session c rt wt w calls in
  EscapeDecodeFaultsTotal (BaudSnapshot t) =
    wrap 64 (EscapeRecoveriesTotal (BaudSnapshot t) + EscapeBudgetExhausted (BaudSnapshot t)) /\
  0 <= AbsorbedCount (escDecoder (rd t)) <= MaxAaAbsorptionsPerEscapePair.
Proof. destruct (session_ok c rt wt w calls) as [_ Hf [Hd _] _]. done. Qed.
End Preservation.
