(* ===== verification/EnhSession.v ===== *)
(** Sessions with an adapter over a scripted connection: what arrives on the
    network is what the readers return, what is written is what the adapter can
    decode, and a closed transport does nothing. *)

From S2P Require Import Prelude Errors Wire Enh Escape StateM EnhTransport.
#[local] Open Scope Z_scope.

(** ** A scripted network *)

(** Chunks of bytes with their arrival times, what the peer accepts of each
    write, and everything it has accepted. An empty script times out. *)
Record script := mkScript {
  incoming : list (list byte * Z);
  accepts : list (nat * option net_error);
  outgoing : list byte;
  clock : Z
}.

Definition script_read (c : unit) (w : script) : script * (list byte * option net_error) :=
  match incoming w with
  | [] => (w, ([], Some NetDeadlineExceeded))
  | (data, t) :: rest => (mkScript rest (accepts w) (outgoing w) t, (data, None))
  end.

Definition script_write (c : unit) (data : list byte) (w : script) : script * (nat * option net_error) :=
  match accepts w with
  | [] => (mkScript (incoming w) [] (outgoing w ++ data) (clock w), (length data, None))
  | (n, err) :: rest =>
      (mkScript (incoming w) rest (outgoing w ++ take n data) (clock w), (length (take n data), err))
  end.

#[export] Instance script_net : NetEnv script unit := {
  conn_Write := script_write;
  conn_Read := script_read;
  conn_SetReadDeadline _ _ w := (w, None);
  conn_SetWriteDeadline _ _ w := (w, None);
  conn_Close _ w := (w, None);
  dialFunc := None;
  time_Now w := (w, clock w);
  escapeNow w := (w, clock w);
  others w := (w, [])
}.

Notation session_state := (ENHTransport unit * script)%type.

(** ** A closed transport *)

Section Closed.
Context {W Conn : Type} `{NetEnv W Conn}.

(** Once closed, every method refuses with the transport-closed error and
    touches neither its state nor the connection. *)
Theorem closed_refuses (s : TS (W := W) (Conn := Conn)) fuel i payload :
  closed (at_ s.1) = true ->
  InitWithResult fuel i s = (s, Some (Err errTransportClosed)) /\
  Reconnect fuel s = (s, Some (Some errTransportClosed)) /\
  ReadByte fuel s = (s, Some (Err errTransportClosed)) /\
  ReadEvent fuel s = (s, Some (Err errTransportClosed)) /\
  ReadEventWithRawSymbol fuel s = (s, Some (Err errTransportClosed)) /\
  Write payload s = (s, Some (0, Some errTransportClosed)) /\
  StartArbitration fuel i s = (s, Some (Some errTransportClosed)) /\
  RequestStart i s = (s, Some (Some errTransportClosed)) /\
  RequestInfo fuel i s = (s, Some (Err errTransportClosed)) /\
  errors_is errTransportClosed STransportClosed = true /\
  closed (at_ (Close s).1.1) = true.
Proof.
  intros Hc. split_and!; try reflexivity;
    try (unfold InitWithResult, Reconnect, ReadByte, ReadByteWithEscape, ReadEvent, ReadEventWithRawSymbol,
           Write, StartArbitration, RequestStart, RequestInfo, guarded, get_at, gets, mbind, sm_bind;
         by rewrite Hc).
  unfold Close, mbind, sm_bind, on_conn, env. simpl. by destruct (conn_Close _ _).
Qed.
End Closed.

(** ** The steady state *)

(** Open, with no window, no reset and no error pending, and no raw capture. *)
Record quiet {Conn} (t : ENHTransport Conn) : Prop := {
  q_closed : closed (at_ t) = false;
  q_awaiting : awaitingStart (at_ t) = false;
  q_grant : postGrantPreEcho (at_ t) = false;
  q_escape : escapeResetPending (at_ t) = false;
  q_raw : rawSymbolItems (rd t) = false;
  q_deferred : deferredErr (rd t) = None;
  q_resets : resets (rd t) = 0
}.

Definition received (b : byte) : ENHMessage := mkENHMessage ENHResReceived b.

(** The transport after some steps that only read: same connection and atomics,
    with the read side given. *)
Record reads_to (t t' : ENHTransport unit) (p : ENHParser) (evs : list StreamEvent) (d : EbusEscapeDecoder) : Prop := {
  rt_quiet : quiet t';
  rt_parser : parser (rd t') = p;
  rt_events : pendingEvents (rd t') = evs;
  rt_decoder : escDecoder (rd t') = d;
  rt_sends : arbitrationSendsSource t' = arbitrationSendsSource t
}.

Definition logical_event (o : byte * bool) : StreamEvent := byteEvent o.1 o.2.

Lemma feed_discards d raw t out admin d' c :
  Escape.Feed d raw t = (d', (out, admin)) -> (applyEscapeAdminEvent admin c).2 = true -> out = None.
Proof.
  unfold applyEscapeAdminEvent. intros E. destruct (Kind admin) eqn:K; simpl; try done; intros _; revert E K.
  - unfold Escape.Feed, feedPending, feedNormal.
    repeat case_match; intros [= <- <- <-]; simpl; congruence.
  - unfold Escape.Feed, feedPending, feedNormal.
    repeat case_match; intros [= <- <- <-]; simpl; congruence.
Qed.

Lemma feedEscape_run (s : session_state) raw :
  exists c, feedEscapeDecoderLocked raw s =
    (mkTransport (conn s.1) (readTimeout s.1) (writeTimeout s.1) (arbitrationSendsSource s.1) (at_ s.1)
       (set_decoder (Escape.Feed (escDecoder (rd s.1)) raw (clock s.2)).1 (rd s.1)) c, s.2,
     Some (Escape.Feed (escDecoder (rd s.1)) raw (clock s.2)).2.1).
Proof.
  unfold feedEscapeDecoderLocked, mbind, sm_bind, get_rd, gets, env. simpl.
  destruct (Escape.Feed (escDecoder (rd s.1)) raw (clock s.2)) as [d' [out admin]] eqn:E.
  unfold when. destruct (0 <? _); simpl; eexists; (destruct (applyEscapeAdminEvent _ _).2 eqn:Ed at 1;
    [rewrite (feed_discards _ _ _ _ _ _ _ E Ed)|]; reflexivity).
Qed.

Lemma steady_symbol fuel (s : session_state) raw :
  quiet s.1 -> len (pendingEvents (rd s.1)) < maxPendingEvents ->
  exists t', fillMessage fuel (received raw) s = ((t', s.2), Some None) /\
    reads_to s.1 t' (parser (rd s.1))
      (pendingEvents (rd s.1) ++ option_list (logical_event <$> (Escape.Feed (escDecoder (rd s.1)) raw (clock s.2)).2.1))
      (Escape.Feed (escDecoder (rd s.1)) raw (clock s.2)).1.
Proof.
  destruct s as [[cn rt wt sends [cl aw ini dl gr gd er] [p evs df rs dec rw] c] w].
  intros [Hcl Haw Hgr Her Hrw Hdf Hrs] Hlen. simpl in *. subst.
  unfold fillMessage, received. simpl. unfold onReceived, receivedSteady, resetPendingEscapeBeforeEmissionLocked.
  unfold get_at, gets, atomics, modify, mbind, sm_bind. simpl.
  match goal with |- context [feedEscapeDecoderLocked raw ?s0] => destruct (feedEscape_run s0 raw) as [c' ->] end.
  simpl. destruct (Escape.Feed dec raw (clock w)) as [d' [[[b e]|] admin]]; simpl.
  - unfold passesGrantWindow, get_at, gets, mbind, sm_bind. simpl.
    eexists. split; [reflexivity|]. unfold queueObservedSymbolLocked, appendDecodedByteLocked. simpl.
    rewrite (proj2 (Z.ltb_lt _ _) Hlen). by split.
  - eexists. split; [reflexivity|]. split; [done..| |done|done]. simpl. by rewrite app_nil_r.
Qed.

(** The symbols of a chunk, at the time it arrived. *)
Definition at_time (t : Z) (syms : list byte) : list (byte * Z) := (fun b => (b, t)) <$> syms.

Lemma feed_all_cons d b t l :
  feed_all d ((b, t) :: l) =
  let '(d1, (out, ev)) := Escape.Feed d b t in
  let '(d2, (outs, evs)) := feed_all d1 l in
  (d2, (option_list out ++ outs, if decide (Kind ev = AdminEventNone) then evs else ev :: evs)).
Proof. reflexivity. Qed.

Lemma steady_symbols fuel syms (s : session_state) :
  quiet s.1 -> len (pendingEvents (rd s.1)) + len syms <= maxPendingEvents ->
  exists t', for_each (fillMessage fuel) (received <$> syms) s = ((t', s.2), Some None) /\
    reads_to s.1 t' (parser (rd s.1))
      (pendingEvents (rd s.1) ++ (logical_event <$> (feed_all (escDecoder (rd s.1)) (at_time (clock s.2) syms)).2.1))
      (feed_all (escDecoder (rd s.1)) (at_time (clock s.2) syms)).1.
Proof.
  revert s. induction syms as [|b syms IH]; intros s Hq Hlen.
  - exists s.1. destruct s as [t w]. simpl. split; [done|]. rewrite app_nil_r. by split.
  - rewrite len_cons in Hlen. pose proof (len_nonneg syms).
    destruct (steady_symbol fuel s b Hq) as (t1 & E1 & [Q1 P1 V1 D1 S1]); [lia|].
    change (received <$> b :: syms) with (received b :: (received <$> syms)).
    change (at_time (clock s.2) (b :: syms)) with ((b, clock s.2) :: at_time (clock s.2) syms).
    rewrite feed_all_cons. cbn [for_each]. rewrite (bind_run _ _ _ _ _ E1).
    destruct (Escape.Feed (escDecoder (rd s.1)) b (clock s.2)) as [d1 [out ev]] eqn:Ef. cbn [fst snd] in *.
    destruct (IH (t1, s.2)) as (t2 & E2 & [Q2 P2 V2 D2 S2]); [done| |].
    { cbn [fst]. rewrite V1, len_app. destruct out; cbn; [unfold len in *; simpl in *; lia|rewrite len_nil; lia]. }
    cbn [fst snd] in *. exists t2. split; [done|]. rewrite D1 in V2, D2.
    destruct (feed_all d1 (at_time (clock s.2) syms)) as [d2 [outs evs]] eqn:Eo. cbn [fst snd] in *.
    split; [done|congruence| |done|cbn [fst] in S2; congruence]. rewrite V2, V1, <- (assoc_L (++)), fmap_app. f_equal. by destruct out.
Qed.

(** A chunk that carries only received symbols, well formed. *)
Lemma steady_chunk fuel data syms p' (s : session_state) :
  quiet s.1 -> Parse (parser (rd s.1)) data = (p', (received <$> syms, None)) ->
  len (pendingEvents (rd s.1)) + len syms <= maxPendingEvents ->
  exists t', fillChunk fuel data s = ((t', s.2), Some None) /\
    reads_to s.1 t' p'
      (pendingEvents (rd s.1) ++ (logical_event <$> (feed_all (escDecoder (rd s.1)) (at_time (clock s.2) syms)).2.1))
      (feed_all (escDecoder (rd s.1)) (at_time (clock s.2) syms)).1.
Proof.
  intros Hq Hp Hlen. unfold fillChunk, parseObservedLocked.
  unfold get_rd, gets, reader, counters, modify, mbind, sm_bind. cbn [fst snd]. rewrite Hp. cbn [fst snd when bool_decide].
  rewrite bool_decide_false by (by intros []). cbn [when mret sm_ret fst snd].
  match goal with |- context [for_each _ _ ?s0] => destruct (steady_symbols fuel syms s0) as (t' & E & R) end.
  - destruct Hq. by split.
  - done.
  - rewrite E. exists t'. split; [done|]. destruct R. by split.
Qed.

(** ** What arrives is what is read *)

Definition is_received (m : ENHMessage) : bool := msgCommand m =b ENHResReceived.

(** The wire symbols a script delivers and when, provided that it holds nothing
    but received symbols. *)
Fixpoint timeline (p : ENHParser) (chunks : list (list byte * Z)) : option (list (byte * Z)) :=
  match chunks with
  | [] => Some []
  | (data, t) :: rest =>
      match Parse p data with
      | (p', (msgs, None)) =>
          if forallb is_received msgs
          then app (at_time t (msgData <$> msgs)) <$> timeline p' rest else None
      | (_, (_, Some _)) => None
      end
  end.

Lemma received_msgs msgs : forallb is_received msgs = true -> received <$> (msgData <$> msgs) = msgs.
Proof.
  induction msgs as [|[c d] msgs IH]; [done|]. cbn [forallb]. intros [Hc Hm]%andb_prop.
  apply byte_eqb_eq in Hc. simpl in Hc. rewrite !fmap_cons, (IH Hm). by rewrite Hc.
Qed.

Lemma Parse_length p data p' msgs err : Parse p data = (p', (msgs, err)) -> len msgs <= len data.
Proof.
  revert p p' msgs err. induction data as [|b data IH]; intros p p' msgs err; simpl.
  - intros [= <- <- <-]. done.
  - destruct (Enh.Feed p b) as [p1 [m|e]].
    + destruct (Parse p1 data) as [p2 [out err2]] eqn:E. intros [= <- <- <-]. apply IH in E.
      rewrite len_app, len_cons. destruct m; unfold len in *; simpl; lia.
    + intros [= <- <- <-]. rewrite len_cons. pose proof (len_nonneg data). rewrite len_nil. lia.
Qed.

Lemma feed_all_app d a b :
  (feed_all d (a ++ b)).1 = (feed_all (feed_all d a).1 b).1 /\
  (feed_all d (a ++ b)).2.1 = (feed_all d a).2.1 ++ (feed_all (feed_all d a).1 b).2.1.
Proof.
  revert d. induction a as [|[x t] a IH]; intros d; [done|].
  rewrite <- app_comm_cons, !feed_all_cons.
  destruct (Escape.Feed d x t) as [d1 [out ev]].
  destruct (IH d1) as [H1 H2]. destruct (feed_all d1 (a ++ b)) as [d2 [o2 e2]], (feed_all d1 a) as [d3 [o3 e3]].
  simpl in *. split; [done|]. by rewrite H2, (assoc_L (++)).
Qed.

(** The transport and its script still have [rem] to deliver. *)
Record presents (s : session_state) (rem : list (byte * bool)) : Prop := {
  pr_quiet : quiet s.1;
  pr_chunks : Forall (fun c => len c.1 <= maxPendingEvents) (incoming s.2);
  pr_stream : exists buf w, pendingEvents (rd s.1) = logical_event <$> buf /\
    timeline (parser (rd s.1)) (incoming s.2) = Some w /\
    rem = buf ++ (feed_all (escDecoder (rd s.1)) w).2.1
}.

Lemma takeByte_logical buf :
  takeByte (logical_event <$> buf) =
  match buf with [] => ([], None) | x :: buf' => (logical_event <$> buf', Some x) end.
Proof. destruct buf as [|[b e] buf]; [done|]. reflexivity. Qed.

(** Reading leaves what was written, what the peer will accept and the
    transport's configuration alone. *)
Record only_reads (s s' : session_state) : Prop := {
  or_accepts : accepts s'.2 = accepts s.2;
  or_outgoing : outgoing s'.2 = outgoing s.2;
  or_sends : arbitrationSendsSource s'.1 = arbitrationSendsSource s.1
}.

#[export] Instance only_reads_preorder : PreOrder only_reads.
Proof. split; [by split|]. intros a b c [] []. split; congruence. Qed.

(** One turn of the reader on an empty queue: the next chunk is processed. *)
Lemma fill_presents fuel (s : session_state) x rem :
  presents s (x :: rem) -> pendingEvents (rd s.1) = [] ->
  exists s', fillPendingLocked fuel s = (s', Some None) /\ presents s' (x :: rem) /\
    (length (incoming s'.2) < length (incoming s.2))%nat /\ only_reads s s'.
Proof.
  intros [Hq Hc (buf & w & Hev & Htl & Hrem)] Hnil.
  rewrite Hnil in Hev. destruct buf; [|done]. simpl in Hrem.
  assert (setReadDeadline s = (s, Some None)) as Ed.
  { unfold setReadDeadline, gets, mbind, sm_bind. simpl. case_match; [by destruct s|].
    unfold Now, on_conn, env, mbind, sm_bind. by destruct s. }
  unfold fillPendingLocked. rewrite (bind_run _ _ _ _ _ Ed).
  destruct (incoming s.2) as [|[data t] rest] eqn:Ein; [simpl in Htl; injection Htl as <-; done|].
  assert (connRead s = ((s.1, mkScript rest (accepts s.2) (outgoing s.2) t), Some (data, None))) as Er.
  { unfold connRead, on_conn, env, blocked, atomics, modify, mbind, sm_bind. simpl.
    unfold script_read. rewrite Ein. simpl. destruct s as [[] ?]. done. }
  rewrite (bind_run _ _ _ _ _ Er). simpl in Htl. inversion Hc as [|? ? Hlen Hrest]; subst.
  destruct (Parse (parser (rd s.1)) data) as [p' [msgs [e|]]] eqn:Ep; [done|].
  destruct (forallb is_received msgs) eqn:Hall; [|done].
  destruct (timeline p' rest) as [w'|] eqn:Etl; simpl in Htl; [|done]. injection Htl as <-.
  destruct data as [|b data].
  - simpl in Ep. injection Ep as <- <-. eexists. split; [reflexivity|]. split; [|split; [simpl; lia|by split]].
    split; [done|done|]. exists [], w'. simpl. split_and!; [done|done|]. by rewrite Hrem.
  - pose proof (Parse_length _ _ _ _ _ Ep) as Hml.
    destruct (steady_chunk fuel (b :: data) (msgData <$> msgs) p'
      (s.1, mkScript rest (accepts s.2) (outgoing s.2) t)) as (t' & Ef & [Q P V D Hs]); cbn [fst snd] in *.
    + done.
    + by rewrite received_msgs.
    + rewrite Hnil, len_nil. unfold len in *. rewrite length_fmap. lia.
    + eexists. split; [exact Ef|]. split; [|split; [simpl; lia|by split]]. split; [done|done|].
      rewrite Hnil in V. cbn [clock app] in V, D.
      exists (feed_all (escDecoder (rd s.1)) (at_time t (msgData <$> msgs))).2.1, w'.
      cbn [fst snd incoming]. rewrite P, D. split_and!; [done|done|].
      rewrite Hrem. apply feed_all_app.
Qed.

Lemma read_presents fuel (s : session_state) x rem :
  presents s (x :: rem) -> (length (incoming s.2) < fuel)%nat ->
  exists s', ReadByteWithEscape fuel s = (s', Some (Ok x)) /\ presents s' rem /\
    (length (incoming s'.2) <= length (incoming s.2))%nat /\ only_reads s s'.
Proof.
  intros Hp Hfuel. unfold ReadByteWithEscape, guarded, get_at, gets, mbind, sm_bind.
  rewrite (q_closed _ (pr_quiet _ _ Hp)).
  revert s Hp Hfuel. induction fuel as [|fuel IH]; intros s Hp Hfuel; [lia|].
  pose proof Hp as [Hq Hc (buf & w & Hev & Htl & Hrem)].
  cbn [read_loop]. unfold get_rd, gets, reader, modify, mbind, sm_bind.
  rewrite (q_resets _ Hq). cbn [Z.ltb Z.compare fst snd]. rewrite Hev, takeByte_logical.
  destruct buf as [|y buf].
  - cbn [fst snd]. cbn [deferredErr set_events rd]. rewrite (q_deferred _ Hq).
    set (s0 := (mkTransport _ _ _ _ _ _ _, s.2) : session_state).
    assert (presents s0 (x :: rem)) as Hp0.
    { destruct Hq. split; [by split|done|]. by exists [], w. }
    destruct (fill_presents fuel s0 x rem Hp0 eq_refl) as (s1 & E & Hp1 & Hlt & Ho1). rewrite E.
    cbn [s0 snd] in Hlt. destruct (IH s1 Hp1) as (s2 & E2 & Hp2 & Hle2 & Ho2); [lia|].
    exists s2. split_and!; [exact E2|done|lia|]. etrans; [|exact Ho2]. etrans; [|exact Ho1]. by split.
  - cbn [fst snd mret sm_ret]. simpl in Hrem. injection Hrem as -> ->. eexists. split; [reflexivity|].
    split; [|split; [simpl; lia|by split]]. destruct Hq. split; [by split|done|]. by exists buf, w.
Qed.

(** [n] calls of [ReadByteWithEscape], up to the first error. *)
Fixpoint read_bytes (n fuel : nat) : SM session_state (list (byte * bool) * option error) :=
  match n with
  | O => mret ([], None)
  | S n' =>
      r ← ReadByteWithEscape fuel;
      match r with
      | Err e => mret ([], Some e)
      | Ok x => rs ← read_bytes n' fuel; mret (x :: rs.1, rs.2)
      end
  end.

Lemma read_bytes_presents fuel (s : session_state) rem :
  presents s rem -> (length (incoming s.2) < fuel)%nat ->
  exists s', read_bytes (length rem) fuel s = (s', Some (rem, None)).
Proof.
  revert s. induction rem as [|x rem IH]; intros s Hp Hf; [by exists s|].
  destruct (read_presents fuel s x rem Hp Hf) as (s1 & E1 & Hp1 & Hle & _).
  destruct (IH s1 Hp1) as (s2 & E2); [lia|]. exists s2. cbn [length read_bytes].
  rewrite (bind_run _ _ _ _ _ E1), (bind_run _ _ _ _ _ E2). done.
Qed.

(** A fresh transport over a script of chunks. *)
Definition fresh (rt wt : Z) (chunks : list (list byte * Z)) : session_state :=
  (NewENHTransport tt rt wt, mkScript chunks [] [] 0).

Lemma fresh_presents rt wt chunks w :
  Forall (fun c => len c.1 <= maxPendingEvents) chunks -> timeline idle_parser chunks = Some w ->
  presents (fresh rt wt chunks) (feed_all idle_decoder w).2.1.
Proof. intros Hc Hw. split; [by split|done|]. by exists [], w. Qed.

Lemma carried_outputs ss w : carries_all ss w -> (feed_all idle_decoder w).2.1 = ss.
Proof.
  induction 1 as [|s w ss ws Hs _ IH]; [done|]. rewrite (feed_carries s w ws Hs).
  destruct (feed_all idle_decoder ws) as [d [outs evs]]. simpl in *. by rewrite IH.
Qed.

(** Whatever the adapter leaks into escape pairs, successive reads return the
    logical symbols the wire carried, in order and with their provenance: framing
    and escape decoding compose, and the queue loses nothing. *)
Theorem reads_deliver_carried rt wt ss w chunks :
  carries_all ss w -> timeline idle_parser chunks = Some w ->
  Forall (fun c => len c.1 <= maxPendingEvents) chunks ->
  (read_bytes (length ss) (S (length chunks)) (fresh rt wt chunks)).2 = Some (ss, None).
Proof.
  intros Hss Hw Hc. pose proof (fresh_presents rt wt chunks w Hc Hw) as Hp.
  rewrite (carried_outputs ss w Hss) in Hp.
  destruct (read_bytes_presents (S (length chunks)) _ ss Hp) as (s' & E); [simpl; lia|]. by rewrite E.
Qed.

(** The symbols 0x10 and an escaped 0xAA with an AUTO-SYN inside its pair. *)
Definition leaky_symbols : list (byte * bool) := [(x10, false); (xaa, true)].
Definition leaky_chunks : list (list byte * Z) := [([x10; xc6], 5); ([xa9; xc6; xaa; x01], 9)].

Example reads_deliver_carried_witness :
  (read_bytes (length leaky_symbols) (S (length leaky_chunks)) (fresh 0 0 leaky_chunks)).2
  = Some (leaky_symbols, None).
Proof.
  apply (reads_deliver_carried 0 0 leaky_symbols [(x10, 5); (xa9, 9); (xaa, 9); (x01, 9)]).
  - apply (carries_all_cons (x10, false) [(x10, 5)]); [by constructor|].
    apply (carries_all_cons (xaa, true) [(xa9, 9); (xaa, 9); (x01, 9)] [] []); [|constructor].
    apply (carries_pair xaa x01 9 [9] 9); [by right|lia|by vm_compute|]. repeat constructor; by vm_compute.
  - by vm_compute.
  - repeat constructor; by vm_compute.
Defined.

(** Cutting a stream into chunks does not change its symbols. *)
Lemma timeline_chunks chunks p syms p' :
  Parse p (concat chunks.*1) = (p', (received <$> syms, None)) ->
  exists w, timeline p chunks = Some w /\ w.*1 = syms /\ Forall (fun x => x.2 ∈ chunks.*2) w.
Proof.
  revert p syms. induction chunks as [|[data t] chunks IH]; intros p syms; cbn [concat fmap list_fmap timeline fst snd].
  - cbn. intros [= _ Hs]. destruct syms; [|done]. by exists [].
  - rewrite Parse_app. destruct (Parse p data) as [p1 [out [e|]]]; [done|].
    destruct (Parse p1 (concat chunks.*1)) as [p2 [out2 err]] eqn:E2. intros [= <- Hout ->].
    assert (exists s1 s2, out = received <$> s1 /\ out2 = received <$> s2 /\ syms = s1 ++ s2) as (s1 & s2 & -> & -> & ->).
    { exists (take (length out) syms), (drop (length out) syms). rewrite take_drop.
      rewrite <- (take_drop (length out) syms), fmap_app in Hout.
      apply (f_equal length) in Hout as Hlen. rewrite length_app, length_app, !length_fmap, length_take, length_drop in Hlen.
      apply app_inj_1 in Hout as [H1 H2]; [done|]. rewrite length_fmap, length_take. lia. }
    destruct (IH p1 s2 E2) as (w & -> & Hw & Ht).
    assert (forallb is_received (received <$> s1) = true) as -> by (clear; induction s1; done).
    eexists. split; [reflexivity|]. rewrite <- (list_fmap_compose received msgData), list_fmap_id.
    split; [|].
    + rewrite fmap_app, Hw. f_equal. unfold at_time. rewrite <- list_fmap_compose. apply list_fmap_id.
    + apply Forall_app. split.
      * apply Forall_fmap, Forall_forall. intros b _. simpl. left.
      * eapply Forall_impl; [exact Ht|]. intros x Hx. by right.
Qed.

(** Any timing of a stuffed payload within the pair deadline carries it. *)
Lemma carries_timed payload w T :
  0 < T -> w.*1 = EscapeBytes payload -> Forall (fun x => T <= x.2 <= T + EscapePendingTimeout) w ->
  carries_all (provenance <$> payload) w.
Proof.
  intros HT. revert w. induction payload as [|b payload IH]; intros w Hw Ht.
  - destruct w; [constructor|done].
  - cbn [EscapeBytes] in Hw. rewrite fmap_cons.
    assert (forall a b', escape_symbol b = [a; b'] ->
      (b = SymbolEscape /\ b' = x00) \/ (b = SymbolSyn /\ b' = x01) -> a = SymbolEscape -> plain_symbol b = false ->
      carries_all (provenance b :: (provenance <$> payload)) w) as Hpair.
    { intros a code E Hb -> Hpl. rewrite E in Hw. unfold provenance at 1. rewrite Hpl.
      destruct w as [|[x1 t1] [|[x2 t2] w]]; [done..|]. simpl in Hw. injection Hw as -> -> Hw.
      inversion Ht as [|? ? H1 Ht1]; subst. inversion Ht1 as [|? ? H2 Ht2]; subst. simpl in *.
      apply (carries_all_cons (b, true) [(SymbolEscape, t1); (code, t2)]); [|by apply IH].
      apply (carries_pair b code t1 [] t2); [done|lia|done|]. constructor; [lia|constructor]. }
    unfold escape_symbol, plain_symbol in Hpair, Hw. unfold provenance at 1, plain_symbol.
    destruct (byte_eqb_spec b SymbolEscape) as [->|Hne]; [|destruct (byte_eqb_spec b SymbolSyn) as [->|]].
    + eapply Hpair; [done|by left|done|done].
    + eapply Hpair; [done|by right|done|done].
    + destruct w as [|[x1 t1] w]; [done|]. simpl in Hw. injection Hw as -> Hw.
      inversion Ht; subst. apply (carries_all_cons (b, false) [(b, t1)]); [by constructor|by apply IH].
Qed.


(** The payload 0x10 0xAA, its escape lead as a pair cut between two reads. *)
Definition cut_chunks : list (list byte * Z) := [([x10; xc6], 5); ([xa9; x01], 9)].


Definition closed_session : session_state := (Close (fresh 0 0 [])).1.

Lemma closed_refuses_witness :
  closed (at_ closed_session.1) = true /\
  (InitWithResult 3 x00 closed_session = (closed_session, Some (Err errTransportClosed)) /\
   Reconnect 3 closed_session = (closed_session, Some (Some errTransportClosed)) /\
   ReadByte 3 closed_session = (closed_session, Some (Err errTransportClosed)) /\
   ReadEvent 3 closed_session = (closed_session, Some (Err errTransportClosed)) /\
   ReadEventWithRawSymbol 3 closed_session = (closed_session, Some (Err errTransportClosed)) /\
   Write [x10] closed_session = (closed_session, Some (0, Some errTransportClosed)) /\
   StartArbitration 3 x00 closed_session = (closed_session, Some (Some errTransportClosed)) /\
   RequestStart x00 closed_session = (closed_session, Some (Some errTransportClosed)) /\
   RequestInfo 3 x00 closed_session = (closed_session, Some (Err errTransportClosed)) /\
   errors_is errTransportClosed STransportClosed = true /\
   closed (at_ (Close closed_session).1.1) = true).
Proof. split; [reflexivity|]. apply (closed_refuses closed_session 3 x00 [x10]). reflexivity. Defined.
