(* ===== verification/EnhWire.v ===== *)
(** Writing to the adapter and asking it for information, over a scripted
    connection that may accept only part of a write or fail: the count [Write]
    returns is what the adapter can decode, and [RequestInfo] returns exactly
    the announced number of the bytes that arrived. *)

From S2P Require Import Prelude Errors Enh Escape StateM EnhTransport EnhSession.
#[local] Open Scope Z_scope.

(** ** Writing *)

Lemma setWriteDeadline_script (s : session_state) : setWriteDeadline s = (s, Some None).
Proof.
  unfold setWriteDeadline, gets, Now, on_conn, env, mbind, sm_bind. simpl. by destruct s; case_match.
Qed.

Lemma setReadDeadline_script (s : session_state) : setReadDeadline s = (s, Some None).
Proof.
  unfold setReadDeadline, gets, Now, on_conn, env, mbind, sm_bind. simpl. by destruct s; case_match.
Qed.

Lemma connWrite_script (s : session_state) data :
  exists n err w, connWrite data s = ((s.1, w), Some (n, err)) /\ (n <= length data)%nat /\
    outgoing w = outgoing s.2 ++ take n data /\ incoming w = incoming s.2 /\ clock w = clock s.2 /\
    (accepts s.2 = [] -> n = length data /\ err = None /\ accepts w = []).
Proof.
  destruct s as [[] w]. unfold connWrite, on_conn, env, blocked, atomics, modify, mbind, sm_bind, mret, sm_ret.
  simpl. unfold script_write. destruct (accepts w) as [|[n e] rest] eqn:Ea; simpl.
  - eexists _, _, _. split; [reflexivity|]. simpl. by rewrite firstn_all.
  - eexists _, _, _. split; [reflexivity|]. simpl. rewrite length_take. split_and!; [lia| |done..].
    f_equal. rewrite Nat.min_comm. destruct (Nat.le_gt_cases n (length data)).
    + by rewrite Nat.min_r by lia.
    + rewrite Nat.min_l by lia. by rewrite !take_ge by lia.
Qed.

(** The write loop puts a prefix of the rest on the wire; without an error and
    with enough turns it stops early only if a write accepts nothing. *)
Lemma write_turns_script fuel written data (s : session_state) :
  (written <= length data)%nat ->
  exists w k err, write_turns fuel written data s = ((s.1, w), Some ((written + k)%nat, err)) /\
    (written + k <= length data)%nat /\ outgoing w = outgoing s.2 ++ take k (drop written data) /\
    incoming w = incoming s.2 /\ clock w = clock s.2 /\
    (accepts s.2 = [] -> (length data - written <= fuel)%nat -> (written + k = length data)%nat /\ err = None).
Proof.
  revert written s. induction fuel as [|fuel IH]; intros written s Hw; cbn [write_turns].
  - exists s.2, 0%nat, None. rewrite Nat.add_0_r, take_0, app_nil_r. destruct s. split_and!; try done. intros. split; [lia|done].
  - case_bool_decide as Hlt; [|exists s.2, 0%nat, None; rewrite Nat.add_0_r, take_0, app_nil_r;
      destruct s; split_and!; try done; intros; split; [lia|done]].
    rewrite (bind_run _ _ _ _ _ (setWriteDeadline_script s)).
    destruct (connWrite_script s (drop written data)) as (n & err & w & E & Hn & Hout & Hin & Hck & Hacc).
    rewrite (bind_run _ _ _ _ _ E). rewrite length_drop in Hn, Hacc.
    destruct err as [err|]; [|destruct (Nat.eqb_spec n 0) as [->|Hnz]].
    + exists w, n, (Some (mapWriteError err)). split_and!; try done; [lia|]. intros Ha. by destruct (Hacc Ha) as (_ & ? & _).
    + exists w, 0%nat, None. rewrite Nat.add_0_r. split_and!; try done. intros Ha _. destruct (Hacc Ha) as (? & _ & _). lia.
    + destruct (IH (written + n)%nat (s.1, w)) as (w2 & k & err & E2 & Hk & Hout2 & Hin2 & Hck2 & Hacc2); [lia|].
      exists w2, (n + k)%nat, err. rewrite Nat.add_assoc. split_and!; [done|lia| |by rewrite Hin2|by rewrite Hck2|].
      * rewrite Hout2. cbn [snd]. rewrite Hout, <- (assoc_L (++)). f_equal.
        rewrite <- drop_drop.
        rewrite <- (take_drop n (drop written data)) at 3. rewrite take_app_ge by (rewrite length_take, length_drop; lia).
        f_equal. rewrite length_take, length_drop. f_equal. lia.
      * intros Ha Hf. destruct (Hacc Ha) as (-> & _ & Ha2). destruct (Hacc2 Ha2) as [? ?]; [lia|]. split; [lia|done].
Qed.

Definition send_message (b : byte) : ENHMessage := mkENHMessage ENHReqSend b.
Definition encode_payload (payload : list byte) : list byte := payload ≫= sendFrame ENHReqSend.

Lemma encode_payload_length payload : length (encode_payload payload) = (2 * length payload)%nat.
Proof.
  induction payload as [|b payload IH]; [done|]. unfold encode_payload in *. cbn [mbind list_bind].
  rewrite length_app, IH. unfold sendFrame. simpl. lia.
Qed.

Lemma encode_payload_encodes payload : encodes_all (send_message <$> payload) (encode_payload payload).
Proof.
  induction payload as [|b payload IH]; [constructor|]. rewrite fmap_cons. unfold encode_payload. cbn [mbind list_bind].
  apply encodes_cons; [|exact IH]. unfold sendFrame. destruct (EncodeENH ENHReqSend b) as [b1 b2] eqn:E.
  by apply encodes_pair.
Qed.

Lemma encode_payload_app p q : encode_payload (p ++ q) = encode_payload p ++ encode_payload q.
Proof. unfold encode_payload. by rewrite list_bind_app || by rewrite bind_app. Qed.

(** A prefix of an encoded payload decodes to the bytes whose pairs it holds. *)
Lemma encoded_prefix payload k :
  (k <= length (encode_payload payload))%nat ->
  exists p, Parse idle_parser (take k (encode_payload payload)) =
    (p, (send_message <$> take (k / 2) payload, None)).
Proof.
  rewrite encode_payload_length. intros Hk.
  set (n := (k / 2)%nat). assert (k = (2 * n)%nat \/ k = (2 * n + 1)%nat) as Hcase.
  { pose proof (Nat.div_mod_eq k 2). pose proof (Nat.mod_upper_bound k 2). lia. }
  assert (take (2 * n) (encode_payload payload) = encode_payload (take n payload)) as Htake.
  { rewrite <- (take_drop n payload) at 1. rewrite encode_payload_app, take_app_le.
    - apply take_ge. rewrite encode_payload_length, length_take. lia.
    - rewrite encode_payload_length, length_take. lia. }
  pose proof (encode_payload_encodes (take n payload)) as Henc.
  destruct Hcase as [Hc|Hc].
  - exists idle_parser. rewrite Hc, Htake.
    pose proof (Parse_encodes_all _ _ [] Henc) as H. rewrite app_nil_r in H. rewrite H. cbn. by rewrite app_nil_r.
  - destruct (drop n payload) as [|b rest] eqn:Ed.
    { apply (f_equal length) in Ed. rewrite length_drop in Ed. simpl in Ed. lia. }
    assert (take k (encode_payload payload) = encode_payload (take n payload) ++ [(EncodeENH ENHReqSend b).1]) as ->.
    { rewrite Hc, <- (take_drop n payload) at 1. rewrite encode_payload_app, Ed.
      rewrite take_app_ge by (rewrite encode_payload_length, length_take; lia).
      f_equal. rewrite encode_payload_length, length_take.
      replace (2 * n + 1 - 2 * (n `min` length payload))%nat with 1%nat by lia.
      unfold encode_payload. cbn [mbind list_bind]. unfold sendFrame.
      by destruct (EncodeENH ENHReqSend b). }
    rewrite (Parse_encodes_all _ _ _ Henc). destruct (EncodeENH_fst ENHReqSend b) as (E1 & _ & _).
    cbn -[Enh.Feed]. rewrite Feed_idle_lead by exact E1. eexists. by rewrite app_nil_r.
Qed.

(** [Write]'s count is the number of payload bytes the adapter can decode from
    what went out, whatever the network accepts and however it fails; and it
    reports success only when the whole payload went out. *)
Theorem Write_counts_decodable payload (s : session_state) :
  closed (at_ s.1) = false ->
  exists w sent n err p, Write payload s = ((s.1, w), Some (n, err)) /\
    outgoing w = outgoing s.2 ++ sent /\
    Parse idle_parser sent = (p, (send_message <$> take (Z.to_nat n) payload, None)) /\
    0 <= n <= len payload /\ (err = None -> n = len payload /\ sent = encode_payload payload).
Proof.
  intros Hc. unfold Write, get_at, gets, mbind at 1, sm_bind at 1. rewrite Hc.
  case_bool_decide as Hnil.
  - subst. exists s.2, [], 0, None, idle_parser. rewrite app_nil_r. destruct s. split_and!; done.
  - fold (encode_payload payload). unfold writeAll.
    destruct (write_turns_script (length (encode_payload payload)) 0 (encode_payload payload) s)
      as (w & k & err & E & Hk & Hout & _); [lia|].
    rewrite (bind_run _ _ _ _ _ E). cbn [Nat.add] in *. rewrite drop_0 in Hout.
    destruct (encoded_prefix payload k Hk) as [p Hp].
    pose proof (encode_payload_length payload) as Hlen.
    assert (Z.to_nat (Z.of_nat k / 2) = (k / 2)%nat) as Hdiv by (rewrite <- (Nat2Z.id (k / 2)), Nat2Z.inj_div; done).
    assert (0 <= Z.of_nat k / 2 <= len payload) as Hrange.
    { unfold len. split; [apply Z.div_pos; lia|]. apply Z.div_le_upper_bound; lia. }
    destruct err as [err|]; [|destruct (Nat.eqb_spec k (length (encode_payload payload))) as [Heq|Hne]].
    + exists w, (take k (encode_payload payload)), (Z.of_nat k / 2), (Some err), p. rewrite Hdiv. split_and!; done || lia.
    + exists w, (encode_payload payload), (len payload), None, p.
      rewrite take_ge in Hout, Hp by lia. rewrite Heq, Hlen, Nat.mul_comm, Nat.div_mul in Hp by done.
      unfold len. rewrite Nat2Z.id. split_and!; try done; lia.
    + exists w, (take k (encode_payload payload)), (Z.of_nat k / 2), (Some (ESentinel SInvalidPayload)), p.
      rewrite Hdiv. split_and!; done || lia.
Qed.

(** Three bytes of the two pairs are accepted before the connection breaks. *)
Definition breaking_session : session_state :=
  (NewENHTransport tt 0 0, mkScript [] [(3%nat, Some NetConnReset)] [] 0).

Example Write_counts_decodable_witness :
  exists w sent n err p, Write [x10; xaa] breaking_session = ((breaking_session.1, w), Some (n, err)) /\
    outgoing w = outgoing breaking_session.2 ++ sent /\
    Parse idle_parser sent = (p, (send_message <$> take (Z.to_nat n) [x10; xaa], None)) /\
    0 <= n <= len [x10; xaa] /\ (err = None -> n = len [x10; xaa] /\ sent = encode_payload [x10; xaa]).
Proof. apply (Write_counts_decodable [x10; xaa] breaking_session). reflexivity. Defined.

(** A peer that accepts everything takes the whole payload in one write. *)
Lemma writeAll_open data (s : session_state) : accepts s.2 = [] -> data <> [] ->
  exists w, writeAll data s = ((s.1, w), Some (length data, None)) /\
    outgoing w = outgoing s.2 ++ data /\ incoming w = incoming s.2 /\ clock w = clock s.2 /\ accepts w = [].
Proof.
  intros Ha Hd. destruct data as [|b data]; [done|]. unfold writeAll. cbn [length write_turns].
  rewrite bool_decide_true by (cbn; lia). rewrite (bind_run _ _ _ _ _ (setWriteDeadline_script s)).
  change (drop 0 (b :: data)) with (b :: data).
  destruct (connWrite_script s (b :: data)) as (n & err & w & E & _ & Hout & Hin & Hck & Hacc).
  destruct (Hacc Ha) as (-> & -> & Hw). rewrite (bind_run _ _ _ _ _ E). cbn [length Nat.eqb].
  exists w. rewrite take_ge in Hout by (cbn; lia). split_and!; try done.
  destruct (length data) as [|k] eqn:El; [reflexivity|]. cbn [write_turns]. rewrite bool_decide_false by (cbn; lia).
  reflexivity.
Qed.

Lemma Write_script payload (s : session_state) :
  closed (at_ s.1) = false -> accepts s.2 = [] -> payload <> [] ->
  exists w, Write payload s = ((s.1, w), Some (len payload, None)) /\ outgoing w = outgoing s.2 ++ encode_payload payload /\
    incoming w = incoming s.2 /\ clock w = clock s.2 /\ accepts w = [].
Proof.
  intros Hc Ha Hp. unfold Write, get_at, gets, mbind at 1, sm_bind at 1. rewrite Hc, bool_decide_false by done.
  fold (encode_payload payload). destruct (writeAll_open (encode_payload payload) s Ha) as (w & E & Hw).
  { destruct payload; [done|]. unfold encode_payload, sendFrame. done. }
  exists w. split; [|done]. rewrite (bind_run _ _ _ _ _ E). by rewrite Nat.eqb_refl.
Qed.

(** ** INFO requests *)

(** The messages a script parses to, up to the first framing error. *)
Fixpoint messages (p : ENHParser) (chunks : list (list byte * Z)) : list ENHMessage :=
  match chunks with
  | [] => []
  | (data, _) :: rest =>
      match Parse p data with
      | (p', (msgs, None)) => msgs ++ messages p' rest
      | (_, (msgs, Some _)) => msgs
      end
  end.

Definition is_info (m : ENHMessage) : bool := msgCommand m =b ENHResInfo.
Definition info_data (msgs : list ENHMessage) : list byte := msgData <$> filter (fun m => is_info m = true) msgs.

(** What the exchange knows after some INFO data. *)
Definition info_view (infos : list byte) : Z * list byte * bool :=
  match infos with
  | [] => (-1, [], false)
  | d :: rest => (u8 d, take (Z.to_nat (u8 d)) rest, u8 d <=? len rest)
  end.

Definition sees (x : info_exchange) (infos : list byte) : Prop :=
  (payloadLen x, infoPayload x, payloadComplete x) = info_view infos.

Lemma onInfo_sees x infos d : sees x infos -> sees (onInfo d x) (infos ++ [d]) /\
  resetBeforeCompletion (onInfo d x) = resetBeforeCompletion x.
Proof.
  destruct x as [n p c r]. unfold sees, onInfo. simpl. destruct infos as [|d0 rest]; simpl.
  - intros [= -> -> ->]. simpl. pose proof (u8_range d). change (len (@nil byte)) with 0.
    destruct (Z.eqb_spec (u8 d) 0) as [->|]; simpl; [done|]. split; [|done]. by rewrite take_nil, (proj2 (Z.leb_gt (u8 d) 0)) by lia.
  - intros [= -> -> ->]. pose proof (u8_range d0). rewrite (proj2 (Z.ltb_ge (u8 d0) 0)) by lia.
    assert (len (rest ++ [d]) = len rest + 1) as Hl by (rewrite len_app; reflexivity).
    assert (len (take (Z.to_nat (u8 d0)) rest) = Z.min (u8 d0) (len rest)) as Ht.
    { unfold len. rewrite length_take. lia. }
    destruct (Z.ltb_spec (len (take (Z.to_nat (u8 d0)) rest)) (u8 d0)) as [Hlt|Hge]; simpl; split; try done.
    + rewrite Ht in Hlt. rewrite (take_ge rest) by (unfold len in *; lia).
      rewrite (take_ge (rest ++ [d])) by (rewrite length_app; unfold len in *; simpl; lia).
      rewrite Hl, (proj2 (Z.leb_gt (u8 d0) (len rest))) by lia. done.
    + rewrite Ht in Hge. rewrite take_app_le by (unfold len in *; lia).
      rewrite (proj2 (Z.leb_le (u8 d0) (len rest))) by lia.
      by rewrite (proj2 (Z.leb_le (u8 d0) (len (rest ++ [d])))) by lia.
Qed.

(** What the message handlers of the exchange leave alone. *)
Definition same_input (p : ENHParser) (inc : list (list byte * Z)) (s : session_state) : Prop :=
  parser (rd s.1) = p /\ incoming s.2 = inc.

Section SameInput.
Context (p : ENHParser) (inc : list (list byte * Z)).

Lemma si_atomics f : keeps (same_input p inc) (atomics f).
Proof. by intros s [? ?]. Qed.
Lemma si_counters f : keeps (same_input p inc) (counters f).
Proof. by intros s [? ?]. Qed.
Lemma si_reader f : (forall r, parser (f r) = parser r) -> keeps (same_input p inc) (reader f).
Proof. intros Hf s [? ?]. split; [|done]. simpl. by rewrite Hf. Qed.
Lemma si_now : keeps (same_input p inc) Now.
Proof. by intros [] [? ?]. Qed.
Lemma si_escape : keeps (same_input p inc) (env escapeNow).
Proof. by intros [] [? ?]. Qed.
Lemma si_decoder : keeps (same_input p inc) resetDecoder.
Proof. by apply si_reader. Qed.
Lemma si_observed sym ev : keeps (same_input p inc) (queueObserved sym ev).
Proof.
  apply si_reader. intros r. unfold queueObservedSymbolLocked, appendWireSynLocked, appendDecodedByteLocked.
  by repeat case_match.
Qed.
Lemma si_control ev : keeps (same_input p inc) (appendControl ev).
Proof. by apply si_reader. Qed.
Lemma si_set_decoder d : keeps (same_input p inc) (reader (set_decoder d)).
Proof. by apply si_reader. Qed.
Hint Resolve si_atomics si_counters si_now si_escape si_decoder si_observed si_control si_set_decoder : keeps.

Lemma si_feed raw : keeps (same_input p inc) (feedEscapeDecoderLocked raw).
Proof.
  unfold feedEscapeDecoderLocked, get_rd. apply keeps_bind; [keeps_tac|intros ?]. apply keeps_bind; [keeps_tac|intros t].
  apply keeps_bind; [keeps_tac|intros d]. destruct (Escape.Feed d raw t) as [? [? ?]]. keeps_tac.
Qed.
Hint Resolve si_feed : keeps.

Lemma si_received raw : keeps (same_input p inc) (onReceived raw).
Proof.
  unfold onReceived, receivedSteady, receivedBeforeGrant, resetPendingEscapeBeforeEmissionLocked, passesGrantWindow,
    postGrantPreEchoExpired, arbitrationWindowExpired, closePostGrantPreEchoWindow, get_at. keeps_tac.
Qed.
Lemma si_started d : keeps (same_input p inc) (onStarted d).
Proof. unfold onStarted, openPostGrantPreEchoWindow, get_at. keeps_tac. Qed.
Lemma si_failed d : keeps (same_input p inc) (onFailed d).
Proof. unfold onFailed, closePostGrantPreEchoWindow. keeps_tac. Qed.
End SameInput.

Lemma info_data_cons m msgs : info_data (m :: msgs) = (if is_info m then [msgData m] else []) ++ info_data msgs.
Proof. unfold info_data. rewrite filter_cons. by destruct (is_info m). Qed.

Lemma info_data_app a b : info_data (a ++ b) = info_data a ++ info_data b.
Proof. unfold info_data. by rewrite filter_app, fmap_app. Qed.

(** One message of the exchange. *)
Lemma infoMessage_step x infos msg (s s' : session_state) x' :
  sees x infos -> infoMessage x msg s = (s', Some (Ok x')) ->
  sees x' (infos ++ if is_info msg then [msgData msg] else []) /\
  (resetBeforeCompletion x' = false -> resetBeforeCompletion x = false) /\
  incoming s'.2 = incoming s.2 /\
  (payloadComplete x' = false -> resetBeforeCompletion x' = false -> parser (rd s'.1) = parser (rd s.1)).
Proof.
  intros Hx E. unfold infoMessage in E. unfold is_info.
  destruct (msgCommand msg =b ENHResInfo) eqn:Ei.
  { injection E as <- <-. destruct (onInfo_sees x infos (msgData msg) Hx) as [Hs Hr]. by rewrite Hr. }
  rewrite app_nil_r.
  assert (forall (m : SM session_state unit), (forall p inc, keeps (same_input p inc) m) ->
    (m ≫= fun _ => mret (Ok (E := error) x)) s = (s', Some (Ok x')) ->
    sees x' infos /\ (resetBeforeCompletion x' = false -> resetBeforeCompletion x = false) /\
    incoming s'.2 = incoming s.2 /\
    (payloadComplete x' = false -> resetBeforeCompletion x' = false -> parser (rd s'.1) = parser (rd s.1))) as Hkeep.
  { intros m Hm Em. apply bind_inv in Em as (s1 & [] & E1 & [= -> <-]).
    destruct (Hm (parser (rd s.1)) (incoming s.2) s) as [H1 H2]; [done|]. by rewrite E1 in H1, H2. }
  destruct (msgCommand msg =b ENHResReceived); [by apply (Hkeep _ (fun p inc => si_received p inc _) E)|].
  destruct (msgCommand msg =b ENHResStarted); [by apply (Hkeep _ (fun p inc => si_started p inc _) E)|].
  destruct (msgCommand msg =b ENHResFailed); [by apply (Hkeep _ (fun p inc => si_failed p inc _) E)|].
  destruct (msgCommand msg =b ENHResResetted).
  { injection E as <- <-. destruct (payloadComplete x) eqn:Hc; simpl; [by rewrite Hc|].
    split; [|done].
    clear Hkeep. destruct x as [n q c r]. simpl in Hc. subst c. exact Hx. }
  repeat case_match; try (injection E as <- <-; done);
    apply bind_inv in E as (? & ? & _ & [=]).
Qed.

Lemma info_fold msgs x infos (s s' : session_state) x' :
  sees x infos -> fold_each infoMessage x msgs s = (s', Some (Ok x')) ->
  sees x' (infos ++ info_data msgs) /\
  (resetBeforeCompletion x' = false -> resetBeforeCompletion x = false) /\
  incoming s'.2 = incoming s.2 /\
  (payloadComplete x' = false -> resetBeforeCompletion x' = false -> parser (rd s'.1) = parser (rd s.1)).
Proof.
  revert x infos s. induction msgs as [|m msgs IH]; intros x infos s Hx E; cbn [fold_each] in E.
  - injection E as <- <-. unfold info_data. by rewrite app_nil_r.
  - apply bind_inv in E as (s1 & [x1|e] & E1 & E2); [|done].
    destruct (infoMessage_step _ _ _ _ _ _ Hx E1) as (Hx1 & Hr1 & Hi1 & Hp1).
    destruct (IH _ _ _ Hx1 E2) as (Hx2 & Hr2 & Hi2 & Hp2).
    rewrite <- (assoc_L (++)), <- info_data_cons in Hx2. split_and!; [done|auto|congruence|].
    intros Hc2 Hrs2. rewrite Hp2 by done. apply Hp1; [|auto].
    destruct (payloadComplete x1) eqn:Hc1; [|done]. exfalso.
    clear -Hx1 Hx2 Hc1 Hc2. unfold sees in *. rewrite info_data_cons in Hx2.
    rewrite (assoc_L (++)) in Hx2. destruct (infos ++ _) as [|d rest]; simpl in *; [congruence|].
    injection Hx1 as _ _ E1. injection Hx2 as _ _ E2. rewrite Hc1 in E1. rewrite Hc2 in E2.
    symmetry in E1, E2. apply Z.leb_le in E1. apply Z.leb_gt in E2. rewrite len_app in E2.
    pose proof (len_nonneg (info_data msgs)). lia.
Qed.

Lemma requestInfoFail_run err (s : session_state) : exists s', requestInfoFail err s = (s', Some err).
Proof.
  unfold requestInfoFail, get_at, gets, atomics, reader, counters, modify, resetENHParserLocked,
    closePostGrantPreEchoWindow, resetDecoder, reader, modify, when, mbind, sm_bind, mret, sm_ret. simpl.
  destruct (negb _ || _), (errors_is err STransportClosed || _); simpl; eauto.
Qed.

Lemma infoFail_run {A} err (s : session_state) : exists s', infoFail (A := A) err s = (s', Some (Err err)).
Proof.
  unfold infoFail. destruct (requestInfoFail_run err s) as [s' E]. exists s'. by rewrite (bind_run _ _ _ _ _ E).
Qed.

Lemma infoFail_not_ok {A} err (s s' : session_state) (a : A) : infoFail err s = (s', Some (Ok a)) -> False.
Proof. destruct (infoFail_run (A := A) err s) as [s1 ->]. done. Qed.

Lemma parseObserved_run (s : session_state) data :
  exists t', parseObservedLocked data s = ((t', s.2), Some (Parse (parser (rd s.1)) data).2) /\
    parser (rd t') = (Parse (parser (rd s.1)) data).1 /\ at_ t' = at_ s.1 /\
    pendingEvents (rd t') = pendingEvents (rd s.1) /\ escDecoder (rd t') = escDecoder (rd s.1) /\
    rawSymbolItems (rd t') = rawSymbolItems (rd s.1).
Proof.
  unfold parseObservedLocked, get_rd, gets, reader, counters, modify, when, mbind, sm_bind. simpl.
  destruct (Parse (parser (rd s.1)) data) as [p' [msgs err]]. simpl.
  destruct (bool_decide _); eexists; split; try reflexivity; done.
Qed.

Lemma connRead_script (s : session_state) :
  connRead s = ((s.1, (script_read tt s.2).1), Some (script_read tt s.2).2).
Proof.
  destruct s as [[] w]. unfold connRead, on_conn, env, blocked, atomics, modify, mbind, sm_bind, mret, sm_ret. simpl.
  by destruct (script_read _ w).
Qed.

(** A completed exchange: the data of the messages read so far. *)
Lemma info_loop_ok fuel dl x infos (s s' : session_state) payload :
  sees x infos -> resetBeforeCompletion x = false -> payloadComplete x = false ->
  info_loop fuel dl x s = (s', Some (Ok payload)) ->
  exists k d extra, infos ++ info_data (messages (parser (rd s.1)) (take k (incoming s.2))) = d :: payload ++ extra /\
    u8 d = len payload.
Proof.
  revert x infos s. induction fuel as [|fuel IH]; intros x infos s Hx Hr Hc; cbn [info_loop]; [done|].
  intros E. apply bind_inv in E as (s0 & t & E0 & E). assert (s0 = s) as -> by (destruct s; by injection E0).
  case_match; [by apply infoFail_not_ok in E|].
  apply bind_inv in E as (s0 & e & E0' & E). assert (s0 = s /\ e = None) as [-> ->] by (destruct s; by injection E0').
  rewrite (bind_run _ _ _ _ _ (connRead_script s)) in E. unfold script_read in E.
  destruct (incoming s.2) as [|[data tm] rest] eqn:Ein; cbn [fst snd] in E; [by apply infoFail_not_ok in E|].
  destruct data as [|b data].
  - apply (IH x infos) in E as (k & d & extra & Heq & Hd); [|done..]. exists (S k), d, extra. by split.
  - match type of E with context [parseObservedLocked _ ≫= _] => idtac end.
    destruct (parseObserved_run (s.1, mkScript rest (accepts s.2) (outgoing s.2) tm) (b :: data)) as (t1 & Ep & Hp1 & _).
    rewrite (bind_run _ _ _ _ _ Ep) in E. cbn [fst snd] in *.
    destruct (Parse (parser (rd s.1)) (b :: data)) as [p' [msgs perr]] eqn:Eparse. cbn [fst snd] in *.
    apply bind_inv in E as (s2 & [x'|e] & Ef & E); [|done].
    destruct (info_fold _ _ _ _ _ _ Hx Ef) as (Hx' & Hr' & Hi' & Hpar). cbn [fst snd incoming] in *.
    destruct (resetBeforeCompletion x') eqn:Hrx; [by apply infoFail_not_ok in E|].
    destruct (payloadComplete x') eqn:Hcx.
    + injection E as _ <-. exists 1%nat.
      unfold sees in Hx'. destruct (infos ++ info_data msgs) as [|d rest'] eqn:Einf; simpl in Hx'; [congruence|].
      exists d, (drop (Z.to_nat (u8 d)) rest'). injection Hx' as Hl Hp Hcc. rewrite Hcx in Hcc. symmetry in Hcc. apply Z.leb_le in Hcc.
      rewrite Hp, take_drop. split; [|unfold len in *; rewrite length_take; pose proof (u8_range d); lia].
      cbn [take messages]. rewrite Eparse. destruct perr; by rewrite ?app_nil_r, Einf.
    + destruct perr as [perr|]; [by apply infoFail_not_ok in E|].
      apply (IH x' _ s2 Hx' Hrx Hcx) in E as (k & d & extra & Heq & Hd).
      exists (S k), d, extra. split; [|done]. rewrite <- Heq, Hi'. cbn [take messages]. rewrite Eparse, info_data_app.
      rewrite (Hpar eq_refl eq_refl), Hp1. by rewrite (assoc_L (++)).
Qed.

(** A payload [RequestInfo] returns is exactly what the adapter's INFO messages
    announce: the first byte received is its length, and it is the bytes that
    follow, whatever other traffic was interleaved. *)
Theorem RequestInfo_returns_announced fuel id (s s' : session_state) payload :
  RequestInfo fuel id s = (s', Some (Ok payload)) ->
  exists k d extra,
    info_data (messages (parser (rd s.1)) (take k (incoming s.2))) = d :: payload ++ extra /\ u8 d = len payload.
Proof.
  unfold RequestInfo, guarded, get_at. intros E. apply bind_inv in E as (s0 & c & [= <- <-] & E).
  destruct (closed (at_ s.1)); [done|]. unfold writeAll in E.
  destruct (write_turns_script (length (sendFrame ENHReqInfo id)) 0 (sendFrame ENHReqInfo id) s)
    as (w & k & err & Ew & _ & _ & Hin & _); [lia|].
  rewrite (bind_run _ _ _ _ _ Ew) in E. destruct err as [err|]; [by apply infoFail_not_ok in E|].
  case_match; [|by apply infoFail_not_ok in E].
  apply bind_inv in E as (s1 & rt & [= <- <-] & E). apply bind_inv in E as (s1 & t & Et & E).
  assert (s1 = (s.1, w)) as -> by (by injection Et).
  apply (info_loop_ok _ _ _ []) in E as (k' & d & extra & Heq & Hd); [|done..].
  cbn [fst snd] in Heq. rewrite Hin in Heq. by exists k', d, extra.
Qed.

(** The adapter announces two bytes in one read and delivers them in another,
    around a received symbol. *)
Definition info_session : session_state :=
  fresh 0 0 [([xcc; x82], 5); ([xcc; x91; x10; xcc; x92], 9)].

Example RequestInfo_returns_announced_witness :
  exists k d extra, info_data (messages (parser (rd info_session.1)) (take k (incoming info_session.2)))
    = d :: [x11; x12] ++ extra /\ u8 d = len [x11; x12].
Proof.
  apply (RequestInfo_returns_announced 3 x00 info_session (RequestInfo 3 x00 info_session).1).
  vm_compute. reflexivity.
Defined.
