(* ===== verification/EnhArbitration.v ===== *)
(** Arbitration on the enhanced transport: what is heard before the grant never
    reaches a byte reader, the first byte after the grant is the echo of the
    first write, and a blocking arbitration is won exactly when the adapter
    reports this address started and nothing in the same read denies it. *)

From S2P Require Import Prelude Errors Wire Enh Escape StateM EnhTransport EnhSession EnhWire.
#[local] Open Scope Z_scope.

(** ** The asynchronous window *)

(** [RequestStart] awaits the grant for [i]; the deadline is in the future. *)
Record awaiting (i : byte) (s : session_state) : Prop := {
  aw_open : awaitingStart (at_ s.1) = true;
  aw_mine : awaitingStartInitiator (at_ s.1) = i;
  aw_future : clock s.2 < arbitrationDeadline (at_ s.1);
  aw_raw : rawSymbolItems (rd s.1) = false
}.

Definition is_byte (ev : StreamEvent) : bool := isKind StreamEventByte ev.
Definition bytes_of (evs : list StreamEvent) : list StreamEvent := filter (fun ev => is_byte ev = true) evs.

(** Messages that do not end the wait for [i]'s grant. *)
Definition keeps_waiting (i : byte) (m : ENHMessage) : bool :=
  negb (msgCommand m =b ENHResFailed) && negb (msgCommand m =b ENHResResetted) &&
  negb ((msgCommand m =b ENHResStarted) && (msgData m =b i)).

Lemma feedEscape_script (s : session_state) raw :
  exists t', feedEscapeDecoderLocked raw s = ((t', s.2), Some (Escape.Feed (escDecoder (rd s.1)) raw (clock s.2)).2.1) /\
    at_ t' = at_ s.1 /\ rawSymbolItems (rd t') = rawSymbolItems (rd s.1) /\ parser (rd t') = parser (rd s.1) /\
    pendingEvents (rd t') = pendingEvents (rd s.1) /\ resets (rd t') = resets (rd s.1) /\
    escDecoder (rd t') = (Escape.Feed (escDecoder (rd s.1)) raw (clock s.2)).1.
Proof. destruct (feedEscape_run s raw) as [c ->]. eexists. split; [reflexivity|]. done. Qed.

Lemma arbExpired_script (s : session_state) i :
  awaiting i s -> arbitrationWindowExpired s = (s, Some false).
Proof.
  intros [_ _ Hf _]. unfold arbitrationWindowExpired, get_at, gets, Now, env, mbind, sm_bind. simpl.
  destruct s as [t w]. simpl in *. destruct (_ =? 0); simpl; [done|].
  unfold mret, sm_ret. by rewrite (proj2 (Z.leb_gt _ _)) by lia.
Qed.

(** A symbol heard while waiting adds at most a SYN marker. *)
Lemma waiting_symbol (s : session_state) i raw :
  awaiting i s ->
  exists t', onReceived raw s = ((t', s.2), Some tt) /\ awaiting i (t', s.2) /\
    (pendingEvents (rd t') = pendingEvents (rd s.1) \/ pendingEvents (rd t') = pendingEvents (rd s.1) ++ [wireSynEvent]) /\
    parser (rd t') = parser (rd s.1) /\ resets (rd t') = resets (rd s.1).
Proof.
  intros Ha. pose proof Ha as [Ho Hm Hf Hr].
  unfold onReceived, get_at. unfold gets at 1. unfold mbind at 1, sm_bind at 1. rewrite Ho.
  rewrite (bind_run _ _ _ _ _ (arbExpired_script s i Ha)). unfold receivedBeforeGrant.
  destruct (feedEscape_script s raw) as (t' & E & Hat & Hraw & Hp & Hev & Hrs & Hd).
  rewrite (bind_run _ _ _ _ _ E). destruct (Escape.Feed _ raw _).2.1 as [[b e]|].
  2:{ exists t'. split; [done|]. split; [split; simpl; congruence|]. split; [by left|done]. }
  unfold when. destruct (_ && _); [|exists t'; split; [done|]; split; [split; simpl; congruence|]; split; [by left|done]].
  unfold queueObserved, reader, modify. eexists. split; [reflexivity|]. simpl.
  unfold queueObservedSymbolLocked, appendWireSynLocked. rewrite Hraw, Hr. cbn [negb isKind wireSynEvent].
  change (isKind StreamEventWireSyn wireSynEvent) with true. cbn match.
  destruct (_ <? _); simpl; (split; [split; simpl; congruence|]).
  - split; [by right; rewrite Hev|done].
  - split; [by left|done].
Qed.

Lemma control_append_bytes ev r : is_byte ev = false ->
  bytes_of (pendingEvents (appendControlEventLocked ev r)) `sublist_of` bytes_of (pendingEvents r).
Proof.
  intros He. unfold appendControlEventLocked, bytes_of. simpl. rewrite filter_app.
  rewrite (filter_cons_False _ ev) by congruence. rewrite app_nil_r.
  assert (forall l l', evict l = Some l' -> l' `sublist_of` l) as Hev.
  { induction l as [|x l IH]; intros l'; simpl; [done|]. destruct (evictable x).
    - intros [= <-]. destruct (_ && _); [|by apply sublist_cons].
      destruct l; simpl; [by apply sublist_cons|by repeat apply sublist_cons].
    - destruct (evict l) as [k|]; simpl; [|done]. intros [= <-]. apply sublist_skip, IH. done. }
  assert (forall l l', l' `sublist_of` l -> filter (fun ev => is_byte ev = true) l' `sublist_of` filter (fun ev => is_byte ev = true) l) as Hfilter.
  { intros l l'. induction 1 as [|x ? ? ? IH|x ? ? ? IH]; [done| |].
    - rewrite !filter_cons. case_decide; [by apply sublist_skip|done].
    - rewrite filter_cons. case_decide; [by apply sublist_cons|done]. }
  apply Hfilter. case_match; [|done]. case_match; [by apply Hev|]. destruct (pendingEvents r); [done|]. by apply sublist_cons.
Qed.

Lemma waiting_message fuel (s : session_state) i m :
  awaiting i s -> keeps_waiting i m = true ->
  exists t', fillMessage fuel m s = ((t', s.2), Some None) /\ awaiting i (t', s.2) /\
    bytes_of (pendingEvents (rd t')) `sublist_of` bytes_of (pendingEvents (rd s.1)).
Proof.
  intros Ha [[Hnf%negb_true_iff Hnr%negb_true_iff]%andb_prop Hns%negb_true_iff]%andb_prop.
  unfold fillMessage. rewrite Hnf, Hnr.
  destruct (msgCommand m =b ENHResReceived).
  { destruct (waiting_symbol s i (msgData m) Ha) as (t' & E & Ha' & Hev & _). exists t'.
    rewrite (bind_run _ _ _ _ _ E). split; [done|]. split; [done|]. destruct Hev as [-> | ->]; [done|].
    unfold bytes_of. rewrite filter_app, (filter_cons_False _ wireSynEvent) by done. by rewrite app_nil_r. }
  destruct (msgCommand m =b ENHResStarted); simpl in Hns.
  - pose proof Ha as [Ho Hm Hf Hr].
    assert (onStarted (msgData m) s = (reader (appendControlEventLocked (controlEvent StreamEventStarted (msgData m))) s)) as Es.
    { unfold onStarted, get_at, gets, mbind, sm_bind. rewrite Ho, Hm. cbn.
      assert ((i =b msgData m) = false) as -> by (apply byte_eqb_neq; intros ->; by rewrite byte_eqb_refl in Hns). done. }
    unfold mbind, sm_bind. rewrite Es. eexists. split; [reflexivity|]. split; [by split|].
    by apply control_append_bytes.
  - exists s.1. destruct s. by split_and!.
Qed.

(** Until the matching grant, a loss, an adapter reset or the deadline, nothing
    that is heard becomes a byte event: [ReadByte] cannot mistake it for an echo. *)
Theorem pre_grant_silence fuel i msgs (s : session_state) :
  awaiting i s -> forallb (keeps_waiting i) msgs = true ->
  exists t', for_each (fillMessage fuel) msgs s = ((t', s.2), Some None) /\ awaiting i (t', s.2) /\
    bytes_of (pendingEvents (rd t')) `sublist_of` bytes_of (pendingEvents (rd s.1)).
Proof.
  revert s. induction msgs as [|m msgs IH]; intros s Ha Hall.
  - exists s.1. destruct s. by split_and!.
  - apply andb_prop in Hall as [Hm Hall]. destruct (waiting_message fuel s i m Ha Hm) as (t1 & E1 & Ha1 & Hs1).
    destruct (IH (t1, s.2) Ha1 Hall) as (t2 & E2 & Ha2 & Hs2). exists t2. cbn [for_each].
    rewrite (bind_run _ _ _ _ _ E1). split_and!; [done|done|]. by etrans.
Qed.

(** An open window for 0x31 with one byte queued earlier. *)
Definition waiting_session : session_state :=
  (mkTransport tt 0 0 true (mkAtomics false true x31 500 false 0 false)
     (mkReader idle_parser [byteEvent x99 false] None 0 idle_decoder false) (mkCounters 0 0 0 0 0 0 0 0 0 0),
   mkScript [] [] [] 7).

Definition foreign_traffic : list ENHMessage :=
  [received x10; received xaa; received x44; mkENHMessage ENHResStarted x10; received xaa].

Example pre_grant_silence_witness :
  exists t', for_each (fillMessage 1) foreign_traffic waiting_session = ((t', waiting_session.2), Some None) /\
    awaiting x31 (t', waiting_session.2) /\
    bytes_of (pendingEvents (rd t')) `sublist_of` bytes_of (pendingEvents (rd waiting_session.1)).
Proof. apply pre_grant_silence; [by split|reflexivity]. Defined.

(** ** The echo after the grant *)

Definition started (i : byte) : ENHMessage := mkENHMessage ENHResStarted i.

(** The window after the grant: idle decoder, SYNs suppressed, these events queued. *)
Record granted (evs : list StreamEvent) (s : session_state) : Prop := {
  gr_waiting : awaitingStart (at_ s.1) = false;
  gr_open : postGrantPreEcho (at_ s.1) = true;
  gr_future : clock s.2 < postGrantPreEchoDeadline (at_ s.1);
  gr_idle : escDecoder (rd s.1) = idle_decoder;
  gr_raw : rawSymbolItems (rd s.1) = false;
  gr_events : pendingEvents (rd s.1) = evs
}.

Lemma for_each_app {S A R} (body : A -> SM S (option R)) l k s :
  for_each body (l ++ k) s =
  match for_each body l s with
  | (s', Some None) => for_each body k s'
  | (s', Some (Some r)) => (s', Some (Some r))
  | (s', None) => (s', None)
  end.
Proof.
  revert s. induction l as [|a l IH]; intros s; [done|]. cbn [app for_each]. unfold mbind, sm_bind.
  destruct (body a s) as [s1 [[r|]|]]; [done|apply IH|done].
Qed.

(** Symbols heard while waiting leave only SYN markers. *)
Lemma waiting_symbols fuel i pre (s : session_state) :
  awaiting i s ->
  exists t' k, for_each (fillMessage fuel) (received <$> pre) s = ((t', s.2), Some None) /\ awaiting i (t', s.2) /\
    (k <= length pre)%nat /\ pendingEvents (rd t') = pendingEvents (rd s.1) ++ replicate k wireSynEvent.
Proof.
  revert s. induction pre as [|b pre IH]; intros s Ha.
  - exists s.1, 0%nat. simpl. rewrite app_nil_r. destruct s. by split_and!.
  - destruct (waiting_symbol s i b Ha) as (t1 & E1 & Ha1 & Hev1 & _).
    destruct (IH (t1, s.2) Ha1) as (t2 & k & E2 & Ha2 & Hk & Hev2). cbn [fst snd] in *.
    assert (fillMessage fuel (received b) s = ((t1, s.2), Some None)) as E.
    { unfold fillMessage, received. simpl. by rewrite (bind_run _ _ _ _ _ E1). }
    rewrite fmap_cons. cbn [for_each]. rewrite (bind_run _ _ _ _ _ E).
    destruct Hev1 as [Hev1|Hev1].
    + exists t2, k. rewrite Hev2, Hev1. split_and!; [done|done|simpl; lia|done].
    + exists t2, (S k). rewrite Hev2, Hev1, <- (assoc_L (++)). split_and!; [done|done|simpl; lia|done].
Qed.

Lemma grant_opens fuel i (s : session_state) :
  awaiting i s -> len (pendingEvents (rd s.1)) < maxPendingEvents ->
  exists t', fillMessage fuel (started i) s = ((t', s.2), Some None) /\
    granted (pendingEvents (rd s.1) ++ [controlEvent StreamEventStarted i]) (t', s.2).
Proof.
  intros [Ho Hm Hf Hr] Hlen. destruct s as [[cn rt wt sd [cl aw ini dl gr gd er] [p evs df rs dec rw] c] w]. simpl in *. subst.
  unfold fillMessage, started. simpl. unfold onStarted, get_at, gets, openPostGrantPreEchoWindow, Now, env,
    resetDecoder, reader, atomics, modify, appendControl, mbind, sm_bind. simpl.
  rewrite byte_eqb_refl. simpl. eexists. split; [reflexivity|]. split; simpl; try done.
  - unfold postGrantPreEchoTimeout. lia.
  - unfold appendControlEventLocked, pendingCapLocked. simpl. by rewrite (proj2 (Z.leb_gt _ _)) by done.
Qed.

Lemma grant_symbol evs (s : session_state) raw fuel :
  granted evs s -> raw <> SymbolEscape ->
  exists t', fillMessage fuel (received raw) s = ((t', s.2), Some None) /\
    if raw =b SymbolSyn then granted evs (t', s.2)
    else awaitingStart (at_ t') = false /\ postGrantPreEcho (at_ t') = false /\
         pendingEvents (rd t') = if len evs <? maxPendingEvents then evs ++ [byteEvent raw false] else evs.
Proof.
  intros [Haw Hop Hf Hd Hr Hev] Hraw.
  destruct s as [[cn rt wt sd [cl aw ini dl gr gd er] [p ev df rs dec rw] c] w]. simpl in *. subst.
  unfold fillMessage, received. simpl. unfold onReceived, receivedSteady, resetPendingEscapeBeforeEmissionLocked.
  unfold get_at, gets, atomics, modify, mbind, sm_bind. simpl.
  assert (exists s0, when er resetDecoder
    (mkTransport cn rt wt sd (set_escape_reset false (mkAtomics cl false ini dl true gd er))
       (mkReader p evs df rs idle_decoder false) c, w) = (s0, Some tt) /\
    s0 = (mkTransport cn rt wt sd (mkAtomics cl false ini dl true gd false)
       (mkReader p evs df rs idle_decoder false) c, w)) as (s0 & E0 & ->) by (destruct er; eexists; split; reflexivity).
  rewrite E0. clear E0.
  match goal with |- context [feedEscapeDecoderLocked raw ?s0] => destruct (feedEscape_run s0 raw) as [c' ->] end.
  simpl. unfold Escape.Feed, feedNormal. simpl. destruct (byte_eqb_spec raw xa9); [done|]. simpl.
  unfold passesGrantWindow, postGrantPreEchoExpired, closePostGrantPreEchoWindow, Now, env, get_at, gets, atomics,
    modify, mbind, sm_bind. simpl.
  assert (((gd =? 0) = true /\ w.(clock) < gd) \/ ((gd =? 0) = false /\ (gd <=? clock w) = false)) as [[E1 _]|[E1 E2]].
  { destruct (gd =? 0); [by left|right]. split; [done|]. by apply Z.leb_gt. }
  - rewrite E1. unfold ebusSymbolSyn, SymbolSyn. destruct (byte_eqb_spec raw xaa) as [->|Hne]; simpl.
    + eexists. split; [reflexivity|]. by split.
    + eexists. split; [reflexivity|]. split_and!; [done..|]. unfold queueObservedSymbolLocked, appendDecodedByteLocked.
      simpl. by case_match.
  - rewrite E1. simpl. rewrite E2. unfold ebusSymbolSyn, SymbolSyn. destruct (byte_eqb_spec raw xaa) as [->|Hne]; simpl.
    + eexists. split; [reflexivity|]. by split.
    + eexists. split; [reflexivity|]. split_and!; [done..|]. unfold queueObservedSymbolLocked, appendDecodedByteLocked.
      simpl. by case_match.
Qed.

Lemma grant_syns fuel n evs (s : session_state) :
  granted evs s -> exists t', for_each (fillMessage fuel) (received <$> replicate n SymbolSyn) s = ((t', s.2), Some None) /\
    granted evs (t', s.2).
Proof.
  revert s. induction n as [|n IH]; intros s Hg; [exists s.1; by destruct s|].
  destruct (grant_symbol evs s SymbolSyn fuel Hg) as (t1 & E1 & Hg1); [done|]. cbn match in Hg1.
  destruct (IH (t1, s.2) Hg1) as (t2 & E2 & Hg2). exists t2. cbn [replicate]. rewrite fmap_cons. cbn [for_each].
  by rewrite (bind_run _ _ _ _ _ E1).
Qed.

Lemma takeByte_skip k evs b e rest :
  Forall (fun ev => is_byte ev = false) k ->
  evs = k ++ byteEvent b e :: rest -> takeByte evs = (rest, Some (b, e)).
Proof.
  intros Hk ->. induction Hk as [|ev k Hev _ IH]; [done|]. simpl. unfold is_byte in Hev. by rewrite Hev.
Qed.

(** The first byte [ReadByte] finds after an asynchronous grant is the first
    symbol heard after it that is not an idle SYN, whatever traffic preceded the
    grant: the echo of the first written byte. *)
Theorem echo_is_first_byte fuel i pre n b (s : session_state) :
  awaiting i s -> pendingEvents (rd s.1) = [] -> len pre + 2 <= maxPendingEvents ->
  b <> SymbolSyn -> b <> SymbolEscape ->
  exists t', for_each (fillMessage fuel)
      ((received <$> pre) ++ started i :: (received <$> replicate n SymbolSyn ++ [b])) s = ((t', s.2), Some None) /\
    (takeByte (pendingEvents (rd t'))).2 = Some (b, false) /\
    awaitingStart (at_ t') = false /\ postGrantPreEcho (at_ t') = false.
Proof.
  intros Ha Hnil Hroom Hs He.
  destruct (waiting_symbols fuel i pre s Ha) as (t1 & k & E1 & Ha1 & Hk & Hev1). rewrite Hnil in Hev1. cbn [app] in Hev1.
  assert (len (pendingEvents (rd t1)) <= len pre) as Hlen1 by (rewrite Hev1; unfold len; rewrite length_replicate; lia).
  destruct (grant_opens fuel i (t1, s.2) Ha1) as (t2 & E2 & Hg2); [cbn [fst]; lia|]. cbn [fst snd] in *.
  destruct (grant_syns fuel n _ _ Hg2) as (t3 & E3 & Hg3). cbn [fst snd] in *.
  destruct (grant_symbol _ _ b fuel Hg3 He) as (t4 & E4 & H4). cbn [fst snd] in *.
  rewrite (proj2 (byte_eqb_neq b SymbolSyn) Hs) in H4. destruct H4 as (Haw & Hgr & Hev4).
  exists t4. split_and!; [|rewrite Hev4|done|done].
  - rewrite for_each_app, E1. cbn [for_each]. rewrite (bind_run _ _ _ _ _ E2), fmap_app, for_each_app, E3.
    cbn [for_each fmap list_fmap]. by rewrite (bind_run _ _ _ _ _ E4).
  - rewrite (proj2 (Z.ltb_lt _ _)) by (rewrite len_app; change (len [controlEvent StreamEventStarted i]) with 1; lia).
    rewrite Hev1. erewrite takeByte_skip; [reflexivity| |reflexivity].
    apply Forall_app. split; [by apply Forall_replicate|by repeat constructor].
Qed.

Definition awaiting_session : session_state :=
  (mkTransport tt 0 0 true (mkAtomics false true x31 500 false 0 false)
     (mkReader idle_parser [] None 0 idle_decoder false) (mkCounters 0 0 0 0 0 0 0 0 0 0),
   mkScript [] [] [] 7).

Example echo_is_first_byte_witness :
  exists t', for_each (fillMessage 1)
      ((received <$> [x10; xaa; xa9]) ++ started x31 :: (received <$> replicate 2 SymbolSyn ++ [x08])) awaiting_session
      = ((t', awaiting_session.2), Some None) /\
    (takeByte (pendingEvents (rd t'))).2 = Some (x08, false) /\
    awaitingStart (at_ t') = false /\ postGrantPreEcho (at_ t') = false.
Proof.
  apply echo_is_first_byte; [by split|reflexivity|vm_compute; discriminate|discriminate|discriminate].
Defined.

(** ** An adapter reset while waiting *)

Definition resetted (f : byte) : ENHMessage := mkENHMessage ENHResResetted f.

(** Without a dialer an adapter reset leaves the arbitration window open: what is
    heard after it is withheld from byte readers until the window's deadline,
    although the adapter has forgotten the request. *)
Theorem reset_keeps_arbitration_window fuel i f post (s : session_state) :
  awaiting i s ->
  exists t', for_each (fillMessage fuel) (resetted f :: (received <$> post)) s = ((t', s.2), Some None) /\
    awaiting i (t', s.2) /\ bytes_of (pendingEvents (rd t')) `sublist_of` bytes_of (pendingEvents (rd s.1)).
Proof.
  intros Ha.
  assert (exists t1, fillMessage fuel (resetted f) s = ((t1, s.2), Some None) /\ awaiting i (t1, s.2) /\
    bytes_of (pendingEvents (rd t1)) `sublist_of` bytes_of (pendingEvents (rd s.1))) as (t1 & E1 & Ha1 & Hb1).
  { destruct Ha as [Ho Hm Hf Hr]. unfold fillMessage, resetted. simpl. unfold onResetted. simpl.
    eexists. split; [reflexivity|]. split; [by split|].
    by apply (control_append_bytes (controlEvent StreamEventReset f) (set_decoder (Escape.Reset (escDecoder (rd s.1))) (rd s.1))). }
  destruct (waiting_symbols fuel i post (t1, s.2) Ha1) as (t2 & k & E2 & Ha2 & _ & Hev). cbn [fst snd] in *.
  exists t2. cbn [for_each]. rewrite (bind_run _ _ _ _ _ E1). split_and!; [done|done|].
  rewrite Hev. unfold bytes_of in *. rewrite filter_app.
  assert (filter (fun ev => is_byte ev = true) (replicate k wireSynEvent) = []) as ->.
  { clear. induction k; [done|]. simpl. by rewrite filter_cons_False by done. }
  by rewrite app_nil_r.
Qed.

Example reset_keeps_arbitration_window_witness :
  exists t', for_each (fillMessage 1) (resetted x01 :: (received <$> [x10; x44])) awaiting_session
      = ((t', awaiting_session.2), Some None) /\
    awaiting x31 (t', awaiting_session.2) /\
    bytes_of (pendingEvents (rd t')) `sublist_of` bytes_of (pendingEvents (rd awaiting_session.1)).
Proof. apply (reset_keeps_arbitration_window 1 x31 x01 [x10; x44]). by split. Defined.

(** ** Blocking arbitration *)

(** The adapter's answers that deny this arbitration. *)
Definition denies (m : ENHMessage) : bool :=
  (msgCommand m =b ENHResFailed) || (msgCommand m =b ENHResResetted) ||
  (msgCommand m =b ENHResErrorEBUS) || (msgCommand m =b ENHResErrorHost).
Definition grants (i : byte) (m : ENHMessage) : bool := (msgCommand m =b ENHResStarted) && (msgData m =b i).
Definition foreign_start (i : byte) (m : ENHMessage) : bool := (msgCommand m =b ENHResStarted) && negb (msgData m =b i).

Definition count_foreign (i : byte) (msgs : list ENHMessage) : Z := len (filter (fun m => foreign_start i m = true) msgs).

(** Whether the messages of one read end the arbitration, and whether they win
    it, given the foreign starts seen before. *)
Definition over (i : byte) (seen : Z) (msgs : list ENHMessage) : bool :=
  existsb (fun m => denies m || grants i m) msgs ||
  ((0 <? count_foreign i msgs) && (3 <=? seen + count_foreign i msgs)).
Definition lost (i : byte) (seen : Z) (msgs : list ENHMessage) : bool :=
  existsb denies msgs || ((0 <? count_foreign i msgs) && (3 <=? seen + count_foreign i msgs)).

(** What a state of the loop amounts to after some messages of a read. *)
Definition summarises (i : byte) (seen : Z) (msgs : list ENHMessage) (a : arbitration) : Prop :=
  mismatchCount a = seen + count_foreign i msgs /\ arbitrationDone a = over i seen msgs /\
  (arbitrationErr a = None <-> lost i seen msgs = false).

Lemma count_foreign_snoc i msgs m :
  count_foreign i (msgs ++ [m]) = count_foreign i msgs + (if foreign_start i m then 1 else 0).
Proof.
  unfold count_foreign. rewrite filter_app, len_app. f_equal. rewrite filter_cons. by destruct (foreign_start i m).
Qed.

Lemma count_foreign_nonneg i msgs : 0 <= count_foreign i msgs.
Proof. apply len_nonneg. Qed.

Lemma over_snoc i seen msgs m :
  0 <= seen ->
  over i seen (msgs ++ [m]) =
  over i seen msgs || denies m || grants i m || (foreign_start i m && (3 <=? seen + count_foreign i msgs + 1)).
Proof.
  intros Hs. unfold over. rewrite existsb_app, count_foreign_snoc. simpl. rewrite orb_false_r.
  pose proof (count_foreign_nonneg i msgs).
  destruct (foreign_start i m) eqn:Hf; simpl.
  - rewrite (proj2 (Z.ltb_lt 0 (count_foreign i msgs + 1))) by lia. simpl.
    destruct (Z.leb_spec 3 (seen + count_foreign i msgs)).
    + rewrite Z.add_assoc, (proj2 (Z.leb_le 3 _)) by lia. rewrite !orb_true_r. done.
    + rewrite andb_false_r, Z.add_assoc. rewrite !orb_false_r. by rewrite !orb_assoc.
  - rewrite Z.add_0_r, orb_false_r. destruct (existsb _ msgs), (_ && _), (denies m), (grants i m); done.
Qed.

Lemma lost_snoc i seen msgs m :
  0 <= seen ->
  lost i seen (msgs ++ [m]) =
  lost i seen msgs || denies m || (foreign_start i m && (3 <=? seen + count_foreign i msgs + 1)).
Proof.
  intros Hs. unfold lost. rewrite existsb_app, count_foreign_snoc. simpl. rewrite orb_false_r.
  pose proof (count_foreign_nonneg i msgs).
  destruct (foreign_start i m) eqn:Hf; simpl.
  - rewrite (proj2 (Z.ltb_lt 0 (count_foreign i msgs + 1))) by lia. simpl.
    destruct (Z.leb_spec 3 (seen + count_foreign i msgs)).
    + rewrite Z.add_assoc, (proj2 (Z.leb_le 3 _)) by lia. rewrite !orb_true_r. done.
    + rewrite andb_false_r, Z.add_assoc. rewrite !orb_false_r. done.
  - rewrite Z.add_0_r, orb_false_r. destruct (existsb _ msgs), (_ && _), (denies m); done.
Qed.

Section Verdict.
Context {W Conn : Type} `{NetEnv W Conn}.

Lemma arbitrationMessage_summary fuel i seen msgs a m (s s' : TS (W := W) (Conn := Conn)) r :
  0 <= seen -> summarises i seen msgs a ->
  arbitrationMessage fuel i a m s = (s', Some r) ->
  exists a', r = Ok a' /\ summarises i seen (msgs ++ [m]) a'.
Proof.
  intros Hs (Hm & Hd & He) E. unfold arbitrationMessage in E.
  assert (denies m = true -> forall e, summarises i seen (msgs ++ [m]) (decided (Some e) a)) as Hdeny.
  { intros Hden e. unfold summarises. rewrite over_snoc, lost_snoc, count_foreign_snoc, Hden by done. simpl.
    assert (foreign_start i m = false) as ->.
    { unfold foreign_start. unfold denies in Hden. destruct (byte_eqb_spec (msgCommand m) ENHResStarted) as [Ee|]; [|done].
      by rewrite Ee in Hden. }
    rewrite !orb_true_r. split; [by rewrite Z.add_0_r|]. done. }
  assert (denies m = false -> grants i m = false -> foreign_start i m = false -> summarises i seen (msgs ++ [m]) a) as Hskip.
  { intros H1 H2 H3. unfold summarises. rewrite over_snoc, lost_snoc, count_foreign_snoc, H1, H2, H3 by done. simpl.
    rewrite !orb_false_r, Z.add_0_r. done. }
  unfold denies, grants, foreign_start in Hdeny, Hskip. unfold ENHResReceived, ENHResResetted, ENHResStarted, ENHResFailed,
    ENHResErrorEBUS, ENHResErrorHost in *.
  destruct (byte_eqb_spec (msgCommand m) x01) as [Ec|].
  { apply bind_inv in E as (s1 & o & _ & [= <- <-]). exists a. split; [done|]. apply Hskip; by rewrite Ec. }
  destruct (byte_eqb_spec (msgCommand m) x00) as [Ec|].
  { apply bind_inv in E as (s1 & o & _ & [= <- <-]). eexists. split; [done|]. apply Hdeny. by rewrite Ec. }
  destruct (byte_eqb_spec (msgCommand m) x02) as [Ec|].
  { injection E as <- <-. eexists. split; [done|]. unfold summarises.
    rewrite over_snoc, lost_snoc, count_foreign_snoc by done.
    unfold denies, grants, foreign_start, ENHResStarted. rewrite Ec. simpl.
    destruct (msgData m =b i); simpl.
    - rewrite !orb_true_r, !orb_false_r, Z.add_0_r. done.
    - rewrite Hm. rewrite !orb_false_r. destruct (Z.leb_spec 3 (seen + count_foreign i msgs + 1)); simpl.
      + rewrite !orb_true_r. split; [lia|done].
      + rewrite !orb_false_r. split; [lia|done]. }
  repeat (match type of E with
    | context [?x =b ?y] => destruct (byte_eqb_spec x y) as [Ec|]
    end; [injection E as <- <-; eexists; split; [done|]; apply Hdeny; first [done|by rewrite Ec]|]).
  injection E as <- <-. exists a. split; [done|]. by apply Hskip.
Qed.

Lemma arbitration_fold fuel i seen msgs done_msgs a (s s' : TS (W := W) (Conn := Conn)) r :
  0 <= seen -> summarises i seen done_msgs a ->
  fold_each (arbitrationMessage fuel i) a msgs s = (s', Some r) ->
  exists a', r = Ok a' /\ summarises i seen (done_msgs ++ msgs) a'.
Proof.
  intros Hs. revert done_msgs a s. induction msgs as [|m msgs IH]; intros done_msgs a s Ha E; cbn [fold_each] in E.
  - injection E as <- <-. exists a. by rewrite app_nil_r.
  - apply bind_inv in E as (s1 & r1 & E1 & E2).
    destruct (arbitrationMessage_summary _ _ _ _ _ _ _ _ _ Hs Ha E1) as (a1 & -> & Ha1).
    destruct (IH _ _ _ Ha1 E2) as (a2 & -> & Ha2). exists a2. by rewrite <- (assoc_L (++)) in Ha2.
Qed.

Lemma summarises_start i seen : summarises i seen [] (mkArbitration seen false None).
Proof. unfold summarises, over, lost, count_foreign. simpl. by rewrite Z.add_0_r. Qed.

(** In every environment the messages of one read decide a blocking arbitration
    in the same way: it is over when they grant it, deny it or are the third
    start of other addresses, and it is won only if nothing among them denies it. *)
Theorem arbitration_verdict fuel i seen msgs (s s' : TS (W := W) (Conn := Conn)) r :
  0 <= seen ->
  fold_each (arbitrationMessage fuel i) (mkArbitration seen false None) msgs s = (s', Some r) ->
  exists a, r = Ok a /\ mismatchCount a = seen + count_foreign i msgs /\ arbitrationDone a = over i seen msgs /\
    (arbitrationErr a = None <-> lost i seen msgs = false).
Proof. intros Hs E. apply (arbitration_fold _ _ _ _ _ _ _ _ _ Hs (summarises_start i seen) E). Qed.
End Verdict.

(** A grant and a loss in one read: the loss wins. *)
Example arbitration_verdict_witness :
  exists a, (fold_each (arbitrationMessage 1 x31) (mkArbitration 0 false None)
      [started x31; mkENHMessage ENHResFailed x10] awaiting_session).2 = Some (Ok a) /\
    mismatchCount a = 0 + count_foreign x31 [started x31; mkENHMessage ENHResFailed x10] /\
    arbitrationDone a = over x31 0 [started x31; mkENHMessage ENHResFailed x10] /\
    (arbitrationErr a = None <-> lost x31 0 [started x31; mkENHMessage ENHResFailed x10] = false).
Proof.
  destruct (arbitration_verdict 1 x31 0 [started x31; mkENHMessage ENHResFailed x10] awaiting_session _ _ ltac:(lia) eq_refl)
    as (a & Ea & H). exists a. split; [by rewrite <- Ea|exact H].
Defined.

(** *** The whole call *)

(** Whether the script's reads win the arbitration for [i]. *)
Fixpoint wins (i : byte) (p : ENHParser) (seen : Z) (chunks : list (list byte * Z)) : bool :=
  match chunks with
  | [] => false
  | (data, _) :: rest =>
      let '(p', (msgs, err)) := Parse p data in
      if over i seen msgs then negb (lost i seen msgs)
      else match err with Some _ => false | None => wins i p' (seen + count_foreign i msgs) rest end
  end.

Lemma arbitrationMessage_script fuel i a m (s : session_state) :
  exists s' a', arbitrationMessage fuel i a m s = (s', Some (Ok a')) /\ incoming s'.2 = incoming s.2 /\
    outgoing s'.2 = outgoing s.2 /\ (denies m = false -> parser (rd s'.1) = parser (rd s.1)).
Proof.
  unfold arbitrationMessage, denies. destruct (msgCommand m =b ENHResReceived).
  { destruct (feedEscape_script s (msgData m)) as (t' & E & _ & _ & Hp & _).
    rewrite (bind_run _ _ _ _ _ E). eexists _, _. split; [reflexivity|]. cbn [fst snd]. by rewrite Hp. }
  destruct (msgCommand m =b ENHResResetted) eqn:Er.
  { unfold reconnectLocked, get_at, gets, mbind, sm_bind. destruct (closed (at_ s.1)); simpl.
    - eexists _, _. split; [reflexivity|]. by rewrite orb_true_r.
    - eexists _, _. split; [reflexivity|]. by rewrite orb_true_r. }
  repeat case_match; eexists _, _; (split; [reflexivity|]); done.
Qed.

Lemma arbitration_fold_script fuel i msgs a (s : session_state) :
  exists s' a', fold_each (arbitrationMessage fuel i) a msgs s = (s', Some (Ok a')) /\ incoming s'.2 = incoming s.2 /\
    outgoing s'.2 = outgoing s.2 /\ (existsb denies msgs = false -> parser (rd s'.1) = parser (rd s.1)).
Proof.
  revert a s. induction msgs as [|m msgs IH]; intros a s; cbn [fold_each]; [by exists s, a|].
  destruct (arbitrationMessage_script fuel i a m s) as (s1 & a1 & E1 & Hi1 & Ho1 & Hp1).
  rewrite (bind_run _ _ _ _ _ E1). destruct (IH a1 s1) as (s2 & a2 & E2 & Hi2 & Ho2 & Hp2).
  exists s2, a2. rewrite Hi2, Hi1, Ho2, Ho1. split_and!; [done..|]. cbn [existsb].
  intros [H1 H2]%orb_false_elim. by rewrite (Hp2 H2), (Hp1 H1).
Qed.

(** What an arbitration that was won leaves behind: nothing read before the
    grant, and the window that suppresses idle SYNs. *)
Record clean_grant (t : ENHTransport unit) : Prop := {
  cg_events : pendingEvents (rd t) = [];
  cg_deferred : deferredErr (rd t) = None;
  cg_parser : pending (parser (rd t)) = false;
  cg_decoder : escDecoder (rd t) = idle_decoder;
  cg_awaiting : awaitingStart (at_ t) = false;
  cg_window : postGrantPreEcho (at_ t) = true
}.

Lemma finish_grant (s : session_state) : exists t', finishArbitration None s = ((t', s.2), Some tt) /\ clean_grant t'.
Proof.
  unfold finishArbitration, openPostGrantPreEchoWindow, Now, env, resetENHParserLocked, resetDecoder, reader, atomics,
    counters, modify, mbind, sm_bind. simpl. eexists. split; [reflexivity|]. by split.
Qed.

Lemma finish_loss e (s : session_state) : exists t', finishArbitration (Some e) s = ((t', s.2), Some tt).
Proof. unfold finishArbitration. eexists. reflexivity. Qed.

Lemma lost_not_over i seen msgs : over i seen msgs = false -> existsb denies msgs = false.
Proof.
  unfold over. intros [H _]%orb_false_elim. induction msgs as [|m msgs IH]; [done|]. simpl in *.
  apply orb_false_elim in H as [[-> _]%orb_false_elim H]. by apply IH.
Qed.

Lemma arbitration_loop_script fuel i seen (s : session_state) :
  0 <= seen -> (length (incoming s.2) < fuel)%nat ->
  exists t' w' r, arbitration_loop fuel i seen s = ((t', w'), Some r) /\ outgoing w' = outgoing s.2 /\
    (r = None <-> wins i (parser (rd s.1)) seen (incoming s.2) = true) /\ (r = None -> clean_grant t').
Proof.
  revert seen s. induction fuel as [|fuel IH]; intros seen s Hseen Hf; [lia|]. cbn [arbitration_loop].
  rewrite (bind_run _ _ _ _ _ (setReadDeadline_script s)), (bind_run _ _ _ _ _ (connRead_script s)).
  unfold script_read. destruct (incoming s.2) as [|[data tm] rest] eqn:Ein; cbn [fst snd wins].
  - cbn [isTimeout when]. unfold abandonArbitration. eexists _, _, _. split; [reflexivity|]. done.
  - destruct data as [|b data].
    + cbn [Parse fst snd]. change (over i seen []) with false. cbn match. change (count_foreign i []) with 0. rewrite Z.add_0_r.
      apply (IH seen (s.1, mkScript rest (accepts s.2) (outgoing s.2) tm)); [done|simpl in *; lia].
    + destruct (parseObserved_run (s.1, mkScript rest (accepts s.2) (outgoing s.2) tm) (b :: data)) as (t1 & Ep & Hp1 & _).
      rewrite (bind_run _ _ _ _ _ Ep). cbn [fst snd] in *.
      destruct (Parse (parser (rd s.1)) (b :: data)) as [p' [msgs err]] eqn:Eparse. cbn [fst snd] in *.
      set (s1 := (t1, mkScript rest (accepts s.2) (outgoing s.2) tm) : session_state).
      destruct (arbitration_fold_script fuel i msgs (mkArbitration seen false None) s1) as (s2 & a & Ef & Hi2 & Ho2 & Hp2).
      rewrite (bind_run _ _ _ _ _ Ef).
      destruct (arbitration_fold _ _ _ _ _ _ _ _ _ Hseen (summarises_start i seen) Ef) as (a' & [= <-] & Hm & Hd & He).
      cbn [app] in *. rewrite Hd. destruct (over i seen msgs) eqn:Hover.
      * destruct (arbitrationErr a) as [e|].
        -- destruct (finish_loss e s2) as [t' E']. rewrite (bind_run _ _ _ _ _ E'). eexists _, _, _.
           split; [reflexivity|]. split; [done|]. split; [|done]. split; [done|].
           intros Hl%negb_true_iff. by apply He in Hl.
        -- destruct (finish_grant s2) as (t' & E' & Hc). rewrite (bind_run _ _ _ _ _ E'). eexists _, _, _.
           split; [reflexivity|]. split; [done|]. split; [|done]. split; [|done]. intros _. by rewrite (proj1 He eq_refl).
      * destruct err as [err|].
        -- unfold abandonArbitration. eexists _, _, _. split; [reflexivity|]. split; [done|]. split; [|done]. by split.
        -- rewrite Hm. destruct (IH (seen + count_foreign i msgs) s2) as (t' & w' & r & E & Ho & Hr & Hc).
           { pose proof (count_foreign_nonneg i msgs). lia. }
           { rewrite Hi2. simpl in *. lia. }
           exists t', w', r. split_and!; [done|by rewrite Ho, Ho2| |done].
           rewrite Hr, Hi2, (Hp2 (lost_not_over _ _ _ Hover)). cbn [s1 fst snd incoming]. by rewrite Hp1.
Qed.

(** C13: A blocking arbitration sends START and returns; it succeeds exactly when the
    reads win it, and then it leaves a clean slate with the echo window open. *)
Theorem StartArbitration_wins_iff fuel i (s : session_state) :
  closed (at_ s.1) = false -> accepts s.2 = [] -> (length (incoming s.2) < fuel)%nat ->
  exists t' w' r, StartArbitration fuel i s = ((t', w'), Some r) /\
    outgoing w' = outgoing s.2 ++ sendFrame ENHReqStart i /\
    (r = None <-> wins i (parser (rd s.1)) 0 (incoming s.2) = true) /\ (r = None -> clean_grant t').
Proof.
  intros Hc Ha Hf. unfold StartArbitration, get_at, gets. unfold mbind at 1, sm_bind at 1. rewrite Hc. unfold writeAll.
  destruct (write_turns_script (length (sendFrame ENHReqStart i)) 0 (sendFrame ENHReqStart i) s)
    as (w & k & err & E & _ & Hout & Hin & _ & Hok); [lia|].
  rewrite (bind_run _ _ _ _ _ E). destruct (Hok Ha) as [Hk ->]; [lia|]. cbn [Nat.add] in *. rewrite drop_0 in Hout.
  rewrite Hk, Nat.eqb_refl. rewrite take_ge in Hout by lia.
  destruct (arbitration_loop_script fuel i 0 (s.1, w)) as (t' & w' & r & E' & Ho & Hr & Hcl); [done|by cbn [snd]; rewrite Hin|].
  exists t', w', r. cbn [fst snd] in *. rewrite Hin in Hr. split_and!; [done|by rewrite Ho|done|done].
Qed.

(** Foreign traffic and a foreign start, then the grant in a second read. *)
Definition arbitration_session : session_state :=
  fresh 0 0 [([x10; xc8; x90], 3); ([xc6; xaa; xc8; xb1], 4)].

Example StartArbitration_wins_iff_witness :
  exists t' w' r, StartArbitration 3 x31 arbitration_session = ((t', w'), Some r) /\
    outgoing w' = outgoing arbitration_session.2 ++ sendFrame ENHReqStart x31 /\
    (r = None <-> wins x31 (parser (rd arbitration_session.1)) 0 (incoming arbitration_session.2) = true) /\
    (r = None -> clean_grant t').
Proof. apply StartArbitration_wins_iff; [reflexivity..|simpl; lia]. Defined.

Example arbitration_session_wins :
  wins x31 (parser (rd arbitration_session.1)) 0 (incoming arbitration_session.2) = true.
Proof. vm_compute. reflexivity. Qed.
