(* ===== verification/EnhTermination.v ===== *)
(** Every call on the enhanced transport returns as long as the network does not
    deliver data for ever: whatever is read, written, dialed or done by other
    goroutines, the loops need no more turns than the reads that deliver
    something, plus one. *)

From S2P Require Import Prelude Errors Enh Escape StateM EnhTransport EnhSession.
#[local] Open Scope Z_scope.

Section Termination.
Context {W Conn : Type} `{NetEnv W Conn}.

(** How many reads can still deliver something, and that no other call adds to it. *)
Context (reads_left : W -> nat).
Hypothesis read_consumes : forall c w w' data, conn_Read c w = (w', (data, None)) -> (reads_left w' < reads_left w)%nat.
Hypothesis read_fails : forall c w w' data e, conn_Read c w = (w', (data, Some e)) -> (reads_left w' <= reads_left w)%nat.
Hypothesis write_adds_none : forall c data w, (reads_left (conn_Write c data w).1 <= reads_left w)%nat.
Hypothesis rdeadline_adds_none : forall c d w, (reads_left (conn_SetReadDeadline c d w).1 <= reads_left w)%nat.
Hypothesis wdeadline_adds_none : forall c d w, (reads_left (conn_SetWriteDeadline c d w).1 <= reads_left w)%nat.
Hypothesis close_adds_none : forall c w, (reads_left (conn_Close c w).1 <= reads_left w)%nat.
Hypothesis dial_adds_none : forall dial w, dialFunc = Some dial -> (reads_left (dial w).1 <= reads_left w)%nat.
Hypothesis now_adds_none : forall w, (reads_left (time_Now w).1 <= reads_left w)%nat.
Hypothesis escapeNow_adds_none : forall w, (reads_left (escapeNow w).1 <= reads_left w)%nat.
Hypothesis others_add_none : forall w, (reads_left (others w).1 <= reads_left w)%nat.

(** [m] returns whenever at most [n] reads are left, and leaves no more. *)
Definition tot {A} (n : nat) (m : SM (TS (W := W) (Conn := Conn)) A) : Prop :=
  forall s, (reads_left s.2 <= n)%nat -> exists s' a, m s = (s', Some a) /\ (reads_left s'.2 <= n)%nat.

Lemma tot_ret {A} n (a : A) : tot n (mret a).
Proof. intros s Hs. by exists s, a. Qed.
Lemma tot_gets {A} n (f : TS -> A) : tot n (gets f).
Proof. intros s Hs. by exists s, (f s). Qed.
Lemma tot_bind {A B} n (m : SM TS A) (f : A -> SM TS B) : tot n m -> (forall a, tot n (f a)) -> tot n (m ≫= f).
Proof.
  intros Hm Hf s Hs. destruct (Hm s Hs) as (s1 & a & E & H1). rewrite (bind_run _ _ _ _ _ E). by apply Hf.
Qed.
Lemma tot_weaken {A} n k (m : SM TS A) : tot k m -> (k <= n)%nat ->
  forall s, (reads_left s.2 <= k)%nat -> exists s' a, m s = (s', Some a) /\ (reads_left s'.2 <= n)%nat.
Proof. intros Hm Hk s Hs. destruct (Hm s Hs) as (s' & a & E & Hle). exists s', a. split; [done|lia]. Qed.
Lemma tot_atomics n f : tot n (atomics f).
Proof. intros s Hs. by eexists _, _. Qed.
Lemma tot_reader n f : tot n (reader f).
Proof. intros s Hs. by eexists _, _. Qed.
Lemma tot_counters n f : tot n (counters f).
Proof. intros s Hs. by eexists _, _. Qed.
Lemma tot_set_conn n c : tot n (set_conn c).
Proof. intros s Hs. by eexists _, _. Qed.
Lemma tot_env {A} n (f : W -> W * A) : (forall w, (reads_left (f w).1 <= reads_left w)%nat) -> tot n (env f).
Proof.
  intros Hf s Hs. unfold env. specialize (Hf s.2). destruct (f s.2) as [w a]. eexists _, _. split; [reflexivity|].
  simpl in *. lia.
Qed.
Lemma tot_on_conn {A} n (f : Conn -> W -> W * A) :
  (forall c w, (reads_left (f c w).1 <= reads_left w)%nat) -> tot n (on_conn f).
Proof. intros Hf s. unfold on_conn. by apply tot_env. Qed.
Lemma tot_when n b (m : SM TS unit) : tot n m -> tot n (when b m).
Proof. destruct b; [done|intros; apply tot_ret]. Qed.
Lemma tot_for_each {A R} n (body : A -> SM TS (option R)) l : (forall a, tot n (body a)) -> tot n (for_each body l).
Proof.
  intros Hb. induction l as [|a l IH]; simpl; [apply tot_ret|].
  apply tot_bind; [apply Hb|]. intros [r|]; [apply tot_ret|apply IH].
Qed.
Lemma tot_fold_each {A B E} n (body : B -> A -> SM TS (result E B)) l b :
  (forall b a, tot n (body b a)) -> tot n (fold_each body b l).
Proof.
  intros Hb. revert b. induction l as [|a l IH]; intros b; simpl; [apply tot_ret|].
  apply tot_bind; [apply Hb|]. intros [b'|e]; [apply IH|apply tot_ret].
Qed.

Create HintDb tot.
Hint Resolve tot_ret tot_gets tot_atomics tot_reader tot_counters tot_set_conn : tot.
Hint Extern 1 (tot _ (env _)) => apply tot_env; solve [auto] : tot.
Hint Extern 1 (tot _ (on_conn _)) => apply tot_on_conn; solve [auto] : tot.

Ltac tot_step :=
  match goal with
  | |- tot _ (_ ≫= _) => apply tot_bind; [|intros ?]
  | |- tot _ (when _ _) => apply tot_when
  | |- tot _ (for_each _ _) => apply tot_for_each; intros ?
  | |- tot _ (fold_each _ _ _) => apply tot_fold_each; intros ? ?
  | |- tot _ (match dialFunc with _ => _ end) => case dialFunc; [intros ?|]
  | |- tot _ (match ?x with _ => _ end) => destruct x
  | |- tot _ _ => solve [auto with tot]
  end.
Ltac ktot := intros; unfold get_at, get_rd, Now; repeat tot_step.

Lemma tot_blocked n : tot n blocked.
Proof. unfold blocked. ktot. Qed.
Lemma tot_resetParser n : tot n resetENHParserLocked.
Proof. unfold resetENHParserLocked. ktot. Qed.
Lemma tot_resetDecoder n : tot n resetDecoder.
Proof. unfold resetDecoder. ktot. Qed.
Lemma tot_open n : tot n openPostGrantPreEchoWindow.
Proof. unfold openPostGrantPreEchoWindow. ktot. Qed.
Lemma tot_close n : tot n closePostGrantPreEchoWindow.
Proof. unfold closePostGrantPreEchoWindow. ktot. Qed.
Hint Resolve tot_blocked tot_resetParser tot_resetDecoder tot_open tot_close : tot.
Lemma tot_resetState n : tot n resetStateLocked.
Proof. unfold resetStateLocked. ktot. Qed.
Lemma tot_feed n raw : tot n (feedEscapeDecoderLocked raw).
Proof.
  unfold feedEscapeDecoderLocked, get_rd. apply tot_bind; [ktot|intros ?]. apply tot_bind; [ktot|intros t].
  apply tot_bind; [ktot|intros d]. destruct (Escape.Feed d raw t) as [? [? ?]]. ktot.
Qed.
Lemma tot_observed n sym ev : tot n (queueObserved sym ev).
Proof. unfold queueObserved. ktot. Qed.
Lemma tot_control n ev : tot n (appendControl ev).
Proof. unfold appendControl. ktot. Qed.
Lemma tot_setRead n : tot n setReadDeadline.
Proof. unfold setReadDeadline. ktot. Qed.
Lemma tot_setWrite n : tot n setWriteDeadline.
Proof. unfold setWriteDeadline. ktot. Qed.
Hint Resolve tot_resetState tot_feed tot_observed tot_control tot_setRead tot_setWrite : tot.
Lemma tot_write n data : tot n (connWrite data).
Proof. unfold connWrite. ktot. Qed.
Lemma tot_parse n data : tot n (parseObservedLocked data).
Proof.
  unfold parseObservedLocked. apply tot_bind; [ktot|intros p]. destruct (Parse p data) as [? [? ?]]. ktot.
Qed.
Hint Resolve tot_write tot_parse : tot.
Lemma tot_write_turns n fuel k data : tot n (write_turns fuel k data).
Proof. revert k. induction fuel as [|fuel IH]; intros k; simpl; ktot. Qed.
Hint Resolve tot_write_turns : tot.
Lemma tot_writeAll n data : tot n (writeAll data).
Proof. unfold writeAll. ktot. Qed.
Hint Resolve tot_writeAll : tot.
Lemma tot_initSend n f : tot n (initSendLocked f).
Proof. unfold initSendLocked. ktot. Qed.
Lemma tot_initUnconfirmed n : tot n initUnconfirmed.
Proof. unfold initUnconfirmed. ktot. Qed.
Lemma tot_initMessage n m : tot n (initMessage m).
Proof. unfold initMessage. ktot. Qed.
Lemma tot_initDeadline n z : tot n (initDeadline z).
Proof. unfold initDeadline. ktot. Qed.
Lemma tot_received n raw : tot n (onReceived raw).
Proof.
  unfold onReceived, receivedSteady, receivedBeforeGrant, resetPendingEscapeBeforeEmissionLocked, passesGrantWindow,
    postGrantPreEchoExpired, arbitrationWindowExpired. ktot.
Qed.
Lemma tot_started n d : tot n (onStarted d).
Proof. unfold onStarted. ktot. Qed.
Lemma tot_failed n d : tot n (onFailed d).
Proof. unfold onFailed. ktot. Qed.
Lemma tot_fillTimeout n : tot n fillTimeout.
Proof. unfold fillTimeout. ktot. Qed.
Lemma tot_parseError n msgs err : tot n (fillParseError msgs err).
Proof. unfold fillParseError. ktot. Qed.
Lemma tot_finish n err : tot n (finishArbitration err).
Proof. unfold finishArbitration. ktot. Qed.
Lemma tot_abandon n : tot n abandonArbitration.
Proof. unfold abandonArbitration. ktot. Qed.
Lemma tot_requestInfoFail n err : tot n (requestInfoFail err).
Proof. unfold requestInfoFail. ktot. Qed.
Lemma tot_surface n : tot n surfaceResetLocked.
Proof. unfold surfaceResetLocked. ktot. Qed.
Hint Resolve tot_initSend tot_initUnconfirmed tot_initMessage tot_initDeadline tot_received tot_started tot_failed
  tot_fillTimeout tot_parseError tot_finish tot_abandon tot_requestInfoFail tot_surface : tot.
Lemma tot_infoMessage n x m : tot n (infoMessage x m).
Proof. unfold infoMessage. ktot. Qed.
Lemma tot_infoFail {A} n err : tot n (infoFail (A := A) err).
Proof. unfold infoFail. ktot. Qed.
Hint Resolve tot_infoMessage tot_infoFail : tot.

(** A read either fails, or delivers something and leaves fewer reads. *)
Lemma tot_read {B} n (f : list byte * option net_error -> SM TS B) :
  (forall data e, tot n (f (data, Some e))) ->
  (forall k data s, (k < n)%nat -> (reads_left s.2 <= k)%nat ->
     exists s' b, f (data, None) s = (s', Some b) /\ (reads_left s'.2 <= n)%nat) ->
  tot n (connRead ≫= f).
Proof.
  intros Herr Hdata s Hs. unfold connRead, on_conn, env. unfold mbind at 1, sm_bind at 1. unfold mbind at 1, sm_bind at 1.
  destruct (conn_Read (conn s.1) s.2) as [w [data e]] eqn:E.
  assert (reads_left w <= reads_left s.2)%nat as Hle.
  { destruct e; [by eapply read_fails|]. apply read_consumes in E. lia. }
  destruct (tot_blocked (reads_left w) (s.1, w)) as (s1 & [] & Eb & Hb); [simpl; lia|].
  unfold mbind at 1, sm_bind at 1. rewrite Eb. cbn [mret sm_ret]. destruct e as [e|].
  - apply Herr. lia.
  - apply read_consumes in E. apply (Hdata (reads_left w)); lia.
Qed.

Lemma tot_initRecv_loop fuel n maxWait start : (n < fuel)%nat -> tot n (initRecv_loop fuel maxWait start).
Proof.
  revert n. induction fuel as [|fuel IH]; intros n Hn; [lia|]. cbn [initRecv_loop].
  apply tot_bind; [ktot|intros t]. destruct (_ <=? 0); [ktot|]. apply tot_bind; [ktot|intros [err|]]; [ktot|].
  apply tot_read; [ktot|]. intros k data s Hk Hs.
  assert (tot k (initRecv_loop fuel maxWait start)) as Hloop by (apply IH; lia).
  destruct data as [|b data]; [by apply (tot_weaken n k); [|lia|]|]. apply (tot_weaken n k); [|lia|done]. ktot.
Qed.
Lemma tot_initRecv fuel n : (n < fuel)%nat -> tot n (initRecvResultLocked fuel).
Proof. intros Hn. unfold initRecvResultLocked. apply tot_bind; [ktot|intros rt]. apply tot_bind; [ktot|intros st]. by apply tot_initRecv_loop. Qed.
Lemma tot_swap n c : tot n (swapAndSendInit c).
Proof. unfold swapAndSendInit. ktot. Qed.
Hint Resolve tot_swap tot_initRecv : tot.
Lemma tot_reconnect fuel n : (n < fuel)%nat -> tot n (reconnectLocked fuel).
Proof.
  intros Hn. unfold reconnectLocked. apply tot_bind; [ktot|intros [|]]; [ktot|].
  destruct dialFunc as [dial|] eqn:Ed; [|ktot]. apply tot_bind; [|ktot]. apply tot_env. auto.
Qed.
Hint Resolve tot_reconnect : tot.
Lemma tot_fillMessage fuel n m : (n < fuel)%nat -> tot n (fillMessage fuel m).
Proof. intros Hn. unfold fillMessage, onResetted. ktot. Qed.
Hint Resolve tot_fillMessage : tot.

Lemma tot_fillChunk fuel n data : (n < fuel)%nat -> tot n (fillChunk fuel data).
Proof. intros Hn. unfold fillChunk. ktot. Qed.

(** After a fill that returns nothing wrong, fewer reads are left. *)
Lemma fill_consumes fuel n s :
  (n <= fuel)%nat -> (reads_left s.2 <= n)%nat ->
  exists s' e, fillPendingLocked fuel s = (s', Some e) /\ (reads_left s'.2 <= n)%nat /\
    (e = None -> (reads_left s'.2 < n)%nat).
Proof.
  intros Hn Hs. unfold fillPendingLocked.
  destruct (tot_setRead n s Hs) as (s1 & [err|] & E1 & H1); rewrite (bind_run _ _ _ _ _ E1); [by eexists _, _|].
  unfold connRead, on_conn, env. unfold mbind at 1, sm_bind at 1. unfold mbind at 1, sm_bind at 1.
  destruct (conn_Read (conn s1.1) s1.2) as [w [data e]] eqn:E.
  assert (reads_left w <= reads_left s1.2)%nat as Hle.
  { destruct e; [by eapply read_fails|]. apply read_consumes in E. lia. }
  destruct (tot_blocked (reads_left w) (s1.1, w)) as (s2 & [] & Eb & Hb); [simpl; lia|].
  unfold mbind at 1, sm_bind at 1. rewrite Eb. cbn [mret sm_ret]. destruct e as [e|].
  - assert (tot n (when (isTimeout e) fillTimeout ≫= fun _ => mret (Some (mapReadError e)))) as Ht by ktot.
    assert (forall A B (m : SM (TS (W := W) (Conn := Conn)) A) (b : B) s s' r, (m ≫= fun _ => mret b) s = (s', Some r) -> r = b) as Hres.
    { intros A B m b s0 s' r Em. by apply bind_inv in Em as (? & ? & _ & [= _ <-]). }
    destruct (Ht s2) as (s3 & r & E3 & H3); [lia|]. apply Hres in E3 as Hr. exists s3, r. destruct data; by subst.
  - apply read_consumes in E. destruct data as [|b data].
    + eexists s2, None. split; [done|]. split; [lia|]. intros _. lia.
    + destruct (tot_fillChunk fuel (reads_left w) (b :: data) ltac:(lia) s2 Hb) as (s3 & r & E3 & H3).
      exists s3, r. split; [done|]. split; [lia|]. intros _. lia.
Qed.

Lemma tot_read_loop {A} fuel n (reset : result error A) take : (n < fuel)%nat -> tot n (read_loop fuel reset take).
Proof.
  revert n. induction fuel as [|fuel IH]; intros n Hn; [lia|]. cbn [read_loop].
  apply tot_bind; [ktot|intros r]. destruct (0 <? r); [ktot|]. apply tot_bind; [ktot|intros evs].
  apply tot_bind; [ktot|intros ?]. destruct (take evs).2; [ktot|]. apply tot_bind; [ktot|intros [d|]]; [ktot|].
  intros s Hs. destruct (fill_consumes fuel n s ltac:(lia) Hs) as (s1 & e & E & H1 & Hlt).
  rewrite (bind_run _ _ _ _ _ E). destruct e as [e|]; [by eexists _, _|].
  specialize (Hlt eq_refl). apply (tot_weaken n (reads_left s1.2)); [apply IH; lia|done|done].
Qed.

Lemma tot_arbitration_loop fuel n i k : (n < fuel)%nat -> tot n (arbitration_loop fuel i k).
Proof.
  revert n k. induction fuel as [|fuel IH]; intros n k Hn; [lia|]. cbn [arbitration_loop].
  apply tot_bind; [ktot|intros [err|]]; [ktot|]. apply tot_read; [ktot|]. intros j data s Hj Hs.
  assert (forall z, tot j (arbitration_loop fuel i z)) as Hloop by (intros; apply IH; lia).
  assert (j < fuel)%nat as Hfuel by lia.
  destruct data as [|b data]; [by apply (tot_weaken n j); [|lia|]|]. apply (tot_weaken n j); [|lia|done].
  unfold arbitrationMessage. ktot.
Qed.

Lemma tot_info_loop fuel n dl x : (n < fuel)%nat -> tot n (info_loop fuel dl x).
Proof.
  revert n x. induction fuel as [|fuel IH]; intros n x Hn; [lia|]. cbn [info_loop].
  apply tot_bind; [ktot|intros t]. destruct (_ <? _); [ktot|]. apply tot_bind; [ktot|intros [err|]]; [ktot|].
  apply tot_read; [ktot|]. intros j data s Hj Hs.
  assert (forall z, tot j (info_loop fuel dl z)) as Hloop by (intros; apply IH; lia).
  destruct data as [|b data]; [by apply (tot_weaken n j); [|lia|]|]. apply (tot_weaken n j); [|lia|done]. ktot.
Qed.

End Termination.

