(* ===== verification/EnhBus.v ===== *)
(** The bus over a session with the enhanced adapter: [ENHTransport] as an
    instance of [BusEnv], and a simulation that carries what is proved of the
    bus on a script of reads over to the session whose stream carries the same
    symbols.  A transaction then succeeds end to end, from the bytes of the
    connection to the bytes written to it. *)

From S2P Require Import Prelude Errors Wire Address.
From S2P Require Import Enh Escape StateM EnhTransport EnhSession EnhWire.
From S2P Require Import BusEnv Bus BusScript BusTrace BusPlain BusExamples.
#[local] Open Scope list_scope.

(** ** The instance *)

(** Enough fuel for one call: a turn more than the chunks to come. *)
Definition fuel_of (s : session_state) : nat := S (length (incoming s.2)).

(** A call of the session as a function of the environment; the default is not
    reached. *)
Definition call {A} (default : A) (m : nat -> SM session_state A) (s : session_state) : session_state * A :=
  match m (fuel_of s) s with
  | (s', Some a) => (s', a)
  | (s', None) => (s', default)
  end.

Definition session_env : BusEnv session_state := {|
  tr_ReadByte := call (Err (ESentinel STimeout)) ReadByte;
  tr_Write bs := call (0, None) (fun _ => Write bs);
  tr_ReadByteWithEscape := Some (call (Err (ESentinel STimeout)) ReadByteWithEscape);
  tr_SignalStructuralSyn := None;
  tr_StartArbitration := Some (fun i => call None (fun fuel => StartArbitration fuel i));
  tr_ArbitrationSendsSource := Some (fun s => ArbitrationSendsSource s.1);
  tr_Reconnect := Some (call None Reconnect);
  tr_CollisionLifecycle := None;
  on_bus_event := None;
  time_now s := clock s.2;
  select_wait _ _ _ s := (s, WakeTimer)
|}.

(** ** The simulation *)

Section Simulation.
(** The bus runs on the session and on the script with the contexts alive. *)
Context (sends_source : bool) (base : list byte).
Context (run2 req2 : context session_state) (run1 req1 : context BusScript.script).
Context (run2_alive : forall w, ctx_Err run2 w = None) (req2_alive : forall w, ctx_Err req2 w = None).
Context (run1_alive : forall w, ctx_Err run1 w = None) (req1_alive : forall w, ctx_Err req1 w = None).

Definition adapter_kind : kind := mkKind true true (Some sends_source) true false.

#[local] Instance env1 : BusEnv BusScript.script := script_env adapter_kind.
#[local] Instance env2 : BusEnv session_state := session_env.

(** The script ends with a read that the session may not follow. *)
Definition limit : read := Err (ESentinel STimeout).

(** The session's stream presents the symbols the script still holds, and what
    the session has written since [base] is the script's output, framed. *)
Record together (s : BusState * session_state) (c : BusState * BusScript.script) : Prop := {
  tg_state : s.1 = c.1;
  tg_stream : exists rem, presents s.2 rem /\ sc_reads c.2 = (Ok <$> rem) ++ [limit];
  tg_writes : sc_writes c.2 = [];
  tg_accepts : accepts s.2.2 = [];
  tg_outgoing : outgoing s.2.2 = base ++ encode_payload (sc_written c.2);
  tg_sends : arbitrationSendsSource s.2.1 = sends_source
}.

(** As long as the script is not read to its end, the session does the same. *)
Record sim {A} (m2 : M session_state A) (m1 : M BusScript.script A) : Prop := {
  sim_ended c : sc_reads c.2 = [] -> sc_reads (m1 c).1.2 = [];
  sim_step s c : together s c ->
    sc_reads (m1 c).1.2 = [] \/ exists s', m2 s = (s', (m1 c).2) /\ together s' (m1 c).1
}.

Lemma sim_ret {A} (a : A) : sim (ret a) (ret a).
Proof. split; [done|]. intros s c Ht. right. by exists s. Qed.

Lemma sim_bind {A B} (m2 : M session_state A) m1 (f2 : A -> M session_state B) f1 :
  sim m2 m1 -> (forall a, sim (f2 a) (f1 a)) -> sim (bind m2 f2) (bind m1 f1).
Proof.
  intros Hm Hf. assert (forall c, bind m1 f1 c = f1 (m1 c).2 (m1 c).1) as E1.
  { intros c. unfold bind. by destruct (m1 c). }
  split.
  - intros c Hc. rewrite E1. apply Hf, Hm, Hc.
  - intros s c Ht. rewrite E1. destruct (sim_step _ _ Hm s c Ht) as [He|(s' & E & Ht')].
    + left. apply Hf, He.
    + destruct (sim_step _ _ (Hf (m1 c).2) s' (m1 c).1 Ht') as [He|(s'' & E' & Ht'')]; [by left|right].
      exists s''. split; [|done]. unfold bind. by rewrite E.
Qed.

Lemma sim_try {A B} (m2 : M session_state (result error A)) m1 (f2 : A -> M session_state (result error B)) f1 :
  sim m2 m1 -> (forall a, sim (f2 a) (f1 a)) -> sim (try_bind m2 f2) (try_bind m1 f1).
Proof. intros Hm Hf. apply sim_bind; [done|]. intros [a|e]; [apply Hf|apply sim_ret]. Qed.

Lemma sim_modify f : sim (modify f) (modify f).
Proof.
  split; [done|]. intros s c [Hs Hr Hw Ha Ho Hd]. right. eexists. split; [reflexivity|].
  split; cbn [fst snd modify]; [by rewrite Hs|done..].
Qed.

(** A value read from the bus's own state. *)
Lemma sim_gets {A B} (g : BusState -> A) (f2 : A -> M session_state B) f1 :
  (forall a, sim (f2 a) (f1 a)) -> sim (bind (gets (fun s => g s.1)) f2) (bind (gets (fun s => g s.1)) f1).
Proof.
  intros Hf. split; [intros c Hc; by apply Hf|]. intros s c Ht.
  destruct (sim_step _ _ (Hf (g c.1)) s c Ht) as [He|(s' & E & Ht')]; [by left|right].
  exists s'. split; [|done]. unfold bind, gets. by rewrite (tg_state _ _ Ht).
Qed.

(** A value the two may disagree on. *)
Lemma sim_any {A B} (g2 : BusState * session_state -> A) (g1 : BusState * script -> A) (f2 : A -> M session_state B) f1 :
  (forall a2 a1, sim (f2 a2) (f1 a1)) -> sim (bind (gets g2) f2) (bind (gets g1) f1).
Proof.
  intros Hf. split; [intros c Hc; by apply (sim_ended _ _ (Hf (g1 c) (g1 c)))|]. intros s c Ht.
  destruct (sim_step _ _ (Hf (g2 s) (g1 c)) s c Ht) as [He|(s' & E & Ht')]; [by left|right]. by exists s'.
Qed.

(** *** The operations of the transport *)

Lemma sim_flagged : sim (lift (call (Err (ESentinel STimeout)) ReadByteWithEscape)) (lift sc_read).
Proof.
  split.
  - intros [b c] Hc. unfold lift, sc_read. cbn in *. by rewrite Hc.
  - intros [b s] [b' c] [Hs (rem & Hp & Hr) Hw Ha Ho Hd]. cbn [fst snd] in *. subst b'.
    unfold lift, sc_read. cbn [fst snd]. rewrite Hr. destruct rem as [|x rem]; cbn [fmap list_fmap app next]; [by left|right].
    destruct (read_presents (fuel_of s) s x rem Hp) as (s' & E & Hp' & _ & [Oa Oo Os]); [unfold fuel_of; lia|].
    unfold call. rewrite E. eexists. split; [reflexivity|]. split; cbn [fst snd sc_reads sc_writes sc_written]; try done; try congruence.
    by exists rem.
Qed.

Lemma sim_read : sim (lift tr_ReadByte) (lift tr_ReadByte).
Proof.
  split.
  - intros [b c] Hc. unfold lift. cbn. unfold sc_read_byte, sc_read. cbn in *. by rewrite Hc.
  - intros [b s] [b' c] [Hs (rem & Hp & Hr) Hw Ha Ho Hd]. cbn [fst snd] in *. subst b'.
    unfold lift. cbn [tr_ReadByte env1 env2 session_env script_env]. unfold sc_read_byte, sc_read. cbn [fst snd]. rewrite Hr.
    destruct rem as [|x rem]; cbn [fmap list_fmap app next]; [by left|right].
    destruct (read_presents (fuel_of s) s x rem Hp) as (s' & E & Hp' & _ & [Oa Oo Os]); [unfold fuel_of; lia|].
    unfold call, ReadByte. rewrite (bind_run _ _ _ _ _ E). destruct x as [v e]. eexists. split; [reflexivity|].
    split; cbn [fst snd sc_reads sc_writes sc_written]; try done; try congruence. by exists rem.
Qed.

Lemma encode_payload_snoc p b : encode_payload (p ++ [b]) = encode_payload p ++ encode_payload [b].
Proof. unfold encode_payload. by rewrite bind_app. Qed.

Lemma sim_write b : sim (lift (tr_Write [b])) (lift (tr_Write [b])).
Proof.
  split.
  - intros [b' c] Hc. unfold lift. cbn. unfold sc_write. by destruct (next _ _).
  - intros [b' s] [b'' c] [Hs (rem & Hp & Hr) Hw Ha Ho Hd]. cbn [fst snd] in *. subst b''. right.
    unfold lift. cbn [tr_Write env1 env2 session_env script_env]. unfold sc_write. cbn [fst snd]. rewrite Hw. cbn [next fst snd].
    destruct (Write_script [b] s) as (w & E & Hout & Hin & Hck & Hacc); [apply (q_closed _ (pr_quiet _ _ Hp))|done|done|].
    unfold call. rewrite E. eexists. split; [reflexivity|]. split; cbn [fst snd sc_reads sc_writes sc_written]; try done.
    + exists rem. split; [|done]. destruct Hp as [Hq Hc Hst]. split; cbn [fst snd]; [done|by rewrite Hin|by rewrite Hin].
    + by rewrite Hout, Ho, encode_payload_snoc, app_assoc.
Qed.
(** *** The methods of the bus *)

Lemma sim_checkContext : sim (checkContext run2 req2) (checkContext run1 req1).
Proof.
  unfold checkContext. assert (forall w, contextError run1 req1 w = (w, None)) as E1.
  { intros w. unfold contextError, gets. by rewrite run1_alive, req1_alive. }
  assert (forall w, contextError run2 req2 w = (w, None)) as E2.
  { intros w. unfold contextError, gets. by rewrite run2_alive, req2_alive. }
  split; unfold bind; [intros c Hc; by rewrite E1|]. intros s c Ht. right. exists s. by rewrite E1, E2.
Qed.

Lemma sim_emit ev : sim (emitObserverEvent ev) (emitObserverEvent ev).
Proof. apply (sim_ret tt). Qed.

Lemma sim_outcome f ty a e : sim (emitOutcomeEvent f ty a e) (emitOutcomeEvent f ty a e).
Proof. unfold emitOutcomeEvent. repeat case_match; first [apply sim_ret|apply sim_emit]. Qed.

Lemma sim_complete f resp ty a t2 t1 :
  sim (emitAttemptComplete f resp ty a t2) (emitAttemptComplete f resp ty a t1).
Proof. unfold emitAttemptComplete. apply sim_any. intros. apply (sim_ret tt). Qed.

Lemma sim_fail {A} (e : error) : sim (fail (A := A) e) (fail e).
Proof. apply sim_ret. Qed.

Lemma sim_ok {A} (a : A) : sim (ok a) (ok a).
Proof. apply sim_ret. Qed.

Create HintDb sim.
#[local] Hint Resolve sim_ret sim_ok sim_fail sim_modify sim_emit sim_outcome sim_complete sim_checkContext sim_read
  sim_flagged sim_write : sim.

(** Descend through binds and case analyses to the lemmas of the database. *)
Ltac sims := repeat first
  [ progress intros | solve [eauto 2 with sim]
  | apply sim_try | apply sim_gets | apply sim_bind | case_match | progress subst ].

Lemma sim_report {A} e : sim (report (A := A) e) (report e).
Proof. unfold report. sims. Qed.

Lemma sim_reportEcho {A} b esc e : sim (reportEcho (A := A) b esc e) (reportEcho b esc e).
Proof. unfold reportEcho, report. sims. Qed.
#[local] Hint Resolve sim_report sim_reportEcho : sim.

Lemma sim_readByte : sim (readByte run2 req2) (readByte run1 req1).
Proof. unfold readByte. sims. Qed.

Lemma sim_readByteWithEscape :
  sim (readByteWithEscape run2 req2 (call (Err (ESentinel STimeout)) ReadByteWithEscape)) (readByteWithEscape run1 req1 sc_read).
Proof. unfold readByteWithEscape. sims. Qed.
#[local] Hint Resolve sim_readByte sim_readByteWithEscape : sim.

Lemma sim_readSymbol d : sim (readSymbol true run2 req2 d) (readSymbol true run1 req1 d).
Proof. unfold readSymbol. sims. Qed.

Lemma sim_readEcho : sim (readEcho true run2 req2) (readEcho true run1 req1).
Proof. apply sim_readByteWithEscape. Qed.

Lemma sim_compareEcho raw first echo : sim (compareEcho raw first echo) (compareEcho raw first echo).
Proof. unfold compareEcho. sims. Qed.
#[local] Hint Resolve sim_readSymbol sim_readEcho sim_compareEcho : sim.

Lemma sim_absorb first n :
  sim (absorb run2 req2 (call (Err (ESentinel STimeout)) ReadByteWithEscape) first n) (absorb run1 req1 sc_read first n).
Proof. induction n as [|n IH]; cbn [absorb]; sims. Qed.
#[local] Hint Resolve sim_absorb : sim.

Lemma sim_checkEcho raw syn first echo :
  sim (checkEcho true run2 req2 raw syn first echo) (checkEcho true run1 req1 raw syn first echo).
Proof. destruct echo as [v e]. unfold checkEcho. cbn [negb andb tr_ReadByteWithEscape env1 env2 session_env script_env k_flagged adapter_kind]. sims. Qed.
#[local] Hint Resolve sim_checkEcho : sim.

Lemma sim_sendRaw raw syn first :
  sim (sendRawWithEcho true run2 req2 raw syn first) (sendRawWithEcho true run1 req1 raw syn first).
Proof. unfold sendRawWithEcho. cbn [tr_SignalStructuralSyn env1 env2 session_env script_env]. sims. Qed.
#[local] Hint Resolve sim_sendRaw : sim.

Lemma sim_sendSymbol b esc first :
  sim (sendSymbolWithEcho true run2 req2 b esc first) (sendSymbolWithEcho true run1 req1 b esc first).
Proof. apply sim_sendRaw. Qed.
#[local] Hint Resolve sim_sendSymbol : sim.

Lemma sim_sendEnd : sim (sendEndOfMessage true run2 req2) (sendEndOfMessage true run1 req1).
Proof. apply sim_sendSymbol. Qed.

Lemma sim_sendSymbols l first : sim (sendSymbols true run2 req2 l first) (sendSymbols true run1 req1 l first).
Proof. revert first. induction l as [|b l IH]; intros first; cbn [sendSymbols]; sims. Qed.
#[local] Hint Resolve sim_sendEnd sim_sendSymbols : sim.

Lemma sim_telegram l src : sim (sendInitiatorTelegram true run2 req2 l src) (sendInitiatorTelegram true run1 req1 l src).
Proof. apply sim_sendSymbols. Qed.

Lemma sim_failTransaction {A} f a e : sim (failTransaction (A := A) f a e) (failTransaction f a e).
Proof. unfold failTransaction. sims. Qed.
#[local] Hint Resolve sim_telegram sim_failTransaction : sim.

Lemma sim_commandLoop f a t2 t1 n src d :
  sim (commandLoop true run2 req2 f a t2 n src d) (commandLoop true run1 req1 f a t1 n src d).
Proof. revert src d. induction n as [|n IH]; intros src d; cbn [commandLoop]; sims. Qed.

Lemma sim_responseSymbol f a d ph :
  sim (responseSymbol true run2 req2 f a d ph) (responseSymbol true run1 req1 f a d ph).
Proof. unfold responseSymbol. sims. Qed.
#[local] Hint Resolve sim_commandLoop sim_responseSymbol : sim.

Lemma sim_responseData f a n d : sim (responseData true run2 req2 f a n d) (responseData true run1 req1 f a n d).
Proof. revert d. induction n as [|n IH]; intros d; cbn [responseData]; sims. Qed.
#[local] Hint Resolve sim_responseData : sim.

Lemma sim_responseLoop f a t2 t1 n d :
  sim (responseLoop true run2 req2 f a t2 n d) (responseLoop true run1 req1 f a t1 n d).
Proof. revert d. induction n as [|n IH]; intros d; cbn [responseLoop]; sims. Qed.
#[local] Hint Resolve sim_responseLoop : sim.

(** Whether the source is part of the telegram is the same on both sides. *)
Lemma sim_source {B} (f2 : bool -> M session_state B) f1 :
  (forall b, sim (f2 b) (f1 b)) -> sim (bind includeSource f2) (bind includeSource f1).
Proof.
  intros Hf. unfold includeSource.
  cbn [tr_StartArbitration tr_ArbitrationSendsSource env1 env2 session_env script_env k_arbitration k_sends_source adapter_kind].
  split; [intros c Hc; by apply (sim_ended _ _ (Hf (negb sends_source)))|]. intros s c Ht.
  destruct (sim_step _ _ (Hf (negb sends_source)) s c Ht) as [He|(s' & E & Ht')]; [by left|right].
  exists s'. split; [|done]. unfold bind, gets, ArbitrationSendsSource. by rewrite (tg_sends _ _ Ht).
Qed.

Lemma sim_sendTransaction f a : sim (sendTransaction true run2 req2 f a) (sendTransaction true run1 req1 f a).
Proof.
  unfold sendTransaction. case_match; [sims|]. case_match; [sims|]. apply sim_any. intros t2 t1.
  apply sim_source. intros src. sims.
Qed.
End Simulation.

(** ** Transactions over a session *)

Lemma transaction_session run req frame attempt resp used rest o b (s : session_state) :
  (forall w, ctx_Err run w = None) -> (forall w, ctx_Err req w = None) ->
  len (fData frame) <= 255 -> accepts s.2 = [] -> presents s (used ++ rest) ->
  transaction_trace true true frame (negb (arbitrationSendsSource s.1)) resp (Ok <$> used) o ->
  exists s', sendTransaction (H:=session_env) true run req frame attempt (b, s) = (s', Ok resp) /\
    presents s'.2 rest /\ outgoing s'.2.2 = outgoing s.2 ++ encode_payload o.
Proof.
  intros Hrun Hreq Hlen Ha Hp Ht. set (sends := arbitrationSendsSource s.1) in *.
  set (alive := mkContext (fun _ : script => None) false).
  set (c := (b, BusScript.mkScript ((Ok <$> (used ++ rest)) ++ [limit]) [] [] [] [] [] [] [] 0)).
  destruct (exec_transaction (adapter_kind sends) true alive alive (fun _ => eq_refl) (fun _ => eq_refl)
    frame attempt resp (Ok <$> used) o Hlen Ht c ((Ok <$> rest) ++ [limit])) as (c' & E & R & W & O).
  { cbn. by rewrite fmap_app, <- app_assoc. }
  { done. }
  assert (together sends (outgoing s.2) (b, s) c) as Htog.
  { split; cbn [fst snd c sc_reads sc_writes sc_written]; try done; [by exists (used ++ rest)|].
    by rewrite app_nil_r. }
  destruct (sim_step _ _ _ _ (sim_sendTransaction sends (outgoing s.2) run req alive alive Hrun Hreq
    (fun _ => eq_refl) (fun _ => eq_refl) frame attempt) _ _ Htog) as [He|(s' & E' & Ht')].
  - unfold env1 in He. unfold BusTrace.env in E. rewrite E in He. cbn [fst snd] in He. rewrite R in He. by destruct rest.
  - unfold env1, env2 in *. unfold BusTrace.env in E. rewrite E in E', Ht'. cbn [fst snd] in *. exists s'. split; [exact E'|].
    destruct Ht' as [_ (rem & Hrem & Hreads) _ _ Hout _]. rewrite R in Hreads. split.
    + apply app_inj_tail in Hreads as [Hreads _]. apply list_fmap_eq_inj in Hreads as <-; [done|]. by intros ? ? [= ->].
    + by rewrite Hout, O.
Qed.

(** C11: Claim: the transaction and the adapter session compose: when the
    session presents the symbols of a transaction exchange, [sendTransaction]
    over it returns what the exchange says, leaves exactly the rest of the stream
    unread, and puts on the connection the framed bytes of the exchange. *)
Theorem transaction_over_session run req frame attempt resp used rest o b (s : session_state) :
  (forall w, ctx_Err run w = None) -> (forall w, ctx_Err req w = None) ->
  len (fData frame) <= 255 -> accepts s.2 = [] -> presents s (used ++ rest) ->
  transaction_trace true true frame (negb (arbitrationSendsSource s.1)) resp (Ok <$> used) o ->
  exists s', sendTransaction (H:=session_env) true run req frame attempt (b, s) = (s', Ok resp) /\
    presents s'.2 rest /\ outgoing s'.2.2 = outgoing s.2 ++ encode_payload o.
Proof. apply transaction_session. Qed.

(** *** From bytes to bytes *)

(** What the bus line carries of an exchange, and the symbols it stands for. *)
Definition exchange_symbols (frame : Frame) (data : list byte) : list byte :=
  drop 1 (telegram_of frame) ++ [SymbolAck] ++ slave_segment data ++ [SymbolAck].
Definition exchange_wire (frame : Frame) (data : list byte) : list byte :=
  EscapeBytes (exchange_symbols frame data) ++ [SymbolSyn].

Lemma carries_all_app ss1 w1 ss2 w2 : carries_all ss1 w1 -> carries_all ss2 w2 -> carries_all (ss1 ++ ss2) (w1 ++ w2).
Proof. induction 1 as [|x w ss ws Hx _ IH]; intros H2; [done|]. rewrite <- !app_assoc. constructor; [done|]. by apply IH. Qed.

(** A stuffed payload and the SYN after it are presented as their symbols. *)
Lemma payload_presented rt wt payload stream chunks T :
  encodes_all (received <$> EscapeBytes payload ++ [SymbolSyn]) stream -> concat chunks.*1 = stream ->
  Forall (fun c => len c.1 <= maxPendingEvents) chunks ->
  0 < T -> Forall (fun c => T <= c.2 <= T + EscapePendingTimeout) chunks ->
  presents (fresh rt wt chunks) ((provenance <$> payload) ++ [(SymbolSyn, false)]).
Proof.
  intros Henc Hcat Hlen HT Htimes.
  pose proof (Parse_encodes_all _ _ [] Henc) as Hp. rewrite app_nil_r, <- Hcat in Hp. cbn in Hp. rewrite app_nil_r in Hp.
  destruct (timeline_chunks _ _ _ _ Hp) as (w & Hw & Hfst & Hin).
  assert (Forall (fun x => T <= x.2 <= T + EscapePendingTimeout) w) as Hwt.
  { eapply Forall_impl; [exact Hin|]. intros x Hx. cbn beta in Hx.
    apply list_elem_of_fmap in Hx as (c & -> & Hc). rewrite Forall_forall in Htimes. by apply Htimes. }
  apply fmap_app_inv in Hfst as (w1 & w2 & H1 & H2 & ->).
  apply Forall_app in Hwt as [Hw1 Hw2].
  destruct w2 as [|[x t] [|]]; [done| |done]. cbn in H2. injection H2 as <-.
  rewrite <- (carried_outputs _ _ (carries_all_app _ _ [(SymbolSyn, false)] [(SymbolSyn, t)]
    (carries_timed _ _ T HT (eq_sym H1) Hw1)
    (carries_all_cons (SymbolSyn, false) [(SymbolSyn, t)] [] [] (carries_plain SymbolSyn t ltac:(done)) carries_all_nil))).
  by apply fresh_presents.
Qed.


(** The adapter that sends every symbol as a pair. *)
Definition adapter_stream (symbols : list byte) : list byte := symbols ≫= sendFrame ENHResReceived.

Lemma adapter_stream_encodes symbols : encodes_all (received <$> symbols) (adapter_stream symbols).
Proof.
  induction symbols as [|b symbols IH]; [constructor|]. unfold adapter_stream. cbn [mbind list_bind fmap list_fmap].
  constructor; [|done]. unfold sendFrame, received. destruct (EncodeENH ENHResReceived b) as [b1 b2] eqn:E.
  by apply encodes_pair.
Qed.

(** The register read of [BusExamples], its stream cut inside a pair. *)
Definition register_stream : list byte := adapter_stream (exchange_wire read_register register_value).
Definition register_chunks : list (list byte * Z) := [(take 7 register_stream, 5); (drop 7 register_stream, 9)].
Definition session_alive : context session_state := mkContext (fun _ => None) false.

Lemma register_chunks_timed : Forall (fun c => 5 <= c.2 <= 5 + EscapePendingTimeout) register_chunks.
Proof. repeat constructor; vm_compute; discriminate. Qed.

Lemma register_chunks_short : Forall (fun c => len c.1 <= maxPendingEvents) register_chunks.
Proof. repeat constructor; vm_compute; discriminate. Qed.


(** The same exchange with an idle SYN left in the stream behind it. *)
Definition register_symbols : list (byte * bool) :=
  (provenance <$> exchange_symbols read_register register_value) ++ [(SymbolSyn, false)].

Lemma transaction_over_session_witness :
  exists s', sendTransaction (H:=session_env) true session_alive session_alive read_register 1 (zero_state, fresh 0 0 register_chunks)
      = (s', Ok (Some (response_frame read_register register_value))) /\
    presents s'.2 [] /\
    outgoing s'.2.2 = outgoing (fresh 0 0 register_chunks).2 ++ encode_payload (drop 1 (telegram_of read_register) ++ [SymbolAck; SymbolSyn]).
Proof.
  apply (transaction_over_session session_alive session_alive read_register 1
    (Some (response_frame read_register register_value)) register_symbols []).
  - reflexivity.
  - reflexivity.
  - vm_compute. discriminate.
  - reflexivity.
  - rewrite app_nil_r. apply (payload_presented 0 0 _ register_stream register_chunks 5);
      [apply adapter_stream_encodes|vm_compute; reflexivity|exact register_chunks_short|reflexivity|exact register_chunks_timed].
  - unfold register_symbols. rewrite fmap_app, <- list_fmap_compose. apply enh_exchange_trace; [reflexivity|vm_compute; discriminate].
Defined.
