(* ===== verification/Float.v ===== *)
(** Go's [float32] and [float64] as the IEEE 754 specification floats of the
    Standard Library, with the operations the value codecs use: conversions,
    comparisons, multiplication and division by constants, [math.Round],
    [math.Modf], and the bit patterns of [float32].  A NaN has no payload here;
    every codec rejects NaN before it looks at bits. *)

From S2P Require Import Prelude.
From Stdlib Require Import Floats.SpecFloat.
#[local] Open Scope Z_scope.

Notation float := spec_float.

#[export] Instance float_eq_dec : EqDecision float.
Proof. solve_decision. Defined.

(** ** Formats *)

Definition f64_mul (x y : float) : float := SFmul 53 1024 x y.
Definition f64_div (x y : float) : float := SFdiv 53 1024 x y.
Definition f64_sub (x y : float) : float := SFsub 53 1024 x y.
Definition float_ltb (x y : float) : bool := SFltb x y.
Definition float_eqb (x y : float) : bool := SFeqb x y.
Definition IsNaN (x : float) : bool := match x with S754_nan => true | _ => false end.
Definition IsInf (x : float) : bool := match x with S754_infinity _ => true | _ => false end.

(** The nearest [float64] of an integer. *)
Definition f64_of_Z (z : Z) : float := binary_normalize 53 1024 z 0 false.

(** [float64(x)] of a [float32] is exact; [float32(x)] rounds to nearest even. *)
Definition f64_of_f32 (x : float) : float :=
  match x with S754_finite s m e => binary_round 53 1024 s m e | _ => x end.
Definition f32_of_f64 (x : float) : float :=
  match x with S754_finite s m e => binary_round 24 128 s m e | _ => x end.

(** ** [math] functions *)

(** [math.Abs], [math.Round] (ties away from zero), and the integer part that
    [int64] and [math.Modf] take (towards zero). *)
Definition math_Abs (x : float) : float := SFabs x.

Definition math_Round (x : float) : float :=
  match x with
  | S754_finite s m e =>
      if 0 <=? e then x
      else
        let d := 2 ^ (- e) in
        match (2 * Zpos m + d) / (2 * d) with
        | Zpos n => binary_round 53 1024 s n 0
        | _ => S754_zero s
        end
  | _ => x
  end.

(** The truncated integer of a finite float; conversions of other values are
    implementation-defined in Go and are never reached. *)
Definition int_of_float (x : float) : Z :=
  match x with
  | S754_finite s m e =>
      let n := if 0 <=? e then Zpos m * 2 ^ e else Zpos m / 2 ^ (- e) in
      if s then - n else n
  | _ => 0
  end.

(** Whether [math.Modf] leaves a fractional part. *)
Definition has_fraction (x : float) : bool :=
  match x with
  | S754_finite _ m e => (e <? 0) && negb (Zpos m mod 2 ^ (- e) =? 0)
  | S754_nan | S754_infinity _ => true
  | S754_zero _ => false
  end.

(** ** The bits of a [float32] *)

(** [math.Float32frombits]. *)
Definition Float32frombits (raw : Z) : float :=
  let s := Z.testbit raw 31 in
  let e := Z.land (Z.shiftr raw 23) 255 in
  let m := Z.land raw (2 ^ 23 - 1) in
  if e =? 255 then (if m =? 0 then S754_infinity s else S754_nan)
  else if e =? 0 then
    match m with
    | Zpos p => S754_finite s p (-149)
    | _ => S754_zero s
    end
  else
    match m + 2 ^ 23 with
    | Zpos p => S754_finite s p (e - 150)
    | _ => S754_nan
    end.

(** [math.Float32bits]; a NaN gives the quiet one. *)
Definition Float32bits (x : float) : Z :=
  let sign (s : bool) := if s then 2 ^ 31 else 0 in
  match x with
  | S754_zero s => sign s
  | S754_infinity s => sign s + 255 * 2 ^ 23
  | S754_nan => 0x7FC00000
  | S754_finite s m e =>
      if Zpos m <? 2 ^ 23 then sign s + Zpos m else sign s + (e + 150) * 2 ^ 23 + (Zpos m - 2 ^ 23)
  end.

Lemma raw_split raw :
  0 <= raw < 2 ^ 32 ->
  raw = (if Z.testbit raw 31 then 2 ^ 31 else 0) + Z.land (Z.shiftr raw 23) 255 * 2 ^ 23 + Z.land raw (2 ^ 23 - 1) /\
  0 <= Z.land (Z.shiftr raw 23) 255 < 256 /\ 0 <= Z.land raw (2 ^ 23 - 1) < 2 ^ 23.
Proof.
  intros Hr. replace 255 with (Z.ones 8) by reflexivity. replace (2 ^ 23 - 1) with (Z.ones 23) by reflexivity.
  rewrite !Z.land_ones, Z.shiftr_div_pow2 by lia.
  assert ((if Z.testbit raw 31 then 2 ^ 31 else 0) = raw / 2 ^ 31 * 2 ^ 31) as ->.
  {
    assert (raw / 2 ^ 31 = 0 \/ raw / 2 ^ 31 = 1) as [E|E].
    { assert (0 <= raw / 2 ^ 31 < 2); [|lia]. split; [apply Z.div_pos; lia|apply Z.div_lt_upper_bound; lia]. }
    - destruct (Z.testbit raw 31) eqn:T; [|lia]. apply Z.testbit_true in T; [|lia]. rewrite E in T. done.
    - destruct (Z.testbit raw 31) eqn:T; [lia|]. apply Z.testbit_false in T; [|lia]. rewrite E in T. done. }
  pose proof (Z.mod_pos_bound (raw / 2 ^ 23) (2 ^ 8) ltac:(lia)). pose proof (Z.mod_pos_bound raw (2 ^ 23) ltac:(lia)).
  split; [|change (2 ^ 8) with 256 in *; lia].
  assert (raw / 2 ^ 31 = raw / 2 ^ 23 / 2 ^ 8) as ->.
  { rewrite Z.div_div by lia. f_equal. }
  pose proof (Z.div_mod raw (2 ^ 23) ltac:(lia)). pose proof (Z.div_mod (raw / 2 ^ 23) (2 ^ 8) ltac:(lia)). lia.
Qed.

(** The bits of a [float32] that is not a NaN determine it and back. *)
Lemma Float32bits_frombits raw :
  0 <= raw < 2 ^ 32 -> Float32frombits raw <> S754_nan -> Float32bits (Float32frombits raw) = raw.
Proof.
  intros Hr. pose proof (raw_split raw Hr) as (Heq & He & Hm). unfold Float32frombits.
  set (e := Z.land (Z.shiftr raw 23) 255) in *. set (m := Z.land raw (2 ^ 23 - 1)) in *.
  destruct (Z.eqb_spec e 255) as [Ee|Ee]; [|destruct (Z.eqb_spec e 0) as [Ez|Ez]].
  - destruct (Z.eqb_spec m 0) as [Em|]; [|done]. intros _. unfold Float32bits. rewrite Ee, Em in Heq. lia.
  - destruct m as [|p|p]; intros _; unfold Float32bits; [lia| |lia].
    rewrite (proj2 (Z.ltb_lt (Zpos p) (2 ^ 23))) by lia. rewrite Ez in Heq. lia.
  - destruct (m + 2 ^ 23) as [|p|p] eqn:Ep; [lia| |lia]. intros _. unfold Float32bits.
    rewrite (proj2 (Z.ltb_ge (Zpos p) (2 ^ 23))) by lia. lia.
Qed.

(** ** Rounding to a format gives a value of the format *)

Lemma digits_log2 p : Zpos (digits2_pos p) = Z.log2 (Zpos p) + 1.
Proof.
  induction p as [p IH|p IH|]; [..|done]; cbn [digits2_pos]; rewrite Pos2Z.inj_succ, IH.
  - rewrite Pos2Z.inj_xI, Z.log2_succ_double by lia. lia.
  - rewrite Pos2Z.inj_xO, Z.log2_double by lia. lia.
Qed.

Lemma Zdigits2_log2 m : 0 < m -> Zdigits2 m = Z.log2 m + 1.
Proof. destruct m as [|p|p]; [lia| |lia]. intros _. apply digits_log2. Qed.

Lemma shr_1_half r : 0 <= shr_m r -> shr_m (shr_1 r) = shr_m r / 2.
Proof.
  destruct r as [[|p|p] b c]; simpl; [done| |lia]. intros _. destruct p as [p|p|]; simpl; [|..|done].
  - rewrite Pos2Z.inj_xI. apply (Z.div_unique _ 2 (Zpos p) 1); lia.
  - rewrite Pos2Z.inj_xO. apply (Z.div_unique _ 2 (Zpos p) 0); lia.
Qed.

Lemma shr_iter n r : 0 <= shr_m r -> shr_m (iter_pos shr_1 n r) = shr_m r / 2 ^ Zpos n.
Proof.
  revert r. induction n as [n IH|n IH|]; intros r Hr; cbn [iter_pos]; [| |by apply shr_1_half];
    pose proof (Z.pow_pos_nonneg 2 (Zpos n) ltac:(lia) ltac:(lia)).
  - assert (0 <= shr_m r / 2) as H0 by (apply Z.div_pos; lia). pose proof (shr_1_half r Hr) as H1. rewrite <- H1 in H0.
    pose proof (IH (shr_1 r) H0) as H2. rewrite H1 in H2.
    rewrite IH by (rewrite H2; apply Z.div_pos; lia). rewrite H2, !Z.div_div by lia. f_equal.
    rewrite Pos2Z.inj_xI. replace (2 * Zpos n + 1) with (1 + Zpos n + Zpos n) by lia.
    rewrite !Z.pow_add_r by lia. change (2 ^ 1) with 2. ring.
  - pose proof (IH r Hr) as H2. rewrite IH by (rewrite H2; apply Z.div_pos; lia). rewrite H2, Z.div_div by lia. f_equal.
    rewrite Pos2Z.inj_xO, <- Z.pow_add_r by lia. f_equal. lia.
Qed.

Lemma shr_zero_m (r : shr_record) e k : k <= 0 -> shr r e k = (r, e).
Proof. destruct k; [done|lia|done]. Qed.

Lemma shr_pos_m (r : shr_record) e k : 0 < k -> 0 <= shr_m r ->
  shr_m (shr r e k).1 = shr_m r / 2 ^ k /\ (shr r e k).2 = e + k.
Proof. destruct k as [|p|p]; [lia| |lia]. intros _ Hr. simpl. by rewrite shr_iter. Qed.

(** The precision and the greatest exponent of a format. *)
Section Format.
Context (prec emax : Z) (Hprec : 1 < prec < emax).
#[local] Notation low := (3 - emax - prec).

(** A mantissa of at most [prec] bits, fully used unless the exponent is least. *)
Definition shape (m e : Z) : Prop := 0 <= m <= 2 ^ prec /\ low <= e /\ (2 ^ (prec - 1) <= m \/ e = low).

Lemma half_pow : 2 ^ prec = 2 * 2 ^ (prec - 1) /\ 0 < 2 ^ (prec - 1).
Proof.
  split; [rewrite <- Z.pow_succ_r by lia; f_equal; lia|apply Z.pow_pos_nonneg; lia].
Qed.

Lemma canonical m e : 0 < m < 2 ^ prec -> low <= e -> 2 ^ (prec - 1) <= m \/ e = low -> fexp prec emax (Zdigits2 m + e) = e.
Proof.
  intros Hm He Hor. rewrite Zdigits2_log2 by lia. unfold fexp, emin.
  assert (Z.log2 m < prec) by (apply Z.log2_lt_pow2; lia).
  destruct Hor as [H23| ->]; [|lia]. assert (prec - 1 <= Z.log2 m) by (apply Z.log2_le_pow2; lia). lia.
Qed.

(** The last normalisation and the overflow test. *)
Lemma round_finish s m e :
  shape m e ->
  let '(r, e2) := shr_fexp prec emax m e loc_Exact in
  valid_binary prec emax
    (match shr_m r with
     | Z0 => S754_zero s
     | Zpos p => if e2 <=? emax - prec then S754_finite s p e2 else S754_infinity s
     | Zneg _ => S754_nan
     end) = true.
Proof.
  intros (Hm & He & Hor). pose proof half_pow as [Hhalf Hhalfpos]. unfold shr_fexp. simpl shr_record_of_loc.
  assert (forall p e2, 0 < Zpos p < 2 ^ prec -> low <= e2 -> 2 ^ (prec - 1) <= Zpos p \/ e2 = low ->
    valid_binary prec emax (if e2 <=? emax - prec then S754_finite s p e2 else S754_infinity s) = true) as Hfin.
  { intros p e2 Hp He2 Hor2. destruct (Z.leb_spec e2 (emax - prec)); [|done]. simpl. unfold bounded, canonical_mantissa.
    pose proof (canonical (Zpos p) e2 Hp He2 Hor2) as Hc. simpl Zdigits2 in Hc. rewrite Hc, Z.eqb_refl.
    simpl. apply Z.leb_le. lia. }
  destruct (decide (m = 0)) as [->|Hm0].
  - destruct (Z.eq_dec (fexp prec emax (Zdigits2 0 + e) - e) 0) as [Hz|Hz].
    + rewrite Hz. done.
    + destruct (Z_lt_le_dec 0 (fexp prec emax (Zdigits2 0 + e) - e)) as [Hpos|Hneg].
      * pose proof (shr_pos_m {| shr_m := 0; shr_r := false; shr_s := false |} e _ Hpos ltac:(simpl; lia)) as [H1 _].
        destruct (shr _ _ _) as [r e2]. cbn [shr_m fst] in H1. rewrite Z.div_0_l in H1 by (apply Z.pow_nonzero; lia). by rewrite H1.
      * rewrite shr_zero_m by lia. done.
  - destruct (decide (m = 2 ^ prec)) as [->|Hm24].
    + assert (fexp prec emax (Zdigits2 (2 ^ prec) + e) - e = 1) as ->.
      { rewrite Zdigits2_log2, Z.log2_pow2 by lia. unfold fexp, emin. lia. }
      pose proof (shr_pos_m {| shr_m := 2 ^ prec; shr_r := false; shr_s := false |} e 1 ltac:(lia) ltac:(cbn; lia)) as [H1 H2].
      destruct (shr _ _ _) as [r e2]. cbn [fst snd shr_m] in H1, H2. change (2 ^ 1) with 2 in H1.
      rewrite (proj1 half_pow), Z.mul_comm, Z.div_mul in H1 by lia. rewrite H1, H2.
      destruct (2 ^ (prec - 1)) as [|p|p] eqn:Ep; [lia| |lia]. apply Hfin; lia.
    + rewrite canonical, Z.sub_diag by lia. cbn [shr shr_m]. destruct m as [|p|p]; [lia| |lia].
      apply Hfin; lia.
Qed.

Lemma binary_round_valid s m e : valid_binary prec emax (binary_round prec emax s m e) = true.
Proof.
  pose proof half_pow as [Hhalf Hhalfpos]. unfold binary_round.
  set (fe := fexp prec emax (Zpos (digits2_pos m) + e)).
  assert (exists mz ez, shl_align m e fe = (mz, ez) /\ ez <= fe /\
    fexp prec emax (Zdigits2 (Zpos mz) + ez) = fe) as (mz & ez & -> & Hle & Hfe).
  { unfold shl_align. destruct (fe - e) as [|d|d] eqn:Ed; [exists m, e; split_and!; [done|lia|done]..|].
    exists (Pos.iter xO m d), fe. split_and!; [done|lia|]. unfold fe at 2. f_equal.
    assert (forall d, Zpos (Pos.iter xO m d) = Zpos m * 2 ^ Zpos d) as Hit.
    { intros k. induction k as [|k IH] using Pos.peano_ind; [simpl; lia|].
      rewrite Pos.iter_succ, Pos2Z.inj_xO, IH, Pos2Z.inj_succ, Z.pow_succ_r by lia. lia. }
    rewrite !Zdigits2_log2, digits_log2, Hit by lia. rewrite Z.log2_mul_pow2 by lia. lia. }
  unfold binary_round_aux. clearbody fe.
  unfold shr_fexp at 1. rewrite Hfe. cbn [shr_record_of_loc].
  set (r0 := {| shr_m := Zpos mz; shr_r := false; shr_s := false |}).
  destruct (shr r0 ez (fe - ez)) as [r1 e1] eqn:Es.
  assert (e1 = fe /\ 0 <= shr_m r1 < 2 ^ prec /\ (2 ^ (prec - 1) <= shr_m r1 \/ fe = low) /\ low <= fe) as (-> & Hm1 & Hor & Hmin).
  { rewrite Zdigits2_log2 in Hfe by lia. unfold fexp, emin in Hfe.
    pose proof (Z.log2_spec (Zpos mz) ltac:(lia)) as [Hlo Hhi]. rewrite Z.pow_succ_r in Hhi by apply Z.log2_nonneg.
    pose proof (Z.log2_nonneg (Zpos mz)) as Hln. set (l := Z.log2 (Zpos mz)) in *.
    destruct (Z.eq_dec (fe - ez) 0) as [Hz|Hz].
    - rewrite Hz in Es. injection Es as <- <-. cbn [shr_m r0]. assert (Zpos mz < 2 ^ prec).
      { assert (2 * 2 ^ l <= 2 ^ prec); [|lia]. rewrite <- Z.pow_succ_r by lia. apply Z.pow_le_mono_r; lia. }
      split_and!; [lia|lia|lia| |lia]. destruct (Z_lt_le_dec l (prec - 1)) as [Hl|Hl]; [right; lia|left].
      assert (2 ^ (prec - 1) <= 2 ^ l) by (apply Z.pow_le_mono_r; lia). lia.
    - pose proof (shr_pos_m r0 ez (fe - ez) ltac:(lia) ltac:(cbn; lia)) as [H1 H2]. rewrite Es in H1, H2. cbn [fst snd shr_m r0] in H1, H2.
      set (k := fe - ez) in *. pose proof (Z.pow_pos_nonneg 2 k ltac:(lia) ltac:(lia)).
      split_and!; [lia|rewrite H1; apply Z.div_pos; lia| | |lia].
      + rewrite H1. apply Z.div_lt_upper_bound; [lia|]. rewrite <- Z.pow_add_r by lia.
        assert (2 * 2 ^ l <= 2 ^ (k + prec)); [|lia]. rewrite <- Z.pow_succ_r by lia. apply Z.pow_le_mono_r; lia.
      + destruct (Z.eq_dec fe (low)) as [->|Hne]; [by right|left]. rewrite H1. apply Z.div_le_lower_bound; [lia|].
        rewrite <- Z.pow_add_r by lia. assert (2 ^ (k + (prec - 1)) <= 2 ^ l) by (apply Z.pow_le_mono_r; lia). lia. }
  assert (shape (round_nearest_even (shr_m r1) (loc_of_shr_record r1)) fe) as Hshape.
  { unfold shape. assert (shr_m r1 <= round_nearest_even (shr_m r1) (loc_of_shr_record r1) <= shr_m r1 + 1); [|lia].
    unfold round_nearest_even. destruct (loc_of_shr_record r1) as [|[]]; try case_match; lia. }
  pose proof (round_finish s _ _ Hshape) as Hfin. destruct (shr_fexp prec emax _ fe loc_Exact) as [r2 e2].
  exact Hfin.
Qed.
End Format.

(** [float32(x)] is a [float32], and [float64(x)] a [float64]. *)
Lemma f32_of_f64_valid x : valid_binary 24 128 (f32_of_f64 x) = true.
Proof. destruct x; [done..|]. by apply binary_round_valid. Qed.

Lemma f64_of_f32_valid x : valid_binary 53 1024 (f64_of_f32 x) = true.
Proof. destruct x; [done..|]. by apply binary_round_valid. Qed.

Lemma f64_of_Z_valid z : valid_binary 53 1024 (f64_of_Z z) = true.
Proof. destruct z; [done|by apply binary_round_valid..]. Qed.

(** The fields of a bit pattern put together from its fields. *)
Lemma raw_fields (s : bool) ex m :
  0 <= ex < 256 -> 0 <= m < 2 ^ 23 ->
  let raw := (if s then 2 ^ 31 else 0) + ex * 2 ^ 23 + m in
  0 <= raw < 2 ^ 32 /\ Z.testbit raw 31 = s /\ Z.land (Z.shiftr raw 23) 255 = ex /\ Z.land raw (2 ^ 23 - 1) = m.
Proof.
  intros He Hm raw. set (sg := if s then 1 else 0). assert (0 <= sg <= 1) by (subst sg; destruct s; lia).
  assert (raw = (sg * 256 + ex) * 2 ^ 23 + m) as Eraw by (subst raw sg; destruct s; lia).
  assert (raw / 2 ^ 23 = sg * 256 + ex) as Ed.
  { rewrite Eraw, Z.div_add_l by lia. rewrite Z.div_small by lia. lia. }
  split; [rewrite Eraw; lia|]. split; [|split].
  - assert (Z.testbit raw 31 = Z.testbit (raw / 2 ^ 23) 8) as ->.
    { rewrite <- Z.shiftr_div_pow2, Z.shiftr_spec by lia. f_equal. }
    rewrite Ed. assert ((sg * 256 + ex) / 2 ^ 8 = sg) as E8.
    { change (2 ^ 8) with 256. rewrite Z.div_add_l by lia. rewrite Z.div_small by lia. lia. }
    subst sg. destruct s; [apply Z.testbit_true|apply Z.testbit_false]; try lia; by rewrite E8.
  - replace 255 with (Z.ones 8) by reflexivity. rewrite Z.land_ones, Z.shiftr_div_pow2, Ed by lia. change (2 ^ 8) with 256.
    rewrite Z.add_comm, Z.mod_add by lia. by apply Z.mod_small.
  - replace (2 ^ 23 - 1) with (Z.ones 23) by reflexivity. rewrite Z.land_ones, Eraw by lia.
    rewrite Z.add_comm, Z.mod_add by lia. by apply Z.mod_small.
Qed.

Lemma f32_bounds m e : bounded 24 128 m e = true ->
  (Zpos m < 2 ^ 23 /\ e = -149) \/ (2 ^ 23 <= Zpos m < 2 ^ 24 /\ -149 <= e <= 104).
Proof.
  unfold bounded, canonical_mantissa. intros [Hc%Z.eqb_eq Hb%Z.leb_le]%andb_prop.
  rewrite digits_log2 in Hc. unfold fexp, emin in Hc.
  pose proof (Z.log2_spec (Zpos m) ltac:(lia)) as [Hlo Hhi]. set (l := Z.log2 (Zpos m)) in *.
  pose proof (Z.log2_nonneg (Zpos m)). fold l in H.
  assert (Zpos m < 2 ^ 24).
  { assert (2 ^ Z.succ l <= 2 ^ 24) by (apply Z.pow_le_mono_r; lia). lia. }
  destruct (Z_lt_le_dec (Zpos m) (2 ^ 23)) as [Hlt|Hge]; [left|right; lia]. split; [done|].
  assert (l < 23) by (apply Z.log2_lt_pow2; lia). lia.
Qed.

(** [math.Float32frombits] inverts [math.Float32bits] on every [float32]. *)
Lemma Float32frombits_bits x : valid_binary 24 128 x = true -> Float32frombits (Float32bits x) = x.
Proof.
  destruct x as [s|s| |s m e]; [by destruct s|by destruct s|done|]. intros Hv.
  destruct (f32_bounds m e Hv) as [[Hm ->]|[Hm He]]; unfold Float32bits.
  - rewrite (proj2 (Z.ltb_lt _ _) Hm).
    destruct (raw_fields s 0 (Zpos m)) as (_ & E1 & E2 & E3); [lia|lia|].
    rewrite Z.mul_0_l, Z.add_0_r in E1, E2, E3. unfold Float32frombits. rewrite E1, E2, E3. done.
  - rewrite (proj2 (Z.ltb_ge _ _)) by lia.
    destruct (raw_fields s (e + 150) (Zpos m - 2 ^ 23)) as (_ & E1 & E2 & E3); [lia|lia|].
    unfold Float32frombits. rewrite E1, E2, E3.
    rewrite (proj2 (Z.eqb_neq _ _)) by lia. rewrite (proj2 (Z.eqb_neq _ _)) by lia.
    replace (Zpos m - 2 ^ 23 + 2 ^ 23) with (Zpos m) by lia. f_equal. lia.
Qed.

Lemma bounded_f32 m e : (Zpos m < 2 ^ 23 /\ e = -149) \/ (2 ^ 23 <= Zpos m < 2 ^ 24 /\ -149 <= e <= 104) ->
  bounded 24 128 m e = true.
Proof.
  intros H. pose proof (canonical 24 128 ltac:(lia) (Zpos m) e ltac:(lia) ltac:(lia) ltac:(lia)) as Hc. cbn [Zdigits2] in Hc.
  unfold bounded, canonical_mantissa. rewrite Hc, Z.eqb_refl. apply Z.leb_le. lia.
Qed.

Lemma Float32frombits_valid raw :
  0 <= raw < 2 ^ 32 -> Float32frombits raw <> S754_nan -> valid_binary 24 128 (Float32frombits raw) = true.
Proof.
  intros Hr. pose proof (raw_split raw Hr) as (_ & He & Hm). unfold Float32frombits.
  set (e := Z.land (Z.shiftr raw 23) 255) in *. set (m := Z.land raw (2 ^ 23 - 1)) in *.
  destruct (Z.eqb_spec e 255) as [Ee|Ee]; [by destruct (m =? 0)|destruct (Z.eqb_spec e 0) as [Ez|Ez]].
  - destruct m as [|p|p]; intros _; [done| |done]. cbn [valid_binary]. apply bounded_f32. lia.
  - destruct (m + 2 ^ 23) as [|p|p] eqn:Ep; intros Hn; [done| |done]. cbn [valid_binary]. apply bounded_f32. lia.
Qed.

Lemma Float32bits_range x : valid_binary 24 128 x = true -> 0 <= Float32bits x < 2 ^ 32.
Proof.
  destruct x as [s|s| |s m e]; [by destruct s|by destruct s|done|]. intros Hv.
  destruct (f32_bounds m e Hv) as [[Hm ->]|[Hm He]]; unfold Float32bits; case_match eqn:E.
  - destruct s; lia.
  - apply Z.ltb_ge in E. lia.
  - apply Z.ltb_lt in E. lia.
  - destruct s; lia.
Qed.

(** ** Exact arithmetic on small integers and powers of two *)

Lemma shr_iter_exact n q : 0 < q ->
  iter_pos shr_1 n {| shr_m := q * 2 ^ Zpos n; shr_r := false; shr_s := false |} =
  {| shr_m := q; shr_r := false; shr_s := false |}.
Proof.
  revert q. assert (forall q, 0 < q -> shr_1 {| shr_m := q * 2; shr_r := false; shr_s := false |} =
    {| shr_m := q; shr_r := false; shr_s := false |}) as Hone.
  { intros [|q|q] Hq; [lia| |lia]. rewrite <- Pos2Z.inj_mul, Pos.mul_comm. done. }
  induction n as [n IH|n IH|]; intros q Hq; cbn [iter_pos];
    [| |change (2 ^ 1) with 2; by apply Hone]; pose proof (Z.pow_pos_nonneg 2 (Zpos n) ltac:(lia) ltac:(lia)).
  - replace (q * 2 ^ Zpos n~1) with (q * 2 ^ Zpos n * 2 ^ Zpos n * 2).
    + rewrite Hone by lia. rewrite IH by lia. by apply IH.
    + rewrite Pos2Z.inj_xI. replace (2 * Zpos n + 1) with (Zpos n + Zpos n + 1) by lia.
      rewrite !Z.pow_add_r by lia. change (2 ^ 1) with 2. ring.
  - replace (q * 2 ^ Zpos n~0) with (q * 2 ^ Zpos n * 2 ^ Zpos n).
    + rewrite IH by lia. by apply IH.
    + rewrite (Pos2Z.inj_xO n), (Z.mul_comm 2), Z.pow_mul_r by lia. ring.
Qed.

(** Rounding a canonical mantissa followed by [n] zeros drops the zeros. *)
Lemma round_canonical s q n e m :
  fexp 53 1024 (Z.log2 (Zpos q) + 1 + (e + n)) = e + n -> 0 <= n -> e + n <= 971 -> Zpos m = Zpos q * 2 ^ n ->
  binary_round_aux 53 1024 s (Zpos m) e loc_Exact = S754_finite s q (e + n).
Proof.
  intros Hq Hn He ->. unfold binary_round_aux, shr_fexp. cbn [shr_record_of_loc].
  assert (fexp 53 1024 (Zdigits2 (Zpos q * 2 ^ n) + e) - e = n) as ->.
  { rewrite Zdigits2_log2 by lia. rewrite Z.log2_mul_pow2 by lia.
    replace (n + Z.log2 (Zpos q) + 1 + e) with (Z.log2 (Zpos q) + 1 + (e + n)) by lia. lia. }
  assert (shr {| shr_m := Zpos q * 2 ^ n; shr_r := false; shr_s := false |} e n =
    ({| shr_m := Zpos q; shr_r := false; shr_s := false |}, e + n)) as ->.
  { destruct n as [|p|p]; [|cbn [shr]; by rewrite shr_iter_exact|lia].
    cbn [shr]. by rewrite Z.pow_0_r, Z.mul_1_r, Z.add_0_r. }
  cbn [shr_m loc_of_shr_record round_nearest_even].
  assert (fexp 53 1024 (Zdigits2 (Zpos q) + (e + n)) - (e + n) = 0) as ->.
  { rewrite Zdigits2_log2 by lia. lia. }
  cbn [shr shr_m]. by rewrite (proj2 (Z.leb_le (e + n) (1024 - 53))) by lia.
Qed.

Lemma round_exact s q n e m :
  Z.log2 (Zpos q) = 52 -> 0 <= n -> -1074 <= e + n <= 971 -> Zpos m = Zpos q * 2 ^ n ->
  binary_round_aux 53 1024 s (Zpos m) e loc_Exact = S754_finite s q (e + n).
Proof. intros Hq Hn He. apply round_canonical; [|lia|lia]. rewrite Hq. unfold fexp, emin. lia. Qed.

(** The mantissa of a positive integer below 2^52 as a [float64]. *)
Definition mantissa64 (p : positive) : positive := Pos.iter xO p (Z.to_pos (52 - Z.log2 (Zpos p))).

Lemma iter_xO m d : Zpos (Pos.iter xO m d) = Zpos m * 2 ^ Zpos d.
Proof.
  induction d as [|k IH] using Pos.peano_ind; [simpl; lia|].
  rewrite Pos.iter_succ, Pos2Z.inj_xO, IH, Pos2Z.inj_succ, Z.pow_succ_r by lia. lia.
Qed.

Section Integers.
Context (p : positive) (Hp : Z.log2 (Zpos p) < 52).
#[local] Notation l := (Z.log2 (Zpos p)).

Lemma mantissa64_val : Zpos (mantissa64 p) = Zpos p * 2 ^ (52 - l).
Proof. unfold mantissa64. rewrite iter_xO, Z2Pos.id by lia. done. Qed.

Lemma mantissa64_log2 : Z.log2 (Zpos (mantissa64 p)) = 52.
Proof. rewrite mantissa64_val, Z.log2_mul_pow2 by lia. lia. Qed.

Lemma round64_int s : binary_round 53 1024 s p 0 = S754_finite s (mantissa64 p) (l - 52).
Proof.
  unfold binary_round. rewrite digits_log2.
  assert (fexp 53 1024 (l + 1 + 0) = l - 52) as ->.
  { unfold fexp, emin. pose proof (Z.log2_nonneg (Zpos p)). lia. }
  unfold shl_align. destruct (l - 52 - 0) as [|d|d] eqn:E; [lia|lia|].
  assert (Pos.iter xO p d = mantissa64 p) as ->.
  { unfold mantissa64. f_equal. lia. }
  rewrite <- (Z.add_0_r (l - 52)) at 2. apply round_exact; [apply mantissa64_log2|lia| |lia].
  pose proof (Z.log2_nonneg (Zpos p)). lia.
Qed.

(** Dividing by [2^j] only moves the exponent, and multiplying moves it back. *)
Lemma div_pow2 s j : 0 <= j <= 52 ->
  SFdiv 53 1024 (S754_finite s (mantissa64 p) (l - 52)) (S754_finite false 4503599627370496 (j - 52)) =
  S754_finite s (mantissa64 p) (l - 52 - j).
Proof.
  intros Hj. pose proof (Z.log2_nonneg (Zpos p)). cbn [SFdiv]. unfold SFdiv_core_binary.
  rewrite (Zdigits2_log2 (Zpos (mantissa64 p))), mantissa64_log2 by lia.
  change (Zdigits2 4503599627370496) with 53.
  assert (Z.min (fexp 53 1024 (52 + 1 + (l - 52) - (53 + (j - 52)))) (l - 52 - (j - 52)) = l - j - 53) as ->.
  { unfold fexp, emin. lia. }
  replace (l - 52 - (j - 52) - (l - j - 53)) with 53 by lia. cbn match.
  rewrite Z.shiftl_mul_pow2 by lia.
  assert (Z.div_eucl (Zpos (mantissa64 p) * 2 ^ 53) 4503599627370496 = (Zpos (mantissa64 p) * 2, 0)) as ->.
  { rewrite (surjective_pairing (Z.div_eucl _ _)). change (Z.div_eucl ?a ?b).1 with (a / b).
    change (Z.div_eucl ?a ?b).2 with (a mod b). change 4503599627370496 with (2 ^ 52).
    replace (Zpos (mantissa64 p) * 2 ^ 53) with (Zpos (mantissa64 p) * 2 * 2 ^ 52) by lia.
    by rewrite Z.div_mul, Z.mod_mul by done. }
  change (new_location 4503599627370496 0) with loc_Exact. rewrite xorb_false_r.
  change (Zpos (mantissa64 p) * 2) with (Zpos (mantissa64 p * 2)).
  rewrite (round_exact s (mantissa64 p) 1); [|apply mantissa64_log2|lia|lia|lia]. f_equal. lia.
Qed.

Lemma mul_pow2 s j : 0 <= j <= 52 ->
  SFmul 53 1024 (S754_finite s (mantissa64 p) (l - 52 - j)) (S754_finite false 4503599627370496 (j - 52)) =
  S754_finite s (mantissa64 p) (l - 52).
Proof.
  intros Hj. pose proof (Z.log2_nonneg (Zpos p)). cbn [SFmul]. rewrite xorb_false_r.
  rewrite (round_exact s (mantissa64 p) 52); [|apply mantissa64_log2|lia|lia|lia]. f_equal. lia.
Qed.

Lemma round_int s : math_Round (S754_finite s (mantissa64 p) (l - 52)) = S754_finite s (mantissa64 p) (l - 52).
Proof.
  unfold math_Round. rewrite (proj2 (Z.leb_gt 0 (l - 52))) by lia. rewrite mantissa64_val.
  replace (- (l - 52)) with (52 - l) by lia. set (d := 2 ^ (52 - l)).
  assert (0 < d) by (apply Z.pow_pos_nonneg; lia).
  assert ((2 * (Zpos p * d) + d) / (2 * d) = Zpos p) as ->; [|apply round64_int].
  symmetry. apply (Z.div_unique _ _ _ d); lia.
Qed.

Lemma int_of_int s : int_of_float (S754_finite s (mantissa64 p) (l - 52)) = if s then Zneg p else Zpos p.
Proof.
  unfold int_of_float. rewrite (proj2 (Z.leb_gt 0 (l - 52))) by lia. rewrite mantissa64_val.
  replace (- (l - 52)) with (52 - l) by lia. rewrite Z.div_mul by (apply Z.pow_nonzero; lia). by destruct s.
Qed.

Lemma sub_self s e : f64_sub (S754_finite s (mantissa64 p) e) (S754_finite s (mantissa64 p) e) = S754_zero false.
Proof.
  unfold f64_sub, SFsub. rewrite Z.min_id. unfold shl_align. rewrite Z.sub_diag. cbv beta iota zeta delta [fst].
  assert (forall z, z - z = 0) as Hs by lia. destruct s; cbn [cond_Zopp]; by rewrite ?Hs, ?Z.add_opp_diag_r, ?Z.add_opp_diag_l.
Qed.
End Integers.

(** A finite [float64] uses all 53 bits or has the least exponent. *)
Lemma f64_bounds m e : bounded 53 1024 m e = true ->
  (Z.log2 (Zpos m) = 52 /\ -1074 <= e <= 971) \/ (Z.log2 (Zpos m) < 52 /\ e = -1074).
Proof.
  unfold bounded, canonical_mantissa. intros [Hc%Z.eqb_eq Hb%Z.leb_le]%andb_prop.
  rewrite digits_log2 in Hc. unfold fexp, emin in Hc. lia.
Qed.

Lemma f64_two : f64_of_Z 2 = S754_finite false 4503599627370496 (-51).
Proof. reflexivity. Qed.

(** Doubling is exact below the greatest exponent. *)
Lemma double_exact s m e : bounded 53 1024 m e = true -> e <= 970 ->
  f64_mul (S754_finite s m e) (f64_of_Z 2) =
  if Z.log2 (Zpos m) =? 52 then S754_finite s m (e + 1) else S754_finite s (m~0)%positive e.
Proof.
  intros Hb He. rewrite f64_two. unfold f64_mul. cbn [SFmul]. rewrite xorb_false_r.
  destruct (f64_bounds m e Hb) as [[Hl Hr]|[Hl ->]].
  - rewrite Hl. cbn [Z.eqb Pos.eqb]. rewrite (round_exact s m 52) by (done || lia). f_equal. lia.
  - rewrite (proj2 (Z.eqb_neq _ _)) by lia. rewrite (round_canonical s (m~0)%positive 51); [done| |lia|lia|lia].
    rewrite (Pos2Z.inj_xO m), Z.log2_double by lia. unfold fexp, emin. lia.
Qed.

Lemma float_eqb_refl s m e : float_eqb (S754_finite s m e) (S754_finite s m e) = true.
Proof.
  unfold float_eqb, SFeqb, SFcompare. rewrite Z.compare_refl. change (Pcompare m m Eq) with (Pos.compare m m).
  rewrite Pos.compare_refl. by destruct s.
Qed.
