(* ===== verification/Values.v ===== *)
(** The data types of src/types: packed decimals, signed bytes, fixed-point and
    floating-point values, words and bit fields, and the decoding of a payload
    as a sequence of named fields.

    [any] is what a Go [any] can hold that the codecs look at.  A [DataType] is
    the interface as a record of operations; [Lawful] is what a client may rely
    on, proved for every type here and used by the structured decoder. *)

From S2P Require Import Prelude Errors Float.
From Stdlib Require Import Floats.SpecFloat.
#[local] Open Scope Z_scope.

(** ** Dynamic values *)

Inductive any :=
| VNil
| VInt (z : Z) | VInt8 (z : Z) | VInt16 (z : Z) | VInt32 (z : Z) | VInt64 (z : Z)
| VUint (z : Z) | VUint8 (z : Z) | VUint16 (z : Z) | VUint32 (z : Z) | VUint64 (z : Z)
| VFloat32 (f : float) | VFloat64 (f : float)
| VBools (l : list bool) | VBytes (l : list byte) | VInts (l : list Z) | VString (l : list byte)
| VOther.

#[export] Instance any_eq_dec : EqDecision any.
Proof. solve_decision. Defined.

#[export] Instance result_eq_dec {E A} `{EqDecision E} `{EqDecision A} : EqDecision (result E A).
Proof. solve_decision. Defined.

#[export] Instance error_eq_dec : EqDecision error.
Proof. solve_decision. Defined.

(** A value of the Go type its tag names. *)
Definition any_ok (v : any) : bool :=
  let fits lo hi z := (lo <=? z) && (z <=? hi) in
  match v with
  | VInt z | VInt64 z => fits (- 2 ^ 63) (2 ^ 63 - 1) z
  | VInt8 z => fits (-128) 127 z
  | VInt16 z => fits (-32768) 32767 z
  | VInt32 z => fits (- 2 ^ 31) (2 ^ 31 - 1) z
  | VUint z | VUint64 z => fits 0 (2 ^ 64 - 1) z
  | VUint8 z => fits 0 255 z
  | VUint16 z => fits 0 65535 z
  | VUint32 z => fits 0 (2 ^ 32 - 1) z
  | VFloat32 f => valid_binary 24 128 f
  | VFloat64 f => valid_binary 53 1024 f
  | _ => true
  end.

Definition maxInt64AsUint : Z := 2 ^ 63 - 1.

Definition toInt64 (value : any) : option Z :=
  match value with
  | VInt v | VInt8 v | VInt16 v | VInt32 v | VInt64 v => Some v
  | VUint v | VUint64 v => if maxInt64AsUint <? v then None else Some v
  | VUint8 v | VUint16 v | VUint32 v => Some v
  | _ => None
  end.

Definition toFloat64 (value : any) : option float :=
  match value with
  | VFloat32 v => Some (f64_of_f32 v)
  | VFloat64 v => Some v
  | VInt v | VInt8 v | VInt16 v | VInt32 v | VInt64 v
  | VUint v | VUint8 v | VUint16 v | VUint32 v | VUint64 v => Some (f64_of_Z v)
  | _ => None
  end.

(** ** The interface *)

Record Value := mkValue { vValue : any; vValid : bool }.
#[export] Instance Value_eq_dec : EqDecision Value.
Proof. solve_decision. Defined.

Definition invalid : Value := mkValue VNil false.
Definition invalidPayload : error := ESentinel SInvalidPayload.

Record DataType := mkDataType {
  Size : Z;
  ReplacementValue : list byte;
  Decode : list byte -> result error Value;
  Encode : any -> result error (list byte)
}.

Definition le16 (p : list byte) : Z :=
  match p with b0 :: b1 :: _ => u8 b0 + u8 b1 * 256 | _ => 0 end.
Definition le32 (p : list byte) : Z :=
  match p with b0 :: b1 :: b2 :: b3 :: _ => u8 b0 + u8 b1 * 256 + u8 b2 * 65536 + u8 b3 * 16777216 | _ => 0 end.
Definition put16 (u : Z) : list byte := [b8 u; b8 (Z.shiftr u 8)].
Definition put32 (u : Z) : list byte := [b8 u; b8 (Z.shiftr u 8); b8 (Z.shiftr u 16); b8 (Z.shiftr u 24)].

(** ** BCD *)

Definition BCD_Decode (payload : list byte) : result error Value :=
  match payload with
  | [] => Err invalidPayload
  | raw :: _ =>
      if raw =b xff then Ok invalid
      else
        let tens := bshr raw 4 in
        let ones := band raw x0f in
        if (9 <? u8 tens) || (9 <? u8 ones) then Err invalidPayload
        else Ok (mkValue (VUint8 (wrap 8 (u8 tens * 10 + u8 ones))) true)
  end.

Definition BCD_Encode (value : any) : result error (list byte) :=
  match toInt64 value with
  | None => Err invalidPayload
  | Some i =>
      if (i <? 0) || (99 <? i) then Err invalidPayload
      else Ok [bor (bshl (b8 (Z.quot i 10)) 4) (b8 (Z.rem i 10))]
  end.

Definition BCD : DataType := mkDataType 1 [xff] BCD_Decode BCD_Encode.

(** ** DATA1b *)

Definition DATA1b_Decode (payload : list byte) : result error Value :=
  match payload with
  | [] => Err invalidPayload
  | b :: _ => if b =b x80 then Ok invalid else Ok (mkValue (VInt8 (swrap 8 (u8 b))) true)
  end.

Definition DATA1b_Encode (value : any) : result error (list byte) :=
  match toInt64 value with
  | None => Err invalidPayload
  | Some i =>
      if (i <? -127) || (127 <? i) then Err invalidPayload
      else if i =? -128 then Err invalidPayload
      else Ok [b8 (swrap 8 i)]
  end.

Definition DATA1b : DataType := mkDataType 1 [x80] DATA1b_Decode DATA1b_Encode.

(** ** DATA2b and DATA2c, which differ in their divisor only *)

Section Data2.
Context (divisor : Z).

Definition data2Divisor : float := f64_of_Z divisor.
Definition data2Epsilon : float := f64_div (f64_of_Z 1) (f64_of_Z 1000000000).
Definition data2MinInt : Z := -32767.
Definition data2MaxInt : Z := 32767.
Definition data2Min : float := f64_div (f64_of_Z data2MinInt) data2Divisor.
Definition data2Max : float := f64_div (f64_of_Z data2MaxInt) data2Divisor.

Definition data2_Decode (payload : list byte) : result error Value :=
  if len payload <? 2 then Err invalidPayload
  else
    let raw := le16 payload in
    if raw =? 0x8000 then Ok invalid
    else Ok (mkValue (VFloat64 (f64_div (f64_of_Z (swrap 16 raw)) data2Divisor)) true).

Definition data2_Encode (value : any) : result error (list byte) :=
  match toFloat64 value with
  | None => Err invalidPayload
  | Some f =>
      if IsNaN f || IsInf f then Err invalidPayload
      else if float_ltb f data2Min || float_ltb data2Max f then Err invalidPayload
      else
        let scaled := f64_mul f data2Divisor in
        let rounded := math_Round scaled in
        if float_ltb data2Epsilon (math_Abs (f64_sub scaled rounded)) then Err invalidPayload
        else
          let intValue := int_of_float rounded in
          if (intValue <? data2MinInt) || (data2MaxInt <? intValue) then Err invalidPayload
          else if intValue =? -32768 then Err invalidPayload
          else Ok (put16 (wrap 16 (swrap 16 intValue)))
  end.

Definition data2 : DataType := mkDataType 2 [x00; x80] data2_Decode data2_Encode.
End Data2.

Definition DATA2b : DataType := data2 256.
Definition DATA2c : DataType := data2 16.

(** ** EXP *)

Definition EXP_Decode (payload : list byte) : result error Value :=
  if len payload <? 4 then Err invalidPayload
  else
    let raw := le32 payload in
    if raw =? 0x7FC00000 then Ok invalid
    else
      let value := Float32frombits raw in
      if IsNaN (f64_of_f32 value) || IsInf (f64_of_f32 value) then Ok invalid
      else Ok (mkValue (VFloat32 value) true).

(** The [switch] on the dynamic type: the [float32] to store. *)
Definition EXP_float32 (value : any) : option float :=
  match value with
  | VFloat32 v => if IsNaN (f64_of_f32 v) || IsInf (f64_of_f32 v) then None else Some v
  | VFloat64 v =>
      if IsNaN v || IsInf v then None
      else
        let f32 := f32_of_f64 v in
        if IsInf (f64_of_f32 f32) then None else Some f32
  | _ => None
  end.

Definition EXP_Encode (value : any) : result error (list byte) :=
  match EXP_float32 value with
  | None => Err invalidPayload
  | Some f32 =>
      if IsNaN (f64_of_f32 f32) || IsInf (f64_of_f32 f32) then Err invalidPayload
      else
        let raw := Float32bits f32 in
        if raw =? 0x7FC00000 then Err invalidPayload else Ok (put32 raw)
  end.

Definition EXP : DataType := mkDataType 4 [x00; x00; xc0; x7f] EXP_Decode EXP_Encode.

(** ** WORD *)

Definition WORD_Decode (payload : list byte) : result error Value :=
  if len payload <? 2 then Err invalidPayload
  else
    let raw := le16 payload in
    if raw =? 0xFFFF then Ok invalid else Ok (mkValue (VUint16 raw) true).

Definition WORD_Encode (value : any) : result error (list byte) :=
  match toInt64 value with
  | None => Err invalidPayload
  | Some i => if (i <? 0) || (65534 <? i) then Err invalidPayload else Ok (put16 (wrap 16 i))
  end.

Definition WORD : DataType := mkDataType 2 [xff; xff] WORD_Decode WORD_Encode.

(** ** BITFIELD *)

Definition bitfieldIsReplacement (data : list byte) : bool :=
  negb (bool_decide (data = [])) && forallb (Byte.eqb xff) data.

Definition bits_of_byte (b : byte) : list bool := Z.testbit (u8 b) <$> seqZ 0 8.

Definition BITFIELD_Decode (sizeBytes : Z) (payload : list byte) : result error Value :=
  if (sizeBytes <=? 0) || (len payload <? sizeBytes) then Err invalidPayload
  else
    let segment := slice_to sizeBytes payload in
    if bitfieldIsReplacement segment then Ok invalid
    else Ok (mkValue (VBools (segment ≫= bits_of_byte)) true).

(** The loop over the flags: flag [i] sets bit [i%8] of byte [i/8]. *)
Fixpoint set_flags (i : nat) (flags : list bool) (out : list byte) : list byte :=
  match flags with
  | [] => out
  | flag :: flags' =>
      set_flags (S i) flags'
        (if flag : bool then alter (fun b => bor b (b8 (2 ^ Z.of_nat (i mod 8)))) (i / 8)%nat out else out)
  end.

Definition encodeFromUint64 (sizeBytes : Z) (value : Z) : result error (list byte) :=
  if sizeBytes <=? 0 then Err invalidPayload
  else if 8 <? sizeBytes then Err invalidPayload
  else
    let bitCount := sizeBytes * 8 in
    if (bitCount <? 64) && (2 ^ bitCount - 1 <? value) then Err invalidPayload
    else
      let out := (fun i => b8 (Z.shiftr value (8 * i))) <$> seqZ 0 sizeBytes in
      if bitfieldIsReplacement out then Err invalidPayload else Ok out.

Definition BITFIELD_Encode (sizeBytes : Z) (value : any) : result error (list byte) :=
  if sizeBytes <=? 0 then Err invalidPayload
  else
    match value with
    | VBools v =>
        if negb (len v =? sizeBytes * 8) then Err invalidPayload
        else
          let out := set_flags 0 v (replicate (Z.to_nat sizeBytes) x00) in
          if bitfieldIsReplacement out then Err invalidPayload else Ok out
    | VBytes v =>
        if negb (len v =? sizeBytes) then Err invalidPayload
        else if bitfieldIsReplacement v then Err invalidPayload else Ok v
    | VUint64 v => encodeFromUint64 sizeBytes v
    | _ =>
        match toInt64 value with
        | None => Err invalidPayload
        | Some i => if i <? 0 then Err invalidPayload else encodeFromUint64 sizeBytes i
        end
    end.

Definition BITFIELD_ReplacementValue (sizeBytes : Z) : list byte :=
  if sizeBytes <=? 0 then [] else replicate (Z.to_nat sizeBytes) xff.

Definition BITFIELD (sizeBytes : Z) : DataType :=
  mkDataType sizeBytes (BITFIELD_ReplacementValue sizeBytes) (BITFIELD_Decode sizeBytes) (BITFIELD_Encode sizeBytes).

(** ** Structured payloads *)

Record Field := mkField { fName : string; fType : option DataType }.

(** [%q] of a name that needs no escaping. *)
Definition quoted (name : string) : string :=
  (String (Ascii.ascii_of_nat 34) name +:+ String (Ascii.ascii_of_nat 34) EmptyString)%string.

Definition fieldError (field : Field) (what : string) (e : error) : error :=
  EWrap ("field " +:+ quoted (fName field) +:+ " " +:+ what +:+ ": ")%string e ""%string.

Fixpoint DecodeFields_loop (payload : list byte) (offset : Z) (fields : list Field) (values : gmap string Value)
    : result error (gmap string Value) :=
  match fields with
  | [] => Ok values
  | field :: fields' =>
      match fType field with
      | None => Err (fieldError field "missing type" invalidPayload)
      | Some T =>
          let size := Size T in
          if size <=? 0 then Err (fieldError field "invalid size" invalidPayload)
          else if len payload <? offset + size then Err (fieldError field "short payload" invalidPayload)
          else
            match Decode T (slice_to size (slice_from offset payload)) with
            | Err err => Err (fieldError field "decode" err)
            | Ok value => DecodeFields_loop payload (offset + size) fields' (<[fName field := value]> values)
            end
      end
  end.

Definition DecodeFields (payload : list byte) (fields : list Field) : result error (gmap string Value) :=
  DecodeFields_loop payload 0 fields ∅.

Definition TotalSize (fields : list Field) : Z :=
  foldl (fun total field =>
    match fType field with
    | None => total
    | Some T => if 0 <? Size T then total + Size T else total
    end) 0 fields.
