(* ===== verification/ValueLaws.v ===== *)
(** The laws of the data types: a payload decodes to a value that encodes to it
    again, a value encodes to a payload that decodes to what was meant, the
    replacement value decodes as absent, and short payloads are refused.

    [Lawful] states them for one [DataType] together with the relation between
    the value given and the value read back; the instances discharge it. *)

From S2P Require Import Prelude Errors Float Values.
From Stdlib Require Import Floats.SpecFloat.
#[local] Open Scope Z_scope.

(** ** Little-endian words *)

Lemma le16_put16_wrap u rest : le16 (put16 u ++ rest) = u mod 2 ^ 16.
Proof.
  cbn. rewrite !u8_b8, Z.shiftr_div_pow2 by lia. change (2 ^ 8) with 256. change (2 ^ 16) with (256 * 256).
  rewrite (Z.rem_mul_r u 256 256) by lia. lia.
Qed.

Lemma le16_put16 u rest : 0 <= u < 2 ^ 16 -> le16 (put16 u ++ rest) = u.
Proof. intros Hu. rewrite le16_put16_wrap. by apply Z.mod_small. Qed.

Lemma le16_range p : 2 <= len p -> 0 <= le16 p < 2 ^ 16.
Proof.
  destruct p as [|a [|b p]]; cbn; rewrite ?len_cons, ?len_nil; [lia|lia|]. intros _.
  pose proof (u8_range a). pose proof (u8_range b). lia.
Qed.

Lemma put16_le16 p : 2 <= len p -> put16 (le16 p) = take 2 p.
Proof.
  destruct p as [|a [|b p]]; rewrite ?len_cons, ?len_nil; [lia|lia|]. intros _.
  pose proof (u8_range a). pose proof (u8_range b). unfold put16, le16. cbn [take].
  rewrite Z.shiftr_div_pow2 by lia. change (2 ^ 8) with 256.
  rewrite take_0. f_equal; [|f_equal].
  - apply u8_inj. rewrite u8_b8, Z_mod_plus_full. apply Z.mod_small. lia.
  - rewrite Z.div_add by lia. rewrite (Z.div_small (u8 a)) by lia. apply b8_u8.
Qed.

Lemma put32_put16 u : put32 u = put16 u ++ put16 (Z.shiftr u 16).
Proof. unfold put32, put16. cbn. by rewrite Z.shiftr_shiftr by lia. Qed.

Lemma le32_le16 p : 4 <= len p -> le32 p = le16 p + le16 (drop 2 p) * 65536.
Proof.
  destruct p as [|a [|b [|c [|d p]]]]; rewrite ?len_cons, ?len_nil; try lia. intros _. cbn. lia.
Qed.

Lemma le32_put32 u : 0 <= u < 2 ^ 32 -> le32 (put32 u) = u.
Proof.
  intros Hu. rewrite le32_le16 by done. rewrite put32_put16, le16_put16_wrap.
  change (drop 2 (put16 u ++ put16 (Z.shiftr u 16))) with (put16 (Z.shiftr u 16) ++ []).
  rewrite le16_put16_wrap, Z.shiftr_div_pow2 by lia. rewrite (Z.mod_small (u / 2 ^ 16)).
  - pose proof (Z.div_mod u (2 ^ 16) ltac:(lia)). lia.
  - split; [apply Z.div_pos|apply Z.div_lt_upper_bound]; lia.
Qed.

Lemma le32_range p : 4 <= len p -> 0 <= le32 p < 2 ^ 32.
Proof.
  intros Hp. rewrite le32_le16 by done. pose proof (le16_range p ltac:(lia)).
  pose proof (le16_range (drop 2 p)) as H2. unfold len in *. rewrite length_drop in H2. lia.
Qed.

Lemma put32_le32 p : 4 <= len p -> put32 (le32 p) = take 4 p.
Proof.
  intros Hp. rewrite le32_le16, put32_put16 by done. pose proof (le16_range p ltac:(lia)).
  assert (2 <= len (drop 2 p)) by (unfold len in *; rewrite length_drop; lia).
  rewrite Z.shiftr_div_pow2, Z.div_add, Z.div_small, Z.add_0_l, put16_le16 by (done || lia).
  change (take 4 p) with (take (2 + 2) p). rewrite <- take_take_drop, <- (put16_le16 p) by lia. f_equal.
  unfold put16. rewrite !Z.shiftr_div_pow2 by lia. f_equal; [|f_equal]; apply u8_inj; rewrite !u8_b8.
  - change 65536 with (256 * 256). rewrite Z.mul_assoc. apply Z_mod_plus_full.
  - change 65536 with (256 * 2 ^ 8). rewrite Z.mul_assoc, Z.div_add by lia. apply Z_mod_plus_full.
Qed.

(** ** The laws *)

Definition decodes (T : DataType) (p : list byte) (x : any) : Prop := Decode T p = Ok (mkValue x true).

(** [shown v x]: [x] is the value read back after [v] was written. *)
Class Lawful (T : DataType) (shown : any -> any -> Prop) : Prop := {
  law_size : 0 < Size T;
  law_short p : len p < Size T -> Decode T p = Err invalidPayload;
  law_prefix p rest : Size T <= len p -> Decode T (p ++ rest) = Decode T p;
  law_replacement : len (ReplacementValue T) = Size T /\ Decode T (ReplacementValue T) = Ok invalid;
  law_encode v bs : any_ok v = true -> Encode T v = Ok bs -> len bs = Size T /\ exists x, decodes T bs x /\ shown v x;
  law_decode p x : decodes T p x -> any_ok x = true /\ Encode T x = Ok (slice_to (Size T) p);
  law_encode_error v e : Encode T v = Err e -> e = invalidPayload
}.

Definition same_int (v x : any) : Prop := exists z, toInt64 v = Some z /\ toInt64 x = Some z.

#[export] Instance BCD_Lawful : Lawful BCD same_int.
Proof.
  split; cbn [BCD Size ReplacementValue Decode Encode decodes].
  - lia.
  - intros [|b p]; rewrite ?len_cons, ?len_nil; [done|]. pose proof (len_nonneg p). lia.
  - intros [|b p] rest; rewrite ?len_cons, ?len_nil; [lia|done].
  - done.
  - intros v bs _. unfold BCD_Encode, same_int. destruct (toInt64 v) as [z|] eqn:Hz; [|done].
    destruct (_ || _) eqn:E; [done|]. intros [= <-]. split; [done|].
    apply orb_false_iff in E as [E1%Z.ltb_ge E2%Z.ltb_ge].
    exists (VUint8 z). assert (z ∈ seqZ 0 100) as Hin by (apply elem_of_seqZ; lia).
    split; [|by exists z].
    assert (forallb (fun z => bool_decide (BCD_Decode [bor (bshl (b8 (Z.quot z 10)) 4) (b8 (Z.rem z 10))] =
      Ok (mkValue (VUint8 z) true))) (seqZ 0 100) = true) as HF by (vm_compute; reflexivity).
    rewrite forallb_forall in HF. unfold decodes. by eapply bool_decide_eq_true_1, HF, list_elem_of_In.
  - intros [|b p] x; [done|]. unfold decodes, slice_to. cbn [BCD Decode]. change (take (Z.to_nat 1) (b :: p)) with [b].
    change (BCD_Decode (b :: p)) with (BCD_Decode [b]). intros H.
    assert (forall b, match BCD_Decode [b] with
      | Ok (mkValue x true) => any_ok x && bool_decide (BCD_Encode x = Ok [b]) | _ => true end = true) as HF.
    { clear. intros b. byte_cases b. }
    specialize (HF b). rewrite H in HF. by apply andb_true_iff in HF as [? ?%bool_decide_eq_true_1].
  - intros v e. unfold BCD_Encode. destruct (toInt64 v); [|by intros [= <-]]. case_match; by intros [= <-].
Qed.

#[export] Instance DATA1b_Lawful : Lawful DATA1b same_int.
Proof.
  split; cbn [DATA1b Size ReplacementValue Decode Encode decodes].
  - lia.
  - intros [|b p]; rewrite ?len_cons, ?len_nil; [done|]. pose proof (len_nonneg p). lia.
  - intros [|b p] rest; rewrite ?len_cons, ?len_nil; [lia|done].
  - done.
  - intros v bs _. unfold DATA1b_Encode, same_int. destruct (toInt64 v) as [z|] eqn:Hz; [|done].
    destruct (_ || _) eqn:E; [done|]. destruct (z =? -128) eqn:E3; [done|]. intros [= <-]. split; [done|].
    apply orb_false_iff in E as [E1%Z.ltb_ge E2%Z.ltb_ge].
    exists (VInt8 z). assert (z ∈ seqZ (-127) 255) as Hin by (apply elem_of_seqZ; lia).
    split; [|by exists z].
    assert (forallb (fun z => bool_decide (DATA1b_Decode [b8 (swrap 8 z)] = Ok (mkValue (VInt8 z) true)))
      (seqZ (-127) 255) = true) as HF by (vm_compute; reflexivity).
    rewrite forallb_forall in HF. unfold decodes. by eapply bool_decide_eq_true_1, HF, list_elem_of_In.
  - intros [|b p] x; [done|]. unfold decodes, slice_to. cbn [DATA1b Decode]. change (take (Z.to_nat 1) (b :: p)) with [b].
    change (DATA1b_Decode (b :: p)) with (DATA1b_Decode [b]). intros H.
    assert (forall b, match DATA1b_Decode [b] with
      | Ok (mkValue x true) => any_ok x && bool_decide (DATA1b_Encode x = Ok [b]) | _ => true end = true) as HF.
    { clear. intros b. byte_cases b. }
    specialize (HF b). rewrite H in HF. by apply andb_true_iff in HF as [? ?%bool_decide_eq_true_1].
  - intros v e. unfold DATA1b_Encode. destruct (toInt64 v); [|by intros [= <-]]. repeat case_match; by intros [= <-].
Qed.

Lemma len_put16 u : len (put16 u) = 2.
Proof. done. Qed.

Lemma le16_app p rest : 2 <= len p -> le16 (p ++ rest) = le16 p.
Proof. destruct p as [|a [|b p]]; rewrite ?len_cons, ?len_nil; [lia|lia|done]. Qed.

Lemma le32_app p rest : 4 <= len p -> le32 (p ++ rest) = le32 p.
Proof. destruct p as [|a [|b [|c [|d p]]]]; rewrite ?len_cons, ?len_nil; [lia..|done]. Qed.

Lemma short_test (p rest : list byte) n : n <= len p -> (len (p ++ rest) <? n) = (len p <? n).
Proof. intros Hp. rewrite len_app. pose proof (len_nonneg rest). rewrite !(proj2 (Z.ltb_ge _ _)) by lia. done. Qed.

#[export] Instance WORD_Lawful : Lawful WORD same_int.
Proof.
  split; cbn [WORD Size ReplacementValue Decode Encode].
  - lia.
  - intros p Hp%Z.ltb_lt. unfold WORD_Decode. by rewrite Hp.
  - intros p rest Hp. unfold WORD_Decode. by rewrite short_test, le16_app.
  - done.
  - intros v bs _. unfold WORD_Encode, same_int. destruct (toInt64 v) as [z|] eqn:Hz; [|done].
    destruct (_ || _) eqn:E; [done|]. intros [= <-]. split; [done|].
    apply orb_false_iff in E as [E1%Z.ltb_ge E2%Z.ltb_ge]. exists (VUint16 z). split; [|by exists z].
    unfold decodes. cbn [WORD Decode]. unfold WORD_Decode. rewrite len_put16, <- (app_nil_r (put16 _)), le16_put16.
    + rewrite wrap_small by lia. by rewrite (proj2 (Z.eqb_neq _ _)) by lia.
    + apply wrap_range. lia.
  - intros p x. unfold decodes. cbn [WORD Decode]. unfold WORD_Decode. destruct (_ <? _) eqn:Hs; [done|].
    apply Z.ltb_ge in Hs. pose proof (le16_range p Hs). destruct (_ =? _) eqn:Hr; [done|]. apply Z.eqb_neq in Hr.
    intros [= <-]. cbn [any_ok]. rewrite !(proj2 (Z.leb_le _ _)) by lia. split; [done|].
    unfold WORD_Encode. cbn [toInt64]. rewrite !(proj2 (Z.ltb_ge _ _)) by lia. cbn [orb].
    rewrite wrap_small by lia. by rewrite put16_le16.
  - intros v e. unfold WORD_Encode. destruct (toInt64 v); [|by intros [= <-]]. case_match; by intros [= <-].
Qed.

(** EXP keeps the [float32] nearest to the value given. *)
Definition same_float32 (v x : any) : Prop := exists f, EXP_float32 v = Some f /\ x = VFloat32 f.

Lemma EXP_float32_valid v f : any_ok v = true -> EXP_float32 v = Some f -> valid_binary 24 128 f = true.
Proof.
  destruct v; try done; cbn [any_ok EXP_float32]; intros Hv; [by case_match; intros [= <-]|].
  case_match; [done|]. case_match; [done|]. intros [= <-]. apply f32_of_f64_valid.
Qed.

#[export] Instance EXP_Lawful : Lawful EXP same_float32.
Proof.
  split; cbn [EXP Size ReplacementValue Decode Encode].
  - lia.
  - intros p Hp%Z.ltb_lt. unfold EXP_Decode. by rewrite Hp.
  - intros p rest Hp. unfold EXP_Decode. by rewrite short_test, le32_app.
  - done.
  - intros v bs Hv. unfold EXP_Encode, same_float32. destruct (EXP_float32 v) as [f|] eqn:Hf; [|done].
    pose proof (EXP_float32_valid v f Hv Hf) as Hvf. destruct (_ || _) eqn:E; [done|]. destruct (_ =? _) eqn:Er; [done|].
    intros [= <-]. split; [done|]. exists (VFloat32 f). split; [|by exists f].
    unfold decodes. cbn [EXP Decode]. unfold EXP_Decode. rewrite le32_put32 by by apply Float32bits_range.
    rewrite Er, Float32frombits_bits, E by done. done.
  - intros p x. unfold decodes. cbn [EXP Decode]. unfold EXP_Decode. destruct (_ <? _) eqn:Hs; [done|].
    apply Z.ltb_ge in Hs. pose proof (le32_range p Hs) as Hr. destruct (_ =? _) eqn:Er; [done|].
    destruct (_ || _) eqn:E; [done|]. intros [= <-].
    assert (Float32frombits (le32 p) <> S754_nan) as Hn by (intros Hn; by rewrite Hn in E).
    pose proof (Float32bits_frombits (le32 p) Hr Hn) as Hb.
    split; [|unfold EXP_Encode; cbn [EXP_float32]; rewrite E; cbv beta iota; rewrite E, Hb, Er; by rewrite put32_le32].
    cbn [any_ok]. by apply Float32frombits_valid.
  - intros v e. unfold EXP_Encode. destruct (EXP_float32 v); [|by intros [= <-]]. repeat case_match; by intros [= <-].
Qed.

(** ** Fixed-point values *)

(** DATA2b and DATA2c read back the multiple of the step that the scaled value
    rounds to, which lies within [data2Epsilon] of it. *)
Definition same_scaled (divisor : Z) (v x : any) : Prop :=
  exists f, toFloat64 v = Some f /\
    let scaled := f64_mul f (data2Divisor divisor) in
    let k := int_of_float (math_Round scaled) in
    data2MinInt <= k <= data2MaxInt /\
    x = VFloat64 (f64_div (f64_of_Z k) (data2Divisor divisor)) /\
    float_ltb data2Epsilon (math_Abs (f64_sub scaled (math_Round scaled))) = false.

Section Data2.
Context (j : Z) (Hj : j = 4 \/ j = 8).
#[local] Notation divisor := (2 ^ j).

Lemma divisor_float : data2Divisor divisor = S754_finite false 4503599627370496 (j - 52).
Proof. destruct Hj as [-> | ->]; reflexivity. Qed.

Lemma max_float : data2Max divisor = S754_finite false (mantissa64 32767) (14 - 52 - j).
Proof. destruct Hj as [-> | ->]; reflexivity. Qed.

Lemma min_float : data2Min divisor = S754_finite true (mantissa64 32767) (14 - 52 - j).
Proof. destruct Hj as [-> | ->]; reflexivity. Qed.

(** The mantissa and exponent of [p] steps are at most those of 32767. *)
Lemma steps_compare p : Zpos p <= 32767 ->
  Z.log2 (Zpos p) < 14 \/ Z.log2 (Zpos p) = 14 /\ (mantissa64 p <= mantissa64 32767)%positive.
Proof.
  intros Hp. pose proof (Z.log2_le_mono (Zpos p) 32767 Hp) as Hl. change (Z.log2 32767) with 14 in Hl.
  destruct (Z.eq_dec (Z.log2 (Zpos p)) 14) as [E|]; [right|left; lia]. split; [done|].
  cut (Zpos (mantissa64 p) <= Zpos (mantissa64 32767)); [lia|]. rewrite !mantissa64_val, E by (rewrite ?E; change (Z.log2 32767) with 14; lia).
  change (Z.log2 32767) with 14. apply Z.mul_le_mono_nonneg_r; lia.
Qed.

Lemma steps_in_range p s : Zpos p <= 32767 ->
  let f := S754_finite s (mantissa64 p) (Z.log2 (Zpos p) - 52 - j) in
  float_ltb f (data2Min divisor) || float_ltb (data2Max divisor) f = false.
Proof.
  intros Hp f. rewrite max_float, min_float. unfold f, float_ltb, SFltb, SFcompare.
  destruct (steps_compare p Hp) as [Hl|[Hl Hm]].
  - destruct s; cbv beta iota; [rewrite (proj2 (Z.compare_lt_iff _ _)) by lia|rewrite (proj2 (Z.compare_gt_iff _ _)) by lia]; done.
  - rewrite Hl, Z.compare_refl. change (Pcompare ?a ?b Eq) with (Pos.compare a b). unfold orb.
    destruct s.
    + destruct (Pos.compare_spec (mantissa64 p) (mantissa64 32767)) as [E|E|E]; [done|done|lia].
    + destruct (Pos.compare_spec (mantissa64 32767) (mantissa64 p)) as [E|E|E]; [done|lia|done].
Qed.

(** Dividing an integer of the range by the divisor and scaling it back is exact. *)
Lemma encode_steps k : data2MinInt <= k <= data2MaxInt ->
  data2_Encode divisor (VFloat64 (f64_div (f64_of_Z k) (data2Divisor divisor))) = Ok (put16 (wrap 16 k)) /\
  valid_binary 53 1024 (f64_div (f64_of_Z k) (data2Divisor divisor)) = true.
Proof.
  unfold data2MinInt, data2MaxInt. intros Hk.
  destruct (decide (k = 0)) as [-> |Hk0]; [destruct Hj as [-> | ->]; split; vm_compute; reflexivity|].
  set (p := Z.to_pos (Z.abs k)). set (s := k <? 0).
  assert (k = (if s then Zneg p else Zpos p)) as Hkp.
  { unfold s, p. destruct (Z.ltb_spec k 0); [rewrite <- Pos2Z.opp_pos|]; rewrite Z2Pos.id by lia; lia. }
  assert (Zpos p <= 32767) as Hp by (destruct s; lia).
  assert (Z.log2 (Zpos p) <= 14) as Hl14 by (destruct (steps_compare p Hp); lia).
  assert (Z.log2 (Zpos p) < 52) as Hl by lia. pose proof (Z.log2_nonneg (Zpos p)) as Hl0.
  assert (f64_of_Z k = S754_finite s (mantissa64 p) (Z.log2 (Zpos p) - 52)) as Hf.
  { rewrite Hkp. unfold f64_of_Z, binary_normalize. destruct s; by apply round64_int. }
  unfold f64_div. rewrite divisor_float, Hf, (div_pow2 p Hl) by lia. split.
  - unfold data2_Encode. cbn [toFloat64 IsNaN IsInf orb]. rewrite (steps_in_range p s Hp), divisor_float.
    unfold f64_mul. rewrite (mul_pow2 p Hl), (round_int p Hl), sub_self by lia.
    change (float_ltb data2Epsilon (math_Abs (S754_zero false))) with false. cbv beta iota zeta.
    rewrite (int_of_int p Hl), <- Hkp. unfold data2MinInt, data2MaxInt.
    rewrite !(proj2 (Z.ltb_ge _ _)) by lia. cbn [orb]. rewrite (proj2 (Z.eqb_neq _ _)) by lia.
    by rewrite swrap_small by lia.
  - cbn [valid_binary]. unfold bounded, canonical_mantissa. rewrite digits_log2, mantissa64_log2 by done.
    apply andb_true_iff. split; [apply Z.eqb_eq; unfold fexp, emin; lia|apply Z.leb_le; lia].
Qed.

Lemma swrap_le16 k : data2MinInt <= k <= data2MaxInt ->
  le16 (put16 (wrap 16 k)) <> 0x8000 /\ swrap 16 (le16 (put16 (wrap 16 k))) = k.
Proof.
  unfold data2MinInt, data2MaxInt. intros Hk. rewrite <- (app_nil_r (put16 _)), le16_put16 by (apply wrap_range; lia).
  unfold wrap, swrap. change (2 ^ (16 - 1)) with 32768. change (2 ^ 16) with 65536.
  destruct (Z_lt_le_dec k 0).
  - rewrite <- (Z.mod_add k 1), Z.mul_1_l, (Z.mod_small (k + 65536)) by lia. split; [lia|].
    rewrite <- Z.add_assoc, (Z.add_comm 65536), Z.add_assoc, <- (Z.mul_1_l 65536), Z.mod_add, Z.mod_small; lia.
  - rewrite (Z.mod_small k), Z.mod_small; lia.
Qed.

Lemma swrap_range16 raw : 0 <= raw < 2 ^ 16 -> raw <> 0x8000 ->
  data2MinInt <= swrap 16 raw <= data2MaxInt /\ wrap 16 (swrap 16 raw) = raw.
Proof.
  unfold data2MinInt, data2MaxInt, wrap, swrap. change (2 ^ (16 - 1)) with 32768. change (2 ^ 16) with 65536.
  intros Hr Hn. destruct (Z_lt_le_dec raw 32768).
  - rewrite (Z.mod_small (raw + 32768)) by lia. split; [lia|]. rewrite Z.mod_small; lia.
  - replace (raw + 32768) with (raw - 32768 + 1 * 65536) by lia. rewrite Z.mod_add, (Z.mod_small (raw - 32768)) by lia.
    split; [lia|]. rewrite <- (Z.mod_add _ 1), Z.mod_small; lia.
Qed.

#[export] Instance data2_Lawful : Lawful (data2 divisor) (same_scaled divisor).
Proof.
  split; cbn [data2 Size ReplacementValue Decode Encode].
  - lia.
  - intros p Hp%Z.ltb_lt. unfold data2_Decode. by rewrite Hp.
  - intros p rest Hp. unfold data2_Decode. by rewrite short_test, le16_app.
  - done.
  - intros v bs _. unfold data2_Encode, same_scaled. destruct (toFloat64 v) as [f|] eqn:Hf; [|done].
    destruct (IsNaN f || IsInf f); [done|]. destruct (_ || _); [done|]. cbv zeta.
    destruct (float_ltb data2Epsilon _) eqn:He; [done|].
    set (k := int_of_float (math_Round (f64_mul f (data2Divisor divisor)))) in *.
    destruct (_ || _) eqn:E; [done|]. destruct (k =? -32768) eqn:E3; [done|]. intros [= <-]. split; [done|].
    apply orb_false_iff in E as [E1%Z.ltb_ge E2%Z.ltb_ge].
    exists (VFloat64 (f64_div (f64_of_Z k) (data2Divisor divisor))). split; [|by exists f].
    rewrite swrap_small by (unfold data2MinInt, data2MaxInt in *; lia).
    pose proof (swrap_le16 k ltac:(done)) as [Hraw Hk]. unfold decodes. cbn [data2 Decode]. unfold data2_Decode.
    rewrite len_put16. cbv beta iota zeta. change (2 <? 2) with false. cbv beta iota.
    by rewrite (proj2 (Z.eqb_neq _ _) Hraw), Hk.
  - intros p x. unfold decodes. cbn [data2 Decode]. unfold data2_Decode. destruct (_ <? _) eqn:Hs; [done|].
    apply Z.ltb_ge in Hs. pose proof (le16_range p Hs) as Hr. destruct (_ =? _) eqn:Er; [done|].
    apply Z.eqb_neq in Er. intros [= <-]. destruct (swrap_range16 _ Hr Er) as [Hk Hw].
    destruct (encode_steps _ Hk) as [He Hv]. split; [done|]. rewrite He, Hw. by rewrite put16_le16.
  - intros v e. unfold data2_Encode. destruct (toFloat64 v); [|by intros [= <-]]. cbv zeta.
    repeat case_match; by intros [= <-].
Qed.
End Data2.

#[export] Instance DATA2b_Lawful : Lawful DATA2b (same_scaled 256).
Proof. apply (data2_Lawful 8). by right. Qed.

#[export] Instance DATA2c_Lawful : Lawful DATA2c (same_scaled 16).
Proof. apply (data2_Lawful 4). by left. Qed.
