(* ===== verification/Structured.v ===== *)
(** The laws of BITFIELD: the flags of a payload are its bits, least significant
    first, and every form of value that encodes reads back as its bits.

    Then structured payloads: fields cut out of and put together to bytes. *)

From S2P Require Import Prelude Errors Float Values ValueLaws.
#[local] Open Scope Z_scope.

Definition bits (bs : list byte) : list bool := bs ≫= bits_of_byte.

(** Bit [n] of a list of bytes. *)
Definition bit_at (bs : list byte) (n : nat) : bool :=
  Z.testbit (u8 (default x00 (bs !! (n / 8)%nat))) (Z.of_nat (n mod 8)).

Lemma bits_of_byte_lookup b j : (j < 8)%nat -> bits_of_byte b !! j = Some (Z.testbit (u8 b) (Z.of_nat j)).
Proof.
  intros Hj. unfold bits_of_byte. rewrite list_lookup_fmap, lookup_seqZ_lt by lia. cbn. by do 2 f_equal.
Qed.

Lemma length_bits bs : length (bits bs) = (8 * length bs)%nat.
Proof. induction bs as [|b bs IH]; [done|]. unfold bits in *. cbn [mbind list_bind]. rewrite length_app, IH. change (length (bits_of_byte b)) with 8%nat. cbn [length]. lia. Qed.

Lemma bits_lookup bs n : (n < 8 * length bs)%nat -> bits bs !! n = Some (bit_at bs n).
Proof.
  revert n. induction bs as [|b bs IH]; intros n Hn; [simpl in Hn; lia|]. cbn [length] in Hn.
  unfold bits. cbn [mbind list_bind]. assert (length (bits_of_byte b) = 8%nat) as Hl by done.
  destruct (decide (n < 8)%nat).
  - rewrite lookup_app_l, bits_of_byte_lookup by lia. unfold bit_at.
    by rewrite Nat.div_small, Nat.mod_small by lia.
  - rewrite lookup_app_r, Hl by lia. etransitivity; [apply IH; lia|]. unfold bit_at. do 2 f_equal.
    + replace n with (n - 8 + 1 * 8)%nat at 2 by lia. by rewrite Nat.div_add, Nat.add_1_r by lia.
    + replace n with (n - 8 + 1 * 8)%nat at 2 by lia. by rewrite Nat.Div0.mod_add.
Qed.

Lemma bits_of_byte_inj a b : bits_of_byte a = bits_of_byte b -> a = b.
Proof.
  intros H. apply u8_inj, Z.bits_inj'. intros n Hn. destruct (Z_lt_le_dec n 8); [|by rewrite !u8_testbit_high by lia].
  assert (bits_of_byte a !! Z.to_nat n = bits_of_byte b !! Z.to_nat n) as Hl by by rewrite H.
  rewrite !bits_of_byte_lookup, Z2Nat.id in Hl by lia. by injection Hl.
Qed.

Lemma bits_inj a b : bits a = bits b -> a = b.
Proof.
  revert b. induction a as [|x a IH]; intros [|y b] H; [done|by apply (f_equal length) in H|by apply (f_equal length) in H|].
  unfold bits in H. cbn [mbind list_bind] in H. apply app_inj_1 in H as [Hx Hr]; [|done].
  f_equal; [by apply bits_of_byte_inj|by apply IH].
Qed.

(** ** The loop that sets the flags *)

Lemma bit_at_set bs i n : (i < 8 * length bs)%nat ->
  bit_at (alter (fun b => bor b (b8 (2 ^ Z.of_nat (i mod 8)))) (i / 8)%nat bs) n = bit_at bs n || (n =? i)%nat.
Proof.
  intros Hi. unfold bit_at. pose proof (Nat.mod_upper_bound i 8 ltac:(lia)). pose proof (Nat.mod_upper_bound n 8 ltac:(lia)).
  pose proof (Nat.div_mod i 8 ltac:(lia)). pose proof (Nat.div_mod n 8 ltac:(lia)).
  destruct (decide (i / 8 = n / 8)%nat) as [E|E].
  - rewrite E, list_lookup_alter_eq. destruct (bs !! (n / 8)%nat) as [b|] eqn:Hb; [|apply lookup_ge_None in Hb; lia].
    cbv [default fmap option_fmap option_map from_option id].
    rewrite u8_bor, u8_b8_small, Z.lor_spec, Z.pow2_bits_eqb.
    + f_equal. destruct (Nat.eqb_spec n i); [subst; apply Z.eqb_refl|apply Z.eqb_neq; lia].
    + lia.
    + split; [apply Z.pow_nonneg; lia|]. change 256 with (2 ^ 8). apply Z.pow_lt_mono_r; lia.
  - rewrite list_lookup_alter_ne by done. rewrite (proj2 (Nat.eqb_neq n i)), orb_false_r; [done|]. intros ->. done.
Qed.

Lemma length_set_flags i flags out : length (set_flags i flags out) = length out.
Proof.
  revert i out. induction flags as [|f flags IH]; intros i out; [done|]. cbn. rewrite IH. destruct f; [apply length_alter|done].
Qed.

Lemma bit_at_set_flags i flags out n : (i + length flags <= 8 * length out)%nat ->
  bit_at (set_flags i flags out) n = bit_at out n || ((i <=? n)%nat && default false (flags !! (n - i)%nat)).
Proof.
  revert i out. induction flags as [|f flags IH]; intros i out Hl; cbn [set_flags].
  - by rewrite lookup_nil, andb_false_r, orb_false_r.
  - cbn [length] in Hl. rewrite IH by (destruct f; rewrite ?length_alter; lia).
    assert (bit_at (if f then alter (fun b => bor b (b8 (2 ^ Z.of_nat (i mod 8)))) (i / 8)%nat out else out) n =
      bit_at out n || ((n =? i)%nat && f)) as ->.
    { destruct f; [rewrite bit_at_set, andb_true_r by lia|rewrite andb_false_r, orb_false_r]; done. }
    rewrite <- orb_assoc. f_equal.
    destruct (Nat.eqb_spec n i) as [-> |Hn].
    + rewrite Nat.sub_diag, (proj2 (Nat.leb_gt (S i) i)), Nat.leb_refl by lia. cbn. by rewrite orb_false_r.
    + cbn [andb orb]. destruct (Nat.leb_spec (S i) n).
      * rewrite (proj2 (Nat.leb_le i n)) by lia. by replace (n - i)%nat with (S (n - S i)) by lia.
      * by rewrite (proj2 (Nat.leb_gt i n)) by lia.
Qed.

Lemma bits_set_flags flags size : length flags = (8 * size)%nat -> bits (set_flags 0 flags (replicate size x00)) = flags.
Proof.
  intros Hl. apply list_eq. intros n. pose proof (length_set_flags 0 flags (replicate size x00)) as Ho.
  rewrite length_replicate in Ho. destruct (decide (n < 8 * size)%nat).
  - rewrite bits_lookup, bit_at_set_flags by (rewrite ?length_replicate; lia).
    assert (bit_at (replicate size x00) n = false) as ->.
    { unfold bit_at. destruct (_ !! _) as [b|] eqn:Hb; [apply lookup_replicate in Hb as [-> _]|]; apply Z.testbit_0_l. }
    rewrite Nat.sub_0_r. cbn. destruct (lookup_lt_is_Some_2 flags n) as [b Hb]; [lia|]. by rewrite Hb.
  - rewrite !lookup_ge_None_2; rewrite ?length_bits; [done|lia|lia].
Qed.

(** ** The instance *)

Definition int_bits (sizeBytes : Z) (v x : any) : Prop :=
  exists z, toInt64 v = Some z /\ x = VBools (Z.testbit z <$> seqZ 0 (8 * sizeBytes)) /\ 0 <= z < 2 ^ (8 * sizeBytes).

(** A list of flags reads back as itself, bytes as their bits, and an integer
    as its binary digits. *)
Definition same_bits (sizeBytes : Z) (v x : any) : Prop :=
  match v with
  | VBools l => x = VBools l
  | VBytes l => x = VBools (bits l)
  | VUint64 z => x = VBools (Z.testbit z <$> seqZ 0 (8 * sizeBytes)) /\ 0 <= z < 2 ^ (8 * sizeBytes)
  | _ => int_bits sizeBytes v x
  end.

Section Lawful.
Context (sizeBytes : Z) (Hsize : 0 < sizeBytes).

Lemma decode_bits p : len p = sizeBytes -> bitfieldIsReplacement p = false ->
  decodes (BITFIELD sizeBytes) p (VBools (bits p)).
Proof.
  intros Hp Hr. unfold decodes. cbn [BITFIELD Decode]. unfold BITFIELD_Decode.
  rewrite (proj2 (Z.leb_gt _ _)), (proj2 (Z.ltb_ge _ _)) by lia. cbn [orb]. unfold slice_to.
  rewrite take_ge by (unfold len in Hp; lia). by rewrite Hr.
Qed.

Lemma encodeFromUint64_spec z bs : 0 <= z < 2 ^ 64 -> encodeFromUint64 sizeBytes z = Ok bs ->
  len bs = sizeBytes /\ bitfieldIsReplacement bs = false /\
  bits bs = Z.testbit z <$> seqZ 0 (8 * sizeBytes) /\ 0 <= z < 2 ^ (8 * sizeBytes).
Proof.
  intros Hz. unfold encodeFromUint64. rewrite (proj2 (Z.leb_gt _ _)) by lia.
  destruct (Z.ltb_spec 8 sizeBytes); [done|]. destruct (_ && _) eqn:Hfit; [done|].
  set (out := _ <$> _). destruct (bitfieldIsReplacement out) eqn:Hr; [done|]. intros [= <-].
  assert (length out = Z.to_nat sizeBytes) as Hlen by (unfold out; rewrite length_fmap, length_seqZ; done).
  split_and!; [unfold len; lia|done| |lia|].
  - apply list_eq. intros n. destruct (decide (n < 8 * length out)%nat) as [Hn|Hn].
    + rewrite bits_lookup, list_lookup_fmap, lookup_seqZ_lt by lia. cbn [fmap option_fmap option_map]. f_equal.
      pose proof (Nat.div_mod n 8 ltac:(lia)). pose proof (Nat.mod_upper_bound n 8 ltac:(lia)).
      unfold bit_at, out. rewrite list_lookup_fmap, lookup_seqZ_lt by lia. cbv [default fmap option_fmap option_map from_option id].
      rewrite u8_b8. change 256 with (2 ^ 8). rewrite Z.mod_pow2_bits_low, Z.shiftr_spec by lia. f_equal. lia.
    + rewrite !lookup_ge_None_2; [done| |]; rewrite ?length_fmap, ?length_seqZ, ?length_bits; lia.
  - apply andb_false_iff in Hfit as [H1%Z.ltb_ge|H1%Z.ltb_ge].
    + assert (2 ^ 64 <= 2 ^ (8 * sizeBytes)) by (apply Z.pow_le_mono_r; lia). lia.
    + rewrite (Z.mul_comm 8). lia.
Qed.

Lemma same_bits_int v z bs : toInt64 v = Some z -> 0 <= z < 2 ^ 64 -> encodeFromUint64 sizeBytes z = Ok bs ->
  len bs = sizeBytes /\ exists x, decodes (BITFIELD sizeBytes) bs x /\
    x = VBools (Z.testbit z <$> seqZ 0 (8 * sizeBytes)) /\ 0 <= z < 2 ^ (8 * sizeBytes).
Proof.
  intros Hv Hz H. destruct (encodeFromUint64_spec z bs Hz H) as (Hl & Hr & Hb & Hfit).
  split; [done|]. exists (VBools (bits bs)). split; [by apply decode_bits|]. by rewrite Hb.
Qed.

Lemma toInt64_range v z : any_ok v = true -> toInt64 v = Some z -> z < 2 ^ 64.
Proof.
  unfold maxInt64AsUint. destruct v; cbn; try done;
    try (rewrite !andb_true_iff, !Z.leb_le; intros [? ?] [= <-]; lia);
    destruct (_ <? _); try done; rewrite !andb_true_iff, !Z.leb_le; intros [? ?] [= <-]; lia.
Qed.

#[export] Instance BITFIELD_Lawful : Lawful (BITFIELD sizeBytes) (same_bits sizeBytes).
Proof.
  split; cbn [BITFIELD Size ReplacementValue Decode Encode].
  - done.
  - intros p Hp%Z.ltb_lt. unfold BITFIELD_Decode. by rewrite Hp, orb_true_r.
  - intros p rest Hp. unfold BITFIELD_Decode. rewrite short_test by done. destruct (_ || _); [done|].
    unfold slice_to, len in *. by rewrite take_app_le by lia.
  - unfold BITFIELD_ReplacementValue, BITFIELD_Decode. rewrite (proj2 (Z.leb_gt _ _)) by lia.
    assert (len (replicate (Z.to_nat sizeBytes) xff) = sizeBytes) as Hl by (unfold len; rewrite length_replicate; lia).
    split; [done|]. rewrite Hl, Z.ltb_irrefl. cbn [orb]. unfold slice_to. rewrite take_ge by (rewrite length_replicate; lia).
    assert (bitfieldIsReplacement (replicate (Z.to_nat sizeBytes) xff) = true) as ->; [|done].
    destruct (Z.to_nat sizeBytes) as [|n] eqn:E; [lia|]. clear. induction n as [|n IH]; [done|]. exact IH.
  - intros v bs Hv. unfold BITFIELD_Encode. rewrite (proj2 (Z.leb_gt _ _)) by lia.
    assert (Hint : forall z, toInt64 v = Some z -> (if z <? 0 then Err invalidPayload else encodeFromUint64 sizeBytes z) = Ok bs ->
      len bs = sizeBytes /\ exists x, decodes (BITFIELD sizeBytes) bs x /\ int_bits sizeBytes v x).
    { unfold int_bits. intros z Hz. destruct (Z.ltb_spec z 0); [done|]. intros He.
      pose proof (toInt64_range v z Hv Hz) as Hr. pose proof (same_bits_int v z bs Hz ltac:(lia) He). naive_solver. }
    destruct (toInt64 v) as [z|] eqn:Hz.
    + specialize (Hint z eq_refl). destruct v; try done; cbn [same_bits]; try exact Hint.
      intros H. cbn in Hv. rewrite !andb_true_iff, !Z.leb_le in Hv.
      eapply (same_bits_int (VInt64 z0)); [done|lia|done].
    + clear Hint. destruct v; try done; cbn [same_bits].
      * intros H. cbn in Hv. rewrite !andb_true_iff, !Z.leb_le in Hv.
        eapply (same_bits_int (VInt64 z)); [done|lia|done].
      * destruct (negb _) eqn:Hl; [done|]. apply negb_false_iff, Z.eqb_eq in Hl.
        destruct (bitfieldIsReplacement _) eqn:Hr; [done|]. intros [= <-]. unfold len in *.
        rewrite length_set_flags, length_replicate. split; [lia|]. eexists. split; [|done].
        rewrite <- (bits_set_flags l (Z.to_nat sizeBytes)) at 2 by lia. apply decode_bits; [|done].
        unfold len. rewrite length_set_flags, length_replicate. lia.
      * destruct (negb _) eqn:Hl; [done|]. apply negb_false_iff, Z.eqb_eq in Hl.
        destruct (bitfieldIsReplacement _) eqn:Hr; [done|]. intros [= <-]. split; [done|].
        eexists. split; [by apply decode_bits|done].
  - intros p x. unfold decodes. cbn [BITFIELD Decode]. unfold BITFIELD_Decode.
    rewrite (proj2 (Z.leb_gt _ _)) by lia. cbn [orb]. destruct (Z.ltb_spec (len p) sizeBytes); [done|].
    destruct (bitfieldIsReplacement _) eqn:Hr; [done|]. intros [= <-]. split; [done|].
    change (slice_to sizeBytes p ≫= bits_of_byte) with (bits (slice_to sizeBytes p)).
    set (seg := slice_to sizeBytes p) in *.
    assert (length seg = Z.to_nat sizeBytes) as Hl by (unfold seg, slice_to, len in *; rewrite length_take; lia).
    unfold BITFIELD_Encode. rewrite (proj2 (Z.leb_gt _ _)) by lia. unfold len. rewrite length_bits, Hl.
    rewrite (proj2 (Z.eqb_eq _ _)) by lia. cbn [negb].
    assert (set_flags 0 (bits seg) (replicate (Z.to_nat sizeBytes) x00) = seg) as ->; [|by rewrite Hr].
    apply bits_inj, bits_set_flags. rewrite length_bits. lia.
  - intros v e. unfold BITFIELD_Encode, encodeFromUint64. repeat case_match; by intros [= <-].
Qed.
End Lawful.

(** * Structured payloads

    What the data types of src/types guarantee together: the round trips of
    every type and the decoding of a payload as a sequence of named fields,
    proved against the laws of [ValueLaws.Lawful]. *)

(** The types the package exports, each with what reading back preserves. *)
Inductive shipped : DataType -> (any -> any -> Prop) -> Prop :=
| shipped_BCD : shipped BCD same_int
| shipped_DATA1b : shipped DATA1b same_int
| shipped_DATA2b : shipped DATA2b (same_scaled 256)
| shipped_DATA2c : shipped DATA2c (same_scaled 16)
| shipped_EXP : shipped EXP same_float32
| shipped_WORD : shipped WORD same_int
| shipped_BITFIELD sizeBytes : 0 < sizeBytes -> shipped (BITFIELD sizeBytes) (same_bits sizeBytes).

Lemma shipped_lawful T shown : shipped T shown -> Lawful T shown.
Proof. destruct 1; try apply _. by apply BITFIELD_Lawful. Qed.

#[local] Hint Resolve shipped_lawful : ebus.

(** ** Each type on its own *)

(** C22: Claim: every value of its Go type that a data type encodes gives
    exactly [Size] bytes, which decode, followed by anything, to a valid value
    with the same meaning: the same integer, the same flags or bits, the nearest
    [float32], or the multiple of the step within 1e-9 of the scaled value. *)
Theorem encode_then_decode T shown v bs rest :
  shipped T shown -> any_ok v = true -> Encode T v = Ok bs ->
  len bs = Size T /\ exists x, Decode T (bs ++ rest) = Ok (mkValue x true) /\ shown v x.
Proof.
  intros HL%shipped_lawful Hv He. destruct (law_encode v bs Hv He) as (Hl & x & Hd & Hx).
  split; [done|]. exists x. split; [|done]. rewrite law_prefix by lia. exact Hd.
Qed.

Lemma encode_then_decode_witness :
  (shipped (BITFIELD 1) (same_bits 1) /\ any_ok (VInt 5) = true /\ Encode (BITFIELD 1) (VInt 5) = Ok [x05]) /\
  (len [x05] = Size (BITFIELD 1) /\ exists x, Decode (BITFIELD 1) ([x05] ++ [xaa]) = Ok (mkValue x true) /\ same_bits 1 (VInt 5) x).
Proof.
  split; [split_and!; [by constructor|reflexivity|reflexivity]|].
  apply (encode_then_decode (BITFIELD 1) (same_bits 1) (VInt 5) [x05] [xaa]); [by constructor|reflexivity|reflexivity].
Defined.



(** the two ways a payload carries no value: the replacement value
    has the size of the type and decodes, without an error, to an absent value;
    a payload shorter than the type is refused with [ErrInvalidPayload], and so
    is every value that has no encoding. *)
Theorem absent_and_refused T shown :
  shipped T shown ->
  (len (ReplacementValue T) = Size T /\ Decode T (ReplacementValue T) = Ok invalid) /\
  (forall p, len p < Size T -> Decode T p = Err invalidPayload) /\
  (forall v e, Encode T v = Err e -> e = invalidPayload).
Proof.
  intros HL%shipped_lawful. split_and!; [apply law_replacement..|apply law_short|apply law_encode_error].
Qed.

Lemma absent_and_refused_witness :
  shipped EXP same_float32 /\
  ((len (ReplacementValue EXP) = Size EXP /\ Decode EXP (ReplacementValue EXP) = Ok invalid) /\
   (forall p, len p < Size EXP -> Decode EXP p = Err invalidPayload) /\
   (forall v e, Encode EXP v = Err e -> e = invalidPayload)).
Proof. split; [constructor|apply (absent_and_refused EXP same_float32); constructor]. Defined.

(** "requires exact fit" of DATA2b and DATA2c is up to 1e-9 of a
    step: 1 + 1e-12 is not a multiple of 1/256 and is encoded as 1. *)
Theorem exact_fit_is_approximate :
  let nearly_one := f64_div (f64_of_Z 1000000000001) (f64_of_Z 1000000000000) in
  nearly_one <> f64_of_Z 1 /\ data2_Encode 256 (VFloat64 nearly_one) = data2_Encode 256 (VFloat64 (f64_of_Z 1)) /\
  data2_Encode 256 (VFloat64 (f64_of_Z 1)) = Ok [x00; x01].
Proof. vm_compute. split_and!; [done|reflexivity|reflexivity]. Qed.

(** ** Fields *)

(** The reference decoding: cut the payload field by field. *)
Inductive cuts : list Field -> list byte -> list Value -> Prop :=
| cuts_nil p : cuts [] p []
| cuts_cons field T fields p v vs :
    fType field = Some T -> 0 < Size T -> Size T <= len p ->
    Decode T (slice_to (Size T) p) = Ok v -> cuts fields (slice_from (Size T) p) vs ->
    cuts (field :: fields) p (v :: vs).

(** The map of the values, a later field of the same name replacing an earlier one. *)
Definition named (fields : list Field) (vs : list Value) (m : gmap string Value) : gmap string Value :=
  foldl (fun m '(field, v) => <[fName field := v]> m) m (zip fields vs).

Lemma slice_from_add {A} (a b : Z) (l : list A) : 0 <= a -> 0 <= b -> slice_from a (slice_from b l) = slice_from (b + a) l.
Proof. intros. unfold slice_from. rewrite drop_drop. f_equal. lia. Qed.

Lemma len_slice_from {A} (a : Z) (l : list A) : 0 <= a <= len l -> len (slice_from a l) = len l - a.
Proof. unfold len, slice_from. rewrite length_drop. lia. Qed.

Lemma DecodeFields_loop_cuts p offset fields m m' :
  0 <= offset <= len p ->
  DecodeFields_loop p offset fields m = Ok m' <-> exists vs, cuts fields (slice_from offset p) vs /\ m' = named fields vs m.
Proof.
  revert offset m. induction fields as [|field fields IH]; intros offset m Ho; cbn [DecodeFields_loop].
  - split; [intros [= <-]; eexists; split; [constructor|done]|intros (vs & Hc & ->); by inversion Hc].
  - destruct (fType field) as [T|] eqn:HT; [|split; [done|intros (vs & Hc & _); inversion Hc; congruence]].
    destruct (Z.leb_spec (Size T) 0); [split; [done|intros (vs & Hc & _); inversion Hc; simplify_eq; lia]|].
    pose proof (len_slice_from offset p ltac:(lia)) as Hlen.
    destruct (Z.ltb_spec (len p) (offset + Size T)).
    { split; [done|intros (vs & Hc & _); inversion Hc; simplify_eq; lia]. }
    destruct (Decode T _) as [v|e] eqn:Hd; [|split; [done|intros (vs & Hc & _); inversion Hc; simplify_eq; congruence]].
    rewrite IH by lia. rewrite <- slice_from_add by lia. split.
    + intros (vs & Hc & ->). exists (v :: vs). split; [|done]. by apply (cuts_cons field T); [|lia|lia|..].
    + intros (vs & Hc & ->). inversion Hc as [|? ? ? ? v' vs' ? ? ? Hd' Hc']; simplify_eq.
      exists vs'. split; [done|]. assert (v' = v) as -> by congruence. done.
Qed.

Lemma cuts_total fields p vs : cuts fields p vs -> TotalSize fields <= len p.
Proof.
  unfold TotalSize. intros Hc. enough (forall acc, foldl (fun total field => match fType field with
    | None => total | Some T => if 0 <? Size T then total + Size T else total end) acc fields <= acc + len p) as H.
  { specialize (H 0). lia. }
  induction Hc as [p|field T fields p v vs HT HS HL HD Hc IH]; intros acc; cbn [foldl].
  - pose proof (len_nonneg p). lia.
  - rewrite HT, (proj2 (Z.ltb_lt _ _) HS). specialize (IH (acc + Size T)).
    rewrite len_slice_from in IH by lia. lia.
Qed.

(** [DecodeFields] is the field-by-field cutting of the payload:
    it succeeds exactly when every field has a type of positive size, the
    payload is long enough for each in turn and each cut decodes, and then gives
    the map from names to values in which the last field of a name wins.  What
    it accepts is at least [TotalSize] bytes long. *)
Theorem DecodeFields_is_cutting payload fields :
  (forall m, DecodeFields payload fields = Ok m <-> exists vs, cuts fields payload vs /\ m = named fields vs ∅) /\
  (is_ok (DecodeFields payload fields) = true -> TotalSize fields <= len payload).
Proof.
  assert (forall m, DecodeFields payload fields = Ok m <-> exists vs, cuts fields payload vs /\ m = named fields vs ∅) as H.
  { intros m. unfold DecodeFields. rewrite DecodeFields_loop_cuts by (pose proof (len_nonneg payload); lia). done. }
  split; [done|]. destruct (DecodeFields payload fields) as [m|e]; [|done].
  intros _. destruct (proj1 (H m) eq_refl) as (vs & Hc & _). by eapply cuts_total.
Qed.

(** a field that stops the decoding names itself and the reason in
    an error that still wraps [ErrInvalidPayload] when the field has no type, a
    type without size, or too few bytes left. *)
Theorem DecodeFields_error p offset field fields m :
  fType field = None \/ (exists T, fType field = Some T /\ (Size T <= 0 \/ len p < offset + Size T)) ->
  exists what, DecodeFields_loop p offset (field :: fields) m =
    Err (EWrap ("field " +:+ quoted (fName field) +:+ " " +:+ what +:+ ": ") invalidPayload "").
Proof.
  cbn [DecodeFields_loop]. intros [-> |(T & -> & H)]; [by eexists|].
  destruct (Z.leb_spec (Size T) 0); [by eexists|]. rewrite (proj2 (Z.ltb_lt _ _)) by lia. by eexists.
Qed.

Lemma DecodeFields_error_witness :
  exists what, DecodeFields_loop [x01] 0 [mkField "temp" (Some WORD)] ∅ =
    Err (EWrap ("field " +:+ quoted "temp" +:+ " " +:+ what +:+ ": ") invalidPayload "").
Proof.
  apply (DecodeFields_error [x01] 0 (mkField "temp" (Some WORD)) [] ∅).
  right. exists WORD. split; [reflexivity|right; reflexivity].
Defined.

(** The payload that encodes the values of the fields one after the other. *)
Inductive encoded : list Field -> list any -> list byte -> Prop :=
| encoded_nil : encoded [] [] []
| encoded_cons field T shown fields v vs bs rest :
    fType field = Some T -> shipped T shown -> any_ok v = true -> Encode T v = Ok bs ->
    encoded fields vs rest -> encoded (field :: fields) (v :: vs) (bs ++ rest).

(** The value read for a field is the one written. *)
Definition reads_as (field : Field) (v : any) (x : Value) : Prop :=
  exists T shown y, fType field = Some T /\ shipped T shown /\ x = mkValue y true /\ shown v y.

Lemma encoded_cuts fields vs bs rest : encoded fields vs bs ->
  exists xs, cuts fields (bs ++ rest) xs /\ length vs = length fields /\
    Forall2 (fun '(field, v) x => reads_as field v x) (zip fields vs) xs.
Proof.
  induction 1 as [|field T shown fields v vs bs bs' HT HS Hv He Henc (xs & Hc & Hl & HF)]; [by repeat econstructor|].
  pose proof (shipped_lawful T shown HS) as HL. destruct (law_encode v bs Hv He) as (Hlen & y & Hd & Hy).
  assert (slice_to (Size T) ((bs ++ bs') ++ rest) = bs) as Hto.
  { unfold slice_to, len in *. rewrite <- app_assoc, take_app_length'; [done|lia]. }
  assert (slice_from (Size T) ((bs ++ bs') ++ rest) = bs' ++ rest) as Hfrom.
  { unfold slice_from, len in *. rewrite <- app_assoc, drop_app_length'; [done|lia]. }
  exists (mkValue y true :: xs). split_and!; [|cbn; lia|constructor; [by exists T, shown, y|done]].
  pose proof (law_size (T := T)). econstructor; [done|done| |by rewrite Hto|by rewrite Hfrom].
  rewrite !len_app, Hlen. pose proof (len_nonneg bs'). pose proof (len_nonneg rest). lia.
Qed.

Lemma named_skip fields xs m name :
  (forall j field, fields !! j = Some field -> fName field <> name) -> named fields xs m !! name = m !! name.
Proof.
  revert xs m. unfold named. induction fields as [|f fields IH]; intros xs m H; [done|]. destruct xs as [|x xs]; [done|].
  cbn [zip zip_with foldl]. rewrite IH; [|intros j f' Hj; apply (H (S j) f' Hj)].
  apply lookup_insert_ne. apply (H O f eq_refl).
Qed.

Lemma named_lookup fields vs xs (R : Field -> any -> Value -> Prop) m i field v :
  Forall2 (fun '(field, v) x => R field v x) (zip fields vs) xs -> length vs = length fields ->
  fields !! i = Some field -> vs !! i = Some v ->
  (forall j field', (i < j)%nat -> fields !! j = Some field' -> fName field' <> fName field) ->
  exists x, named fields xs m !! fName field = Some x /\ R field v x.
Proof.
  revert vs xs m i. induction fields as [|f fields IH]; intros vs xs m i HF Hl Hf Hv Hlast; [done|].
  destruct vs as [|v' vs]; [done|]. cbn [zip zip_with] in HF. inversion HF as [|? x ? xs' Hx HF']; subst.
  destruct i as [|i]; cbn in Hf, Hv; simplify_eq.
  - exists x. split; [|done]. unfold named. cbn [zip zip_with foldl]. clear HF HF' Hx IH.
    etransitivity; [apply (named_skip _ xs')|apply lookup_insert_eq]. intros j f' Hj. apply (Hlast (S j)); [lia|done].
  - cbn in Hl. eapply (IH vs xs'); eauto. intros j f' Hj Hj'. apply (Hlast (S j)); [lia|done].
Qed.

(** a payload built by encoding the value of each field in order
    decodes, whatever follows it, and every name then carries the value written
    to the last field of that name. *)
Theorem fields_round_trip fields vs bs rest :
  encoded fields vs bs ->
  exists m, DecodeFields (bs ++ rest) fields = Ok m /\
    forall i field v, fields !! i = Some field -> vs !! i = Some v ->
      (forall j field', (i < j)%nat -> fields !! j = Some field' -> fName field' <> fName field) ->
      exists x, m !! fName field = Some x /\ reads_as field v x.
Proof.
  intros He. destruct (encoded_cuts fields vs bs rest He) as (xs & Hc & Hl & HF).
  exists (named fields xs ∅). split.
  - unfold DecodeFields. apply DecodeFields_loop_cuts; [pose proof (len_nonneg (bs ++ rest)); lia|]. by exists xs.
  - intros i field v Hf Hv Hlast. by apply (named_lookup fields vs xs reads_as ∅ i).
Qed.

Definition two_fields : list Field := [mkField "mode" (Some BCD); mkField "temp" (Some DATA2c)].

Lemma fields_round_trip_witness :
  encoded two_fields [VUint8 42; VInt (-3)] [x42; xd0; xff] /\
  exists m, DecodeFields ([x42; xd0; xff] ++ [x99]) two_fields = Ok m /\
    forall i field v, two_fields !! i = Some field -> [VUint8 42; VInt (-3)] !! i = Some v ->
      (forall j field', (i < j)%nat -> two_fields !! j = Some field' -> fName field' <> fName field) ->
      exists x, m !! fName field = Some x /\ reads_as field v x.
Proof.
  assert (encoded two_fields [VUint8 42; VInt (-3)] [x42; xd0; xff]) as H.
  { apply (encoded_cons _ BCD same_int _ _ _ [x42] [xd0; xff]); [done|constructor|done|reflexivity|].
    apply (encoded_cons _ DATA2c (same_scaled 16) _ _ _ [xd0; xff] []); [done|constructor|done|vm_compute; reflexivity|constructor]. }
  split; [exact H|]. exact (fields_round_trip two_fields [VUint8 42; VInt (-3)] [x42; xd0; xff] [x99] H).
Defined.
