(* ===== verification/StdTypes.v ===== *)
(** The primitive types of protocol/ebus_standard/types: BYTE, CHAR in its three
    forms, BCD and its composite, DATA1c, raw payloads, and the selection of a
    catalog branch by length.

    A decoded value carries its content at a type of its own, [any] for the
    primitives and the list of components for [BCDComposite]; [None] is Go's
    [nil].  Strings are lists of bytes. *)

From S2P Require Import Prelude Float Values.
From Stdlib Require Import Floats.SpecFloat.
#[local] Open Scope Z_scope.

(** ** Values and errors *)

Inductive ErrorCode :=
| ErrCodeTruncatedPayload | ErrCodeOverlongPayload | ErrCodeOutOfRange | ErrCodeInvalidNibble
| ErrCodeAmbiguousSelector | ErrCodeUnknownSelector | ErrCodeInvalidRoundTrip | ErrCodeEncodesReplacement
| ErrCodeFixedWidthExceeded | ErrCodeInvalidArgument.

Definition ErrorCode_string (c : ErrorCode) : string :=
  match c with
  | ErrCodeTruncatedPayload => "truncated_payload"
  | ErrCodeOverlongPayload => "overlong_payload"
  | ErrCodeOutOfRange => "out_of_range"
  | ErrCodeInvalidNibble => "invalid_nibble"
  | ErrCodeAmbiguousSelector => "ambiguous_selector_branch"
  | ErrCodeUnknownSelector => "unknown_selector_branch"
  | ErrCodeInvalidRoundTrip => "invalid_round_trip"
  | ErrCodeEncodesReplacement => "encodes_replacement_value"
  | ErrCodeFixedWidthExceeded => "fixed_width_exceeded"
  | ErrCodeInvalidArgument => "invalid_argument"
  end.

Record DecodeError := newDecodeError { Code : ErrorCode; Message : string }.

#[export] Instance ErrorCode_eq_dec : EqDecision ErrorCode.
Proof. solve_decision. Defined.
#[export] Instance DecodeError_eq_dec : EqDecision DecodeError.
Proof. solve_decision. Defined.

Definition DecodeError_Error (e : option DecodeError) : string :=
  match e with
  | None => "<nil decode error>"
  | Some e =>
      if bool_decide (Message e = "") then ErrorCode_string (Code e)
      else ErrorCode_string (Code e) +:+ ": " +:+ Message e
  end.

Record StdValue (V : Type) := mkStd {
  Raw : list byte;
  Content : option V;
  Valid : bool;
  Replacement : bool;
  SErr : option DecodeError
}.
Arguments mkStd {V} _ _ _ _ _.
Arguments Raw {V} _.
Arguments Content {V} _.
Arguments Valid {V} _.
Arguments Replacement {V} _.
Arguments SErr {V} _.

#[export] Instance StdValue_eq_dec {V} `{EqDecision V} : EqDecision (StdValue V).
Proof. solve_decision. Defined.

Definition IsError {V} (v : StdValue V) : bool := bool_decide (is_Some (SErr v)).

Definition failed {V} (raw : list byte) (c : ErrorCode) (msg : string) : StdValue V :=
  mkStd raw None false false (Some (newDecodeError c msg)).
Definition usable {V} (raw : list byte) (v : V) : StdValue V := mkStd raw (Some v) true false None.
Definition replaced {V} (raw : list byte) : StdValue V := mkStd raw None false true None.

Notation encoding := (result DecodeError (list byte)).
Definition refused (c : ErrorCode) (msg : string) : encoding := Err (newDecodeError c msg).

(** The helpers repeat the integer conversion of src/types; the float one
    refuses what the integer one refuses. *)
Definition std_toInt64 (v : any) : option Z := Values.toInt64 v.

Definition std_toFloat64 (v : any) : option float :=
  match v with
  | VFloat32 t => Some (f64_of_f32 t)
  | VFloat64 t => Some t
  | _ => f64_of_Z <$> std_toInt64 v
  end.

(** ** BYTE and the single-byte CHARs *)

Module BYTE.

Definition Size : Z := 1.

Definition Decode (payload : list byte) : StdValue any :=
  match payload with
  | [] => failed [] ErrCodeTruncatedPayload "BYTE requires 1 byte"
  | [b] => usable payload (VUint8 (u8 b))
  | _ => failed payload ErrCodeOverlongPayload "BYTE consumes exactly 1 byte"
  end.

Definition Encode (value : any) : encoding :=
  match std_toInt64 value with
  | None => refused ErrCodeInvalidArgument "BYTE.Encode requires an integer"
  | Some i =>
      if (i <? 0) || (255 <? i) then refused ErrCodeOutOfRange "BYTE value must be in [0,255]"
      else Ok [b8 i]
  end.

End BYTE.

Module CHAR.

Definition Size : Z := 1.

Definition Decode (payload : list byte) : StdValue any :=
  match payload with
  | [] => failed [] ErrCodeTruncatedPayload "CHAR requires 1 byte"
  | [b] => usable payload (VUint8 (u8 b))
  | _ => failed payload ErrCodeOverlongPayload "CHAR consumes exactly 1 byte"
  end.

Definition Encode (value : any) : encoding :=
  match std_toInt64 value with
  | None => refused ErrCodeInvalidArgument "CHAR.Encode requires an integer"
  | Some i =>
      if (i <? 0) || (255 <? i) then refused ErrCodeOutOfRange "CHAR value must be in [0,255]"
      else Ok [b8 i]
  end.

End CHAR.

Module CHARSigned.

Definition Size : Z := 1.

Definition Decode (payload : list byte) : StdValue any :=
  match payload with
  | [] => failed [] ErrCodeTruncatedPayload "CHARSigned requires 1 byte"
  | [b] => usable payload (VInt8 (swrap 8 (u8 b)))
  | _ => failed payload ErrCodeOverlongPayload "CHARSigned consumes exactly 1 byte"
  end.

Definition Encode (value : any) : encoding :=
  match std_toInt64 value with
  | None => refused ErrCodeInvalidArgument "CHARSigned.Encode requires an integer"
  | Some i =>
      if (i <? -128) || (127 <? i) then refused ErrCodeOutOfRange "CHARSigned value must be in [-128,127]"
      else Ok [b8 (swrap 8 i)]
  end.

End CHARSigned.

(** ** CHARText *)

Module CHARText.

Record t := mk { Width : Z; Pad : option byte }.

Definition Size (c : t) : Z := Width c.

(** Whether a trailing byte is stripped for display: the declared pad byte, or
    0x00 and 0x20 when none is declared. *)
Definition is_padding (c : t) (b : byte) : bool :=
  match Pad c with Some p => b =b p | None => (b =b x00) || (b =b x20) end.

(** The loop that moves [end] back over the padding. *)
Fixpoint display_end (c : t) (raw : list byte) (n : nat) : nat :=
  match n with
  | O => O
  | S n' => match raw !! n' with
            | Some b => if is_padding c b then display_end c raw n' else n
            | None => n
            end
  end.

Definition hex_digit (d : Z) : byte := if d <? 10 then b8 (48 + d) else b8 (55 + d).

Definition display_byte (b : byte) : list byte :=
  if (32 <=? u8 b) && (u8 b <=? 126) then [b]
  else [x5c; x78; hex_digit (u8 b / 16); hex_digit (u8 b mod 16)].

Definition Decode (c : t) (payload : list byte) : StdValue any :=
  if Width c <=? 0 then failed [] ErrCodeInvalidArgument "CHARText.Width must be > 0"
  else if len payload <? Width c then
    failed payload ErrCodeTruncatedPayload "CHARText requires exactly Width bytes"
  else if Width c <? len payload then
    failed payload ErrCodeOverlongPayload "CHARText consumes exactly Width bytes"
  else
    usable payload (VString (take (display_end c payload (length payload)) payload ≫= display_byte)).

Definition Encode (c : t) (value : any) : encoding :=
  if Width c <=? 0 then refused ErrCodeInvalidArgument "CHARText.Width must be > 0"
  else
    match value with
    | VString data | VBytes data =>
        if Width c <? len data then refused ErrCodeFixedWidthExceeded "CHARText input longer than Width"
        else
          let pad := match Pad c with Some p => p | None => x20 end in
          Ok (data ++ replicate (Z.to_nat (Width c) - length data) pad)
    | _ => refused ErrCodeInvalidArgument "CHARText.Encode requires string or []byte"
    end.

End CHARText.

(** ** BCD *)

Definition decodeSingleBCD (b : byte) (raw : list byte) : StdValue any :=
  if b =b xff then replaced raw
  else
    let tens := bshr b 4 in
    let ones := band b x0f in
    if (9 <? u8 tens) || (9 <? u8 ones) then failed raw ErrCodeInvalidNibble "BCD nibble greater than 9"
    else usable raw (VInt (u8 tens * 10 + u8 ones)).

Definition bcd_byte (i : Z) : byte := bor (bshl (b8 (Z.quot i 10)) 4) (b8 (Z.rem i 10)).

Module BCD.

Definition Size : Z := 1.

Definition Decode (payload : list byte) : StdValue any :=
  match payload with
  | [] => failed [] ErrCodeTruncatedPayload "BCD requires 1 byte"
  | [b] => decodeSingleBCD b payload
  | _ => failed payload ErrCodeOverlongPayload "BCD consumes exactly 1 byte"
  end.

Definition Encode (value : any) : encoding :=
  match std_toInt64 value with
  | None => refused ErrCodeInvalidArgument "BCD.Encode requires an integer"
  | Some i =>
      if (i <? 0) || (99 <? i) then refused ErrCodeOutOfRange "BCD value must be in [0,99]"
      else Ok [bcd_byte i]
  end.

End BCD.

Module BCDComposite.

(** The component labels. *)
Definition t : Type := list string.

Definition Size (Components : t) : Z := len Components.

(** The variables of the loop over the components. *)
Record scan := mkScan { parts : list (StdValue any); firstErr : option DecodeError; anyReplacement : bool; anyInvalid : bool }.

Definition step (st : scan) (b : byte) : scan :=
  let part := decodeSingleBCD b [b] in
  let st := mkScan (parts st ++ [part]) (firstErr st) (anyReplacement st) (anyInvalid st) in
  let st := match SErr part with
            | Some e => mkScan (parts st) (match firstErr st with None => Some e | f => f end) (anyReplacement st) true
            | None => st
            end in
  if Replacement part then mkScan (parts st) (firstErr st) true (anyInvalid st) else st.

Definition Decode (Components : t) (payload : list byte) : StdValue (list (StdValue any)) :=
  let width := len Components in
  if len payload <? width then failed payload ErrCodeTruncatedPayload "BCDComposite payload shorter than Components"
  else if width <? len payload then failed payload ErrCodeOverlongPayload "BCDComposite payload longer than Components"
  else
    let st := foldl step (mkScan [] None false false) payload in
    if anyInvalid st then mkStd payload (Some (parts st)) false false (firstErr st)
    else if anyReplacement st then mkStd payload (Some (parts st)) false true None
    else mkStd payload (Some (parts st)) true false None.

Fixpoint encode_components (ints : list Z) : encoding :=
  match ints with
  | [] => Ok []
  | v :: ints' =>
      if (v <? 0) || (99 <? v) then refused ErrCodeOutOfRange "BCDComposite component out of [0,99]"
      else match encode_components ints' with Ok out => Ok (bcd_byte v :: out) | Err e => Err e end
  end.

Definition Encode (Components : t) (value : any) : encoding :=
  match value with
  | VInts ints =>
      if negb (len ints =? len Components) then
        refused ErrCodeInvalidArgument "BCDComposite.Encode arity does not match Components"
      else encode_components ints
  | _ => refused ErrCodeInvalidArgument "BCDComposite.Encode requires []int"
  end.

End BCDComposite.

(** ** DATA1c *)

Module DATA1c.

Definition Size : Z := 1.

Definition two : float := f64_of_Z 2.
Definition maximum : float := f64_of_Z 127.
Definition replacement_value : float := f64_div (f64_of_Z 255) two.

Definition Decode (payload : list byte) : StdValue any :=
  match payload with
  | [] => failed [] ErrCodeTruncatedPayload "DATA1c requires 1 byte"
  | [raw] => if raw =b xff then replaced payload else usable payload (VFloat64 (f64_div (f64_of_Z (u8 raw)) two))
  | _ => failed payload ErrCodeOverlongPayload "DATA1c consumes exactly 1 byte"
  end.

Definition Encode (value : any) : encoding :=
  match std_toFloat64 value with
  | None => refused ErrCodeInvalidArgument "DATA1c.Encode requires a numeric value"
  | Some f =>
      if IsNaN f || IsInf f then refused ErrCodeOutOfRange "DATA1c value must be finite (NaN/Inf rejected)"
      else if float_ltb f (f64_of_Z 0) then refused ErrCodeOutOfRange "DATA1c value must be non-negative"
      else if float_ltb maximum f then
        if float_eqb f replacement_value
        then refused ErrCodeEncodesReplacement "DATA1c 127.5 would encode to 0xFF replacement"
        else refused ErrCodeOutOfRange "DATA1c value must be <= 127 (or exactly 127.5 rejected as replacement)"
      else
        let raw := f64_mul f two in
        if has_fraction raw then refused ErrCodeInvalidRoundTrip "DATA1c value does not align to a 0.5 half-unit"
        else if float_eqb raw (f64_of_Z 255)
        then refused ErrCodeEncodesReplacement "DATA1c encoded byte would be 0xFF replacement"
        else Ok [b8 (int_of_float raw)]
  end.

End DATA1c.

(** ** Raw payloads *)

Module RawPayload.

Record t := mk { MinLen : Z; MaxLen : Z }.

Definition Decode (r : t) (payload : list byte) : StdValue any :=
  let n := len payload in
  if n <? MinLen r then failed payload ErrCodeTruncatedPayload "raw payload shorter than MinLen"
  else if MaxLen r <? n then failed payload ErrCodeOverlongPayload "raw payload longer than MaxLen"
  else usable payload (VBytes payload).

Definition Encode (r : t) (value : any) : encoding :=
  match value with
  | VBytes data | VString data =>
      if len data <? MinLen r then refused ErrCodeTruncatedPayload "raw payload shorter than MinLen"
      else if MaxLen r <? len data then refused ErrCodeOverlongPayload "raw payload longer than MaxLen"
      else Ok data
  | _ => refused ErrCodeInvalidArgument "RawPayload.Encode requires []byte or string"
  end.

End RawPayload.

(** ** Branch selection *)

Record SelectorInput := mkInput {
  PB : byte;
  SB : byte;
  Direction : string;
  Role : string;
  LengthPrefix : Z;
  Payload : list byte;
  SelectorDecoderID : string
}.

Record Branch := mkBranch {
  Name : string;
  BMinLen : Z;
  BMaxLen : Z;
  AllowsRawTail : bool;
  Match : option (SelectorInput -> bool)
}.

Record SelectorResult := mkSelected { Selected : string; SelErr : option DecodeError }.

Definition selector_error (c : ErrorCode) (msg : string) : SelectorResult :=
  mkSelected "" (Some (newDecodeError c msg)).

Definition in_window (nn : Z) (br : Branch) : bool := negb (nn <? BMinLen br) && negb (BMaxLen br <? nn).

(** The loop over the branches that fit: the matches so far, or an early return. *)
Fixpoint match_loop (input : SelectorInput) (windowFit matches : list Branch) : SelectorResult + list Branch :=
  match windowFit with
  | [] => inr matches
  | br :: windowFit' =>
      match Match br with
      | None => match_loop input windowFit' (matches ++ [br])
      | Some accepts =>
          if len (Payload input) <? BMinLen br then
            inl (selector_error ErrCodeTruncatedPayload "payload shorter than branch MinLen")
          else if len (Payload input) <? LengthPrefix input then
            inl (selector_error ErrCodeTruncatedPayload "payload shorter than declared LengthPrefix")
          else if accepts input then match_loop input windowFit' (matches ++ [br])
          else match_loop input windowFit' matches
      end
  end.

Definition Select (Branches : list Branch) (input : SelectorInput) : SelectorResult :=
  let nn := LengthPrefix input in
  let windowFit := filter (fun br => in_window nn br = true) Branches in
  if bool_decide (windowFit = []) then
    let nonempty := 0 <? len Branches in
    let allTooShort := nonempty && forallb (fun br => negb (BMinLen br <=? nn)) Branches in
    let allTooLong := nonempty && forallb (fun br => negb (nn <=? BMaxLen br)) Branches in
    if allTooShort then selector_error ErrCodeTruncatedPayload "declared length shorter than any branch MinLen"
    else if allTooLong then selector_error ErrCodeOverlongPayload "declared length longer than any branch MaxLen"
    else selector_error ErrCodeUnknownSelector "no branch matches selector inputs"
  else
    match match_loop input windowFit [] with
    | inl early => early
    | inr matches =>
        if (0 <? len matches) && (len (Payload input) <? nn) then
          selector_error ErrCodeTruncatedPayload "payload shorter than declared length"
        else
          match matches with
          | [] => selector_error ErrCodeUnknownSelector "no branch matches selector inputs"
          | [winner] =>
              if negb (AllowsRawTail winner) && (nn <? len (Payload input)) then
                selector_error ErrCodeOverlongPayload "payload buffer longer than declared LengthPrefix"
              else mkSelected (Name winner) None
          | _ => selector_error ErrCodeAmbiguousSelector "multiple branches match the same selector inputs"
          end
    end.
