(* ===== verification/StdLaws.v ===== *)
(** The contract of the standard primitives: every decode keeps the source
    bytes and is exactly one of usable, replaced or failed; what encodes is never
    a replacement and reads back as what was meant; what decodes exactly encodes
    to the same bytes; and branch selection is the search for the one branch that
    fits. *)

From S2P Require Import Prelude Float Values ValueLaws StdTypes.
From Stdlib Require Import Floats.SpecFloat.
#[local] Open Scope Z_scope.

(** ** The contract *)

(** The interface [Codec] of the package. *)
Record Codec := mkCodec { CDecode : list byte -> StdValue any; CEncode : any -> encoding }.

(** The three outcomes of a decode of [p]. *)
Definition outcome {V} (p : list byte) (v : StdValue V) : Prop :=
  (exists x, v = usable p x) \/ v = replaced p \/ (exists c msg, v = failed p c msg).

(** [shown v x]: what reads back after [v] was written is [x]. *)
Class StdLawful (C : Codec) (shown : any -> any -> Prop) : Prop := {
  std_outcome p : outcome p (CDecode C p);
  std_encode v bs : any_ok v = true -> CEncode C v = Ok bs -> exists x, CDecode C bs = usable bs x /\ shown v x
}.

(** A codec that decodes without loss. *)
Class StdExact (C : Codec) : Prop := {
  std_exact p x : CDecode C p = usable p x -> any_ok x = true /\ CEncode C x = Ok p
}.

Definition BYTE_codec := mkCodec BYTE.Decode BYTE.Encode.
Definition CHAR_codec := mkCodec CHAR.Decode CHAR.Encode.
Definition CHARSigned_codec := mkCodec CHARSigned.Decode CHARSigned.Encode.
Definition CHARText_codec (c : CHARText.t) := mkCodec (CHARText.Decode c) (CHARText.Encode c).
Definition BCD_codec := mkCodec BCD.Decode BCD.Encode.
Definition DATA1c_codec := mkCodec DATA1c.Decode DATA1c.Encode.
Definition RawPayload_codec (r : RawPayload.t) := mkCodec (RawPayload.Decode r) (RawPayload.Encode r).

Ltac outcomes :=
  first [left; by eexists | right; left; reflexivity | right; right; by do 2 eexists].

(** ** Single bytes *)

Lemma u8_in_range b : any_ok (VUint8 (u8 b)) = true.
Proof. cbn. pose proof (u8_range b). rewrite !(proj2 (Z.leb_le _ _)) by lia. done. Qed.

Lemma byte_range_test i : (i <? 0) || (255 <? i) = false -> 0 <= i < 256.
Proof. intros [H1%Z.ltb_ge H2%Z.ltb_ge]%orb_false_iff. lia. Qed.

Lemma byte_in_range b : (u8 b <? 0) || (255 <? u8 b) = false.
Proof. pose proof (u8_range b). rewrite !(proj2 (Z.ltb_ge _ _)) by lia. done. Qed.

#[export] Instance BYTE_Lawful : StdLawful BYTE_codec same_int.
Proof.
  split; cbn [CDecode CEncode BYTE_codec].
  - intros [|b [|c p]]; outcomes.
  - intros v bs _. unfold BYTE.Encode, std_toInt64, same_int. destruct (toInt64 v) as [i|]; [|done].
    destruct (_ || _) eqn:E; [done|]. apply byte_range_test in E. intros [= <-].
    exists (VUint8 i). cbn. rewrite u8_b8_small by lia. eauto.
Qed.

#[export] Instance BYTE_Exact : StdExact BYTE_codec.
Proof.
  split; cbn [CDecode CEncode BYTE_codec]. intros [|b [|c p]] x; try done. intros [= <-]. split; [apply u8_in_range|].
  unfold BYTE.Encode. cbn [std_toInt64 toInt64]. by rewrite byte_in_range, b8_u8.
Qed.

#[export] Instance CHAR_Lawful : StdLawful CHAR_codec same_int.
Proof.
  split; cbn [CDecode CEncode CHAR_codec].
  - intros [|b [|c p]]; outcomes.
  - intros v bs _. unfold CHAR.Encode, std_toInt64, same_int. destruct (toInt64 v) as [i|]; [|done].
    destruct (_ || _) eqn:E; [done|]. apply byte_range_test in E. intros [= <-].
    exists (VUint8 i). cbn. rewrite u8_b8_small by lia. eauto.
Qed.

#[export] Instance CHAR_Exact : StdExact CHAR_codec.
Proof.
  split; cbn [CDecode CEncode CHAR_codec]. intros [|b [|c p]] x; try done. intros [= <-]. split; [apply u8_in_range|].
  unfold CHAR.Encode. cbn [std_toInt64 toInt64]. by rewrite byte_in_range, b8_u8.
Qed.

Lemma b8_swrap i : b8 (swrap 8 i) = b8 i.
Proof.
  apply u8_inj. rewrite !u8_b8. unfold swrap. change (2 ^ (8 - 1)) with 128. change (2 ^ 8) with 256.
  rewrite Zminus_mod_idemp_l. f_equal. lia.
Qed.

Lemma swrap_mod i : -128 <= i <= 127 -> swrap 8 (i mod 256) = i.
Proof.
  intros Hi. unfold swrap. change (2 ^ (8 - 1)) with 128. change (2 ^ 8) with 256.
  rewrite Zplus_mod_idemp_l, Z.mod_small; lia.
Qed.

#[export] Instance CHARSigned_Lawful : StdLawful CHARSigned_codec same_int.
Proof.
  split; cbn [CDecode CEncode CHARSigned_codec].
  - intros [|b [|c p]]; outcomes.
  - intros v bs _. unfold CHARSigned.Encode, std_toInt64, same_int. destruct (toInt64 v) as [i|]; [|done].
    destruct (_ || _) eqn:E; [done|]. apply orb_false_iff in E as [E1%Z.ltb_ge E2%Z.ltb_ge]. intros [= <-].
    exists (VInt8 i). cbn [CHARSigned.Decode]. rewrite b8_swrap, u8_b8, swrap_mod by lia. eauto.
Qed.

#[export] Instance CHARSigned_Exact : StdExact CHARSigned_codec.
Proof.
  split; cbn [CDecode CEncode CHARSigned_codec]. intros [|b [|c p]] x; try done. intros [= <-].
  pose proof (swrap_range 8 (u8 b) ltac:(lia)) as Hr. change (2 ^ (8 - 1)) with 128 in Hr. split.
  - cbn. rewrite !(proj2 (Z.leb_le _ _)) by lia. done.
  - unfold CHARSigned.Encode. cbn [std_toInt64 toInt64]. rewrite !(proj2 (Z.ltb_ge _ _)) by lia. cbn [orb].
    by rewrite !b8_swrap, b8_u8.
Qed.

(** ** BCD *)

Lemma decodeSingleBCD_outcome b raw : outcome raw (decodeSingleBCD b raw).
Proof. unfold decodeSingleBCD. repeat case_match; outcomes. Qed.

Lemma bcd_byte_decodes i raw : 0 <= i <= 99 -> decodeSingleBCD (bcd_byte i) raw = usable raw (VInt i).
Proof.
  intros Hi. assert (forallb (fun i => negb (bcd_byte i =b xff) && negb ((9 <? u8 (bshr (bcd_byte i) 4)) || (9 <? u8 (band (bcd_byte i) x0f)))
    && (u8 (bshr (bcd_byte i) 4) * 10 + u8 (band (bcd_byte i) x0f) =? i)) (seqZ 0 100) = true) as HF by (vm_compute; reflexivity).
  rewrite forallb_forall in HF. specialize (HF i). rewrite <- list_elem_of_In, elem_of_seqZ in HF.
  specialize (HF ltac:(lia)). rewrite !andb_true_iff, !negb_true_iff, Z.eqb_eq in HF. destruct HF as ((H1 & H2) & H3).
  unfold decodeSingleBCD. by rewrite H1, H2, H3.
Qed.

Lemma bcd_byte_of_decoded b raw x :
  decodeSingleBCD b raw = usable raw x -> exists i, x = VInt i /\ 0 <= i <= 99 /\ bcd_byte i = b.
Proof.
  unfold decodeSingleBCD. destruct (b =b xff); [done|]. cbv zeta. destruct (_ || _) eqn:E; [done|]. intros [= <-].
  eexists. split; [done|]. revert E. set (P b := implb (negb ((9 <? u8 (bshr b 4)) || (9 <? u8 (band b x0f))))
    ((0 <=? u8 (bshr b 4) * 10 + u8 (band b x0f)) && (u8 (bshr b 4) * 10 + u8 (band b x0f) <=? 99) &&
     (bcd_byte (u8 (bshr b 4) * 10 + u8 (band b x0f)) =b b))).
  assert (P b = true) as HP by (unfold P; byte_cases b). unfold P in HP. intros E. rewrite E in HP.
  cbn [negb implb] in HP. rewrite !andb_true_iff, !Z.leb_le, byte_eqb_eq in HP. naive_solver.
Qed.

#[export] Instance BCD_StdLawful : StdLawful BCD_codec same_int.
Proof.
  split; cbn [CDecode CEncode BCD_codec].
  - intros [|b [|c p]]; [outcomes|apply decodeSingleBCD_outcome|outcomes].
  - intros v bs _. unfold BCD.Encode, std_toInt64, same_int. destruct (toInt64 v) as [i|]; [|done].
    destruct (_ || _) eqn:E; [done|]. apply orb_false_iff in E as [E1%Z.ltb_ge E2%Z.ltb_ge]. intros [= <-].
    exists (VInt i). cbn [BCD.Decode]. rewrite bcd_byte_decodes by lia. eauto.
Qed.

#[export] Instance BCD_Exact : StdExact BCD_codec.
Proof.
  split; cbn [CDecode CEncode BCD_codec]. intros [|b [|c p]] x; try done. cbn [BCD.Decode].
  intros (i & -> & Hi & Hb)%bcd_byte_of_decoded. split; [cbn; rewrite !(proj2 (Z.leb_le _ _)) by lia; done|].
  unfold BCD.Encode. cbn [std_toInt64 toInt64]. rewrite !(proj2 (Z.ltb_ge _ _)) by lia. by rewrite Hb.
Qed.

(** ** Raw payloads and text *)

Definition same_bytes (v x : any) : Prop :=
  exists data, (v = VBytes data \/ v = VString data) /\ x = VBytes data.

#[export] Instance RawPayload_Lawful r : StdLawful (RawPayload_codec r) same_bytes.
Proof.
  split; cbn [CDecode CEncode RawPayload_codec].
  - intros p. unfold RawPayload.Decode. repeat case_match; outcomes.
  - intros v bs _. unfold RawPayload.Encode, RawPayload.Decode, same_bytes.
    destruct v as [| | | | | | | | | | | | | |data| |data|]; try done;
      destruct (_ <? _) eqn:E1; try done; destruct (RawPayload.MaxLen r <? _) eqn:E2; try done; intros [= <-];
      exists (VBytes data); rewrite E1, E2; eauto.
Qed.

#[export] Instance RawPayload_Exact r : StdExact (RawPayload_codec r).
Proof.
  split; cbn [CDecode CEncode RawPayload_codec]. intros p x. unfold RawPayload.Decode, RawPayload.Encode.
  destruct (_ <? _) eqn:E1; [done|]. destruct (RawPayload.MaxLen r <? _) eqn:E2; [done|]. intros [= <-].
  by rewrite E1, E2.
Qed.

(** The text shown is the text written without the padding at its end. *)
Definition same_text (c : CHARText.t) (v x : any) : Prop :=
  exists data kept pad, (v = VBytes data \/ v = VString data) /\ data = kept ++ pad /\
    forallb (CHARText.is_padding c) pad = true /\ (forall b, last kept = Some b -> CHARText.is_padding c b = false) /\
    x = VString (kept ≫= CHARText.display_byte).

Lemma display_end_spec c raw n : (n <= length raw)%nat ->
  (CHARText.display_end c raw n <= n)%nat /\
  forallb (CHARText.is_padding c) (drop (CHARText.display_end c raw n) (take n raw)) = true /\
  (forall b, last (take (CHARText.display_end c raw n) raw) = Some b -> CHARText.is_padding c b = false).
Proof.
  induction n as [|n IH]; intros Hn; cbn [CHARText.display_end]; [by split_and!|].
  destruct (lookup_lt_is_Some_2 raw n ltac:(lia)) as [b Hb]. rewrite Hb.
  destruct (IH ltac:(lia)) as (H1 & H2 & H3). destruct (CHARText.is_padding c b) eqn:Ep.
  - split_and!; [lia| |done]. rewrite (take_S_r _ _ b Hb), drop_app_le by (rewrite length_take; lia).
    rewrite forallb_app, H2. cbn. by rewrite Ep.
  - split_and!; [lia|by rewrite drop_ge by (rewrite length_take; lia)|].
    intros b'. rewrite (take_S_r _ _ b Hb), last_snoc. intros [= <-]. done.
Qed.

(** There is one way to cut the padding off the end. *)
Lemma padding_split (P : byte -> bool) k1 p1 k2 p2 :
  k1 ++ p1 = k2 ++ p2 -> forallb P p1 = true -> forallb P p2 = true ->
  (forall b, last k1 = Some b -> P b = false) -> (forall b, last k2 = Some b -> P b = false) -> k1 = k2.
Proof.
  assert (forall k p s q, k ++ p = (k ++ s) ++ q -> forallb P p = true -> (forall b, last (k ++ s) = Some b -> P b = false) -> s = []) as H.
  { intros k p s q He Hp Hl. rewrite <- app_assoc in He. apply app_inv_head in He as ->.
    destruct s as [|b s] using rev_ind; [done|]. rewrite app_assoc, last_snoc in Hl. specialize (Hl b eq_refl).
    rewrite !forallb_app, !andb_true_iff in Hp. cbn in Hp. rewrite Hl in Hp. naive_solver. }
  intros He Hp1 Hp2 Hk1 Hk2. destruct (app_eq_inv _ _ _ _ He) as [(s & E1 & E2)|(s & E1 & E2)]; subst.
  - assert (s = []) as ->; [|by rewrite app_nil_r]. by eapply (H k2 (s ++ p1) s p1).
  - assert (s = []) as ->; [|by rewrite app_nil_r]. by eapply (H k1 (s ++ p2) s p2).
Qed.

Lemma display_split c kept pad :
  forallb (CHARText.is_padding c) pad = true -> (forall b, last kept = Some b -> CHARText.is_padding c b = false) ->
  take (CHARText.display_end c (kept ++ pad) (length (kept ++ pad))) (kept ++ pad) = kept.
Proof.
  intros Hp Hk. destruct (display_end_spec c (kept ++ pad) (length (kept ++ pad)) ltac:(done)) as (_ & H2 & H3).
  rewrite (take_ge (kept ++ pad) (length _)) in H2 by done.
  eapply (padding_split (CHARText.is_padding c)); [|exact H2|exact Hp|exact H3|exact Hk]. apply take_drop.
Qed.

#[export] Instance CHARText_Lawful c : 0 < CHARText.Width c -> StdLawful (CHARText_codec c) (same_text c).
Proof.
  intros Hw. split; cbn [CDecode CEncode CHARText_codec]; unfold CHARText.Decode, CHARText.Encode;
    rewrite (proj2 (Z.leb_gt _ _)) by lia.
  - intros p. repeat case_match; outcomes.
  - intros v bs _. set (pad := match CHARText.Pad c with Some p => p | None => x20 end).
    assert (CHARText.is_padding c pad = true) as Hpad.
    { unfold CHARText.is_padding, pad. destruct (CHARText.Pad c); [apply byte_eqb_refl|done]. }
    assert (forall data, (v = VBytes data \/ v = VString data) ->
      (if CHARText.Width c <? len data then refused ErrCodeFixedWidthExceeded "CHARText input longer than Width"
       else Ok (data ++ replicate (Z.to_nat (CHARText.Width c) - length data) pad)) = Ok bs -> len bs = CHARText.Width c /\
      same_text c v (VString (take (CHARText.display_end c bs (length bs)) bs ≫= CHARText.display_byte))) as H.
    { intros data Hv. destruct (Z.ltb_spec (CHARText.Width c) (len data)); [done|]. intros [= <-]. unfold len in *.
      split; [rewrite length_app, length_replicate; lia|].
      destruct (display_end_spec c data (length data) ltac:(done)) as (H1 & H2 & H3).
      rewrite (take_ge data (length data)) in H2 by done. set (n := CHARText.display_end c data (length data)) in *.
      exists data, (take n data), (drop n data). split_and!; [done|by rewrite take_drop|done|done|]. do 2 f_equal.
      match goal with |- context [data ++ ?r] => assert (data ++ r = take n data ++ (drop n data ++ r)) as -> by (by rewrite app_assoc, take_drop) end.
      apply display_split; [|done].
      rewrite forallb_app, H2. cbn. apply forallb_forall. intros b [-> _]%list_elem_of_In%elem_of_replicate. done. }
    destruct v as [| | | | | | | | | | | | | |data| |data|]; try done; intros He;
      (destruct (H data ltac:(auto) He) as [Hlen Hs]; eexists; split; [|exact Hs];
       rewrite (proj2 (Z.ltb_ge _ _)), (proj2 (Z.ltb_ge _ _)) by lia; done).
Qed.

(** ** DATA1c *)

(** The half units written are exactly those read, as numbers. *)
Definition same_halves (v x : any) : Prop :=
  exists f k, std_toFloat64 v = Some f /\ 0 <= k <= 254 /\ x = VFloat64 (f64_div (f64_of_Z k) DATA1c.two) /\
    float_eqb (f64_div (f64_of_Z k) DATA1c.two) f = true.

Lemma std_toFloat64_valid v f : any_ok v = true -> std_toFloat64 v = Some f -> valid_binary 53 1024 f = true.
Proof.
  destruct v; try done; unfold std_toFloat64, std_toInt64; cbn [toInt64]; intros Hv;
    try (intros [= <-]; first [apply f64_of_Z_valid|apply f64_of_f32_valid|done]);
    destruct (_ <? _); try done; intros [= <-]; apply f64_of_Z_valid.
Qed.

(** A positive half unit in range: its mantissa and exponent are those of an
    integer up to 254, halved. *)
Lemma half_unit m e : bounded 53 1024 m e = true ->
  float_ltb DATA1c.maximum (S754_finite false m e) = false ->
  has_fraction (f64_mul (S754_finite false m e) DATA1c.two) = false ->
  exists k, 0 < k <= 254 /\ int_of_float (f64_mul (S754_finite false m e) DATA1c.two) = k /\
    f64_div (f64_of_Z k) DATA1c.two = S754_finite false m e.
Proof.
  change DATA1c.maximum with (S754_finite false 8936830510563328 (-46)). intros Hb Hmax.
  assert (e < -46 \/ e = -46 /\ Zpos m <= 8936830510563328) as He.
  { revert Hmax. unfold float_ltb, SFltb, SFcompare. destruct (Z.compare_spec (-46) e); [|done|left; lia].
    change (Pcompare ?a ?b Eq) with (Z.compare (Zpos a) (Zpos b)).
    destruct (Z.compare_spec 8936830510563328 (Zpos m)); [intros _; right; lia|done|intros _; right; lia]. }
  unfold DATA1c.two. rewrite (double_exact false m e Hb) by lia.
  destruct (f64_bounds m e Hb) as [[Hl Hr]|[Hl ->]].
  - rewrite Hl. cbn [Z.eqb Pos.eqb]. cbn [has_fraction int_of_float]. rewrite (proj2 (Z.ltb_lt _ _)) by lia.
    cbn [andb]. rewrite negb_false_iff, Z.eqb_eq, (proj2 (Z.leb_gt _ _)) by lia.
    set (d := - (e + 1)). pose proof (Z.pow_pos_nonneg 2 d ltac:(lia) ltac:(lia)) as Hd. intros Hm.
    pose proof (Z.div_mod (Zpos m) (2 ^ d) ltac:(lia)) as Hk. rewrite Hm, Z.add_0_r, Z.mul_comm in Hk.
    set (k := Zpos m / 2 ^ d) in *. assert (0 < k) as Hk0 by (apply Z.lt_nge; intros ?; nia).
    destruct k as [|p|p] eqn:Ek; [lia| |lia].
    assert (Z.log2 (Zpos p) + d = 52) as Hlog by (rewrite <- Hl, Hk, Z.log2_mul_pow2; lia).
    assert (mantissa64 p = m) as Hmant.
    { apply Pos2Z.inj. rewrite mantissa64_val by lia. rewrite Hk. do 2 f_equal. lia. }
    exists (Zpos p). split; [split; [lia|]|split; [done|]].
    + destruct He as [He|[-> He]].
      * assert (Zpos p < 2 ^ 7); [|lia]. apply Z.log2_lt_pow2; lia.
      * assert (Zpos m <= 127 * 2 ^ 46) as Hm127 by lia.
        rewrite Hk in Hm127. change (2 ^ d) with (2 ^ 45) in Hm127. lia.
    + unfold f64_of_Z at 1. cbn [binary_normalize]. rewrite (round64_int p), f64_two by lia.
      unfold f64_div. change (-51) with (1 - 52). rewrite div_pow2, Hmant by lia. f_equal. lia.
  - rewrite (proj2 (Z.eqb_neq _ _)) by lia. cbn [has_fraction]. rewrite (proj2 (Z.ltb_lt _ _)) by lia. cbn [andb].
    rewrite negb_false_iff, Z.eqb_eq, Z.mod_small; [done|]. split; [lia|].
    change (- -1074) with 1074. transitivity (2 ^ 53); [|reflexivity]. apply Z.log2_lt_pow2; [lia|].
    rewrite (Pos2Z.inj_xO m), Z.log2_double by lia. lia.
Qed.

Lemma DATA1c_decodes k : 0 <= k <= 254 ->
  DATA1c.Decode [b8 k] = usable [b8 k] (VFloat64 (f64_div (f64_of_Z k) DATA1c.two)).
Proof.
  intros Hk. cbn [DATA1c.Decode]. rewrite u8_b8_small by lia. destruct (byte_eqb_spec (b8 k) xff) as [E|]; [|done].
  apply (f_equal u8) in E. rewrite u8_b8_small in E by lia. change (u8 xff) with 255 in E. lia.
Qed.

#[export] Instance DATA1c_Lawful : StdLawful DATA1c_codec same_halves.
Proof.
  split; cbn [CDecode CEncode DATA1c_codec].
  - intros [|b [|c p]]; cbn [DATA1c.Decode]; [outcomes|case_match; outcomes|outcomes].
  - intros v bs Hv. unfold DATA1c.Encode. destruct (std_toFloat64 v) as [f|] eqn:Hf; [|done].
    pose proof (std_toFloat64_valid v f Hv Hf) as Hvalid. destruct (IsNaN f || IsInf f) eqn:Hn; [done|].
    destruct (float_ltb f (f64_of_Z 0)) eqn:Hneg; [done|]. destruct (float_ltb DATA1c.maximum f) eqn:Hmax; [by case_match|].
    cbv zeta. destruct (has_fraction _) eqn:Hfrac; [done|]. destruct (float_eqb _ _) eqn:H255; [done|]. intros [= <-].
    assert (exists k, 0 <= k <= 254 /\ int_of_float (f64_mul f DATA1c.two) = k /\
      float_eqb (f64_div (f64_of_Z k) DATA1c.two) f = true) as (k & Hk & -> & Heq).
    { destruct f as [s|s| |s m e]; [|done|done|].
      - exists 0. destruct s; split_and!; done.
      - destruct s; [done|]. destruct (half_unit m e Hvalid Hmax Hfrac) as (k & Hk & Hi & Hd).
        exists k. rewrite Hd. split_and!; [lia|lia|done|apply float_eqb_refl]. }
    eexists. split; [by apply DATA1c_decodes|]. by exists f, k.
Qed.

#[export] Instance DATA1c_Exact : StdExact DATA1c_codec.
Proof.
  split; cbn [CDecode CEncode DATA1c_codec]. intros [|b [|c p]] x; try done. intros H.
  assert (forall b, match DATA1c.Decode [b] with
    | mkStd _ (Some x) true _ _ => any_ok x && bool_decide (DATA1c.Encode x = Ok [b]) | _ => true end = true) as HF.
  { clear. intros b. byte_cases b. }
  specialize (HF b). rewrite H in HF. by apply andb_true_iff in HF as [? ?%bool_decide_eq_true_1].
Qed.
