(* ===== verification/StdSpec.v ===== *)
(** What protocol/ebus_standard/types promises: the contract of the primitive
    codecs, the composite decimal as its components decoded one by one, and the
    branch selector as the search for the one branch that fits.

    Then the selector of branches. *)

From S2P Require Import Prelude Float Values ValueLaws StdTypes StdLaws.
#[local] Open Scope Z_scope.

(** The primitives the package exports as codecs, text fields of positive width. *)
Inductive primitive : Codec -> (any -> any -> Prop) -> Prop :=
| primitive_BYTE : primitive BYTE_codec same_int
| primitive_CHAR : primitive CHAR_codec same_int
| primitive_CHARSigned : primitive CHARSigned_codec same_int
| primitive_CHARText c : 0 < CHARText.Width c -> primitive (CHARText_codec c) (same_text c)
| primitive_BCD : primitive BCD_codec same_int
| primitive_DATA1c : primitive DATA1c_codec same_halves
| primitive_RawPayload r : primitive (RawPayload_codec r) same_bytes.

Lemma primitive_lawful C shown : primitive C shown -> StdLawful C shown.
Proof. destruct 1; try apply _. by apply CHARText_Lawful. Qed.

(** The primitives that lose nothing: all but text, whose padding is not shown. *)
Inductive exact : Codec -> Prop :=
| exact_BYTE : exact BYTE_codec
| exact_CHAR : exact CHAR_codec
| exact_CHARSigned : exact CHARSigned_codec
| exact_BCD : exact BCD_codec
| exact_DATA1c : exact DATA1c_codec
| exact_RawPayload r : exact (RawPayload_codec r).

Lemma exact_lawful C : exact C -> StdExact C.
Proof. destruct 1; apply _. Qed.

(** whatever the payload, a primitive keeps it in [Raw] and reports
    exactly one of a usable value, a replacement and an error: [Valid] exactly
    when there is a value, and never together with [Replacement] or [Err]. *)
Theorem decode_contract C shown p :
  primitive C shown ->
  let v := CDecode C p in
  Raw v = p /\ (Valid v = true <-> is_Some (Content v)) /\
  (Valid v = true /\ Replacement v = false /\ SErr v = None \/
   Valid v = false /\ Replacement v = true /\ SErr v = None \/
   Valid v = false /\ Replacement v = false /\ is_Some (SErr v)).
Proof.
  intros HL%primitive_lawful v. destruct (std_outcome p) as [[x H]|[H|(c & msg & H)]]; unfold v; rewrite H; cbn;
    split_and!; try done; naive_solver.
Qed.

Lemma decode_contract_witness :
  primitive DATA1c_codec same_halves /\
  (let v := CDecode DATA1c_codec [xff] in
   Raw v = [xff] /\ (Valid v = true <-> is_Some (Content v)) /\
   (Valid v = true /\ Replacement v = false /\ SErr v = None \/
    Valid v = false /\ Replacement v = true /\ SErr v = None \/
    Valid v = false /\ Replacement v = false /\ is_Some (SErr v))).
Proof. split; [constructor|apply (decode_contract DATA1c_codec same_halves [xff]); constructor]. Defined.

(** what a primitive encodes is never a replacement: it decodes to
    a usable value that shows what was written, the same integer, the same
    number of half units exactly, the same bytes, or the text without the padding
    at its end. *)
Theorem encode_reads_back C shown v bs :
  primitive C shown -> any_ok v = true -> CEncode C v = Ok bs ->
  exists x, CDecode C bs = usable bs x /\ shown v x.
Proof. intros HL%primitive_lawful. apply std_encode. Qed.

Definition half_of (n : Z) : any := VFloat64 (f64_div (f64_of_Z n) (f64_of_Z 2)).

Lemma encode_reads_back_witness :
  (primitive DATA1c_codec same_halves /\ any_ok (half_of 43) = true /\ CEncode DATA1c_codec (half_of 43) = Ok [x2b]) /\
  exists x, CDecode DATA1c_codec [x2b] = usable [x2b] x /\ same_halves (half_of 43) x.
Proof.
  split; [split_and!; [constructor|reflexivity|reflexivity]|].
  apply (encode_reads_back DATA1c_codec same_halves (half_of 43) [x2b]); [constructor|reflexivity|reflexivity].
Defined.

(** a payload that decodes to a usable value of any primitive but
    text is exactly what that value encodes to. *)
Theorem exact_reencodes C p x :
  exact C -> CDecode C p = usable p x -> any_ok x = true /\ CEncode C x = Ok p.
Proof. intros HL%exact_lawful. apply std_exact. Qed.

Lemma exact_reencodes_witness :
  (exact BCD_codec /\ CDecode BCD_codec [x42] = usable [x42] (VInt 42)) /\
  (any_ok (VInt 42) = true /\ CEncode BCD_codec (VInt 42) = Ok [x42]).
Proof.
  split; [split; [constructor|reflexivity]|]. apply (exact_reencodes BCD_codec [x42] (VInt 42)); [constructor|reflexivity].
Defined.

(** the display string of a text field does not tell an escaped byte
    from the same escape written out: two fields of one width show alike. *)
Theorem display_is_ambiguous :
  let c := CHARText.mk 4 None in
  Content (CHARText.Decode c [x01; x20; x20; x20]) = Content (CHARText.Decode c [x5c; x78; x30; x31]) /\
  Valid (CHARText.Decode c [x01; x20; x20; x20]) = true.
Proof. split; reflexivity. Qed.

(** ** The composite decimal *)

Definition components (p : list byte) : list (StdValue any) := (fun b => decodeSingleBCD b [b]) <$> p.

Lemma scan_spec p st :
  let st' := foldl BCDComposite.step st p in
  BCDComposite.parts st' = BCDComposite.parts st ++ components p /\
  BCDComposite.anyInvalid st' = BCDComposite.anyInvalid st || existsb IsError (components p) /\
  BCDComposite.anyReplacement st' = BCDComposite.anyReplacement st || existsb Replacement (components p) /\
  BCDComposite.firstErr st' =
    match BCDComposite.firstErr st with Some e => Some e | None => head (omap SErr (components p)) end.
Proof.
  revert st. induction p as [|b p IH]; intros st; cbn [foldl].
  - cbn. rewrite app_nil_r, !orb_false_r. by destruct (BCDComposite.firstErr st).
  - specialize (IH (BCDComposite.step st b)). cbv zeta in IH. destruct IH as (-> & -> & -> & ->).
    change (components (b :: p)) with (decodeSingleBCD b [b] :: components p).
    unfold BCDComposite.step. set (v := decodeSingleBCD b [b]). cbn [existsb omap list_omap].
    unfold IsError at 2. destruct (SErr v) as [e|] eqn:He, (Replacement v) eqn:Hr; cbn;
      rewrite <- ?app_assoc, ?orb_true_r, ?orb_false_r; cbn; destruct (BCDComposite.firstErr st); split_and!; try done.
Qed.

Lemma outcome_flags b :
  let v := decodeSingleBCD b [b] in Valid v = negb (IsError v) && negb (Replacement v).
Proof. destruct (decodeSingleBCD_outcome b [b]) as [[x ->]|[-> |(c & msg & ->)]]; done. Qed.

(** a composite decimal of the right length is its bytes decoded one
    by one: it is valid exactly when every component is, an error is the first
    component's error and beats a replacement, and the components are given in
    every case, also when the composite is not valid. *)
Theorem composite_is_components Components p :
  len p = len Components ->
  let v := BCDComposite.Decode Components p in
  Raw v = p /\ Content v = Some (components p) /\
  Valid v = forallb Valid (components p) /\ SErr v = head (omap SErr (components p)) /\
  (Replacement v = true <-> SErr v = None /\ existsb Replacement (components p) = true).
Proof.
  intros Hl. unfold BCDComposite.Decode. rewrite Hl, Z.ltb_irrefl. cbv zeta.
  destruct (scan_spec p (BCDComposite.mkScan [] None false false)) as (Hp & Hi & Hr & Hf).
  set (st := foldl _ _ _) in *. cbn [orb app BCDComposite.parts BCDComposite.firstErr BCDComposite.anyInvalid BCDComposite.anyReplacement] in *.
  assert (forallb Valid (components p) = negb (existsb IsError (components p)) && negb (existsb Replacement (components p)) /\
    (existsb IsError (components p) = false <-> head (omap SErr (components p)) = None)) as (Hv & He).
  { clear. induction p as [|b p (IH1 & IH2)]; [done|].
    change (components (b :: p)) with (decodeSingleBCD b [b] :: components p).
    pose proof (outcome_flags b) as Hb. cbv zeta in Hb. set (v := decodeSingleBCD b [b]) in *.
    cbn [forallb existsb omap list_omap]. rewrite Hb, IH1. unfold IsError in *.
    destruct (SErr v); cbn; [by split|]. split; [|done]. by destruct (Replacement v), (existsb _ _), (existsb _ _). }
  rewrite Hp, Hi, Hr, Hf. rewrite Hv.
  destruct (existsb IsError (components p)) eqn:EI; cbn [SErr Raw Content Valid Replacement].
  - destruct (head (omap SErr (components p))) eqn:EH; [|naive_solver]. split_and!; try done; naive_solver.
  - rewrite (proj1 He eq_refl). destruct (existsb Replacement (components p)) eqn:ER; cbn; split_and!; try done; naive_solver.
Qed.

Lemma composite_is_components_witness :
  len [x12; xff; x3a] = len ["hours"; "minutes"; "seconds"] /\
  (let v := BCDComposite.Decode ["hours"; "minutes"; "seconds"] [x12; xff; x3a] in
   Raw v = [x12; xff; x3a] /\ Content v = Some (components [x12; xff; x3a]) /\
   Valid v = forallb Valid (components [x12; xff; x3a]) /\ SErr v = head (omap SErr (components [x12; xff; x3a])) /\
   (Replacement v = true <-> SErr v = None /\ existsb Replacement (components [x12; xff; x3a]) = true)).
Proof. split; [reflexivity|]. apply (composite_is_components ["hours"; "minutes"; "seconds"] [x12; xff; x3a]). reflexivity. Defined.

Lemma encode_components_spec ints bs :
  BCDComposite.encode_components ints = Ok bs ->
  length bs = length ints /\ components bs = zip_with (fun b i => usable [b] (VInt i)) bs ints.
Proof.
  revert bs. induction ints as [|i ints IH]; intros bs; cbn [BCDComposite.encode_components]; [by intros [= <-]|].
  destruct (_ || _) eqn:E; [done|]. apply orb_false_iff in E as [E1%Z.ltb_ge E2%Z.ltb_ge].
  destruct (BCDComposite.encode_components ints) as [out|]; [|done]. intros [= <-].
  destruct (IH out eq_refl) as [Hl Hc]. split; [cbn; lia|].
  change (components (bcd_byte i :: out)) with (decodeSingleBCD (bcd_byte i) [bcd_byte i] :: components out).
  cbn [zip_with]. by rewrite Hc, bcd_byte_decodes by lia.
Qed.

(** the integers a composite encodes are the contents of the
    components it decodes to, all of them valid. *)
Theorem composite_round_trip Components ints bs :
  BCDComposite.Encode Components (VInts ints) = Ok bs ->
  BCDComposite.Decode Components bs = usable bs (zip_with (fun b i => usable [b] (VInt i)) bs ints) /\ length bs = length ints.
Proof.
  unfold BCDComposite.Encode. destruct (negb _) eqn:Hl; [done|]. apply negb_false_iff, Z.eqb_eq in Hl.
  intros (Hlen & Hc)%encode_components_spec. split; [|done].
  assert (len bs = len Components) as Hb by (unfold len in *; lia). unfold BCDComposite.Decode. rewrite Hb, Z.ltb_irrefl. cbv zeta.
  destruct (scan_spec bs (BCDComposite.mkScan [] None false false)) as (Hp & Hi & Hr & Hf).
  set (st := foldl _ _ _) in *. cbn [orb app BCDComposite.parts BCDComposite.firstErr BCDComposite.anyInvalid BCDComposite.anyReplacement] in *.
  rewrite Hp, Hi, Hr, Hc. clear. revert ints. induction bs as [|b bs IH]; intros [|i ints]; try done.
  cbn [zip_with existsb]. specialize (IH ints). unfold IsError in *. cbn in *.
  destruct (existsb _ _); [done|]. by destruct (existsb _ _).
Qed.

Lemma composite_round_trip_witness :
  BCDComposite.Encode ["day"; "month"] (VInts [31; 12]) = Ok [x31; x12] /\
  (BCDComposite.Decode ["day"; "month"] [x31; x12] =
     usable [x31; x12] (zip_with (fun b i => usable [b] (VInt i)) [x31; x12] [31; 12]) /\
   length [x31; x12] = length [31; 12]).
Proof. split; [reflexivity|]. apply (composite_round_trip ["day"; "month"] [31; 12] [x31; x12]). reflexivity. Defined.

(** * The branch selector

    The branch selector of protocol/ebus_standard/types against its contract:
    the one branch whose window holds the declared length and whose predicate
    accepts, whatever the order of the branches. *)

(** What a caller acts on: the code of the error, or the branch. *)
Definition verdict (r : SelectorResult) : ErrorCode + string :=
  match SelErr r with Some e => inl (Code e) | None => inr (Selected r) end.

Definition accepts (input : SelectorInput) (br : Branch) : bool :=
  match Match br with None => true | Some f => f input end.

Definition fitting (Branches : list Branch) (nn : Z) : list Branch := filter (fun br => in_window nn br = true) Branches.

(** The contract: the window first, the buffer next, the predicates last. *)
Definition select_spec (Branches : list Branch) (input : SelectorInput) : ErrorCode + string :=
  let nn := LengthPrefix input in
  let fit := fitting Branches nn in
  if bool_decide (fit = []) then
    if bool_decide (Branches = []) then inl ErrCodeUnknownSelector
    else if forallb (fun br => nn <? BMinLen br) Branches then inl ErrCodeTruncatedPayload
    else if forallb (fun br => BMaxLen br <? nn) Branches then inl ErrCodeOverlongPayload
    else inl ErrCodeUnknownSelector
  else if len (Payload input) <? nn then inl ErrCodeTruncatedPayload
  else
    match filter (fun br => accepts input br = true) fit with
    | [] => inl ErrCodeUnknownSelector
    | [br] => if AllowsRawTail br || negb (nn <? len (Payload input)) then inr (Name br) else inl ErrCodeOverlongPayload
    | _ => inl ErrCodeAmbiguousSelector
    end.

Lemma fitting_min Branches nn br : br ∈ fitting Branches nn -> BMinLen br <= nn <= BMaxLen br.
Proof.
  unfold fitting. intros [H _]%list_elem_of_filter. unfold in_window in H.
  apply andb_true_iff in H as [H1%negb_true_iff%Z.ltb_ge H2%negb_true_iff%Z.ltb_ge]. lia.
Qed.

(** With the whole declared length in the buffer the loop collects what the
    predicates accept; without it, it either stops or collects everything. *)
Lemma match_loop_full input fit acc :
  LengthPrefix input <= len (Payload input) -> (forall br, br ∈ fit -> BMinLen br <= LengthPrefix input) ->
  match_loop input fit acc = inr (acc ++ filter (fun br => accepts input br = true) fit).
Proof.
  intros Hp. revert acc. induction fit as [|br fit IH]; intros acc Hmin; [by rewrite app_nil_r|].
  assert (forall br', br' ∈ fit -> BMinLen br' <= LengthPrefix input) as Hmin' by (intros; apply Hmin; by right).
  pose proof (Hmin br ltac:(by left)). cbn [match_loop]. rewrite filter_cons.
  destruct (Match br) as [f|] eqn:Hm.
  - assert (accepts input br = f input) as -> by (unfold accepts; by rewrite Hm). rewrite !(proj2 (Z.ltb_ge _ _)) by lia. destruct (f input) eqn:Hf; rewrite IH by done.
    + rewrite decide_True by done. by rewrite <- app_assoc.
    + by rewrite decide_False by done.
  - assert (accepts input br = true) as -> by (unfold accepts; by rewrite Hm).
    rewrite IH by done. rewrite decide_True by done. by rewrite <- app_assoc.
Qed.

Lemma match_loop_short input fit acc :
  len (Payload input) < LengthPrefix input ->
  (exists r, match_loop input fit acc = inl r /\ verdict r = inl ErrCodeTruncatedPayload) \/
  match_loop input fit acc = inr (acc ++ fit).
Proof.
  intros Hp. revert acc. induction fit as [|br fit IH]; intros acc; cbn [match_loop]; [right; by rewrite app_nil_r|].
  destruct (Match br) as [f|].
  - left. destruct (_ <? BMinLen br); [by eexists|]. rewrite (proj2 (Z.ltb_lt _ _)) by done. by eexists.
  - destruct (IH (acc ++ [br])) as [?|H]; [by left|right]. by rewrite H, <- app_assoc.
Qed.

Lemma Select_verdict Branches input : verdict (Select Branches input) = select_spec Branches input.
Proof.
  unfold Select, select_spec. fold (fitting Branches (LengthPrefix input)).
  set (nn := LengthPrefix input) in *. case_bool_decide as Hfit.
  - case_bool_decide as Hb; [by rewrite Hb|]. assert ((0 <? len Branches) = true) as ->.
    { apply Z.ltb_lt. destruct Branches; [done|]. rewrite len_cons. pose proof (len_nonneg Branches). lia. }
    cbn [andb].
    assert (forall f g : Branch -> bool, (forall br, f br = g br) -> forallb f Branches = forallb g Branches) as Hext.
    { intros f g Hfg. clear -Hfg. induction Branches; cbn; congruence. }
    rewrite (Hext (fun br => negb (BMinLen br <=? nn)) (fun br => nn <? BMinLen br)) by (intros br; by rewrite Z.ltb_antisym).
    rewrite (Hext (fun br => negb (nn <=? BMaxLen br)) (fun br => BMaxLen br <? nn)) by (intros br; by rewrite Z.ltb_antisym).
    by repeat case_match.
  - destruct (Z.ltb_spec (len (Payload input)) nn) as [Hs|Hs].
    + destruct (match_loop_short input (fitting Branches nn) [] Hs) as [(r & -> & Hr)| ->]; [done|]. cbn [app].
      destruct (fitting Branches nn) as [|br fit]; [done|]. rewrite len_cons.
      rewrite (proj2 (Z.ltb_lt 0 _)) by (pose proof (len_nonneg fit); lia). done.
    + rewrite match_loop_full; [|done|intros br [Hbr _]%fitting_min; exact Hbr]. cbn [app].
      rewrite andb_false_r. destruct (filter _ (fitting Branches nn)) as [|br [|br' l]]; [done| |done].
      by destruct (AllowsRawTail br), (nn <? len (Payload input)).
Qed.

#[export] Instance fitting_Permutation : Proper ((≡ₚ) ==> (=) ==> (≡ₚ)) fitting.
Proof. intros l l' H nn ? <-. unfold fitting. by rewrite H. Qed.

Lemma Permutation_nil_decide {A} (l l' : list A) : l ≡ₚ l' -> (l = [] <-> l' = []).
Proof. intros H. split; intros ->; [by apply Permutation_nil_l in H|by apply Permutation_nil_r in H]. Qed.

Lemma select_spec_Permutation l l' input : l ≡ₚ l' -> select_spec l input = select_spec l' input.
Proof.
  intros HP. unfold select_spec.
  pose proof (fitting_Permutation l l' HP _ _ eq_refl : fitting l (LengthPrefix input) ≡ₚ _) as HF.
  rewrite (bool_decide_ext _ _ (Permutation_nil_decide _ _ HF)), (bool_decide_ext _ _ (Permutation_nil_decide _ _ HP)).
  assert (forall f : Branch -> bool, forallb f l = forallb f l') as Hall.
  { intros f. apply eq_true_iff_eq. rewrite !forallb_forall. by setoid_rewrite <- list_elem_of_In; setoid_rewrite HP. }
  rewrite !Hall.
  assert (filter (fun br => accepts input br = true) (fitting l (LengthPrefix input)) ≡ₚ
    filter (fun br => accepts input br = true) (fitting l' (LengthPrefix input))) as HA by by rewrite HF.
  destruct (filter _ (fitting l _)) as [|a [|b k]].
  - apply Permutation_nil_l in HA as <-. done.
  - apply Permutation_singleton_l in HA as <-. done.
  - pose proof (Permutation_length HA) as Hlen. destruct (filter _ (fitting l' _)) as [|a' [|b' k']]; done.
Qed.

(** [Select] meets its contract: no branch holds the declared length
    (then whether it is too short or too long for all of them, or neither), the
    buffer is shorter than the declared length, no or several branches accept,
    or the one that accepts is the result unless the buffer carries a tail it
    does not allow. *)
Theorem Select_meets_contract Branches input : verdict (Select Branches input) = select_spec Branches input.
Proof. apply Select_verdict. Qed.

(** the verdict depends on the set of branches only: any order of
    the catalog selects the same branch or fails with the same code. *)
Theorem Select_order_independent Branches Branches' input :
  Branches ≡ₚ Branches' -> verdict (Select Branches input) = verdict (Select Branches' input).
Proof. intros HP. rewrite !Select_verdict. by apply select_spec_Permutation. Qed.

Definition catalog : list Branch :=
  [mkBranch "short" 1 2 false None; mkBranch "long" 3 4 true (Some (fun i => bool_decide (head (Payload i) = Some x07)))].

Lemma Select_order_independent_witness :
  (catalog ≡ₚ reverse catalog) /\
  verdict (Select catalog (mkInput x07 x04 "request" "initiator" 3 [x07; x00; x01] "d")) =
  verdict (Select (reverse catalog) (mkInput x07 x04 "request" "initiator" 3 [x07; x00; x01] "d")).
Proof.
  assert (catalog ≡ₚ reverse catalog) as H by (symmetry; apply reverse_Permutation).
  split; [exact H|]. exact (Select_order_independent catalog (reverse catalog) _ H).
Defined.
