(* ===== verification/B503.v ===== *)
(** The Vaillant B503 service of protocol/vaillant/b503: the catalog of request
    tuples and their invoke-safety classes, the request encoder that refuses
    writes of the installer, and the decoders of the responses.

    An array of five [uint16] is a list of integers; an error is the sentinel it
    wraps with the values its text shows. *)

From S2P Require Import Prelude Values ValueLaws.
#[local] Open Scope Z_scope.

(** ** Errors *)

Inductive b503_error :=
| ErrInstallWriteForbidden (family selector : byte)
| ErrUnknownSelector (family selector : byte)
| ErrShortPayload (what : string) (wants got : Z)
| ErrWrongPayloadLen (what : string) (wants got : Z).

(** ** Safety classes *)

Inductive InvokeSafety := SafetyRead | SafetyServiceWrite | SafetyInstallWrite.

#[export] Instance InvokeSafety_eq_dec : EqDecision InvokeSafety.
Proof. solve_decision. Defined.

Definition InvokeSafety_String (s : InvokeSafety) : string :=
  match s with
  | SafetyRead => "READ"
  | SafetyServiceWrite => "SERVICE_WRITE"
  | SafetyInstallWrite => "INSTALL_WRITE"
  end.

Definition selectorKey (family selector : byte) : Z := Z.lor (wrap 16 (Z.shiftl (u8 family) 8)) (u8 selector).

Definition catalog : gmap Z InvokeSafety :=
  list_to_map
    [(selectorKey x00 x01, SafetyRead); (selectorKey x01 x01, SafetyRead); (selectorKey x02 x01, SafetyInstallWrite);
     (selectorKey x00 x02, SafetyRead); (selectorKey x01 x02, SafetyRead); (selectorKey x02 x02, SafetyInstallWrite);
     (selectorKey x00 x03, SafetyServiceWrite)].

Definition Safety (family selector : byte) : option InvokeSafety := catalog !! selectorKey family selector.

(** ** Requests *)

Definition EncodeRequest (family selector : byte) : result b503_error (list byte) :=
  match Safety family selector with
  | None => Err (ErrUnknownSelector family selector)
  | Some safety =>
      if bool_decide (safety = SafetyInstallWrite) then Err (ErrInstallWriteForbidden family selector)
      else Ok [family; selector]
  end.

(** [None] is the panic. *)
Definition mustEncode (family selector : byte) : option (list byte) :=
  match EncodeRequest family selector with
  | Err _ => None
  | Ok b => Some b
  end.

Definition EncodeCurrentError : option (list byte) := mustEncode x00 x01.
Definition EncodeErrorHistory : option (list byte) := mustEncode x01 x01.
Definition EncodeCurrentService : option (list byte) := mustEncode x00 x02.
Definition EncodeServiceHistory : option (list byte) := mustEncode x01 x02.
Definition EncodeLiveMonitorMain : option (list byte) := mustEncode x00 x03.

(** ** Responses *)

Definition EmptySlot : Z := 0xFFFF.
Definition slotCount : Z := 5.
Definition slotPayloadLen : Z := slotCount * 2.

Record ErrorSlots := mkErrorSlots { Slots : list Z }.
Record ErrorHistoryRecord := mkRecord { Index : Z; RSlots : list Z }.
Record LiveMonitorStatus := mkStatus { Status : byte; Function_ : byte; Reserved : list byte }.

Fixpoint scan_slots (slots : list Z) : Z * bool :=
  match slots with
  | [] => (0, false)
  | s :: slots' => if negb (s =? EmptySlot) then (s, true) else scan_slots slots'
  end.

Definition ErrorSlots_FirstActive (e : ErrorSlots) : Z * bool := scan_slots (Slots e).
Definition ErrorHistoryRecord_FirstActive (r : ErrorHistoryRecord) : Z * bool := scan_slots (RSlots r).

Definition decodeSlots (payload : list byte) : list Z :=
  (fun i => le16 (slice_from (i * 2) (slice_to (i * 2 + 2) payload))) <$> seqZ 0 slotCount.

Definition check_len (what : string) (wants : Z) (payload : list byte) : option b503_error :=
  if negb (len payload =? wants) then
    if len payload <? wants then Some (ErrShortPayload what wants (len payload))
    else Some (ErrWrongPayloadLen what wants (len payload))
  else None.

Definition DecodeCurrentError (payload : list byte) : result b503_error ErrorSlots :=
  match check_len "Currenterror" slotPayloadLen payload with
  | Some e => Err e
  | None => Ok (mkErrorSlots (decodeSlots payload))
  end.

Definition DecodeCurrentService (payload : list byte) : result b503_error ErrorSlots :=
  match check_len "Currentservice" slotPayloadLen payload with
  | Some e => Err e
  | None => Ok (mkErrorSlots (decodeSlots payload))
  end.

Definition history_record (payload : list byte) : ErrorHistoryRecord :=
  mkRecord (u8 (default x00 (head payload))) (decodeSlots (slice_from 1 (slice_to (1 + slotPayloadLen) payload))).

Definition DecodeErrorHistory (payload : list byte) : result b503_error ErrorHistoryRecord :=
  match check_len "Errorhistory" (1 + slotPayloadLen) payload with
  | Some e => Err e
  | None => Ok (history_record payload)
  end.

Definition DecodeServiceHistory (payload : list byte) : result b503_error ErrorHistoryRecord :=
  match check_len "Servicehistory" (1 + slotPayloadLen) payload with
  | Some e => Err e
  | None => Ok (history_record payload)
  end.

Definition DecodeLiveMonitorMain (payload : list byte) : result b503_error LiveMonitorStatus :=
  match payload with
  | status :: func :: reserved => Ok (mkStatus status func reserved)
  | _ => Err (ErrShortPayload "LiveMonitorMain" 2 (len payload))
  end.

(** ** Correctness *)

Lemma selectorKey_inj f s f' s' : selectorKey f s = selectorKey f' s' -> f = f' /\ s = s'.
Proof.
  assert (forall f s, selectorKey f s = u8 f * 256 + u8 s) as H.
  { clear. intros f s. unfold selectorKey. pose proof (u8_range f). pose proof (u8_range s).
    rewrite Z.shiftl_mul_pow2 by lia. change (2 ^ 8) with 256. rewrite wrap_small by lia.
    rewrite <- Z.add_lor_land. enough (Z.land (u8 f * 256) (u8 s) = 0) by lia. apply Z.bits_inj'. intros n Hn.
    rewrite Z.land_spec, Z.bits_0. change 256 with (2 ^ 8). destruct (Z.lt_ge_cases n 8).
    - by rewrite Z.mul_pow2_bits_low.
    - by rewrite (u8_testbit_high s), andb_false_r. }
  rewrite !H. pose proof (u8_range s). pose proof (u8_range s'). intros E. split; apply u8_inj; lia.
Qed.

(** The tuples the catalog locks. *)
Definition locked : list (byte * byte * InvokeSafety) :=
  [(x00, x01, SafetyRead); (x01, x01, SafetyRead); (x02, x01, SafetyInstallWrite); (x00, x02, SafetyRead);
   (x01, x02, SafetyRead); (x02, x02, SafetyInstallWrite); (x00, x03, SafetyServiceWrite)].

(** of the 65536 tuples exactly the seven of the catalog have a
    class; the encoder sends a tuple unchanged exactly when its class is not an
    installer's write, so no request it returns is one; and the named helpers
    never panic. *)
Theorem requests_are_never_installer_writes family selector :
  (forall c, Safety family selector = Some c <-> (family, selector, c) ∈ locked) /\
  (forall bs, EncodeRequest family selector = Ok bs <->
     bs = [family; selector] /\ (Safety family selector = Some SafetyRead \/ Safety family selector = Some SafetyServiceWrite)) /\
  (EncodeCurrentError, EncodeErrorHistory, EncodeCurrentService, EncodeServiceHistory, EncodeLiveMonitorMain) =
    (Some [x00; x01], Some [x01; x01], Some [x00; x02], Some [x01; x02], Some [x00; x03]).
Proof.
  split_and!; [| |reflexivity].
  - intros c. unfold Safety, catalog. rewrite <- elem_of_list_to_map by (apply (bool_decide_unpack _); vm_compute; exact I).
    change [(selectorKey x00 x01, SafetyRead); (selectorKey x01 x01, SafetyRead); (selectorKey x02 x01, SafetyInstallWrite);
     (selectorKey x00 x02, SafetyRead); (selectorKey x01 x02, SafetyRead); (selectorKey x02 x02, SafetyInstallWrite);
     (selectorKey x00 x03, SafetyServiceWrite)] with ((fun '(f, s, c) => (selectorKey f s, c)) <$> locked).
    rewrite list_elem_of_fmap. split.
    + intros ([[f s] c'] & [= H ->] & Hin). by apply selectorKey_inj in H as [-> ->].
    + intros Hin. by exists (family, selector, c).
  - intros bs. unfold EncodeRequest. destruct (Safety family selector) as [[]|]; cbn; naive_solver.
Qed.

(** the encoder refuses an installer's write and an unknown tuple
    with the two errors made for them. *)
Theorem refusals_are_told_apart family selector e :
  EncodeRequest family selector = Err e <->
  e = ErrUnknownSelector family selector /\ Safety family selector = None \/
  e = ErrInstallWriteForbidden family selector /\ Safety family selector = Some SafetyInstallWrite.
Proof. unfold EncodeRequest. destruct (Safety family selector) as [[]|]; cbn; naive_solver. Qed.

Definition slot_bytes (slots : list Z) : list byte := slots ≫= put16.

Lemma decodeSlots_bytes slots rest :
  length slots = 5%nat -> Forall (fun s => 0 <= s < 2 ^ 16) slots -> decodeSlots (slot_bytes slots ++ rest) = slots.
Proof.
  intros Hl HF. destruct slots as [|a [|b [|c [|d [|e [|]]]]]]; try done.
  repeat match goal with H : Forall _ (_ :: _) |- _ => inversion H; clear H; subst end.
  unfold decodeSlots, slot_bytes. change (seqZ 0 slotCount) with [0; 1; 2; 3; 4].
  cbn [fmap list_fmap]. unfold slice_to, slice_from.
  repeat f_equal; match goal with |- _ = ?s => exact (le16_put16 s [] ltac:(done)) end.
Qed.

Lemma decodeSlots_range p s : s ∈ decodeSlots p -> len p = slotPayloadLen -> 0 <= s < 2 ^ 16.
Proof.
  unfold decodeSlots. intros (i & -> & Hi)%list_elem_of_fmap Hp. apply elem_of_seqZ in Hi. apply le16_range.
  unfold len, slice_from, slice_to, slotPayloadLen, slotCount in *. rewrite length_drop, length_take. lia.
Qed.

Lemma check_len_ok what wants p : check_len what wants p = None <-> len p = wants.
Proof. unfold check_len. destruct (Z.eqb_spec (len p) wants); cbn; [done|]. by destruct (_ <? _). Qed.

(** five slots sent little-endian decode to themselves, as current
    errors, current services or, after their index, as history records; a
    payload of current errors of any other length is refused, a shorter one with
    [ErrShortPayload] and a longer one with [ErrWrongPayloadLen]. *)
Theorem slots_round_trip slots index :
  length slots = 5%nat -> Forall (fun s => 0 <= s < 2 ^ 16) slots ->
  DecodeCurrentError (slot_bytes slots) = Ok (mkErrorSlots slots) /\
  DecodeCurrentService (slot_bytes slots) = Ok (mkErrorSlots slots) /\
  DecodeErrorHistory (index :: slot_bytes slots) = Ok (mkRecord (u8 index) slots) /\
  DecodeServiceHistory (index :: slot_bytes slots) = Ok (mkRecord (u8 index) slots) /\
  (forall p, len p < 10 -> exists e, DecodeCurrentError p = Err e /\ e = ErrShortPayload "Currenterror" 10 (len p)) /\
  (forall p, 10 < len p -> exists e, DecodeCurrentError p = Err e /\ e = ErrWrongPayloadLen "Currenterror" 10 (len p)).
Proof.
  intros Hl HF. assert (len (slot_bytes slots) = slotPayloadLen) as Hlen.
  { by destruct slots as [|a [|b [|c [|d [|e [|]]]]]]. }
  assert (len (index :: slot_bytes slots) = 1 + slotPayloadLen) as Hlen1 by (rewrite len_cons; lia).
  pose proof (decodeSlots_bytes slots [] Hl HF) as Hd. rewrite app_nil_r in Hd.
  assert (history_record (index :: slot_bytes slots) = mkRecord (u8 index) slots) as Hh.
  { unfold history_record. cbn [head default]. f_equal. unfold slice_to.
    rewrite take_ge by (unfold len, slotPayloadLen, slotCount in *; lia). exact Hd. }
  unfold DecodeCurrentError, DecodeCurrentService, DecodeErrorHistory, DecodeServiceHistory.
  rewrite !(proj2 (check_len_ok _ _ _)), Hd, Hh by done. split_and!; try done.
  - intros p Hp. unfold check_len, slotPayloadLen, slotCount. rewrite (proj2 (Z.eqb_neq _ _)) by lia.
    rewrite (proj2 (Z.ltb_lt _ _)) by lia. by eexists.
  - intros p Hp. unfold check_len, slotPayloadLen, slotCount. rewrite (proj2 (Z.eqb_neq _ _)) by lia.
    rewrite (proj2 (Z.ltb_ge _ _)) by lia. by eexists.
Qed.

Definition five_slots : list Z := [0xFFFF; 281; 0; 65535; 7].

Lemma slots_round_trip_witness :
  (length five_slots = 5%nat /\ Forall (fun s => 0 <= s < 2 ^ 16) five_slots) /\
  (DecodeCurrentError (slot_bytes five_slots) = Ok (mkErrorSlots five_slots) /\
   DecodeCurrentService (slot_bytes five_slots) = Ok (mkErrorSlots five_slots) /\
   DecodeErrorHistory (x07 :: slot_bytes five_slots) = Ok (mkRecord (u8 x07) five_slots) /\
   DecodeServiceHistory (x07 :: slot_bytes five_slots) = Ok (mkRecord (u8 x07) five_slots) /\
   (forall p, len p < 10 -> exists e, DecodeCurrentError p = Err e /\ e = ErrShortPayload "Currenterror" 10 (len p)) /\
   (forall p, 10 < len p -> exists e, DecodeCurrentError p = Err e /\ e = ErrWrongPayloadLen "Currenterror" 10 (len p))).
Proof.
  assert (Forall (fun s => 0 <= s < 2 ^ 16) five_slots) as HF by (unfold five_slots; repeat constructor; lia).
  split; [split; [reflexivity|exact HF]|]. apply (slots_round_trip five_slots x07); [reflexivity|exact HF].
Defined.

(** [FirstActive] is the first slot that is not empty, and there is
    none exactly when all slots are empty. *)
Theorem FirstActive_is_first e :
  (forall v, ErrorSlots_FirstActive e = (v, true) <->
     exists i, Slots e !! i = Some v /\ v <> EmptySlot /\ forall j s, (j < i)%nat -> Slots e !! j = Some s -> s = EmptySlot) /\
  (ErrorSlots_FirstActive e).2 = bool_decide (Exists (fun s => s <> EmptySlot) (Slots e)).
Proof.
  unfold ErrorSlots_FirstActive. generalize (Slots e) as l. clear. intros l. split.
  - induction l as [|s l IH]; intros v; cbn [scan_slots].
    + split; [done|]. by intros (i & H & _).
    + destruct (Z.eqb_spec s EmptySlot) as [-> |Hs]; cbn [negb].
      * rewrite IH. split.
        -- intros (i & Hi & Hv & Hb). exists (S i). split_and!; [done|done|]. intros [|j] s Hj; cbn; [by intros [= <-]|]. apply Hb. lia.
        -- intros ([|i] & Hi & Hv & Hb); cbn in Hi; [congruence|]. exists i. split_and!; [done|done|].
           intros j s Hj. apply (Hb (S j)). lia.
      * split; [intros [= <-]; exists O; split_and!; [done|done|lia]|].
        intros ([|i] & Hi & Hv & Hb); cbn in Hi; [congruence|]. by specialize (Hb O s ltac:(lia) eq_refl).
  - induction l as [|s l IH]; [done|]. cbn [scan_slots]. destruct (Z.eqb_spec s EmptySlot) as [-> |Hs]; cbn [negb].
    + rewrite IH. apply bool_decide_ext. rewrite Exists_cons. naive_solver.
    + symmetry. apply bool_decide_eq_true_2. by left.
Qed.
