(* ===== verification/Text.v ===== *)
(** The standard library's text functions the repository uses on strings held
    as lists of bytes: trimming ([strings.TrimSpace]), counting runes
    ([utf8.RuneCountInString]), padding ([%-*s]) and hexadecimal bytes
    ([%02x]), with the laws of trimming. *)

From Stdlib Require Import Strings.String.
From S2P Require Import Prelude.
#[local] Open Scope list_scope.

Notation bytes_of_string := String.list_byte_of_string.

(** ** Trimming *)

(** The encodings of the white space of [strings.TrimSpace]. *)
Definition space_encodings : list (list byte) :=
  [[x09]; [x0a]; [x0b]; [x0c]; [x0d]; [x20]; [xc2; x85]; [xc2; xa0]; [xe1; x9a; x80]; [xe2; x80; x80]; [xe2; x80; x81];
   [xe2; x80; x82]; [xe2; x80; x83]; [xe2; x80; x84]; [xe2; x80; x85]; [xe2; x80; x86]; [xe2; x80; x87]; [xe2; x80; x88];
   [xe2; x80; x89]; [xe2; x80; x8a]; [xe2; x80; xa8]; [xe2; x80; xa9]; [xe2; x80; xaf]; [xe2; x81; x9f]; [xe3; x80; x80]].

Fixpoint strip (p s : list byte) : option (list byte) :=
  match p, s with
  | [], _ => Some s
  | a :: p', b :: s' => if a =b b then strip p' s' else None
  | _ :: _, [] => None
  end.

(** The first of the encodings that [s] starts with, taken off. *)
Definition strip_space (encodings : list (list byte)) (s : list byte) : option (list byte) :=
  head (omap (fun p => strip p s) encodings).

Fixpoint trim_left (fuel : nat) (encodings : list (list byte)) (s : list byte) : list byte :=
  match fuel with
  | O => s
  | S fuel' => match strip_space encodings s with Some s' => trim_left fuel' encodings s' | None => s end
  end.

(** An encoding is recognised from its end as from its start, because a lead
    byte is never a continuation byte. *)
Definition TrimSpace (s : list byte) : list byte :=
  let left := trim_left (length s) space_encodings s in
  reverse (trim_left (length left) (reverse <$> space_encodings) (reverse left)).

(** ** Runes *)

(** The ranges of the bytes that follow a lead byte; [None] for a byte that
    leads nothing, an ASCII byte included. *)
Definition continuations (b : byte) : list (Z * Z) :=
  let n := u8 b in
  let any := (0x80, 0xbf) in
  if n <? 0xc2 then []
  else if n <=? 0xdf then [any]
  else if n =? 0xe0 then [(0xa0, 0xbf); any]
  else if n =? 0xed then [(0x80, 0x9f); any]
  else if n <=? 0xef then [any; any]
  else if n =? 0xf0 then [(0x90, 0xbf); any; any]
  else if n <=? 0xf3 then [any; any; any]
  else if n =? 0xf4 then [(0x80, 0x8f); any; any]
  else [].

Fixpoint continues (rs : list (Z * Z)) (s : list byte) : bool :=
  match rs, s with
  | [], _ => true
  | (lo, hi) :: rs', b :: s' => (lo <=? u8 b) && (u8 b <=? hi) && continues rs' s'
  | _ :: _, [] => false
  end.

(** The bytes after the first that belong to the rune at the start: none when
    the sequence is broken, which then counts as a rune of one byte. *)
Definition rune_tail (b : byte) (s : list byte) : nat :=
  if continues (continuations b) s then length (continuations b) else 0.

Fixpoint rune_count (fuel : nat) (s : list byte) : Z :=
  match fuel, s with
  | S fuel', b :: s' => 1 + rune_count fuel' (drop (rune_tail b s') s')
  | _, _ => 0
  end.

Definition RuneCount (s : list byte) : Z := rune_count (length s) s.

(** [fmt.Sprintf("%-*s", width, s)]: the width counts runes. *)
Definition pad_right (width : Z) (s : list byte) : list byte :=
  s ++ replicate (Z.to_nat (width - RuneCount s)) x20.

(** [%02x] of a byte. *)
Definition hex_char (d : Z) : byte := if d <? 10 then b8 (0x30 + d) else b8 (0x57 + d).
Definition hex2 (b : byte) : list byte := [hex_char (u8 b / 16); hex_char (u8 b mod 16)].

(** ** Laws *)

Lemma strip_Some p s r : strip p s = Some r <-> s = p ++ r.
Proof.
  revert s. induction p as [|a p IH]; intros s; cbn; [split; congruence|]. destruct s as [|b s]; [done|].
  destruct (byte_eqb_spec a b) as [->|Hne]; [rewrite IH; split; congruence|]. split; congruence.
Qed.

Lemma strip_space_Some es s r : strip_space es s = Some r -> exists p, p ∈ es /\ s = p ++ r.
Proof.
  unfold strip_space. induction es as [|p es IH]; cbn; [done|]. destruct (strip p s) as [r'|] eqn:E.
  - intros [= <-]. exists p. split; [left|by apply strip_Some].
  - intros H. destruct (IH H) as (q & Hq & Eq). exists q. split; [by right|done].
Qed.

Lemma strip_space_None es s : strip_space es s = None <-> forall p r, p ∈ es -> s <> p ++ r.
Proof.
  split.
  - unfold strip_space. induction es as [|q es IH]; cbn; intros H p r; [by intros ?%elem_of_nil|].
    destruct (strip q s) eqn:E; [done|]. intros [->|Hp]%elem_of_cons; [|by apply IH].
    intros Es%strip_Some. congruence.
  - intros H. destruct (strip_space es s) as [r|] eqn:E; [|done]. apply strip_space_Some in E as (p & Hp & Es). by destruct (H p r).
Qed.

(** What no encoding of white space starts or ends. *)
Definition trimmed (s : list byte) : Prop :=
  strip_space space_encodings s = None /\ strip_space (reverse <$> space_encodings) (reverse s) = None.

Lemma trim_left_spec es n s :
  [] ∉ es -> (length s <= n)%nat -> strip_space es (trim_left n es s) = None /\ exists u, s = u ++ trim_left n es s.
Proof.
  intros Hes. revert s. induction n as [|n IH]; intros s Hn; cbn.
  - destruct s; [|cbn in Hn; lia]. split; [|by exists []]. apply strip_space_None. intros p r Hp E. destruct p; done.
  - destruct (strip_space es s) as [r|] eqn:E; [|split; [done|by exists []]].
    apply strip_space_Some in E as (p & Hp & ->). destruct p as [|a p]; [done|].
    destruct (IH r) as (Hr & u & Hu); [rewrite length_app in Hn; cbn in Hn; lia|].
    split; [done|]. exists ((a :: p) ++ u). by rewrite <- app_assoc, <- Hu.
Qed.

Lemma trim_left_stuck es n s : strip_space es s = None -> trim_left n es s = s.
Proof. destruct n; cbn; [done|]. by intros ->. Qed.

Lemma no_empty_space : ~ ([] ∈ space_encodings) /\ ~ ([] ∈ (reverse <$> space_encodings)).
Proof. split; vm_compute; intros H; repeat (apply elem_of_cons in H as [H|H]; [done|]); by apply elem_of_nil in H. Qed.

Lemma trimmed_prefix es t u : strip_space es (t ++ u) = None -> strip_space es t = None.
Proof.
  rewrite !strip_space_None. intros H p r Hp ->. apply (H p (r ++ u) Hp). by rewrite app_assoc.
Qed.

Lemma TrimSpace_trimmed s : trimmed (TrimSpace s).
Proof.
  unfold TrimSpace, trimmed. set (left := trim_left _ _ s).
  destruct (trim_left_spec space_encodings (length s) s (proj1 no_empty_space)) as [Hl _]; [done|]. fold left in Hl.
  destruct (trim_left_spec (reverse <$> space_encodings) (length left) (reverse left) (proj2 no_empty_space)) as (Hr & u & Hu).
  { by rewrite length_reverse. }
  rewrite reverse_involutive. split; [|exact Hr].
  apply (trimmed_prefix _ _ (reverse u)). rewrite <- reverse_app, <- Hu, reverse_involutive. exact Hl.
Qed.

Lemma TrimSpace_of_trimmed s : trimmed s -> TrimSpace s = s.
Proof. intros [Hl Hr]. unfold TrimSpace. rewrite (trim_left_stuck _ _ s) by done. rewrite trim_left_stuck by done. apply reverse_involutive. Qed.

(** Trimming twice is trimming once. *)
Lemma TrimSpace_idem s : TrimSpace (TrimSpace s) = TrimSpace s.
Proof. apply TrimSpace_of_trimmed, TrimSpace_trimmed. Qed.

Lemma trimmed_nil : trimmed [].
Proof. split; vm_compute; reflexivity. Qed.

Lemma strip_blank s : strip_space (reverse <$> space_encodings) (x20 :: s) = Some s.
Proof. reflexivity. Qed.

Lemma trim_blanks n fuel s :
  strip_space (reverse <$> space_encodings) s = None ->
  trim_left (n + fuel) (reverse <$> space_encodings) (replicate n x20 ++ s) = s.
Proof.
  intros Hs. induction n as [|n IH]; [by apply trim_left_stuck|].
  change (replicate (S n) x20 ++ s) with (x20 :: (replicate n x20 ++ s)).
  cbn [Nat.add trim_left]. by rewrite strip_blank.
Qed.

Definition no_blank_tail (p : list byte) : bool := forallb (fun b => negb (b =b x20)) (drop 1 p).

Lemma space_tails p : p ∈ space_encodings -> no_blank_tail p = true.
Proof.
  assert (Forall (fun p => no_blank_tail p = true) space_encodings) as H by (repeat constructor).
  by intros ?%(proj1 (Forall_forall _ _) H).
Qed.

Lemma blanks_not_inside p t n r :
  no_blank_tail p = true -> t <> [] -> t ++ replicate n x20 = p ++ r -> exists r', t = p ++ r'.
Proof.
  revert t. induction p as [|a p IH]; intros t Hp Ht E; [by exists t|]. destruct t as [|b t]; [done|].
  injection E as -> E. destruct t as [|c t].
  - destruct p as [|c p]; [by exists []|]. destruct n; [done|]. injection E as <- E. done.
  - destruct p as [|d p]; [by exists (c :: t)|]. unfold no_blank_tail in *. cbn in Hp. apply andb_true_iff in Hp as [_ Hp].
    destruct (IH (c :: t)) as [r' Er]; [exact Hp|done|exact E|]. exists r'. cbn in *. congruence.
Qed.

(** Blanks added at the end are trimmed away again. *)
Lemma TrimSpace_padded t n : trimmed t -> t <> [] -> TrimSpace (t ++ replicate n x20) = t.
Proof.
  intros [Hl Hr] Ht. unfold TrimSpace. rewrite (trim_left_stuck space_encodings).
  - rewrite reverse_app, reverse_replicate, length_app, length_replicate, Nat.add_comm, trim_blanks by done.
    apply reverse_involutive.
  - apply strip_space_None. intros p r Hp E. destruct (blanks_not_inside p t n r (space_tails p Hp) Ht E) as [r' ->].
    rewrite strip_space_None in Hl. by apply (Hl p r').
Qed.

Lemma rune_count_le n s : rune_count n s <= len s.
Proof.
  revert s. induction n as [|n IH]; intros s; cbn; [apply len_nonneg|]. destruct s as [|b s]; [done|].
  pose proof (IH (drop (rune_tail b s) s)) as H. rewrite len_cons. unfold len in *. rewrite length_drop in H. lia.
Qed.

(** Padding counts runes, yet the first [width] bytes are the same as if it
    counted bytes. *)
Lemma take_pad_right width s :
  len s <= width -> take (Z.to_nat width) (pad_right width s) = s ++ replicate (Z.to_nat (width - len s)) x20.
Proof.
  intros Hs. unfold pad_right. pose proof (rune_count_le (length s) s) as H. fold (RuneCount s) in H. unfold len in *.
  rewrite take_app, take_ge, take_replicate by lia. f_equal. f_equal. lia.
Qed.

Lemma length_pad_right width s : width <= len (pad_right width s).
Proof. unfold pad_right. rewrite len_app. pose proof (rune_count_le (length s) s). fold (RuneCount s) in H. unfold len at 2. rewrite length_replicate. lia. Qed.

Lemma trim_left_pieces es n s : exists ps, Forall (fun p => p ∈ es) ps /\ s = concat ps ++ trim_left n es s.
Proof.
  revert s. induction n as [|n IH]; intros s; cbn; [by exists []|].
  destruct (strip_space es s) as [r|] eqn:E; [|by exists []]. apply strip_space_Some in E as (p & Hp & ->).
  destruct (IH r) as (ps & Hps & Er). exists (p :: ps). split; [by constructor|]. cbn. by rewrite <- app_assoc, <- Er.
Qed.

(** What does not start with white space does not vanish. *)
Lemma TrimSpace_nonempty s : strip_space space_encodings s = None -> s <> [] -> TrimSpace s <> [].
Proof.
  intros Hs Hne E. unfold TrimSpace in E. rewrite (trim_left_stuck space_encodings) in E by done.
  destruct (trim_left_pieces (reverse <$> space_encodings) (length s) (reverse s)) as (ps & Hps & Ep).
  apply (f_equal reverse) in E. rewrite reverse_involutive in E. rewrite E, app_nil_r in Ep.
  destruct ps as [|p ps _] using rev_ind; [apply Hne; by apply (f_equal reverse) in Ep; rewrite reverse_involutive in Ep|].
  apply Forall_app in Hps as [_ Hp]. inversion Hp as [|? ? (q & -> & Hq)%list_elem_of_fmap _]; subst.
  rewrite concat_app in Ep. cbn in Ep. rewrite app_nil_r in Ep. apply (f_equal reverse) in Ep.
  rewrite reverse_involutive, reverse_app, reverse_involutive in Ep. rewrite strip_space_None in Hs. by apply (Hs q (reverse (concat ps))).
Qed.

Lemma TrimSpace_take n s : trimmed s -> s <> [] -> (0 < n)%nat -> TrimSpace (take n s) <> [].
Proof.
  intros [Hl _] Hs Hn. apply TrimSpace_nonempty.
  - apply (trimmed_prefix _ _ (drop n s)). by rewrite take_drop.
  - destruct s; [done|]. by destruct n; [lia|].
Qed.

Lemma length_TrimSpace s : (length (TrimSpace s) <= length s)%nat.
Proof.
  unfold TrimSpace. set (left := trim_left _ _ s). rewrite length_reverse.
  assert (forall es n u, (length (trim_left n es u) <= length u)%nat) as H.
  { intros es n u. destruct (trim_left_pieces es n u) as (ps & _ & E). rewrite E at 2. rewrite length_app. lia. }
  pose proof (H (reverse <$> space_encodings) (length left) (reverse left)) as H1. rewrite length_reverse in H1.
  pose proof (H space_encodings (length s) s). fold left in H0. lia.
Qed.

(** Two functions of a byte that agree on the 256 bytes agree. *)
Lemma byte_ext {A} `{EqDecision A} (f g : byte -> A) :
  forallb (fun b => bool_decide (f b = g b)) all_bytes = true -> forall b, f b = g b.
Proof. intros H b. pose proof (byte_forallb _ H b) as Hb. by apply bool_decide_eq_true_1 in Hb. Qed.

(** ** Decimal numbers *)

Lemma bytes_of_string_app a b : bytes_of_string (a +:+ b) = bytes_of_string a ++ bytes_of_string b.
Proof. induction a as [|c a IH]; [done|]. change (String c a +:+ b) with (String c (a +:+ b)). cbn. by f_equal. Qed.

Lemma snoc_app a c s : (a +:+ String c "") +:+ s = a +:+ String c s.
Proof. induction a as [|b a IH]; [done|]. change (String b ((a +:+ String c "") +:+ s) = String b (a +:+ String c s)). f_equal. exact IH. Qed.

Lemma pretty_N_go_suffix x s : exists pre, pretty_N_go x s = pre +:+ s.
Proof.
  revert s. induction (N.lt_wf_0 x) as [x _ IH]; intros s. destruct (decide (0 < x)%N) as [Hx|Hx].
  - rewrite pretty_N_go_step by done. destruct (IH (x `div` 10)%N ltac:(apply N.div_lt; lia) (String (pretty_N_char (x `mod` 10)) s)) as [pre ->].
    exists (pre +:+ String (pretty_N_char (x `mod` 10)) ""). by rewrite snoc_app.
  - replace x with 0%N by lia. exists "". by rewrite pretty_N_go_0.
Qed.

Lemma pretty_N_last (x : N) : exists pre k, pretty x = pre +:+ String (pretty_N_char k) "".
Proof.
  unfold pretty, pretty_N. destruct (decide (x = 0)%N) as [->|Hx]; [by exists "", 0%N|]. rewrite pretty_N_go_step by lia.
  destruct (pretty_N_go_suffix (x `div` 10) (String (pretty_N_char (x `mod` 10)) "")) as [pre ->]. by exists pre, (x `mod` 10)%N.
Qed.

(** A number ends in a digit. *)
Lemma decimal_last n : exists pre d, bytes_of_string (pretty (Z.of_nat n)) = pre ++ [d] /\ d ∈ bytes_of_string "0123456789".
Proof.
  assert (exists x : N, pretty (Z.of_nat n) = pretty x) as [x ->] by (destruct n; [by exists 0%N|by exists (N.pos (Pos.of_succ_nat n))]).
  destruct (pretty_N_last x) as (pre & k & ->). rewrite bytes_of_string_app. exists (bytes_of_string pre).
  unfold pretty_N_char. repeat case_match; (eexists; split; [reflexivity|]); apply (bool_decide_eq_true_1 _); reflexivity.
Qed.

(** Text between a letter and a digit is trimmed. *)
Lemma trimmed_between a s d :
  strip_space space_encodings (a :: s ++ [d]) = None -> d ∈ bytes_of_string "0123456789" -> trimmed (a :: s ++ [d]).
Proof.
  intros Ha Hd. split; [done|]. rewrite app_comm_cons, reverse_app. cbn [reverse app]. change (reverse [d]) with [d]. cbn [app].
  repeat (apply elem_of_cons in Hd as [->|Hd]; [reflexivity|]). by apply elem_of_nil in Hd.
Qed.
