(* ===== verification/Determinism.v ===== *)
(** src/determinism: the retry schedules and the store that makes repeated
    requests idempotent.  Durations are signed 64-bit; instants are nanoseconds
    without a bound.  Strings are lists of bytes, so that trimming sees the
    encoding. *)

From S2P Require Import Prelude Errors Text.
#[local] Open Scope Z_scope.

(** ** Retry schedules *)

Inductive schedule_error := ErrInvalidRetryCount | ErrInvalidRetryDelay | ErrInvalidRetryFactor.

Definition maxDuration : Z := 2 ^ 63 - 1.

Record RetrySchedule := mkSchedule { delays : list Z }.

Definition NewRetrySchedule (ds : list Z) : result schedule_error RetrySchedule :=
  if existsb (fun delay => delay <? 0) ds then Err ErrInvalidRetryDelay else Ok (mkSchedule ds).

Definition FixedRetrySchedule (retries delay : Z) : result schedule_error RetrySchedule :=
  if retries <? 0 then Err ErrInvalidRetryCount
  else if delay <? 0 then Err ErrInvalidRetryDelay
  else Ok (mkSchedule (replicate (Z.to_nat retries) delay)).

(** The loop of [ExponentialRetrySchedule]; the product is a machine product. *)
Fixpoint exponential_loop (retries : nat) (current factor maxDelay : Z) : list Z :=
  match retries with
  | O => []
  | S retries' =>
      let delay := if (0 <? maxDelay) && (maxDelay <? current) then maxDelay else current in
      let next :=
        if factor =? 1 then current
        else if (0 <? current) && (Z.quot maxDuration factor <? current) then maxDuration
        else swrap 64 (current * factor) in
      delay :: exponential_loop retries' next factor maxDelay
  end.

Definition ExponentialRetrySchedule (retries baseDelay factor maxDelay : Z) : result schedule_error RetrySchedule :=
  if retries <? 0 then Err ErrInvalidRetryCount
  else if (baseDelay <? 0) || (maxDelay <? 0) then Err ErrInvalidRetryDelay
  else if factor <? 1 then Err ErrInvalidRetryFactor
  else Ok (mkSchedule (exponential_loop (Z.to_nat retries) baseDelay factor maxDelay)).

Definition Retries (s : RetrySchedule) : Z := len (delays s).
Definition Delays (s : RetrySchedule) : list Z := delays s.

Definition Delay (s : RetrySchedule) (retryIndex : Z) : option Z :=
  if (retryIndex <? 0) || (len (delays s) <=? retryIndex) then None else delays s !! Z.to_nat retryIndex.

(** [NormalizeErrorMapping(err, "").Retriable]. *)
Definition Retriable (err : option error) : bool := bool_decide (NormalizeErrorCategory err = CategoryTransient).

Definition NextRetry (s : RetrySchedule) (err : option error) (retryIndex : Z) : option Z :=
  if negb (Retriable err) then None else Delay s retryIndex.

(** The delay before retry [i]: the base times a power of the factor, cut at
    the greatest duration and then at the maximum, if there is one. *)
Definition exponential_delay (baseDelay factor maxDelay : Z) (i : nat) : Z :=
  let d := Z.min (baseDelay * factor ^ Z.of_nat i) maxDuration in
  if 0 <? maxDelay then Z.min d maxDelay else d.

Lemma next_delay current factor :
  0 <= current <= maxDuration -> 1 <= factor ->
  (if factor =? 1 then current
   else if (0 <? current) && (Z.quot maxDuration factor <? current) then maxDuration
   else swrap 64 (current * factor)) = Z.min (current * factor) maxDuration.
Proof.
  intros Hc Hf. destruct (Z.eqb_spec factor 1) as [-> |Hne]; [lia|].
  rewrite Z.quot_div_nonneg by (unfold maxDuration; lia).
  pose proof (Z.div_mod maxDuration factor ltac:(lia)) as Hd. pose proof (Z.mod_pos_bound maxDuration factor ltac:(lia)) as Hm.
  destruct (Z.ltb_spec 0 current); cbn [andb].
  - destruct (Z.ltb_spec (maxDuration / factor) current) as [Hlt|Hge].
    + assert (factor * (maxDuration / factor + 1) <= factor * current) by (apply Z.mul_le_mono_nonneg_l; lia). lia.
    + assert (factor * current <= factor * (maxDuration / factor)) by (apply Z.mul_le_mono_nonneg_l; lia).
      rewrite swrap_small by (unfold maxDuration in *; change (2 ^ (64 - 1)) with (2 ^ 63); lia). lia.
  - assert (current = 0) as -> by lia. reflexivity.
Qed.

Lemma min_scaled a p : 0 <= a -> 1 <= p ->
  Z.min (Z.min a maxDuration * p) maxDuration = Z.min (a * p) maxDuration.
Proof.
  intros Ha Hp. assert (0 < maxDuration) by reflexivity.
  destruct (Z.le_ge_cases a maxDuration); [by rewrite (Z.min_l a)|].
  rewrite (Z.min_r a) by done. rewrite !Z.min_r; nia.
Qed.

Lemma exponential_loop_lookup n current factor maxDelay i :
  0 <= current <= maxDuration -> 1 <= factor -> (i < n)%nat ->
  exponential_loop n current factor maxDelay !! i = Some (exponential_delay current factor maxDelay i).
Proof.
  revert current i. induction n as [|n IH]; intros current i Hc Hf Hi; [lia|]. cbn [exponential_loop].
  rewrite next_delay by done. destruct i as [|i]; cbn [lookup list_lookup].
  - unfold exponential_delay. change (Z.of_nat 0) with 0. rewrite Z.pow_0_r, Z.mul_1_r. rewrite (Z.min_l current) by lia.
    destruct (Z.ltb_spec 0 maxDelay); [|done]. cbn [andb]. destruct (Z.ltb_spec maxDelay current); f_equal; lia.
  - assert (0 <= current * factor) by (apply Z.mul_nonneg_nonneg; lia).
    rewrite IH by (try lia; assert (0 < maxDuration) by reflexivity; lia). f_equal. unfold exponential_delay.
    pose proof (Z.pow_pos_nonneg factor (Z.of_nat i) ltac:(lia) ltac:(lia)).
    rewrite min_scaled by lia. by rewrite Nat2Z.inj_succ, Z.pow_succ_r, Z.mul_assoc by lia.
Qed.

Lemma length_exponential n current factor maxDelay : length (exponential_loop n current factor maxDelay) = n.
Proof. revert current. induction n as [|n IH]; intros current; cbn; [done|]. by rewrite IH. Qed.

(** an exponential schedule has one delay per retry, and the delay
    before retry [i] is the base times the [i]-th power of the factor, cut at
    the greatest 64-bit duration and at the maximum: no product wraps around. *)
Theorem exponential_schedule_exact retries baseDelay factor maxDelay s i :
  baseDelay <= maxDuration -> ExponentialRetrySchedule retries baseDelay factor maxDelay = Ok s ->
  Retries s = retries /\
  Delay s i = if (0 <=? i) && (i <? retries) then Some (exponential_delay baseDelay factor maxDelay (Z.to_nat i)) else None.
Proof.
  intros Hb. unfold ExponentialRetrySchedule. destruct (Z.ltb_spec retries 0); [done|].
  destruct (_ || _) eqn:E; [done|]. apply orb_false_iff in E as [E1%Z.ltb_ge E2%Z.ltb_ge].
  destruct (Z.ltb_spec factor 1); [done|]. intros [= <-]. unfold Retries, Delay, len. cbn [delays].
  rewrite length_exponential. split; [lia|]. rewrite Z2Nat.id by lia.
  rewrite (Z.leb_antisym i 0), (Z.leb_antisym i retries).
  destruct (Z.ltb_spec i 0); [done|]. destruct (Z.ltb_spec i retries); [|done]. cbn.
  apply exponential_loop_lookup; lia.
Qed.

Lemma exponential_schedule_exact_witness :
  (2 ^ 40 <= maxDuration /\ ExponentialRetrySchedule 4 (2 ^ 40) (2 ^ 20) 0 = Ok (mkSchedule [2 ^ 40; 2 ^ 60; maxDuration; maxDuration])) /\
  (Retries (mkSchedule [2 ^ 40; 2 ^ 60; maxDuration; maxDuration]) = 4 /\
   Delay (mkSchedule [2 ^ 40; 2 ^ 60; maxDuration; maxDuration]) 2 =
     if (0 <=? 2) && (2 <? 4) then Some (exponential_delay (2 ^ 40) (2 ^ 20) 0 (Z.to_nat 2)) else None).
Proof.
  split; [split; [vm_compute; discriminate|vm_compute; reflexivity]|].
  apply (exponential_schedule_exact 4 (2 ^ 40) (2 ^ 20) 0); [vm_compute; discriminate|vm_compute; reflexivity].
Defined.

(** ** The idempotency store *)

Inductive store_error := ErrIdempotencyConflict | ErrInvalidKey | ErrInvalidFingerprint.

Definition DefaultIdempotencyTTL : Z := 30 * 1000000000.

Record idempotencyEntry := mkEntry { fingerprint : list byte; value : list byte; expiresAt : Z }.

Record IdempotencyStore := mkStore { ttl : Z; entries : gmap (list byte) idempotencyEntry }.

Definition NewIdempotencyStore (t : Z) : IdempotencyStore :=
  mkStore (if t <=? 0 then DefaultIdempotencyTTL else t) ∅.

Definition normalizeLookupInputs (key print : list byte) : result store_error (list byte * list byte) :=
  let normalizedKey := TrimSpace key in
  if bool_decide (normalizedKey = []) then Err ErrInvalidKey
  else
    let normalizedFingerprint := TrimSpace print in
    if bool_decide (normalizedFingerprint = []) then Err ErrInvalidFingerprint
    else Ok (normalizedKey, normalizedFingerprint).

Definition purgeExpiredLocked (now : Z) (s : IdempotencyStore) : IdempotencyStore :=
  mkStore (ttl s) (filter (fun ke : list byte * idempotencyEntry => ~ expiresAt ke.2 < now) (entries s)).

Definition Lookup (now : Z) (key print : list byte) (s : IdempotencyStore)
    : IdempotencyStore * result store_error (option (list byte)) :=
  match normalizeLookupInputs key print with
  | Err err => (s, Err err)
  | Ok (key, print) =>
      let s := purgeExpiredLocked now s in
      (s, match entries s !! key with
          | None => Ok None
          | Some entry =>
              if negb (bool_decide (fingerprint entry = print)) then Err ErrIdempotencyConflict
              else Ok (Some (value entry))
          end)
  end.

Definition Store (now : Z) (key print v : list byte) (s : IdempotencyStore) : IdempotencyStore * option store_error :=
  match normalizeLookupInputs key print with
  | Err err => (s, Some err)
  | Ok (key, print) =>
      let s := purgeExpiredLocked now s in
      (mkStore (ttl s) (<[key := mkEntry print v (now + ttl s)]> (entries s)), None)
  end.

Definition Delete (key : list byte) (s : IdempotencyStore) : IdempotencyStore :=
  let trimmed := TrimSpace key in
  if bool_decide (trimmed = []) then s else mkStore (ttl s) (delete trimmed (entries s)).

Definition Len (now : Z) (s : IdempotencyStore) : IdempotencyStore * Z :=
  let s := purgeExpiredLocked now s in (s, Z.of_nat (size (entries s))).

(** A call of any method, at the instant it reads the clock; calls hold the
    mutex, but read the clock before they take it, so instants may go back. *)
Inductive store_call :=
| CallLookup (now : Z) (key print : list byte)
| CallStore (now : Z) (key print v : list byte)
| CallDelete (key : list byte)
| CallLen (now : Z).

Definition store_step (c : store_call) (s : IdempotencyStore) : IdempotencyStore :=
  match c with
  | CallLookup now key print => (Lookup now key print s).1
  | CallStore now key print v => (Store now key print v s).1
  | CallDelete key => Delete key s
  | CallLen now => (Len now s).1
  end.

(** A call that neither writes the key nor reads a clock past [limit]. *)
Definition leaves (key : list byte) (limit : Z) (c : store_call) : Prop :=
  match c with
  | CallLookup now _ _ | CallLen now => now <= limit
  | CallStore now k _ _ => now <= limit /\ TrimSpace k <> key
  | CallDelete k => TrimSpace k <> key
  end.

Lemma purge_lookup now s k e :
  entries (purgeExpiredLocked now s) !! k = Some e <-> entries s !! k = Some e /\ now <= expiresAt e.
Proof. unfold purgeExpiredLocked. cbn. rewrite map_lookup_filter_Some. cbn. intuition lia. Qed.

Lemma step_leaves key limit c s e :
  leaves key limit c -> entries s !! key = Some e -> limit <= expiresAt e -> entries (store_step c s) !! key = Some e.
Proof.
  intros Hc He Hl. destruct c as [now k p|now k p v|k|now]; cbn in *.
  - unfold Lookup. destruct (normalizeLookupInputs k p) as [[k' p']|]; [|done]. cbn [fst]. apply purge_lookup. split; [done|lia].
  - destruct Hc as [Hn Hk]. unfold Store, normalizeLookupInputs. case_bool_decide; [done|]. case_bool_decide; [done|].
    cbn [fst entries]. rewrite lookup_insert_ne by done. apply purge_lookup. split; [done|lia].
  - unfold Delete. case_bool_decide; [done|]. cbn. by rewrite lookup_delete_ne.
  - apply purge_lookup. split; [done|lia].
Qed.

(** a result that was stored is what a later request with the same
    key and fingerprint gets, and a request with the same key and another
    fingerprint gets the conflict error, until the time to live is over: whatever
    calls on other keys come between, in any order of their clocks, and up to
    and including the instant of expiry, after which the key is free again. *)
Theorem stored_result_is_replayed now key print v s s1 calls later print' :
  Store now key print v s = (s1, None) ->
  Forall (leaves (TrimSpace key) (now + ttl s)) calls ->
  TrimSpace print' <> [] ->
  let s2 := foldl (fun s c => store_step c s) s1 calls in
  (later <= now + ttl s ->
     (Lookup later key print' s2).2 =
       if bool_decide (TrimSpace print' = TrimSpace print) then Ok (Some v) else Err ErrIdempotencyConflict) /\
  (now + ttl s < later -> (Lookup later key print' s2).2 = Ok None).
Proof.
  unfold Store, normalizeLookupInputs. intros Hstore Hcalls Hp'. case_bool_decide as Hk; [done|].
  case_bool_decide as Hp; [done|]. injection Hstore as <-. cbn [ttl purgeExpiredLocked] in *. cbv zeta.
  set (e := mkEntry (TrimSpace print) v (now + ttl s)). set (s1 := mkStore _ _).
  assert (entries s1 !! TrimSpace key = Some e) as He by apply lookup_insert_eq. clearbody s1.
  assert (entries (foldl (fun s c => store_step c s) s1 calls) !! TrimSpace key = Some e) as He2.
  { revert s1 He. induction calls as [|c calls IH]; intros s1 He; [done|]. inversion Hcalls; subst. cbn [foldl].
    apply IH; [done|]. by apply (step_leaves _ (now + ttl s)). }
  unfold Lookup, normalizeLookupInputs. rewrite !bool_decide_false by done. cbn [snd]. split; intros Hl.
  - rewrite (proj2 (purge_lookup later _ _ e)) by (split; [done|exact Hl]). cbn [fingerprint value e].
    rewrite (bool_decide_ext (TrimSpace print = TrimSpace print') (TrimSpace print' = TrimSpace print)) by done.
    by case_bool_decide.
  - destruct (entries (purgeExpiredLocked later _) !! TrimSpace key) as [e'|] eqn:E; [|done].
    apply purge_lookup in E as [E Ht]. rewrite He2 in E. injection E as <-. cbn in Ht. lia.
Qed.

Definition ascii_key : list byte := [x20; x6b; x31; x0a].

Lemma stored_result_is_replayed_witness :
  let s1 := (Store 100 ascii_key [x66] [x01; x02] (NewIdempotencyStore 0)).1 in
  let s2 := foldl (fun s c => store_step c s) s1 [CallLen 500; CallStore 90 [x6b; x32] [x66] []] in
  (700 <= 100 + ttl (NewIdempotencyStore 0) ->
     (Lookup 700 ascii_key [x66; x20] s2).2 =
       if bool_decide (TrimSpace [x66; x20] = TrimSpace [x66]) then Ok (Some [x01; x02]) else Err ErrIdempotencyConflict) /\
  (100 + ttl (NewIdempotencyStore 0) < 700 -> (Lookup 700 ascii_key [x66; x20] s2).2 = Ok None).
Proof.
  apply (stored_result_is_replayed 100 ascii_key [x66] [x01; x02] (NewIdempotencyStore 0)).
  - reflexivity.
  - repeat constructor; vm_compute; discriminate.
  - vm_compute. discriminate.
Defined.
