(* ===== verification/Emulation.v ===== *)
(** src/emulation: emulated targets (framework.go), the devices built on them
    (identify_only.go, vr90.go, vr92.go) and the harness that queries a target
    under a clock of its own (harness.go).

    Matchers and builders are functions of the frame.  An error is its
    sentinel and the step it came from; the texts of messages are left out.
    Durations are signed 64-bit.  A reply's data is a value: a caller of
    [Query] that writes into it would change the harness's history as well. *)

From S2P Require Import Prelude Errors Wire Address Text.
#[local] Open Scope list_scope.
#[local] Open Scope Z_scope.

(** ** The framework *)

Inductive emu_error :=
| ErrNoMatchingRule | ErrTimingConstraint | ErrInvalidConfiguration | ErrRequestTargetMismatch
| BuilderError (code : Z)
| AtStep (idx : Z) (e : emu_error).

(** A [MatchFunc] may be nil, and a [RequestMatcher] may be a nil interface. *)
Definition MatchFunc := option (Frame -> bool).
Definition MatchFunc_Match (fn : MatchFunc) (frame : Frame) : bool :=
  match fn with None => false | Some f => f frame end.

Record ResponsePlan := mkPlan { p_Delay : Z; p_Data : list byte }.

Definition BuildFunc := option (Frame -> result emu_error ResponsePlan).
Definition BuildFunc_Build (fn : BuildFunc) (frame : Frame) : result emu_error ResponsePlan :=
  match fn with None => Err ErrInvalidConfiguration | Some f => f frame end.

Record TimingConstraints := mkTiming { MinResponseDelay : Z; MaxResponseDelay : Z }.

Definition validate (c : TimingConstraints) (delay : Z) : option emu_error :=
  if (MinResponseDelay c <? 0) || (MaxResponseDelay c <? 0) then Some ErrInvalidConfiguration
  else if (0 <? MaxResponseDelay c) && (MaxResponseDelay c <? MinResponseDelay c) then Some ErrInvalidConfiguration
  else if delay <? 0 then Some ErrTimingConstraint
  else if delay <? MinResponseDelay c then Some ErrTimingConstraint
  else if (0 <? MaxResponseDelay c) && (MaxResponseDelay c <? delay) then Some ErrTimingConstraint
  else None.

Definition active (c : TimingConstraints) : bool := negb (MinResponseDelay c =? 0) || negb (MaxResponseDelay c =? 0).

Record Rule := mkRule { r_Name : list byte; Matcher : option MatchFunc; Builder : option BuildFunc; Timing : TimingConstraints }.

Record RequestEvent := mkEvent { At : Z; e_Frame : Frame }.

Record EmulatedResponse := mkResponse { er_Rule : list byte; Requested : Z; RespondAt : Z; er_Frame : Frame }.

Record Target := mkTarget { t_Name : list byte; t_Address : byte; DefaultTiming : TimingConstraints; Rules : list Rule }.

(** The timing a rule is held to. *)
Definition timing_of (t : Target) (rule : Rule) : TimingConstraints :=
  if negb (active (Timing rule)) then DefaultTiming t else Timing rule.

Definition respond (t : Target) (event : RequestEvent) (rule : Rule) (plan : ResponsePlan) : EmulatedResponse :=
  mkResponse (r_Name rule) (At event) (swrap 64 (At event + p_Delay plan))
    (mkFrame (t_Address t) (fSource (e_Frame event)) (fPrimary (e_Frame event)) (fSecondary (e_Frame event)) (p_Data plan) FrameTypeUnknown).

Fixpoint emulate_rules (t : Target) (event : RequestEvent) (rules : list Rule) : result emu_error EmulatedResponse :=
  match rules with
  | [] => Err ErrNoMatchingRule
  | rule :: rules' =>
      match Matcher rule with
      | None => Err ErrInvalidConfiguration
      | Some m =>
          if negb (MatchFunc_Match m (e_Frame event)) then emulate_rules t event rules'
          else
            match Builder rule with
            | None => Err ErrInvalidConfiguration
            | Some b =>
                let* plan := BuildFunc_Build b (e_Frame event) in
                match validate (timing_of t rule) (p_Delay plan) with
                | Some err => Err err
                | None => Ok (respond t event rule plan)
                end
            end
      end
  end.

Definition Emulate (t : option Target) (event : RequestEvent) : result emu_error EmulatedResponse :=
  match t with
  | None => Err ErrInvalidConfiguration
  | Some t =>
      if negb (fTarget (e_Frame event) =b t_Address t) then Err ErrRequestTargetMismatch
      else emulate_rules t event (Rules t)
  end.

Definition MatchPrimarySecondary (primary secondary : byte) : MatchFunc :=
  Some (fun frame => (fPrimary frame =b primary) && (fSecondary frame =b secondary)).

(** The loop over the prefix, after the length test. *)
Fixpoint prefix_loop (data prefix : list byte) : bool :=
  match prefix, data with
  | [], _ => true
  | p :: prefix', d :: data' => if negb (d =b p) then false else prefix_loop data' prefix'
  | _ :: _, [] => false
  end.

Definition MatchPrimarySecondaryWithPrefix (primary secondary : byte) (prefix : list byte) : MatchFunc :=
  Some (fun frame =>
    if negb (fPrimary frame =b primary) || negb (fSecondary frame =b secondary) then false
    else if len prefix =? 0 then true
    else if len (fData frame) <? len prefix then false
    else prefix_loop (fData frame) prefix).

(** ** The identify-only device *)

Definition Millisecond : Z := 1000000.
Definition identifyOnlyDeviceIDLength : Z := 5.

Definition defaultIdentifyOnlyResponseDelay : Z := 8 * Millisecond.
Definition defaultIdentifyOnlyTiming : TimingConstraints := mkTiming (5 * Millisecond) (30 * Millisecond).

Record IdentifyOnlyProfile := mkIdentify {
  i_Name : list byte; i_Address : byte; i_Manufacturer : byte; i_DeviceID : list byte;
  i_Software : Z; i_Hardware : Z; i_ResponseDelay : Z; i_Timing : TimingConstraints }.

Definition DefaultManufacturer : byte := xb5.
Definition DefaultVR90DeviceID : list byte := bytes_of_string "B7V00".
Definition DefaultVR92DeviceID : list byte := bytes_of_string "VR_92".
Definition DefaultVR71DeviceID : list byte := bytes_of_string "VR_71".
Definition vr90_minimal (addr : byte) : list byte := bytes_of_string "vr90-minimal-0x" ++ hex2 addr.

Definition PresetVR90IdentifyOnlyProfile : IdentifyOnlyProfile :=
  mkIdentify (vr90_minimal x15) x15 DefaultManufacturer DefaultVR90DeviceID 0x0422 0x5503
    defaultIdentifyOnlyResponseDelay defaultIdentifyOnlyTiming.
Definition PresetVR92IdentifyOnlyProfile : IdentifyOnlyProfile :=
  mkIdentify (bytes_of_string "vr92-minimal-0x" ++ hex2 x30) x30 DefaultManufacturer DefaultVR92DeviceID 0x0514 0x1204
    defaultIdentifyOnlyResponseDelay defaultIdentifyOnlyTiming.
Definition PresetVR71IdentifyOnlyProfile : IdentifyOnlyProfile :=
  mkIdentify (bytes_of_string "vr71-minimal-0x" ++ hex2 x26) x26 DefaultManufacturer DefaultVR71DeviceID 0x0100 0x5904
    defaultIdentifyOnlyResponseDelay defaultIdentifyOnlyTiming.

(** A string cut to the length of a device identifier. *)
Definition cut_id (s : list byte) : list byte :=
  if identifyOnlyDeviceIDLength <? len s then slice_to identifyOnlyDeviceIDLength s else s.

Definition or_default {A} (unset : bool) (default value : A) : A := if unset then default else value.

Definition normalizeIdentifyOnlyProfile (p : IdentifyOnlyProfile) : result emu_error IdentifyOnlyProfile :=
  let name := TrimSpace (i_Name p) in
  let name := if bool_decide (name = []) then bytes_of_string "identify-only-0x" ++ hex2 (i_Address p) else name in
  if i_Address p =b x00 then Err ErrInvalidConfiguration
  else if i_Manufacturer p =b x00 then Err ErrInvalidConfiguration
  else
    let trimmed := TrimSpace (i_DeviceID p) in
    if bool_decide (trimmed = []) then Err ErrInvalidConfiguration
    else
      let delay := or_default (i_ResponseDelay p <=? 0) defaultIdentifyOnlyResponseDelay (i_ResponseDelay p) in
      let timing := or_default (negb (active (i_Timing p))) defaultIdentifyOnlyTiming (i_Timing p) in
      match validate timing delay with
      | Some err => Err err
      | None =>
          Ok (mkIdentify name (i_Address p) (i_Manufacturer p) (cut_id trimmed) (i_Software p) (i_Hardware p) delay timing)
      end.

Definition identificationPayload (p : IdentifyOnlyProfile) : list byte :=
  let deviceID := pad_right identifyOnlyDeviceIDLength (i_DeviceID p) in
  [i_Manufacturer p; nth 0 deviceID x00; nth 1 deviceID x00; nth 2 deviceID x00; nth 3 deviceID x00; nth 4 deviceID x00;
   b8 (Z.shiftr (i_Software p) 8); b8 (Z.land (i_Software p) 0xff); b8 (Z.shiftr (i_Hardware p) 8); b8 (Z.land (i_Hardware p) 0xff)].

Definition identify_rule (p : IdentifyOnlyProfile) : Rule :=
  mkRule (bytes_of_string "identify") (Some (MatchPrimarySecondary x07 x04))
    (Some (Some (fun _ => Ok (mkPlan (i_ResponseDelay p) (identificationPayload p))))) (mkTiming 0 0).

Definition NewIdentifyOnlyTarget (profile : IdentifyOnlyProfile) : result emu_error Target :=
  let* normalized := normalizeIdentifyOnlyProfile profile in
  Ok (mkTarget (i_Name normalized) (i_Address normalized) (i_Timing normalized) [identify_rule normalized]).

(** ** The VR 90 and VR 92 devices *)

Definition DefaultVR90ScanID : list byte := bytes_of_string "21231600202609140953035469N6".
Definition defaultVR90ResponseDelay : Z := 8 * Millisecond.
Definition defaultVR90Timing : TimingConstraints := mkTiming (5 * Millisecond) (30 * Millisecond).
Definition vr90B509ScanIDChunkSize : Z := 8.
Definition vr90B509ScanIDLength : Z := vr90B509ScanIDChunkSize * 4.

(** A nil payload matcher is unset; an empty one is not. *)
Record VR90MappedCommand := mkCommand {
  c_Name : list byte; c_Primary : byte; c_Secondary : byte;
  PayloadExact : option (list byte); PayloadPrefix : option (list byte); ResponseData : list byte }.

Record VR90Profile := mkVR90 {
  v_Address : byte; v_Manufacturer : byte; v_DeviceID : list byte; v_Software : Z; v_Hardware : Z;
  EnableB509Discovery : bool; ScanID : list byte; MappedCommands : list VR90MappedCommand;
  v_ResponseDelay : Z; v_Timing : TimingConstraints }.

(** [VR92Profile] has the fields of [VR90Profile] and converts to it. *)
Definition VR92Profile := VR90Profile.

Definition DefaultVR90Profile : VR90Profile :=
  mkVR90 x00 DefaultManufacturer DefaultVR90DeviceID 0x0422 0x5503 false DefaultVR90ScanID []
    defaultVR90ResponseDelay defaultVR90Timing.
Definition DefaultVR92Profile : VR92Profile :=
  mkVR90 x00 DefaultManufacturer DefaultVR92DeviceID 0x0514 0x1204 false [] []
    defaultVR90ResponseDelay defaultVR90Timing.

Definition normalizeVR90ScanID (scanID : list byte) : list byte :=
  let trimmed := TrimSpace scanID in
  let trimmed := if bool_decide (trimmed = []) then DefaultVR90ScanID else trimmed in
  let trimmed := if vr90B509ScanIDLength <? len trimmed then slice_to vr90B509ScanIDLength trimmed else trimmed in
  if len trimmed =? vr90B509ScanIDLength then trimmed
  else trimmed ++ replicate (Z.to_nat (vr90B509ScanIDLength - len trimmed)) x20.

Definition isVR90B509ScanIDSelector (selector : byte) : bool := (u8 x24 <=? u8 selector) && (u8 selector <=? u8 x27).

Definition vr90B509ScanIDChunk (scanID : list byte) (selector : byte) : option (list byte) :=
  if negb (isVR90B509ScanIDSelector selector) then None
  else
    let normalized := normalizeVR90ScanID scanID in
    let offset := u8 (b8 (u8 selector - u8 x24)) * vr90B509ScanIDChunkSize in
    Some (x00 :: slice_from offset (slice_to (offset + vr90B509ScanIDChunkSize) normalized)).

Definition mapped_name (idx : Z) (c : VR90MappedCommand) : list byte :=
  bytes_of_string "mapped-pb-0x" ++ hex2 (c_Primary c) ++ bytes_of_string "-sb-0x" ++ hex2 (c_Secondary c) ++
  bytes_of_string "-" ++ bytes_of_string (fmt_d idx).

Fixpoint normalize_commands (idx : Z) (commands : list VR90MappedCommand) : result emu_error (list VR90MappedCommand) :=
  match commands with
  | [] => Ok []
  | c :: rest =>
      let name := TrimSpace (c_Name c) in
      let name := if bool_decide (name = []) then mapped_name idx c else name in
      if bool_decide (is_Some (PayloadExact c)) && bool_decide (is_Some (PayloadPrefix c)) then Err ErrInvalidConfiguration
      else if len (ResponseData c) =? 0 then Err ErrInvalidConfiguration
      else
        let* rest' := normalize_commands (idx + 1) rest in
        Ok (mkCommand name (c_Primary c) (c_Secondary c) (PayloadExact c) (PayloadPrefix c) (ResponseData c) :: rest')
  end.

Definition normalizeVR90MappedCommands (commands : list VR90MappedCommand) : result emu_error (list VR90MappedCommand) :=
  if len commands =? 0 then Ok [] else normalize_commands 0 commands.

Definition hasIdentityOverrides (p : VR90Profile) : bool :=
  negb (v_Manufacturer p =b x00) || negb (bool_decide (TrimSpace (v_DeviceID p) = [])) ||
  negb (v_Software p =? 0) || negb (v_Hardware p =? 0).

Definition normalizeVR90Profile (p : VR90Profile) : result emu_error VR90Profile :=
  if v_Address p =b x00 then Err ErrInvalidConfiguration
  else
    let manufacturer := or_default (v_Manufacturer p =b x00) DefaultManufacturer (v_Manufacturer p) in
    let deviceID := or_default (bool_decide (TrimSpace (v_DeviceID p) = [])) DefaultVR90DeviceID (v_DeviceID p) in
    let software := or_default (negb (hasIdentityOverrides p)) 0x0422 (v_Software p) in
    let hardware := or_default (negb (hasIdentityOverrides p)) 0x5503 (v_Hardware p) in
    let delay := or_default (v_ResponseDelay p <=? 0) defaultVR90ResponseDelay (v_ResponseDelay p) in
    let timing := or_default (negb (active (v_Timing p))) defaultVR90Timing (v_Timing p) in
    let scanID := normalizeVR90ScanID (ScanID p) in
    match validate timing delay with
    | Some err => Err err
    | None =>
        let trimmed := TrimSpace deviceID in
        if bool_decide (trimmed = []) then Err ErrInvalidConfiguration
        else
          let* commands := normalizeVR90MappedCommands (MappedCommands p) in
          Ok (mkVR90 (v_Address p) manufacturer (cut_id trimmed) software hardware (EnableB509Discovery p) scanID
                commands delay timing)
    end.

Definition normalizeVR92Profile (p : VR92Profile) : result emu_error VR92Profile :=
  if v_Address p =b x00 then Err ErrInvalidConfiguration
  else
    let manufacturer := or_default (v_Manufacturer p =b x00) DefaultManufacturer (v_Manufacturer p) in
    let deviceID := or_default (bool_decide (TrimSpace (v_DeviceID p) = [])) DefaultVR92DeviceID (v_DeviceID p) in
    let software := or_default (negb (hasIdentityOverrides p)) 0x0514 (v_Software p) in
    let hardware := or_default (negb (hasIdentityOverrides p)) 0x1204 (v_Hardware p) in
    let delay := or_default (v_ResponseDelay p <=? 0) defaultVR90ResponseDelay (v_ResponseDelay p) in
    let timing := or_default (negb (active (v_Timing p))) defaultVR90Timing (v_Timing p) in
    match validate timing delay with
    | Some err => Err err
    | None =>
        let trimmed := TrimSpace deviceID in
        if bool_decide (trimmed = []) then Err ErrInvalidConfiguration
        else if EnableB509Discovery p && bool_decide (TrimSpace (ScanID p) = []) then Err ErrInvalidConfiguration
        else
          let* commands := normalizeVR90MappedCommands (MappedCommands p) in
          Ok (mkVR90 (v_Address p) manufacturer (cut_id trimmed) software hardware (EnableB509Discovery p) (ScanID p)
                commands delay timing)
    end.

Definition vr90MappedCommandMatcher (c : VR90MappedCommand) : MatchFunc :=
  match PayloadExact c, PayloadPrefix c with
  | Some payload, _ =>
      Some (fun frame => (fPrimary frame =b c_Primary c) && (fSecondary frame =b c_Secondary c) && bool_decide (fData frame = payload))
  | None, Some prefix => MatchPrimarySecondaryWithPrefix (c_Primary c) (c_Secondary c) prefix
  | None, None => MatchPrimarySecondary (c_Primary c) (c_Secondary c)
  end.

Definition vr90MappedRule (c : VR90MappedCommand) (delay : Z) : Rule :=
  mkRule (c_Name c) (Some (vr90MappedCommandMatcher c)) (Some (Some (fun _ => Ok (mkPlan delay (ResponseData c))))) (mkTiming 0 0).

Definition is_b509_scan (frame : Frame) : bool :=
  (fPrimary frame =b xb5) && (fSecondary frame =b x09) && (len (fData frame) =? 1) &&
  isVR90B509ScanIDSelector (nth 0 (fData frame) x00).

Definition b509_rule (p : VR90Profile) : Rule :=
  mkRule (bytes_of_string "vaillant-b509-scanid") (Some (Some is_b509_scan))
    (Some (Some (fun frame =>
       match vr90B509ScanIDChunk (ScanID p) (nth 0 (fData frame) x00) with
       | None => Err ErrNoMatchingRule
       | Some chunk => Ok (mkPlan (v_ResponseDelay p) chunk)
       end))) (mkTiming 0 0).

Definition NewVR90Target (profile : VR90Profile) : result emu_error Target :=
  let* p := normalizeVR90Profile profile in
  let* target := NewIdentifyOnlyTarget
    (mkIdentify (vr90_minimal (v_Address p)) (v_Address p) (v_Manufacturer p) (v_DeviceID p) (v_Software p) (v_Hardware p)
       (v_ResponseDelay p) (v_Timing p)) in
  Ok (mkTarget (t_Name target) (t_Address target) (DefaultTiming target)
        (Rules target ++ (if EnableB509Discovery p then [b509_rule p] else []) ++
         map (fun c => vr90MappedRule c (v_ResponseDelay p)) (MappedCommands p))).

Definition NewVR92Target (profile : VR92Profile) : result emu_error Target :=
  let* normalized := normalizeVR92Profile profile in NewVR90Target normalized.

(** ** The harness *)

Record ResponseEnvelope := mkEnvelope { MinDelay : Z; MaxDelay : Z }.

Definition envelope_validate (e : ResponseEnvelope) : option emu_error :=
  if (MinDelay e <? 0) || (MaxDelay e <? 0) then Some ErrInvalidConfiguration
  else if (0 <? MaxDelay e) && (MaxDelay e <? MinDelay e) then Some ErrInvalidConfiguration
  else None.

Fixpoint envelope_loop (responses : list EmulatedResponse) (e : ResponseEnvelope) : option emu_error :=
  match responses with
  | [] => None
  | r :: rest =>
      let delay := swrap 64 (RespondAt r - Requested r) in
      if delay <? MinDelay e then Some ErrTimingConstraint
      else if (0 <? MaxDelay e) && (MaxDelay e <? delay) then Some ErrTimingConstraint
      else envelope_loop rest e
  end.

Definition ValidateResponseEnvelope (responses : list EmulatedResponse) (e : ResponseEnvelope) : option emu_error :=
  match envelope_validate e with Some err => Some err | None => envelope_loop responses e end.

Record QueryStep := mkStep { q_Advance : Z; q_Frame : Frame }.

Record Harness := mkHarness { h_target : option Target; h_now : Z; h_history : list EmulatedResponse }.

Definition NewHarness (t : option Target) : Harness := mkHarness t 0 [].

(** The methods of a [*Harness], nil included. *)
Definition Now (h : option Harness) : Z := match h with None => 0 | Some h => h_now h end.

Definition Advance (delta : Z) (h : option Harness) : option Harness :=
  match h with
  | None => None
  | Some h => if delta <=? 0 then Some h else Some (mkHarness (h_target h) (swrap 64 (h_now h + delta)) (h_history h))
  end.

Definition Query (frame : Frame) (h : option Harness) : option Harness * result emu_error EmulatedResponse :=
  match h with
  | None => (h, Err ErrInvalidConfiguration)
  | Some hs =>
      if bool_decide (is_Some (h_target hs)) then
        match Emulate (h_target hs) (mkEvent (h_now hs) frame) with
        | Err err => (h, Err err)
        | Ok response => (Some (mkHarness (h_target hs) (h_now hs) (h_history hs ++ [response])), Ok response)
        end
      else (h, Err ErrInvalidConfiguration)
  end.

Fixpoint run_steps (idx : Z) (steps : list QueryStep) (h : option Harness)
    : option Harness * result emu_error (list EmulatedResponse) :=
  match steps with
  | [] => (h, Ok [])
  | step :: rest =>
      if q_Advance step <? 0 then (h, Err ErrInvalidConfiguration)
      else
        let h := Advance (q_Advance step) h in
        match Query (q_Frame step) h with
        | (h, Err err) => (h, Err (AtStep idx err))
        | (h, Ok response) =>
            let (h, out) := run_steps (idx + 1) rest h in (h, let* rest' := out in Ok (response :: rest'))
        end
  end.

Definition has_target (h : option Harness) : bool := match h with Some hs => bool_decide (is_Some (h_target hs)) | None => false end.

Definition RunSequence (steps : list QueryStep) (h : option Harness) : option Harness * result emu_error (list EmulatedResponse) :=
  if negb (has_target h) then (h, Err ErrInvalidConfiguration) else run_steps 0 steps h.

Definition History (h : option Harness) : list EmulatedResponse := match h with None => [] | Some h => h_history h end.
