(* ===== verification/EmulationLaws.v ===== *)
(** What the emulated targets answer: the first matching rule within its
    timing (framework.go), the profile of a VR 90 or VR 92 as a table of
    replies (vr90.go, vr92.go), the scan identifier put together again from its
    chunks, and the harness's history within its envelope (harness.go). *)

From S2P Require Import Prelude Errors Wire Address Text Emulation.
#[local] Open Scope list_scope.
#[local] Open Scope Z_scope.

(** ** Rules and timing *)

Definition within (c : TimingConstraints) (delay : Z) : Prop :=
  0 <= MinResponseDelay c <= delay /\ 0 <= MaxResponseDelay c /\ (0 < MaxResponseDelay c -> delay <= MaxResponseDelay c).

Lemma validate_within c d : validate c d = None <-> within c d.
Proof.
  unfold validate, within.
  repeat match goal with |- context [Z.ltb ?a ?b] => destruct (Z.ltb_spec a b); cbn [orb andb] end; split; intros; try done; try lia.
Qed.

Definition passes_over (frame : Frame) (rule : Rule) : Prop :=
  exists m, Matcher rule = Some m /\ MatchFunc_Match m frame = false.

Definition answers (t : Target) (event : RequestEvent) (rule : Rule) (r : EmulatedResponse) : Prop :=
  exists m b plan, Matcher rule = Some m /\ MatchFunc_Match m (e_Frame event) = true /\
    Builder rule = Some b /\ BuildFunc_Build b (e_Frame event) = Ok plan /\
    within (timing_of t rule) (p_Delay plan) /\ r = respond t event rule plan.

Lemma emulate_rules_Ok t event rules r :
  emulate_rules t event rules = Ok r <->
  exists before rule after, rules = before ++ rule :: after /\ Forall (passes_over (e_Frame event)) before /\ answers t event rule r.
Proof.
  induction rules as [|rule rules IH]; cbn.
  - split; [done|]. intros (before & rule & after & E & _). by destruct before.
  - destruct (Matcher rule) as [m|] eqn:Em.
    2: { split; [done|]. intros (before & rule' & after & E & Hb & Ha). destruct before as [|x before].
         - injection E as -> ->. destruct Ha as (m & b & plan & Hm & _). congruence.
         - injection E as -> ->. inversion Hb as [|? ? (m & Hm & _) _]. congruence. }
    destruct (MatchFunc_Match m (e_Frame event)) eqn:Ef; cbn [negb].
    + split.
      * destruct (Builder rule) as [b|] eqn:Eb; [|done]. intros (plan & Ep & H)%rbind_ok_inv.
        destruct (validate _ _) eqn:Ev; [done|]. injection H as <-. exists [], rule, rules. split; [done|]. split; [by constructor|].
        exists m, b, plan. by rewrite <- validate_within.
      * intros (before & rule' & after & E & Hb & Ha). destruct before as [|x before].
        -- injection E as -> ->. destruct Ha as (m' & b & plan & Hm & _ & Hb' & Ep & Hw & ->). rewrite Hb', Ep. cbn.
           apply validate_within in Hw. by rewrite Hw.
        -- injection E as -> ->. inversion Hb as [|? ? (m' & Hm & Hf) _]. congruence.
    + rewrite IH. split.
      * intros (before & rule' & after & -> & Hb & Ha). exists (rule :: before), rule', after.
        split; [done|]. split; [constructor; [by exists m|done]|done].
      * intros (before & rule' & after & E & Hb & Ha). destruct before as [|x before].
        -- injection E as -> ->. destruct Ha as (m' & b & plan & Hm & Hf & _). congruence.
        -- injection E as -> ->. inversion Hb; subst. by exists before, rule', after.
Qed.

(** a target answers exactly the requests to its address for which some
    rule matches, every rule before it has a matcher that passes the request
    over, its builder gives a plan, and the plan's delay is within the rule's
    timing; the reply goes back to the sender after that delay. *)
Theorem Emulate_answers_iff t event r :
  Emulate (Some t) event = Ok r <->
  fTarget (e_Frame event) = t_Address t /\
  exists before rule after, Rules t = before ++ rule :: after /\
    Forall (passes_over (e_Frame event)) before /\ answers t event rule r.
Proof.
  unfold Emulate. destruct (byte_eqb_spec (fTarget (e_Frame event)) (t_Address t)); cbn [negb].
  - rewrite emulate_rules_Ok. tauto.
  - split; [done|]. by intros [? _].
Qed.

(** ** A profile as a table of replies *)

Definition pads_to (n : nat) (s : list byte) : list byte := s ++ replicate (n - length s) x20.
Definition be16 (z : Z) : list byte := [b8 (Z.shiftr z 8); b8 (Z.land z 0xff)].

(** What a device says it is when the profile leaves something unset. *)
Record identity := mkIdentity { dflt_id : list byte; dflt_software : Z; dflt_hardware : Z }.
Definition VR90_identity := mkIdentity DefaultVR90DeviceID 0x0422 0x5503.
Definition VR92_identity := mkIdentity DefaultVR92DeviceID 0x0514 0x1204.

Definition effective_id (d : identity) (p : VR90Profile) : list byte :=
  let id := TrimSpace (v_DeviceID p) in if bool_decide (id = []) then dflt_id d else id.
Definition effective_manufacturer (p : VR90Profile) : byte := or_default (v_Manufacturer p =b x00) DefaultManufacturer (v_Manufacturer p).
Definition effective_software (d : identity) (p : VR90Profile) : Z := or_default (negb (hasIdentityOverrides p)) (dflt_software d) (v_Software p).
Definition effective_hardware (d : identity) (p : VR90Profile) : Z := or_default (negb (hasIdentityOverrides p)) (dflt_hardware d) (v_Hardware p).
Definition effective_delay (p : VR90Profile) : Z := or_default (v_ResponseDelay p <=? 0) defaultVR90ResponseDelay (v_ResponseDelay p).
Definition effective_timing (p : VR90Profile) : TimingConstraints := or_default (negb (active (v_Timing p))) defaultVR90Timing (v_Timing p).

(** The manufacturer, five bytes of identifier, and both versions. *)
Definition identification (d : identity) (p : VR90Profile) : list byte :=
  effective_manufacturer p :: pads_to 5 (TrimSpace (take 5 (effective_id d p))) ++
  be16 (effective_software d p) ++ be16 (effective_hardware d p).

(** The 32 bytes the scan selectors show. *)
Definition scan_text (p : VR90Profile) : list byte := normalizeVR90ScanID (normalizeVR90ScanID (ScanID p)).

Definition command_matches (frame : Frame) (c : VR90MappedCommand) : bool :=
  (fPrimary frame =b c_Primary c) && (fSecondary frame =b c_Secondary c) &&
  match PayloadExact c, PayloadPrefix c with
  | Some payload, _ => bool_decide (fData frame = payload)
  | None, Some prefix => bool_decide (prefix `prefix_of` fData frame)
  | None, None => true
  end.

Definition command_name (idx : Z) (c : VR90MappedCommand) : list byte :=
  let name := TrimSpace (c_Name c) in if bool_decide (name = []) then mapped_name idx c else name.

(** The rule that answers, and the data of its reply. *)
Definition vr_reply (d : identity) (p : VR90Profile) (frame : Frame) : option (list byte * list byte) :=
  if (fPrimary frame =b x07) && (fSecondary frame =b x04) then Some (bytes_of_string "identify", identification d p)
  else if EnableB509Discovery p && is_b509_scan frame
  then Some (bytes_of_string "vaillant-b509-scanid",
             x00 :: take 8 (drop (8 * Z.to_nat (u8 (nth 0 (fData frame) x00) - 0x24)) (scan_text p)))
  else
    match List.find (fun ic => command_matches frame ic.2) (imap (fun i c => (Z.of_nat i, c)) (MappedCommands p)) with
    | Some (i, c) => Some (command_name i c, ResponseData c)
    | None => None
    end.

Definition command_ok (c : VR90MappedCommand) : bool :=
  negb (bool_decide (is_Some (PayloadExact c)) && bool_decide (is_Some (PayloadPrefix c))) && negb (len (ResponseData c) =? 0).

Definition vr_valid (p : VR90Profile) : Prop :=
  v_Address p <> x00 /\ within (effective_timing p) (effective_delay p) /\ forallb command_ok (MappedCommands p) = true.

(** The target that serves the table. *)
Definition serves (d : identity) (p : VR90Profile) (t : Target) : Prop :=
  forall at_ frame, Emulate (Some t) (mkEvent at_ frame) =
    if negb (fTarget frame =b v_Address p) then Err ErrRequestTargetMismatch
    else match vr_reply d p frame with
         | None => Err ErrNoMatchingRule
         | Some (name, data) =>
             Ok (mkResponse name at_ (swrap 64 (at_ + effective_delay p))
                   (mkFrame (v_Address p) (fSource frame) (fPrimary frame) (fSecondary frame) data FrameTypeUnknown))
         end.

Definition rename (idx : Z) (c : VR90MappedCommand) : VR90MappedCommand :=
  mkCommand (command_name idx c) (c_Primary c) (c_Secondary c) (PayloadExact c) (PayloadPrefix c) (ResponseData c).

Lemma normalize_commands_eq idx cs :
  normalize_commands idx cs =
  if forallb command_ok cs then Ok (imap (fun i c => rename (idx + Z.of_nat i) c) cs) else Err ErrInvalidConfiguration.
Proof.
  revert idx. induction cs as [|c cs IH]; intros idx; [done|]. cbn [normalize_commands forallb]. unfold command_ok at 1.
  destruct (_ && _) eqn:E1; [done|]. cbn [negb andb]. destruct (len (ResponseData c) =? 0); [done|]. cbn [negb andb].
  rewrite IH. destruct (forallb command_ok cs); [|done]. cbn. f_equal. f_equal.
  - unfold rename, command_name. by rewrite Z.add_0_r.
  - apply imap_ext. intros i x _. cbn. f_equal. lia.
Qed.

Lemma normalize_mapped_eq cs :
  normalizeVR90MappedCommands cs =
  if forallb command_ok cs then Ok (imap (fun i c => rename (Z.of_nat i) c) cs) else Err ErrInvalidConfiguration.
Proof. unfold normalizeVR90MappedCommands. destruct cs as [|c cs]; [done|]. by rewrite normalize_commands_eq. Qed.

(** ** From profiles to rules *)

(** What [normalizeVR90Profile] makes of a profile it accepts. *)
Definition normal (d : identity) (scan : list byte) (p : VR90Profile) : VR90Profile :=
  mkVR90 (v_Address p) (effective_manufacturer p) (take 5 (effective_id d p)) (effective_software d p) (effective_hardware d p)
    (EnableB509Discovery p) scan (imap (fun i c => rename (Z.of_nat i) c) (MappedCommands p)) (effective_delay p) (effective_timing p).

Definition good_identity (d : identity) : Prop := trimmed (dflt_id d) /\ dflt_id d <> [].

Lemma identities_good : good_identity VR90_identity /\ good_identity VR92_identity.
Proof. repeat split; vm_compute; (reflexivity || discriminate). Qed.

Lemma cut_id_take s : cut_id s = take 5 s.
Proof. unfold cut_id, slice_to, len, identifyOnlyDeviceIDLength. destruct (Z.ltb_spec 5 (Z.of_nat (length s))); [done|]. by rewrite take_ge by lia. Qed.

Lemma effective_id_good d p : good_identity d -> trimmed (effective_id d p) /\ effective_id d p <> [].
Proof. intros [Ht Hne]. unfold effective_id. case_bool_decide; [done|]. split; [apply TrimSpace_trimmed|done]. Qed.

Lemma or_default_id d p :
  good_identity d -> TrimSpace (or_default (bool_decide (TrimSpace (v_DeviceID p) = [])) (dflt_id d) (v_DeviceID p)) = effective_id d p.
Proof. intros [Ht _]. unfold effective_id, or_default. case_bool_decide; [by apply TrimSpace_of_trimmed|done]. Qed.

Definition timing_error (p : VR90Profile) : option emu_error := validate (effective_timing p) (effective_delay p).

Lemma normalizeVR90Profile_eq p :
  normalizeVR90Profile p =
  if v_Address p =b x00 then Err ErrInvalidConfiguration
  else match timing_error p with
       | Some err => Err err
       | None => if forallb command_ok (MappedCommands p) then Ok (normal VR90_identity (normalizeVR90ScanID (ScanID p)) p)
                 else Err ErrInvalidConfiguration
       end.
Proof.
  unfold normalizeVR90Profile, timing_error. destruct (v_Address p =b x00); [done|]. cbv zeta.
  fold (effective_timing p) (effective_delay p). destruct (validate _ _); [done|].
  change DefaultVR90DeviceID with (dflt_id VR90_identity). rewrite (or_default_id VR90_identity p) by apply identities_good.
  destruct (effective_id_good VR90_identity p (proj1 identities_good)) as [_ Hne].
  rewrite bool_decide_false by done. rewrite normalize_mapped_eq, cut_id_take. by destruct (forallb _ _).
Qed.

Lemma normalizeVR92Profile_eq p :
  normalizeVR92Profile p =
  if v_Address p =b x00 then Err ErrInvalidConfiguration
  else match timing_error p with
       | Some err => Err err
       | None => if EnableB509Discovery p && bool_decide (TrimSpace (ScanID p) = []) then Err ErrInvalidConfiguration
                 else if forallb command_ok (MappedCommands p) then Ok (normal VR92_identity (ScanID p) p)
                 else Err ErrInvalidConfiguration
       end.
Proof.
  unfold normalizeVR92Profile, timing_error. destruct (v_Address p =b x00); [done|]. cbv zeta.
  fold (effective_timing p) (effective_delay p). destruct (validate _ _); [done|].
  change DefaultVR92DeviceID with (dflt_id VR92_identity). rewrite (or_default_id VR92_identity p) by apply identities_good.
  destruct (effective_id_good VR92_identity p (proj2 identities_good)) as [_ Hne].
  rewrite bool_decide_false by done. rewrite normalize_mapped_eq, cut_id_take. destruct (_ && _); [done|]. by destruct (forallb _ _).
Qed.

Lemma vr90_minimal_trimmed addr : TrimSpace (vr90_minimal addr) = vr90_minimal addr /\ vr90_minimal addr <> [].
Proof. split; [|discriminate]. apply (byte_ext (fun a => TrimSpace (vr90_minimal a)) vr90_minimal). vm_compute. reflexivity. Qed.

Lemma effective_delay_pos p : (effective_delay p <=? 0) = false.
Proof. unfold effective_delay, or_default. destruct (v_ResponseDelay p <=? 0) eqn:E; [reflexivity|done]. Qed.
Lemma effective_timing_active p : active (effective_timing p) = true.
Proof. unfold effective_timing, or_default. destruct (active (v_Timing p)) eqn:E; [done|reflexivity]. Qed.
Lemma effective_manufacturer_set p : (effective_manufacturer p =b x00) = false.
Proof. unfold effective_manufacturer, or_default. destruct (v_Manufacturer p =b x00) eqn:E; [reflexivity|done]. Qed.

(** The rule a target tries next, when its matcher and builder are known. *)
Lemma emulate_rule_cons t event name mf bf rules b data delay :
  validate (DefaultTiming t) delay = None ->
  MatchFunc_Match mf (e_Frame event) = b ->
  (b = true -> BuildFunc_Build bf (e_Frame event) = Ok (mkPlan delay data)) ->
  emulate_rules t event (mkRule name (Some mf) (Some bf) (mkTiming 0 0) :: rules) =
  if b then Ok (respond t event (mkRule name (Some mf) (Some bf) (mkTiming 0 0)) (mkPlan delay data))
  else emulate_rules t event rules.
Proof.
  intros Hv Hm Hb. cbn [emulate_rules Matcher Builder]. rewrite Hm. destruct b; [|done]. cbn [negb].
  rewrite (Hb eq_refl). cbn [rbind]. unfold timing_of. cbn [Timing active MinResponseDelay MaxResponseDelay]. cbn. by rewrite Hv.
Qed.

Lemma effective_id_length d p : (length (TrimSpace (take 5 (effective_id d p))) <= 5)%nat.
Proof. pose proof (length_TrimSpace (take 5 (effective_id d p))). rewrite length_take in H. lia. Qed.

Lemma payload_pads m name addr id sw hw delay timing :
  (length id <= 5)%nat ->
  identificationPayload (mkIdentify name addr m id sw hw delay timing) = m :: pads_to 5 id ++ be16 sw ++ be16 hw.
Proof.
  intros Hid. unfold identificationPayload. cbn [i_DeviceID i_Manufacturer i_Software i_Hardware].
  assert (take 5 (pad_right 5 id) = pads_to 5 id) as E.
  { pose proof (take_pad_right 5 id ltac:(unfold len; lia)) as H. change (Z.to_nat 5) with 5%nat in H. rewrite H. unfold pads_to.
    do 2 f_equal. unfold len. lia. }
  rewrite <- E. assert (length (take 5 (pad_right 5 id)) = 5%nat) as El.
  { rewrite E. unfold pads_to. rewrite length_app, length_replicate. lia. }
  change identifyOnlyDeviceIDLength with 5. generalize dependent (pad_right 5 id). intros l _ El.
  do 5 (destruct l as [|? l]; [cbn in El; lia|]). reflexivity.
Qed.

(** The rules of a normalised profile with discovery or without. *)
Definition vr_rules (d : identity) (scan : list byte) (p : VR90Profile) : list Rule :=
  identify_rule (mkIdentify (vr90_minimal (v_Address p)) (v_Address p) (effective_manufacturer p)
    (TrimSpace (take 5 (effective_id d p))) (effective_software d p) (effective_hardware d p) (effective_delay p) (effective_timing p)) ::
  (if EnableB509Discovery p then [b509_rule (normal d scan p)] else []) ++
  map (fun c => vr90MappedRule c (effective_delay p)) (imap (fun i c => rename (Z.of_nat i) c) (MappedCommands p)).

Lemma NewVR90Target_rules p :
  NewVR90Target p =
  if v_Address p =b x00 then Err ErrInvalidConfiguration
  else match timing_error p with
       | Some err => Err err
       | None =>
           if forallb command_ok (MappedCommands p)
           then Ok (mkTarget (vr90_minimal (v_Address p)) (v_Address p) (effective_timing p)
                      (vr_rules VR90_identity (normalizeVR90ScanID (ScanID p)) p))
           else Err ErrInvalidConfiguration
       end.
Proof.
  unfold NewVR90Target. rewrite normalizeVR90Profile_eq. destruct (v_Address p =b x00) eqn:Ea; [done|].
  destruct (timing_error p) eqn:Et; [done|]. destruct (forallb _ _); [|done]. cbn [rbind].
  destruct (effective_id_good VR90_identity p (proj1 identities_good)) as [Ht Hne].
  destruct (vr90_minimal_trimmed (v_Address p)) as [Hn Hn'].
  unfold NewIdentifyOnlyTarget, normalizeIdentifyOnlyProfile, normal.
  cbn [i_Name i_Address i_Manufacturer i_DeviceID i_Software i_Hardware i_ResponseDelay i_Timing v_Address v_Manufacturer
       v_DeviceID v_Software v_Hardware v_ResponseDelay v_Timing]. cbv zeta.
  pose proof (TrimSpace_take 5 _ Ht Hne ltac:(lia)) as Hid.
  rewrite Hn, Ea, effective_manufacturer_set, (bool_decide_false _ Hn'), (bool_decide_false _ Hid).
  rewrite effective_delay_pos, effective_timing_active. cbn [or_default negb]. unfold timing_error in Et. rewrite Et. cbn [rbind].
  rewrite cut_id_take, take_ge by apply effective_id_length. reflexivity.
Qed.

(** A normalised profile is read as the profile it comes from. *)

Lemma effective_manufacturer_normal d scan p : effective_manufacturer (normal d scan p) = effective_manufacturer p.
Proof. unfold effective_manufacturer at 1. cbn [v_Manufacturer normal]. by rewrite effective_manufacturer_set. Qed.

Lemma overrides_normal d scan p : hasIdentityOverrides (normal d scan p) = true.
Proof. unfold hasIdentityOverrides. cbn [v_Manufacturer normal]. by rewrite effective_manufacturer_set. Qed.

Lemma effective_delay_normal d scan p : effective_delay (normal d scan p) = effective_delay p.
Proof. unfold effective_delay at 1. cbn [v_ResponseDelay normal]. by rewrite effective_delay_pos. Qed.

Lemma effective_timing_normal d scan p : effective_timing (normal d scan p) = effective_timing p.
Proof. unfold effective_timing at 1. cbn [v_Timing normal]. by rewrite effective_timing_active. Qed.

Lemma timing_error_normal d scan p : timing_error (normal d scan p) = timing_error p.
Proof. unfold timing_error. by rewrite effective_delay_normal, effective_timing_normal. Qed.

Lemma effective_id_normal d' d scan p :
  good_identity d -> TrimSpace (take 5 (effective_id d' (normal d scan p))) = TrimSpace (take 5 (effective_id d p)).
Proof.
  intros Hd. destruct (effective_id_good d p Hd) as [Ht Hne]. unfold effective_id at 1. cbn [v_DeviceID normal]. cbv zeta.
  pose proof (TrimSpace_take 5 _ Ht Hne ltac:(lia)) as Hid. rewrite (bool_decide_false _ Hid), take_ge by apply effective_id_length. apply TrimSpace_idem.
Qed.

Lemma mapped_name_trimmed i c : trimmed (mapped_name (Z.of_nat i) c) /\ mapped_name (Z.of_nat i) c <> [].
Proof.
  split; [|discriminate]. unfold mapped_name, fmt_d. destruct (decimal_last i) as (pre & d & -> & Hd).
  rewrite !app_assoc. change (bytes_of_string "mapped-pb-0x") with (x6d :: bytes_of_string "apped-pb-0x").
  rewrite <- !app_comm_cons. by apply trimmed_between.
Qed.

Lemma rename_rename i c : rename (Z.of_nat i) (rename (Z.of_nat i) c) = rename (Z.of_nat i) c.
Proof.
  unfold rename at 1 3. f_equal. unfold command_name at 1. cbn [c_Name rename]. cbv zeta.
  assert (trimmed (command_name (Z.of_nat i) c) /\ command_name (Z.of_nat i) c <> []) as [Ht Hne].
  { unfold command_name. case_bool_decide as E; [apply mapped_name_trimmed|]. split; [apply TrimSpace_trimmed|done]. }
  by rewrite (TrimSpace_of_trimmed _ Ht), bool_decide_false.
Qed.

Lemma commands_normal d scan p :
  imap (fun i c => rename (Z.of_nat i) c) (MappedCommands (normal d scan p)) = MappedCommands (normal d scan p).
Proof.
  cbn [MappedCommands normal]. apply list_eq. intros i. rewrite !list_lookup_imap.
  destruct (MappedCommands p !! i) as [c|]; cbn; [by rewrite rename_rename|done].
Qed.

Lemma commands_ok_normal d scan p : forallb command_ok (MappedCommands (normal d scan p)) = forallb command_ok (MappedCommands p).
Proof.
  cbn [MappedCommands normal]. generalize (MappedCommands p). intros cs.
  enough (forall g : nat -> Z, forallb command_ok (imap (fun i c => rename (g i) c) cs) = forallb command_ok cs) as H by exact (H Z.of_nat).
  induction cs as [|c cs IH]; intros g; [done|]. cbn. f_equal. exact (IH (g ∘ S)).
Qed.

Lemma vr_rules_normal d' d scan0 scan p : good_identity d -> vr_rules d' scan (normal d scan0 p) = vr_rules d scan p.
Proof.
  intros Hd. unfold vr_rules. rewrite commands_normal, effective_id_normal, effective_manufacturer_normal by done.
  unfold effective_software at 1, effective_hardware at 1. rewrite overrides_normal, effective_delay_normal, effective_timing_normal.
  unfold b509_rule, normal at 6. cbn [or_default negb v_Address v_Software v_Hardware EnableB509Discovery MappedCommands ScanID v_ResponseDelay normal].
  by rewrite effective_delay_normal.
Qed.

Lemma NewVR92Target_rules p :
  NewVR92Target p =
  if v_Address p =b x00 then Err ErrInvalidConfiguration
  else match timing_error p with
       | Some err => Err err
       | None =>
           if EnableB509Discovery p && bool_decide (TrimSpace (ScanID p) = []) then Err ErrInvalidConfiguration
           else if forallb command_ok (MappedCommands p)
           then Ok (mkTarget (vr90_minimal (v_Address p)) (v_Address p) (effective_timing p)
                      (vr_rules VR92_identity (normalizeVR90ScanID (ScanID p)) p))
           else Err ErrInvalidConfiguration
       end.
Proof.
  unfold NewVR92Target. rewrite normalizeVR92Profile_eq. destruct (v_Address p =b x00) eqn:Ea; [done|].
  destruct (timing_error p) eqn:Et; [done|]. destruct (_ && _); [done|]. destruct (forallb _ _) eqn:Ec; [|done]. cbn [rbind].
  rewrite NewVR90Target_rules. change (v_Address (normal VR92_identity (ScanID p) p)) with (v_Address p). rewrite Ea, timing_error_normal, Et, commands_ok_normal, Ec.
  rewrite (vr_rules_normal _ _ _ _ _ (proj2 identities_good)), effective_timing_normal. reflexivity.
Qed.

(** ** From rules to replies *)

Lemma prefix_loop_prefix data prefix : prefix_loop data prefix = bool_decide (prefix `prefix_of` data).
Proof.
  revert data. induction prefix as [|p prefix IH]; intros data; [rewrite bool_decide_eq_true_2 by apply prefix_nil; by destruct data|].
  destruct data as [|d data]; cbn.
  - symmetry. apply bool_decide_eq_false_2. intros H. by apply prefix_nil_inv in H.
  - destruct (byte_eqb_spec d p) as [->|Hne]; cbn [negb].
    + rewrite IH. apply bool_decide_ext. split; [apply prefix_cons|apply prefix_cons_inv_2].
    + symmetry. apply bool_decide_eq_false_2. intros H. apply prefix_cons_inv_1 in H. congruence.
Qed.

Lemma matcher_matches c frame : MatchFunc_Match (vr90MappedCommandMatcher c) frame = command_matches frame c.
Proof.
  unfold vr90MappedCommandMatcher, command_matches. destruct (PayloadExact c) as [payload|]; [done|].
  destruct (PayloadPrefix c) as [prefix|]; cbn; [|by rewrite andb_true_r].
  destruct (fPrimary frame =b c_Primary c), (fSecondary frame =b c_Secondary c); cbn [negb orb andb]; try done.
  rewrite <- prefix_loop_prefix. destruct (Z.eqb_spec (len prefix) 0) as [E|_].
  - destruct prefix as [|b pre]; [by destruct (fData frame)|]. rewrite len_cons in E. pose proof (len_nonneg pre). lia.
  - destruct (Z.ltb_spec (len (fData frame)) (len prefix)) as [Hlt|]; [|done]. rewrite prefix_loop_prefix. symmetry.
    apply bool_decide_eq_false_2. intros H%prefix_length. unfold len in Hlt. lia.
Qed.

Lemma emulate_mapped t event delay k cs :
  validate (DefaultTiming t) delay = None ->
  emulate_rules t event (map (fun c => vr90MappedRule c delay) (imap (fun i c => rename (Z.of_nat (k + i)) c) cs)) =
  match List.find (fun ic => command_matches (e_Frame event) ic.2) (imap (fun i c => (Z.of_nat (k + i), c)) cs) with
  | Some (i, c) => Ok (respond t event (mkRule (command_name i c) None None (mkTiming 0 0)) (mkPlan delay (ResponseData c)))
  | None => Err ErrNoMatchingRule
  end.
Proof.
  intros Hv. revert k. induction cs as [|c cs IH]; intros k; [done|]. rewrite !imap_cons, Nat.add_0_r. cbn [map List.find snd].
  unfold vr90MappedRule at 1.
  rewrite (emulate_rule_cons t event _ _ _ _ (command_matches (e_Frame event) c) (ResponseData c) delay); [|done| |done].
  - destruct (command_matches (e_Frame event) c); [done|].
    rewrite (imap_ext _ (fun i c => rename (Z.of_nat (S k + i)) c)), (imap_ext _ (fun i c => (Z.of_nat (S k + i), c)));
      [apply IH|intros i x _; cbn; do 2 f_equal; lia..].
  - by rewrite matcher_matches.
Qed.

Lemma chunk_of_text p selector :
  isVR90B509ScanIDSelector selector = true ->
  vr90B509ScanIDChunk (normalizeVR90ScanID (ScanID p)) selector = Some (x00 :: take 8 (drop (8 * Z.to_nat (u8 selector - 0x24)) (scan_text p))).
Proof.
  intros Hs. unfold vr90B509ScanIDChunk. rewrite Hs. cbn [negb]. fold (scan_text p). cbv zeta. do 2 f_equal.
  unfold isVR90B509ScanIDSelector in Hs. apply andb_true_iff in Hs as [H1%Z.leb_le H2%Z.leb_le].
  change (u8 x24) with 0x24 in *. change (u8 x27) with 0x27 in *. rewrite u8_b8_small by lia.
  unfold slice_from, slice_to, vr90B509ScanIDChunkSize. rewrite take_drop_commute. f_equal; [lia|]. f_equal. lia.
Qed.

Lemma vr_rules_serve d p name :
  timing_error p = None ->
  serves d p (mkTarget name (v_Address p) (effective_timing p) (vr_rules d (normalizeVR90ScanID (ScanID p)) p)).
Proof.
  intros Hv at_ frame. unfold Emulate. cbn [e_Frame t_Address Rules]. destruct (fTarget frame =b v_Address p); [|done]. cbn [negb].
  unfold vr_rules. set (t := mkTarget _ _ _ _). set (ev := mkEvent at_ frame).
  change (validate (DefaultTiming t) (effective_delay p) = None) in Hv. unfold identify_rule. unfold vr_reply.
  rewrite (emulate_rule_cons t ev _ _ _ _ ((fPrimary frame =b x07) && (fSecondary frame =b x04)) (identification d p) (effective_delay p));
    [|done|done|].
  2: { intros _. cbn. do 2 f_equal. apply payload_pads, effective_id_length. }
  destruct (_ && _); [done|]. destruct (EnableB509Discovery p); cbn [app andb].
  - unfold b509_rule.
    rewrite (emulate_rule_cons t ev _ _ _ _ (is_b509_scan frame)
      (x00 :: take 8 (drop (8 * Z.to_nat (u8 (nth 0 (fData frame) x00) - 0x24)) (scan_text p))) (effective_delay p)); [|done|done|].
    2: { intros Hs. unfold is_b509_scan in Hs. apply andb_true_iff in Hs as [_ Hs]. cbn [BuildFunc_Build e_Frame ev ScanID normal v_ResponseDelay].
         by rewrite (chunk_of_text p _ Hs). }
    destruct (is_b509_scan frame); [done|].
    etransitivity; [exact (emulate_mapped t ev (effective_delay p) 0 (MappedCommands p) Hv)|]. cbn [Nat.add e_Frame ev]. by destruct (List.find _ _) as [[i c]|].
  - etransitivity; [exact (emulate_mapped t ev (effective_delay p) 0 (MappedCommands p) Hv)|]. cbn [Nat.add e_Frame ev]. by destruct (List.find _ _) as [[i c]|].
Qed.

Lemma vr_valid_reflect p :
  vr_valid p <-> (v_Address p =b x00) = false /\ timing_error p = None /\ forallb command_ok (MappedCommands p) = true.
Proof. unfold vr_valid, timing_error. by rewrite validate_within, byte_eqb_neq. Qed.

(** a VR 90 target is built exactly from a profile with an address, a
    timing that admits its delay, and commands with a response and at most one
    payload matcher; then it answers every request as the table of the profile
    says: the identification, the scan identifier's chunks when discovery is
    enabled, the first mapped command that matches, and nothing else. *)
Theorem vr90_target_serves p :
  match NewVR90Target p with
  | Ok t => vr_valid p /\ t_Address t = v_Address p /\ serves VR90_identity p t
  | Err err => ~ vr_valid p
  end.
Proof.
  pose proof (vr_valid_reflect p) as Hv. rewrite NewVR90Target_rules. destruct (v_Address p =b x00); [by intros [? _]%Hv|].
  destruct (timing_error p) eqn:Et; [by intros (_ & ? & _)%Hv|]. destruct (forallb _ _); [|by intros (_ & _ & ?)%Hv].
  split; [by apply Hv|]. split; [done|]. by apply vr_rules_serve.
Qed.

(** a VR 92 target is the same with its own identity, except that
    discovery needs a scan identifier; and it is named like a VR 90. *)
Theorem vr92_target_serves p :
  match NewVR92Target p with
  | Ok t => vr_valid p /\ (EnableB509Discovery p = true -> TrimSpace (ScanID p) <> []) /\
      serves VR92_identity p t /\ t_Name t = vr90_minimal (v_Address p)
  | Err err => ~ (vr_valid p /\ (EnableB509Discovery p = true -> TrimSpace (ScanID p) <> []))
  end.
Proof.
  pose proof (vr_valid_reflect p) as Hv. rewrite NewVR92Target_rules. destruct (v_Address p =b x00); [by intros [[? _]%Hv _]|].
  destruct (timing_error p) eqn:Et; [by intros [(_ & ? & _)%Hv _]|].
  destruct (EnableB509Discovery p) eqn:Ed; cbn [andb].
  1: case_bool_decide as Es; [by intros [_ H]; apply (H eq_refl)|].
  all: destruct (forallb _ _) eqn:Ec; [|by intros [(_ & _ & ?)%Hv _]].
  all: split; [by apply Hv|]; split; [by intros|]; split; [by apply vr_rules_serve|done].
Qed.

(** ** The scan identifier *)

Lemma scan_pad s :
  normalizeVR90ScanID s = pads_to 32 (take 32 (let t := TrimSpace s in if bool_decide (t = []) then DefaultVR90ScanID else t)).
Proof.
  unfold normalizeVR90ScanID. cbv zeta. set (t := if bool_decide _ then _ else _). change vr90B509ScanIDLength with 32.
  unfold slice_to, len, pads_to. destruct (Z.ltb_spec 32 (Z.of_nat (length t))) as [Hlt|Hge].
  - change (Z.to_nat 32) with 32%nat. rewrite !length_take, !Nat.min_l by lia. symmetry. apply app_nil_r.
  - rewrite (take_ge t) by lia. destruct (Z.eqb_spec (Z.of_nat (length t)) 32) as [E|_].
    + replace (32 - length t)%nat with 0%nat by lia. cbn. by rewrite app_nil_r.
    + do 2 f_equal. lia.
Qed.

Lemma length_pads_to n s : (length s <= n)%nat -> length (pads_to n s) = n.
Proof. intros H. unfold pads_to. rewrite length_app, length_replicate. lia. Qed.

Lemma length_scan s : length (normalizeVR90ScanID s) = 32%nat.
Proof. rewrite scan_pad. apply length_pads_to. rewrite length_take. lia. Qed.

(** The data of the reply to a scan selector. *)
Definition scan_reply (t : Target) (source selector : byte) : list byte :=
  match Emulate (Some t) (mkEvent 0 (mkFrame source (t_Address t) xb5 x09 [selector] FrameTypeUnknown)) with
  | Ok r => drop 1 (fData (er_Frame r))
  | Err _ => []
  end.

(** with discovery enabled, the replies to the four scan selectors put
    together are the scan identifier, trimmed and padded with blanks to its 32
    bytes; any initiator may ask. *)
Theorem scan_id_reassembles p t source :
  NewVR90Target p = Ok t -> EnableB509Discovery p = true ->
  TrimSpace (ScanID p) <> [] -> (length (TrimSpace (ScanID p)) <= 32)%nat ->
  scan_reply t source x24 ++ scan_reply t source x25 ++ scan_reply t source x26 ++ scan_reply t source x27 =
  pads_to 32 (TrimSpace (ScanID p)).
Proof.
  intros Ht Hd Hs Hl. rewrite NewVR90Target_rules in Ht. destruct (v_Address p =b x00); [done|].
  destruct (timing_error p) eqn:Et; [done|]. destruct (forallb _ _); [|done]. injection Ht as <-.
  assert (scan_text p = pads_to 32 (TrimSpace (ScanID p))) as Etext.
  { assert (normalizeVR90ScanID (ScanID p) = pads_to 32 (TrimSpace (ScanID p))) as E1.
    { rewrite scan_pad. cbv zeta. by rewrite bool_decide_false, take_ge by done. }
    assert (TrimSpace (pads_to 32 (TrimSpace (ScanID p))) = TrimSpace (ScanID p)) as E2 by (apply TrimSpace_padded; [apply TrimSpace_trimmed|done]).
    unfold scan_text. rewrite E1, scan_pad. cbv zeta. rewrite E2. by rewrite bool_decide_false, take_ge by done. }
  pose proof (length_scan (normalizeVR90ScanID (ScanID p))) as Hlen. fold (scan_text p) in Hlen. rewrite <- Etext.
  unfold scan_reply. rewrite !(vr_rules_serve VR90_identity p _ Et). cbn [fTarget t_Address]. rewrite byte_eqb_refl. cbn [negb].
  unfold vr_reply. rewrite Hd. cbn -[take drop]. revert Hlen. generalize (scan_text p). intros l Hlen.
  do 32 (destruct l as [|? l]; [discriminate|]). destruct l; [reflexivity|discriminate].
Qed.

Definition sample_profile : VR90Profile :=
  mkVR90 x15 x00 [] 0 0 true DefaultVR90ScanID [mkCommand [] xb5 x04 None (Some [x00]) [x01; x02]] 0 (mkTiming 0 0).
Definition sample_target : Target :=
  match NewVR90Target sample_profile with Ok t => t | Err _ => mkTarget [] x00 (mkTiming 0 0) [] end.

Lemma scan_id_reassembles_witness :
  (NewVR90Target sample_profile = Ok sample_target /\ EnableB509Discovery sample_profile = true /\
   TrimSpace (ScanID sample_profile) <> [] /\ (length (TrimSpace (ScanID sample_profile)) <= 32)%nat) /\
  scan_reply sample_target x31 x24 ++ scan_reply sample_target x31 x25 ++ scan_reply sample_target x31 x26 ++ scan_reply sample_target x31 x27 =
  pads_to 32 (TrimSpace (ScanID sample_profile)).
Proof.
  assert (NewVR90Target sample_profile = Ok sample_target) as Ht by reflexivity.
  assert (TrimSpace (ScanID sample_profile) <> []) as Hs by (vm_compute; discriminate).
  assert (length (TrimSpace (ScanID sample_profile)) <= 32)%nat as Hl by (vm_compute; lia).
  split; [split; [exact Ht|split; [reflexivity|split; [exact Hs|exact Hl]]]|]. exact (scan_id_reassembles sample_profile sample_target x31 Ht eq_refl Hs Hl).
Defined.

(** ** The harness *)

Inductive harness_call := CallAdvance (delta : Z) | CallQuery (frame : Frame) | CallRun (steps : list QueryStep).

Definition harness_step (h : option Harness) (c : harness_call) : option Harness :=
  match c with
  | CallAdvance delta => Advance delta h
  | CallQuery frame => (Query frame h).1
  | CallRun steps => (RunSequence steps h).1
  end.

(** The timing of every rule lies inside the envelope, and its builder's
    delays are durations. *)
Definition rule_inside (e : ResponseEnvelope) (t : Target) (rule : Rule) : Prop :=
  MinDelay e <= MinResponseDelay (timing_of t rule) /\
  (0 < MaxDelay e -> 0 < MaxResponseDelay (timing_of t rule) <= MaxDelay e) /\
  (forall b frame plan, Builder rule = Some b -> BuildFunc_Build b frame = Ok plan -> p_Delay plan < 2 ^ 63).

Definition response_inside (e : ResponseEnvelope) (r : EmulatedResponse) : Prop :=
  let delay := swrap 64 (RespondAt r - Requested r) in MinDelay e <= delay /\ (0 < MaxDelay e -> delay <= MaxDelay e).

Lemma swrap_difference now d : 0 <= d < 2 ^ 63 -> swrap 64 (swrap 64 (now + d) - now) = d.
Proof.
  intros Hd. unfold swrap. change (2 ^ (64 - 1)) with (2 ^ 63).
  replace ((now + d + 2 ^ 63) mod 2 ^ 64 - 2 ^ 63 - now + 2 ^ 63) with ((now + d + 2 ^ 63) mod 2 ^ 64 - now) by lia.
  rewrite Zminus_mod_idemp_l. replace (now + d + 2 ^ 63 - now) with (d + 2 ^ 63) by lia.
  rewrite Z.mod_small by lia. lia.
Qed.

Lemma envelope_loop_None e rs : envelope_loop rs e = None <-> Forall (response_inside e) rs.
Proof.
  induction rs as [|r rs IH]; [split; [by constructor|done]|]. cbn [envelope_loop]. rewrite Forall_cons_iff, <- IH. unfold response_inside.
  cbv zeta. destruct (Z.ltb_spec (swrap 64 (RespondAt r - Requested r)) (MinDelay e)); [split; [done|lia]|].
  destruct (Z.ltb_spec 0 (MaxDelay e)); cbn [andb]; [|tauto || (split; [|tauto]; intros; split; [lia|done])].
  destruct (Z.ltb_spec (MaxDelay e) (swrap 64 (RespondAt r - Requested r))); [split; [done|lia]|].
  split; [|tauto]. intros; split; [lia|done].
Qed.

Section Harness.
Context (e : ResponseEnvelope) (t : Target) (Hinside : Forall (rule_inside e t) (Rules t)).

Definition harness_ok (h : option Harness) : Prop :=
  exists hs, h = Some hs /\ h_target hs = Some t /\ Forall (response_inside e) (h_history hs).

Lemma Emulate_inside event r : Emulate (Some t) event = Ok r -> response_inside e r.
Proof.
  unfold Emulate. destruct (negb _); [done|]. rewrite emulate_rules_Ok. intros (before & rule & after & E & _ & m & b & plan & _ & _ & Hb & Hp & Hw & ->).
  assert (rule_inside e t rule) as (Hmin & Hmax & Hrange).
  { apply (proj1 (Forall_forall _ _) Hinside). rewrite E. set_solver. }
  specialize (Hrange _ _ _ Hb Hp). destruct Hw as (H1 & H2 & H3).
  unfold response_inside, respond. cbn [RespondAt Requested]. rewrite swrap_difference by lia. lia.
Qed.

Lemma Advance_ok delta h : harness_ok h -> harness_ok (Advance delta h).
Proof. intros (hs & -> & Ht & Hh). cbn. destruct (delta <=? 0); eexists; (split; [done|]); by split. Qed.

Lemma Query_ok frame h : harness_ok h -> harness_ok (Query frame h).1.
Proof.
  intros (hs & -> & Ht & Hh). unfold Query. rewrite Ht, bool_decide_eq_true_2 by done. destruct (Emulate _ _) as [r|err] eqn:E; eexists; (split; [done|]); (split; [done|]); [|done].
  cbn. apply Forall_app. split; [done|]. apply Forall_singleton. by eapply Emulate_inside.
Qed.

Lemma run_steps_ok idx steps h : harness_ok h -> harness_ok (run_steps idx steps h).1.
Proof.
  revert idx h. induction steps as [|step steps IH]; intros idx h Hh; [done|]. cbn [run_steps].
  destruct (q_Advance step <? 0); [done|]. cbv zeta.
  pose proof (Query_ok (q_Frame step) (Advance (q_Advance step) h) (Advance_ok _ _ Hh)) as Hq.
  destruct (Query _ _) as [h' [r|err]]; [|done]. cbn [fst] in Hq. specialize (IH (idx + 1) h' Hq). by destruct (run_steps _ _ _).
Qed.

Lemma harness_step_ok c h : harness_ok h -> harness_ok (harness_step h c).
Proof.
  intros Hh. destruct c; [by apply Advance_ok|by apply Query_ok|]. cbn. unfold RunSequence. destruct (negb _); [done|]. by apply run_steps_ok.
Qed.
End Harness.

(** when the timings of a target's rules lie inside an envelope, the
    history of a harness over it passes that envelope after any calls, failed
    ones and steps of a sequence included, also when its clock wraps around. *)
Theorem harness_within_envelope t e calls :
  envelope_validate e = None -> Forall (rule_inside e t) (Rules t) ->
  ValidateResponseEnvelope (History (foldl harness_step (Some (NewHarness (Some t))) calls)) e = None.
Proof.
  intros He Hr. unfold ValidateResponseEnvelope. rewrite He. apply envelope_loop_None.
  assert (harness_ok e t (Some (NewHarness (Some t)))) as H0 by (eexists; split; [done|]; split; [done|constructor]).
  assert (harness_ok e t (foldl harness_step (Some (NewHarness (Some t))) calls)) as (hs & -> & _ & Hh); [|exact Hh].
  revert H0. generalize (Some (NewHarness (Some t))). induction calls as [|c calls IH]; intros h Hh; [exact Hh|].
  cbn [foldl]. apply IH. by apply harness_step_ok.
Qed.

Definition identify_frame : Frame := mkFrame x31 x15 x07 x04 [] FrameTypeUnknown.

Lemma plain_rule_inside e t name m (g : Frame -> result emu_error ResponsePlan) delay :
  MinDelay e <= MinResponseDelay (DefaultTiming t) ->
  (0 < MaxDelay e -> 0 < MaxResponseDelay (DefaultTiming t) <= MaxDelay e) ->
  delay < 2 ^ 63 -> (forall frame plan, g frame = Ok plan -> p_Delay plan = delay) ->
  rule_inside e t (mkRule name m (Some (Some g)) (mkTiming 0 0)).
Proof.
  intros Hmin Hmax Hd Hg. split; [exact Hmin|]. split; [exact Hmax|]. intros b frame plan [= <-] Hp. by rewrite (Hg frame plan).
Qed.

(** The rules of a profile are inside an envelope around its timing. *)
Lemma vr_rules_inside d scan p e t :
  DefaultTiming t = effective_timing p -> MinDelay e <= MinResponseDelay (effective_timing p) ->
  (0 < MaxDelay e -> 0 < MaxResponseDelay (effective_timing p) <= MaxDelay e) -> effective_delay p < 2 ^ 63 ->
  Forall (rule_inside e t) (vr_rules d scan p).
Proof.
  intros Ht Hmin Hmax Hd. rewrite <- Ht in *. unfold vr_rules. constructor; [|apply Forall_app; split].
  - apply (plain_rule_inside e t _ _ _ (effective_delay p)); [done..|]. by intros frame plan [= <-].
  - destruct (EnableB509Discovery p); constructor; [|constructor].
    apply (plain_rule_inside e t _ _ _ (effective_delay p)); [done..|]. intros frame plan.
    destruct (vr90B509ScanIDChunk _ _); [|done]. by intros [= <-].
  - apply Forall_forall. intros rule (c & -> & _)%list_elem_of_fmap.
    apply (plain_rule_inside e t _ _ _ (effective_delay p)); [done..|]. by intros frame plan [= <-].
Qed.

Lemma sample_rules_inside :
  Forall (rule_inside (mkEnvelope (5 * Millisecond) (30 * Millisecond)) sample_target) (Rules sample_target).
Proof.
  apply (vr_rules_inside VR90_identity (normalizeVR90ScanID (ScanID sample_profile)) sample_profile); vm_compute; done.
Qed.

Lemma harness_within_envelope_witness :
  (envelope_validate (mkEnvelope (5 * Millisecond) (30 * Millisecond)) = None /\
   length (History (foldl harness_step (Some (NewHarness (Some sample_target)))
     [CallQuery identify_frame; CallAdvance (2 ^ 63 - 1); CallRun [mkStep 7 identify_frame; mkStep (-1) identify_frame]])) = 2%nat) /\
  ValidateResponseEnvelope (History (foldl harness_step (Some (NewHarness (Some sample_target)))
    [CallQuery identify_frame; CallAdvance (2 ^ 63 - 1); CallRun [mkStep 7 identify_frame; mkStep (-1) identify_frame]]))
    (mkEnvelope (5 * Millisecond) (30 * Millisecond)) = None.
Proof.
  split; [split; vm_compute; reflexivity|].
  exact (harness_within_envelope sample_target (mkEnvelope (5 * Millisecond) (30 * Millisecond)) _ eq_refl sample_rules_inside).
Defined.
