(* ===== verification/Adapter.v ===== *)
(** What an adapter says about itself (transport/adapter_info.go), the opt-in
    capability claims of a transport (transport/aa22_capabilities.go) and the
    in-memory loopback transport (transport/loopback.go). *)

From Stdlib Require Import Strings.String.
From S2P Require Import Prelude Errors Text.
#[local] Open Scope list_scope.
#[local] Open Scope Z_scope.

(** ** Version and reset information *)

(** [AdapterInfoID] is a byte; the identifiers are 0 to 7. *)
Definition adapterInfoIDNames : list (list byte) :=
  [bytes_of_string "version"; bytes_of_string "hw_id"; bytes_of_string "hw_config"; bytes_of_string "temperature";
   bytes_of_string "supply_voltage"; bytes_of_string "bus_voltage"; bytes_of_string "reset_info"; bytes_of_string "wifi_rssi"].

Definition AdapterInfoID_String (id : byte) : list byte :=
  match adapterInfoIDNames !! Z.to_nat (u8 id) with
  | Some name => name
  | None => bytes_of_string "unknown(0x" ++ hex2 id ++ bytes_of_string ")"
  end.

Record AdapterVersion := mkVersion {
  av_Version : byte; av_Features : byte; av_Checksum : Z; av_Jumpers : byte;
  BootloaderVersion : byte; BootloaderChecksum : Z;
  HasChecksum : bool; HasBootloader : bool; SupportsInfo : bool;
  IsWiFi : bool; IsEthernet : bool; IsHighSpeed : bool; IsV31 : bool }.

Definition VersionResponseLen (v : AdapterVersion) : Z :=
  if HasBootloader v then 8 else if HasChecksum v then 5 else 2.

Definition SupportsInfoID (v : AdapterVersion) (id : byte) : bool :=
  if negb (SupportsInfo v) then false
  else if u8 id <=? 5 then true
  else if id =b x06 then HasBootloader v
  else if id =b x07 then HasChecksum v && IsWiFi v
  else false.

Definition flag (mask : Z) (b : byte) : bool := negb (Z.land (u8 b) mask =? 0).
Definition uint16be (hi lo : byte) : Z := u8 hi * 256 + u8 lo.

Definition ParseAdapterVersion (data : list byte) : result error AdapterVersion :=
  let at_ i := nth i data x00 in
  if negb ((len data =? 2) || (len data =? 5) || (len data =? 8))
  then Err (EWrap ("adapter version response has invalid length (" +:+ fmt_d (len data) +:+ " bytes): ") (ESentinel SInvalidPayload) "")
  else
    let boot := len data =? 8 in
    let sum := boot || (len data =? 5) in
    let jumpers := if sum then at_ 4%nat else x00 in
    Ok (mkVersion (at_ 0%nat) (at_ 1%nat) (if sum then uint16be (at_ 2%nat) (at_ 3%nat) else 0) jumpers
          (if boot then at_ 5%nat else x00) (if boot then uint16be (at_ 6%nat) (at_ 7%nat) else 0)
          sum boot (flag 0x01 (at_ 1%nat)) (flag 0x08 jumpers) (flag 0x04 jumpers) (flag 0x02 jumpers) (flag 0x10 jumpers)).

Record AdapterResetInfo := mkResetInfo { Cause : list byte; CauseCode : byte; RestartCount : byte }.

Definition resetCauseNames (code : byte) : option (list byte) :=
  match u8 code with
  | 1 => Some (bytes_of_string "power_on") | 2 => Some (bytes_of_string "brown_out") | 3 => Some (bytes_of_string "watchdog")
  | 4 => Some (bytes_of_string "clear") | 5 => Some (bytes_of_string "external_reset") | 6 => Some (bytes_of_string "stack_overflow")
  | 7 => Some (bytes_of_string "memory_failure") | _ => None
  end.

Definition ParseAdapterResetInfo (data : list byte) : result error AdapterResetInfo :=
  if len data <? 2
  then Err (EWrap ("adapter reset info too short (" +:+ fmt_d (len data) +:+ " bytes): ") (ESentinel SInvalidPayload) "")
  else
    let code := nth 0 data x00 in
    Ok (mkResetInfo (default (bytes_of_string "unknown") (resetCauseNames code)) code (nth 1 data x00)).

(** The response a version came from. *)
Definition version_bytes (v : AdapterVersion) : list byte :=
  [av_Version v; av_Features v] ++
  (if HasChecksum v then [b8 (av_Checksum v / 256); b8 (av_Checksum v); av_Jumpers v] else []) ++
  (if HasBootloader v then [BootloaderVersion v; b8 (BootloaderChecksum v / 256); b8 (BootloaderChecksum v)] else []).

Lemma uint16be_bytes hi lo : b8 (uint16be hi lo / 256) = hi /\ b8 (uint16be hi lo) = lo.
Proof.
  unfold uint16be. pose proof (u8_range lo). split; apply u8_inj; rewrite u8_b8.
  - rewrite Z.div_add_l, (Z.div_small (u8 lo)), Z.add_0_r by lia. apply Z.mod_small, u8_range.
  - rewrite Z.add_comm, Z.mod_add by lia. by apply Z.mod_small.
Qed.

Lemma flag_testbit : (forall b, flag 1 b = Z.testbit (u8 b) 0) /\ (forall b, flag 8 b = Z.testbit (u8 b) 3).
Proof. split; apply byte_ext; vm_compute; reflexivity. Qed.

(** The identifiers by the length of the response and the two capability bits. *)
Lemma SupportsInfoID_table v id (n : Z) (info wifi : bool) :
  SupportsInfo v = info -> HasBootloader v = (n =? 8) -> HasChecksum v && IsWiFi v = (5 <=? n) && wifi ->
  SupportsInfoID v id = info && ((u8 id <=? 5) || ((u8 id =? 6) && (n =? 8)) || ((u8 id =? 7) && (5 <=? n) && wifi)).
Proof.
  intros Hi Hb Hc. unfold SupportsInfoID. rewrite Hi, Hb, Hc. destruct info; [|done]. cbn [negb andb]. rewrite <- andb_assoc.
  generalize (n =? 8) ((5 <=? n) && wifi). intros b c. revert id.
  destruct b, c; apply (byte_ext _ _); vm_compute; reflexivity.
Qed.

(** a version response of two, five or eight bytes parses without loss:
    the response can be read back from the version, its length included; and
    the information it supports are six identifiers, the reset information with
    a bootloader and the signal strength on a WiFi adapter. *)
Theorem version_roundtrip data :
  match ParseAdapterVersion data with
  | Ok v => version_bytes v = data /\ VersionResponseLen v = len data /\
      forall id, SupportsInfoID v id =
        Z.testbit (u8 (nth 1 data x00)) 0 &&
        ((u8 id <=? 5) || ((u8 id =? 6) && (len data =? 8)) ||
         ((u8 id =? 7) && (5 <=? len data) && Z.testbit (u8 (nth 4 data x00)) 3))
  | Err err => len data <> 2 /\ len data <> 5 /\ len data <> 8 /\ errors_is err SInvalidPayload = true
  end.
Proof.
  unfold ParseAdapterVersion. cbv zeta.
  destruct (negb _) eqn:El; [by rewrite negb_true_iff, !orb_false_iff, !Z.eqb_neq in El; repeat split; tauto|].
  apply negb_false_iff in El. rewrite !orb_true_iff, !Z.eqb_eq in El. unfold len in El.
  destruct El as [[El|El]|El].
  - destruct data as [|a [|b [|c data]]]; cbn in El; try lia. split; [reflexivity|]. split; [reflexivity|].
    intros id. apply (SupportsInfoID_table _ id 2); cbn; [apply flag_testbit|reflexivity..].
  - do 5 (destruct data as [|? data]; [cbn in El; lia|]). destruct data; [|cbn in El; lia].
    change (len _) with 5.
    split; [cbn -[Z.div uint16be b8]; by destruct (uint16be_bytes b1 b2) as [-> ->]|]. split; [reflexivity|].
    intros id. apply (SupportsInfoID_table _ id 5); cbn; [apply flag_testbit|reflexivity|apply flag_testbit].
  - do 8 (destruct data as [|? data]; [cbn in El; lia|]). destruct data; [|cbn in El; lia].
    change (len _) with 8.
    split; [cbn -[Z.div uint16be b8]; destruct (uint16be_bytes b1 b2) as [-> ->]; by destruct (uint16be_bytes b5 b6) as [-> ->]|]. split; [reflexivity|].
    intros id. apply (SupportsInfoID_table _ id 8); cbn; [apply flag_testbit|reflexivity|apply flag_testbit].
Qed.

(** ** Capability claims *)

(** Enumerations over a byte, of which the first values have names. *)
Definition AA22Proven : byte := x02.
Definition AA22KindLocalRaw : byte := x01.
Definition AA22KindEBUSDCommand : byte := x06.
Definition AA22EncodingRaw : byte := x01.
Definition AA22EncodingLogical : byte := x02.

Record AA22Capabilities := mkCapabilities {
  AA22Kind : byte; AA22Encoding : byte; AA22PhysicalArbitration : byte; AA22AutonomousPreparedResponse : byte;
  AA22ObservedEcho : byte; AA22CaptureTimestamps : byte; AA22QualifiedTiming : byte }.

Definition no_claims : AA22Capabilities := mkCapabilities x00 x00 x00 x00 x00 x00 x00.

Definition clear_above (top claim : byte) : byte := if top <b claim then x00 else claim.

(** A transport makes no claims, or is a provider: a nil one, or one that
    returns a snapshot. *)
Definition AA22QueryCapabilities (aa22Transport : option (option AA22Capabilities)) : AA22Capabilities :=
  match aa22Transport with
  | None | Some None => no_claims
  | Some (Some c) =>
      mkCapabilities (clear_above AA22KindEBUSDCommand (AA22Kind c)) (clear_above AA22EncodingLogical (AA22Encoding c))
        (clear_above AA22Proven (AA22PhysicalArbitration c)) (clear_above AA22Proven (AA22AutonomousPreparedResponse c))
        (clear_above AA22Proven (AA22ObservedEcho c)) (clear_above AA22Proven (AA22CaptureTimestamps c))
        (clear_above AA22Proven (AA22QualifiedTiming c))
  end.

Definition AA22DeadlineSuitable (c : AA22Capabilities) : bool :=
  (u8 AA22KindLocalRaw <=? u8 (AA22Kind c)) && (u8 (AA22Kind c) <=? u8 AA22KindEBUSDCommand) &&
  ((AA22Encoding c =b AA22EncodingRaw) || (AA22Encoding c =b AA22EncodingLogical)) &&
  (AA22AutonomousPreparedResponse c =b AA22Proven) && (AA22QualifiedTiming c =b AA22Proven).

Lemma clear_above_idem top claim : clear_above top (clear_above top claim) = clear_above top claim.
Proof. unfold clear_above. destruct (top <b claim) eqn:E; [by destruct (top <b x00)|by rewrite E]. Qed.

(** Clearing keeps exactly the test against a value that has a name. *)
Lemma clear_above_eqb top v claim : v <> x00 -> u8 v <= u8 top -> (clear_above top claim =b v) = (claim =b v).
Proof.
  intros Hv Ht. unfold clear_above. destruct (Z.ltb_spec (u8 top) (u8 claim)) as [Hlt|]; [|done].
  rewrite (proj2 (byte_eqb_neq x00 v)) by congruence. symmetry. apply byte_eqb_neq. intros ->. lia.
Qed.

Lemma query_idem t : AA22QueryCapabilities (Some (Some (AA22QueryCapabilities t))) = AA22QueryCapabilities t.
Proof. destruct t as [[c|]|]; [|reflexivity..]. cbn. by rewrite !clear_above_idem. Qed.

(** Clearing invalid claims neither gives nor takes deadline suitability. *)
Lemma query_suitable c : AA22DeadlineSuitable (AA22QueryCapabilities (Some (Some c))) = AA22DeadlineSuitable c.
Proof.
  unfold AA22DeadlineSuitable. cbn [AA22QueryCapabilities AA22Kind AA22Encoding AA22AutonomousPreparedResponse AA22QualifiedTiming].
  rewrite !clear_above_eqb by (vm_compute; congruence). do 3 f_equal.
  apply (byte_ext (fun k => (u8 AA22KindLocalRaw <=? u8 (clear_above AA22KindEBUSDCommand k)) && (u8 (clear_above AA22KindEBUSDCommand k) <=? u8 AA22KindEBUSDCommand))
    (fun k => (u8 AA22KindLocalRaw <=? u8 k) && (u8 k <=? u8 AA22KindEBUSDCommand))). vm_compute. reflexivity.
Qed.

(** ** The loopback transport *)

Record Loopback := mkLoopback { buffer : list byte; readPos : nat; closed : bool }.

Definition NewLoopback : Loopback := mkLoopback [] 0 false.

(** A read that has to wait is [Waits]; it tries again after the next write or
    the closing. *)
Inductive read_result := Waits | ReadError (e : sentinel) | ReadValue (b : byte).

Definition ReadByte (lb : Loopback) : Loopback * read_result :=
  match buffer lb !! readPos lb with
  | None => (lb, if closed lb then ReadError STransportClosed else Waits)
  | Some value =>
      let pos := S (readPos lb) in
      (if Nat.eqb pos (length (buffer lb)) then mkLoopback [] 0 (closed lb) else mkLoopback (buffer lb) pos (closed lb),
       ReadValue value)
  end.

Definition Write (payload : list byte) (lb : Loopback) : Loopback * (Z * option sentinel) :=
  if closed lb then (lb, (0, Some STransportClosed))
  else if len payload =? 0 then (lb, (0, None))
  else (mkLoopback (buffer lb ++ payload) (readPos lb) (closed lb), (len payload, None)).

Definition Close (lb : Loopback) : Loopback := mkLoopback (buffer lb) (readPos lb) true.

(** The specification: a queue of bytes, and whether it takes more. *)
Definition fifo : Type := list byte * bool.

Definition view (lb : Loopback) : fifo := (drop (readPos lb) (buffer lb), closed lb).

Definition fifo_read (q : fifo) : fifo * read_result :=
  match q with
  | ([], c) => (q, if c then ReadError STransportClosed else Waits)
  | (b :: rest, c) => ((rest, c), ReadValue b)
  end.

Definition fifo_write (payload : list byte) (q : fifo) : fifo * (Z * option sentinel) :=
  if q.2 then (q, (0, Some STransportClosed)) else ((q.1 ++ payload, q.2), (len payload, None)).

Definition within_buffer (lb : Loopback) : Prop := (readPos lb <= length (buffer lb))%nat.

(** the loopback transport is a queue of bytes: each operation keeps the
    position inside the buffer and does to the unread bytes what the queue
    does, with the same result; what was written before the closing can still
    be read after it. *)
Theorem loopback_is_fifo lb payload :
  within_buffer lb ->
  (within_buffer (ReadByte lb).1 /\ (view (ReadByte lb).1, (ReadByte lb).2) = fifo_read (view lb)) /\
  (within_buffer (Write payload lb).1 /\ (view (Write payload lb).1, (Write payload lb).2) = fifo_write payload (view lb)) /\
  (within_buffer (Close lb) /\ view (Close lb) = ((view lb).1, true)).
Proof.
  intros Hw. split; [|split; [|by split]].
  - unfold ReadByte, view, within_buffer in *. destruct (buffer lb !! readPos lb) as [v|] eqn:E; cbn [fst snd].
    + pose proof (lookup_lt_Some _ _ _ E) as Hlt. rewrite (drop_S _ _ _ E). cbn [fifo_read].
      destruct (Nat.eqb_spec (S (readPos lb)) (length (buffer lb))) as [El|]; cbn [buffer readPos closed].
      * split; [cbn; lia|]. rewrite El, drop_all. done.
      * split; [lia|done].
    + apply lookup_ge_None in E. rewrite drop_ge by done. split; [done|]. by destruct (closed lb).
  - unfold Write, fifo_write, view, within_buffer in *. cbn [fst snd]. destruct (closed lb) eqn:Ec; cbn [fst snd]; [split; [done|by rewrite Ec]|].
    destruct (Z.eqb_spec (len payload) 0) as [E|]; cbn [fst snd buffer readPos closed].
    + destruct payload as [|x payload]; [|rewrite len_cons in E; pose proof (len_nonneg payload); lia]. split; [done|]. by rewrite app_nil_r, Ec.
    + split; [rewrite length_app; lia|]. by rewrite drop_app_le, ?Ec by done.
Qed.

Lemma loopback_is_fifo_witness :
  let lb := mkLoopback [x01; x02] 1 false in
  within_buffer lb /\
  ((within_buffer (ReadByte lb).1 /\ (view (ReadByte lb).1, (ReadByte lb).2) = fifo_read (view lb)) /\
   (within_buffer (Write [x03] lb).1 /\ (view (Write [x03] lb).1, (Write [x03] lb).2) = fifo_write [x03] (view lb)) /\
   (within_buffer (Close lb) /\ view (Close lb) = ((view lb).1, true))).
Proof.
  assert (within_buffer (mkLoopback [x01; x02] 1 false)) as H by (unfold within_buffer; cbn; lia).
  split; [exact H|]. exact (loopback_is_fifo (mkLoopback [x01; x02] 1 false) [x03] H).
Defined.
