(* ===== verification/Timing.v ===== *)
(** The responder's timing harness (protocol/responder/timing_harness.go), the
    per-phase time limits of the telegram machine
    (protocol/frame_atomic_v8_timeouts.go) and the position of an acknowledgement
    (protocol/ack_correlation.go).

    An instant is its nanoseconds since the zero time, as in Escape.v. *)

From Stdlib Require Import Strings.String.
From S2P Require Import Prelude Errors Wire Escape TelegramFsm.
#[local] Open Scope list_scope.
#[local] Open Scope Z_scope.

Definition Millisecond : Z := 1000000.

(** ** Phase limits *)

Definition FrameAtomicV8InterByteTimeout : Z := 10 * Millisecond.
Definition FrameAtomicV8WaitMasterAckTimeout : Z := 200 * Millisecond.
Definition FrameAtomicV8WaitSlaveAckTimeout : Z := 200 * Millisecond.
Definition FrameAtomicV8WaitTerminatorSynTimeout : Z := 100 * Millisecond.
Definition FrameAtomicV8ArbitratingTimeout : Z := 50 * Millisecond.
Definition FrameAtomicV8EscapePendingTimeout : Z := 32 * Millisecond.
Definition FrameAtomicV8MaxAaAbsorptionsPerEscapePair : Z := 8.
Definition FrameAtomicV8MaxNackRetxPerPhase : Z := 1.

(** The decoder and the telegram machine use the declared budgets. *)
Lemma budgets_agree :
  EscapePendingTimeout = FrameAtomicV8EscapePendingTimeout /\
  MaxAaAbsorptionsPerEscapePair = FrameAtomicV8MaxAaAbsorptionsPerEscapePair /\
  MaxRetxPerPhase = FrameAtomicV8MaxNackRetxPerPhase.
Proof. repeat split. Qed.

(** ** Acknowledgement correlation *)

Definition ACKPosition := string.
Definition ACKPositionRequestACK : ACKPosition := "request_ack".
Definition ACKCorrelator := string.
Definition ACKCorrelatorM2A : ACKCorrelator := "M2A".
Record ACKCorrelation := mkCorrelation { ack_Byte : byte; Position : ACKPosition; CompleteRequest : bool; Correlator : ACKCorrelator }.

(** ** The timing harness *)

Definition responderAckBudget : Z := 15 * Millisecond.

Record TimingHarness := mkTimingHarness {
  inboundCRCAt : Z; ackEmitAt : Z; haveInboundAt : bool; haveAckAt : bool }.

Definition NewTimingHarness : TimingHarness := mkTimingHarness 0 0 false false.

(** [now] is what the clock says, asked only for a zero time. *)
Definition or_clock (now at_ : Z) : Z := if IsZero at_ then now else at_.

Definition MarkInboundCRCOk (now at_ : Z) (h : TimingHarness) : TimingHarness :=
  mkTimingHarness (or_clock now at_) (ackEmitAt h) true (haveAckAt h).

Definition MarkAckEmit (now at_ : Z) (h : TimingHarness) : TimingHarness :=
  mkTimingHarness (inboundCRCAt h) (or_clock now at_) (haveInboundAt h) true.

Definition Elapsed (h : TimingHarness) : option Z :=
  if negb (haveInboundAt h) || negb (haveAckAt h) then None else Some (time_sub (ackEmitAt h) (inboundCRCAt h)).

Definition WithinBudget (h : TimingHarness) : bool :=
  match Elapsed h with
  | None => false
  | Some elapsed => if elapsed <? 0 then false else elapsed <=? responderAckBudget
  end.

Definition Budget : Z := responderAckBudget.

Definition Reset (h : TimingHarness) : TimingHarness := mkTimingHarness 0 0 false false.

(** A call with what the clock would say. *)
Inductive harness_call := CallInbound (now at_ : Z) | CallAck (now at_ : Z) | CallReset.

Definition timing_step (h : TimingHarness) (c : harness_call) : TimingHarness :=
  match c with
  | CallInbound now at_ => MarkInboundCRCOk now at_ h
  | CallAck now at_ => MarkAckEmit now at_ h
  | CallReset => Reset h
  end.

(** The last mark of each kind since the last reset. *)
Definition marks_step (m : option Z * option Z) (c : harness_call) : option Z * option Z :=
  match c with
  | CallInbound now at_ => (Some (or_clock now at_), m.2)
  | CallAck now at_ => (m.1, Some (or_clock now at_))
  | CallReset => (None, None)
  end.

Definition carries (h : TimingHarness) (m : option Z * option Z) : Prop :=
  m.1 = (if haveInboundAt h then Some (inboundCRCAt h) else None) /\ m.2 = (if haveAckAt h then Some (ackEmitAt h) else None).

Lemma carries_step h m c : carries h m -> carries (timing_step h c) (marks_step m c).
Proof. intros [H1 H2]. by destruct c. Qed.

(** after any calls the budget is kept exactly when both marks were
    made since the last reset and the later of the last marks is the emission,
    at most fifteen milliseconds after; inverted marks never pass, however far
    apart. *)
Theorem WithinBudget_iff calls :
  let h := foldl timing_step NewTimingHarness calls in
  WithinBudget h = true <->
  exists t0 t1, foldl marks_step (None, None) calls = (Some t0, Some t1) /\ t0 <= t1 <= t0 + responderAckBudget.
Proof.
  cbv zeta. assert (carries (foldl timing_step NewTimingHarness calls) (foldl marks_step (None, None) calls)) as [H1 H2].
  { assert (carries NewTimingHarness (None, None)) as H by (split; reflexivity). revert H. generalize NewTimingHarness (@None Z, @None Z).
    induction calls as [|c calls IH]; intros h m H; [exact H|]. by apply IH, carries_step. }
  destruct (foldl marks_step _ _) as [m1 m2]. cbn in H1, H2. subst m1 m2. unfold WithinBudget, Elapsed.
  set (h := foldl _ _ _). clearbody h.
  destruct (haveInboundAt h), (haveAckAt h); cbn [negb orb]; try (split; [discriminate|intros (t0 & t1 & E & _); discriminate E]).
  unfold time_sub. change responderAckBudget with 15000000.
  change (2 ^ 63) with 9223372036854775808. set (d := Z.max _ _).
  assert (d = Z.max (- (9223372036854775808)) (Z.min (9223372036854775808 - 1) (ackEmitAt h - inboundCRCAt h))) as Ed by reflexivity. clearbody d.
  split.
  - destruct (Z.ltb_spec d 0); [done|]. intros Hd%Z.leb_le.
    exists (inboundCRCAt h), (ackEmitAt h). split; [done|]. lia.
  - intros (t0 & t1 & [= <- <-] & Ht).
    destruct (Z.ltb_spec d 0); [lia|]. apply Z.leb_le. lia.
Qed.
