(* ===== verification/PlanTypes.v ===== *)
(** src/localworker/aa23_plans.go, the vocabulary: limits, registration keys,
    plan entries, identities and deadlines, the clock guard, addresses, and the
    wire form of a response.

    The counters are 64-bit and the sizes 32-bit unsigned; a refusal is one of
    the package's sentinels.  An address is a byte, and a table over the address
    space is a function of the byte. *)

From S2P Require Import Prelude Errors Wire Address.
#[local] Open Scope list_scope.
#[local] Open Scope Z_scope.

Definition MaxUint64 : Z := 2 ^ 64 - 1.
Definition aa23AddressSpace : Z := 256.
Definition aa23MaxNativeLength : Z := 255.
Definition aa23MaxEncodedResponse : Z := 2 * (1 + aa23MaxNativeLength + 1).
Definition aa23PoolByteCeiling : Z := 2 ^ 26.
Definition aa23EntryAccountingBytes : Z := 64.

Inductive aa23_error :=
| ErrAA23InvalidLimits | ErrAA23InvalidIdentity | ErrAA23InvalidAddress | ErrAA23DuplicateAddress
| ErrAA23RegistrationConflict | ErrAA23RegistrationRetiring | ErrAA23NotRegistered | ErrAA23StaleEpoch
| ErrAA23UnknownSubscriber | ErrAA23Capacity | ErrAA23PhysicalConflict | ErrAA23MasterConflict
| ErrAA23ClockClosed | ErrAA23Expired | ErrAA23LeaseTooLong | ErrAA23InvalidPlan | ErrAA23AmbiguousPlan
| ErrAA23Oversize | ErrAA23Unsupported | ErrAA23PoolExhausted | ErrAA23StaleGeneration | ErrAA23CounterExhausted
| ErrAA23IdentityMismatch | ErrAA23SlotState | ErrAA23SlotPinned | ErrAA23NoWorker | ErrAA23NoPlan | ErrAA23NoMatch
| ErrAA23Revoked | ErrAA23PinBusy | ErrAA23PinReleased | ErrAA23StaleTransaction | ErrAA23Phase.

(** A table over the address space with one entry changed. *)
Definition upd {A} (f : byte -> A) (k : byte) (v : A) : byte -> A := fun k' => if k' =b k then v else f k'.

(** ** Readings, limits and keys *)

Record AA23ClockReading := mkReading { AA23Domain : Z; AA23Tick : Z }.

Record AA23Limits := mkLimits {
  AA23MaxSubscribers : Z; AA23MaxRegistrations : Z; AA23MaxMasters : Z; AA23MaxPlanSlots : Z;
  AA23MaxEntriesPerPlan : Z; AA23MaxRequestBytes : Z; AA23MaxEncodedResponseBytes : Z;
  AA23MaxPlanBytes : Z; AA23MaxLeaseTicks : Z }.

Definition limits_validate (l : AA23Limits) : option aa23_error :=
  if (AA23MaxSubscribers l =? 0) || (AA23MaxRegistrations l =? 0) || (AA23MaxMasters l =? 0) || (AA23MaxPlanSlots l =? 0) ||
     (AA23MaxEntriesPerPlan l =? 0) || (AA23MaxRequestBytes l =? 0) || (AA23MaxEncodedResponseBytes l =? 0) ||
     (AA23MaxPlanBytes l =? 0) || (AA23MaxLeaseTicks l =? 0)
  then Some ErrAA23InvalidLimits
  else if (aa23AddressSpace <? AA23MaxRegistrations l) || (aa23AddressSpace <? AA23MaxMasters l) ||
          (aa23AddressSpace <? AA23MaxSubscribers l)
  then Some ErrAA23InvalidLimits
  else if (aa23MaxNativeLength <? AA23MaxRequestBytes l) || (aa23MaxEncodedResponse <? AA23MaxEncodedResponseBytes l)
  then Some ErrAA23InvalidLimits
  else if AA23MaxPlanBytes l <? wrap 64 (AA23MaxRequestBytes l + AA23MaxEncodedResponseBytes l)
  then Some ErrAA23InvalidLimits
  else
    let entryBytes := wrap 64 (AA23MaxEntriesPerPlan l * aa23EntryAccountingBytes) in
    let slotBytes := wrap 64 (AA23MaxPlanBytes l + entryBytes) in
    if (slotBytes <? entryBytes) || (aa23PoolByteCeiling <? slotBytes) || (aa23PoolByteCeiling / slotBytes <? AA23MaxPlanSlots l)
    then Some ErrAA23InvalidLimits
    else None.

Record AA23RegistrationKey := mkKey { AA23Subscriber : Z; AA23Address : byte; AA23Epoch : Z }.

Definition key_matches (k o : AA23RegistrationKey) : bool :=
  if negb (AA23Subscriber k =? AA23Subscriber o) then false
  else if negb (AA23Address k =b AA23Address o) then false
  else AA23Epoch k =? AA23Epoch o.

(** A [uint8] enumeration; a caller may pass other values. *)
Inductive AA23FailureAction := AA23FailureUnspecified | AA23FailureSilence | AA23FailureNACK | AA23FailureOther (n : byte).

Record AA23FailurePolicy := mkPolicy { AA23Unavailable : AA23FailureAction; AA23Malformed : AA23FailureAction; AA23Timeout : AA23FailureAction }.

#[export] Instance failure_action_eq_dec : EqDecision AA23FailureAction.
Proof. solve_decision. Defined.
#[export] Instance failure_policy_eq_dec : EqDecision AA23FailurePolicy.
Proof. solve_decision. Defined.
#[export] Instance registration_key_eq_dec : EqDecision AA23RegistrationKey.
Proof. solve_decision. Defined.

Definition policy_validate (p : AA23FailurePolicy) : option aa23_error :=
  if existsb (fun action => negb (bool_decide (action = AA23FailureSilence))) [AA23Unavailable p; AA23Malformed p; AA23Timeout p]
  then Some ErrAA23Unsupported else None.

Record AA23Registration := mkRegistration {
  AA23Key : AA23RegistrationKey; AA23LeaseExpiry : Z; AA23Source : Z; AA23SourceLeaseExpiry : Z; AA23Failure : AA23FailurePolicy }.

#[export] Instance registration_eq_dec : EqDecision AA23Registration.
Proof. solve_decision. Defined.

Inductive AA23RegistrationState := AA23RegistrationAbsent | AA23RegistrationActive | AA23RegistrationRetiring.

#[export] Instance registration_state_eq_dec : EqDecision AA23RegistrationState.
Proof. solve_decision. Defined.

Record AA23RegistrationView := mkRegView {
  AA23Registered : AA23Registration; AA23State : AA23RegistrationState; vLeaseExpiry : Z; vSource : Z; vSourceLeaseExpiry : Z }.

(** ** Plans *)

Record AA23PlanIdentity := mkIdentity {
  AA23Registration_ : AA23RegistrationKey; AA23Worker : Z; AA23Stream : Z; AA23Plan : Z; iSource : Z }.

#[export] Instance plan_identity_eq_dec : EqDecision AA23PlanIdentity.
Proof. solve_decision. Defined.

Definition identity_matches (i o : AA23PlanIdentity) : bool :=
  if negb (key_matches (AA23Registration_ i) (AA23Registration_ o)) then false
  else if negb (AA23Worker i =? AA23Worker o) then false
  else if negb (AA23Stream i =? AA23Stream o) then false
  else if negb (AA23Plan i =? AA23Plan o) then false
  else iSource i =? iSource o.

Record AA23WireKey := mkWireKey { AA23Identity : AA23PlanIdentity; AA23Transaction : Z }.

#[export] Instance wire_key_eq_dec : EqDecision AA23WireKey.
Proof. solve_decision. Defined.

Inductive AA23Operation := AA23OperationUnspecified | AA23OperationRead | AA23OperationStateful | AA23OperationOther (n : byte).
Inductive AA23Phase :=
| AA23PhaseNone | AA23PhaseRequest | AA23PhaseTargetACK | AA23PhaseResponse | AA23PhaseInitiatorACK | AA23PhaseEnded
| AA23PhaseOther (n : byte).

#[export] Instance operation_eq_dec : EqDecision AA23Operation.
Proof. solve_decision. Defined.
#[export] Instance phase_eq_dec : EqDecision AA23Phase.
Proof. solve_decision. Defined.

Record AA23SourceConstraint := mkSource { AA23Any : bool; sSource : byte }.

Record AA23PlanEntry := mkEntry {
  eSource : AA23SourceConstraint; AA23Destination : byte; AA23PB : byte; AA23SB : byte;
  AA23RequestLength : Z; AA23Request : list byte; AA23Operation_ : AA23Operation; AA23AllowedPhase : AA23Phase;
  AA23MaxEncodedBytes : Z; AA23EncodedResponse : list byte }.

Record AA23PlanCandidate := mkCandidate {
  cIdentity : AA23PlanIdentity; AA23PlanExpiry : Z; cFailure : AA23FailurePolicy; AA23Entries : list AA23PlanEntry }.

Record AA23PlanValidity := mkValidity { vDomain : Z; vPlanExpiry : Z; AA23RegistrationExpiry : Z; AA23SourceExpiry : Z }.

Definition validity_check (v : AA23PlanValidity) (now : AA23ClockReading) : option aa23_error :=
  if negb (AA23Domain now =? vDomain v) then Some ErrAA23ClockClosed
  else if vPlanExpiry v <=? AA23Tick now then Some ErrAA23Expired
  else if AA23RegistrationExpiry v <=? AA23Tick now then Some ErrAA23Expired
  else if AA23SourceExpiry v <=? AA23Tick now then Some ErrAA23Expired
  else None.

(** ** The clock guard *)

Record aa23ClockGuard := mkGuard { aa23Started : bool; aa23Closed : bool; aa23Domain : Z; aa23Last : Z }.

Definition new_guard : aa23ClockGuard := mkGuard false false 0 0.

Definition aa23Observe (now : AA23ClockReading) (g : aa23ClockGuard) : aa23ClockGuard * option aa23_error :=
  let close := mkGuard (aa23Started g) true (aa23Domain g) (aa23Last g) in
  if aa23Closed g then (g, Some ErrAA23ClockClosed)
  else if AA23Domain now =? 0 then (close, Some ErrAA23ClockClosed)
  else if negb (aa23Started g) then (mkGuard true (aa23Closed g) (AA23Domain now) (AA23Tick now), None)
  else if negb (AA23Domain now =? aa23Domain g) || (AA23Tick now <? aa23Last g) then (close, Some ErrAA23ClockClosed)
  else (mkGuard (aa23Started g) (aa23Closed g) (aa23Domain g) (AA23Tick now), None).

(** ** Addresses *)

Definition aa23IsInitiatorNibble (n : byte) : bool :=
  (n =b x00) || (n =b x01) || (n =b x03) || (n =b x07) || (n =b x0f).

Definition aa23IsInitiatorAddress (a : byte) : bool :=
  aa23IsInitiatorNibble (bshr a 4) && aa23IsInitiatorNibble (band a x0f).

Definition aa23IsTargetAddress (a : byte) : bool :=
  if (a =b AddressBroadcast) || (a =b SymbolEscape) || (a =b SymbolSyn) then false else negb (aa23IsInitiatorAddress a).

(** ** The wire form of a response *)

Definition aa23CRCPolynomial : byte := x9b.

Definition crc_bit (crc : byte) : byte :=
  if negb (band crc x80 =b x00) then bxor (bshl crc 1) aa23CRCPolynomial else bshl crc 1.

Definition aa23CRCStep (crc value : byte) : byte := bxor (Nat.iter 8 crc_bit crc) value.

Definition aa23CRCUpdate (crc value : byte) : byte :=
  if value =b SymbolEscape then aa23CRCStep (aa23CRCStep crc SymbolEscape) x00
  else if value =b SymbolSyn then aa23CRCStep (aa23CRCStep crc SymbolEscape) x01
  else aa23CRCStep crc value.

Definition aa23AppendEscaped (dst : list byte) (value : byte) : list byte :=
  if value =b SymbolEscape then dst ++ [SymbolEscape; x00]
  else if value =b SymbolSyn then dst ++ [SymbolEscape; x01]
  else dst ++ [value].

Definition AA23EncodeResponse (dst data : list byte) : list byte * option aa23_error :=
  if aa23MaxNativeLength <? len data then (dst, Some ErrAA23Oversize)
  else
    let length := b8 (len data) in
    let '(crc, dst) :=
      foldl (fun '(crc, dst) value => (aa23CRCUpdate crc value, aa23AppendEscaped dst value))
        (aa23CRCUpdate x00 length, aa23AppendEscaped dst length) data in
    (aa23AppendEscaped dst crc, None).

(** The loop of [aa23ValidateEncodedResponse]: the CRC so far, the number of
    logical bytes, the length the first announces and the CRC received, both
    -1 until they are seen; [None] at a raw SYN or a broken escape pair. *)
Record response_scan := mkScan { s_CRC : byte; s_Decoded : Z; s_Declared : Z; s_Received : Z }.

Definition scan_value (s : response_scan) (value : byte) : response_scan :=
  let declared := if s_Decoded s =? 0 then u8 value else s_Declared s in
  if s_Decoded s =? declared + 1
  then mkScan (s_CRC s) (s_Decoded s + 1) declared (u8 value)
  else mkScan (aa23CRCUpdate (s_CRC s) value) (s_Decoded s + 1) declared (s_Received s).

Fixpoint scan_wire (wire : list byte) (s : response_scan) : option response_scan :=
  match wire with
  | [] => Some s
  | value :: rest =>
      if value =b SymbolSyn then None
      else if value =b SymbolEscape then
        match rest with
        | [] => None
        | mark :: rest' =>
            if mark =b x00 then scan_wire rest' (scan_value s SymbolEscape)
            else if mark =b x01 then scan_wire rest' (scan_value s SymbolSyn)
            else None
        end
      else scan_wire rest (scan_value s value)
  end.

Definition aa23ValidateEncodedResponse (wire : list byte) : option aa23_error :=
  match scan_wire wire (mkScan x00 0 (-1) (-1)) with
  | None => Some ErrAA23InvalidPlan
  | Some s =>
      if (s_Declared s <? 0) || negb (s_Decoded s =? s_Declared s + 2) || negb (s_Received s =? u8 (s_CRC s))
      then Some ErrAA23InvalidPlan else None
  end.
