(* ===== verification/PlanCodec.v ===== *)
(** The local worker's own codec agrees with the bus's: addresses, CRC and the
    escaped response (src/localworker/aa23_plans.go against src/protocol and
    src/internal/crc). *)

From S2P Require Import Prelude Errors Wire Address Text PlanTypes.
#[local] Open Scope list_scope.
#[local] Open Scope Z_scope.

(** ** Addresses *)

Lemma initiator_address_agrees a : aa23IsInitiatorAddress a = IsInitiatorCapableAddress a.
Proof. apply (byte_ext aa23IsInitiatorAddress IsInitiatorCapableAddress). vm_compute. reflexivity. Qed.

Definition initiator_target (a : byte) : bool := bool_decide (FrameTypeForTarget a = FrameTypeInitiatorTarget).

Lemma target_address_agrees a : aa23IsTargetAddress a = initiator_target a.
Proof. apply (byte_ext aa23IsTargetAddress initiator_target). vm_compute. reflexivity. Qed.

(** ** CRC *)

Lemma crc_bits_table c : Nat.iter 8 crc_bit c = nth (Z.to_nat (u8 c)) lookupTable x00.
Proof. apply (byte_ext (fun c => Nat.iter 8 crc_bit c) (fun c => nth (Z.to_nat (u8 c)) lookupTable x00)). vm_compute. reflexivity. Qed.

Lemma crc_step_agrees c v : aa23CRCStep c v = crc_update c v.
Proof. unfold aa23CRCStep, crc_update. by rewrite crc_bits_table. Qed.

Lemma crc_update_agrees c v : aa23CRCUpdate c v = crc_symbol c v.
Proof. unfold aa23CRCUpdate, crc_symbol. by rewrite !crc_step_agrees. Qed.

Lemma append_escaped_agrees dst v : aa23AppendEscaped dst v = dst ++ escape_symbol v.
Proof. unfold aa23AppendEscaped, escape_symbol. by destruct (v =b SymbolEscape), (v =b SymbolSyn). Qed.

(** ** Encoding *)

Lemma encode_fold data crc dst :
  foldl (fun '(crc, dst) value => (aa23CRCUpdate crc value, aa23AppendEscaped dst value)) (crc, dst) data =
  (foldl crc_symbol crc data, dst ++ EscapeBytes data).
Proof.
  revert crc dst. induction data as [|v data IH]; intros crc dst; cbn; [by rewrite app_nil_r|].
  by rewrite IH, crc_update_agrees, append_escaped_agrees, <- app_assoc.
Qed.

Lemma encode_response_eq dst data :
  AA23EncodeResponse dst data =
  if 255 <? len data then (dst, Some ErrAA23Oversize) else (dst ++ EscapeBytes (slave_segment data), None).
Proof.
  unfold AA23EncodeResponse. change aa23MaxNativeLength with 255. destruct (255 <? len data); [done|]. cbv zeta.
  rewrite encode_fold. f_equal. rewrite !append_escaped_agrees, crc_update_agrees. unfold slave_segment.
  rewrite <- !app_assoc. f_equal. change (CRC (b8 (len data) :: data)) with (foldl crc_symbol (crc_symbol x00 (b8 (len data))) data).
  cbn [app EscapeBytes]. f_equal. rewrite EscapeBytes_app. f_equal. cbn [EscapeBytes]. by rewrite app_nil_r.
Qed.

(** ** Validation *)

(** A wire text the scan accepts is the escaped form of the values it took. *)
Lemma scan_wire_Some n wire s s' :
  (length wire <= n)%nat -> scan_wire wire s = Some s' -> exists vs, wire = EscapeBytes vs /\ s' = foldl scan_value s vs.
Proof.
  revert wire s. induction n as [|n IH]; intros wire s Hn; (destruct wire as [|v rest]; [intros [= ->]; by exists []|]); cbn in Hn; [lia|].
  cbn [scan_wire]. destruct (byte_eqb_spec v SymbolSyn) as [->|Hs]; [done|].
  destruct (byte_eqb_spec v SymbolEscape) as [->|He].
  - destruct rest as [|mark rest]; [done|]. cbn in Hn. destruct (byte_eqb_spec mark x00) as [->|H0].
    + intros H. destruct (IH rest _ ltac:(lia) H) as (vs & -> & ->). by exists (SymbolEscape :: vs).
    + destruct (byte_eqb_spec mark x01) as [->|H1]; [|done].
      intros H. destruct (IH rest _ ltac:(lia) H) as (vs & -> & ->). by exists (SymbolSyn :: vs).
  - intros H. destruct (IH rest _ ltac:(lia) H) as (vs & -> & ->). exists (v :: vs). split; [|done].
    cbn [EscapeBytes]. rewrite plain_symbol_escape; [done|]. unfold plain_symbol.
    by rewrite (proj2 (byte_eqb_neq v SymbolEscape)), (proj2 (byte_eqb_neq v SymbolSyn)).
Qed.

Lemma scan_wire_escaped vs s : scan_wire (EscapeBytes vs) s = Some (foldl scan_value s vs).
Proof.
  revert s. induction vs as [|v vs IH]; intros s; [done|]. cbn [EscapeBytes foldl]. rewrite <- IH. unfold escape_symbol.
  destruct (byte_eqb_spec v SymbolEscape) as [->|He]; [done|]. destruct (byte_eqb_spec v SymbolSyn) as [->|Hs]; [done|].
  cbn [app scan_wire]. by rewrite (proj2 (byte_eqb_neq v SymbolEscape)), (proj2 (byte_eqb_neq v SymbolSyn)).
Qed.

(** While the data lasts, the scan counts and sums. *)
Lemma scan_data vs crc decoded declared received :
  0 < decoded -> decoded + len vs <= declared + 1 ->
  foldl scan_value (mkScan crc decoded declared received) vs = mkScan (foldl crc_symbol crc vs) (decoded + len vs) declared received.
Proof.
  revert crc decoded. induction vs as [|v vs IH]; intros crc decoded Hd Hl; cbn [foldl]; [by rewrite Z.add_0_r|].
  rewrite len_cons in Hl. pose proof (len_nonneg vs). unfold scan_value at 2. cbn [s_Decoded s_Declared s_CRC s_Received].
  destruct (Z.eqb_spec decoded 0); [lia|]. destruct (Z.eqb_spec decoded (declared + 1)); [lia|].
  rewrite crc_update_agrees, IH by lia. rewrite len_cons. f_equal. lia.
Qed.

(** Past the checksum the scan never comes back to the count it needs. *)
Lemma scan_grows vs s : s_Decoded (foldl scan_value s vs) = s_Decoded s + len vs.
Proof.
  revert s. induction vs as [|v vs IH]; intros s; cbn [foldl]; [by rewrite Z.add_0_r|]. rewrite IH, len_cons.
  unfold scan_value. destruct (_ =? _); cbn; lia.
Qed.

Lemma scan_keeps_declared vs s : 0 < s_Decoded s -> s_Declared (foldl scan_value s vs) = s_Declared s.
Proof.
  revert s. induction vs as [|v vs IH]; intros s Hs; [done|]. cbn [foldl].
  assert (s_Declared (scan_value s v) = s_Declared s /\ s_Decoded (scan_value s v) = s_Decoded s + 1) as [E1 E2].
  { unfold scan_value. destruct (Z.eqb_spec (s_Decoded s) 0); [lia|]. by destruct (_ =? _). }
  rewrite IH by lia. exact E1.
Qed.

Lemma scan_first v : scan_value (mkScan x00 0 (-1) (-1)) v = mkScan (crc_symbol x00 v) 1 (u8 v) (-1).
Proof.
  unfold scan_value. cbn [s_Decoded s_Declared s_CRC s_Received]. rewrite Z.eqb_refl. pose proof (u8_range v).
  destruct (Z.eqb_spec 0 (u8 v + 1)); [lia|]. by rewrite crc_update_agrees.
Qed.

(** The values of an accepted scan: a length, that many bytes, their checksum. *)
Lemma scan_accepts vs :
  let s := foldl scan_value (mkScan x00 0 (-1) (-1)) vs in
  0 <= s_Declared s -> s_Decoded s = s_Declared s + 2 -> s_Received s = u8 (s_CRC s) ->
  exists data, len data <= 255 /\ vs = slave_segment data.
Proof.
  destruct vs as [|v vs]; cbn [foldl]; [cbn; lia|]. rewrite scan_first. cbv zeta.
  rewrite scan_grows, scan_keeps_declared by (cbn; lia). cbn [s_Decoded s_Declared]. intros _ Hd.
  assert (exists data c, vs = data ++ [c] /\ len data = u8 v) as (data & c & -> & El).
  { destruct (exists_last (l := vs)) as (data & c & ->); [intros ->; unfold len in Hd; cbn in Hd; pose proof (u8_range v); lia|].
    exists data, c. split; [done|]. rewrite len_app in Hd. change (len [c]) with 1 in Hd. lia. }
  rewrite foldl_app, scan_data by lia. cbn [foldl]. unfold scan_value. cbn [s_Decoded s_Declared s_CRC s_Received].
  pose proof (len_nonneg data). destruct (Z.eqb_spec (1 + len data) 0); [lia|]. destruct (Z.eqb_spec (1 + len data) (u8 v + 1)); [|lia].
  cbn [s_CRC s_Received]. intros Hc%u8_inj. exists data. pose proof (u8_range v). split; [lia|].
  unfold slave_segment. rewrite El, b8_u8, Hc. done.
Qed.

(** the worker accepts a prepared response exactly when it is what the
    bus protocol's encoder of target responses gives for some data, and its own
    encoder gives the same: one length byte, the data, their CRC, escaped. *)
Theorem encoded_response_is_slave_response wire :
  aa23ValidateEncodedResponse wire = None <->
  exists data, EncodeSlaveResponse data = Ok wire /\ AA23EncodeResponse [] data = (wire, None).
Proof.
  unfold aa23ValidateEncodedResponse. split.
  - destruct (scan_wire wire _) as [s|] eqn:E; [|done].
    apply (scan_wire_Some _ _ _ _ (le_n _)) in E as (vs & -> & ->).
    destruct (_ || _) eqn:Ec; [done|]. intros _. apply orb_false_iff in Ec as [[Ed%Z.ltb_ge El]%orb_false_iff Er].
    apply negb_false_iff, Z.eqb_eq in El. apply negb_false_iff, Z.eqb_eq in Er.
    destruct (scan_accepts vs Ed El Er) as (data & Hl & ->). exists data.
    unfold EncodeSlaveResponse. rewrite encode_response_eq. destruct (Z.ltb_spec 255 (len data)); [lia|]. done.
  - intros (data & He & _). unfold EncodeSlaveResponse in He. destruct (Z.ltb_spec 255 (len data)) as [|Hl]; [done|].
    assert (wire = EscapeBytes (slave_segment data)) as -> by congruence. clear He.
    rewrite scan_wire_escaped. unfold slave_segment. pose proof (len_nonneg data). cbn [foldl app]. rewrite scan_first.
    rewrite u8_b8_small by lia. rewrite foldl_app, scan_data by lia. cbn [foldl]. unfold scan_value.
    cbn [s_Decoded s_Declared s_CRC s_Received].
    destruct (Z.eqb_spec (1 + len data) 0); [lia|]. destruct (Z.eqb_spec (1 + len data) (len data + 1)); [|lia].
    cbn [s_Decoded s_Declared s_CRC s_Received]. change (CRC (b8 (len data) :: data)) with (foldl crc_symbol (crc_symbol x00 (b8 (len data))) data).
    rewrite Z.eqb_refl. destruct (Z.ltb_spec (len data) 0); [lia|]. destruct (Z.eqb_spec (1 + len data + 1) (len data + 2)); [done|lia].
Qed.
