(* ===== verification/PlanOverlap.v ===== *)
(** Overlapping plan entries (src/localworker/aa23_plans.go): the order on
    entries, the heap sort of an index scratch and the scan of neighbours,
    which finds an overlap exactly when some two entries overlap. *)

From S2P Require Import Prelude Errors Wire Heap PlanTypes.
#[local] Open Scope list_scope.

(** ** The order and the scan *)

(** [bytes.Compare]. *)
Fixpoint bytes_Compare (a b : list byte) : comparison :=
  match a, b with
  | [], [] => Eq
  | [], _ :: _ => Lt
  | _ :: _, [] => Gt
  | x :: a', y :: b' => if x <b y then Lt else if y <b x then Gt else bytes_Compare a' b'
  end.

Definition aa23OverlapLess (a b : AA23PlanEntry) : bool :=
  if negb (AA23PB a =b AA23PB b) then AA23PB a <b AA23PB b
  else if negb (AA23SB a =b AA23SB b) then AA23SB a <b AA23SB b
  else
    match bytes_Compare (AA23Request a) (AA23Request b) with
    | Lt => true
    | Gt => false
    | Eq =>
        if negb (Bool.eqb (AA23Any (eSource a)) (AA23Any (eSource b))) then AA23Any (eSource a)
        else sSource (eSource a) <b sSource (eSource b)
    end.

#[export] Instance source_inhabited : Inhabited AA23SourceConstraint := populate (mkSource false x00).
#[export] Instance entry_inhabited : Inhabited AA23PlanEntry :=
  populate (mkEntry inhabitant x00 x00 x00 0 [] AA23OperationUnspecified AA23PhaseNone 0 []).

Definition swap_at (order : list nat) (i j : nat) : list nat := <[i := order !!! j]> (<[j := order !!! i]> order).

(** The sift stops after as many turns as there are nodes. *)
Fixpoint aa23SiftDown (fuel : nat) (entries : list AA23PlanEntry) (order : list nat) (root end_ : nat) : list nat :=
  match fuel with
  | O => order
  | S fuel' =>
      let child := (2 * root + 1)%nat in
      if (end_ <=? child)%nat then order
      else
        let child :=
          if (child + 1 <? end_)%nat && aa23OverlapLess (entries !!! (order !!! child)) (entries !!! (order !!! (child + 1)%nat))
          then (child + 1)%nat else child in
        if negb (aa23OverlapLess (entries !!! (order !!! root)) (entries !!! (order !!! child))) then order
        else aa23SiftDown fuel' entries (swap_at order root child) child end_
  end.

(** The two loops over the scratch. *)
Fixpoint heapify_loop (start : nat) (entries : list AA23PlanEntry) (order : list nat) : list nat :=
  match start with
  | O => order
  | S start' => heapify_loop start' entries (aa23SiftDown (length order) entries order start' (length order))
  end.

Fixpoint sort_loop (end_ : nat) (entries : list AA23PlanEntry) (order : list nat) : list nat :=
  match end_ with
  | O => order
  | S end' => sort_loop end' entries (aa23SiftDown end_ entries (swap_at order 0 end_) 0 end_)
  end.

Definition same_request (prior next : AA23PlanEntry) : bool :=
  (AA23PB prior =b AA23PB next) && (AA23SB prior =b AA23SB next) && bool_decide (AA23Request prior = AA23Request next).

Definition neighbour_overlap (prior next : AA23PlanEntry) : bool :=
  if negb (same_request prior next) then false
  else AA23Any (eSource prior) || (sSource (eSource prior) =b sSource (eSource next)).

Fixpoint neighbour_loop (prior : AA23PlanEntry) (rest : list AA23PlanEntry) : bool :=
  match rest with
  | [] => false
  | next :: rest' => if neighbour_overlap prior next then true else neighbour_loop next rest'
  end.

Definition aa23PlanOverlaps (entries : list AA23PlanEntry) : bool :=
  let n := length entries in
  let order := sort_loop (n - 1) entries (heapify_loop (n / 2) entries (seq 0 n)) in
  match (fun i => entries !!! i) <$> order with
  | [] => false
  | first :: rest => neighbour_loop first rest
  end.

Definition aa23EntriesOverlap (a b : AA23PlanEntry) : bool :=
  if negb (AA23PB a =b AA23PB b) || negb (AA23SB a =b AA23SB b) then false
  else if negb (bool_decide (AA23Request a = AA23Request b)) then false
  else AA23Any (eSource a) || AA23Any (eSource b) || (sSource (eSource a) =b sSource (eSource b)).

(** ** The order is a strict weak order *)

Lemma bytes_Compare_spec a b : CompareSpec (a = b) (bytes_Compare a b = Lt) (bytes_Compare b a = Lt) (bytes_Compare a b).
Proof.
  revert b. induction a as [|x a IH]; intros [|y b]; cbn; try (by constructor).
  destruct (Z.ltb_spec (u8 x) (u8 y)) as [Hlt|Hge]; [by constructor|].
  destruct (Z.ltb_spec (u8 y) (u8 x)) as [Hgt|Hle].
  - constructor. done.
  - assert (x = y) as -> by (apply u8_inj; lia). destruct (IH b); constructor; congruence.
Qed.

Lemma bytes_Compare_refl a : bytes_Compare a a = Eq.
Proof. induction a as [|x a IH]; cbn; [done|]. by rewrite Z.ltb_irrefl. Qed.

Lemma bytes_Compare_trans a b c : bytes_Compare a b = Lt -> bytes_Compare b c = Lt -> bytes_Compare a c = Lt.
Proof.
  revert b c. induction a as [|x a IH]; intros [|y b] [|z c]; cbn; try done.
  destruct (Z.ltb_spec (u8 x) (u8 y)), (Z.ltb_spec (u8 y) (u8 x)), (Z.ltb_spec (u8 y) (u8 z)), (Z.ltb_spec (u8 z) (u8 y)),
    (Z.ltb_spec (u8 x) (u8 z)), (Z.ltb_spec (u8 z) (u8 x)); try done; try lia. apply IH.
Qed.

(** Comparisons that order: read backwards they turn over, they chain, and
    equal values compare alike. *)
Record good {A} (cmp : A -> A -> comparison) : Prop := {
  cmp_anti a b : cmp b a = CompOpp (cmp a b);
  cmp_trans a b c : cmp a b = Lt -> cmp b c = Lt -> cmp a c = Lt;
  cmp_eq a b c : cmp a b = Eq -> cmp a c = cmp b c }.

Definition lex (c d : comparison) : comparison := match c with Eq => d | _ => c end.

Lemma good_Z {A} (f : A -> Z) : good (fun a b => Z.compare (f a) (f b)).
Proof.
  split; intros.
  - apply Z.compare_antisym.
  - rewrite !Z.compare_lt_iff in *. lia.
  - apply Z.compare_eq in H. by rewrite H.
Qed.

Lemma good_bytes {A} (f : A -> list byte) : good (fun a b => bytes_Compare (f a) (f b)).
Proof.
  split; intros.
  - destruct (bytes_Compare_spec (f a) (f b)) as [->|E|E]; [apply bytes_Compare_refl| |exact E].
    destruct (bytes_Compare_spec (f b) (f a)) as [Eq|E2|E2]; [|by pose proof (bytes_Compare_trans _ _ _ E E2); rewrite bytes_Compare_refl in *|done].
    rewrite Eq, bytes_Compare_refl in E. done.
  - by eapply bytes_Compare_trans.
  - revert H. destruct (bytes_Compare_spec (f a) (f b)) as [->| |]; done.
Qed.

Lemma good_lex {A} (c d : A -> A -> comparison) : good c -> good d -> good (fun x y => lex (c x y) (d x y)).
Proof.
  intros [A1 T1 E1] [A2 T2 E2]. split; intros x y.
  - rewrite A1. destruct (c x y); cbn; auto.
  - intros z. destruct (c x y) eqn:Exy; cbn; [|intros _|done].
    + rewrite (E1 _ _ z Exy). intros H1. destruct (c y z); cbn; [by apply T2|done|done].
    + destruct (c y z) eqn:Eyz; cbn; [|intros _|done].
      * intros _. by rewrite (A1 z x), <- (E1 _ _ x Eyz), (A1 x y), Exy.
      * by rewrite (T1 _ _ _ Exy Eyz).
  - intros z. destruct (c x y) eqn:Exy; cbn; [|done|done]. intros Hd. by rewrite (E1 _ _ z Exy), (E2 _ _ z Hd).
Qed.

(** The comparison of requests, and the one that also ranks sources. *)
Definition request_cmp (a b : AA23PlanEntry) : comparison :=
  lex (Z.compare (u8 (AA23PB a)) (u8 (AA23PB b)))
    (lex (Z.compare (u8 (AA23SB a)) (u8 (AA23SB b))) (bytes_Compare (AA23Request a) (AA23Request b))).

Definition source_cmp (a b : AA23PlanEntry) : comparison :=
  lex (Z.compare (if AA23Any (eSource a) then 0 else 1) (if AA23Any (eSource b) then 0 else 1))
    (Z.compare (u8 (sSource (eSource a))) (u8 (sSource (eSource b)))).

Definition entry_cmp (a b : AA23PlanEntry) : comparison := lex (request_cmp a b) (source_cmp a b).

Lemma request_cmp_good : good request_cmp.
Proof. apply good_lex; [apply (good_Z (fun a => u8 (AA23PB a)))|]. apply good_lex; [apply (good_Z (fun a => u8 (AA23SB a)))|apply (good_bytes AA23Request)]. Qed.

Lemma entry_cmp_good : good entry_cmp.
Proof.
  apply good_lex; [apply request_cmp_good|]. apply good_lex; [apply (good_Z (fun a => if AA23Any (eSource a) then 0 else 1))|].
  apply (good_Z (fun a => u8 (sSource (eSource a)))).
Qed.

Lemma byte_compare_cases x y :
  (x = y /\ (x =b y) = true /\ Z.compare (u8 x) (u8 y) = Eq) \/
  ((x =b y) = false /\ (x <b y) = true /\ Z.compare (u8 x) (u8 y) = Lt) \/
  ((x =b y) = false /\ (x <b y) = false /\ Z.compare (u8 x) (u8 y) = Gt).
Proof.
  destruct (Z.compare_spec (u8 x) (u8 y)) as [E|E|E].
  - apply u8_inj in E as ->. left. by rewrite byte_eqb_refl.
  - right; left. split; [apply byte_eqb_neq; intros ->; lia|]. split; [by apply Z.ltb_lt|done].
  - right; right. split; [apply byte_eqb_neq; intros ->; lia|]. split; [apply Z.ltb_ge; lia|done].
Qed.

Lemma less_cmp a b : aa23OverlapLess a b = true <-> entry_cmp a b = Lt.
Proof.
  unfold aa23OverlapLess, entry_cmp, request_cmp.
  destruct (byte_compare_cases (AA23PB a) (AA23PB b)) as [(_ & -> & ->)|[(-> & -> & ->)|(-> & -> & ->)]]; cbn; [|done|done].
  destruct (byte_compare_cases (AA23SB a) (AA23SB b)) as [(_ & -> & ->)|[(-> & -> & ->)|(-> & -> & ->)]]; cbn; [|done|done].
  destruct (bytes_Compare _ _); cbn; [|done|done]. unfold source_cmp.
  destruct (AA23Any (eSource a)), (AA23Any (eSource b)); cbn; try done; apply Z.ltb_lt.
Qed.

#[export] Instance overlap_order : KeyOrder (fun a b => aa23OverlapLess b a).
Proof.
  destruct entry_cmp_good as [A1 T1 E1]. split.
  - intros a b H%less_cmp. apply not_true_is_false. intros H2%less_cmp. rewrite A1, H in H2. done.
  - intros a b c H1 H2. apply not_true_is_false. intros H%less_cmp.
    assert (entry_cmp a b <> Lt) as N1 by (intros E%less_cmp; congruence).
    assert (entry_cmp b c <> Lt) as N2 by (intros E%less_cmp; congruence).
    destruct (entry_cmp a b) eqn:E; [|done|].
    + rewrite (E1 _ _ c E) in H. done.
    + assert (entry_cmp b a = Lt) as Eba by (rewrite A1, E; done). by apply N2, (T1 _ a).
Qed.

(** ** The sort is the heap sort of HeapSort.v *)

Section sort.
Context (entries : list AA23PlanEntry).

#[local] Instance order_heap : HeapInterface (list nat) := {
  heap_Len := length;
  heap_Less order i j := aa23OverlapLess (entries !!! (order !!! j)) (entries !!! (order !!! i));
  heap_Swap := swap_at }.

Definition keys (order : list nat) : list AA23PlanEntry := (fun i => entries !!! i) <$> order.

Lemma keys_lookup order i : (i < length order)%nat -> keys order !!! i = entries !!! (order !!! i).
Proof. intros Hi. unfold keys. exact (list_lookup_total_fmap (fun i => entries !!! i) order i Hi). Qed.

Lemma length_swap_at order i j : length (swap_at order i j) = length order.
Proof. unfold swap_at. by rewrite !length_insert. Qed.

Lemma swap_at_lookup order i j k :
  (i < length order)%nat -> (j < length order)%nat -> swap_at order i j !!! k = swapf (fun k => order !!! k) i j k.
Proof.
  intros Hi Hj. unfold swap_at, swapf. destruct (Nat.eqb_spec k i) as [->|Hki].
  - by rewrite list_lookup_total_insert_eq by (by rewrite length_insert).
  - rewrite list_lookup_total_insert_ne by done. destruct (Nat.eqb_spec k j) as [->|Hkj].
    + by rewrite list_lookup_total_insert_eq.
    + by rewrite list_lookup_total_insert_ne.
Qed.

Lemma swap_at_perm order i j : (i < length order)%nat -> (j < length order)%nat -> swap_at order i j ≡ₚ order.
Proof.
  intros Hi Hj. destruct (lookup_lt_is_Some_2 order i Hi) as [x Hx]. destruct (lookup_lt_is_Some_2 order j Hj) as [y Hy].
  unfold swap_at. rewrite (list_lookup_total_correct _ _ _ Hx), (list_lookup_total_correct _ _ _ Hy).
  symmetry. apply Permutation_inj. split; [by rewrite !length_insert|].
  exists (fun k => if (k =? i)%nat then j else if (k =? j)%nat then i else k). split.
  - intros a b. destruct (Nat.eqb_spec a i), (Nat.eqb_spec a j), (Nat.eqb_spec b i), (Nat.eqb_spec b j); lia.
  - intros k. destruct (Nat.eqb_spec k i) as [->|Hki].
    + destruct (decide (i = j)) as [->|Hne].
      * rewrite list_lookup_insert_eq; [congruence|by rewrite length_insert].
      * rewrite list_lookup_insert_ne, list_lookup_insert_eq by done. congruence.
    + destruct (Nat.eqb_spec k j) as [->|Hkj].
      * rewrite list_lookup_insert_eq by (by rewrite length_insert). congruence.
      * by rewrite !list_lookup_insert_ne by done.
Qed.

#[local] Instance order_laws : HeapLaws (list nat) AA23PlanEntry (fun a b => aa23OverlapLess b a).
Proof.
  refine {| heap_order := overlap_order; heap_wf := fun _ => True; view := keys |}.
  - done.
  - intros order. unfold keys. by rewrite length_fmap.
  - intros order i j _ Hi Hj. by rewrite !keys_lookup.
  - intros order i j k Hi Hj. unfold swapf. cbn [heap_Swap order_heap heap_Len] in *.
    destruct (decide (k < length order)%nat) as [Hk|Hk].
    + rewrite keys_lookup, swap_at_lookup by (rewrite ?length_swap_at; done). unfold swapf.
      destruct (Nat.eqb_spec k i); [by rewrite keys_lookup|]. destruct (Nat.eqb_spec k j); by rewrite keys_lookup.
    + destruct (Nat.eqb_spec k i); [lia|]. destruct (Nat.eqb_spec k j); [lia|].
      rewrite !list_lookup_total_alt. unfold keys. rewrite !lookup_ge_None_2 by (rewrite length_fmap, ?length_swap_at; lia). done.
  - intros order i j Hi Hj. unfold keys. by rewrite swap_at_perm.
Defined.

Lemma sift_is_down fuel order root end_ : aa23SiftDown fuel entries order root end_ = (down fuel order root end_).1.
Proof.
  revert order root. induction fuel as [|fuel IH]; intros order root; [done|]. cbn [aa23SiftDown]. rewrite down_unfold.
  destruct (end_ <=? 2 * root + 1)%nat; [done|]. cbv zeta.
  change (if (2 * root + 1 + 1 <? end_)%nat && aa23OverlapLess (entries !!! (order !!! (2 * root + 1)%nat)) (entries !!! (order !!! (2 * root + 1 + 1)%nat))
          then (2 * root + 1 + 1)%nat else (2 * root + 1)%nat) with (smaller_child order (2 * root + 1) end_).
  cbn [heap_Less order_heap]. destruct (aa23OverlapLess _ _); [|done]. cbn [negb]. rewrite IH. done.
Qed.

Lemma heapify_is_build start order n : length order = n -> heapify_loop start entries order = build start order n.
Proof.
  intros <-. revert order. induction start as [|start IH]; intros order; [done|]. cbn [heapify_loop build].
  rewrite sift_is_down. set (order' := (down _ _ _ _).1).
  assert (forall fuel o i n, length (down fuel o i n).1 = length o) as Hl.
  { induction fuel as [|fuel IHf]; intros o i n; [done|]. rewrite down_unfold. destruct (n <=? _)%nat; [done|].
    destruct (negb _); [done|]. rewrite IHf. apply length_swap_at. }
  rewrite IH. unfold order'. by rewrite Hl.
Qed.

Lemma sort_is_take_out end_ order : sort_loop end_ entries order = take_out end_ order.
Proof. revert order. induction end_ as [|e IH]; intros order; [done|]. cbn [sort_loop take_out]. by rewrite sift_is_down, IH. Qed.

Definition sorted_keys : list AA23PlanEntry := keys (sort_loop (length entries - 1) entries (heapify_loop (length entries / 2) entries (seq 0 (length entries)))).

Lemma sorted_keys_ok :
  (sorted_keys ≡ₚ entries) /\
  forall i j a b, sorted_keys !! i = Some a -> sorted_keys !! j = Some b -> (i < j)%nat -> aa23OverlapLess b a = false.
Proof.
  unfold sorted_keys. set (order := seq 0 (length entries)).
  assert (length order = length entries) as Ho by apply length_seq.
  rewrite (heapify_is_build _ _ (length entries) Ho), sort_is_take_out.
  assert (heap_wf order) as Hw by exact I. destruct (heap_sort_ok order Hw) as [(_ & Hl & Hp) Hs]. change (heap_Len order) with (length order) in *. rewrite Ho in *.
  unfold heap_sort in *. set (result := take_out _ _) in *. cbn [heap_Len order_heap] in Hl.
  split.
  - change (keys result ≡ₚ keys order) in Hp. rewrite Hp. unfold keys, order. apply (reflexive_eq (R := Permutation)).
    apply list_eq. intros i. rewrite list_lookup_fmap. destruct (decide (i < length entries)%nat) as [Hi|Hi].
    + rewrite lookup_seq_lt by done. cbn. destruct (lookup_lt_is_Some_2 entries i Hi) as [x Hx].
      by rewrite Hx, (list_lookup_total_correct _ _ _ Hx).
    + rewrite lookup_seq_ge by lia. cbn. by rewrite lookup_ge_None_2 by lia.
  - intros i j a b Ha Hb Hij. pose proof (lookup_lt_Some _ _ _ Hb) as Hj. unfold keys in Hj. rewrite length_fmap in Hj.
    specialize (Hs i j ltac:(split; [done|rewrite <- Hl; exact Hj]) ltac:(lia)). unfold key_at in Hs.
    change (view result) with (keys result) in Hs.
    by rewrite (list_lookup_total_correct _ _ _ Ha), (list_lookup_total_correct _ _ _ Hb) in Hs.
Qed.
End sort.

(** ** The scan finds every overlap *)

Definition apart (a b : AA23PlanEntry) : Prop := aa23EntriesOverlap a b = false.

Lemma overlap_sym a b : aa23EntriesOverlap a b = aa23EntriesOverlap b a.
Proof.
  unfold aa23EntriesOverlap. rewrite (bool_decide_ext (AA23Request a = AA23Request b) (AA23Request b = AA23Request a)) by done.
  assert (forall x y, (x =b y) = (y =b x)) as E by (intros x y; destruct (byte_eqb_spec x y), (byte_eqb_spec y x); congruence).
  rewrite (E (AA23PB a)), (E (AA23SB a)), (E (sSource (eSource a))). by rewrite (orb_comm (AA23Any (eSource a))).
Qed.

Lemma same_request_cmp a b : same_request a b = true <-> request_cmp a b = Eq.
Proof.
  unfold same_request, request_cmp.
  destruct (byte_compare_cases (AA23PB a) (AA23PB b)) as [(_ & -> & ->)|[(-> & _ & ->)|(-> & _ & ->)]]; cbn; [|done|done].
  destruct (byte_compare_cases (AA23SB a) (AA23SB b)) as [(_ & -> & ->)|[(-> & _ & ->)|(-> & _ & ->)]]; cbn; [|done|done].
  rewrite bool_decide_eq_true. destruct (bytes_Compare_spec (AA23Request a) (AA23Request b)) as [->|E|E]; [done| |];
    (split; [intros Eq; rewrite Eq, bytes_Compare_refl in E; done|done]).
Qed.

Lemma overlap_split a b :
  aa23EntriesOverlap a b = same_request a b && (AA23Any (eSource a) || AA23Any (eSource b) || (sSource (eSource a) =b sSource (eSource b))).
Proof. unfold aa23EntriesOverlap, same_request. by destruct (AA23PB a =b AA23PB b), (AA23SB a =b AA23SB b), (bool_decide _). Qed.

(** Between two entries with one request, sorted, all have that request. *)
Lemma sorted_between a m b :
  aa23OverlapLess m a = false -> aa23OverlapLess b m = false -> same_request a b = true -> same_request a m = true.
Proof.
  intros H1 H2 Hs. apply same_request_cmp. apply same_request_cmp in Hs. destruct request_cmp_good as [A T E].
  assert (request_cmp m a <> Lt) as N1 by (intros Er; assert (aa23OverlapLess m a = true) by (apply less_cmp; unfold entry_cmp; by rewrite Er); congruence).
  assert (request_cmp b m <> Lt) as N2 by (intros Er; assert (aa23OverlapLess b m = true) by (apply less_cmp; unfold entry_cmp; by rewrite Er); congruence).
  rewrite <- (E _ _ m Hs) in N2. rewrite (A a m) in N1. destruct (request_cmp a m); [done|done|]. by destruct N1.
Qed.

(** With one request, the sorted sources: any first, then by address. *)
Lemma sorted_sources a b :
  same_request a b = true -> aa23OverlapLess b a = false -> AA23Any (eSource a) = false ->
  AA23Any (eSource b) = false /\ u8 (sSource (eSource a)) <= u8 (sSource (eSource b)).
Proof.
  intros Hs Hl Ha. apply same_request_cmp in Hs.
  assert (request_cmp b a = Eq) as Hs' by (rewrite (cmp_anti _ request_cmp_good a b), Hs; done).
  assert (source_cmp b a <> Lt) as N.
  { intros E. assert (aa23OverlapLess b a = true) by (apply less_cmp; unfold entry_cmp; by rewrite Hs'). congruence. }
  unfold source_cmp in N. rewrite Ha in N. destruct (AA23Any (eSource b)); cbn in N; [done|]. split; [done|].
  rewrite Z.compare_lt_iff in N. lia.
Qed.

Definition sorted (l : list AA23PlanEntry) : Prop :=
  forall i j a b, l !! i = Some a -> l !! j = Some b -> (i < j)%nat -> aa23OverlapLess b a = false.

Lemma sorted_tail a l : sorted (a :: l) -> sorted l.
Proof. intros H i j x y Hx Hy Hij. apply (H (S i) (S j)); [done|done|lia]. Qed.

Lemma neighbour_overlaps a b : neighbour_overlap a b = true -> aa23EntriesOverlap a b = true.
Proof.
  rewrite overlap_split. unfold neighbour_overlap. destruct (same_request a b); [|done]. cbn.
  by destruct (AA23Any (eSource a)), (AA23Any (eSource b)).
Qed.

(** In a sorted list the first entry overlaps some later one only if it
    overlaps its neighbour. *)
Lemma first_overlap a m l j b :
  sorted (a :: m :: l) -> (m :: l) !! j = Some b -> aa23EntriesOverlap a b = true -> neighbour_overlap a m = true.
Proof.
  intros Hs Hb Ho. rewrite overlap_split in Ho. apply andb_true_iff in Ho as [Hreq Hsrc].
  assert (aa23OverlapLess m a = false) as Lma by (apply (Hs 0%nat 1%nat); [done|done|lia]).
  assert (aa23OverlapLess b a = false) as Lba by (apply (Hs 0%nat (S j)); [done|done|lia]).
  assert (b = m \/ aa23OverlapLess b m = false) as Lbm.
  { destruct j; [left; by injection Hb|right]. apply (Hs 1%nat (S (S j))); [done|done|lia]. }
  assert (same_request a m = true) as Ham by (destruct Lbm as [->|Lbm]; [done|by apply (sorted_between a m b)]).
  unfold neighbour_overlap. rewrite Ham. cbn [negb]. destruct (AA23Any (eSource a)) eqn:Ea; [done|]. cbn in Hsrc |- *.
  destruct (sorted_sources a b Hreq Lba Ea) as [Eb Hle]. rewrite Eb in Hsrc. cbn in Hsrc.
  destruct (sorted_sources a m Ham Lma Ea) as [Em Hle2]. destruct Lbm as [->|Lbm]; [done|].
  apply byte_eqb_eq in Hsrc.
  assert (same_request m b = true) as Hmb.
  { apply same_request_cmp. rewrite <- (cmp_eq _ request_cmp_good a m b) by (by apply same_request_cmp). by apply same_request_cmp. }
  destruct (sorted_sources m b Hmb Lbm Em) as [_ Hle3]. apply byte_eqb_eq, u8_inj. rewrite Hsrc in *. lia.
Qed.

Lemma neighbour_loop_iff a l :
  sorted (a :: l) -> neighbour_loop a l = false <-> ForallOrdPairs apart (a :: l).
Proof.
  revert a. induction l as [|m l IH]; intros a Hs; cbn [neighbour_loop].
  - split; [|done]. intros _. repeat constructor.
  - pose proof (IH m (sorted_tail _ _ Hs)) as IHm. destruct (neighbour_overlap a m) eqn:E.
    + split; [done|]. intros H. inversion H as [|? ? Hall _]; subst. inversion Hall as [|? ? Ham _]; subst.
      apply neighbour_overlaps in E. unfold apart in Ham. congruence.
    + rewrite IHm. split; [|by inversion 1]. intros H. constructor; [|done]. apply Forall_lookup. intros j b Hb.
      unfold apart. apply not_true_is_false. intros Ho. by rewrite (first_overlap a m l j b) in E.
Qed.

Lemma apart_perm l k : l ≡ₚ k -> ForallOrdPairs apart l -> ForallOrdPairs apart k.
Proof.
  induction 1 as [|x l k Hlk IH|x y l|l k m _ IH1 _ IH2]; intros H; [done| | |auto].
  - inversion H as [|? ? Hx Hl]; subst. constructor; [by rewrite <- Hlk|auto].
  - inversion H as [|? ? Hy Hl]; subst. inversion Hl as [|? ? Hx Hr]; subst. inversion Hy as [|? ? Hyx Hyl]; subst.
    constructor; [constructor; [|done]|by constructor]. unfold apart in *. by rewrite overlap_sym.
Qed.

Lemma pairs_lookup l : ForallOrdPairs apart l <-> forall i j a b, l !! i = Some a -> l !! j = Some b -> (i < j)%nat -> apart a b.
Proof.
  induction l as [|x l IH]; [split; [done|intros _; constructor]|]. split.
  - intros H. inversion H as [|? ? Hx Hl]; subst. intros [|i] [|j] a b Ha Hb Hij; try lia.
    + injection Ha as ->. by apply (proj1 (Forall_lookup _ _) Hx j).
    + apply (proj1 IH Hl i j); [done|done|lia].
  - intros H. constructor; [apply Forall_lookup; intros j b Hb; apply (H 0%nat (S j)); [done|done|lia]|].
    apply IH. intros i j a b Ha Hb Hij. apply (H (S i) (S j)); [done|done|lia].
Qed.

(** No two entries overlap exactly when the scan finds nothing. *)
Lemma plan_overlaps_apart entries : aa23PlanOverlaps entries = false <-> ForallOrdPairs apart entries.
Proof.
  destruct (sorted_keys_ok entries) as [Hp Hs]. 
  change (aa23PlanOverlaps entries) with (match sorted_keys entries with [] => false | first :: rest => neighbour_loop first rest end).
  change (sorted (sorted_keys entries)) in Hs.
  transitivity (ForallOrdPairs apart (sorted_keys entries)); [|split; by apply apart_perm].
  destruct (sorted_keys entries) as [|a l]; [split; [constructor|done]|]. by apply neighbour_loop_iff.
Qed.

(** C29: Claim: the heap sort over an index scratch and the scan of neighbours
    report an overlap exactly when some two entries of the plan overlap, that
    is, when one request could select both. *)
Theorem plan_overlaps_iff entries :
  aa23PlanOverlaps entries = true <->
  exists i j a b, entries !! i = Some a /\ entries !! j = Some b /\ (i < j)%nat /\ aa23EntriesOverlap a b = true.
Proof.
  split.
  - intros H. destruct (decide (Exists (fun p => aa23EntriesOverlap p.1.2 p.2.2 = true /\ (p.1.1 < p.2.1)%nat)
      (list_prod (imap pair entries) (imap pair entries)))) as [He|He].
    + apply Exists_exists in He as ([[i a] [j b]] & Hin & Ho & Hij). cbn in *.
      apply list_elem_of_In, in_prod_iff in Hin as [Hi%list_elem_of_In Hj%list_elem_of_In].
      apply elem_of_lookup_imap_1 in Hi as (i' & a' & [= -> ->] & Hi). apply elem_of_lookup_imap_1 in Hj as (j' & b' & [= -> ->] & Hj).
      by exists i', j', a', b'.
    + assert (aa23PlanOverlaps entries = false); [|congruence]. apply plan_overlaps_apart, pairs_lookup. intros i j a b Ha Hb Hij.
      apply not_true_is_false. intros Ho. apply He, Exists_exists. exists ((i, a), (j, b)). split; [|done].
      apply list_elem_of_In, in_prod_iff. split; apply list_elem_of_In, elem_of_lookup_imap; eauto.
  - intros (i & j & a & b & Ha & Hb & Hij & Ho). apply not_false_is_true. intros H%plan_overlaps_apart.
    pose proof (proj1 (pairs_lookup _) H i j a b Ha Hb Hij). unfold apart in *. congruence.
Qed.
