(* ===== verification/PlanPool.v ===== *)
(** src/localworker/aa23_plans.go, the pool: slots and their incarnations, the
    entries a slot holds as offsets into its bytes, notices and
    acknowledgements. *)

From S2P Require Import Prelude Errors PlanTypes.
#[local] Open Scope list_scope.
#[local] Open Scope Z_scope.

Inductive AA23SlotState := AA23SlotInvalid | AA23SlotFree | AA23SlotWriting | AA23SlotPublished | AA23SlotRetained | AA23SlotReclaimable.

#[export] Instance slot_state_eq_dec : EqDecision AA23SlotState.
Proof. solve_decision. Defined.

Record AA23SlotRef := mkRef { AA23Index : Z; AA23Incarnation : Z }.

#[export] Instance slot_ref_eq_dec : EqDecision AA23SlotRef.
Proof. solve_decision. Defined.

Record AA23SlotCounts := mkCounts { nFree : Z; nWriting : Z; nPublished : Z; nRetained : Z; nReclaimable : Z }.

Inductive AA23RetireReason := AA23RetireNone | AA23RetireSuperseded | AA23RetireExpired | AA23RetireRevoked.

#[export] Instance retire_reason_eq_dec : EqDecision AA23RetireReason.
Proof. solve_decision. Defined.

Definition reason_rank (r : AA23RetireReason) : Z :=
  match r with AA23RetireNone => 0 | AA23RetireSuperseded => 1 | AA23RetireExpired => 2 | AA23RetireRevoked => 3 end.

Record AA23PublishNotice := mkPublish { pnSlot : AA23SlotRef; pnIdentity : AA23PlanIdentity }.
Record AA23RevocationNotice := mkRevocation { rnSlot : AA23SlotRef; rnIdentity : AA23PlanIdentity; rnReason : AA23RetireReason }.
Record AA23Acknowledgement := mkAck { ackSlot : AA23SlotRef; ackIdentity : AA23PlanIdentity }.

Record aa23EntryRecord := mkEntryRecord {
  aa23SourceAny : bool; aa23Source : byte; aa23PB : byte; aa23SB : byte; aa23Phase : AA23Phase;
  aa23RequestStart : Z; aa23RequestLen : Z; aa23ReplyStart : Z; aa23ReplyLen : Z }.

Definition zero_record : aa23EntryRecord := mkEntryRecord false x00 x00 x00 AA23PhaseNone 0 0 0 0.

Record aa23Slot := mkSlot {
  aa23State : AA23SlotState; aa23Incarnation : Z; aa23Identity : AA23PlanIdentity; aa23Validity : AA23PlanValidity;
  aa23Reason : AA23RetireReason; aa23Pinned : bool; aa23EntryCount : Z;
  aa23Entries : list aa23EntryRecord; aa23Bytes : list byte }.

Notation AA23Pool := (list aa23Slot).

Definition zero_key : AA23RegistrationKey := mkKey 0 x00 0.
Definition zero_identity : AA23PlanIdentity := mkIdentity zero_key 0 0 0 0.
Definition zero_validity : AA23PlanValidity := mkValidity 0 0 0 0.
Definition zero_ref : AA23SlotRef := mkRef 0 0.

Definition new_slot (l : AA23Limits) : aa23Slot :=
  mkSlot AA23SlotFree 1 zero_identity zero_validity AA23RetireNone false 0
    (replicate (Z.to_nat (AA23MaxEntriesPerPlan l)) zero_record) (replicate (Z.to_nat (AA23MaxPlanBytes l)) x00).

Definition aa23NewPool (l : AA23Limits) : AA23Pool := replicate (Z.to_nat (AA23MaxPlanSlots l)) (new_slot l).

(** The index of the slot a reference names, when it still names it. *)
Definition aa23Resolve (ref : AA23SlotRef) (pool : AA23Pool) : result aa23_error (nat * aa23Slot) :=
  if len pool <=? AA23Index ref then Err ErrAA23SlotState
  else
    match pool !! Z.to_nat (AA23Index ref) with
    | None => Err ErrAA23SlotState
    | Some current =>
        if negb (aa23Incarnation current =? AA23Incarnation ref) then Err ErrAA23SlotState
        else Ok (Z.to_nat (AA23Index ref), current)
    end.

Definition SlotState (index : Z) (pool : AA23Pool) : AA23SlotState :=
  match pool !! Z.to_nat index with None => AA23SlotInvalid | Some s => aa23State s end.

Definition count_state (st : AA23SlotState) (pool : AA23Pool) : Z :=
  foldl (fun n s => if bool_decide (aa23State s = st) then wrap 32 (n + 1) else n) 0 pool.

Definition AA23Counts (pool : AA23Pool) : AA23SlotCounts :=
  mkCounts (count_state AA23SlotFree pool) (count_state AA23SlotWriting pool) (count_state AA23SlotPublished pool)
    (count_state AA23SlotRetained pool) (count_state AA23SlotReclaimable pool).

Definition with_state (st : AA23SlotState) (s : aa23Slot) : aa23Slot :=
  mkSlot st (aa23Incarnation s) (aa23Identity s) (aa23Validity s) (aa23Reason s) (aa23Pinned s) (aa23EntryCount s) (aa23Entries s) (aa23Bytes s).
Definition with_reason (r : AA23RetireReason) (s : aa23Slot) : aa23Slot :=
  mkSlot (aa23State s) (aa23Incarnation s) (aa23Identity s) (aa23Validity s) r (aa23Pinned s) (aa23EntryCount s) (aa23Entries s) (aa23Bytes s).
Definition with_pinned (b : bool) (s : aa23Slot) : aa23Slot :=
  mkSlot (aa23State s) (aa23Incarnation s) (aa23Identity s) (aa23Validity s) (aa23Reason s) b (aa23EntryCount s) (aa23Entries s) (aa23Bytes s).

(** [Release] leaves the pin flag, the entries and the bytes as they are. *)
Definition aa23Release (s : aa23Slot) : aa23Slot * option aa23_error :=
  if aa23Incarnation s =? MaxUint64 then (s, Some ErrAA23CounterExhausted)
  else (mkSlot AA23SlotFree (wrap 64 (aa23Incarnation s + 1)) zero_identity zero_validity AA23RetireNone (aa23Pinned s) 0
          (aa23Entries s) (aa23Bytes s), None).

(** A slot that nobody has seen goes back to free, or out of service. *)
Definition release_or_retire (s : aa23Slot) : aa23Slot :=
  match aa23Release s with
  | (s', None) => s'
  | (s', Some _) => with_state AA23SlotReclaimable s'
  end.

Definition aa23Ref (index : nat) (s : aa23Slot) : AA23SlotRef := mkRef (wrap 32 (Z.of_nat index)) (aa23Incarnation s).

Definition AA23Reclaim (ref : AA23SlotRef) (pool : AA23Pool) : AA23Pool * option aa23_error :=
  match aa23Resolve ref pool with
  | Err err => (pool, Some err)
  | Ok (i, current) =>
      if negb (bool_decide (aa23State current = AA23SlotReclaimable)) then (pool, Some ErrAA23SlotState)
      else let (current', err) := aa23Release current in (<[i := current']> pool, err)
  end.

(** The appending loops: [cap] is the capacity of [dst]. *)
Fixpoint pending_reclaims (i : nat) (pool : AA23Pool) (dst : list AA23SlotRef) (cap : Z) : list AA23SlotRef :=
  match pool with
  | [] => dst
  | s :: rest =>
      if len dst =? cap then dst
      else
        let dst := if bool_decide (aa23State s = AA23SlotReclaimable) then dst ++ [aa23Ref i s] else dst in
        pending_reclaims (S i) rest dst cap
  end.

Definition AA23PendingReclaims (dst : list AA23SlotRef) (cap : Z) (pool : AA23Pool) : list AA23SlotRef :=
  pending_reclaims 0 pool dst cap.

(** ** Copying a candidate *)

(** [copy(dst[cursor:], src)]. *)
Definition copy_at (dst : list byte) (cursor : Z) (src : list byte) : list byte * Z :=
  let n := Z.min (len dst - cursor) (len src) in
  (take (Z.to_nat cursor) dst ++ take (Z.to_nat n) src ++ drop (Z.to_nat (cursor + n)) dst, n).

Fixpoint copy_entries (index : nat) (cursor : Z) (entries : list AA23PlanEntry) (records : list aa23EntryRecord) (bytes : list byte)
    : list aa23EntryRecord * list byte :=
  match entries with
  | [] => (records, bytes)
  | e :: rest =>
      let (bytes, n) := copy_at bytes cursor (AA23Request e) in
      let requestLen := wrap 32 n in
      let replyStart := wrap 32 (cursor + requestLen) in
      let (bytes, m) := copy_at bytes replyStart (AA23EncodedResponse e) in
      let replyLen := wrap 32 m in
      let record := mkEntryRecord (AA23Any (eSource e)) (sSource (eSource e)) (AA23PB e) (AA23SB e) (AA23AllowedPhase e)
                      cursor requestLen replyStart replyLen in
      copy_entries (S index) (wrap 32 (replyStart + replyLen)) rest (<[index := record]> records) bytes
  end.

Definition aa23Copy (entries : list AA23PlanEntry) (s : aa23Slot) : aa23Slot :=
  let (records, bytes) := copy_entries 0 0 entries (aa23Entries s) (aa23Bytes s) in
  mkSlot (aa23State s) (aa23Incarnation s) (aa23Identity s) (aa23Validity s) (aa23Reason s) (aa23Pinned s)
    (wrap 32 (len entries)) records bytes.

(** ** What a slot's records say *)

(** The request and the reply an entry record points to. *)
Definition record_request (s : aa23Slot) (r : aa23EntryRecord) : list byte :=
  take (Z.to_nat (aa23RequestLen r)) (drop (Z.to_nat (aa23RequestStart r)) (aa23Bytes s)).
Definition record_reply (s : aa23Slot) (r : aa23EntryRecord) : list byte :=
  take (Z.to_nat (aa23ReplyLen r)) (drop (Z.to_nat (aa23ReplyStart r)) (aa23Bytes s)).

(** A record that stands for an entry. *)
Definition records_entry (s : aa23Slot) (r : aa23EntryRecord) (e : AA23PlanEntry) : Prop :=
  aa23SourceAny r = AA23Any (eSource e) /\ aa23Source r = sSource (eSource e) /\ aa23PB r = AA23PB e /\ aa23SB r = AA23SB e /\
  aa23Phase r = AA23AllowedPhase e /\ aa23RequestLen r = len (AA23Request e) /\ aa23ReplyLen r = len (AA23EncodedResponse e) /\
  0 <= aa23RequestStart r /\ 0 <= aa23ReplyStart r /\
  record_request s r = AA23Request e /\ record_reply s r = AA23EncodedResponse e.

Definition holds_entries (s : aa23Slot) (entries : list AA23PlanEntry) : Prop :=
  aa23EntryCount s = len entries /\
  forall i e, entries !! i = Some e -> exists r, aa23Entries s !! i = Some r /\ records_entry s r e.

Fixpoint plan_bytes (entries : list AA23PlanEntry) : Z :=
  match entries with
  | [] => 0
  | e :: rest => len (AA23Request e) + len (AA23EncodedResponse e) + plan_bytes rest
  end.

Lemma plan_bytes_nonneg entries : 0 <= plan_bytes entries.
Proof. induction entries as [|e entries IH]; cbn; [lia|]. pose proof (len_nonneg (AA23Request e)). pose proof (len_nonneg (AA23EncodedResponse e)). lia. Qed.

Lemma copy_at_ok dst cursor src :
  0 <= cursor -> cursor + len src <= len dst ->
  (copy_at dst cursor src).2 = len src /\ len (copy_at dst cursor src).1 = len dst /\
  take (Z.to_nat (cursor + len src)) (copy_at dst cursor src).1 = take (Z.to_nat cursor) dst ++ src.
Proof.
  intros Hc Hl. unfold copy_at. pose proof (len_nonneg src). cbv zeta. rewrite Z.min_r by lia. cbn [fst snd].
  assert (take (Z.to_nat (len src)) src = src) as -> by (apply take_ge; unfold len; lia).
  split; [done|]. split.
  - rewrite !len_app. unfold len in *. rewrite length_take, length_drop. lia.
  - rewrite app_assoc. apply take_app_length'. rewrite length_app, length_take. unfold len in *. lia.
Qed.

(** What is below the cursor stays. *)
Lemma take_copy_at dst cursor src k :
  0 <= cursor -> cursor + len src <= len dst -> 0 <= k <= cursor ->
  take (Z.to_nat k) (copy_at dst cursor src).1 = take (Z.to_nat k) dst.
Proof.
  intros Hc Hl Hk. pose proof (len_nonneg src) as Hsrc. destruct (copy_at_ok dst cursor src Hc Hl) as (_ & _ & E).
  apply (f_equal (take (Z.to_nat k))) in E. rewrite take_take, take_app_le in E by (rewrite length_take; unfold len in *; lia).
  rewrite take_take in E. rewrite !Nat.min_l in E by lia. exact E.
Qed.

(** A window below the cursor reads the same in texts that agree up to it. *)
Lemma window_stable (a b : list byte) k start n :
  take (Z.to_nat k) a = take (Z.to_nat k) b -> 0 <= start -> 0 <= n -> start + n <= k ->
  take (Z.to_nat n) (drop (Z.to_nat start) a) = take (Z.to_nat n) (drop (Z.to_nat start) b).
Proof.
  intros E Hs Hn Hk. rewrite !take_drop_commute.
  assert (forall c : list byte, take (Z.to_nat start + Z.to_nat n) c = take (Z.to_nat start + Z.to_nat n) (take (Z.to_nat k) c)) as T.
  { intros c. by rewrite take_take, Nat.min_l by lia. }
  by rewrite (T a), (T b), E.
Qed.

Lemma drop_after (a x : list byte) k : k = length a -> drop k (a ++ x) = x.
Proof. intros ->. apply drop_app_length. Qed.

(** A window that was just copied. *)
Lemma window_copied dst cursor src :
  0 <= cursor -> cursor + len src <= len dst ->
  take (Z.to_nat (len src)) (drop (Z.to_nat cursor) (copy_at dst cursor src).1) = src.
Proof.
  intros Hc Hl. destruct (copy_at_ok dst cursor src Hc Hl) as (_ & _ & E). pose proof (len_nonneg src).
  rewrite take_drop_commute, <- Z2Nat.inj_add, E by lia. apply drop_after. rewrite length_take. unfold len in *. lia.
Qed.

(** [copy_entries] writes one record per entry from [index] on, and bytes from
    [cursor] on; what was there below both stays. *)
Lemma copy_entries_ok index cursor entries records bytes :
  0 <= cursor -> cursor + plan_bytes entries <= len bytes -> len bytes < 2 ^ 32 ->
  (index + length entries <= length records)%nat ->
  let '(records', bytes') := copy_entries index cursor entries records bytes in
  length records' = length records /\ len bytes' = len bytes /\
  (forall k, (k < index)%nat -> records' !! k = records !! k) /\
  take (Z.to_nat cursor) bytes' = take (Z.to_nat cursor) bytes /\
  forall k e s, entries !! k = Some e -> aa23Bytes s = bytes' ->
    exists r, records' !! (index + k)%nat = Some r /\ records_entry s r e.
Proof.
  revert index cursor records bytes. induction entries as [|e entries IH]; intros index cursor records bytes Hc Hb Hw Hr; [done|].
  cbn [copy_entries plan_bytes length] in *. pose proof (plan_bytes_nonneg entries) as Hp.
  pose proof (len_nonneg (AA23Request e)) as Hq. pose proof (len_nonneg (AA23EncodedResponse e)) as Ha.
  destruct (copy_at_ok bytes cursor (AA23Request e) Hc ltac:(lia)) as (En & El & Et).
  pose proof (window_copied bytes cursor (AA23Request e) Hc ltac:(lia)) as Wq.
  destruct (copy_at bytes cursor (AA23Request e)) as [bytes1 n] eqn:Ec1. cbn [fst snd] in *. subst n. cbv zeta.
  rewrite (wrap_small 32 (len (AA23Request e))), (wrap_small 32 (cursor + _)) by lia.
  set (start := cursor + len (AA23Request e)) in *.
  destruct (copy_at_ok bytes1 start (AA23EncodedResponse e) ltac:(lia) ltac:(lia)) as (Em & El2 & Et2).
  pose proof (window_copied bytes1 start (AA23EncodedResponse e) ltac:(lia) ltac:(lia)) as Wa.
  pose proof (take_copy_at bytes1 start (AA23EncodedResponse e) start ltac:(lia) ltac:(lia) ltac:(lia)) as Tq.
  destruct (copy_at bytes1 start (AA23EncodedResponse e)) as [bytes2 m] eqn:Ec2. cbn [fst snd] in *. subst m.
  rewrite (wrap_small 32 (len (AA23EncodedResponse e))), (wrap_small 32 (start + _)) by lia.
  set (record := mkEntryRecord _ _ _ _ _ _ _ _ _). set (next := start + len (AA23EncodedResponse e)) in *.
  specialize (IH (S index) next (<[index:=record]> records) bytes2 ltac:(lia) ltac:(lia) ltac:(lia)
    ltac:(rewrite length_insert; lia)).
  destruct (copy_entries (S index) next entries _ bytes2) as [records' bytes'].
  destruct IH as (L1 & L2 & Hk & Ht & He). rewrite length_insert in L1.
  assert (take (Z.to_nat cursor) bytes' = take (Z.to_nat cursor) bytes) as Tc.
  { assert (forall a b : list byte, take (Z.to_nat next) a = take (Z.to_nat next) b -> take (Z.to_nat cursor) a = take (Z.to_nat cursor) b) as T.
    { intros a b E. apply (f_equal (take (Z.to_nat cursor))) in E. rewrite !take_take, !Nat.min_l in E by lia. exact E. }
    rewrite (T _ _ Ht). apply (f_equal (take (Z.to_nat cursor))) in Tq. rewrite !take_take, !Nat.min_l in Tq by lia. rewrite Tq.
    pose proof (take_copy_at bytes cursor (AA23Request e) cursor Hc ltac:(lia) ltac:(lia)) as T1. by rewrite Ec1 in T1. }
  split; [done|]. split; [lia|]. split; [intros k Hki; rewrite Hk by lia; by rewrite list_lookup_insert_ne by lia|].
  split; [exact Tc|]. intros [|k] e' s Hke Hs.
  - injection Hke as <-. exists record. split.
    + rewrite Nat.add_0_r, Hk, list_lookup_insert_eq by lia. done.
    + unfold records_entry, record_request, record_reply. cbn [record aa23SourceAny aa23Source aa23PB aa23SB aa23Phase aa23RequestLen aa23ReplyLen aa23RequestStart aa23ReplyStart].
      rewrite Hs. repeat (split; [lia || done|]). split.
      * rewrite (window_stable bytes' bytes2 next), (window_stable bytes2 bytes1 start) by (done || lia). exact Wq.
      * rewrite (window_stable bytes' bytes2 next) by (done || lia). exact Wa.
  - destruct (He k e' s Hke Hs) as (r & Hr' & Hre). exists r. split; [|done]. by rewrite <- Hr', Nat.add_succ_comm.
Qed.

(** A slot of the configured size holds what was copied into it. *)
Lemma copy_holds entries s :
  plan_bytes entries <= len (aa23Bytes s) -> len (aa23Bytes s) < 2 ^ 32 -> (length entries <= length (aa23Entries s))%nat ->
  len entries < 2 ^ 32 ->
  holds_entries (aa23Copy entries s) entries /\ length (aa23Entries (aa23Copy entries s)) = length (aa23Entries s) /\
  len (aa23Bytes (aa23Copy entries s)) = len (aa23Bytes s).
Proof.
  intros Hb Hw Hl Hn. unfold aa23Copy. pose proof (copy_entries_ok 0 0 entries (aa23Entries s) (aa23Bytes s) ltac:(lia) Hb Hw Hl) as H.
  destruct (copy_entries 0 0 entries _ _) as [records bytes]. destruct H as (L1 & L2 & _ & _ & He). split; [|by split].
  split; [apply wrap_small; pose proof (len_nonneg entries); cbn; lia|]. intros i e Hi. by apply (He i e).
Qed.
