(* ===== verification/PlanRegistry.v ===== *)
(** src/localworker/aa23_plans.go, the host: the registry of subscribers,
    registrations, initiator identities and conflicts, and the publisher of
    plans.  A pointer to a record or slot is its index; the tables have the
    sizes of the limits, and the index scratch of the overlap test is left out. *)

From S2P Require Import Prelude Errors PlanTypes PlanOverlap PlanPool.
#[local] Open Scope list_scope.
#[local] Open Scope Z_scope.

Record aa23RegistrationRecord := mkRecord {
  rUsed : bool; rState : AA23RegistrationState; rRegistered : AA23Registration; rLeaseExpiry : Z; rSource : Z;
  rSourceLease : Z; rPublished : Z; rPublishTop : Z }.

Definition zero_registration : AA23Registration :=
  mkRegistration zero_key 0 0 0 (mkPolicy AA23FailureUnspecified AA23FailureUnspecified AA23FailureUnspecified).
Definition zero_regrecord : aa23RegistrationRecord := mkRecord false AA23RegistrationAbsent zero_registration 0 0 0 0 0.

Record aa23SubscriberRecord := mkSubscriber { aa23ID : Z; aa23Open : bool; aa23EpochHigh : Z; aa23Registrations : Z }.

Definition zero_subscriber : aa23SubscriberRecord := mkSubscriber 0 false 0 0.

#[export] Instance regrecord_inhabited : Inhabited aa23RegistrationRecord := populate zero_regrecord.
#[export] Instance subscriber_inhabited : Inhabited aa23SubscriberRecord := populate zero_subscriber.

Record AA23Registry := mkRegistry {
  aa23Limits : AA23Limits; aa23Pool : AA23Pool; aa23Clock : aa23ClockGuard; aa23SubscriberTop : Z;
  aa23Subscribers : list aa23SubscriberRecord; aa23Records : list aa23RegistrationRecord;
  aa23ByAddress : byte -> Z; aa23Masters : byte -> Z; aa23MasterCount : Z; aa23Conflicts : byte -> bool;
  aa23WorkerBound : bool; aa23Worker : Z; aa23Stream : Z; aa23WorkerTop : Z; aa23PlanTop : Z }.

(** Assignments to the fields. *)
Definition set_pool (v : AA23Pool) (r : AA23Registry) : AA23Registry :=
  mkRegistry (aa23Limits r) v (aa23Clock r) (aa23SubscriberTop r) (aa23Subscribers r) (aa23Records r) (aa23ByAddress r) (aa23Masters r)
    (aa23MasterCount r) (aa23Conflicts r) (aa23WorkerBound r) (aa23Worker r) (aa23Stream r) (aa23WorkerTop r) (aa23PlanTop r).
Definition set_clock (v : aa23ClockGuard) (r : AA23Registry) : AA23Registry :=
  mkRegistry (aa23Limits r) (aa23Pool r) v (aa23SubscriberTop r) (aa23Subscribers r) (aa23Records r) (aa23ByAddress r) (aa23Masters r)
    (aa23MasterCount r) (aa23Conflicts r) (aa23WorkerBound r) (aa23Worker r) (aa23Stream r) (aa23WorkerTop r) (aa23PlanTop r).
Definition set_subscribers (top : Z) (v : list aa23SubscriberRecord) (r : AA23Registry) : AA23Registry :=
  mkRegistry (aa23Limits r) (aa23Pool r) (aa23Clock r) top v (aa23Records r) (aa23ByAddress r) (aa23Masters r)
    (aa23MasterCount r) (aa23Conflicts r) (aa23WorkerBound r) (aa23Worker r) (aa23Stream r) (aa23WorkerTop r) (aa23PlanTop r).
Definition set_records (v : list aa23RegistrationRecord) (r : AA23Registry) : AA23Registry :=
  mkRegistry (aa23Limits r) (aa23Pool r) (aa23Clock r) (aa23SubscriberTop r) (aa23Subscribers r) v (aa23ByAddress r) (aa23Masters r)
    (aa23MasterCount r) (aa23Conflicts r) (aa23WorkerBound r) (aa23Worker r) (aa23Stream r) (aa23WorkerTop r) (aa23PlanTop r).
Definition set_by_address (v : byte -> Z) (r : AA23Registry) : AA23Registry :=
  mkRegistry (aa23Limits r) (aa23Pool r) (aa23Clock r) (aa23SubscriberTop r) (aa23Subscribers r) (aa23Records r) v (aa23Masters r)
    (aa23MasterCount r) (aa23Conflicts r) (aa23WorkerBound r) (aa23Worker r) (aa23Stream r) (aa23WorkerTop r) (aa23PlanTop r).
Definition set_masters (v : byte -> Z) (count : Z) (r : AA23Registry) : AA23Registry :=
  mkRegistry (aa23Limits r) (aa23Pool r) (aa23Clock r) (aa23SubscriberTop r) (aa23Subscribers r) (aa23Records r) (aa23ByAddress r) v
    count (aa23Conflicts r) (aa23WorkerBound r) (aa23Worker r) (aa23Stream r) (aa23WorkerTop r) (aa23PlanTop r).
Definition set_conflicts (v : byte -> bool) (r : AA23Registry) : AA23Registry :=
  mkRegistry (aa23Limits r) (aa23Pool r) (aa23Clock r) (aa23SubscriberTop r) (aa23Subscribers r) (aa23Records r) (aa23ByAddress r) (aa23Masters r)
    (aa23MasterCount r) v (aa23WorkerBound r) (aa23Worker r) (aa23Stream r) (aa23WorkerTop r) (aa23PlanTop r).
Definition set_worker (bound : bool) (worker stream top : Z) (r : AA23Registry) : AA23Registry :=
  mkRegistry (aa23Limits r) (aa23Pool r) (aa23Clock r) (aa23SubscriberTop r) (aa23Subscribers r) (aa23Records r) (aa23ByAddress r) (aa23Masters r)
    (aa23MasterCount r) (aa23Conflicts r) bound worker stream top (aa23PlanTop r).
Definition set_plan_top (v : Z) (r : AA23Registry) : AA23Registry :=
  mkRegistry (aa23Limits r) (aa23Pool r) (aa23Clock r) (aa23SubscriberTop r) (aa23Subscribers r) (aa23Records r) (aa23ByAddress r) (aa23Masters r)
    (aa23MasterCount r) (aa23Conflicts r) (aa23WorkerBound r) (aa23Worker r) (aa23Stream r) (aa23WorkerTop r) v.

Definition AA23NewRegistry (limits : AA23Limits) (subscriberFloor : Z) : result aa23_error AA23Registry :=
  match limits_validate limits with
  | Some err => Err err
  | None =>
      Ok (mkRegistry limits (aa23NewPool limits) new_guard subscriberFloor
            (replicate (Z.to_nat (AA23MaxSubscribers limits)) zero_subscriber)
            (replicate (Z.to_nat (AA23MaxRegistrations limits)) zero_regrecord)
            (fun _ => 0) (fun _ => 0) 0 (fun _ => false) false 0 0 0 0)
  end.

(** ** Finding and retiring *)

Definition aa23FindExact (key : AA23RegistrationKey) (r : AA23Registry) : option nat :=
  let index := aa23ByAddress r (AA23Address key) in
  if index =? 0 then None
  else
    let i := Z.to_nat (index - 1) in
    if negb (key_matches (AA23Key (rRegistered (aa23Records r !!! i))) key) then None else Some i.

Definition aa23FindSubscriber (id : Z) (r : AA23Registry) : option nat :=
  if id =? 0 then None else find_index (fun s => aa23ID s =? id) (aa23Subscribers r).

Definition with_published (v : Z) (rec : aa23RegistrationRecord) : aa23RegistrationRecord :=
  mkRecord (rUsed rec) (rState rec) (rRegistered rec) (rLeaseExpiry rec) (rSource rec) (rSourceLease rec) v (rPublishTop rec).

Definition aa23RetireSlot (i : nat) (reason : AA23RetireReason) (r : AA23Registry) : AA23Registry :=
  match aa23Pool r !! i with
  | None => r
  | Some current =>
      match aa23State current with
      | AA23SlotWriting => set_pool (<[i := release_or_retire current]> (aa23Pool r)) r
      | AA23SlotPublished =>
          let r := set_pool (<[i := with_reason reason (with_state AA23SlotRetained current)]> (aa23Pool r)) r in
          match aa23FindExact (AA23Registration_ (aa23Identity current)) r with
          | None => r
          | Some k => set_records (alter (with_published (-1)) k (aa23Records r)) r
          end
      | AA23SlotRetained =>
          if reason_rank (aa23Reason current) <? reason_rank reason
          then set_pool (<[i := with_reason reason current]> (aa23Pool r)) r else r
      | _ => r
      end
  end.

Definition retire_one (reason : AA23RetireReason) (selected : aa23Slot -> bool) (r : AA23Registry) (i : nat) : AA23Registry :=
  match aa23Pool r !! i with
  | None => r
  | Some current =>
      if bool_decide (aa23State current = AA23SlotFree) || bool_decide (aa23State current = AA23SlotReclaimable) then r
      else if selected current then aa23RetireSlot i reason r else r
  end.

Definition aa23RetireWhere (reason : AA23RetireReason) (selected : aa23Slot -> bool) (r : AA23Registry) : AA23Registry :=
  foldl (retire_one reason selected) r (seq 0 (length (aa23Pool r))).

Definition aa23ObserveClock (now : AA23ClockReading) (r : AA23Registry) : AA23Registry * option aa23_error :=
  let wasClosed := aa23Closed (aa23Clock r) in
  let (clock, err) := aa23Observe now (aa23Clock r) in
  let r := set_clock clock r in
  (if bool_decide (is_Some err) && negb wasClosed then aa23RetireWhere AA23RetireRevoked (fun _ => true) r else r, err).

(** ** Subscribers and registrations *)

Definition AA23OpenSubscriber (r : AA23Registry) : AA23Registry * result aa23_error Z :=
  if aa23SubscriberTop r =? MaxUint64 then (r, Err ErrAA23CounterExhausted)
  else
    match find_index (fun s => aa23ID s =? 0) (aa23Subscribers r) with
    | None => (r, Err ErrAA23Capacity)
    | Some i =>
        let top := wrap 64 (aa23SubscriberTop r + 1) in
        (set_subscribers top (<[i := mkSubscriber top true 0 0]> (aa23Subscribers r)) r, Ok top)
    end.

Definition aa23CheckLease (expiry : Z) (now : AA23ClockReading) (r : AA23Registry) : option aa23_error :=
  if expiry <=? AA23Tick now then Some ErrAA23Expired
  else if AA23MaxLeaseTicks (aa23Limits r) <? wrap 64 (expiry - AA23Tick now) then Some ErrAA23LeaseTooLong
  else None.

Definition record_view (rec : aa23RegistrationRecord) : AA23RegistrationView :=
  mkRegView (rRegistered rec) (rState rec) (rLeaseExpiry rec) (rSource rec) (rSourceLease rec).

(** The checks of [AA23Register] on an address nobody holds. *)
Definition register_checks (c : AA23Registration) (now : AA23ClockReading) (r : AA23Registry) : result aa23_error nat :=
  let key := AA23Key c in
  match aa23FindSubscriber (AA23Subscriber key) r with
  | None => Err ErrAA23UnknownSubscriber
  | Some s =>
      let sub := aa23Subscribers r !!! s in
      if negb (aa23Open sub) then Err ErrAA23UnknownSubscriber
      else if aa23Conflicts r (AA23Address key) then Err ErrAA23PhysicalConflict
      else if aa23EpochHigh sub =? MaxUint64 then Err ErrAA23CounterExhausted
      else if AA23Epoch key <=? aa23EpochHigh sub then Err ErrAA23StaleEpoch
      else
        match policy_validate (AA23Failure c) with
        | Some err => Err err
        | None =>
            match aa23CheckLease (AA23LeaseExpiry c) now r with
            | Some err => Err err
            | None => match aa23CheckLease (AA23SourceLeaseExpiry c) now r with Some err => Err err | None => Ok s end
            end
        end
  end.

Definition AA23Register (c : AA23Registration) (now : AA23ClockReading) (r : AA23Registry)
    : AA23Registry * result aa23_error AA23RegistrationView :=
  match aa23ObserveClock now r with
  | (r, Some err) => (r, Err err)
  | (r, None) =>
      let key := AA23Key c in
      if (AA23Subscriber key =? 0) || (AA23Epoch key =? 0) || (AA23Source c =? 0) then (r, Err ErrAA23InvalidIdentity)
      else if negb (aa23IsTargetAddress (AA23Address key)) then (r, Err ErrAA23InvalidAddress)
      else
        let occupant := aa23ByAddress r (AA23Address key) in
        if negb (occupant =? 0) then
          let rec := aa23Records r !!! Z.to_nat (occupant - 1) in
          if negb (key_matches (AA23Key (rRegistered rec)) key) then (r, Err ErrAA23DuplicateAddress)
          else if negb (bool_decide (rRegistered rec = c)) then (r, Err ErrAA23RegistrationConflict)
          else if negb (bool_decide (rState rec = AA23RegistrationActive)) then (r, Err ErrAA23RegistrationRetiring)
          else (r, Ok (record_view rec))
        else
          match register_checks c now r with
          | Err err => (r, Err err)
          | Ok s =>
              match find_index (fun rec => negb (rUsed rec)) (aa23Records r) with
              | None => (r, Err ErrAA23Capacity)
              | Some i =>
                  let rec := mkRecord true AA23RegistrationActive c (AA23LeaseExpiry c) (AA23Source c) (AA23SourceLeaseExpiry c) (-1) 0 in
                  let r := set_records (<[i := rec]> (aa23Records r)) r in
                  let r := set_by_address (upd (aa23ByAddress r) (AA23Address key) (Z.of_nat i + 1)) r in
                  let sub := aa23Subscribers r !!! s in
                  let sub := mkSubscriber (aa23ID sub) (aa23Open sub) (AA23Epoch key) (wrap 32 (aa23Registrations sub + 1)) in
                  (set_subscribers (aa23SubscriberTop r) (<[s := sub]> (aa23Subscribers r)) r, Ok (record_view rec))
              end
          end
  end.

Definition AA23Registration (key : AA23RegistrationKey) (r : AA23Registry) : AA23RegistrationView :=
  match aa23FindExact key r with
  | None => record_view zero_regrecord
  | Some k => record_view (aa23Records r !!! k)
  end.

(** Whether some published or retained plan still names the key. *)
Definition referenced (key : AA23RegistrationKey) (pool : AA23Pool) : bool :=
  existsb (fun s => (bool_decide (aa23State s = AA23SlotPublished) || bool_decide (aa23State s = AA23SlotRetained)) &&
                    key_matches (AA23Registration_ (aa23Identity s)) key) pool.

Definition aa23ForgetClosedSubscriber (s : nat) (r : AA23Registry) : AA23Registry :=
  let sub := aa23Subscribers r !!! s in
  if aa23Open sub || negb (aa23Registrations sub =? 0) then r
  else set_subscribers (aa23SubscriberTop r) (<[s := zero_subscriber]> (aa23Subscribers r)) r.

Definition one_less (sub : aa23SubscriberRecord) : aa23SubscriberRecord :=
  mkSubscriber (aa23ID sub) (aa23Open sub) (aa23EpochHigh sub) (wrap 32 (aa23Registrations sub - 1)).

Definition aa23Settle (key : AA23RegistrationKey) (r : AA23Registry) : AA23Registry :=
  match aa23FindExact key r with
  | None => r
  | Some k =>
      if negb (bool_decide (rState (aa23Records r !!! k) = AA23RegistrationRetiring)) then r
      else if referenced key (aa23Pool r) then r
      else
        let r := set_by_address (upd (aa23ByAddress r) (AA23Address key) 0) r in
        let r := set_records (<[k := zero_regrecord]> (aa23Records r)) r in
        match aa23FindSubscriber (AA23Subscriber key) r with
        | None => r
        | Some s =>
            let r := set_subscribers (aa23SubscriberTop r) (alter one_less s (aa23Subscribers r)) r in
            aa23ForgetClosedSubscriber s r
        end
  end.

Definition with_rstate (st : AA23RegistrationState) (rec : aa23RegistrationRecord) : aa23RegistrationRecord :=
  mkRecord (rUsed rec) st (rRegistered rec) (rLeaseExpiry rec) (rSource rec) (rSourceLease rec) (rPublished rec) (rPublishTop rec).

Definition of_key (key : AA23RegistrationKey) (s : aa23Slot) : bool := key_matches (AA23Registration_ (aa23Identity s)) key.

Definition aa23Retire (k : nat) (reason : AA23RetireReason) (r : AA23Registry) : AA23Registry :=
  let key := AA23Key (rRegistered (aa23Records r !!! k)) in
  let r := set_records (alter (with_rstate AA23RegistrationRetiring) k (aa23Records r)) r in
  let r := aa23RetireWhere reason (of_key key) r in
  aa23Settle key r.

Definition AA23Unregister (key : AA23RegistrationKey) (r : AA23Registry) : AA23Registry * AA23RegistrationState :=
  match aa23FindExact key r with
  | None => (r, AA23RegistrationAbsent)
  | Some k =>
      let r := if bool_decide (rState (aa23Records r !!! k) = AA23RegistrationActive) then aa23Retire k AA23RetireRevoked r else r in
      (r, AA23State (AA23Registration key r))
  end.

(** The loops that retire the records a test selects, in the order of the table. *)
Definition retire_record (reason : AA23RetireReason) (selected : aa23RegistrationRecord -> bool) (r : AA23Registry) (k : nat) : AA23Registry :=
  let rec := aa23Records r !!! k in
  if rUsed rec && bool_decide (rState rec = AA23RegistrationActive) && selected rec then aa23Retire k reason r else r.

Definition retire_records (reason : AA23RetireReason) (selected : aa23RegistrationRecord -> bool) (r : AA23Registry) : AA23Registry :=
  foldl (retire_record reason selected) r (seq 0 (length (aa23Records r))).

(** ** Initiator identities and conflicts *)

Definition released_master (id : Z) (masters : byte -> Z) (a : byte) : bool :=
  negb (masters a =? 0) && ((id =? 0) || (masters a =? id)).

Definition aa23ReleaseMastersWhere (id : Z) (r : AA23Registry) : AA23Registry :=
  foldl (fun r a => if released_master id (aa23Masters r) a
                    then set_masters (upd (aa23Masters r) a 0) (wrap 32 (aa23MasterCount r - 1)) r else r) r all_bytes.

Definition AA23DisconnectSubscriber (id : Z) (r : AA23Registry) : AA23Registry :=
  match aa23FindSubscriber id r with
  | None => r
  | Some s =>
      let close sub := mkSubscriber (aa23ID sub) false (aa23EpochHigh sub) (aa23Registrations sub) in
      let r := set_subscribers (aa23SubscriberTop r) (alter close s (aa23Subscribers r)) r in
      let r := aa23ReleaseMastersWhere id r in
      let r := retire_records AA23RetireRevoked (fun rec => AA23Subscriber (AA23Key (rRegistered rec)) =? id) r in
      match aa23FindSubscriber id r with None => r | Some s => aa23ForgetClosedSubscriber s r end
  end.

Definition AA23Reset (r : AA23Registry) : AA23Registry :=
  retire_records AA23RetireRevoked (fun _ => true) (aa23ReleaseMastersWhere 0 r).

Definition is_open (id : Z) (r : AA23Registry) : bool :=
  match aa23FindSubscriber id r with None => false | Some s => aa23Open (aa23Subscribers r !!! s) end.

Definition AA23BindMaster (id : Z) (a : byte) (r : AA23Registry) : AA23Registry * option aa23_error :=
  if negb (is_open id r) then (r, Some ErrAA23UnknownSubscriber)
  else if negb (aa23IsInitiatorAddress a) then (r, Some ErrAA23InvalidAddress)
  else if aa23Conflicts r a then (r, Some ErrAA23PhysicalConflict)
  else if aa23Masters r a =? id then (r, None)
  else if negb (aa23Masters r a =? 0) then (r, Some ErrAA23MasterConflict)
  else if AA23MaxMasters (aa23Limits r) <=? aa23MasterCount r then (r, Some ErrAA23Capacity)
  else (set_masters (upd (aa23Masters r) a id) (wrap 32 (aa23MasterCount r + 1)) r, None).

Definition AA23ReleaseMaster (id : Z) (a : byte) (r : AA23Registry) : AA23Registry :=
  if negb (id =? 0) && (aa23Masters r a =? id)
  then set_masters (upd (aa23Masters r) a 0) (wrap 32 (aa23MasterCount r - 1)) r else r.

Definition AA23MasterOwner (a : byte) (r : AA23Registry) : Z := aa23Masters r a.

Definition at_address (a : byte) (s : aa23Slot) : bool := AA23Address (AA23Registration_ (aa23Identity s)) =b a.

Definition AA23MarkPhysicalConflict (a : byte) (r : AA23Registry) : AA23Registry :=
  aa23RetireWhere AA23RetireRevoked (at_address a) (set_conflicts (upd (aa23Conflicts r) a true) r).

Definition AA23ClearPhysicalConflict (a : byte) (r : AA23Registry) : AA23Registry :=
  set_conflicts (upd (aa23Conflicts r) a false) r.

Definition AA23PhysicalConflict (a : byte) (r : AA23Registry) : bool := aa23Conflicts r a.

(** ** Leases and sources *)

(** The record of an active registration. *)
Definition find_active (key : AA23RegistrationKey) (r : AA23Registry) : option nat :=
  match aa23FindExact key r with
  | None => None
  | Some k => if bool_decide (rState (aa23Records r !!! k) = AA23RegistrationActive) then Some k else None
  end.

Definition with_lease (v : Z) (rec : aa23RegistrationRecord) : aa23RegistrationRecord :=
  mkRecord (rUsed rec) (rState rec) (rRegistered rec) v (rSource rec) (rSourceLease rec) (rPublished rec) (rPublishTop rec).
Definition with_source (source lease : Z) (rec : aa23RegistrationRecord) : aa23RegistrationRecord :=
  mkRecord (rUsed rec) (rState rec) (rRegistered rec) (rLeaseExpiry rec) source lease (rPublished rec) (rPublishTop rec).

Definition AA23RenewRegistration (key : AA23RegistrationKey) (expiry : Z) (now : AA23ClockReading) (r : AA23Registry)
    : AA23Registry * option aa23_error :=
  match aa23ObserveClock now r with
  | (r, Some err) => (r, Some err)
  | (r, None) =>
      match find_active key r with
      | None => (r, Some ErrAA23NotRegistered)
      | Some k =>
          let rec := aa23Records r !!! k in
          if rLeaseExpiry rec <=? AA23Tick now then (r, Some ErrAA23Expired)
          else if expiry <? rLeaseExpiry rec then (r, Some ErrAA23StaleGeneration)
          else match aa23CheckLease expiry now r with
               | Some err => (r, Some err)
               | None => (set_records (alter (with_lease expiry) k (aa23Records r)) r, None)
               end
      end
  end.

Definition AA23AdvanceSource (key : AA23RegistrationKey) (source expiry : Z) (now : AA23ClockReading) (r : AA23Registry)
    : AA23Registry * option aa23_error :=
  match aa23ObserveClock now r with
  | (r, Some err) => (r, Some err)
  | (r, None) =>
      match find_active key r with
      | None => (r, Some ErrAA23NotRegistered)
      | Some k =>
          let rec := aa23Records r !!! k in
          if source <=? rSource rec then (r, Some ErrAA23StaleGeneration)
          else match aa23CheckLease expiry now r with
               | Some err => (r, Some err)
               | None =>
                   let r := set_records (alter (with_source source expiry) k (aa23Records r)) r in
                   (aa23RetireWhere AA23RetireRevoked (of_key key) r, None)
               end
      end
  end.

Definition overdue (now : AA23ClockReading) (s : aa23Slot) : bool :=
  bool_decide (aa23State s = AA23SlotPublished) && bool_decide (is_Some (validity_check (aa23Validity s) now)).

Definition AA23ExpireDue (now : AA23ClockReading) (r : AA23Registry) : AA23Registry * option aa23_error :=
  match aa23ObserveClock now r with
  | (r, Some err) => (r, Some err)
  | (r, None) =>
      let r := aa23RetireWhere AA23RetireExpired (overdue now) r in
      (retire_records AA23RetireExpired (fun rec => rLeaseExpiry rec <=? AA23Tick now) r, None)
  end.

(** ** Workers *)

Definition with_publish_top (v : Z) (rec : aa23RegistrationRecord) : aa23RegistrationRecord :=
  mkRecord (rUsed rec) (rState rec) (rRegistered rec) (rLeaseExpiry rec) (rSource rec) (rSourceLease rec) (rPublished rec) v.

Definition AA23BindWorker (worker stream : Z) (r : AA23Registry) : AA23Registry * option aa23_error :=
  if (worker =? 0) || (stream =? 0) then (r, Some ErrAA23InvalidIdentity)
  else
    let newWorker := aa23WorkerTop r <? worker in
    let newStream := (worker =? aa23WorkerTop r) && aa23WorkerBound r && (aa23Stream r <? stream) in
    if negb newWorker && negb newStream then (r, Some ErrAA23StaleGeneration)
    else
      let r := aa23RetireWhere AA23RetireRevoked (fun _ => true) r in
      let r := if newWorker then set_plan_top 0 (set_records (with_publish_top 0 <$> aa23Records r) r) else r in
      (set_worker true worker stream worker r, None).

Definition is_writing (s : aa23Slot) : bool := bool_decide (aa23State s = AA23SlotWriting).

Definition terminate_one (worker : Z) (r : AA23Registry) (i : nat) : AA23Registry :=
  match aa23Pool r !! i with
  | None => r
  | Some current =>
      if negb (bool_decide (aa23State current = AA23SlotPublished) || bool_decide (aa23State current = AA23SlotRetained)) then r
      else if negb (AA23Worker (aa23Identity current) =? worker) then r
      else
        let r := aa23RetireSlot i AA23RetireRevoked r in
        let r := set_pool (alter (fun s => with_state AA23SlotReclaimable (with_pinned false s)) i (aa23Pool r)) r in
        aa23Settle (AA23Registration_ (aa23Identity current)) r
  end.

Definition AA23ObserveWorkerTerminated (worker : Z) (r : AA23Registry) : AA23Registry * option aa23_error :=
  if (worker =? 0) || (aa23WorkerTop r <? worker) then (r, Some ErrAA23InvalidIdentity)
  else
    let r :=
      if aa23WorkerBound r && (aa23Worker r =? worker)
      then aa23RetireWhere AA23RetireRevoked is_writing (set_worker false (aa23Worker r) (aa23Stream r) (aa23WorkerTop r) r)
      else r in
    (foldl (terminate_one worker) r (seq 0 (length (aa23Pool r))), None).

(** ** Candidates *)

Definition aa23ValidateEntry (e : AA23PlanEntry) (a : byte) (l : AA23Limits) : option aa23_error :=
  if negb (bool_decide (AA23Operation_ e = AA23OperationRead)) then Some ErrAA23Unsupported
  else if negb (bool_decide (AA23AllowedPhase e = AA23PhaseResponse)) then Some ErrAA23Unsupported
  else if negb (AA23Destination e =b a) then Some ErrAA23InvalidPlan
  else if (if AA23Any (eSource e) then negb (sSource (eSource e) =b x00) else negb (aa23IsInitiatorAddress (sSource (eSource e))))
  then Some ErrAA23InvalidPlan
  else if negb (AA23RequestLength e =? len (AA23Request e)) then Some ErrAA23InvalidPlan
  else if AA23MaxRequestBytes l <? len (AA23Request e) then Some ErrAA23Oversize
  else if AA23MaxEncodedBytes e =? 0 then Some ErrAA23InvalidPlan
  else if (AA23MaxEncodedResponseBytes l <? AA23MaxEncodedBytes e) || (AA23MaxEncodedBytes e <? len (AA23EncodedResponse e))
  then Some ErrAA23Oversize
  else aa23ValidateEncodedResponse (AA23EncodedResponse e).

Fixpoint validate_entries (entries : list AA23PlanEntry) (a : byte) (total : Z) (l : AA23Limits) : option aa23_error :=
  match entries with
  | [] => None
  | e :: rest =>
      match aa23ValidateEntry e a l with
      | Some err => Some err
      | None =>
          let total := wrap 64 (total + wrap 64 (len (AA23Request e) + len (AA23EncodedResponse e))) in
          if AA23MaxPlanBytes l <? total then Some ErrAA23Oversize else validate_entries rest a total l
      end
  end.

Definition aa23ValidateCandidate (c : AA23PlanCandidate) (r : AA23Registry) : option aa23_error :=
  let l := aa23Limits r in
  let identity := cIdentity c in
  if (AA23Plan identity =? 0) || (iSource identity =? 0) || (PlanTypes.AA23Worker identity =? 0) || (PlanTypes.AA23Stream identity =? 0)
  then Some ErrAA23InvalidIdentity
  else
    match policy_validate (cFailure c) with
    | Some err => Some err
    | None =>
        if len (AA23Entries c) =? 0 then Some ErrAA23InvalidPlan
        else if AA23MaxEntriesPerPlan l <? len (AA23Entries c) then Some ErrAA23Oversize
        else
          match validate_entries (AA23Entries c) (AA23Address (AA23Registration_ identity)) 0 l with
          | Some err => Some err
          | None => if aa23PlanOverlaps (AA23Entries c) then Some ErrAA23AmbiguousPlan else None
          end
    end.

Definition validity_of (planExpiry : Z) (rec : aa23RegistrationRecord) (r : AA23Registry) : AA23PlanValidity :=
  mkValidity (aa23Domain (aa23Clock r)) planExpiry (rLeaseExpiry rec) (rSourceLease rec).

Definition aa23CheckPublishable (identity : AA23PlanIdentity) (planExpiry : Z) (now : AA23ClockReading) (r : AA23Registry)
    : result aa23_error nat :=
  if negb (aa23WorkerBound r) then Err ErrAA23NoWorker
  else if negb (PlanTypes.AA23Worker identity =? aa23Worker r) then Err ErrAA23IdentityMismatch
  else if negb (PlanTypes.AA23Stream identity =? aa23Stream r) then Err ErrAA23IdentityMismatch
  else
    match find_active (AA23Registration_ identity) r with
    | None => Err ErrAA23NotRegistered
    | Some k =>
        let rec := aa23Records r !!! k in
        if negb (iSource identity =? rSource rec) then Err ErrAA23IdentityMismatch
        else if aa23Conflicts r (AA23Address (AA23Registration_ identity)) then Err ErrAA23PhysicalConflict
        else match validity_check (validity_of planExpiry rec r) now with Some err => Err err | None => Ok k end
    end.

(** ** Publication *)

(** The slot [AA23PreparePlan] makes of a free one. *)
Definition prepared_slot (c : AA23PlanCandidate) (rec : aa23RegistrationRecord) (r : AA23Registry) (s : aa23Slot) : aa23Slot :=
  aa23Copy (AA23Entries c)
    (mkSlot AA23SlotWriting (aa23Incarnation s) (cIdentity c) (validity_of (AA23PlanExpiry c) rec r) (aa23Reason s) (aa23Pinned s)
       (aa23EntryCount s) (aa23Entries s) (aa23Bytes s)).

Definition AA23PreparePlan (c : AA23PlanCandidate) (now : AA23ClockReading) (r : AA23Registry)
    : AA23Registry * result aa23_error AA23SlotRef :=
  match aa23ObserveClock now r with
  | (r, Some err) => (r, Err err)
  | (r, None) =>
      match aa23ValidateCandidate c r with
      | Some err => (r, Err err)
      | None =>
          match aa23CheckPublishable (cIdentity c) (AA23PlanExpiry c) now r with
          | Err err => (r, Err err)
          | Ok k =>
              match aa23CheckLease (AA23PlanExpiry c) now r with
              | Some err => (r, Err err)
              | None =>
                  if aa23PlanTop r =? MaxUint64 then (r, Err ErrAA23CounterExhausted)
                  else if AA23Plan (cIdentity c) <=? aa23PlanTop r then (r, Err ErrAA23StaleGeneration)
                  else
                    match find_index (fun s => bool_decide (aa23State s = AA23SlotFree)) (aa23Pool r) with
                    | None => (r, Err ErrAA23PoolExhausted)
                    | Some i =>
                        match aa23Pool r !! i with
                        | None => (r, Err ErrAA23PoolExhausted)
                        | Some s =>
                            let s' := prepared_slot c (aa23Records r !!! k) r s in
                            (set_pool (<[i := s']> (aa23Pool r)) (set_plan_top (AA23Plan (cIdentity c)) r), Ok (aa23Ref i s'))
                        end
                    end
              end
          end
      end
  end.

Definition AA23AbortPrepared (ref : AA23SlotRef) (r : AA23Registry) : AA23Registry * option aa23_error :=
  match aa23Resolve ref (aa23Pool r) with
  | Err err => (r, Some err)
  | Ok (i, current) =>
      if negb (bool_decide (aa23State current = AA23SlotWriting)) then (r, Some ErrAA23SlotState)
      else let (current', err) := aa23Release current in (set_pool (<[i := current']> (aa23Pool r)) r, err)
  end.

Definition with_publication (index plan : Z) (rec : aa23RegistrationRecord) : aa23RegistrationRecord :=
  mkRecord (rUsed rec) (rState rec) (rRegistered rec) (rLeaseExpiry rec) (rSource rec) (rSourceLease rec) index plan.

(** A stale candidate is returned, and refused. *)
Definition refuse_prepared (i : nat) (current : aa23Slot) (err : aa23_error) (r : AA23Registry)
    : AA23Registry * result aa23_error AA23PublishNotice :=
  (set_pool (<[i := release_or_retire current]> (aa23Pool r)) r, Err err).

Definition AA23PublishPrepared (ref : AA23SlotRef) (now : AA23ClockReading) (r : AA23Registry)
    : AA23Registry * result aa23_error AA23PublishNotice :=
  match aa23ObserveClock now r with
  | (r, Some err) => (r, Err err)
  | (r, None) =>
      match aa23Resolve ref (aa23Pool r) with
      | Err err => (r, Err err)
      | Ok (i, current) =>
          if negb (bool_decide (aa23State current = AA23SlotWriting)) then (r, Err ErrAA23SlotState)
          else
            match aa23CheckPublishable (aa23Identity current) (vPlanExpiry (aa23Validity current)) now r with
            | Err err => refuse_prepared i current err r
            | Ok k =>
                let rec := aa23Records r !!! k in
                let plan := AA23Plan (aa23Identity current) in
                match validity_check (aa23Validity current) now with
                | Some err => refuse_prepared i current err r
                | None =>
                    if plan <=? rPublishTop rec then refuse_prepared i current ErrAA23StaleGeneration r
                    else
                      let published := Z.to_nat (rPublished rec) in
                      if (0 <=? rPublished rec) &&
                         match aa23Pool r !! published with Some s => plan <=? AA23Plan (aa23Identity s) | None => false end
                      then refuse_prepared i current ErrAA23StaleGeneration r
                      else
                        let r := if 0 <=? rPublished rec then aa23RetireSlot published AA23RetireSuperseded r else r in
                        let r := set_pool (alter (with_state AA23SlotPublished) i (aa23Pool r)) r in
                        let r := set_records (alter (with_publication (swrap 32 (AA23Index ref)) plan) k (aa23Records r)) r in
                        (r, Ok (mkPublish ref (aa23Identity current)))
                end
            end
      end
  end.

Fixpoint pending_revocations (i : nat) (pool : AA23Pool) (dst : list AA23RevocationNotice) (cap : Z) : list AA23RevocationNotice :=
  match pool with
  | [] => dst
  | s :: rest =>
      if len dst =? cap then dst
      else
        let dst := if negb (bool_decide (aa23State s = AA23SlotRetained)) then dst
                   else dst ++ [mkRevocation (aa23Ref i s) (aa23Identity s) (aa23Reason s)] in
        pending_revocations (S i) rest dst cap
  end.

Definition AA23PendingRevocations (dst : list AA23RevocationNotice) (cap : Z) (r : AA23Registry) : list AA23RevocationNotice :=
  pending_revocations 0 (aa23Pool r) dst cap.

Definition AA23ObserveAcknowledgement (ack : AA23Acknowledgement) (r : AA23Registry) : AA23Registry * option aa23_error :=
  match aa23Resolve (ackSlot ack) (aa23Pool r) with
  | Err err => (r, Some err)
  | Ok (i, current) =>
      if negb (bool_decide (aa23State current = AA23SlotRetained)) then (r, Some ErrAA23SlotState)
      else if negb (identity_matches (aa23Identity current) (ackIdentity ack)) then (r, Some ErrAA23IdentityMismatch)
      else if aa23Pinned current then (r, Some ErrAA23SlotPinned)
      else
        let r := set_pool (<[i := with_state AA23SlotReclaimable current]> (aa23Pool r)) r in
        (aa23Settle (AA23Registration_ (aa23Identity current)) r, None)
  end.
