(* ===== verification/PlanWorker.v ===== *)
(** src/localworker/aa23_plans.go, the worker: its view of the pool, adoption
    and revocation of plans, and the pin through which one transaction reads
    its response.  A view shares the pool with the registry, so its operations
    take the pool and return it; a pin is the key it froze, and its operations
    take the view it points to. *)

From S2P Require Import Prelude Errors PlanTypes PlanPool.
#[local] Open Scope list_scope.
#[local] Open Scope Z_scope.

Record aa23WorkerSlotRecord := mkWorkerRecord { wIncarnation : Z; aa23Superseded : bool; aa23Revoked : bool }.

Definition zero_worker_record : aa23WorkerSlotRecord := mkWorkerRecord 0 false false.
#[export] Instance worker_record_inhabited : Inhabited aa23WorkerSlotRecord := populate zero_worker_record.

Definition zero_wire_key : AA23WireKey := mkWireKey zero_identity 0.

Record AA23WorkerView := mkView {
  wWorker : Z; wStream : Z; wClock : aa23ClockGuard; wPlanTop : byte -> Z; wTransactionTop : Z; wCurrent : byte -> AA23SlotRef;
  wRecords : list aa23WorkerSlotRecord; wPinActive : bool; wPinKey : AA23WireKey; wPinSlot : AA23SlotRef }.

Definition set_wclock (v : aa23ClockGuard) (w : AA23WorkerView) : AA23WorkerView :=
  mkView (wWorker w) (wStream w) v (wPlanTop w) (wTransactionTop w) (wCurrent w) (wRecords w) (wPinActive w) (wPinKey w) (wPinSlot w).
Definition set_plan (top : byte -> Z) (current : byte -> AA23SlotRef) (w : AA23WorkerView) : AA23WorkerView :=
  mkView (wWorker w) (wStream w) (wClock w) top (wTransactionTop w) current (wRecords w) (wPinActive w) (wPinKey w) (wPinSlot w).
Definition set_transaction (v : Z) (w : AA23WorkerView) : AA23WorkerView :=
  mkView (wWorker w) (wStream w) (wClock w) (wPlanTop w) v (wCurrent w) (wRecords w) (wPinActive w) (wPinKey w) (wPinSlot w).
Definition set_wrecords (v : list aa23WorkerSlotRecord) (w : AA23WorkerView) : AA23WorkerView :=
  mkView (wWorker w) (wStream w) (wClock w) (wPlanTop w) (wTransactionTop w) (wCurrent w) v (wPinActive w) (wPinKey w) (wPinSlot w).
Definition set_pin (active : bool) (key : AA23WireKey) (slot : AA23SlotRef) (w : AA23WorkerView) : AA23WorkerView :=
  mkView (wWorker w) (wStream w) (wClock w) (wPlanTop w) (wTransactionTop w) (wCurrent w) (wRecords w) active key slot.
Definition set_stream (v : Z) (w : AA23WorkerView) : AA23WorkerView :=
  mkView (wWorker w) v (wClock w) (wPlanTop w) (wTransactionTop w) (wCurrent w) (wRecords w) (wPinActive w) (wPinKey w) (wPinSlot w).

Definition AA23NewWorkerView (pool : option AA23Pool) (worker stream : Z) : result aa23_error AA23WorkerView :=
  match pool with
  | None => Err ErrAA23InvalidIdentity
  | Some pool =>
      if (worker =? 0) || (stream =? 0) then Err ErrAA23InvalidIdentity
      else Ok (mkView worker stream new_guard (fun _ => 0) 0 (fun _ => zero_ref) (replicate (length pool) zero_worker_record)
                 false zero_wire_key zero_ref)
  end.

(** The record of a slot, made anew when it is of an older incarnation. *)
Definition fresh_record (ref : AA23SlotRef) (rec : aa23WorkerSlotRecord) : aa23WorkerSlotRecord :=
  if negb (wIncarnation rec =? AA23Incarnation ref) then mkWorkerRecord (AA23Incarnation ref) false false else rec.

Definition aa23Record (ref : AA23SlotRef) (w : AA23WorkerView) : AA23WorkerView :=
  set_wrecords (alter (fresh_record ref) (Z.to_nat (AA23Index ref)) (wRecords w)) w.

Definition worker_record (ref : AA23SlotRef) (w : AA23WorkerView) : aa23WorkerSlotRecord := wRecords w !!! Z.to_nat (AA23Index ref).

Definition mark (f : aa23WorkerSlotRecord -> aa23WorkerSlotRecord) (ref : AA23SlotRef) (w : AA23WorkerView) : AA23WorkerView :=
  let w := aa23Record ref w in set_wrecords (alter f (Z.to_nat (AA23Index ref)) (wRecords w)) w.

Definition set_superseded (rec : aa23WorkerSlotRecord) : aa23WorkerSlotRecord := mkWorkerRecord (wIncarnation rec) true (aa23Revoked rec).
Definition set_revoked (rec : aa23WorkerSlotRecord) : aa23WorkerSlotRecord := mkWorkerRecord (wIncarnation rec) (aa23Superseded rec) true.

Definition aa23HoldsPin (ref : AA23SlotRef) (w : AA23WorkerView) : bool := wPinActive w && bool_decide (wPinSlot w = ref).

Definition aa23Acknowledge (ref : AA23SlotRef) (identity : AA23PlanIdentity) (w : AA23WorkerView) : option AA23Acknowledgement :=
  if aa23HoldsPin ref w then None else Some (mkAck ref identity).

(** An operation that may yield an acknowledgement. *)
Definition ack_result : Type := result aa23_error (option AA23Acknowledgement).

Definition AA23AdoptPlan (notice : AA23PublishNotice) (now : AA23ClockReading) (pool : AA23Pool) (w : AA23WorkerView)
    : AA23WorkerView * ack_result :=
  let (clock, err) := aa23Observe now (wClock w) in
  let w := set_wclock clock w in
  match err with
  | Some err => (w, Err err)
  | None =>
      match aa23Resolve (pnSlot notice) pool with
      | Err err => (w, Err err)
      | Ok (_, current) =>
          let identity := pnIdentity notice in
          let a := AA23Address (AA23Registration_ identity) in
          if negb (bool_decide (aa23State current = AA23SlotPublished)) then (w, Err ErrAA23SlotState)
          else if negb (identity_matches (aa23Identity current) identity) then (w, Err ErrAA23IdentityMismatch)
          else if negb (AA23Worker identity =? wWorker w) then (w, Err ErrAA23IdentityMismatch)
          else if negb (AA23Stream identity =? wStream w) then (w, Err ErrAA23IdentityMismatch)
          else if AA23Plan identity <=? wPlanTop w a then (w, Err ErrAA23StaleGeneration)
          else
            match validity_check (aa23Validity current) now with
            | Some err => (w, Err err)
            | None =>
                let previous := wCurrent w a in
                let w := set_plan (upd (wPlanTop w) a (AA23Plan identity)) (upd (wCurrent w) a (pnSlot notice)) w in
                if AA23Incarnation previous =? 0 then (w, Ok None)
                else
                  match aa23Resolve previous pool with
                  | Err _ => (w, Ok None)
                  | Ok (_, old) =>
                      let w := mark set_superseded previous w in (w, Ok (aa23Acknowledge previous (aa23Identity old) w))
                  end
            end
      end
  end.

Definition AA23ObserveRevocation (notice : AA23RevocationNotice) (pool : AA23Pool) (w : AA23WorkerView) : AA23WorkerView * ack_result :=
  match aa23Resolve (rnSlot notice) pool with
  | Err err => (w, Err err)
  | Ok (_, current) =>
      if negb (bool_decide (aa23State current = AA23SlotRetained)) then (w, Err ErrAA23SlotState)
      else if negb (identity_matches (aa23Identity current) (rnIdentity notice)) then (w, Err ErrAA23IdentityMismatch)
      else if negb (AA23Worker (rnIdentity notice) =? wWorker w) then (w, Err ErrAA23IdentityMismatch)
      else if wStream w <? AA23Stream (rnIdentity notice) then (w, Err ErrAA23IdentityMismatch)
      else
        let w := mark (if bool_decide (rnReason notice = AA23RetireSuperseded) then set_superseded else set_revoked) (rnSlot notice) w in
        let a := AA23Address (AA23Registration_ (rnIdentity notice)) in
        let w := if bool_decide (wCurrent w a = rnSlot notice) then set_plan (wPlanTop w) (upd (wCurrent w) a zero_ref) w else w in
        (w, Ok (aa23Acknowledge (rnSlot notice) (rnIdentity notice) w))
  end.

(** The slot loses its pin mark only if it is still the one that was pinned. *)
Definition unpin_slot (ref : AA23SlotRef) (s : aa23Slot) : aa23Slot :=
  if aa23Incarnation s =? AA23Incarnation ref then with_pinned false s else s.

Definition aa23DropPin (pool : AA23Pool) (w : AA23WorkerView) : AA23Pool * AA23WorkerView :=
  (alter (unpin_slot (wPinSlot w)) (Z.to_nat (AA23Index (wPinSlot w))) pool, set_pin false zero_wire_key zero_ref w).

Definition AA23AdvanceStream (stream : Z) (pool : AA23Pool) (w : AA23WorkerView) : AA23Pool * AA23WorkerView * option aa23_error :=
  if stream <=? wStream w then (pool, w, Some ErrAA23StaleGeneration)
  else
    let (pool, w) := if wPinActive w then aa23DropPin pool w else (pool, w) in
    (pool, set_plan (wPlanTop w) (fun _ => zero_ref) (set_transaction 0 (set_stream stream w)), None).

(** A pin that points to a view is the key it froze; the zero pin is [None]. *)
Definition AA23PlanPin : Type := option AA23WireKey.

Definition AA23SelectProvisional (a : byte) (transaction : Z) (now : AA23ClockReading) (pool : AA23Pool) (w : AA23WorkerView)
    : AA23Pool * AA23WorkerView * result aa23_error AA23PlanPin :=
  let (clock, err) := aa23Observe now (wClock w) in
  let w := set_wclock clock w in
  match err with
  | Some err => (pool, w, Err err)
  | None =>
      if transaction =? 0 then (pool, w, Err ErrAA23InvalidIdentity)
      else if transaction <=? wTransactionTop w then (pool, w, Err ErrAA23StaleTransaction)
      else
        let w := set_transaction transaction w in
        if wPinActive w then (pool, w, Err ErrAA23PinBusy)
        else
          let ref := wCurrent w a in
          if AA23Incarnation ref =? 0 then (pool, w, Err ErrAA23NoPlan)
          else
            match aa23Resolve ref pool with
            | Err err => (pool, w, Err err)
            | Ok (i, current) =>
                if negb (bool_decide (aa23State current = AA23SlotPublished)) && negb (bool_decide (aa23State current = AA23SlotRetained))
                then (pool, w, Err ErrAA23SlotState)
                else
                  match validity_check (aa23Validity current) now with
                  | Some err => (pool, w, Err err)
                  | None =>
                      let key := mkWireKey (aa23Identity current) transaction in
                      (<[i := with_pinned true current]> pool, set_pin true key ref w, Ok (Some key))
                  end
            end
  end.

Definition Pin_Key (pin : AA23PlanPin) : AA23WireKey := default zero_wire_key pin.

(** The admission check repeated at every boundary. *)
Definition aa23Live (pin : AA23PlanPin) (expect : AA23WireKey) (now : AA23ClockReading) (pool : AA23Pool) (w : AA23WorkerView)
    : AA23WorkerView * result aa23_error aa23Slot :=
  match pin with
  | None => (w, Err ErrAA23PinReleased)
  | Some key =>
      let (clock, err) := aa23Observe now (wClock w) in
      let w := set_wclock clock w in
      match err with
      | Some err => (w, Err err)
      | None =>
          if negb (wPinActive w) || negb (bool_decide (wPinKey w = key)) then (w, Err ErrAA23PinReleased)
          else if negb (identity_matches (PlanTypes.AA23Identity expect) (PlanTypes.AA23Identity key)) then (w, Err ErrAA23IdentityMismatch)
          else if negb (AA23Transaction expect =? AA23Transaction key) then (w, Err ErrAA23IdentityMismatch)
          else
            match aa23Resolve (wPinSlot w) pool with
            | Err err => (w, Err err)
            | Ok (_, current) =>
                if negb (bool_decide (aa23State current = AA23SlotPublished)) && negb (bool_decide (aa23State current = AA23SlotRetained))
                then (w, Err ErrAA23SlotState)
                else
                  let w := aa23Record (wPinSlot w) w in
                  if aa23Revoked (worker_record (wPinSlot w) w) then (w, Err ErrAA23Revoked)
                  else match validity_check (aa23Validity current) now with
                       | Some err => (w, Err err)
                       | None => (w, Ok current)
                       end
            end
      end
  end.

Definition AA23Validate (pin : AA23PlanPin) (expect : AA23WireKey) (now : AA23ClockReading) (pool : AA23Pool) (w : AA23WorkerView)
    : AA23WorkerView * option aa23_error :=
  let (w, r) := aa23Live pin expect now pool w in (w, match r with Ok _ => None | Err err => Some err end).

Record AA23RequestQuery := mkQuery { qSource : byte; qDestination : byte; qPB : byte; qSB : byte; qData : list byte }.

Definition record_matches (s : aa23Slot) (q : AA23RequestQuery) (r : aa23EntryRecord) : bool :=
  if negb (aa23SourceAny r) && negb (aa23Source r =b qSource q) then false
  else if negb (aa23PB r =b qPB q) || negb (aa23SB r =b qSB q) then false
  else if negb (aa23RequestLen r =? len (qData q)) then false
  else bool_decide (record_request s r = qData q).

Definition match_index (q : AA23RequestQuery) (s : aa23Slot) : result aa23_error Z :=
  if negb (qDestination q =b AA23Address (AA23Registration_ (aa23Identity s))) then Err ErrAA23NoMatch
  else if negb (aa23IsInitiatorAddress (qSource q)) then Err ErrAA23NoMatch
  else
    match find_index (record_matches s q) (take (Z.to_nat (aa23EntryCount s)) (aa23Entries s)) with
    | Some i => Ok (Z.of_nat i)
    | None => Err ErrAA23NoMatch
    end.

Definition AA23Match (pin : AA23PlanPin) (expect : AA23WireKey) (q : AA23RequestQuery) (now : AA23ClockReading) (pool : AA23Pool)
    (w : AA23WorkerView) : AA23WorkerView * result aa23_error Z :=
  let (w, r) := aa23Live pin expect now pool w in (w, rbind (match_index q) r).

(** The record of an entry of the plan. *)
Definition entry_record (entry : Z) (s : aa23Slot) : result aa23_error aa23EntryRecord :=
  if aa23EntryCount s <=? entry then Err ErrAA23NoMatch
  else match aa23Entries s !! Z.to_nat entry with Some r => Ok r | None => Err ErrAA23NoMatch end.

Definition AA23ResponseLength (pin : AA23PlanPin) (expect : AA23WireKey) (entry : Z) (now : AA23ClockReading) (pool : AA23Pool)
    (w : AA23WorkerView) : AA23WorkerView * result aa23_error Z :=
  let (w, r) := aa23Live pin expect now pool w in
  (w, let* s := r in let* rec := entry_record entry s in Ok (aa23ReplyLen rec)).

Definition response_symbol (entry offset : Z) (phase : AA23Phase) (s : aa23Slot) : result aa23_error byte :=
  let* rec := entry_record entry s in
  if negb (bool_decide (phase = aa23Phase rec)) then Err ErrAA23Phase
  else if aa23ReplyLen rec <=? offset then Err ErrAA23Oversize
  else Ok (nth (Z.to_nat (wrap 32 (aa23ReplyStart rec + offset))) (aa23Bytes s) x00).

Definition AA23ResponseSymbol (pin : AA23PlanPin) (expect : AA23WireKey) (entry offset : Z) (phase : AA23Phase) (now : AA23ClockReading)
    (pool : AA23Pool) (w : AA23WorkerView) : AA23WorkerView * result aa23_error byte :=
  let (w, r) := aa23Live pin expect now pool w in (w, rbind (response_symbol entry offset phase) r).

Definition Pin_Release (pin : AA23PlanPin) (pool : AA23Pool) (w : AA23WorkerView) : AA23Pool * AA23WorkerView * ack_result :=
  match pin with
  | None => (pool, w, Err ErrAA23PinReleased)
  | Some key =>
      if negb (wPinActive w) || negb (bool_decide (wPinKey w = key)) then (pool, w, Err ErrAA23PinReleased)
      else
        let ref := wPinSlot w in
        let w := aa23Record ref w in
        let retired := aa23Superseded (worker_record ref w) || aa23Revoked (worker_record ref w) in
        let (pool, w) := aa23DropPin pool w in
        (pool, w, Ok (if negb retired then None else aa23Acknowledge ref (PlanTypes.AA23Identity key) w))
  end.
