(* ===== verification/PlanSystem.v ===== *)
(** The host and its workers over one pool (src/localworker/aa23_plans.go):
    every exported operation as a step, in any order and from any number of
    views, with the candidates that were prepared kept as history.

    The slots only move forward: an incarnation's plan never changes once the
    worker may see it, so a pin reads the plan it selected or nothing. *)

From S2P Require Import Prelude Errors Wire PlanTypes PlanCodec PlanOverlap PlanPool PlanRegistry PlanWorker.
#[local] Open Scope list_scope.
#[local] Open Scope Z_scope.

(** ** Steps *)

Inductive host_op :=
| OpOpenSubscriber | OpRegister (c : PlanTypes.AA23Registration) (now : AA23ClockReading) | OpUnregister (key : AA23RegistrationKey)
| OpDisconnect (id : Z) | OpReset | OpBindMaster (id : Z) (a : byte) | OpReleaseMaster (id : Z) (a : byte)
| OpMarkConflict (a : byte) | OpClearConflict (a : byte)
| OpRenew (key : AA23RegistrationKey) (expiry : Z) (now : AA23ClockReading)
| OpAdvanceSource (key : AA23RegistrationKey) (source expiry : Z) (now : AA23ClockReading)
| OpExpireDue (now : AA23ClockReading) | OpBindWorker (worker stream : Z) | OpWorkerTerminated (worker : Z)
| OpAbort (ref : AA23SlotRef) | OpPublish (ref : AA23SlotRef) (now : AA23ClockReading)
| OpObserveAck (ack : AA23Acknowledgement) | OpReclaim (ref : AA23SlotRef).

Definition host_step (op : host_op) (r : AA23Registry) : AA23Registry :=
  match op with
  | OpOpenSubscriber => (AA23OpenSubscriber r).1
  | OpRegister c now => (AA23Register c now r).1
  | OpUnregister key => (AA23Unregister key r).1
  | OpDisconnect id => AA23DisconnectSubscriber id r
  | OpReset => AA23Reset r
  | OpBindMaster id a => (AA23BindMaster id a r).1
  | OpReleaseMaster id a => AA23ReleaseMaster id a r
  | OpMarkConflict a => AA23MarkPhysicalConflict a r
  | OpClearConflict a => AA23ClearPhysicalConflict a r
  | OpRenew key expiry now => (AA23RenewRegistration key expiry now r).1
  | OpAdvanceSource key source expiry now => (AA23AdvanceSource key source expiry now r).1
  | OpExpireDue now => (AA23ExpireDue now r).1
  | OpBindWorker worker stream => (AA23BindWorker worker stream r).1
  | OpWorkerTerminated worker => (AA23ObserveWorkerTerminated worker r).1
  | OpAbort ref => (AA23AbortPrepared ref r).1
  | OpPublish ref now => (AA23PublishPrepared ref now r).1
  | OpObserveAck ack => (AA23ObserveAcknowledgement ack r).1
  | OpReclaim ref => set_pool (AA23Reclaim ref (aa23Pool r)).1 r
  end.

Inductive view_op :=
| OpAdopt (notice : AA23PublishNotice) (now : AA23ClockReading) | OpObserveRevocation (notice : AA23RevocationNotice)
| OpAdvanceStream (stream : Z) | OpSelect (a : byte) (transaction : Z) (now : AA23ClockReading)
| OpLive (pin : AA23PlanPin) (expect : AA23WireKey) (now : AA23ClockReading) | OpRelease (pin : AA23PlanPin).

(** The four accessors of a pin change the view as their common check does. *)
Definition view_step (op : view_op) (pool : AA23Pool) (w : AA23WorkerView) : AA23Pool * AA23WorkerView :=
  match op with
  | OpAdopt notice now => (pool, (AA23AdoptPlan notice now pool w).1)
  | OpObserveRevocation notice => (pool, (AA23ObserveRevocation notice pool w).1)
  | OpAdvanceStream stream => (AA23AdvanceStream stream pool w).1
  | OpSelect a transaction now => (AA23SelectProvisional a transaction now pool w).1
  | OpLive pin expect now => (pool, (aa23Live pin expect now pool w).1)
  | OpRelease pin => (Pin_Release pin pool w).1
  end.

Inductive op := OpHost (h : host_op) | OpPrepare (c : AA23PlanCandidate) (now : AA23ClockReading)
| OpNewView (worker stream : Z) | OpWorker (i : nat) (v : view_op).

(** The history lists the candidates with the slot they went into. *)
Record system := mkSystem { host : AA23Registry; workers : list AA23WorkerView; prepared : list (AA23SlotRef * AA23PlanCandidate) }.

Definition plan_step (o : op) (s : system) : system :=
  match o with
  | OpHost h => mkSystem (host_step h (host s)) (workers s) (prepared s)
  | OpPrepare c now =>
      match AA23PreparePlan c now (host s) with
      | (r, Ok ref) => mkSystem r (workers s) ((ref, c) :: prepared s)
      | (r, Err _) => mkSystem r (workers s) (prepared s)
      end
  | OpNewView worker stream =>
      match AA23NewWorkerView (Some (aa23Pool (host s))) worker stream with
      | Ok w => mkSystem (host s) (workers s ++ [w]) (prepared s)
      | Err _ => s
      end
  | OpWorker i v =>
      match workers s !! i with
      | None => s
      | Some w => let (pool, w) := view_step v (aa23Pool (host s)) w in mkSystem (set_pool pool (host s)) (<[i := w]> (workers s)) (prepared s)
      end
  end.

Definition run (ops : list op) (s : system) : system := foldl (fun s o => plan_step o s) s ops.

(** A system is what any steps make of a new registry. *)
Definition reachable (limits : AA23Limits) (s : system) : Prop :=
  exists floor r ops, AA23NewRegistry limits floor = Ok r /\ s = run ops (mkSystem r [] []).

(** ** How a slot moves *)

Definition advanced (s : aa23Slot) : Prop :=
  aa23State s = AA23SlotPublished \/ aa23State s = AA23SlotRetained \/ aa23State s = AA23SlotReclaimable.

Definition in_range (s : aa23Slot) : Prop := 0 < aa23Incarnation s <= MaxUint64.

Definition same_plan (s s' : aa23Slot) : Prop :=
  aa23Identity s' = aa23Identity s /\ aa23Validity s' = aa23Validity s /\ aa23EntryCount s' = aa23EntryCount s.

Definition same_storage (s s' : aa23Slot) : Prop := aa23Entries s' = aa23Entries s /\ aa23Bytes s' = aa23Bytes s.

(** Without a preparation a slot keeps its plan, or is freed under a later
    incarnation. *)
Definition moves (s s' : aa23Slot) : Prop :=
  in_range s -> in_range s' /\ same_storage s s' /\
    (aa23Incarnation s' = aa23Incarnation s /\ same_plan s s' /\
       (aa23State s' = AA23SlotFree <-> aa23State s = AA23SlotFree) /\ (advanced s -> advanced s') \/
     aa23Incarnation s < aa23Incarnation s' /\ aa23State s' = AA23SlotFree).

#[export] Instance moves_refl : Reflexive moves.
Proof. intros s H. split; [done|]. split; [by split|]. left. repeat split; done. Qed.

#[export] Instance moves_trans : Transitive moves.
Proof.
  intros a b c Hab Hbc Ha. destruct (Hab Ha) as (Hb & [S1 S2] & H1). destruct (Hbc Hb) as (Hc & [S3 S4] & H2).
  split; [done|]. split; [split; congruence|].
  destruct H1 as [(I1 & (P1 & Q1 & R1) & F1 & A1)|(I1 & F1)], H2 as [(I2 & (P2 & Q2 & R2) & F2 & A2)|(I2 & F2)].
  - left. repeat split; try congruence; tauto.
  - right. split; [lia|done].
  - right. split; [lia|]. by apply F2.
  - right. split; [lia|done].
Qed.

Definition pool_moves (p p' : AA23Pool) : Prop :=
  length p' = length p /\ forall i s, p !! i = Some s -> exists s', p' !! i = Some s' /\ moves s s'.

#[export] Instance pool_moves_refl : Reflexive pool_moves.
Proof. intros p. split; [done|]. intros i s Hs. by exists s. Qed.
#[export] Instance pool_moves_trans : Transitive pool_moves.
Proof.
  intros a b c [L1 H1] [L2 H2]. split; [congruence|]. intros i s Hs. destruct (H1 i s Hs) as (s' & Hs' & M1).
  destruct (H2 i s' Hs') as (s'' & Hs'' & M2). exists s''. split; [done|]. by transitivity s'.
Qed.

Lemma pool_moves_alter p i f : (forall s, p !! i = Some s -> moves s (f s)) -> pool_moves p (alter f i p).
Proof.
  intros Hf. split; [apply length_alter|]. intros j s Hs. destruct (decide (i = j)) as [->|Hne].
  - exists (f s). split; [by rewrite list_lookup_alter_eq, ?Hs|by apply Hf].
  - exists s. split; [by rewrite list_lookup_alter_ne|done].
Qed.

Lemma pool_moves_insert p i s s' : p !! i = Some s -> moves s s' -> pool_moves p (<[i := s']> p).
Proof. intros Hi Hm. rewrite list_insert_alter. apply pool_moves_alter. intros x Hx. assert (x = s) as -> by congruence. exact Hm. Qed.

(** The changes of a slot. *)

Lemma moves_state st s : (st = AA23SlotFree <-> aa23State s = AA23SlotFree) -> (advanced s -> advanced (with_state st s)) -> moves s (with_state st s).
Proof. intros Hf Ha H. split; [done|]. split; [by split|]. left. repeat split; try done; by apply Hf. Qed.

Lemma moves_reason r s : moves s (with_reason r s).
Proof. intros H. split; [done|]. split; [by split|]. left. repeat split; done. Qed.

Lemma moves_pinned b s : moves s (with_pinned b s).
Proof. intros H. split; [done|]. split; [by split|]. left. repeat split; done. Qed.

Lemma moves_release s : moves s (aa23Release s).1.
Proof.
  unfold aa23Release. destruct (Z.eqb_spec (aa23Incarnation s) MaxUint64) as [|Hne]; cbn [fst]; [apply moves_refl|].
  intros [H0 H1]. unfold in_range. cbn [aa23Incarnation]. unfold MaxUint64 in *. rewrite wrap_small by lia.
  split; [lia|]. split; [by split|]. right. cbn. split; [lia|done].
Qed.

Lemma moves_release_or_retire s : aa23State s = AA23SlotWriting -> moves s (release_or_retire s).
Proof.
  intros Hw. unfold release_or_retire. pose proof (moves_release s) as H. unfold aa23Release in *.
  destruct (aa23Incarnation s =? MaxUint64); cbn [fst] in *; [|exact H].
  apply moves_state; [rewrite Hw; done|]. intros _. by right; right.
Qed.

Lemma moves_retained r s : aa23State s = AA23SlotPublished -> moves s (with_reason r (with_state AA23SlotRetained s)).
Proof.
  intros Hp. transitivity (with_state AA23SlotRetained s); [|apply moves_reason].
  apply moves_state; [rewrite Hp; done|]. intros _. by right; left.
Qed.

Lemma moves_reclaimable s : advanced s -> moves s (with_state AA23SlotReclaimable s).
Proof.
  intros Ha. apply moves_state; [|intros _; by right; right]. split; [done|]. intros E.
  destruct Ha as [Ha|[Ha|Ha]]; rewrite E in Ha; done.
Qed.

(** ** What host operations do to the pool *)

(** The limits stay, the bound worker is the newest, and its plan generations
    only restart with a newer worker. *)
Definition frame (r r' : AA23Registry) : Prop :=
  aa23Limits r' = aa23Limits r /\ aa23WorkerTop r <= aa23WorkerTop r' /\
  (aa23WorkerTop r' = aa23WorkerTop r -> aa23PlanTop r' = aa23PlanTop r) /\
  ((aa23WorkerBound r = true -> aa23Worker r = aa23WorkerTop r) -> aa23WorkerBound r' = true -> aa23Worker r' = aa23WorkerTop r').

Definition host_moves (r r' : AA23Registry) : Prop := pool_moves (aa23Pool r) (aa23Pool r') /\ frame r r'.

Lemma frame_refl r : frame r r.
Proof. repeat split; auto; lia. Qed.

#[export] Instance host_moves_refl : Reflexive host_moves.
Proof. intros r. split; [done|apply frame_refl]. Qed.
#[export] Instance host_moves_trans : Transitive host_moves.
Proof.
  intros a b c [P1 (L1 & W1 & T1 & B1)] [P2 (L2 & W2 & T2 & B2)]. split; [by transitivity (aa23Pool b)|].
  split; [congruence|]. split; [lia|]. split; [|auto]. intros E. rewrite T2, T1 by lia. done.
Qed.

Lemma host_moves_pool p r : pool_moves (aa23Pool r) p -> host_moves r (set_pool p r).
Proof. intros H. split; [exact H|exact (frame_refl r)]. Qed.

Lemma host_moves_insert i s s' r : aa23Pool r !! i = Some s -> moves s s' -> host_moves r (set_pool (<[i := s']> (aa23Pool r)) r).
Proof. intros Hi Hm. apply host_moves_pool. by apply (pool_moves_insert _ _ s). Qed.

Lemma host_moves_foldl {A} (f : AA23Registry -> A -> AA23Registry) l r :
  (forall r a, host_moves r (f r a)) -> host_moves r (foldl f r l).
Proof. intros Hf. revert r. induction l as [|a l IH]; intros r; [done|]. cbn. transitivity (f r a); [apply Hf|apply IH]. Qed.

Lemma retire_slot_moves i reason r : host_moves r (aa23RetireSlot i reason r).
Proof.
  unfold aa23RetireSlot. destruct (aa23Pool r !! i) as [s|] eqn:E; [|done]. destruct (aa23State s) eqn:Es; try done.
  - apply (host_moves_insert _ s); [done|by apply moves_release_or_retire].
  - assert (host_moves r (set_pool (<[i := with_reason reason (with_state AA23SlotRetained s)]> (aa23Pool r)) r)) as H.
    { apply (host_moves_insert _ s); [done|by apply moves_retained]. }
    destruct (aa23FindExact _ _); exact H.
  - destruct (_ <? _); [|done]. apply (host_moves_insert _ s); [done|apply moves_reason].
Qed.

Lemma retire_where_moves reason selected r : host_moves r (aa23RetireWhere reason selected r).
Proof.
  apply host_moves_foldl. intros r' i. unfold retire_one. destruct (aa23Pool r' !! i); [|done].
  destruct (_ || _); [done|]. destruct (selected _); [apply retire_slot_moves|done].
Qed.

Lemma observe_clock_moves now r : host_moves r (aa23ObserveClock now r).1.
Proof.
  unfold aa23ObserveClock. destruct (aa23Observe _ _) as [clock err]. cbn [fst].
  destruct (_ && _); [exact (retire_where_moves _ _ (set_clock clock r))|exact (host_moves_refl r)].
Qed.

(** The fields the pool's plans depend on. *)
Definition core (r : AA23Registry) := (aa23Pool r, aa23Limits r, aa23WorkerBound r, aa23Worker r, aa23WorkerTop r, aa23PlanTop r).

Lemma core_moves r r' : core r' = core r -> host_moves r r'.
Proof.
  intros [= Ep El Eb Ew Et Eq]. unfold host_moves, frame. rewrite Ep, El, Eb, Ew, Et, Eq. split; [done|exact (frame_refl r)].
Qed.

Lemma settle_core key r : core (aa23Settle key r) = core r.
Proof.
  unfold aa23Settle. destruct (aa23FindExact key r); [|done]. destruct (negb _); [done|]. destruct (referenced _ _); [done|]. cbv zeta.
  destruct (aa23FindSubscriber _ _); [|done]. unfold aa23ForgetClosedSubscriber. cbv zeta. by case_match.
Qed.

Lemma settle_moves key r : host_moves r (aa23Settle key r).
Proof. apply core_moves, settle_core. Qed.

Lemma retire_moves k reason r : host_moves r (aa23Retire k reason r).
Proof. unfold aa23Retire. cbv zeta. etransitivity; [|apply settle_moves]. exact (retire_where_moves _ _ (set_records _ r)). Qed.

Lemma retire_records_moves reason selected r : host_moves r (retire_records reason selected r).
Proof. apply host_moves_foldl. intros r' k. unfold retire_record. destruct (_ && _); [apply retire_moves|done]. Qed.

Lemma release_masters_core id r : core (aa23ReleaseMastersWhere id r) = core r.
Proof.
  unfold aa23ReleaseMastersWhere. revert r. induction all_bytes as [|a l IH]; intros r; [done|]. cbn [foldl]. rewrite IH.
  by destruct (released_master _ _ _).
Qed.

Lemma forget_core s r : core (aa23ForgetClosedSubscriber s r) = core r.
Proof. unfold aa23ForgetClosedSubscriber. cbv zeta. by case_match. Qed.

Lemma resolve_Ok ref p i s :
  aa23Resolve ref p = Ok (i, s) -> i = Z.to_nat (AA23Index ref) /\ p !! i = Some s /\ aa23Incarnation s = AA23Incarnation ref.
Proof.
  unfold aa23Resolve. destruct (_ <=? _); [done|]. destruct (p !! _) as [x|] eqn:E; [|done].
  destruct (negb _) eqn:En; [done|]. intros [= <- <-]. apply negb_false_iff, Z.eqb_eq in En. done.
Qed.

Lemma observed_moves now r r1 err : aa23ObserveClock now r = (r1, err) -> host_moves r r1.
Proof. intros E. pose proof (observe_clock_moves now r) as H. by rewrite E in H. Qed.

(** Rejections leave the pool as the clock left it. *)
Ltac observing now r r1 H :=
  destruct (aa23ObserveClock now r) as [r1 [?|]] eqn:H; apply observed_moves in H; [exact H|]; cbn [fst].
Ltac rejecting := repeat (first [done | case_match; try (cbn [fst]; first [done | assumption])]).

Lemma register_moves c now r : host_moves r (AA23Register c now r).1.
Proof.
  unfold AA23Register. observing now r r1 H. cbv zeta. do 2 (destruct (_ : bool); [exact H|]). destruct (negb (_ =? 0)).
  - do 2 (destruct (negb _); [exact H|]). destruct (negb _); exact H.
  - destruct (register_checks _ _ _); [|exact H]. destruct (find_index _ _); exact H.
Qed.

Lemma renew_moves key expiry now r : host_moves r (AA23RenewRegistration key expiry now r).1.
Proof.
  unfold AA23RenewRegistration. observing now r r1 H. destruct (find_active _ _); [|exact H]. cbv zeta.
  destruct (_ <=? _); [exact H|]. destruct (_ <? _); [exact H|]. destruct (aa23CheckLease _ _ _); exact H.
Qed.

Lemma advance_source_moves key source expiry now r : host_moves r (AA23AdvanceSource key source expiry now r).1.
Proof.
  unfold AA23AdvanceSource. observing now r r1 H. destruct (find_active _ _) as [k|]; [|exact H]. cbv zeta.
  destruct (_ <=? _); [exact H|]. destruct (aa23CheckLease _ _ _); [exact H|]. cbn [fst].
  etransitivity; [exact H|]. exact (retire_where_moves _ _ (set_records _ r1)).
Qed.

Lemma expire_due_moves now r : host_moves r (AA23ExpireDue now r).1.
Proof.
  unfold AA23ExpireDue. observing now r r1 H. cbv zeta. etransitivity; [exact H|]. etransitivity; [apply retire_where_moves|apply retire_records_moves].
Qed.

(** Everything a plan depends on but the pool. *)
Definition rest (r : AA23Registry) := (aa23Limits r, aa23WorkerBound r, aa23Worker r, aa23WorkerTop r, aa23PlanTop r).

Lemma retire_slot_rest i reason r : rest (aa23RetireSlot i reason r) = rest r.
Proof.
  unfold aa23RetireSlot. destruct (aa23Pool r !! i); [|done].
  destruct (aa23State _); try done; [destruct (aa23FindExact _ _)|destruct (_ <? _)]; done.
Qed.

Lemma retire_where_rest reason selected r : rest (aa23RetireWhere reason selected r) = rest r.
Proof.
  unfold aa23RetireWhere. generalize (seq 0 (length (aa23Pool r))) as l. intros l. revert r.
  induction l as [|i l IH]; intros r; [done|]. cbn [foldl]. rewrite IH. unfold retire_one.
  destruct (aa23Pool r !! i); [|done]. destruct (_ || _); [done|]. destruct (selected _); [apply retire_slot_rest|done].
Qed.

Lemma bind_worker_moves worker stream r : host_moves r (AA23BindWorker worker stream r).1.
Proof.
  unfold AA23BindWorker. cbv zeta. destruct (_ || _); [done|].
  pose proof (retire_where_moves AA23RetireRevoked (fun _ => true) r) as [P _].
  pose proof (retire_where_rest AA23RetireRevoked (fun _ => true) r) as [= L _ _ T Q].
  destruct (Z.ltb_spec (aa23WorkerTop r) worker) as [Hnew|Hold]; cbn [negb andb fst].
  - split; [exact P|]. split; [exact L|]. cbn. split; [lia|]. split; [lia|done].
  - destruct (negb _) eqn:E; [done|]. cbn [fst]. apply negb_false_iff in E. apply andb_true_iff in E as [E _]. apply andb_true_iff in E as [E%Z.eqb_eq _].
    split; [exact P|]. split; [exact L|]. cbn. split; [lia|]. split; [|done]. intros _. exact Q.
Qed.

Lemma retired_state i reason r s s' :
  aa23Pool r !! i = Some s -> advanced s -> aa23Pool (aa23RetireSlot i reason r) !! i = Some s' -> advanced s'.
Proof.
  intros Hi Ha. unfold aa23RetireSlot. rewrite Hi.
  destruct Ha as [E|[E|E]]; rewrite E.
  - assert (aa23Pool (set_pool (<[i:=with_reason reason (with_state AA23SlotRetained s)]> (aa23Pool r)) r) !! i =
      Some (with_reason reason (with_state AA23SlotRetained s))) as H by (cbn; apply list_lookup_insert_eq; by eapply lookup_lt_Some).
    destruct (aa23FindExact _ _); cbn [aa23Pool set_records]; rewrite H; intros [= <-]; by right; left.
  - destruct (_ <? _); cbn [aa23Pool set_pool].
    + rewrite list_lookup_insert_eq by (by eapply lookup_lt_Some). intros [= <-]. by right; left.
    + rewrite Hi. intros [= <-]. by right; left.
  - rewrite Hi. intros [= <-]. by right; right.
Qed.

Lemma terminate_one_moves worker r i : host_moves r (terminate_one worker r i).
Proof.
  unfold terminate_one. destruct (aa23Pool r !! i) as [s|] eqn:E; [|done].
  destruct (negb (bool_decide (aa23State s = AA23SlotPublished) || bool_decide (aa23State s = AA23SlotRetained))) eqn:Es; [done|].
  assert (advanced s) as Ha by (apply negb_false_iff, orb_true_iff in Es as [Es%bool_decide_eq_true|Es%bool_decide_eq_true]; [by left|by right; left]).
  clear Es. destruct (negb _); [done|]. cbv zeta.
  etransitivity; [apply (retire_slot_moves i AA23RetireRevoked)|]. etransitivity; [|apply settle_moves].
  apply host_moves_pool, pool_moves_alter. intros s' Hs'.
  transitivity (with_pinned false s'); [apply moves_pinned|]. apply moves_reclaimable.
  exact (retired_state _ _ _ _ _ E Ha Hs').
Qed.

Lemma worker_terminated_moves worker r : host_moves r (AA23ObserveWorkerTerminated worker r).1.
Proof.
  unfold AA23ObserveWorkerTerminated. destruct (_ || _); [done|]. cbv zeta. cbn [fst].
  etransitivity; [|apply host_moves_foldl; intros r2 i; apply terminate_one_moves].
  destruct (_ && _); [|done]. etransitivity; [|apply retire_where_moves].
  split; [exact (pool_moves_refl _)|]. split; [done|]. split; [exact (Z.le_refl _)|]. split; [done|]. intros _ H. discriminate H.
Qed.

Lemma writing_decide s : negb (bool_decide (aa23State s = AA23SlotWriting)) = false -> aa23State s = AA23SlotWriting.
Proof. intros E. by apply negb_false_iff, bool_decide_eq_true in E. Qed.

Lemma abort_moves ref r : host_moves r (AA23AbortPrepared ref r).1.
Proof.
  unfold AA23AbortPrepared. destruct (aa23Resolve _ _) as [[i s]|] eqn:E; [|done]. apply resolve_Ok in E as (_ & Hi & _).
  destruct (negb _); [done|]. pose proof (moves_release s) as Hm. destruct (aa23Release s) as [s' err]. cbn [fst] in *.
  by apply (host_moves_insert _ s).
Qed.

Lemma refuse_prepared_moves i s err r : aa23Pool r !! i = Some s -> aa23State s = AA23SlotWriting -> host_moves r (refuse_prepared i s err r).1.
Proof. intros Hi Hs. apply (host_moves_insert _ s); [done|]. by apply moves_release_or_retire. Qed.

Lemma retire_slot_other i j reason r : i <> j -> aa23Pool (aa23RetireSlot j reason r) !! i = aa23Pool r !! i.
Proof.
  intros Hne. unfold aa23RetireSlot. destruct (aa23Pool r !! j); [|done].
  destruct (aa23State _); try done; [|destruct (aa23FindExact _ _)|destruct (_ <? _)]; cbn; try done; by rewrite list_lookup_insert_ne.
Qed.

Lemma publish_moves ref now r : host_moves r (AA23PublishPrepared ref now r).1.
Proof.
  unfold AA23PublishPrepared. observing now r r1 H. destruct (aa23Resolve _ _) as [[i s]|] eqn:E; [|exact H].
  apply resolve_Ok in E as (_ & Hi & _). destruct (negb _) eqn:Es; [exact H|]. apply writing_decide in Es.
  assert (forall err, host_moves r (refuse_prepared i s err r1).1) as Hrefuse by (intros err; etransitivity; [exact H|by apply refuse_prepared_moves]).
  destruct (aa23CheckPublishable _ _ _ _) as [k|]; [|apply Hrefuse]. cbv zeta.
  destruct (validity_check _ _); [apply Hrefuse|]. destruct (_ <=? _); [apply Hrefuse|].
  destruct ((0 <=? _) && _) eqn:Ep; [apply Hrefuse|]. cbn [fst].
  etransitivity; [exact H|].
  set (r2 := if 0 <=? rPublished (aa23Records r1 !!! k) then aa23RetireSlot (Z.to_nat (rPublished (aa23Records r1 !!! k))) AA23RetireSuperseded r1 else r1).
  assert (host_moves r1 r2 /\ aa23Pool r2 !! i = Some s) as [H2 Hi2].
  { unfold r2. destruct (0 <=? _) eqn:Epos; [|done]. split; [apply retire_slot_moves|].
    rewrite retire_slot_other; [done|]. intros Ei. cbn [andb] in Ep. rewrite ?Epos, <- Ei, Hi, Z.leb_refl in Ep. done. }
  etransitivity; [exact H2|].
  refine (host_moves_pool (alter (with_state AA23SlotPublished) i (aa23Pool r2)) r2 _). apply pool_moves_alter. intros s' Hs'.
  assert (s' = s) as -> by congruence. apply moves_state; [rewrite Es; done|]. intros _. by left.
Qed.

Lemma observe_ack_moves ack r : host_moves r (AA23ObserveAcknowledgement ack r).1.
Proof.
  unfold AA23ObserveAcknowledgement. destruct (aa23Resolve _ _) as [[i s]|] eqn:E; [|done]. apply resolve_Ok in E as (_ & Hi & _).
  destruct (negb (bool_decide _)) eqn:Es; [done|]. apply negb_false_iff, bool_decide_eq_true in Es.
  destruct (negb _); [done|]. destruct (aa23Pinned s); [done|]. cbn [fst]. etransitivity; [|apply settle_moves].
  apply (host_moves_insert _ s); [done|]. apply moves_reclaimable. by right; left.
Qed.

Lemma reclaim_moves ref p : pool_moves p (AA23Reclaim ref p).1.
Proof.
  unfold AA23Reclaim. destruct (aa23Resolve _ _) as [[i s]|] eqn:E; [|done]. apply resolve_Ok in E as (_ & Hi & _).
  destruct (negb _); [done|]. pose proof (moves_release s) as Hm. destruct (aa23Release s) as [s' err].
  by apply (pool_moves_insert _ _ s).
Qed.

(** Every operation of the host but the preparation only moves slots on. *)
Lemma host_step_moves h r : host_moves r (host_step h r).
Proof.
  destruct h; cbn [host_step].
  - unfold AA23OpenSubscriber. destruct (_ =? _); [done|]. destruct (find_index _ _); exact (host_moves_refl r).
  - apply register_moves.
  - unfold AA23Unregister. destruct (aa23FindExact _ _); [|done]. cbn [fst]. case_bool_decide; [apply retire_moves|done].
  - unfold AA23DisconnectSubscriber. destruct (aa23FindSubscriber _ _); [|done]. cbv zeta.
    set (r1 := aa23ReleaseMastersWhere _ _). assert (host_moves r r1) as H1 by (apply core_moves; unfold r1; by rewrite release_masters_core).
    etransitivity; [exact H1|]. etransitivity; [apply (retire_records_moves AA23RetireRevoked (fun rec => AA23Subscriber (AA23Key (rRegistered rec)) =? id))|].
    destruct (aa23FindSubscriber _ _); [|done]. apply core_moves, forget_core.
  - unfold AA23Reset. etransitivity; [|apply retire_records_moves]. apply core_moves, release_masters_core.
  - unfold AA23BindMaster. repeat (destruct (_ : bool); [exact (host_moves_refl r)|]). exact (host_moves_refl r).
  - unfold AA23ReleaseMaster. destruct (_ && _); exact (host_moves_refl r).
  - exact (retire_where_moves _ _ (set_conflicts _ r)).
  - exact (host_moves_refl r).
  - apply renew_moves.
  - apply advance_source_moves.
  - apply expire_due_moves.
  - apply bind_worker_moves.
  - apply worker_terminated_moves.
  - apply abort_moves.
  - apply publish_moves.
  - apply observe_ack_moves.
  - apply host_moves_pool, reclaim_moves.
Qed.

(** ** What workers do to the pool *)

(** Only the pin mark of a slot. *)
Definition marks (s s' : aa23Slot) : Prop := exists b, s' = with_pinned b s.

Lemma with_pinned_same s : with_pinned (aa23Pinned s) s = s.
Proof. by destruct s. Qed.

Lemma unpin_moves ref i p : pool_moves p (alter (unpin_slot ref) i p).
Proof. apply pool_moves_alter. intros s _. unfold unpin_slot. destruct (_ =? _); [apply moves_pinned|done]. Qed.

Lemma view_step_moves v p w : pool_moves p (view_step v p w).1.
Proof.
  destruct v; cbn [view_step fst]; try exact (pool_moves_refl _).
  - unfold AA23AdvanceStream. destruct (_ <=? _); [done|]. destruct (wPinActive w); cbn; [apply unpin_moves|done].
  - unfold AA23SelectProvisional. destruct (aa23Observe _ _) as [clock err]. destruct err; [done|]. cbv zeta.
    do 2 (destruct (_ : bool); [done|]). destruct (wPinActive _); [done|]. destruct (_ =? _); [done|].
    destruct (aa23Resolve _ _) as [[i s]|] eqn:E; [|done]. apply resolve_Ok in E as (_ & Hi & _).
    destruct (_ && _); [done|]. destruct (validity_check _ _); [done|]. cbn. apply (pool_moves_insert _ _ s); [done|apply moves_pinned].
  - unfold Pin_Release. destruct pin as [key|]; [|done]. destruct (_ || _); [done|]. cbv zeta. cbn. apply unpin_moves.
Qed.
