(* ===== verification/PlanSafety.v ===== *)
(** What the host and its workers never do (src/localworker/aa23_plans.go):
    whatever the order of the calls and however often a slot is used again, a
    pin answers from the one candidate prepared under its identity. *)

From S2P Require Import Prelude Errors Wire PlanTypes PlanCodec PlanOverlap PlanPool PlanRegistry PlanWorker PlanSystem.
#[local] Open Scope list_scope.
#[local] Open Scope Z_scope.

(** ** Limits and candidates *)

(** The range of the fields. *)
Definition typed (l : AA23Limits) : Prop :=
  Forall (fun v => 0 <= v < 2 ^ 32)
    [AA23MaxPlanSlots l; AA23MaxEntriesPerPlan l; AA23MaxRequestBytes l; AA23MaxEncodedResponseBytes l; AA23MaxPlanBytes l].

(** What the limits allow. *)
Definition bounded (l : AA23Limits) : Prop :=
  0 < AA23MaxPlanSlots l <= 2 ^ 26 /\ 0 < AA23MaxEntriesPerPlan l <= 2 ^ 20 /\ 0 < AA23MaxPlanBytes l <= 2 ^ 26 /\
  AA23MaxRequestBytes l <= 255 /\ AA23MaxEncodedResponseBytes l <= 514.

Lemma limits_bounded l : typed l -> limits_validate l = None -> bounded l.
Proof.
  unfold typed, limits_validate. rewrite !Forall_cons. intros (Hs & He & Hq & Hr & Hb & _).
  destruct (_ || _) eqn:E0; [done|]. apply orb_false_iff in E0 as [E0 _].
  repeat (apply orb_false_iff in E0 as [E0 ?%Z.eqb_neq]). apply Z.eqb_neq in E0.
  destruct (_ || _); [done|]. unfold aa23MaxNativeLength, aa23MaxEncodedResponse. destruct (_ || _) eqn:E1; [done|].
  apply orb_false_iff in E1 as [E1%Z.ltb_ge E2%Z.ltb_ge]. destruct (_ <? _); [done|].
  unfold aa23EntryAccountingBytes, aa23PoolByteCeiling. cbv zeta.
  rewrite (wrap_small 64 (AA23MaxEntriesPerPlan l * 64)) by lia. rewrite wrap_small by lia.
  destruct (_ || _) eqn:E3; [done|]. apply orb_false_iff in E3 as [E3 E4%Z.ltb_ge]. apply orb_false_iff in E3 as [_ E3%Z.ltb_ge].
  intros _. unfold aa23MaxNativeLength in E2. assert (2 ^ 26 / (AA23MaxPlanBytes l + AA23MaxEntriesPerPlan l * 64) <= 2 ^ 26) as D.
  { apply Z.div_le_upper_bound; nia. }
  unfold bounded. repeat split; lia.
Qed.

(** What the worker may rely on in a candidate. *)
Definition entry_ok (e : AA23PlanEntry) : Prop :=
  AA23AllowedPhase e = AA23PhaseResponse /\ aa23ValidateEncodedResponse (AA23EncodedResponse e) = None.

Definition candidate_ok (l : AA23Limits) (c : AA23PlanCandidate) : Prop :=
  Forall entry_ok (AA23Entries c) /\ ForallOrdPairs apart (AA23Entries c) /\
  len (AA23Entries c) <= AA23MaxEntriesPerPlan l /\ plan_bytes (AA23Entries c) <= AA23MaxPlanBytes l.

Lemma validate_entry_ok e a l :
  bounded l -> aa23ValidateEntry e a l = None -> entry_ok e /\ len (AA23Request e) <= 255 /\ len (AA23EncodedResponse e) <= 514.
Proof.
  intros (_ & _ & _ & Hq & Hr). unfold aa23ValidateEntry. destruct (negb _); [done|].
  destruct (negb (bool_decide (_ = AA23PhaseResponse))) eqn:Ep; [done|]. apply negb_false_iff, bool_decide_eq_true in Ep.
  destruct (negb _); [done|]. destruct (if AA23Any _ then _ else _ : bool); [done|]. destruct (negb _); [done|].
  destruct (Z.ltb_spec (AA23MaxRequestBytes l) (len (AA23Request e))); [done|]. destruct (_ =? _); [done|].
  destruct (_ || _) eqn:Es; [done|]. apply orb_false_iff in Es as [E1%Z.ltb_ge E2%Z.ltb_ge]. intros Hw. split; [by split|lia].
Qed.

Lemma validate_entries_ok entries a total l :
  bounded l -> 0 <= total <= AA23MaxPlanBytes l -> validate_entries entries a total l = None ->
  Forall entry_ok entries /\ total + plan_bytes entries <= AA23MaxPlanBytes l.
Proof.
  intros Hl. revert total. induction entries as [|e entries IH]; intros total Ht; cbn; [split; [constructor|lia]|].
  destruct (aa23ValidateEntry e a l) eqn:Ev; [done|]. destruct (validate_entry_ok _ _ _ Hl Ev) as (He & Hq & Hr).
  pose proof (len_nonneg (AA23Request e)). pose proof (len_nonneg (AA23EncodedResponse e)). destruct Hl as (_ & _ & Hb & _).
  set (q := len (AA23Request e)) in *. set (a0 := len (AA23EncodedResponse e)) in *.
  assert (wrap 64 (total + wrap 64 (q + a0)) = total + (q + a0)) as -> by (rewrite (wrap_small 64 (q + a0)), wrap_small by lia; done).
  destruct (Z.ltb_spec (AA23MaxPlanBytes l) (total + (q + a0))); [done|].
  intros Hrest. destruct (IH (total + (q + a0)) ltac:(lia) Hrest) as [Hf Hp]. split; [by constructor|lia].
Qed.

Lemma validated_ok c r : bounded (aa23Limits r) -> aa23ValidateCandidate c r = None -> candidate_ok (aa23Limits r) c.
Proof.
  intros Hl. unfold aa23ValidateCandidate. cbv zeta. destruct (_ || _); [done|]. destruct (policy_validate _); [done|].
  destruct (_ =? _); [done|]. destruct (Z.ltb_spec (AA23MaxEntriesPerPlan (aa23Limits r)) (len (AA23Entries c))); [done|].
  destruct (validate_entries _ _ _ _) eqn:E; [done|]. destruct (aa23PlanOverlaps _) eqn:Eo; [done|]. intros _.
  apply plan_overlaps_apart in Eo. apply validate_entries_ok in E as [Hf Hp]; [|done|destruct Hl as (_ & _ & ? & _); lia].
  split; [done|]. split; [done|]. lia.
Qed.

(** ** The invariant *)

(** A slot that is not free holds the candidate prepared there. *)
Definition slot_ok (l : AA23Limits) (prep : list (AA23SlotRef * AA23PlanCandidate)) (i : nat) (s : aa23Slot) : Prop :=
  in_range s /\ length (aa23Entries s) = Z.to_nat (AA23MaxEntriesPerPlan l) /\ len (aa23Bytes s) = AA23MaxPlanBytes l /\
  (forall inc c, (mkRef (Z.of_nat i) inc, c) ∈ prep -> inc <= aa23Incarnation s /\ (aa23State s = AA23SlotFree -> inc < aa23Incarnation s)) /\
  (aa23State s <> AA23SlotFree -> exists c, (mkRef (Z.of_nat i) (aa23Incarnation s), c) ∈ prep /\ aa23Identity s = cIdentity c /\
     vPlanExpiry (aa23Validity s) = AA23PlanExpiry c /\ holds_entries s (AA23Entries c)).

Definition pool_ok (l : AA23Limits) prep (pool : AA23Pool) : Prop :=
  length pool = Z.to_nat (AA23MaxPlanSlots l) /\ forall i s, pool !! i = Some s -> slot_ok l prep i s.

(** Candidates never share a slot's incarnation, nor a worker and a plan
    generation. *)
Definition prepared_ok (r : AA23Registry) (prep : list (AA23SlotRef * AA23PlanCandidate)) : Prop :=
  (aa23WorkerBound r = true -> aa23Worker r = aa23WorkerTop r) /\
  (forall ref c, (ref, c) ∈ prep -> candidate_ok (aa23Limits r) c /\ AA23Worker (cIdentity c) <= aa23WorkerTop r /\
     (AA23Worker (cIdentity c) = aa23WorkerTop r -> AA23Plan (cIdentity c) <= aa23PlanTop r)) /\
  forall ref c ref' c', (ref, c) ∈ prep -> (ref', c') ∈ prep ->
    ref = ref' \/ (AA23Worker (cIdentity c) = AA23Worker (cIdentity c') /\ AA23Plan (cIdentity c) = AA23Plan (cIdentity c')) ->
    ref = ref' /\ c = c'.

Definition nref (ref : AA23SlotRef) : AA23SlotRef := mkRef (Z.of_nat (Z.to_nat (AA23Index ref))) (AA23Incarnation ref).

(** An active pin names a candidate by its slot and its identity. *)
Definition view_ok (prep : list (AA23SlotRef * AA23PlanCandidate)) (w : AA23WorkerView) : Prop :=
  wPinActive w = true -> exists c, (nref (wPinSlot w), c) ∈ prep /\ PlanTypes.AA23Identity (wPinKey w) = cIdentity c.

Definition system_ok (s : system) : Prop :=
  bounded (aa23Limits (host s)) /\ pool_ok (aa23Limits (host s)) (prepared s) (aa23Pool (host s)) /\
  prepared_ok (host s) (prepared s) /\ Forall (view_ok (prepared s)) (workers s).

Lemma slot_ok_moves l prep i s s' : slot_ok l prep i s -> moves s s' -> slot_ok l prep i s'.
Proof.
  intros (Hr & He & Hb & Hp & Hc) Hm. destruct (Hm Hr) as (Hr' & [Se Sb] & H).
  split; [done|]. split; [congruence|]. split; [congruence|]. destruct H as [(Hi & (Pi & Pv & Pc) & Hf & _)|(Hi & Hf)].
  - rewrite Hi. split; [intros inc c Hin; rewrite Hf; exact (Hp inc c Hin)|]. intros Hn. destruct (Hc ltac:(by rewrite <- Hf)) as (c & Hin & Hid & Hv & Hh).
    exists c. split; [done|]. split; [congruence|]. split; [congruence|].
    destruct Hh as [Hn' Hh]. split; [congruence|]. intros k e Hk. destruct (Hh k e Hk) as (rec & Hrec & Hre).
    exists rec. split; [congruence|]. unfold records_entry, record_request, record_reply in *. by rewrite Sb.
  - split; [intros inc c Hin; destruct (Hp inc c Hin) as [Hle _]; split; [lia|intros _; lia]|]. by rewrite Hf.
Qed.

Lemma pool_ok_moves l prep p p' : pool_ok l prep p -> pool_moves p p' -> pool_ok l prep p'.
Proof.
  intros [Hl Hs] [Hlen Hm]. split; [congruence|]. intros i s' Hs'.
  destruct (lookup_lt_is_Some_2 p i) as [s Hi]; [rewrite <- Hlen; by eapply lookup_lt_Some|].
  destruct (Hm i s Hi) as (s2 & Hs2 & M). assert (s2 = s') as -> by congruence. by apply (slot_ok_moves _ _ _ s), M; apply Hs.
Qed.

Lemma prepared_ok_frame r r' prep : prepared_ok r prep -> frame r r' -> prepared_ok r' prep.
Proof.
  intros (Hw & Hp & Hu) (L & W & T & B). split; [auto|]. split; [|done]. intros ref c Hin. destruct (Hp ref c Hin) as (Hc & Hle & Ht).
  rewrite L. split; [done|]. split; [lia|]. intros E. rewrite T by lia. apply Ht. lia.
Qed.

Lemma host_moves_ok s r : system_ok s -> host_moves (host s) r -> system_ok (mkSystem r (workers s) (prepared s)).
Proof.
  intros (Hl & Hp & Hq & Hv) [M F]. pose proof F as (L & _). unfold system_ok. cbn [host workers prepared]. rewrite L.
  split; [done|]. split; [by eapply pool_ok_moves|]. split; [by eapply prepared_ok_frame|done].
Qed.

(** ** Preparation *)

Lemma view_ok_more prep prep' w : (forall x, x ∈ prep -> x ∈ prep') -> view_ok prep w -> view_ok prep' w.
Proof. intros Hs Hv Ha. destruct (Hv Ha) as (c & Hin & Hid). exists c. split; [by apply Hs|done]. Qed.

Lemma prepare_Err c now r r' err : AA23PreparePlan c now r = (r', Err err) -> host_moves r r'.
Proof.
  unfold AA23PreparePlan. destruct (aa23ObserveClock now r) as [r1 [?|]] eqn:H; apply observed_moves in H; [by intros [= <- _]|].
  destruct (aa23ValidateCandidate _ _); [by intros [= <- _]|]. destruct (aa23CheckPublishable _ _ _ _); [|by intros [= <- _]].
  destruct (aa23CheckLease _ _ _); [by intros [= <- _]|]. destruct (_ =? _); [by intros [= <- _]|]. destruct (_ <=? _); [by intros [= <- _]|].
  destruct (find_index _ _); [|by intros [= <- _]]. destruct (_ !! _); [done|by intros [= <- _]].
Qed.

Lemma publishable_worker identity expiry now r k :
  aa23CheckPublishable identity expiry now r = Ok k -> aa23WorkerBound r = true /\ AA23Worker identity = aa23Worker r.
Proof.
  unfold aa23CheckPublishable. destruct (aa23WorkerBound r); [|done]. cbn [negb]. destruct (Z.eqb_spec (AA23Worker identity) (aa23Worker r)); [|done]. done.
Qed.

Lemma prepare_Ok c now r r' ref :
  AA23PreparePlan c now r = (r', Ok ref) ->
  exists r1 k i s, host_moves r r1 /\ aa23ValidateCandidate c r1 = None /\
    (aa23WorkerBound r1 = true /\ AA23Worker (cIdentity c) = aa23Worker r1) /\ aa23PlanTop r1 < AA23Plan (cIdentity c) /\
    aa23Pool r1 !! i = Some s /\ aa23State s = AA23SlotFree /\ ref = aa23Ref i s /\
    r' = set_pool (<[i := prepared_slot c (aa23Records r1 !!! k) r1 s]> (aa23Pool r1)) (set_plan_top (AA23Plan (cIdentity c)) r1).
Proof.
  unfold AA23PreparePlan. destruct (aa23ObserveClock now r) as [r1 [?|]] eqn:H; apply observed_moves in H; [done|].
  destruct (aa23ValidateCandidate _ _) eqn:Ev; [done|]. destruct (aa23CheckPublishable _ _ _ _) as [k|] eqn:Ec; [|done].
  destruct (aa23CheckLease _ _ _); [done|]. destruct (_ =? _); [done|]. destruct (Z.leb_spec (AA23Plan (cIdentity c)) (aa23PlanTop r1)); [done|].
  destruct (find_index _ _) as [i|] eqn:Ef; [|done]. apply find_index_Some in Ef as (x & Hx & Hf & _). apply bool_decide_eq_true in Hf.
  rewrite Hx. intros [= <- <-]. exists r1, k, i, x. apply publishable_worker in Ec. repeat (split; [done|]). split; [|done].
  unfold aa23Ref, prepared_slot, aa23Copy. by destruct (copy_entries _ _ _ _ _).
Qed.

(** The slot that was filled holds its candidate. *)
Lemma prepared_slot_holds l prep i c rec r s :
  bounded l -> candidate_ok l c -> slot_ok l prep i s ->
  let s' := prepared_slot c rec r s in
  in_range s' /\ length (aa23Entries s') = Z.to_nat (AA23MaxEntriesPerPlan l) /\ len (aa23Bytes s') = AA23MaxPlanBytes l /\
  aa23Incarnation s' = aa23Incarnation s /\ aa23State s' = AA23SlotWriting /\ aa23Identity s' = cIdentity c /\
  vPlanExpiry (aa23Validity s') = AA23PlanExpiry c /\ holds_entries s' (AA23Entries c).
Proof.
  intros (_ & He & Hb & _) (_ & _ & Hn & Hp) (Hr & Hle & Hlb & _). unfold prepared_slot.
  set (s0 := mkSlot _ _ _ _ _ _ _ _ _).
  destruct (copy_holds (AA23Entries c) s0) as (Hh & L1 & L2);
    [cbn [s0 aa23Bytes aa23Entries]; rewrite ?Hlb, ?Hle; unfold len in *; lia..|].
  unfold in_range. cbv zeta. rewrite L1, L2. split; [|split; [exact Hle|split; [exact Hlb|]]].
  - unfold aa23Copy, s0. by destruct (copy_entries _ _ _ _ _).
  - split_and!; [..|exact Hh]; unfold aa23Copy, s0; by destruct (copy_entries _ _ _ _ _).
Qed.

Lemma prepare_preserves c now s r ref :
  system_ok s -> AA23PreparePlan c now (host s) = (r, Ok ref) -> system_ok (mkSystem r (workers s) ((ref, c) :: prepared s)).
Proof.
  intros Hok E. apply prepare_Ok in E as (r1 & k & i & x & M & Ev & [Hbound Hw] & Ht & Hi & Hfree & -> & ->).
  apply (host_moves_ok s r1 Hok) in M as (Hl & [Hlen Hp] & (Hwt & Hc & Hu) & Hv). cbn [host workers prepared] in *.
  apply (validated_ok c r1 Hl) in Ev. specialize (Hwt Hbound).
  assert (Hix : aa23Ref i x = mkRef (Z.of_nat i) (aa23Incarnation x)).
  { unfold aa23Ref. rewrite wrap_small; [done|]. apply lookup_lt_Some in Hi. destruct Hl as (Hs & _). lia. }
  rewrite Hix. clear Hix. pose proof (Hp i x Hi) as Hx.
  pose proof (prepared_slot_holds _ _ _ _ (aa23Records r1 !!! k) r1 _ Hl Ev Hx) as (R & L1 & L2 & Ei & Es & Eid & Ev' & Hh).
  destruct Hx as (_ & _ & _ & Hold & _).
  set (x' := prepared_slot c _ r1 x) in *. unfold system_ok. cbn [host workers prepared aa23Limits aa23Pool set_pool set_plan_top].
  split; [done|]. split; [split|split].
  - by rewrite length_insert.
  - intros j s' Hj. destruct (decide (i = j)) as [<-|Hne].
    + rewrite list_lookup_insert_eq in Hj by (by eapply lookup_lt_Some). injection Hj as <-.
      split; [done|]. split; [done|]. split; [done|]. rewrite Ei, Es. split.
      * intros inc c'. rewrite elem_of_cons. intros [[= -> ->]|Hin]; [split; [lia|done]|]. destruct (Hold inc c' Hin) as [? _]. split; [lia|done].
      * intros _. exists c. split; [by left|done].
    + rewrite list_lookup_insert_ne in Hj by done. destruct (Hp j s' Hj) as (R' & A & B & C & D).
      split; [done|]. split; [done|]. split; [done|]. split.
      * intros inc c'. rewrite elem_of_cons. intros [[= Hn _ _]|Hin]; [lia|by apply (C inc c')].
      * intros Hf. destruct (D Hf) as (c' & Hin & Hrest). exists c'. split; [by right|done].
  - split; [done|]. split.
    + intros ref' c'. rewrite elem_of_cons. intros [[= -> ->]|Hin]; [split; [exact Ev|split; cbn; lia]|].
      destruct (Hc ref' c' Hin) as (A & B & C). split; [exact A|]. split; [exact B|]. intros Eq. specialize (C Eq). cbn. lia.
    + assert (Hnew : forall ref' c', (ref', c') ∈ prepared s ->
        mkRef (Z.of_nat i) (aa23Incarnation x) = ref' \/ (AA23Worker (cIdentity c) = AA23Worker (cIdentity c') /\ AA23Plan (cIdentity c) = AA23Plan (cIdentity c')) -> False).
      { intros ref' c' Hin [<-|[Eq1 Eq2]]; [destruct (Hold _ _ Hin) as [_ Hf]; specialize (Hf Hfree); lia|].
        destruct (Hc ref' c' Hin) as (_ & _ & C). specialize (C ltac:(lia)). lia. }
      intros ra ca rb cb. rewrite !elem_of_cons. intros [[= -> ->]|Ha] [[= -> ->]|Hb] Hor; [done| | |by eapply Hu].
      * destruct (Hnew _ _ Hb Hor).
      * destruct (Hnew _ _ Ha). destruct Hor as [->|[-> ->]]; [by left|by right].
  - eapply Forall_impl; [exact Hv|]. intros w. apply view_ok_more. intros y. by right.
Qed.

(** ** The workers *)

(** What the operations that keep the pin have in common. *)
Definition same_pin (w w' : AA23WorkerView) : Prop :=
  wPinActive w' = wPinActive w /\ wPinKey w' = wPinKey w /\ wPinSlot w' = wPinSlot w.

Lemma view_ok_same prep w w' : same_pin w w' -> view_ok prep w -> view_ok prep w'.
Proof. intros (A & K & S) Hv. unfold view_ok. by rewrite A, K, S. Qed.

Lemma same_pin_adopt notice now pool w : same_pin w (AA23AdoptPlan notice now pool w).1.
Proof.
  unfold AA23AdoptPlan. destruct (aa23Observe _ _) as [clock [?|]]; [done|]. destruct (aa23Resolve (pnSlot notice) pool) as [[? s]|]; [|done]. cbv zeta.
  repeat (destruct (negb _); [done|]). destruct (_ <=? _); [done|]. destruct (validity_check _ _); [done|].
  destruct (_ =? _); [done|]. by destruct (aa23Resolve _ _) as [[? ?]|].
Qed.

Lemma same_pin_revocation notice pool w : same_pin w (AA23ObserveRevocation notice pool w).1.
Proof.
  unfold AA23ObserveRevocation. destruct (aa23Resolve _ _) as [[? s]|]; [|done].
  do 3 (destruct (negb _); [done|]). destruct (_ <? _); [done|]. cbv zeta. by destruct (bool_decide _), (bool_decide _).
Qed.

Lemma same_pin_live pin expect now pool w : same_pin w (aa23Live pin expect now pool w).1.
Proof.
  unfold aa23Live. destruct pin; [|done]. destruct (aa23Observe _ _) as [clock [?|]]; [done|]. cbv zeta.
  destruct (_ || _); [done|]. do 2 (destruct (negb _); [done|]). destruct (aa23Resolve _ _) as [[? s]|]; [|done].
  destruct (_ && _); [done|]. destruct (aa23Revoked _); [done|]. by destruct (validity_check _ _).
Qed.

Lemma nref_lookup l prep pool ref i s :
  pool_ok l prep pool -> aa23Resolve ref pool = Ok (i, s) -> slot_ok l prep i s /\ nref ref = mkRef (Z.of_nat i) (aa23Incarnation s) /\ pool !! i = Some s.
Proof. intros [_ Hp] H. apply resolve_Ok in H as (-> & Hi & ->). split; [by apply Hp|done]. Qed.

Lemma view_step_ok l prep v pool w : pool_ok l prep pool -> view_ok prep w -> view_ok prep (view_step v pool w).2.
Proof.
  intros Hp Hv. destruct v; cbn [view_step snd].
  - by apply (view_ok_same _ w), Hv; apply same_pin_adopt.
  - by apply (view_ok_same _ w), Hv; apply same_pin_revocation.
  - unfold AA23AdvanceStream. destruct (_ <=? _); [done|]. destruct (wPinActive w) eqn:E; cbn; [done|]. intros A. cbn in A. congruence.
  - unfold AA23SelectProvisional. destruct (aa23Observe _ _) as [clock [?|]]; [done|]. cbv zeta.
    do 2 (destruct (_ : bool); [done|]). destruct (wPinActive _); [done|]. destruct (_ =? _); [done|].
    destruct (aa23Resolve _ _) as [[i s]|] eqn:E; [|done]. apply (nref_lookup _ _ _ _ _ _ Hp) in E as ((_ & _ & _ & _ & Hs) & En & _).
    destruct (negb (bool_decide (aa23State s = AA23SlotPublished)) && negb (bool_decide (aa23State s = AA23SlotRetained))) eqn:Est; [done|].
    destruct (validity_check _ _); [done|]. intros _. cbn [snd fst set_pin wPinSlot wPinKey PlanTypes.AA23Identity].
    destruct Hs as (c & Hin & Hid & _); [intros Hf; rewrite Hf in Est; done|]. exists c. rewrite En. by split.
  - by apply (view_ok_same _ w), Hv; apply same_pin_live.
  - unfold Pin_Release. destruct pin; [|done]. by destruct (_ || _).
Qed.

(** ** Every reachable system is sound *)

Lemma plan_step_ok o s : system_ok s -> system_ok (plan_step o s).
Proof.
  intros Hok. destruct o as [h|c now|worker stream|i v]; cbn [plan_step].
  - apply host_moves_ok; [done|apply host_step_moves].
  - destruct (AA23PreparePlan c now (host s)) as [r [ref|err]] eqn:E.
    + by eapply prepare_preserves.
    + apply prepare_Err in E. by apply host_moves_ok.
  - unfold AA23NewWorkerView. destruct (_ || _); [done|]. destruct Hok as (A & B & C & D). split_and!; [done..|]. cbn.
    apply Forall_app. split; [done|]. by repeat constructor.
  - destruct (workers s !! i) as [w|] eqn:Ew; [|done]. pose proof Hok as (_ & Hp & _ & Hv).
    pose proof (view_step_ok _ _ v _ _ Hp (proj1 (Forall_lookup _ _) Hv _ _ Ew)) as Hw.
    pose proof (view_step_moves v (aa23Pool (host s)) w) as M. destruct (view_step v _ w) as [pool w']. cbn [fst snd] in *.
    destruct (host_moves_ok s (set_pool pool (host s)) Hok) as (A & B & C & D); [by apply host_moves_pool|].
    split_and!; [done..|]. cbn [workers prepared] in *. by apply Forall_insert.
Qed.

Lemma new_registry_ok l floor r : typed l -> AA23NewRegistry l floor = Ok r -> system_ok (mkSystem r [] []).
Proof.
  unfold AA23NewRegistry. intros Ht. destruct (limits_validate l) eqn:E; [done|]. apply limits_bounded in E; [|done]. intros [= <-].
  pose proof E as (_ & He & Hb & _). split; [done|]. split; [split|split; [split; [done|]|constructor]].
  - apply length_replicate.
  - cbn. intros i s Hs. apply lookup_replicate in Hs as [-> _]. unfold slot_ok, in_range, MaxUint64. cbn.
    split_and!; try lia; try apply length_replicate; try done.
    + unfold len. rewrite length_replicate. lia.
    + intros ? ? Hin. by apply elem_of_nil in Hin.
  - split; intros ? ? *; [intros Hin|intros Hin _ _]; by apply elem_of_nil in Hin.
Qed.

Lemma plan_reachable_ok l s : typed l -> reachable l s -> system_ok s.
Proof.
  intros Ht (floor & r & ops & E & ->). unfold run. apply (new_registry_ok _ _ _ Ht) in E. revert E. generalize (mkSystem r [] []). 
  induction ops as [|o ops IH]; intros s0 H0; [done|]. cbn [foldl]. by apply IH, plan_step_ok.
Qed.

(** ** What a pin answers *)

Lemma key_matches_eq k o : key_matches k o = true -> k = o.
Proof.
  unfold key_matches. destruct (Z.eqb_spec (AA23Subscriber k) (AA23Subscriber o)); [|done]. destruct (byte_eqb_spec (AA23Address k) (AA23Address o)); [|done].
  cbn. intros ?%Z.eqb_eq. destruct k, o; cbn in *; congruence.
Qed.

Lemma identity_matches_eq i o : identity_matches i o = true -> i = o.
Proof.
  unfold identity_matches. destruct (key_matches _ _) eqn:E; [|done]. apply key_matches_eq in E.
  destruct (Z.eqb_spec (AA23Worker i) (AA23Worker o)); [|done]. destruct (Z.eqb_spec (AA23Stream i) (AA23Stream o)); [|done].
  destruct (Z.eqb_spec (AA23Plan i) (AA23Plan o)); [|done]. cbn. intros ?%Z.eqb_eq. destruct i, o; cbn in *; congruence.
Qed.

Lemma validity_expiry v now : validity_check v now = None -> AA23Tick now < vPlanExpiry v.
Proof. unfold validity_check. destruct (negb _); [done|]. destruct (Z.leb_spec (vPlanExpiry v) (AA23Tick now)); [done|]. done. Qed.

(** A pin is live only on the slot its candidate was put into. *)
Lemma live_slot s i w pin expect now w' x :
  system_ok s -> workers s !! i = Some w -> aa23Live pin expect now (aa23Pool (host s)) w = (w', Ok x) ->
  exists ref c, (ref, c) ∈ prepared s /\ cIdentity c = PlanTypes.AA23Identity expect /\ AA23Tick now < AA23PlanExpiry c /\
    aa23Identity x = cIdentity c /\ candidate_ok (aa23Limits (host s)) c /\ holds_entries x (AA23Entries c) /\
    length (aa23Entries x) = Z.to_nat (AA23MaxEntriesPerPlan (aa23Limits (host s))) /\ len (aa23Bytes x) = AA23MaxPlanBytes (aa23Limits (host s)) /\
    forall ref' c', (ref', c') ∈ prepared s -> cIdentity c' = PlanTypes.AA23Identity expect -> ref' = ref /\ c' = c.
Proof.
  intros (Hl & Hp & (_ & Hc & Hu) & Hv) Hw. unfold aa23Live. destruct pin as [key|]; [|done].
  destruct (aa23Observe _ _) as [clock [?|]]; [done|]. cbv zeta. cbn [set_wclock wPinActive wPinKey wPinSlot].
  destruct (negb (wPinActive w) || negb (bool_decide (wPinKey w = key))) eqn:Ea; [done|]. apply orb_false_iff in Ea as [Ea%negb_false_iff Ek%negb_false_iff].
  apply bool_decide_eq_true in Ek. destruct (identity_matches _ _) eqn:Ei; [|done]. apply identity_matches_eq in Ei. cbn [negb].
  destruct (negb _); [done|]. destruct (aa23Resolve _ _) as [[j y]|] eqn:Er; [|done].
  apply (nref_lookup _ _ _ _ _ _ Hp) in Er as ((_ & Le & Lb & _ & Hs) & En & _).
  destruct (negb (bool_decide (aa23State y = AA23SlotPublished)) && negb (bool_decide (aa23State y = AA23SlotRetained))) eqn:Est; [done|].
  destruct (aa23Revoked _); [done|]. destruct (validity_check _ _) eqn:Ev; [done|]. intros [= _ <-]. apply validity_expiry in Ev.
  destruct Hs as (c & Hin & Hid & Hx & Hh); [intros Hf; rewrite Hf in Est; done|].
  destruct (proj1 (Forall_lookup _ _) Hv _ _ Hw Ea) as (c' & Hin' & Hid'). rewrite En in Hin'.
  destruct (Hu _ _ _ _ Hin Hin' (or_introl eq_refl)) as [_ <-]. rewrite Ek in Hid'.
  exists (mkRef (Z.of_nat j) (aa23Incarnation y)), c. split; [done|]. split; [congruence|]. split; [lia|]. split; [done|].
  split; [by apply (Hc _ _ Hin)|]. split; [done|]. split; [done|]. split; [done|]. intros ref' c'' Hin'' Hid''.
  apply (Hu _ _ _ _ Hin'' Hin). right. rewrite Hid'', <- Hid', <- Ei. done.
Qed.

(** The entry a record index names. *)
Lemma held_entry x entries entry r :
  holds_entries x entries -> 0 <= entry -> entry_record entry x = Ok r ->
  exists e, entries !! Z.to_nat entry = Some e /\ records_entry x r e.
Proof.
  intros [Hn He] H0. unfold entry_record. destruct (Z.leb_spec (aa23EntryCount x) entry) as [|Hlt]; [done|].
  destruct (lookup_lt_is_Some_2 entries (Z.to_nat entry)) as [e Hi]; [unfold len in Hn; lia|].
  destruct (He _ _ Hi) as (r' & Hr & Hre). rewrite Hr. intros [= <-]. by exists e.
Qed.

(** A symbol of a reply. *)
Lemma reply_symbol x r e offset :
  len (aa23Bytes x) < 2 ^ 32 -> records_entry x r e -> 0 <= offset < aa23ReplyLen r ->
  AA23EncodedResponse e !! Z.to_nat offset = Some (nth (Z.to_nat (wrap 32 (aa23ReplyStart r + offset))) (aa23Bytes x) x00).
Proof.
  intros Hb (_ & _ & _ & _ & _ & _ & Hl & _ & Hs & _ & Hr) Ho.
  assert (Hlen : len (record_reply x r) = aa23ReplyLen r) by (rewrite Hr; lia).
  assert (Hend : aa23ReplyStart r + offset < len (aa23Bytes x)).
  { unfold record_reply, len in Hlen. rewrite length_take, length_drop in Hlen. unfold len. lia. }
  rewrite wrap_small by lia. rewrite <- Hr. unfold record_reply. rewrite lookup_take_lt by lia. rewrite lookup_drop, <- Z2Nat.inj_add by lia.
  destruct (nth_lookup_or_length (aa23Bytes x) (Z.to_nat (aa23ReplyStart r + offset)) x00) as [E|E]; [exact E|unfold len in *; lia].
Qed.

(** The requests an entry answers. *)
Definition selects (e : AA23PlanEntry) (q : AA23RequestQuery) : bool :=
  (AA23Any (eSource e) || (sSource (eSource e) =b qSource q)) && (AA23PB e =b qPB q) && (AA23SB e =b qSB q) &&
  bool_decide (AA23Request e = qData q).

Lemma record_selects x q r e : records_entry x r e -> record_matches x q r = selects e q.
Proof.
  intros (Ha & Hs & Hp & Hb & _ & Hl & _ & _ & _ & Hq & _). unfold record_matches, selects. rewrite Ha, Hs, Hp, Hb, Hl, Hq.
  destruct (AA23Any _), (sSource _ =b _), (AA23PB _ =b _), (AA23SB _ =b _); cbn; try done;
    (destruct (Z.eqb_spec (len (AA23Request e)) (len (qData q))); [done|]; cbn; symmetry; apply bool_decide_eq_false; congruence).
Qed.

(** Two entries that answer one request overlap. *)
Lemma selects_overlap a b q : selects a q = true -> selects b q = true -> aa23EntriesOverlap a b = true.
Proof.
  unfold selects, aa23EntriesOverlap. intros Ha Hb.
  repeat match goal with H : _ && _ = true |- _ => apply andb_true_iff in H as [H ?] end.
  repeat match goal with H : (_ =b _) = true |- _ => apply byte_eqb_eq in H | H : bool_decide _ = true |- _ => apply bool_decide_eq_true in H end.
  assert (AA23PB a = AA23PB b) as -> by congruence. assert (AA23SB a = AA23SB b) as -> by congruence.
  rewrite bool_decide_eq_true_2 by congruence. rewrite !byte_eqb_refl. cbn.
  destruct (AA23Any (eSource a)), (AA23Any (eSource b)); cbn in *; try done.
  apply byte_eqb_eq in Ha, Hb. by rewrite Ha, Hb, byte_eqb_refl.
Qed.

(** The first entry that answers is the only one. *)
Lemma find_selecting x entries q i :
  holds_entries x entries -> len entries <= len (aa23Entries x) -> ForallOrdPairs apart entries ->
  find_index (record_matches x q) (take (Z.to_nat (aa23EntryCount x)) (aa23Entries x)) = Some i <->
  exists e, entries !! i = Some e /\ selects e q = true.
Proof.
  intros [Hn He] Hl Hap. rewrite Hn. set (records := take _ _).
  assert (Hrec : forall k r, records !! k = Some r -> exists e, entries !! k = Some e /\ record_matches x q r = selects e q).
  { intros k r Hk. unfold records in Hk. apply lookup_take_Some in Hk as [Hk Hlt].
    destruct (lookup_lt_is_Some_2 entries k) as [e Hi]; [unfold len in Hlt; lia|]. destruct (He k e Hi) as (r' & Hr' & Hre).
    exists e. split; [done|]. apply record_selects. congruence. }
  assert (Hent : forall k e, entries !! k = Some e -> exists r, records !! k = Some r).
  { intros k e Hk. destruct (He k e Hk) as (r & Hr & _). exists r. unfold records. rewrite lookup_take_lt; [done|].
    apply lookup_lt_Some in Hk. unfold len. lia. }
  assert (Hone : forall j k a b, entries !! j = Some a -> entries !! k = Some b -> selects a q = true -> selects b q = true -> (j < k)%nat -> False).
  { intros j k a b Ha Hb Sa Sb Hjk. pose proof (proj1 (pairs_lookup entries) Hap j k a b Ha Hb Hjk) as E. unfold apart in E.
    by rewrite (selects_overlap a b q) in E. }
  split.
  - intros E. apply find_index_Some in E as (r & Hr & Hm & _). destruct (Hrec i r Hr) as (e & Hi & Es). exists e. split; congruence.
  - intros (e & Hi & Es). destruct (find_index (record_matches x q) records) as [k|] eqn:Ef.
    + apply find_index_Some in Ef as (r & Hr & Hm & _). destruct (Hrec k r Hr) as (e' & Hk & Es'). rewrite Hm in Es'.
      f_equal. destruct (lt_eq_lt_dec k i) as [[Hki|Hki]|Hki]; [|done|]; [destruct (Hone k i e' e)|destruct (Hone i k e e')]; done.
    + apply find_index_None in Ef. destruct (Hent i e Hi) as (r & Hr). pose proof (proj1 (Forall_lookup _ _) Ef i r Hr) as Hf. cbn in Hf.
      destruct (Hrec i r Hr) as (e' & Hi' & E'). congruence.
Qed.

(** ** The claims *)

(** C7: Claim: whatever the host and its workers did before, and however often the
    slots were used again, a pin that answers with a symbol answers from the
    one candidate ever prepared under the identity the caller expects, before
    that plan expires: the symbol is the byte at the offset asked for of the
    response of the entry asked for, in the response phase only, and that
    response is one the protocol's encoder gives for some data. *)
Theorem pin_answers_prepared_entry l s i w pin expect entry offset phase now w' b
    (Ht : typed l) (Hr : reachable l s) (Hw : workers s !! i = Some w) (Hentry : 0 <= entry) (Hoff : 0 <= offset)
    (Hans : AA23ResponseSymbol pin expect entry offset phase now (aa23Pool (host s)) w = (w', Ok b)) :
  exists ref c e,
    (ref, c) ∈ prepared s /\ cIdentity c = PlanTypes.AA23Identity expect /\
    (forall ref' c', (ref', c') ∈ prepared s -> cIdentity c' = PlanTypes.AA23Identity expect -> ref' = ref /\ c' = c) /\
    AA23Tick now < AA23PlanExpiry c /\ phase = AA23PhaseResponse /\
    AA23Entries c !! Z.to_nat entry = Some e /\ AA23EncodedResponse e !! Z.to_nat offset = Some b /\
    aa23ValidateEncodedResponse (AA23EncodedResponse e) = None.
Proof.
  revert Hans. unfold AA23ResponseSymbol. destruct (aa23Live pin expect now (aa23Pool (host s)) w) as [w1 [x|]] eqn:El; [|done].
  pose proof (plan_reachable_ok l s Ht Hr) as Hok. destruct (live_slot _ _ _ _ _ _ _ _ Hok Hw El) as (ref & c & Hin & Hid & Hexp & _ & (Hf & _) & Hh & _ & Hb & Hone).
  destruct Hok as ((_ & _ & Hmax & _) & _). cbn [rbind]. unfold response_symbol. destruct (entry_record entry x) as [r|] eqn:Ee; [|done]. cbn [rbind].
  destruct (held_entry _ _ _ _ Hh Hentry Ee) as (e & He & Hre). destruct (negb (bool_decide (phase = aa23Phase r))) eqn:Ep; [done|].
  apply negb_false_iff, bool_decide_eq_true in Ep. destruct (Z.leb_spec (aa23ReplyLen r) offset); [done|]. intros [= _ <-].
  destruct (proj1 (Forall_lookup _ _) Hf _ _ He) as [Hph Hval]. exists ref, c, e. split_and!; try done.
  - destruct Hre as (_ & _ & _ & _ & Hp & _). congruence.
  - apply reply_symbol; [lia|done|lia].
Qed.

(** C28: Claim: a valid pin matches a request with an entry exactly when the request
    goes to the plan's address from an initiator and that entry of the
    candidate answers it, so no two entries ever do. *)
Theorem pin_match_is_lookup l s i w pin expect q now w'
    (Ht : typed l) (Hr : reachable l s) (Hw : workers s !! i = Some w)
    (Hval : AA23Validate pin expect now (aa23Pool (host s)) w = (w', None)) :
  exists ref c, (ref, c) ∈ prepared s /\ cIdentity c = PlanTypes.AA23Identity expect /\
    forall n, (AA23Match pin expect q now (aa23Pool (host s)) w).2 = Ok n <->
      qDestination q = AA23Address (AA23Registration_ (cIdentity c)) /\ aa23IsInitiatorAddress (qSource q) = true /\ 0 <= n /\
      exists e, AA23Entries c !! Z.to_nat n = Some e /\ selects e q = true.
Proof.
  revert Hval. unfold AA23Validate, AA23Match. destruct (aa23Live pin expect now (aa23Pool (host s)) w) as [w1 [x|]] eqn:El; [|done]. intros _.
  pose proof (plan_reachable_ok l s Ht Hr) as Hok. destruct (live_slot _ _ _ _ _ _ _ _ Hok Hw El) as (ref & c & Hin & Hid & _ & Hx & (_ & Hap & Hn & _) & Hh & Hl & _).
  exists ref, c. split; [done|]. split; [done|]. intros n. cbn [snd rbind]. unfold match_index. rewrite Hx.
  assert (len (AA23Entries c) <= len (aa23Entries x)) as Hle by (unfold len in *; lia).
  destruct (byte_eqb_spec (qDestination q) (AA23Address (AA23Registration_ (cIdentity c)))) as [->|Hd]; cbn [negb]; [|split; [done|by intros [? _]]].
  destruct (aa23IsInitiatorAddress (qSource q)); cbn [negb]; [|split; [done|by intros (_ & ? & _)]].
  pose proof (fun k => find_selecting x _ q k Hh Hle Hap) as Hfind. destruct (find_index _ _) as [k|]; split.
  - intros [= <-]. rewrite Nat2Z.id. split; [done|]. split; [done|]. split; [lia|]. by apply Hfind.
  - intros (_ & _ & H0 & He). apply (proj2 (Hfind _)) in He. injection He as ->. by rewrite Z2Nat.id.
  - done.
  - intros (_ & _ & _ & He). by apply (proj2 (Hfind _)) in He.
Qed.

(** ** A run *)

Definition demo_limits : AA23Limits := mkLimits 2 4 2 2 2 8 16 64 1000.
Definition demo_registration : AA23RegistrationKey := mkKey 1 x15 1.
Definition demo_policy : AA23FailurePolicy := mkPolicy AA23FailureSilence AA23FailureSilence AA23FailureSilence.
Definition demo_identity (plan : Z) : AA23PlanIdentity := mkIdentity demo_registration 7 1 plan 3.
Definition demo_now (tick : Z) : AA23ClockReading := mkReading 9 tick.

(** Two answers to 07 04, to any source and to 0x10 with one byte of data. *)
Definition demo_entries : list AA23PlanEntry :=
  [mkEntry (mkSource true x00) x15 x07 x04 0 [] AA23OperationRead AA23PhaseResponse 16 (AA23EncodeResponse [] [xb5; xa9]).1;
   mkEntry (mkSource false x10) x15 x07 x04 1 [x55] AA23OperationRead AA23PhaseResponse 16 (AA23EncodeResponse [] [x01]).1].

Definition demo_candidate (plan : Z) : AA23PlanCandidate := mkCandidate (demo_identity plan) 200 demo_policy demo_entries.

Definition demo_ops : list op :=
  [OpHost OpOpenSubscriber;
   OpHost (OpRegister (mkRegistration demo_registration 500 3 500 demo_policy) (demo_now 10));
   OpHost (OpBindWorker 7 1);
   OpPrepare (demo_candidate 1) (demo_now 11);
   OpHost (OpPublish (mkRef 0 1) (demo_now 12));
   OpNewView 7 1;
   OpWorker 0 (OpAdopt (mkPublish (mkRef 0 1) (demo_identity 1)) (demo_now 13));
   OpPrepare (demo_candidate 2) (demo_now 14);
   OpHost (OpPublish (mkRef 1 1) (demo_now 15));
   OpWorker 0 (OpSelect x15 5 (demo_now 16))].

Definition demo : system :=
  match AA23NewRegistry demo_limits 0 with
  | Ok r => run demo_ops (mkSystem r [] [])
  | Err _ => mkSystem (mkRegistry demo_limits [] new_guard 0 [] [] (fun _ => 0) (fun _ => 0) 0 (fun _ => false) false 0 0 0 0) [] []
  end.

Definition demo_key : AA23WireKey := mkWireKey (demo_identity 1) 5.
Definition demo_view : AA23WorkerView := mkView 0 0 new_guard (fun _ => 0) 0 (fun _ => zero_ref) [] false zero_wire_key zero_ref.
Definition demo_worker : AA23WorkerView := match workers demo with w :: _ => w | [] => demo_view end.

Lemma demo_reachable : reachable demo_limits demo.
Proof.
  unfold demo, reachable. destruct (AA23NewRegistry demo_limits 0) as [r|] eqn:E; [|vm_compute in E; discriminate].
  exists 0, r, demo_ops. by split.
Qed.

Lemma demo_typed : typed demo_limits.
Proof. unfold typed. repeat constructor; cbn; lia. Qed.

Lemma demo_workers : workers demo !! 0%nat = Some demo_worker.
Proof. unfold demo_worker. destruct (workers demo) as [|w ws] eqn:E; [|done]. vm_compute in E. discriminate. Qed.

Lemma outcome {A B} (p : A * B) b : p.2 = b -> p = (p.1, b).
Proof. destruct p. by intros <-. Qed.

Definition demo_symbol : AA23WorkerView * result aa23_error byte :=
  AA23ResponseSymbol (Some demo_key) demo_key 0 4 AA23PhaseResponse (demo_now 17) (aa23Pool (host demo)) demo_worker.

Lemma pin_answers_prepared_entry_witness :
  demo_symbol.2 = Ok xa6 /\
  exists ref c e,
    (ref, c) ∈ prepared demo /\ cIdentity c = demo_identity 1 /\
    (forall ref' c', (ref', c') ∈ prepared demo -> cIdentity c' = demo_identity 1 -> ref' = ref /\ c' = c) /\
    17 < AA23PlanExpiry c /\ AA23PhaseResponse = AA23PhaseResponse /\
    AA23Entries c !! 0%nat = Some e /\ AA23EncodedResponse e !! 4%nat = Some xa6 /\
    aa23ValidateEncodedResponse (AA23EncodedResponse e) = None.
Proof.
  split; [vm_compute; reflexivity|].
  apply (pin_answers_prepared_entry demo_limits demo 0 demo_worker (Some demo_key) demo_key 0 4 AA23PhaseResponse (demo_now 17)
    (AA23ResponseSymbol (Some demo_key) demo_key 0 4 AA23PhaseResponse (demo_now 17) (aa23Pool (host demo)) demo_worker).1 xa6).
  - apply demo_typed.
  - apply demo_reachable.
  - apply demo_workers.
  - lia.
  - lia.
  - apply outcome. vm_compute. reflexivity.
Defined.

Lemma pin_match_is_lookup_witness :
  exists ref c, (ref, c) ∈ prepared demo /\ cIdentity c = demo_identity 1 /\
    forall n, (AA23Match (Some demo_key) demo_key (mkQuery x10 x15 x07 x04 [x55]) (demo_now 17) (aa23Pool (host demo)) demo_worker).2 = Ok n <->
      x15 = AA23Address (AA23Registration_ (cIdentity c)) /\ aa23IsInitiatorAddress x10 = true /\ 0 <= n /\
      exists e, AA23Entries c !! Z.to_nat n = Some e /\ selects e (mkQuery x10 x15 x07 x04 [x55]) = true.
Proof.
  apply (pin_match_is_lookup demo_limits demo 0 demo_worker (Some demo_key) demo_key (mkQuery x10 x15 x07 x04 [x55]) (demo_now 17)
    (AA23Validate (Some demo_key) demo_key (demo_now 17) (aa23Pool (host demo)) demo_worker).1).
  - apply demo_typed.
  - apply demo_reachable.
  - apply demo_workers.
  - apply outcome. vm_compute. reflexivity.
Defined.
