(* ===== verification/Memory.v ===== *)
(** A memory of bytes with little-endian words: what encoding/binary and slices
    do to a byte slice inside its bounds. *)

From S2P Require Import Prelude.
#[local] Open Scope list_scope.
#[local] Open Scope Z_scope.

(** ** Little-endian words *)

Fixpoint le_value (bs : list byte) : Z :=
  match bs with
  | [] => 0
  | b :: rest => u8 b + 256 * le_value rest
  end.

Fixpoint le_bytes (n : nat) (v : Z) : list byte :=
  match n with
  | O => []
  | S n' => b8 v :: le_bytes n' (v / 256)
  end.

Lemma length_le_bytes n v : length (le_bytes n v) = n.
Proof. revert v. induction n as [|n IH]; intros v; [done|]. cbn. by rewrite IH. Qed.

Lemma len_le_bytes n v : len (le_bytes n v) = Z.of_nat n.
Proof. unfold len. by rewrite length_le_bytes. Qed.

Lemma le_value_bytes n v : le_value (le_bytes n v) = v mod 256 ^ Z.of_nat n.
Proof.
  revert v. induction n as [|n IH]; intros v; [by rewrite Z.mod_1_r|]. cbn [le_bytes le_value].
  rewrite IH, u8_b8, Nat2Z.inj_succ, Z.pow_succ_r by lia. rewrite Z.rem_mul_r by lia. done.
Qed.

Lemma le_value_small n v : 0 <= v < 256 ^ Z.of_nat n -> le_value (le_bytes n v) = v.
Proof. intros H. rewrite le_value_bytes. by apply Z.mod_small. Qed.

Lemma le_value_range bs : 0 <= le_value bs < 256 ^ len bs.
Proof.
  induction bs as [|b bs IH]; [rewrite ?len_nil; split; done|]. cbn [le_value]. pose proof (len_nonneg bs).
  rewrite len_cons, Z.pow_add_r by lia. change (256 ^ 1) with 256. pose proof (u8_range b). lia.
Qed.

Lemma le_bytes_value bs : le_bytes (length bs) (le_value bs) = bs.
Proof.
  induction bs as [|b bs IH]; [done|]. cbn [length le_bytes le_value].
  assert (b8 (u8 b + 256 * le_value bs) = b) as ->.
  { apply u8_inj. rewrite u8_b8, Z.mul_comm, Z_mod_plus_full. apply Z.mod_small, u8_range. }
  rewrite Z.mul_comm, Z.div_add by lia. pose proof (u8_range b). by rewrite (Z.div_small (u8 b)), Z.add_0_l, IH by lia.
Qed.

Lemma le_value_zero n : le_value (replicate n x00) = 0.
Proof. induction n as [|n IH]; [done|]. cbn. by rewrite IH. Qed.

(** ** Slices of a memory *)

(** [mem[off : off+n]]. *)
Definition slice (off n : Z) (mem : list byte) : list byte := take (Z.to_nat n) (drop (Z.to_nat off) mem).

(** [copy(mem[off:], bs)] for [bs] that fits. *)
Definition store (off : Z) (bs mem : list byte) : list byte :=
  take (Z.to_nat off) mem ++ bs ++ drop (Z.to_nat off + length bs) mem.

Definition get32 (off : Z) (mem : list byte) : Z := le_value (slice off 4 mem).
Definition get64 (off : Z) (mem : list byte) : Z := le_value (slice off 8 mem).
Definition put32 (off v : Z) (mem : list byte) : list byte := store off (le_bytes 4 v) mem.
Definition put64 (off v : Z) (mem : list byte) : list byte := store off (le_bytes 8 v) mem.

(** The range [off, off+n) is inside the memory. *)
Definition fits (off n : Z) (mem : list byte) : Prop := 0 <= off /\ 0 <= n /\ off + n <= len mem.

(** Two ranges have no byte in common. *)
Definition disjoint (a n b m : Z) : Prop := a + n <= b \/ b + m <= a.

Lemma len_slice off n mem : fits off n mem -> len (slice off n mem) = n.
Proof. intros (H1 & H2 & H3). unfold slice, len in *. rewrite length_take, length_drop. lia. Qed.

Lemma len_store off bs mem : fits off (len bs) mem -> len (store off bs mem) = len mem.
Proof. intros (H1 & H2 & H3). unfold store. rewrite !len_app. unfold len in *. rewrite length_take, length_drop. lia. Qed.

Lemma fits_store off bs mem a n : fits off (len bs) mem -> fits a n (store off bs mem) <-> fits a n mem.
Proof. intros H. unfold fits. by rewrite len_store. Qed.

Lemma lookup_store off bs mem i :
  fits off (len bs) mem ->
  store off bs mem !! i =
    if (Z.to_nat off <=? i)%nat && (i <? Z.to_nat off + length bs)%nat then bs !! (i - Z.to_nat off)%nat else mem !! i.
Proof.
  intros (H1 & H2 & H3). unfold store, len in *. assert (length (take (Z.to_nat off) mem) = Z.to_nat off) as L by (rewrite length_take; lia).
  destruct (Nat.leb_spec (Z.to_nat off) i), (Nat.ltb_spec i (Z.to_nat off + length bs)); cbn [andb].
  - by rewrite lookup_app_r, lookup_app_l, L by (rewrite ?L; lia).
  - rewrite lookup_app_r, lookup_app_r, lookup_drop, L by (rewrite ?L; lia). f_equal. lia.
  - rewrite lookup_app_l by lia. by apply lookup_take_lt.
  - lia.
Qed.

Lemma lookup_slice off n mem i : (i < Z.to_nat n)%nat -> slice off n mem !! i = mem !! (Z.to_nat off + i)%nat.
Proof. intros H. unfold slice. by rewrite lookup_take_lt, lookup_drop. Qed.

Lemma slice_ext off n mem mem' :
  (forall i, (Z.to_nat off <= i < Z.to_nat off + Z.to_nat n)%nat -> mem !! i = mem' !! i) -> slice off n mem = slice off n mem'.
Proof.
  intros H. apply list_eq. intros i. destruct (decide (i < Z.to_nat n)%nat).
  - rewrite !lookup_slice by done. apply H. lia.
  - unfold slice. by rewrite !lookup_take_ge by lia.
Qed.

Lemma slice_store_same off bs mem : fits off (len bs) mem -> slice off (len bs) (store off bs mem) = bs.
Proof.
  intros H. apply list_eq. intros i. unfold len. destruct (decide (i < length bs)%nat) as [Hi|Hi].
  - rewrite lookup_slice by lia. rewrite lookup_store by done.
    destruct (Nat.leb_spec (Z.to_nat off) (Z.to_nat off + i)), (Nat.ltb_spec (Z.to_nat off + i) (Z.to_nat off + length bs)); try lia.
    cbn. f_equal. lia.
  - rewrite (lookup_ge_None_2 bs) by lia. unfold slice. by rewrite lookup_take_ge by lia.
Qed.

Lemma slice_store_other off bs mem a n :
  fits off (len bs) mem -> 0 <= a -> 0 <= n -> disjoint off (len bs) a n -> slice a n (store off bs mem) = slice a n mem.
Proof.
  intros H Ha Hn Hd. apply slice_ext. intros i Hi. rewrite lookup_store by done. destruct H as (H1 & H2 & H3). unfold disjoint, len in *.
  destruct (Nat.leb_spec (Z.to_nat off) i), (Nat.ltb_spec i (Z.to_nat off + length bs)); try done. lia.
Qed.

(** A slice of a slice. *)
Lemma slice_slice a n b m mem : 0 <= a -> 0 <= b -> b + m <= n -> slice b m (slice a n mem) = slice (a + b) m mem.
Proof.
  intros Ha Hb Hm. apply list_eq. intros i. destruct (decide (i < Z.to_nat m)%nat).
  - rewrite !lookup_slice by lia. f_equal. lia.
  - unfold slice. by rewrite !lookup_take_ge by lia.
Qed.

(** A store into a range, seen from the range. *)
Lemma slice_store_inside a n off bs mem :
  fits a n mem -> a <= off -> off + len bs <= a + n -> slice a n (store off bs mem) = store (off - a) bs (slice a n mem).
Proof.
  intros (H1 & H2 & H3) Ho Hb. pose proof (len_nonneg bs) as Hbs.
  assert (len (slice a n mem) = n) as Ls by (by apply len_slice).
  apply list_eq. intros i. destruct (decide (i < Z.to_nat n)%nat) as [Hi|Hi].
  - rewrite lookup_slice, !lookup_store, lookup_slice by (done || unfold fits; lia).
    replace (Z.to_nat (off - a)) with (Z.to_nat off - Z.to_nat a)%nat by lia. unfold len in *.
    destruct (Nat.leb_spec (Z.to_nat off) (Z.to_nat a + i)), (Nat.leb_spec (Z.to_nat off - Z.to_nat a) i),
      (Nat.ltb_spec (Z.to_nat a + i) (Z.to_nat off + length bs)), (Nat.ltb_spec i (Z.to_nat off - Z.to_nat a + length bs)); cbn; try done; try lia.
    f_equal. lia.
  - rewrite !lookup_ge_None_2; [done| |].
    + assert (len (store (off - a) bs (slice a n mem)) = n) as L by (rewrite len_store; unfold fits; lia). unfold len in L. lia.
    + unfold slice. rewrite length_take. lia.
Qed.

(** ** Words in memory *)

Lemma get32_range off mem : 0 <= get32 off mem < 2 ^ 32.
Proof.
  unfold get32. pose proof (le_value_range (slice off 4 mem)) as H.
  assert (256 ^ len (slice off 4 mem) <= 256 ^ 4) as L by (apply Z.pow_le_mono_r; [lia|]; unfold len, slice; rewrite length_take; lia). lia.
Qed.

Lemma get64_range off mem : 0 <= get64 off mem < 2 ^ 64.
Proof.
  unfold get64. pose proof (le_value_range (slice off 8 mem)) as H.
  assert (256 ^ len (slice off 8 mem) <= 256 ^ 8) as L by (apply Z.pow_le_mono_r; [lia|]; unfold len, slice; rewrite length_take; lia). lia.
Qed.

Lemma get32_put32 off v mem : fits off 4 mem -> 0 <= v < 2 ^ 32 -> get32 off (put32 off v mem) = v.
Proof.
  intros H Hv. unfold get32, put32. pose proof (slice_store_same off (le_bytes 4 v) mem) as E. rewrite len_le_bytes in E.
  change (Z.of_nat 4) with 4 in E. rewrite E by done. by apply le_value_small.
Qed.

Lemma get64_put64 off v mem : fits off 8 mem -> 0 <= v < 2 ^ 64 -> get64 off (put64 off v mem) = v.
Proof.
  intros H Hv. unfold get64, put64. pose proof (slice_store_same off (le_bytes 8 v) mem) as E. rewrite len_le_bytes in E.
  change (Z.of_nat 8) with 8 in E. rewrite E by done. by apply le_value_small.
Qed.

Lemma get64_store off bs mem a : fits off (len bs) mem -> 0 <= a -> disjoint off (len bs) a 8 -> get64 a (store off bs mem) = get64 a mem.
Proof. intros H Ha Hd. unfold get64. rewrite slice_store_other; [done|done|done|lia|done]. Qed.

Lemma get32_store off bs mem a : fits off (len bs) mem -> 0 <= a -> disjoint off (len bs) a 4 -> get32 a (store off bs mem) = get32 a mem.
Proof. intros H Ha Hd. unfold get32. rewrite slice_store_other; [done|done|done|lia|done]. Qed.

(** ** Writes in ascending order *)

Definition write_all (ws : list (Z * list byte)) (mem : list byte) : list byte := foldl (fun m w => store w.1 w.2 m) mem ws.

(** The writes go up from [from] and stay below [total]. *)
Fixpoint ascending (from : Z) (ws : list (Z * list byte)) (total : Z) : Prop :=
  match ws with
  | [] => from <= total
  | w :: rest => from <= w.1 /\ ascending (w.1 + len w.2) rest total
  end.

Lemma ascending_top from ws total : ascending from ws total -> from <= total.
Proof. revert from. induction ws as [|w ws IH]; intros from; [done|]. cbn. intros [H1 H2%IH]. pose proof (len_nonneg w.2). lia. Qed.

Lemma len_write_all from ws mem : 0 <= from -> ascending from ws (len mem) -> len (write_all ws mem) = len mem.
Proof.
  revert from mem. induction ws as [|w ws IH]; intros from mem H0; [done|]. cbn. intros [H1 H2]. pose proof (ascending_top _ _ _ H2). pose proof (len_nonneg w.2).
  assert (len (store w.1 w.2 mem) = len mem) as L by (apply len_store; unfold fits; lia).
  change (len (write_all ws (store w.1 w.2 mem)) = len mem). rewrite (IH (w.1 + len w.2)); [done|lia|by rewrite L].
Qed.

(** What no write touches stays. *)
Lemma slice_write_gap from ws mem a n :
  0 <= from -> 0 <= a -> 0 <= n -> ascending from ws (len mem) -> Forall (fun w => disjoint w.1 (len w.2) a n) ws ->
  slice a n (write_all ws mem) = slice a n mem.
Proof.
  revert from mem. induction ws as [|w ws IH]; intros from mem H0 Ha Hn; [done|]. cbn. intros [H1 H2] [Hd Hws]%Forall_cons.
  pose proof (ascending_top _ _ _ H2). pose proof (len_nonneg w.2). assert (fits w.1 (len w.2) mem) as Hf by (unfold fits; lia).
  change (slice a n (write_all ws (store w.1 w.2 mem)) = slice a n mem).
  rewrite (IH (w.1 + len w.2)); [by apply slice_store_other|lia|done|done|by rewrite len_store|done].
Qed.

Lemma ascending_above from ws total a n : ascending from ws total -> a + n <= from -> Forall (fun w => disjoint w.1 (len w.2) a n) ws.
Proof.
  revert from. induction ws as [|w ws IH]; intros from; [constructor|]. cbn. intros [H1 H2] Ha. constructor; [unfold disjoint; lia|].
  apply (IH _ H2). pose proof (len_nonneg w.2). lia.
Qed.

(** What was written is there. *)
Lemma slice_write_all from ws mem w :
  0 <= from -> ascending from ws (len mem) -> w ∈ ws -> slice w.1 (len w.2) (write_all ws mem) = w.2.
Proof.
  revert from mem. induction ws as [|w' ws IH]; intros from mem H0 H Hw; [by apply elem_of_nil in Hw|]. cbn in H. destruct H as [H1 H2].
  pose proof (ascending_top _ _ _ H2) as Ht. pose proof (len_nonneg w'.2). assert (fits w'.1 (len w'.2) mem) as Hf by (unfold fits; lia).
  change (slice w.1 (len w.2) (write_all ws (store w'.1 w'.2 mem)) = w.2).
  apply elem_of_cons in Hw as [->|Hw].
  - rewrite (slice_write_gap (w'.1 + len w'.2)); [by apply slice_store_same|lia|lia|lia|by rewrite len_store|]. by apply (ascending_above _ _ _ _ _ H2).
  - apply (IH (w'.1 + len w'.2)); [lia|by rewrite len_store|done].
Qed.

(** What is above every write stays. *)
Lemma drop_write_all from ws mem k :
  0 <= from -> ascending from ws (Z.of_nat k) -> (k <= length mem)%nat -> drop k (write_all ws mem) = drop k mem.
Proof.
  revert from mem. induction ws as [|w ws IH]; intros from mem H0; [done|]. cbn. intros [H1 H2] Hk.
  pose proof (ascending_top _ _ _ H2). pose proof (len_nonneg w.2).
  assert (fits w.1 (len w.2) mem) as Hf by (unfold fits, len in *; lia).
  pose proof (len_store _ _ _ Hf) as L. change (drop k (write_all ws (store w.1 w.2 mem)) = drop k mem).
  rewrite (IH (w.1 + len w.2)); [|lia|done|unfold len in L; lia].
  apply list_eq. intros i. rewrite !lookup_drop, lookup_store by done.
  destruct (Nat.ltb_spec (k + i) (Z.to_nat w.1 + length w.2)) as [Hlt|]; [unfold len in *; lia|]. by rewrite andb_false_r.
Qed.

(** *** Over zeros *)

Lemma slice_zeros a n m : 0 <= a -> 0 <= n -> a + n <= Z.of_nat m -> slice a n (replicate m x00) = replicate (Z.to_nat n) x00.
Proof.
  intros Ha Hn Hm. unfold slice. rewrite drop_replicate, take_replicate. f_equal. lia.
Qed.

Lemma len_zeros n : len (replicate n x00) = Z.of_nat n.
Proof. unfold len. by rewrite length_replicate. Qed.
