(* ===== verification/IpcLayout.v ===== *)
(** src/localworker/aa24_ipc.go, the layout of the shared mapping: limits and
    bindings, the initialisation of a mapping and its validation.

    The mapping is a list of bytes, and whether its base is aligned an argument.
    Sizes and offsets are unsigned integers of the width the source gives them;
    a kind, which a peer may set to anything, is a 32-bit number. *)

From S2P Require Import Prelude Memory PlanTypes.
#[local] Open Scope list_scope.
#[local] Open Scope Z_scope.

Definition AA24ABIVersion : Z := 1.
Definition aa24HeaderBytes : Z := 64.
Definition aa24DescriptorBytes : Z := 64.
Definition aa24EnvelopeBytes : Z := 128.
Definition aa24BuildBytes : Z := 32.
Definition aa24Alignment : Z := 8.
Definition aa24LaneCount : Z := 4.
(** LWB1 *)
Definition aa24HeaderMagic : list byte := [x4c; x57; x42; x31].
Definition aa24OffsetVersion : Z := 4.
Definition aa24OffsetHeaderBytes : Z := 8.
Definition aa24OffsetTotalBytes : Z := 12.
Definition aa24OffsetWorker : Z := 16.
Definition aa24OffsetStream : Z := 24.
Definition aa24OffsetLaneCount : Z := 32.
Definition aa24OffsetDescBytes : Z := 36.
Definition aa24OffsetDescTable : Z := 40.
Definition aa24OffsetArena : Z := 48.
Definition aa24OffsetArenaBytes : Z := 56.
Definition aa24DescOffsetSlot : Z := 4.
Definition aa24DescOffsetCapacity : Z := 8.
Definition aa24DescOffsetReserved : Z := 12.
Definition aa24DescOffsetRegion : Z := 16.
Definition aa24DescOffsetProducer : Z := 24.
Definition aa24DescOffsetConsumer : Z := 32.
Definition aa24DescOffsetTail : Z := 40.
Definition aa24CapacityCeiling : Z := 2 ^ 20.
Definition aa24TableCeiling : Z := 2 ^ 16.
Definition aa24ReservedSlots : Z := 1.

Inductive aa24_error :=
| ErrAA24InvalidLimits | ErrAA24Identity | ErrAA24ABI | ErrAA24Build | ErrAA24MappingSize | ErrAA24Alignment | ErrAA24Bounds
| ErrAA24Overlap | ErrAA24Lane | ErrAA24Reserved | ErrAA24Index | ErrAA24Ownership | ErrAA24Full | ErrAA24ControlFull
| ErrAA24Counter | ErrAA24Truncated | ErrAA24Oversize | ErrAA24Buffer | ErrAA24Record | ErrAA24Stale | ErrAA24Revoked
| ErrAA24Expired | ErrAA24OutputFenced | ErrAA24Gap | ErrAA24Clock | ErrAA24NotFenced | ErrAA24NotAcknowledged
| ErrAA24Capacity | ErrAA24Detached | ErrAA24Mismatch.

#[export] Instance aa24_error_eq_dec : EqDecision aa24_error.
Proof. solve_decision. Defined.

(** The kinds of lanes. *)
Definition AA24LaneHostControl : Z := 1.
Definition AA24LaneWorkerControl : Z := 2.
Definition AA24LaneHostData : Z := 3.
Definition AA24LaneWorkerData : Z := 4.

(** ** Bindings, limits and expectations *)

Record AA24Binding := mkBinding { AA24Build : list byte; bWorker : Z; bStream : Z }.

Definition zero_build : list byte := replicate (Z.to_nat aa24BuildBytes) x00.

Definition binding_validate (b : AA24Binding) : option aa24_error :=
  if bool_decide (AA24Build b = zero_build) then Some ErrAA24Build
  else if (bWorker b =? 0) || (bStream b =? 0) then Some ErrAA24Identity
  else None.

Record AA24Limits := mkLimits24 {
  AA24MaxMappingBytes : Z; AA24MaxSlotBytes : Z; AA24MaxCapacity : Z; AA24MaxPayloadBytes : Z; AA24MaxArenaBytes : Z;
  AA24MaxPlans : Z; AA24MaxOutstanding : Z; AA24ControlServiceTicks : Z }.

Definition limits24_validate (l : AA24Limits) : option aa24_error :=
  if (AA24MaxMappingBytes l =? 0) || (AA24MaxCapacity l =? 0) || (AA24MaxPayloadBytes l =? 0) || (AA24MaxArenaBytes l =? 0) ||
     (AA24MaxPlans l =? 0) || (AA24MaxOutstanding l =? 0) || (AA24ControlServiceTicks l =? 0)
  then Some ErrAA24InvalidLimits
  else if (AA24MaxSlotBytes l <? aa24EnvelopeBytes) || (wrap 32 (AA24MaxSlotBytes l - aa24EnvelopeBytes) <? AA24MaxPayloadBytes l) ||
          (aa24CapacityCeiling <? AA24MaxCapacity l) || (aa24TableCeiling <? AA24MaxPlans l) || (aa24TableCeiling <? AA24MaxOutstanding l)
  then Some ErrAA24InvalidLimits
  else None.

Record AA24Expected := mkExpected {
  AA24Binding_ : AA24Binding; AA24MappingBytes : Z; AA24Limits_ : AA24Limits; AA24PlanFloor : Z; AA24TokenFloor : Z; AA24ClockDomain : Z }.

Definition AA24DefaultClockDomain : Z := 1.

Definition aa24SeedClock (domain : Z) : aa23ClockGuard := if domain =? 0 then new_guard else mkGuard true false domain 0.

Record AA24LaneConfig := mkLaneConfig { AA24SlotBytes : Z; AA24Capacity : Z }.
Record AA24Config := mkConfig24 { AA24Lanes : list AA24LaneConfig; cArenaBytes : Z }.

Record aa24LaneLayout := mkLaneLayout {
  aa24Kind : Z; aa24SlotBytes : Z; aa24Capacity : Z; aa24SlotOffset : Z; aa24ProducerOffset : Z; aa24ConsumerOffset : Z }.

Definition zero_lane_layout : aa24LaneLayout := mkLaneLayout 0 0 0 0 0 0.
#[export] Instance lane_layout_inhabited : Inhabited aa24LaneLayout := populate zero_lane_layout.

Record AA24Layout := mkLayout {
  AA24TotalBytes : Z; AA24DescriptorOffset : Z; AA24ArenaOffset : Z; AA24ArenaBytes : Z; aa24Lanes : list aa24LaneLayout }.

(** ** Checked arithmetic *)

Definition aa24AddChecked (first second : Z) : Z * bool := let sum := wrap 64 (first + second) in (sum, first <=? sum).

Definition aa24MulChecked (first second : Z) : Z * bool :=
  if negb (first =? 0) && (MaxUint64 / first <? second) then (0, false) else (wrap 64 (first * second), true).

Definition aa24Aligned (offset : Z) : bool := offset mod aa24Alignment =? 0.

Definition aa24BaseAligned (aligned : bool) (mem : list byte) : bool := (0 <? len mem) && aligned.

Definition aa24CheckLane (kind slotBytes capacity : Z) (l : AA24Limits) : result aa24_error Z :=
  if (slotBytes <? aa24EnvelopeBytes) || negb (aa24Aligned slotBytes) || (AA24MaxSlotBytes l <? slotBytes) || (capacity =? 0) ||
     (AA24MaxCapacity l <? capacity)
  then Err ErrAA24Lane
  else if ((kind =? AA24LaneHostControl) || (kind =? AA24LaneWorkerControl)) && (capacity <=? aa24ReservedSlots) then Err ErrAA24Lane
  else let (region, ok) := aa24MulChecked slotBytes capacity in if negb ok then Err ErrAA24Bounds else Ok region.

(** ** Validation *)

(** What the loop over the descriptors has found: the kinds seen, the ranges
    taken and the lanes by kind. *)
Record validated := mkValidated { seen : list bool; spans : list (Z * Z); found : list aa24LaneLayout }.

Definition validate_desc (mem : list byte) (l : AA24Limits) (table : Z) (v : validated) (index : Z) : result aa24_error validated :=
  let desc := table + index * aa24DescriptorBytes in
  let kind := get32 desc mem in
  if (kind <? AA24LaneHostControl) || (AA24LaneWorkerData <? kind) || seen v !!! Z.to_nat (kind - 1) then Err ErrAA24Lane
  else if negb (get32 (desc + aa24DescOffsetReserved) mem =? 0) then Err ErrAA24Reserved
  else if existsb (fun b => negb (b =b x00)) (slice (desc + aa24DescOffsetTail) (aa24DescriptorBytes - aa24DescOffsetTail) mem)
  then Err ErrAA24Reserved
  else
    let slotBytes := get32 (desc + aa24DescOffsetSlot) mem in
    let capacity := get32 (desc + aa24DescOffsetCapacity) mem in
    let* regionBytes := aa24CheckLane kind slotBytes capacity l in
    let slotOffset := get64 (desc + aa24DescOffsetRegion) mem in
    if negb (aa24Aligned slotOffset) then Err ErrAA24Alignment
    else
      let (regionEnd, ok) := aa24AddChecked slotOffset regionBytes in
      if negb ok || (len mem <? regionEnd) then Err ErrAA24Bounds
      else if negb (get64 (desc + aa24DescOffsetProducer) mem =? 0) || negb (get64 (desc + aa24DescOffsetConsumer) mem =? 0)
      then Err ErrAA24Index
      else
        let k := Z.to_nat (kind - 1) in
        let lane := mkLaneLayout kind slotBytes capacity slotOffset (desc + aa24DescOffsetProducer) (desc + aa24DescOffsetConsumer) in
        Ok (mkValidated (<[k := true]> (seen v)) (spans v ++ [(slotOffset, regionEnd)]) (<[k := lane]> (found v))).

Fixpoint validate_descs (mem : list byte) (l : AA24Limits) (table : Z) (v : validated) (indices : list Z) : result aa24_error validated :=
  match indices with
  | [] => Ok v
  | index :: rest => let* v := validate_desc mem l table v index in validate_descs mem l table v rest
  end.

Definition span_overlaps (a b : Z * Z) : bool := (a.1 <? b.2) && (b.1 <? a.2).

Fixpoint spans_overlap (l : list (Z * Z)) : bool :=
  match l with
  | [] => false
  | a :: rest => existsb (span_overlaps a) rest || spans_overlap rest
  end.

(** The checks of the header, before the descriptors. *)
Definition validate_header (aligned : bool) (mem : list byte) (e : AA24Expected) : option aa24_error :=
  let l := AA24Limits_ e in
  match limits24_validate l with
  | Some err => Some err
  | None =>
      match binding_validate (AA24Binding_ e) with
      | Some err => Some err
      | None =>
          if negb (aa24BaseAligned aligned mem) then Some ErrAA24Alignment
          else if (len mem <? aa24HeaderBytes) || (AA24MaxMappingBytes l <? len mem) || negb (len mem =? AA24MappingBytes e)
          then Some ErrAA24MappingSize
          else if negb (bool_decide (slice 0 4 mem = aa24HeaderMagic)) || negb (get32 aa24OffsetVersion mem =? AA24ABIVersion) ||
                  negb (get32 aa24OffsetHeaderBytes mem =? aa24HeaderBytes) || negb (get32 aa24OffsetLaneCount mem =? aa24LaneCount) ||
                  negb (get32 aa24OffsetDescBytes mem =? aa24DescriptorBytes)
          then Some ErrAA24ABI
          else if negb (get32 aa24OffsetTotalBytes mem =? len mem) then Some ErrAA24MappingSize
          else if negb (get64 aa24OffsetWorker mem =? bWorker (AA24Binding_ e)) || negb (get64 aa24OffsetStream mem =? bStream (AA24Binding_ e))
          then Some ErrAA24Identity
          else None
      end
  end.

Definition AA24ValidateMapping (aligned : bool) (mem : list byte) (e : AA24Expected) : result aa24_error AA24Layout :=
  match validate_header aligned mem e with
  | Some err => Err err
  | None =>
      let l := AA24Limits_ e in
      let table := get64 aa24OffsetDescTable mem in
      let arena := get64 aa24OffsetArena mem in
      let arenaBytes := get64 aa24OffsetArenaBytes mem in
      if negb (aa24Aligned table) || negb (aa24Aligned arena) then Err ErrAA24Alignment
      else
        let (tableEnd, ok) := aa24AddChecked table (aa24LaneCount * aa24DescriptorBytes) in
        if negb ok || (len mem <? tableEnd) then Err ErrAA24Bounds
        else if (arenaBytes <=? aa24BuildBytes) || (AA24MaxArenaBytes l <? arenaBytes) then Err ErrAA24Bounds
        else
          let (arenaEnd, ok) := aa24AddChecked arena arenaBytes in
          if negb ok || (len mem <? arenaEnd) then Err ErrAA24Bounds
          else
            let v := mkValidated (replicate 4 false) [(0, aa24HeaderBytes); (table, tableEnd); (arena, arenaEnd)] (replicate 4 zero_lane_layout) in
            let* v := validate_descs mem l table v [0; 1; 2; 3] in
            if spans_overlap (spans v) then Err ErrAA24Overlap
            else if negb (bool_decide (slice arena aa24BuildBytes mem = AA24Build (AA24Binding_ e))) then Err ErrAA24Build
            else Ok (mkLayout (len mem) table arena arenaBytes (found v))
  end.

(** ** Initialisation *)

(** Where the regions of the lanes start, and where they end. *)
Fixpoint lane_regions (kind : Z) (lanes : list AA24LaneConfig) (cursor : Z) (l : AA24Limits) : result aa24_error (list Z * Z) :=
  match lanes with
  | [] => Ok ([], cursor)
  | lane :: rest =>
      let* size := aa24CheckLane kind (AA24SlotBytes lane) (AA24Capacity lane) l in
      let (cursor', ok) := aa24AddChecked cursor size in
      if negb ok then Err ErrAA24Bounds
      else let* rs := lane_regions (kind + 1) rest cursor' l in Ok (cursor :: rs.1, rs.2)
  end.

Definition init_header (b : AA24Binding) (total arena arenaBytes : Z) (mem : list byte) : list byte :=
  let mem := replicate (length mem) x00 in
  let mem := store 0 aa24HeaderMagic mem in
  let mem := put32 aa24OffsetVersion AA24ABIVersion mem in
  let mem := put32 aa24OffsetHeaderBytes aa24HeaderBytes mem in
  let mem := put32 aa24OffsetTotalBytes total mem in
  let mem := put64 aa24OffsetWorker (bWorker b) mem in
  let mem := put64 aa24OffsetStream (bStream b) mem in
  let mem := put32 aa24OffsetLaneCount aa24LaneCount mem in
  let mem := put32 aa24OffsetDescBytes aa24DescriptorBytes mem in
  let mem := put64 aa24OffsetDescTable aa24HeaderBytes mem in
  let mem := put64 aa24OffsetArena arena mem in
  put64 aa24OffsetArenaBytes arenaBytes mem.

Definition init_desc (index : Z) (lane : AA24LaneConfig) (region : Z) (mem : list byte) : list byte :=
  let desc := aa24HeaderBytes + index * aa24DescriptorBytes in
  let mem := put32 desc (index + 1) mem in
  let mem := put32 (desc + aa24DescOffsetSlot) (AA24SlotBytes lane) mem in
  let mem := put32 (desc + aa24DescOffsetCapacity) (AA24Capacity lane) mem in
  put64 (desc + aa24DescOffsetRegion) region mem.

Fixpoint init_descs (index : Z) (lanes : list AA24LaneConfig) (regions : list Z) (mem : list byte) : list byte :=
  match lanes, regions with
  | lane :: lanes', region :: regions' => init_descs (index + 1) lanes' regions' (init_desc index lane region mem)
  | _, _ => mem
  end.

Definition AA24InitMapping (aligned : bool) (mem : list byte) (b : AA24Binding) (c : AA24Config) (l : AA24Limits)
    : list byte * result aa24_error (AA24Expected * AA24Layout) :=
  match limits24_validate l with
  | Some err => (mem, Err err)
  | None =>
      match binding_validate b with
      | Some err => (mem, Err err)
      | None =>
          if negb (aa24BaseAligned aligned mem) then (mem, Err ErrAA24Alignment)
          else if (cArenaBytes c <=? aa24BuildBytes) || (AA24MaxArenaBytes l <? cArenaBytes c) || negb (aa24Aligned (cArenaBytes c))
          then (mem, Err ErrAA24InvalidLimits)
          else
            match lane_regions 1 (AA24Lanes c) (aa24HeaderBytes + aa24LaneCount * aa24DescriptorBytes) l with
            | Err err => (mem, Err err)
            | Ok (regions, arena) =>
                let (total, ok) := aa24AddChecked arena (cArenaBytes c) in
                if negb ok || (AA24MaxMappingBytes l <? total) || negb (total =? len mem) then (mem, Err ErrAA24MappingSize)
                else
                  let mem := init_header b (wrap 32 total) arena (cArenaBytes c) mem in
                  let mem := init_descs 0 (AA24Lanes c) regions mem in
                  let mem := store arena (AA24Build b) mem in
                  let e := mkExpected b (wrap 32 total) l 0 0 AA24DefaultClockDomain in
                  (mem, let* layout := AA24ValidateMapping aligned mem e in Ok (e, layout))
            end
      end
  end.
