(* ===== verification/IpcLayoutLaws.v ===== *)
(** What a validated mapping guarantees, and that a fresh one validates
    (src/localworker/aa24_ipc.go). *)

From S2P Require Import Prelude Memory PlanTypes IpcLayout.
#[local] Open Scope list_scope.
#[local] Open Scope Z_scope.

(** ** Pairs of a list *)

Section pairs.
Context {A : Type} (R : A -> A -> Prop) (Rsym : forall a b, R a b -> R b a).

Lemma ordered_pairs_perm l k : l ≡ₚ k -> ForallOrdPairs R l -> ForallOrdPairs R k.
Proof.
  induction 1 as [|x l k Hlk IH|x y l|l k m _ IH1 _ IH2]; intros H; [done| | |auto].
  - inversion H as [|? ? Hx Hl]; subst. constructor; [by rewrite <- Hlk|auto].
  - inversion H as [|? ? Hy Hl]; subst. inversion Hl as [|? ? Hx Hr]; subst. inversion Hy as [|? ? Hyx Hyl]; subst.
    constructor; [constructor; [by apply Rsym|done]|by constructor].
Qed.

Lemma ordered_pairs_cons a l : ForallOrdPairs R (a :: l) <-> Forall (R a) l /\ ForallOrdPairs R l.
Proof. split; [intros H; by inversion H|intros [H1 H2]; by constructor]. Qed.

Lemma ordered_pairs_nil : ForallOrdPairs R [] <-> True.
Proof. split; [done|constructor]. Qed.

Lemma ordered_pairs_lookup l i j a b : ForallOrdPairs R l -> i <> j -> l !! i = Some a -> l !! j = Some b -> R a b.
Proof.
  intros H. revert i j. induction H as [|x l Hx _ IH]; intros [|i] [|j] Hij Ha Hb; try done; cbn in *.
  - injection Ha as ->. by apply (proj1 (Forall_lookup _ _) Hx j).
  - injection Hb as ->. apply Rsym. by apply (proj1 (Forall_lookup _ _) Hx i).
  - apply (IH i j); [congruence|done|done].
Qed.
End pairs.

(** ** Ranges *)

(** A range is where it starts and how long it is. *)
Definition apart_ranges (a b : Z * Z) : Prop := disjoint a.1 a.2 b.1 b.2.

Lemma apart_ranges_sym a b : apart_ranges a b -> apart_ranges b a.
Proof. unfold apart_ranges, disjoint. lia. Qed.

Definition inside (total : Z) (r : Z * Z) : Prop := 0 <= r.1 /\ 0 <= r.2 /\ r.1 + r.2 <= total.

Definition region_bytes (lane : aa24LaneLayout) : Z := aa24SlotBytes lane * aa24Capacity lane.

(** What a lane owns: its slots and its two indices. *)
Definition lane_ranges (lane : aa24LaneLayout) : list (Z * Z) :=
  [(aa24SlotOffset lane, region_bytes lane); (aa24ProducerOffset lane, 8); (aa24ConsumerOffset lane, 8)].

(** Everything in a mapping that anybody reads or writes. *)
Definition layout_ranges (lo : AA24Layout) : list (Z * Z) :=
  (0, aa24HeaderBytes) :: (AA24ArenaOffset lo, AA24ArenaBytes lo) :: (aa24Lanes lo ≫= lane_ranges).

Definition lane_sized (l : AA24Limits) (lane : aa24LaneLayout) : Prop :=
  aa24EnvelopeBytes <= aa24SlotBytes lane <= AA24MaxSlotBytes l /\ aa24SlotBytes lane < 2 ^ 32 /\ aa24SlotBytes lane mod aa24Alignment = 0 /\
  1 <= aa24Capacity lane <= AA24MaxCapacity l /\
  (aa24Kind lane = AA24LaneHostControl \/ aa24Kind lane = AA24LaneWorkerControl -> 2 <= aa24Capacity lane) /\
  aa24SlotOffset lane mod aa24Alignment = 0 /\ aa24ProducerOffset lane mod aa24Alignment = 0 /\ aa24ConsumerOffset lane mod aa24Alignment = 0.

(** A mapping that may be used. *)
Record well_formed (mem : list byte) (e : AA24Expected) (lo : AA24Layout) : Prop := {
  wf_total : AA24TotalBytes lo = len mem /\ len mem = AA24MappingBytes e /\ len mem <= AA24MaxMappingBytes (AA24Limits_ e);
  wf_lanes : length (aa24Lanes lo) = 4%nat;
  wf_sized : forall k lane, aa24Lanes lo !! k = Some lane -> aa24Kind lane = Z.of_nat k + 1 /\ lane_sized (AA24Limits_ e) lane;
  wf_inside : Forall (inside (len mem)) (layout_ranges lo);
  wf_apart : ForallOrdPairs apart_ranges (layout_ranges lo);
  wf_fresh : forall k lane, aa24Lanes lo !! k = Some lane ->
    get64 (aa24ProducerOffset lane) mem = 0 /\ get64 (aa24ConsumerOffset lane) mem = 0;
  wf_arena : aa24BuildBytes < AA24ArenaBytes lo <= AA24MaxArenaBytes (AA24Limits_ e);
  wf_build : slice (AA24ArenaOffset lo) aa24BuildBytes mem = AA24Build (AA24Binding_ e);
  wf_identity : get64 aa24OffsetWorker mem = bWorker (AA24Binding_ e) /\ get64 aa24OffsetStream mem = bStream (AA24Binding_ e) /\
    bWorker (AA24Binding_ e) <> 0 /\ bStream (AA24Binding_ e) <> 0 }.

(** ** Checks *)

Lemma add_checked_ok a b sum : 0 <= a < 2 ^ 64 -> 0 <= b < 2 ^ 64 -> aa24AddChecked a b = (sum, true) -> sum = a + b.
Proof.
  unfold aa24AddChecked, wrap. intros Ha Hb [= <- Hle]. apply Z.leb_le in Hle.
  destruct (Z_lt_le_dec (a + b) (2 ^ 64)) as [H|H]; [by apply Z.mod_small; lia|].
  assert ((a + b) mod 2 ^ 64 = a + b - 2 ^ 64) as E by (symmetry; apply (Z.mod_unique_pos _ _ 1); lia). lia.
Qed.

Lemma mul_checked_small a b : 0 <= a -> 0 <= b -> a * b < 2 ^ 64 -> aa24MulChecked a b = (a * b, true).
Proof.
  intros Ha Hb Hm. unfold aa24MulChecked. rewrite wrap_small by nia.
  destruct (Z.eqb_spec a 0) as [->|Hne]; [done|]. cbn [negb andb].
  destruct (Z.ltb_spec (MaxUint64 / a) b) as [Hlt|]; [|done]. exfalso.
  assert (b <= MaxUint64 / a); [|lia]. apply Z.div_le_lower_bound; unfold MaxUint64; lia.
Qed.

Lemma limits24_capacity l : limits24_validate l = None -> AA24MaxCapacity l <= 2 ^ 20.
Proof.
  unfold limits24_validate. destruct (_ || _); [done|]. destruct (_ || _) eqn:E; [done|]. intros _.
  repeat (apply orb_false_iff in E as [E ?%Z.ltb_ge]). done.
Qed.

Lemma check_lane_ok kind slotBytes capacity l region :
  AA24MaxCapacity l <= 2 ^ 20 -> 0 <= slotBytes < 2 ^ 32 -> 0 <= capacity ->
  aa24CheckLane kind slotBytes capacity l = Ok region <->
  region = slotBytes * capacity /\ aa24EnvelopeBytes <= slotBytes <= AA24MaxSlotBytes l /\ slotBytes mod aa24Alignment = 0 /\
  1 <= capacity <= AA24MaxCapacity l /\ (kind = AA24LaneHostControl \/ kind = AA24LaneWorkerControl -> 2 <= capacity).
Proof.
  intros Hl Hs Hc. unfold aa24CheckLane, aa24Aligned, aa24ReservedSlots.
  destruct (Z.ltb_spec slotBytes aa24EnvelopeBytes); cbn [orb]; [split; [done|lia]|].
  destruct (Z.eqb_spec (slotBytes mod aa24Alignment) 0); cbn [orb negb]; [|split; [done|lia]].
  destruct (Z.ltb_spec (AA24MaxSlotBytes l) slotBytes); cbn [orb]; [split; [done|lia]|].
  destruct (Z.eqb_spec capacity 0); cbn [orb]; [split; [done|lia]|].
  destruct (Z.ltb_spec (AA24MaxCapacity l) capacity); cbn [orb]; [split; [done|lia]|].
  rewrite mul_checked_small by (lia || nia). cbn [negb].
  destruct (Z.eqb_spec kind AA24LaneHostControl), (Z.eqb_spec kind AA24LaneWorkerControl), (Z.leb_spec capacity 1); cbn [orb andb];
    split; try done; try (intros [= <-]; lia); try (intros (-> & _); done); intros (_ & _ & _ & _ & Hctl); lia.
Qed.

Lemma span_overlaps_false a b : span_overlaps a b = false -> a.2 <= b.1 \/ b.2 <= a.1.
Proof. unfold span_overlaps. intros [H|H]%andb_false_iff; apply Z.ltb_ge in H; lia. Qed.

Lemma spans_overlap_pairs l : spans_overlap l = false -> ForallOrdPairs (fun a b => a.2 <= b.1 \/ b.2 <= a.1) l.
Proof.
  induction l as [|a l IH]; [constructor|]. cbn [spans_overlap]. intros [H1 H2]%orb_false_iff. constructor; [|auto].
  apply Forall_forall. intros b Hb. apply span_overlaps_false. destruct (span_overlaps a b) eqn:E; [|done].
  assert (existsb (span_overlaps a) l = true) as F; [|congruence]. apply existsb_exists. exists b. split; [by apply list_elem_of_In|done].
Qed.

(** ** Descriptors *)

Definition lane_at (mem : list byte) (table i : Z) : aa24LaneLayout :=
  let desc := table + i * aa24DescriptorBytes in
  mkLaneLayout (get32 desc mem) (get32 (desc + aa24DescOffsetSlot) mem) (get32 (desc + aa24DescOffsetCapacity) mem)
    (get64 (desc + aa24DescOffsetRegion) mem) (desc + aa24DescOffsetProducer) (desc + aa24DescOffsetConsumer).

Definition lane_span (lane : aa24LaneLayout) : Z * Z := (aa24SlotOffset lane, aa24SlotOffset lane + region_bytes lane).

(** What a descriptor that was accepted says. *)
Definition desc_ok (mem : list byte) (l : AA24Limits) (lane : aa24LaneLayout) : Prop :=
  1 <= aa24Kind lane <= 4 /\ lane_sized l lane /\ inside (len mem) (aa24SlotOffset lane, region_bytes lane) /\
  get64 (aa24ProducerOffset lane) mem = 0 /\ get64 (aa24ConsumerOffset lane) mem = 0.

Lemma validate_desc_ok mem l table v i v' :
  AA24MaxCapacity l <= 2 ^ 20 -> table mod aa24Alignment = 0 -> validate_desc mem l table v i = Ok v' ->
  let lane := lane_at mem table i in let k := Z.to_nat (aa24Kind lane - 1) in
  desc_ok mem l lane /\ seen v !!! k = false /\ v' = mkValidated (<[k := true]> (seen v)) (spans v ++ [lane_span lane]) (<[k := lane]> (found v)).
Proof.
  intros Hl Ht. unfold validate_desc. cbv zeta. set (desc := table + i * aa24DescriptorBytes).
  destruct ((get32 desc mem <? _) || _ || _) eqn:Ek; [done|]. apply orb_false_iff in Ek as [Ek Hseen]. apply orb_false_iff in Ek as [K1%Z.ltb_ge K2%Z.ltb_ge].
  destruct (negb _); [done|]. destruct (existsb _ _); [done|].
  destruct (aa24CheckLane _ _ _ _) as [region|] eqn:Ec; [|done]. cbn [rbind].
  pose proof (get32_range (desc + aa24DescOffsetSlot) mem) as Rs. pose proof (get32_range (desc + aa24DescOffsetCapacity) mem) as Rc.
  pose proof (get64_range (desc + aa24DescOffsetRegion) mem) as Ro.
  apply check_lane_ok in Ec as (-> & S1 & S2 & S3 & S4); [|done|done|lia].
  destruct (aa24Aligned (get64 (desc + aa24DescOffsetRegion) mem)) eqn:Ea; [|done]. apply Z.eqb_eq in Ea. cbn [negb].
  destruct (aa24AddChecked _ _) as [regionEnd ok] eqn:Eadd. destruct ok; [|done]. cbn [negb orb].
  apply add_checked_ok in Eadd; [|lia|nia]. subst regionEnd.
  destruct (Z.ltb_spec (len mem) (get64 (desc + aa24DescOffsetRegion) mem + get32 (desc + aa24DescOffsetSlot) mem * get32 (desc + aa24DescOffsetCapacity) mem)); [done|].
  destruct (_ || _) eqn:Ei; [done|]. apply orb_false_iff in Ei as [Ep%negb_false_iff%Z.eqb_eq Eq%negb_false_iff%Z.eqb_eq].
  intros [= <-]. split; [|split; [exact Hseen|done]].
  assert (forall o, o mod 8 = 0 -> (desc + o) mod aa24Alignment = 0) as Hal.
  { intros o Ho. unfold desc, aa24Alignment, aa24DescriptorBytes in *. rewrite Z.add_mod, (Z.add_mod table) by lia.
    rewrite Ht, Ho. replace (i * 64) with (i * 8 * 8) by lia. by rewrite Z.mod_mul. }
  unfold AA24LaneHostControl, AA24LaneWorkerData in *.
  unfold desc_ok, lane_sized, inside, region_bytes, lane_at. fold desc. cbn [aa24Kind aa24SlotBytes aa24Capacity aa24SlotOffset aa24ProducerOffset aa24ConsumerOffset fst snd].
  split_and!; try done; try lia; try nia; by apply Hal.
Qed.

Lemma seen_insert (s : list bool) k j : (k < length s)%nat -> <[k := true]> s !!! j = false -> s !!! j = false /\ k <> j.
Proof.
  intros Hk H. destruct (decide (k = j)) as [->|Hne]; [by rewrite list_lookup_total_insert_eq in H|].
  by rewrite list_lookup_total_insert_ne in H.
Qed.

(** The four descriptors have the four kinds in some order. *)
Lemma four_kinds (a b c d : aa24LaneLayout) :
  let k lane := Z.to_nat (aa24Kind lane - 1) in
  1 <= aa24Kind a <= 4 -> 1 <= aa24Kind b <= 4 -> 1 <= aa24Kind c <= 4 -> 1 <= aa24Kind d <= 4 ->
  aa24Kind a <> aa24Kind b -> aa24Kind a <> aa24Kind c -> aa24Kind a <> aa24Kind d ->
  aa24Kind b <> aa24Kind c -> aa24Kind b <> aa24Kind d -> aa24Kind c <> aa24Kind d ->
  let lanes := <[k d := d]> (<[k c := c]> (<[k b := b]> (<[k a := a]> (replicate 4 zero_lane_layout)))) in
  (lanes ≡ₚ [a; b; c; d]) /\ forall j lane, lanes !! j = Some lane -> aa24Kind lane = Z.of_nat j + 1.
Proof.
  intros k Ha Hb Hc Hd Hab Hac Had Hbc Hbd Hcd. unfold k.
  assert (forall x, 1 <= x <= 4 -> x = 1 \/ x = 2 \/ x = 3 \/ x = 4) as Hx by lia.
  destruct (Hx _ Ha) as [Ea|[Ea|[Ea|Ea]]], (Hx _ Hb) as [Eb|[Eb|[Eb|Eb]]]; try (exfalso; lia);
    destruct (Hx _ Hc) as [Ec|[Ec|[Ec|Ec]]]; try (exfalso; lia); destruct (Hx _ Hd) as [Ed|[Ed|[Ed|Ed]]]; try (exfalso; lia);
    rewrite Ea, Eb, Ec, Ed; cbn;
    (split; [solve_Permutation|intros [|[|[|[|]]]] lane E; try discriminate; injection E as <-; lia]).
Qed.

(** ** The validator is sound *)

Lemma ranges_apart table arena arenaBytes o0 n0 o1 n1 o2 n2 o3 n3 :
  0 <= table -> 0 < arenaBytes -> 0 <= o0 /\ 0 <= n0 -> 0 <= o1 /\ 0 <= n1 -> 0 <= o2 /\ 0 <= n2 -> 0 <= o3 /\ 0 <= n3 ->
  ForallOrdPairs (fun a b => a.2 <= b.1 \/ b.2 <= a.1)
    [(0, 64); (table, table + 256); (arena, arena + arenaBytes); (o0, o0 + n0); (o1, o1 + n1); (o2, o2 + n2); (o3, o3 + n3)] ->
  ForallOrdPairs apart_ranges
    [(0, 64); (arena, arenaBytes); (o0, n0); (table + 0 * 64 + 24, 8); (table + 0 * 64 + 32, 8);
     (o1, n1); (table + 1 * 64 + 24, 8); (table + 1 * 64 + 32, 8); (o2, n2); (table + 2 * 64 + 24, 8); (table + 2 * 64 + 32, 8);
     (o3, n3); (table + 3 * 64 + 24, 8); (table + 3 * 64 + 32, 8)].
Proof.
  intros Ht Ha [A0 B0] [A1 B1] [A2 B2] [A3 B3] H. repeat (apply ordered_pairs_cons in H as [?H H]). clear H.
  repeat match goal with H : Forall _ (_ :: _) |- _ => apply Forall_cons in H as [? H] | H : Forall _ [] |- _ => clear H end.
  cbn [fst snd] in *. repeat (apply ordered_pairs_cons; split; [|]); try by constructor.
  all: repeat (apply Forall_cons; split); try by constructor.
  all: unfold apart_ranges, disjoint; cbn [fst snd]; lia.
Qed.

Lemma validated_is_well_formed aligned mem e lo :
  AA24ValidateMapping aligned mem e = Ok lo -> well_formed mem e lo.
Proof.
  unfold AA24ValidateMapping. destruct (validate_header aligned mem e) eqn:Eh; [done|]. cbv zeta.
  unfold validate_header in Eh. destruct (limits24_validate _) eqn:El; [done|]. apply limits24_capacity in El.
  destruct (binding_validate _) eqn:Eb; [done|]. unfold binding_validate in Eb. destruct (bool_decide _); [done|].
  destruct (_ || _) eqn:Ew in Eb; [done|]. apply orb_false_iff in Ew as [Ew%Z.eqb_neq Es%Z.eqb_neq]. clear Eb.
  destruct (negb _) eqn:Eal in Eh; [done|]. clear Eal. destruct (_ || _) eqn:Elen in Eh; [done|].
  apply orb_false_iff in Elen as [Elen Elen3%negb_false_iff%Z.eqb_eq]. apply orb_false_iff in Elen as [Elen1%Z.ltb_ge Elen2%Z.ltb_ge].
  destruct (_ || _) in Eh; [done|]. destruct (negb _) in Eh; [done|]. destruct (_ || _) eqn:Eid in Eh; [done|]. clear Eh.
  apply orb_false_iff in Eid as [Eid1%negb_false_iff%Z.eqb_eq Eid2%negb_false_iff%Z.eqb_eq].
  set (table := get64 aa24OffsetDescTable mem). set (arena := get64 aa24OffsetArena mem). set (arenaBytes := get64 aa24OffsetArenaBytes mem).
  destruct (_ || _) eqn:Ea; [done|]. apply orb_false_iff in Ea as [Ea1%negb_false_iff%Z.eqb_eq Ea2%negb_false_iff%Z.eqb_eq].
  pose proof (get64_range aa24OffsetDescTable mem) as Rt. fold table in Rt. pose proof (get64_range aa24OffsetArena mem) as Ra. fold arena in Ra.
  pose proof (get64_range aa24OffsetArenaBytes mem) as Rb. fold arenaBytes in Rb.
  destruct (aa24AddChecked table _) as [tableEnd ok] eqn:Et. destruct ok; [|done]. cbn [negb orb]. apply add_checked_ok in Et; [|lia|unfold aa24LaneCount, aa24DescriptorBytes; lia].
  destruct (Z.ltb_spec (len mem) tableEnd) as [|Hte]; [done|]. destruct (_ || _) eqn:Eab; [done|].
  apply orb_false_iff in Eab as [Eab1%Z.leb_gt Eab2%Z.ltb_ge].
  destruct (aa24AddChecked arena _) as [arenaEnd ok] eqn:Ear. destruct ok; [|done]. cbn [negb orb]. apply add_checked_ok in Ear; [|lia|lia].
  destruct (Z.ltb_spec (len mem) arenaEnd) as [|Hae]; [done|]. subst tableEnd arenaEnd. cbn [validate_descs].
  do 4 (match goal with |- context [rbind _ (validate_desc mem ?l table ?v ?i)] =>
    let E := fresh "Ed" in let v' := fresh "v" in destruct (validate_desc mem l table v i) as [v'|] eqn:E; [|done]; cbn [rbind];
    apply validate_desc_ok in E; [|exact El|exact Ea1]; cbv zeta in E;
    let D := fresh "D" in let S := fresh "S" in destruct E as (D & S & ->); cbn [seen spans found] in S |- * end).
  set (l0 := lane_at mem table 0) in *. set (l1 := lane_at mem table 1) in *. set (l2 := lane_at mem table 2) in *. set (l3 := lane_at mem table 3) in *.
  destruct (spans_overlap _) eqn:Eo; [done|]. apply spans_overlap_pairs in Eo. destruct (negb _) eqn:Ebuild; [done|].
  apply negb_false_iff, bool_decide_eq_true in Ebuild. intros [= <-].
  pose proof (proj1 D) as K0. pose proof (proj1 D0) as K1. pose proof (proj1 D1) as K2. pose proof (proj1 D2) as K3.
  apply seen_insert in S0 as [_ N01]; [|rewrite ?length_insert, ?length_replicate; lia].
  apply seen_insert in S1 as [S1 N12]; [|rewrite ?length_insert, ?length_replicate; lia]. apply seen_insert in S1 as [_ N02]; [|rewrite ?length_insert, ?length_replicate; lia].
  apply seen_insert in S2 as [S2 N23]; [|rewrite ?length_insert, ?length_replicate; lia]. apply seen_insert in S2 as [S2 N13]; [|rewrite ?length_insert, ?length_replicate; lia].
  apply seen_insert in S2 as [_ N03]; [|rewrite ?length_insert, ?length_replicate; lia].
  destruct (four_kinds l0 l1 l2 l3) as [Hperm Hkind]; try lia.
  set (lanes := <[_:=l3]> _) in *.
  assert (Hin : forall k lane, lanes !! k = Some lane -> desc_ok mem (AA24Limits_ e) lane).
  { intros k lane Hk. apply list_elem_of_lookup_2 in Hk. rewrite Hperm in Hk. rewrite !elem_of_cons in Hk.
    destruct Hk as [->|[->|[->|[->|Hk]]]]; try done. by apply elem_of_nil in Hk. }
  assert (Hranges : layout_ranges (mkLayout (len mem) table arena arenaBytes lanes) ≡ₚ
    (0, aa24HeaderBytes) :: (arena, arenaBytes) :: ([l0; l1; l2; l3] ≫= lane_ranges)).
  { unfold layout_ranges. cbn [AA24ArenaOffset AA24ArenaBytes aa24Lanes]. by rewrite Hperm. }
  split; cbn [AA24TotalBytes aa24Lanes AA24ArenaOffset AA24ArenaBytes].
  - lia.
  - unfold lanes. by rewrite !length_insert.
  - intros k lane Hk. split; [by apply Hkind|]. by apply (Hin k lane Hk).
  - rewrite Hranges. destruct D as (_ & _ & I0 & _), D0 as (_ & _ & I1 & _), D1 as (_ & _ & I2 & _), D2 as (_ & _ & I3 & _).
    unfold aa24HeaderBytes, aa24BuildBytes, aa24LaneCount, aa24DescriptorBytes in *.
    cbn [mbind list_bind lane_ranges app]. repeat (apply Forall_cons; split); try done; try (apply Forall_nil; done);
      unfold inside; cbn [fst snd l0 l1 l2 l3 lane_at aa24ProducerOffset aa24ConsumerOffset]; unfold aa24DescOffsetProducer, aa24DescOffsetConsumer, aa24DescriptorBytes; try lia.
  - apply (ordered_pairs_perm _ apart_ranges_sym _ _ (symmetry Hranges)).
    destruct D as (_ & _ & (I0 & J0 & _) & _), D0 as (_ & _ & (I1 & J1 & _) & _), D1 as (_ & _ & (I2 & J2 & _) & _), D2 as (_ & _ & (I3 & J3 & _) & _).
    apply (ranges_apart table arena arenaBytes); [apply Rt|unfold aa24BuildBytes in Eab1; lia|by split|by split|by split|by split|exact Eo].
  - intros k lane Hk. by destruct (Hin k lane Hk) as (_ & _ & _ & ? & ?).
  - done.
  - exact Ebuild.
  - done.
Qed.

(** C19: a mapping the validator admits is well formed: sizes, kinds and
    alignments are as the limits demand, header, arena, slot regions and the
    eight lane indices lie inside the mapping and no two of them share a byte,
    all indices are zero, and identity and build are the expected ones. *)
Theorem validated_mapping_well_formed aligned mem e lo (Hval : AA24ValidateMapping aligned mem e = Ok lo) : well_formed mem e lo.
Proof. exact (validated_is_well_formed aligned mem e lo Hval). Qed.

