(* ===== verification/IpcFresh.v ===== *)
(** A fresh mapping validates (src/localworker/aa24_ipc.go, AA24InitMapping). *)

From S2P Require Import Prelude Memory PlanTypes IpcLayout IpcLayoutLaws.
#[local] Open Scope list_scope.
#[local] Open Scope Z_scope.

(** ** The writes of an initialisation *)

Definition header_writes (b : AA24Binding) (total arena arenaBytes : Z) : list (Z * list byte) :=
  [(0, aa24HeaderMagic); (4, le_bytes 4 AA24ABIVersion); (8, le_bytes 4 aa24HeaderBytes); (12, le_bytes 4 total);
   (16, le_bytes 8 (bWorker b)); (24, le_bytes 8 (bStream b)); (32, le_bytes 4 aa24LaneCount); (36, le_bytes 4 aa24DescriptorBytes);
   (40, le_bytes 8 aa24HeaderBytes); (48, le_bytes 8 arena); (56, le_bytes 8 arenaBytes)].

Definition desc_writes (index : Z) (lane : AA24LaneConfig) (region : Z) : list (Z * list byte) :=
  let desc := 64 + index * 64 in
  [(desc, le_bytes 4 (index + 1)); (desc + 4, le_bytes 4 (AA24SlotBytes lane)); (desc + 8, le_bytes 4 (AA24Capacity lane));
   (desc + 16, le_bytes 8 region)].

Definition fresh_writes b total arena arenaBytes a0 a1 a2 a3 r0 r1 r2 r3 : list (Z * list byte) :=
  header_writes b total arena arenaBytes ++ desc_writes 0 a0 r0 ++ desc_writes 1 a1 r1 ++ desc_writes 2 a2 r2 ++ desc_writes 3 a3 r3 ++
  [(arena, AA24Build b)].

Lemma fresh_is_writes b total arena arenaBytes a0 a1 a2 a3 r0 r1 r2 r3 mem :
  store arena (AA24Build b) (init_descs 0 [a0; a1; a2; a3] [r0; r1; r2; r3] (init_header b total arena arenaBytes mem)) =
  write_all (fresh_writes b total arena arenaBytes a0 a1 a2 a3 r0 r1 r2 r3) (replicate (length mem) x00).
Proof. reflexivity. Qed.

Lemma fresh_ascending b total arena arenaBytes a0 a1 a2 a3 r0 r1 r2 r3 n :
  320 <= arena -> arena + len (AA24Build b) <= n -> ascending 0 (fresh_writes b total arena arenaBytes a0 a1 a2 a3 r0 r1 r2 r3) n.
Proof.
  intros Ha Hn. unfold fresh_writes, header_writes, desc_writes. cbn [app ascending fst snd]. rewrite !len_le_bytes.
  assert (len aa24HeaderMagic = 4) as -> by done. lia.
Qed.

(** ** What a written descriptor says *)

Record desc_written (mem : list byte) (index : Z) (lane : AA24LaneConfig) (region : Z) : Prop := {
  dw_kind : get32 (64 + index * 64) mem = index + 1;
  dw_slot : get32 (64 + index * 64 + 4) mem = AA24SlotBytes lane;
  dw_capacity : get32 (64 + index * 64 + 8) mem = AA24Capacity lane;
  dw_reserved : get32 (64 + index * 64 + 12) mem = 0;
  dw_region : get64 (64 + index * 64 + 16) mem = region;
  dw_producer : get64 (64 + index * 64 + 24) mem = 0;
  dw_consumer : get64 (64 + index * 64 + 32) mem = 0;
  dw_tail : slice (64 + index * 64 + 40) 24 mem = replicate 24 x00 }.

Definition fresh_lane (index : Z) (lane : AA24LaneConfig) (region : Z) : aa24LaneLayout :=
  mkLaneLayout (index + 1) (AA24SlotBytes lane) (AA24Capacity lane) region (64 + index * 64 + 24) (64 + index * 64 + 32).

Definition config_bytes (lane : AA24LaneConfig) : Z := AA24SlotBytes lane * AA24Capacity lane.

Lemma validate_written mem l v index lane region :
  AA24MaxCapacity l <= 2 ^ 20 -> desc_written mem index lane region -> 0 <= index <= 3 ->
  aa24CheckLane (index + 1) (AA24SlotBytes lane) (AA24Capacity lane) l = Ok (config_bytes lane) ->
  0 <= region -> 0 <= config_bytes lane -> region + config_bytes lane <= len mem < 2 ^ 32 -> region mod 8 = 0 ->
  seen v !!! Z.to_nat index = false ->
  validate_desc mem l 64 v index =
    Ok (mkValidated (<[Z.to_nat index := true]> (seen v)) (spans v ++ [(region, region + config_bytes lane)])
         (<[Z.to_nat index := fresh_lane index lane region]> (found v))).
Proof.
  intros Hl [Ek Es Ec Er Eg Ep Eq Et] Hi Hlane Hr Hn Hm Hal Hseen. unfold validate_desc, aa24DescriptorBytes, aa24DescOffsetReserved, aa24DescOffsetTail,
    aa24DescOffsetSlot, aa24DescOffsetCapacity, aa24DescOffsetRegion, aa24DescOffsetProducer, aa24DescOffsetConsumer. cbv zeta.
  rewrite Ek, Es, Ec, Er, Eg, Ep, Eq. replace (index + 1 - 1) with index by lia. change (64 - 40) with 24. rewrite Et, Hseen.
  unfold AA24LaneHostControl, AA24LaneWorkerData. destruct (Z.ltb_spec (index + 1) 1), (Z.ltb_spec 4 (index + 1)); try lia. cbn [orb negb Z.eqb].
  rewrite Hlane. cbn [rbind existsb replicate]. unfold aa24Aligned, aa24Alignment. rewrite Hal.
  unfold aa24AddChecked. rewrite wrap_small by lia. destruct (Z.leb_spec region (region + config_bytes lane)); [|lia].
  destruct (Z.ltb_spec (len mem) (region + config_bytes lane)); [lia|]. reflexivity.
Qed.

(** The memory after an initialisation. *)
Section fresh.
Context (b : AA24Binding) (total arena arenaBytes : Z) (a0 a1 a2 a3 : AA24LaneConfig) (r0 r1 r2 r3 : Z) (n : nat).
Context (Harena : 320 <= arena) (Hend : arena + len (AA24Build b) <= Z.of_nat n).

#[local] Notation ws := (fresh_writes b total arena arenaBytes a0 a1 a2 a3 r0 r1 r2 r3).
#[local] Notation mem := (write_all ws (replicate n x00)).

Lemma fresh_up : ascending 0 ws (len (replicate n x00)).
Proof. rewrite len_zeros. by apply fresh_ascending. Qed.

Lemma len_fresh : len mem = Z.of_nat n.
Proof. rewrite (len_write_all 0); [apply len_zeros|done|apply fresh_up]. Qed.

Lemma fresh_word32 i o v : ws !! i = Some (o, le_bytes 4 v) -> 0 <= v < 2 ^ 32 -> get32 o mem = v.
Proof.
  intros Hi Hv. unfold get32. pose proof (slice_write_all 0 ws (replicate n x00) (o, le_bytes 4 v) (Z.le_refl _) fresh_up (list_elem_of_lookup_2 _ _ _ Hi)) as E.
  cbn [fst snd] in E. rewrite len_le_bytes in E. change (Z.of_nat 4) with 4 in E. rewrite E. by apply le_value_small.
Qed.

Lemma fresh_word64 i o v : ws !! i = Some (o, le_bytes 8 v) -> 0 <= v < 2 ^ 64 -> get64 o mem = v.
Proof.
  intros Hi Hv. unfold get64. pose proof (slice_write_all 0 ws (replicate n x00) (o, le_bytes 8 v) (Z.le_refl _) fresh_up (list_elem_of_lookup_2 _ _ _ Hi)) as E.
  cbn [fst snd] in E. rewrite len_le_bytes in E. change (Z.of_nat 8) with 8 in E. rewrite E. by apply le_value_small.
Qed.

Lemma fresh_gap a k :
  0 <= a -> 0 <= k -> a + k <= 320 -> Forall (fun w => disjoint w.1 (len w.2) a k) (take 27 ws) -> slice a k mem = replicate (Z.to_nat k) x00.
Proof.
  intros Ha Hk Hb Hw. pose proof (len_nonneg (AA24Build b)). rewrite (slice_write_gap 0 ws); [apply slice_zeros; lia|done|done|done|apply fresh_up|].
  rewrite <- (take_drop 27 ws). apply Forall_app. split; [exact Hw|]. apply Forall_cons. split; [|constructor]. unfold disjoint. cbn [fst snd]. lia.
Qed.

Ltac gap := repeat (apply Forall_cons; split); try (by constructor); unfold disjoint; cbn [fst snd]; rewrite ?len_le_bytes; try (change (len aa24HeaderMagic) with 4); lia.

Context (Hs : Forall (fun lane => 0 <= AA24SlotBytes lane < 2 ^ 32 /\ 0 <= AA24Capacity lane < 2 ^ 32) [a0; a1; a2; a3]).
Context (Hr : Forall (fun r => 0 <= r < 2 ^ 64) [r0; r1; r2; r3]).

Lemma fresh_desc k lane region :
  [a0; a1; a2; a3] !! k = Some lane -> [r0; r1; r2; r3] !! k = Some region -> desc_written mem (Z.of_nat k) lane region.
Proof.
  intros Hk Hkr. pose proof (proj1 (Forall_lookup _ _) Hs _ _ Hk) as [S1 S2]. pose proof (proj1 (Forall_lookup _ _) Hr _ _ Hkr) as Rg. cbv beta in *.
  assert (forall a, get32 a mem = le_value (slice a 4 mem)) as G4 by done. assert (forall a, get64 a mem = le_value (slice a 8 mem)) as G8 by done.
  destruct k as [|[|[|[|]]]]; try discriminate; injection Hk as <-; injection Hkr as <-; cbn [Z.of_nat Pos.of_succ_nat Pos.succ]; split.
  all: try (eapply (fresh_word32 11); [reflexivity|lia]). all: try (eapply (fresh_word32 15); [reflexivity|lia]).
  all: try (eapply (fresh_word32 19); [reflexivity|lia]). all: try (eapply (fresh_word32 23); [reflexivity|lia]).
  all: try (apply (fresh_word32 12); [reflexivity|exact S1]). all: try (apply (fresh_word32 16); [reflexivity|exact S1]).
  all: try (apply (fresh_word32 20); [reflexivity|exact S1]). all: try (apply (fresh_word32 24); [reflexivity|exact S1]).
  all: try (apply (fresh_word32 13); [reflexivity|exact S2]). all: try (apply (fresh_word32 17); [reflexivity|exact S2]).
  all: try (apply (fresh_word32 21); [reflexivity|exact S2]). all: try (apply (fresh_word32 25); [reflexivity|exact S2]).
  all: try (apply (fresh_word64 14); [reflexivity|exact Rg]). all: try (apply (fresh_word64 18); [reflexivity|exact Rg]).
  all: try (apply (fresh_word64 22); [reflexivity|exact Rg]). all: try (apply (fresh_word64 26); [reflexivity|exact Rg]).
  all: rewrite ?G4, ?G8, fresh_gap; try lia; try reflexivity; unfold fresh_writes, header_writes, desc_writes; cbn [app take]; gap.
Qed.

Lemma fresh_build : slice arena (len (AA24Build b)) mem = AA24Build b.
Proof.
  apply (slice_write_all 0 ws (replicate n x00) (arena, AA24Build b)); [done|apply fresh_up|]. apply (list_elem_of_lookup_2 _ 27). reflexivity.
Qed.

Lemma fresh_magic : slice 0 4 mem = aa24HeaderMagic.
Proof. apply (slice_write_all 0 ws (replicate n x00) (0, aa24HeaderMagic)); [done|apply fresh_up|]. apply (list_elem_of_lookup_2 _ 0). reflexivity. Qed.
End fresh.

(** ** An initialisation succeeds or changes nothing *)

Lemma aligned_add x y : x mod 8 = 0 -> y mod 8 = 0 -> (x + y) mod 8 = 0.
Proof. intros Hx Hy. by rewrite Z.add_mod, Hx, Hy. Qed.

(** The ranges of the fields a caller passes. *)
Definition typed_config (b : AA24Binding) (c : AA24Config) (l : AA24Limits) : Prop :=
  len (AA24Build b) = aa24BuildBytes /\ 0 <= bWorker b < 2 ^ 64 /\ 0 <= bStream b < 2 ^ 64 /\
  length (AA24Lanes c) = 4%nat /\ Forall (fun lane => 0 <= AA24SlotBytes lane < 2 ^ 32 /\ 0 <= AA24Capacity lane < 2 ^ 32) (AA24Lanes c) /\
  0 <= cArenaBytes c < 2 ^ 64 /\ AA24MaxMappingBytes l < 2 ^ 32.

(** The layout an initialisation makes. *)
Definition fresh_layout (n : Z) (c : AA24Config) (regions : list Z) (arena : Z) : AA24Layout :=
  mkLayout n 64 arena (cArenaBytes c)
    (imap (fun i p => fresh_lane (Z.of_nat i) p.1 p.2) (zip (AA24Lanes c) regions)).

Lemma lane_region_step kind lane rest cursor l regions arena :
  AA24MaxCapacity l <= 2 ^ 20 -> 0 <= AA24SlotBytes lane < 2 ^ 32 -> 0 <= AA24Capacity lane -> 0 <= cursor < 2 ^ 60 ->
  lane_regions kind (lane :: rest) cursor l = Ok (regions, arena) ->
  exists regions', regions = cursor :: regions' /\ lane_regions (kind + 1) rest (cursor + config_bytes lane) l = Ok (regions', arena) /\
    aa24CheckLane kind (AA24SlotBytes lane) (AA24Capacity lane) l = Ok (config_bytes lane) /\ 0 <= config_bytes lane < 2 ^ 52 /\ config_bytes lane mod 8 = 0.
Proof.
  intros Hl Hs Hc Hcur. cbn [lane_regions]. destruct (aa24CheckLane _ _ _ _) as [size|] eqn:E; [|done]. cbn [rbind].
  pose proof (proj1 (check_lane_ok _ _ _ _ _ Hl Hs Hc) E) as (-> & S1 & S2 & S3 & S4). fold (config_bytes lane) in *.
  assert (0 <= config_bytes lane < 2 ^ 52) as Hb by (unfold config_bytes; nia).
  unfold aa24AddChecked. rewrite wrap_small by lia. destruct (Z.leb_spec cursor (cursor + config_bytes lane)); [|lia]. cbn [negb].
  destruct (lane_regions (kind + 1) rest _ l) as [[rs a]|]; [|done]. cbn [rbind fst snd]. intros [= <- <-]. exists rs.
  split; [done|]. split; [done|]. split; [done|]. split; [done|]. unfold config_bytes, aa24Alignment in *. rewrite Z.mul_mod, S2 by lia. done.
Qed.

Lemma spans_chain o0 o1 o2 o3 o4 n : 320 <= o0 -> o0 <= o1 -> o1 <= o2 -> o2 <= o3 -> o3 <= o4 -> 
  spans_overlap [(0, 64); (64, 320); (o4, o4 + n); (o0, o1); (o1, o2); (o2, o3); (o3, o4)] = false.
Proof.
  intros. unfold spans_overlap, existsb, span_overlaps. cbn [fst snd].
  repeat (apply orb_false_iff; split); try done; apply andb_false_iff; rewrite !Z.ltb_ge; lia.
Qed.

(** *** The checks on a fresh mapping *)
Section validates.
Context (aligned : bool) (b : AA24Binding) (c : AA24Config) (l : AA24Limits) (a0 a1 a2 a3 : AA24LaneConfig) (n : nat).
Context (Hbuild : len (AA24Build b) = aa24BuildBytes) (Hw : 0 <= bWorker b < 2 ^ 64) (Hst : 0 <= bStream b < 2 ^ 64).
Context (Hl : limits24_validate l = None) (Hb : binding_validate b = None) (Hal : aligned = true).
Context (Hs : Forall (fun lane => 0 <= AA24SlotBytes lane < 2 ^ 32 /\ 0 <= AA24Capacity lane < 2 ^ 32) [a0; a1; a2; a3]).
Context (Hab : aa24BuildBytes < cArenaBytes c <= AA24MaxArenaBytes l) (Hmax : AA24MaxMappingBytes l < 2 ^ 32).

#[local] Notation r1 := (320 + config_bytes a0).
#[local] Notation r2 := (r1 + config_bytes a1).
#[local] Notation r3 := (r2 + config_bytes a2).
#[local] Notation arena := (r3 + config_bytes a3).

Context (Hn : arena + cArenaBytes c = Z.of_nat n) (Hfit : Z.of_nat n <= AA24MaxMappingBytes l).
Context (Hc : forall i lane, [a0; a1; a2; a3] !! i = Some lane ->
  aa24CheckLane (Z.of_nat i + 1) (AA24SlotBytes lane) (AA24Capacity lane) l = Ok (config_bytes lane) /\
  0 <= config_bytes lane < 2 ^ 52 /\ config_bytes lane mod 8 = 0).

#[local] Notation mem := (write_all (fresh_writes b (Z.of_nat n) arena (cArenaBytes c) a0 a1 a2 a3 320 r1 r2 r3) (replicate n x00)).
#[local] Notation expected := (mkExpected b (Z.of_nat n) l 0 0 AA24DefaultClockDomain).

Lemma fresh_sizes : (0 <= config_bytes a0 /\ 0 <= config_bytes a1) /\ (0 <= config_bytes a2 /\ 0 <= config_bytes a3).
Proof.
  destruct (Hc 0 a0 eq_refl) as (_ & ? & _), (Hc 1 a1 eq_refl) as (_ & ? & _), (Hc 2 a2 eq_refl) as (_ & ? & _), (Hc 3 a3 eq_refl) as (_ & ? & _). lia.
Qed.

Lemma fresh_room : 320 <= arena /\ arena + len (AA24Build b) <= Z.of_nat n.
Proof. pose proof fresh_sizes. rewrite Hbuild. unfold aa24BuildBytes in *. lia. Qed.

Lemma fresh_header : validate_header aligned mem expected = None.
Proof.
  destruct fresh_room as [Harena Hend]. unfold aa24BuildBytes in Hab.
  pose proof (len_fresh b (Z.of_nat n) arena (cArenaBytes c) a0 a1 a2 a3 320 r1 r2 r3 n Harena Hend) as Hlen.
  pose proof (fresh_magic b (Z.of_nat n) arena (cArenaBytes c) a0 a1 a2 a3 320 r1 r2 r3 n Harena Hend) as EM.
  pose proof (fresh_word32 b (Z.of_nat n) arena (cArenaBytes c) a0 a1 a2 a3 320 r1 r2 r3 n Harena Hend) as W32.
  pose proof (fresh_word64 b (Z.of_nat n) arena (cArenaBytes c) a0 a1 a2 a3 320 r1 r2 r3 n Harena Hend) as W64.
  set (m := mem) in *. clearbody m. unfold validate_header. cbn [AA24Limits_ AA24Binding_ AA24MappingBytes]. rewrite Hl, Hb, EM.
  unfold aa24BaseAligned, aa24HeaderBytes. rewrite Hlen, Hal. destruct (Z.ltb_spec 0 (Z.of_nat n)); [|lia].
  destruct (Z.ltb_spec (Z.of_nat n) 64); [lia|]. destruct (Z.ltb_spec (AA24MaxMappingBytes l) (Z.of_nat n)); [lia|]. rewrite Z.eqb_refl, bool_decide_eq_true_2 by done.
  unfold aa24OffsetVersion, aa24OffsetHeaderBytes, aa24OffsetLaneCount, aa24OffsetDescBytes, aa24OffsetTotalBytes, aa24OffsetWorker, aa24OffsetStream.
  rewrite (W32 1%nat 4 AA24ABIVersion eq_refl ltac:(done)), (W32 2%nat 8 aa24HeaderBytes eq_refl ltac:(done)),
    (W32 6%nat 32 aa24LaneCount eq_refl ltac:(done)), (W32 7%nat 36 aa24DescriptorBytes eq_refl ltac:(done)),
    (W32 3%nat 12 (Z.of_nat n) eq_refl ltac:(lia)), (W64 4%nat 16 (bWorker b) eq_refl Hw), (W64 5%nat 24 (bStream b) eq_refl Hst).
  rewrite !Z.eqb_refl. done.
Qed.

(** The four descriptors are accepted one after the other. *)
Lemma fresh_descs v :
  seen v = replicate 4 false -> found v = replicate 4 zero_lane_layout ->
  exists s, validate_descs mem l 64 v [0; 1; 2; 3] =
    Ok (mkValidated s (spans v ++ [(320, r1); (r1, r2); (r2, r3); (r3, arena)])
          [fresh_lane 0 a0 320; fresh_lane 1 a1 r1; fresh_lane 2 a2 r2; fresh_lane 3 a3 r3]).
Proof.
  intros Eseen Efound. destruct fresh_room as [Harena Hend]. pose proof fresh_sizes as Hsz. pose proof (limits24_capacity l Hl) as Hcap.
  pose proof (len_fresh b (Z.of_nat n) arena (cArenaBytes c) a0 a1 a2 a3 320 r1 r2 r3 n Harena Hend) as Hlen.
  pose proof (len_nonneg (AA24Build b)) as Hblen.
  assert (Forall (fun r => 0 <= r < 2 ^ 64) [320; r1; r2; r3]) as Hrs by (rewrite !Forall_cons, Forall_nil; lia).
  pose proof (fresh_desc b (Z.of_nat n) arena (cArenaBytes c) a0 a1 a2 a3 320 r1 r2 r3 n Harena Hend Hs Hrs) as WD.
  set (m := mem) in *. clearbody m. cbn [validate_descs].
  destruct (Hc 0 a0 eq_refl) as (K0 & _ & M0), (Hc 1 a1 eq_refl) as (K1 & _ & M1), (Hc 2 a2 eq_refl) as (K2 & _ & M2), (Hc 3 a3 eq_refl) as (K3 & _ & M3).
  assert (r1 mod 8 = 0 /\ r2 mod 8 = 0 /\ r3 mod 8 = 0) as (A1 & A2 & A3) by (split_and!; repeat (apply aligned_add; [|done]); done).
  rewrite (validate_written m l _ 0 a0 320); [|exact Hcap|exact (WD 0%nat _ _ eq_refl eq_refl)|lia|exact K0|lia|lia|lia|done|by rewrite Eseen].
  cbn [rbind]. rewrite (validate_written m l _ 1 a1 r1); [|exact Hcap|exact (WD 1%nat _ _ eq_refl eq_refl)|lia|exact K1|lia|lia|lia|done|by cbn [seen]; rewrite Eseen].
  cbn [rbind]. rewrite (validate_written m l _ 2 a2 r2); [|exact Hcap|exact (WD 2%nat _ _ eq_refl eq_refl)|lia|exact K2|lia|lia|lia|done|by cbn [seen]; rewrite Eseen].
  cbn [rbind]. rewrite (validate_written m l _ 3 a3 r3); [|exact Hcap|exact (WD 3%nat _ _ eq_refl eq_refl)|lia|exact K3|lia|lia|lia|done|by cbn [seen]; rewrite Eseen].
  cbn [rbind spans found seen]. rewrite Efound, <- !app_assoc. eexists. reflexivity.
Qed.

Lemma fresh_validates :
  AA24ValidateMapping aligned mem expected =
    Ok (mkLayout (Z.of_nat n) 64 arena (cArenaBytes c) [fresh_lane 0 a0 320; fresh_lane 1 a1 r1; fresh_lane 2 a2 r2; fresh_lane 3 a3 r3]).
Proof.
  destruct fresh_room as [Harena Hend]. pose proof fresh_sizes as Hsz.
  pose proof (len_fresh b (Z.of_nat n) arena (cArenaBytes c) a0 a1 a2 a3 320 r1 r2 r3 n Harena Hend) as Hlen.
  pose proof (fresh_word64 b (Z.of_nat n) arena (cArenaBytes c) a0 a1 a2 a3 320 r1 r2 r3 n Harena Hend) as W64.
  pose proof (fresh_build b (Z.of_nat n) arena (cArenaBytes c) a0 a1 a2 a3 320 r1 r2 r3 n Harena Hend) as EB. rewrite Hbuild in EB.
  pose proof (len_nonneg (AA24Build b)) as Hblen. assert (0 <= aa24BuildBytes) as Hbb by done. pose proof fresh_descs as Hdescs. unfold AA24ValidateMapping. rewrite fresh_header. cbn [AA24Limits_ AA24Binding_]. cbv zeta.
  set (m := mem) in *. clearbody m. unfold aa24OffsetDescTable, aa24OffsetArena, aa24OffsetArenaBytes.
  rewrite (W64 8%nat 40 aa24HeaderBytes eq_refl ltac:(done)), (W64 9%nat 48 arena eq_refl ltac:(lia)), (W64 10%nat 56 (cArenaBytes c) eq_refl ltac:(lia)).
  destruct (Hc 0 a0 eq_refl) as (_ & _ & M0), (Hc 1 a1 eq_refl) as (_ & _ & M1), (Hc 2 a2 eq_refl) as (_ & _ & M2), (Hc 3 a3 eq_refl) as (_ & _ & M3).
  assert (arena mod 8 = 0) as Marena by (repeat (apply aligned_add; [|done]); done).
  unfold aa24Aligned, aa24Alignment. rewrite Marena. change (aa24HeaderBytes mod 8 =? 0) with true. cbn [negb orb Z.eqb].
  change (aa24AddChecked aa24HeaderBytes (aa24LaneCount * aa24DescriptorBytes)) with (320, true). cbn [negb orb]. rewrite Hlen.
  destruct (Z.ltb_spec (Z.of_nat n) 320); [lia|]. destruct (Z.leb_spec (cArenaBytes c) aa24BuildBytes); [lia|].
  destruct (Z.ltb_spec (AA24MaxArenaBytes l) (cArenaBytes c)); [lia|]. cbn [orb].
  unfold aa24AddChecked. rewrite wrap_small by lia. destruct (Z.leb_spec arena (arena + cArenaBytes c)); [|lia]. cbn [negb orb].
  destruct (Z.ltb_spec (Z.of_nat n) (arena + cArenaBytes c)); [lia|]. change aa24HeaderBytes with 64.
  edestruct Hdescs as (s & ->); [reflexivity|reflexivity|]. cbn [rbind spans found app]. rewrite spans_chain by lia.
  rewrite EB, bool_decide_eq_true_2 by done. reflexivity.
Qed.
End validates.

(** C37: an initialisation either leaves the memory as it was and refuses, or
    writes a mapping that the validator admits: it never writes and then
    refuses. *)
Theorem init_is_all_or_nothing aligned mem b c l
    (Ht : typed_config b c l) :
  match AA24InitMapping aligned mem b c l with
  | (mem', Err _) => mem' = mem
  | (mem', Ok (e, lo)) =>
      len mem' = len mem /\ e = mkExpected b (len mem) l 0 0 AA24DefaultClockDomain /\ AA24ValidateMapping aligned mem' e = Ok lo /\
      exists regions arena, lane_regions 1 (AA24Lanes c) 320 l = Ok (regions, arena) /\ lo = fresh_layout (len mem) c regions arena
  end.
Proof.
  destruct Ht as (Hbuild & Hw & Hst & Hlen & Hlanes & Hab & Hmax). unfold AA24InitMapping.
  destruct (limits24_validate l) eqn:El; [done|]. destruct (binding_validate b) eqn:Eb; [done|].
  destruct (aa24BaseAligned aligned mem) eqn:Eal; [|done]. cbn [negb]. destruct (_ || _) eqn:Ear; [done|].
  apply orb_false_iff in Ear as [Ear Ea3%negb_false_iff%Z.eqb_eq]. apply orb_false_iff in Ear as [Ea1%Z.leb_gt Ea2%Z.ltb_ge].
  change (aa24HeaderBytes + aa24LaneCount * aa24DescriptorBytes) with 320.
  destruct (lane_regions 1 (AA24Lanes c) 320 l) as [[regions arena]|] eqn:Er; [|done].
  pose proof (limits24_capacity l El) as Hcap. destruct (AA24Lanes c) as [|a0 [|a1 [|a2 [|a3 [|]]]]] eqn:Elanes; try discriminate. clear Hlen.
  rewrite !Forall_cons in Hlanes. destruct Hlanes as ([S0 C0] & [S1 C1] & [S2 C2] & [S3 C3] & _).
  pose proof Er as Er0.
  apply lane_region_step in Er0 as (rs1 & -> & Er1 & K0 & B0 & M0); [|done|done|lia|lia].
  apply lane_region_step in Er1 as (rs2 & -> & Er2 & K1 & B1 & M1); [|done|done|lia|lia].
  apply lane_region_step in Er2 as (rs3 & -> & Er3 & K2 & B2 & M2); [|done|done|lia|lia].
  apply lane_region_step in Er3 as (rs4 & -> & Er4 & K3 & B3 & M3); [|done|done|lia|lia].
  cbn [lane_regions] in Er4. injection Er4 as <- <-.
  destruct (aa24AddChecked _ (cArenaBytes c)) as [total ok] eqn:Etot. destruct ok; [|done]. apply add_checked_ok in Etot; [|lia|lia]. subst total.
  cbn [negb orb]. set (arena := 320 + config_bytes a0 + config_bytes a1 + config_bytes a2 + config_bytes a3) in *.
  destruct (Z.ltb_spec (AA24MaxMappingBytes l) (arena + cArenaBytes c)) as [|Hmap]; [done|]. cbn [orb].
  destruct (Z.eqb_spec (arena + cArenaBytes c) (len mem)) as [Hmem|]; [|done]. cbn [negb]. rewrite Hmem. rewrite wrap_small by lia. cbv zeta. rewrite fresh_is_writes.
  assert (aligned = true) as Hal by (unfold aa24BaseAligned in Eal; by apply andb_true_iff in Eal as [_ ?]).
  assert (Hc : forall i lane, [a0; a1; a2; a3] !! i = Some lane ->
    aa24CheckLane (Z.of_nat i + 1) (AA24SlotBytes lane) (AA24Capacity lane) l = Ok (config_bytes lane) /\
    0 <= config_bytes lane < 2 ^ 52 /\ config_bytes lane mod 8 = 0) by (intros [|[|[|[|]]]] lane E; try discriminate; injection E as <-; done).
  assert (Hs : Forall (fun lane => 0 <= AA24SlotBytes lane < 2 ^ 32 /\ 0 <= AA24Capacity lane < 2 ^ 32) [a0; a1; a2; a3]) by (repeat constructor; done || lia).
  pose proof (fresh_validates aligned b c l a0 a1 a2 a3 (length mem) Hbuild Hw Hst El Eb Hal Hs (conj Ea1 Ea2) Hmax Hmem ltac:(unfold len in Hmem; lia) Hc) as Hval.
  fold arena in Hval. change (Z.of_nat (length mem)) with (len mem) in Hval. rewrite Hval. cbn [rbind]. split; [|split; [done|split; [exact Hval|]]].
  - rewrite len_fresh; [done|lia|]. rewrite Hbuild. unfold len in Hmem. lia.
  - eexists _, arena. split; [done|]. unfold fresh_layout. rewrite Elanes. reflexivity.
Qed.

Definition demo_binding : AA24Binding := mkBinding (replicate 32 x42) 7 3.
Definition demo_limits24 : AA24Limits := mkLimits24 4096 144 4 16 256 4 4 100.
Definition demo_config : AA24Config := mkConfig24 (replicate 4 (mkLaneConfig 144 2)) 64.

Lemma demo_typed_config : typed_config demo_binding demo_config demo_limits24.
Proof. unfold typed_config. split_and!; try done. repeat constructor; done. Qed.

Lemma init_is_all_or_nothing_witness :
  is_Some (match (AA24InitMapping true (replicate 1536 xff) demo_binding demo_config demo_limits24).2 with Ok _ => Some tt | Err _ => None end) /\
  match AA24InitMapping true (replicate 1536 xff) demo_binding demo_config demo_limits24 with
  | (mem', Err _) => mem' = replicate 1536 xff
  | (mem', Ok (e, lo)) =>
      len mem' = len (replicate 1536 xff) /\ e = mkExpected demo_binding (len (replicate 1536 xff)) demo_limits24 0 0 AA24DefaultClockDomain /\
      AA24ValidateMapping true mem' e = Ok lo /\
      exists regions arena, lane_regions 1 (AA24Lanes demo_config) 320 demo_limits24 = Ok (regions, arena) /\
        lo = fresh_layout (len (replicate 1536 xff)) demo_config regions arena
  end.
Proof.
  split; [vm_compute; by eexists|]. apply (init_is_all_or_nothing true (replicate 1536 xff) demo_binding demo_config demo_limits24 demo_typed_config).
Defined.
