(* ===== verification/IpcRecord.v ===== *)
(** src/localworker/aa24_ipc.go, the records of the lanes: plan references and
    command identities, the shape each kind of record has, and the envelope. *)

From S2P Require Import Prelude Memory PlanTypes IpcLayout.
#[local] Open Scope list_scope.
#[local] Open Scope Z_scope.

Definition AA24RecordPublish : Z := 1.
Definition AA24RecordRevoke : Z := 2.
Definition AA24RecordAcknowledge : Z := 3.
Definition AA24RecordGap : Z := 4.
Definition AA24RecordStop : Z := 5.
Definition AA24RecordCommand : Z := 6.
Definition AA24RecordRaw : Z := 7.
Definition AA24RecordCompletion : Z := 8.

Definition AA24StatusPending : Z := 0.
Definition AA24StatusAccepted : Z := 1.
Definition AA24StatusRefused : Z := 2.
Definition AA24StatusRetired : Z := 3.

Definition AA24DirectionControl : byte := x00.
Definition AA24DirectionReceive : byte := x01.
Definition AA24DirectionEcho : byte := x02.

Definition aa24MaxPhase : Z := 5.

Record AA24Record := mkRecord24 {
  AA24Kind : Z; rWorker : Z; rStream : Z; rTransaction : Z; rPlan : Z; AA24Subscriber : Z; AA24Epoch : Z; rOwnerToken : Z;
  rOwnerExpiry : Z; AA24CaptureSequence : Z; AA24CaptureTime : Z; rPlanExpiry : Z; rRequestDeadline : Z; rArenaOffset : Z;
  AA24PlanBytes : Z; AA24Status : Z; AA24Target : byte; AA24RawOctet : byte; AA24Direction : byte; AA24Phase : byte;
  AA24Flags : Z; AA24Payload : list byte }.

Definition zero_record24 : AA24Record := mkRecord24 0 0 0 0 0 0 0 0 0 0 0 0 0 0 0 0 x00 x00 x00 x00 0 [].

Record AA24PlanRef := mkPlanRef { AA24Key : AA23RegistrationKey; pWorker : Z; pStream : Z; AA24Plan : Z; AA24PlanExpiry : Z }.

#[export] Instance plan_ref_eq_dec : EqDecision AA24PlanRef.
Proof. solve_decision. Defined.

Definition ref_matches (r o : AA24PlanRef) : bool :=
  if negb (key_matches (AA24Key r) (AA24Key o)) then false
  else if negb (pWorker r =? pWorker o) then false
  else if negb (pStream r =? pStream o) then false
  else if negb (AA24Plan r =? AA24Plan o) then false
  else AA24PlanExpiry r =? AA24PlanExpiry o.

Record AA24CommandIdentity := mkCommand {
  AA24Ref : AA24PlanRef; AA24Transaction : Z; AA24OwnerToken : Z; AA24OwnerExpiry : Z; AA24RequestDeadline : Z }.

#[export] Instance command_eq_dec : EqDecision AA24CommandIdentity.
Proof. solve_decision. Defined.

Definition zero_ref24 : AA24PlanRef := mkPlanRef (mkKey 0 x00 0) 0 0 0 0.
Definition zero_command : AA24CommandIdentity := mkCommand zero_ref24 0 0 0 0.

Definition command_matches (i o : AA24CommandIdentity) : bool :=
  if negb (ref_matches (AA24Ref i) (AA24Ref o)) then false
  else if negb (AA24Transaction i =? AA24Transaction o) then false
  else if negb (AA24OwnerToken i =? AA24OwnerToken o) then false
  else if negb (AA24OwnerExpiry i =? AA24OwnerExpiry o) then false
  else AA24RequestDeadline i =? AA24RequestDeadline o.

Definition aa24Live (i : AA24CommandIdentity) (now : Z) : bool :=
  (now <? AA24OwnerExpiry i) && (now <? AA24PlanExpiry (AA24Ref i)) && (now <? AA24RequestDeadline i).

Definition aa24ApplyRef (p : AA24PlanRef) (r : AA24Record) : AA24Record :=
  mkRecord24 (AA24Kind r) (pWorker p) (pStream p) (rTransaction r) (AA24Plan p) (AA23Subscriber (AA24Key p)) (AA23Epoch (AA24Key p))
    (rOwnerToken r) (rOwnerExpiry r) (AA24CaptureSequence r) (AA24CaptureTime r) (AA24PlanExpiry p) (rRequestDeadline r) (rArenaOffset r)
    (AA24PlanBytes r) (AA24Status r) (AA23Address (AA24Key p)) (AA24RawOctet r) (AA24Direction r) (AA24Phase r) (AA24Flags r) (AA24Payload r).

Definition aa24ApplyIdentity (i : AA24CommandIdentity) (r : AA24Record) : AA24Record :=
  let r := aa24ApplyRef (AA24Ref i) r in
  mkRecord24 (AA24Kind r) (rWorker r) (rStream r) (AA24Transaction i) (rPlan r) (AA24Subscriber r) (AA24Epoch r)
    (AA24OwnerToken i) (AA24OwnerExpiry i) (AA24CaptureSequence r) (AA24CaptureTime r) (rPlanExpiry r) (AA24RequestDeadline i) (rArenaOffset r)
    (AA24PlanBytes r) (AA24Status r) (AA24Target r) (AA24RawOctet r) (AA24Direction r) (AA24Phase r) (AA24Flags r) (AA24Payload r).

Definition aa24Ref (r : AA24Record) : AA24PlanRef :=
  mkPlanRef (mkKey (AA24Subscriber r) (AA24Target r) (AA24Epoch r)) (rWorker r) (rStream r) (rPlan r) (rPlanExpiry r).

Definition aa24Identity (r : AA24Record) : AA24CommandIdentity :=
  mkCommand (aa24Ref r) (rTransaction r) (rOwnerToken r) (rOwnerExpiry r) (rRequestDeadline r).

(** ** Shapes *)

Definition aa24KindOnLane (kind lane : Z) : bool :=
  if lane =? AA24LaneHostControl then (kind =? AA24RecordPublish) || (kind =? AA24RecordRevoke) || (kind =? AA24RecordStop)
  else if lane =? AA24LaneWorkerControl then (kind =? AA24RecordAcknowledge) || (kind =? AA24RecordGap)
  else if lane =? AA24LaneHostData then kind =? AA24RecordCommand
  else if lane =? AA24LaneWorkerData then (kind =? AA24RecordRaw) || (kind =? AA24RecordCompletion)
  else false.

Definition aa24ArenaInBounds (r : AA24Record) (lo : AA24Layout) : bool :=
  let (end_, ok) := aa24AddChecked (rArenaOffset r) (AA24PlanBytes r) in
  ok && negb (AA24PlanBytes r =? 0) && (wrap 64 (AA24ArenaOffset lo + aa24BuildBytes) <=? rArenaOffset r) &&
  (end_ <=? wrap 64 (AA24ArenaOffset lo + AA24ArenaBytes lo)).

Definition aa24Shape (r : AA24Record) (lane : Z) (lo : AA24Layout) : bool :=
  if negb (aa24KindOnLane (AA24Kind r) lane) || negb (AA24Flags r =? 0) || (rWorker r =? 0) || (rStream r =? 0) ||
     (AA24StatusRetired <? AA24Status r) || (AA24DirectionEcho <b AA24Direction r) || (aa24MaxPhase <? u8 (AA24Phase r))
  then false
  else
    let registrationFull := negb (AA24Subscriber r =? 0) && aa23IsTargetAddress (AA24Target r) && negb (AA24Epoch r =? 0) in
    let registrationZero := (AA24Subscriber r =? 0) && (AA24Target r =b x00) && (AA24Epoch r =? 0) in
    let planFull := negb (rPlan r =? 0) && negb (rPlanExpiry r =? 0) in
    let planZero := (rPlan r =? 0) && (rPlanExpiry r =? 0) in
    let ownerFull := negb (rTransaction r =? 0) && negb (rOwnerToken r =? 0) && negb (rOwnerExpiry r =? 0) && negb (rRequestDeadline r =? 0) in
    let tokenZero := (rOwnerToken r =? 0) && (rOwnerExpiry r =? 0) && (rRequestDeadline r =? 0) in
    let ownerZero := (rTransaction r =? 0) && tokenZero in
    let captureFull := negb (AA24CaptureSequence r =? 0) && negb (AA24CaptureTime r =? 0) in
    let captureZero := (AA24CaptureSequence r =? 0) && (AA24CaptureTime r =? 0) in
    let arenaZero := (rArenaOffset r =? 0) && (AA24PlanBytes r =? 0) in
    let controlPlain := (AA24Direction r =b AA24DirectionControl) && (AA24RawOctet r =b x00) in
    let statusZero := AA24Status r =? AA24StatusPending in
    let noPhase := AA24Phase r =b x00 in
    let kind := AA24Kind r in
    if kind =? AA24RecordPublish then
      registrationFull && planFull && ownerZero && captureZero && controlPlain && statusZero && noPhase && aa24ArenaInBounds r lo
    else if kind =? AA24RecordRevoke then
      registrationFull && planFull && ownerZero && captureZero && arenaZero && controlPlain && statusZero && noPhase
    else if kind =? AA24RecordAcknowledge then
      registrationFull && planFull && ownerZero && captureFull && arenaZero && controlPlain && noPhase && (AA24Status r =? AA24StatusRetired)
    else if kind =? AA24RecordGap then
      registrationZero && planZero && ownerZero && captureFull && arenaZero && controlPlain && statusZero && noPhase
    else if kind =? AA24RecordStop then
      registrationZero && planZero && ownerZero && captureZero && arenaZero && controlPlain && statusZero && noPhase
    else if kind =? AA24RecordCommand then
      registrationFull && planFull && ownerFull && captureZero && arenaZero && controlPlain && statusZero && noPhase
    else if kind =? AA24RecordRaw then
      let selected := registrationFull && planFull && ownerFull in
      let unselected := registrationZero && planZero && tokenZero && negb (rTransaction r =? 0) in
      (selected || unselected) && captureFull && arenaZero && statusZero && negb (AA24Direction r =b AA24DirectionControl) &&
      (len (AA24Payload r) =? 0)
    else if kind =? AA24RecordCompletion then
      registrationFull && planFull && ownerFull && captureFull && arenaZero && controlPlain && noPhase &&
      (len (AA24Payload r) =? 0) && negb (AA24Status r =? AA24StatusPending)
    else false.

(** ** The envelope *)

Definition aa24Encode (r : AA24Record) (slot : list byte) : list byte :=
  let slot := replicate (length slot) x00 in
  let slot := put32 0 (AA24Kind r) slot in
  let slot := put32 4 (wrap 32 (len (AA24Payload r))) slot in
  let slot := put64 8 (rWorker r) slot in
  let slot := put64 16 (rStream r) slot in
  let slot := put64 24 (rTransaction r) slot in
  let slot := put64 32 (rPlan r) slot in
  let slot := put64 40 (AA24Subscriber r) slot in
  let slot := put64 48 (AA24Epoch r) slot in
  let slot := put64 56 (rOwnerToken r) slot in
  let slot := put64 64 (rOwnerExpiry r) slot in
  let slot := put64 72 (AA24CaptureSequence r) slot in
  let slot := put64 80 (AA24CaptureTime r) slot in
  let slot := put64 88 (rPlanExpiry r) slot in
  let slot := put64 96 (rRequestDeadline r) slot in
  let slot := put64 104 (rArenaOffset r) slot in
  let slot := put32 112 (AA24PlanBytes r) slot in
  let slot := put32 116 (AA24Status r) slot in
  let slot := store 120 [AA24Target r] slot in
  let slot := store 121 [AA24RawOctet r] slot in
  let slot := store 122 [AA24Direction r] slot in
  let slot := store 123 [AA24Phase r] slot in
  let slot := put32 124 (AA24Flags r) slot in
  store aa24EnvelopeBytes (AA24Payload r) slot.

Definition byte_at (off : Z) (mem : list byte) : byte := nth (Z.to_nat off) mem x00.

Definition aa24DecodeEnvelope (slot : list byte) : AA24Record :=
  mkRecord24 (get32 0 slot) (get64 8 slot) (get64 16 slot) (get64 24 slot) (get64 32 slot) (get64 40 slot) (get64 48 slot) (get64 56 slot)
    (get64 64 slot) (get64 72 slot) (get64 80 slot) (get64 88 slot) (get64 96 slot) (get64 104 slot) (get32 112 slot) (get32 116 slot)
    (byte_at 120 slot) (byte_at 121 slot) (byte_at 122 slot) (byte_at 123 slot) (get32 124 slot) [].

Definition with_payload (payload : list byte) (r : AA24Record) : AA24Record :=
  mkRecord24 (AA24Kind r) (rWorker r) (rStream r) (rTransaction r) (rPlan r) (AA24Subscriber r) (AA24Epoch r) (rOwnerToken r) (rOwnerExpiry r)
    (AA24CaptureSequence r) (AA24CaptureTime r) (rPlanExpiry r) (rRequestDeadline r) (rArenaOffset r) (AA24PlanBytes r) (AA24Status r)
    (AA24Target r) (AA24RawOctet r) (AA24Direction r) (AA24Phase r) (AA24Flags r) payload.

(** ** Round trip *)

(** The fields have the width of their types. *)
Definition typed_record (r : AA24Record) : Prop :=
  Forall (fun v => 0 <= v < 2 ^ 32) [AA24Kind r; AA24PlanBytes r; AA24Status r; AA24Flags r] /\
  Forall (fun v => 0 <= v < 2 ^ 64)
    [rWorker r; rStream r; rTransaction r; rPlan r; AA24Subscriber r; AA24Epoch r; rOwnerToken r; rOwnerExpiry r;
     AA24CaptureSequence r; AA24CaptureTime r; rPlanExpiry r; rRequestDeadline r; rArenaOffset r].

Definition record_writes (r : AA24Record) : list (Z * list byte) :=
  [(0, le_bytes 4 (AA24Kind r)); (4, le_bytes 4 (wrap 32 (len (AA24Payload r)))); (8, le_bytes 8 (rWorker r)); (16, le_bytes 8 (rStream r));
   (24, le_bytes 8 (rTransaction r)); (32, le_bytes 8 (rPlan r)); (40, le_bytes 8 (AA24Subscriber r)); (48, le_bytes 8 (AA24Epoch r));
   (56, le_bytes 8 (rOwnerToken r)); (64, le_bytes 8 (rOwnerExpiry r)); (72, le_bytes 8 (AA24CaptureSequence r));
   (80, le_bytes 8 (AA24CaptureTime r)); (88, le_bytes 8 (rPlanExpiry r)); (96, le_bytes 8 (rRequestDeadline r));
   (104, le_bytes 8 (rArenaOffset r)); (112, le_bytes 4 (AA24PlanBytes r)); (116, le_bytes 4 (AA24Status r)); (120, [AA24Target r]);
   (121, [AA24RawOctet r]); (122, [AA24Direction r]); (123, [AA24Phase r]); (124, le_bytes 4 (AA24Flags r)); (128, AA24Payload r)].

Lemma encode_is_writes r slot : aa24Encode r slot = write_all (record_writes r) (replicate (length slot) x00).
Proof. unfold aa24Encode, write_all, record_writes, put32, put64, aa24EnvelopeBytes. cbv zeta. cbn [foldl fst snd]. reflexivity. Qed.

Section envelope.
Context (r : AA24Record) (slot : list byte) (Hfit : 128 + len (AA24Payload r) <= len slot).

#[local] Notation mem := (write_all (record_writes r) (replicate (length slot) x00)).

Lemma record_up : ascending 0 (record_writes r) (len (replicate (length slot) x00)).
Proof. rewrite len_zeros. unfold record_writes. cbn [ascending fst snd]. rewrite !len_le_bytes. unfold len in *. cbn [length]. lia. Qed.

Lemma len_encode : len (aa24Encode r slot) = len slot.
Proof. rewrite encode_is_writes, (len_write_all 0); [apply len_zeros|done|apply record_up]. Qed.

Lemma encoded_slice i o bs : record_writes r !! i = Some (o, bs) -> slice o (len bs) mem = bs.
Proof. intros Hi. apply (slice_write_all 0 (record_writes r) (replicate (length slot) x00) (o, bs)); [done|apply record_up|]. by apply (list_elem_of_lookup_2 _ i). Qed.

Lemma encoded_word32 i o v : record_writes r !! i = Some (o, le_bytes 4 v) -> 0 <= v < 2 ^ 32 -> get32 o mem = v.
Proof. intros Hi Hv. unfold get32. apply encoded_slice in Hi. rewrite len_le_bytes in Hi. change (Z.of_nat 4) with 4 in Hi. rewrite Hi. by apply le_value_small. Qed.

Lemma encoded_word64 i o v : record_writes r !! i = Some (o, le_bytes 8 v) -> 0 <= v < 2 ^ 64 -> get64 o mem = v.
Proof. intros Hi Hv. unfold get64. apply encoded_slice in Hi. rewrite len_le_bytes in Hi. change (Z.of_nat 8) with 8 in Hi. rewrite Hi. by apply le_value_small. Qed.

Lemma encoded_byte i o v : record_writes r !! i = Some (o, [v]) -> byte_at o mem = v.
Proof.
  intros Hi. apply encoded_slice in Hi. unfold byte_at. apply nth_lookup_Some.
  pose proof (lookup_slice o (len [v]) mem 0 Nat.lt_0_1) as E. rewrite Hi, Nat.add_0_r in E. by rewrite <- E.
Qed.

Lemma encoded_envelope : typed_record r -> with_payload (AA24Payload r) (aa24DecodeEnvelope mem) = r.
Proof.
  intros [H32 H64]. repeat setoid_rewrite Forall_cons in H32. repeat setoid_rewrite Forall_cons in H64. destruct H32 as (W0 & W1 & W2 & W3 & _).
  destruct H64 as (V0 & V1 & V2 & V3 & V4 & V5 & V6 & V7 & V8 & V9 & V10 & V11 & V12 & _).
  pose proof (encoded_word32 0 0 _ eq_refl W0) as E0. pose proof (encoded_word64 2 8 _ eq_refl V0) as E1. pose proof (encoded_word64 3 16 _ eq_refl V1) as E2.
  pose proof (encoded_word64 4 24 _ eq_refl V2) as E3. pose proof (encoded_word64 5 32 _ eq_refl V3) as E4. pose proof (encoded_word64 6 40 _ eq_refl V4) as E5.
  pose proof (encoded_word64 7 48 _ eq_refl V5) as E6. pose proof (encoded_word64 8 56 _ eq_refl V6) as E7. pose proof (encoded_word64 9 64 _ eq_refl V7) as E8.
  pose proof (encoded_word64 10 72 _ eq_refl V8) as E9. pose proof (encoded_word64 11 80 _ eq_refl V9) as E10. pose proof (encoded_word64 12 88 _ eq_refl V10) as E11.
  pose proof (encoded_word64 13 96 _ eq_refl V11) as E12. pose proof (encoded_word64 14 104 _ eq_refl V12) as E13. pose proof (encoded_word32 15 112 _ eq_refl W1) as E14.
  pose proof (encoded_word32 16 116 _ eq_refl W2) as E15. pose proof (encoded_byte 17 120 _ eq_refl) as E16. pose proof (encoded_byte 18 121 _ eq_refl) as E17.
  pose proof (encoded_byte 19 122 _ eq_refl) as E18. pose proof (encoded_byte 20 123 _ eq_refl) as E19. pose proof (encoded_word32 21 124 _ eq_refl W3) as E20.
  set (m := mem) in *. clearbody m. unfold aa24DecodeEnvelope, with_payload. cbn [AA24Kind rWorker rStream rTransaction rPlan AA24Subscriber AA24Epoch rOwnerToken rOwnerExpiry
      AA24CaptureSequence AA24CaptureTime rPlanExpiry rRequestDeadline rArenaOffset AA24PlanBytes AA24Status AA24Target AA24RawOctet AA24Direction AA24Phase AA24Flags].
  rewrite E0, E1, E2, E3, E4, E5, E6, E7, E8, E9, E10, E11, E12, E13, E14, E15, E16, E17, E18, E19, E20. clear. by destruct r.
Qed.

Lemma encoded_length : len slot < 2 ^ 32 -> get32 4 mem = len (AA24Payload r).
Proof.
  intros Hs. pose proof (len_nonneg (AA24Payload r)). rewrite (encoded_word32 1 4 _ eq_refl); [apply wrap_small; lia|]. by apply wrap_range.
Qed.

Lemma encoded_payload : slice 128 (len (AA24Payload r)) mem = AA24Payload r.
Proof. by apply (encoded_slice 22). Qed.

Lemma encoded_rest : drop (128 + length (AA24Payload r)) mem = replicate (length slot - (128 + length (AA24Payload r))) x00.
Proof.
  rewrite (drop_write_all 0); [apply drop_replicate|done| |rewrite length_replicate; unfold len in Hfit; lia].
  unfold record_writes. cbn [ascending fst snd]. rewrite !len_le_bytes. unfold len. cbn [length]. lia.
Qed.

(** The envelope, the payload behind it, and zeros to the end of the slot. *)
Lemma envelope_reads_back :
  typed_record r -> len slot < 2 ^ 32 ->
  with_payload (AA24Payload r) (aa24DecodeEnvelope (aa24Encode r slot)) = r /\
  get32 4 (aa24Encode r slot) = len (AA24Payload r) /\
  slice aa24EnvelopeBytes (len (AA24Payload r)) (aa24Encode r slot) = AA24Payload r /\
  drop (128 + length (AA24Payload r)) (aa24Encode r slot) = replicate (length slot - (128 + length (AA24Payload r))) x00.
Proof.
  intros Ht Hs. rewrite encode_is_writes. split; [by apply encoded_envelope|]. split; [by apply encoded_length|]. split; [exact encoded_payload|exact encoded_rest].
Qed.
End envelope.
