(* ===== verification/IpcLane.v ===== *)
(** src/localworker/aa24_ipc.go, one side of a lane: indices, writing, peeking
    and releasing a slot, the service deadline of a control lane.

    The mapping is an argument that the operations return; the arena layout a
    lane points to is one too.  A destination buffer is its capacity.

    At the end, what both sides share: fences, deliveries, reaching a lane. *)

From S2P Require Import Prelude PlanTypes Memory IpcLayout IpcRecord.
#[local] Open Scope list_scope.
#[local] Open Scope Z_scope.

Record AA24LaneStats := mkStats { AA24HighWater : Z; AA24Enqueued : Z; AA24Dequeued : Z; AA24Refused : Z; AA24Dropped : Z }.

Definition zero_stats : AA24LaneStats := mkStats 0 0 0 0 0.

Record aa24Lane := mkLane {
  aa24Layout : aa24LaneLayout; aa24PayloadCap : Z; aa24IsProducer : bool; aa24LocalProducer : Z; aa24LocalConsumer : Z;
  aa24Stats : AA24LaneStats; aa24Saturated : bool; aa24ProgressConsumer : Z; aa24ProgressTick : Z }.

Definition zero_lane : aa24Lane := mkLane zero_lane_layout 0 false 0 0 zero_stats false 0 0.
#[export] Instance lane_inhabited : Inhabited aa24Lane := populate zero_lane.

(** Assignments to the fields. *)
Definition set_local (p c : Z) (n : aa24Lane) : aa24Lane :=
  mkLane (aa24Layout n) (aa24PayloadCap n) (aa24IsProducer n) p c (aa24Stats n) (aa24Saturated n) (aa24ProgressConsumer n) (aa24ProgressTick n).
Definition set_stats (s : AA24LaneStats) (n : aa24Lane) : aa24Lane :=
  mkLane (aa24Layout n) (aa24PayloadCap n) (aa24IsProducer n) (aa24LocalProducer n) (aa24LocalConsumer n) s (aa24Saturated n)
    (aa24ProgressConsumer n) (aa24ProgressTick n).
Definition set_saturated (n : aa24Lane) : aa24Lane :=
  mkLane (aa24Layout n) (aa24PayloadCap n) (aa24IsProducer n) (aa24LocalProducer n) (aa24LocalConsumer n) (aa24Stats n) true
    (aa24ProgressConsumer n) (aa24ProgressTick n).
Definition set_progress (c t : Z) (n : aa24Lane) : aa24Lane :=
  mkLane (aa24Layout n) (aa24PayloadCap n) (aa24IsProducer n) (aa24LocalProducer n) (aa24LocalConsumer n) (aa24Stats n) (aa24Saturated n) c t.

(** The counters [aa24Bump] may be given. *)
Inductive counter := CEnqueued | CDequeued | CRefused | CDropped.

Definition counter_of (k : counter) (s : AA24LaneStats) : Z :=
  match k with CEnqueued => AA24Enqueued s | CDequeued => AA24Dequeued s | CRefused => AA24Refused s | CDropped => AA24Dropped s end.

Definition count_up (k : counter) (s : AA24LaneStats) : AA24LaneStats :=
  match k with
  | CEnqueued => mkStats (AA24HighWater s) (wrap 64 (AA24Enqueued s + 1)) (AA24Dequeued s) (AA24Refused s) (AA24Dropped s)
  | CDequeued => mkStats (AA24HighWater s) (AA24Enqueued s) (wrap 64 (AA24Dequeued s + 1)) (AA24Refused s) (AA24Dropped s)
  | CRefused => mkStats (AA24HighWater s) (AA24Enqueued s) (AA24Dequeued s) (wrap 64 (AA24Refused s + 1)) (AA24Dropped s)
  | CDropped => mkStats (AA24HighWater s) (AA24Enqueued s) (AA24Dequeued s) (AA24Refused s) (wrap 64 (AA24Dropped s + 1))
  end.

Definition aa24Bump (k : counter) (n : aa24Lane) : aa24Lane :=
  if counter_of k (aa24Stats n) =? MaxUint64 then set_saturated n else set_stats (count_up k (aa24Stats n)) n.

(** The high-water mark after an occupancy was seen. *)
Definition see_occupancy (occupancy : Z) (n : aa24Lane) : aa24Lane :=
  if AA24HighWater (aa24Stats n) <? occupancy
  then set_stats (mkStats occupancy (AA24Enqueued (aa24Stats n)) (AA24Dequeued (aa24Stats n)) (AA24Refused (aa24Stats n)) (AA24Dropped (aa24Stats n))) n
  else n.

Definition aa24LoadAcquire (mem : list byte) (offset : Z) : Z := get64 offset mem.
Definition aa24StoreRelease (mem : list byte) (offset value : Z) : list byte := put64 offset value mem.

Definition aa24Indices (mem : list byte) (n : aa24Lane) : aa24Lane * result aa24_error (Z * Z) :=
  let producer := aa24LoadAcquire mem (aa24ProducerOffset (aa24Layout n)) in
  let consumer := aa24LoadAcquire mem (aa24ConsumerOffset (aa24Layout n)) in
  if (producer <? consumer) || (aa24Capacity (aa24Layout n) <? wrap 64 (producer - consumer)) then (n, Err ErrAA24Index)
  else if aa24IsProducer n then
    if negb (producer =? aa24LocalProducer n) || (consumer <? aa24LocalConsumer n) then (n, Err ErrAA24Index)
    else (set_local (aa24LocalProducer n) consumer n, Ok (producer, consumer))
  else
    if negb (consumer =? aa24LocalConsumer n) || (producer <? aa24LocalProducer n) then (n, Err ErrAA24Index)
    else (set_local producer (aa24LocalConsumer n) n, Ok (producer, consumer)).

(** Where the slot of an index starts. *)
Definition aa24Slot (index : Z) (n : aa24Lane) : Z :=
  aa24SlotOffset (aa24Layout n) + (index mod aa24Capacity (aa24Layout n)) * aa24SlotBytes (aa24Layout n).

Definition aa24HasRoom (reserve : Z) (mem : list byte) (n : aa24Lane) : aa24Lane * result aa24_error bool :=
  match aa24Indices mem n with
  | (n, Err err) => (n, Err err)
  | (n, Ok (producer, consumer)) => (n, Ok (wrap 64 (producer - consumer + reserve) <? aa24Capacity (aa24Layout n)))
  end.

(** An empty lane has no deadline: a new backlog of worker control starts its
    budget at the record's own tick. *)
Definition restart_budget (r : AA24Record) (producer : Z) (n : aa24Lane) : aa24Lane :=
  if (aa24Kind (aa24Layout n) =? AA24LaneWorkerControl) && (producer =? aa24LocalConsumer n)
  then set_progress (aa24LocalConsumer n) (AA24CaptureTime r) n else n.

Definition aa24Write (lo : AA24Layout) (r : AA24Record) (reserve : Z) (mem : list byte) (n : aa24Lane)
    : list byte * aa24Lane * option aa24_error :=
  if negb (aa24IsProducer n) then (mem, n, Some ErrAA24Ownership)
  else if aa24PayloadCap n <? len (AA24Payload r) then (mem, n, Some ErrAA24Oversize)
  else if negb (aa24Shape r (aa24Kind (aa24Layout n)) lo) then (mem, n, Some ErrAA24Record)
  else
    match aa24HasRoom reserve mem n with
    | (n, Err err) => (mem, n, Some err)
    | (n, Ok false) => (mem, aa24Bump CRefused n, Some ErrAA24Full)
    | (n, Ok true) =>
        let producer := aa24LocalProducer n in
        if producer =? MaxUint64 then (mem, n, Some ErrAA24Counter)
        else
          let start := aa24Slot producer n in
          let mem := store start (aa24Encode r (slice start (aa24SlotBytes (aa24Layout n)) mem)) mem in
          let mem := aa24StoreRelease mem (aa24ProducerOffset (aa24Layout n)) (producer + 1) in
          let n := set_local (producer + 1) (aa24LocalConsumer n) n in
          let n := restart_budget r producer n in
          let n := aa24Bump CEnqueued n in
          (mem, see_occupancy (wrap 64 (producer + 1 - aa24LocalConsumer n)) n, None)
    end.

Definition aa24Release (mem : list byte) (n : aa24Lane) : list byte * aa24Lane :=
  match aa24Indices mem n with
  | (n, Err _) => (mem, n)
  | (n, Ok (producer, consumer)) =>
      if producer =? consumer then (mem, n)
      else
        let mem := aa24StoreRelease mem (aa24ConsumerOffset (aa24Layout n)) (wrap 64 (consumer + 1)) in
        let n := set_local (aa24LocalProducer n) (wrap 64 (consumer + 1)) n in
        let n := aa24Bump CDequeued n in
        (mem, see_occupancy (wrap 64 (producer - consumer)) n)
  end.

Definition is_control (kind : Z) : bool := (kind =? AA24LaneHostControl) || (kind =? AA24LaneWorkerControl).

(** The record in a slot that is owned. *)
Definition read_slot (lo : AA24Layout) (cap : Z) (slot : list byte) (n : aa24Lane) : result aa24_error AA24Record :=
  let payloadBytes := get32 4 slot in
  if wrap 32 (aa24SlotBytes (aa24Layout n) - aa24EnvelopeBytes) <? payloadBytes then Err ErrAA24Truncated
  else if negb (payloadBytes =? 0) && is_control (aa24Kind (aa24Layout n)) then Err ErrAA24Record
  else if negb (payloadBytes =? 0) && (get32 0 slot =? AA24RecordCompletion) then Err ErrAA24Record
  else if aa24PayloadCap n <? payloadBytes then Err ErrAA24Oversize
  else if cap <? payloadBytes then Err ErrAA24Buffer
  else if existsb (fun b => negb (b =b x00)) (drop (Z.to_nat (aa24EnvelopeBytes + payloadBytes)) slot) then Err ErrAA24Record
  else
    let r := with_payload (slice aa24EnvelopeBytes payloadBytes slot) (aa24DecodeEnvelope slot) in
    if negb (aa24Shape r (aa24Kind (aa24Layout n)) lo) then Err ErrAA24Record else Ok r.

Definition aa24Peek (lo : AA24Layout) (cap : Z) (mem : list byte) (n : aa24Lane) : aa24Lane * result aa24_error (option AA24Record) :=
  if aa24IsProducer n then (n, Err ErrAA24Ownership)
  else
    match aa24Indices mem n with
    | (n, Err err) => (n, Err err)
    | (n, Ok (producer, consumer)) =>
        if producer =? consumer then (n, Ok None)
        else
          let slot := slice (aa24Slot consumer n) (aa24SlotBytes (aa24Layout n)) mem in
          (n, let* r := read_slot lo cap slot n in Ok (Some r))
    end.

Definition aa24Read (lo : AA24Layout) (cap : Z) (mem : list byte) (n : aa24Lane) : list byte * aa24Lane * result aa24_error (option AA24Record) :=
  match aa24Peek lo cap mem n with
  | (n, Ok (Some r)) => (aa24Release mem n, Ok (Some r))
  | (n, r) => (mem, n, r)
  end.

Definition aa24ServiceExpired (budget now : Z) (mem : list byte) (n : aa24Lane) : aa24Lane * result aa24_error bool :=
  match aa24Indices mem n with
  | (n, Err err) => (n, Err err)
  | (n, Ok (producer, consumer)) =>
      if (producer =? consumer) || negb (consumer =? aa24ProgressConsumer n) || (aa24ProgressTick n =? 0)
      then (set_progress consumer now n, Ok false)
      else (n, Ok (budget <=? wrap 64 (now - aa24ProgressTick n)))
  end.

(** The lane of one side, by its layout. *)
Definition attach_lane (l : AA24Limits) (worker : bool) (view : aa24LaneLayout) : aa24Lane :=
  let cap := wrap 32 (aa24SlotBytes view - aa24EnvelopeBytes) in
  let cap := if AA24MaxPayloadBytes l <? cap then AA24MaxPayloadBytes l else cap in
  let workerProduces := (aa24Kind view =? AA24LaneWorkerControl) || (aa24Kind view =? AA24LaneWorkerData) in
  mkLane view cap (Bool.eqb workerProduces worker) 0 0 zero_stats false 0 0.

Definition aa24AttachLanes (lo : AA24Layout) (l : AA24Limits) (worker : bool) : list aa24Lane := attach_lane l worker <$> aa24Lanes lo.

(** * What both sides share

    src/localworker/aa24_ipc.go, what both sides of the mapping share: fence
    states, deliveries, the successor of an expectation, and how a side reaches
    its lanes. *)

Inductive AA24FenceReason :=
| AA24FenceNone | AA24FenceDataFull | AA24FenceControlSaturated | AA24FenceControlDeadline | AA24FenceWorkerGap | AA24FenceDiscontinuity
| AA24FenceCorruption | AA24FenceCounter | AA24FenceClock | AA24FenceStop | AA24FenceWorkerTerminated.

#[export] Instance fence_reason_eq_dec : EqDecision AA24FenceReason.
Proof. solve_decision. Defined.

Record AA24FenceState := mkFence { AA24Reason : AA24FenceReason; AA24Sequence : Z; fCaptureTime : Z }.

Definition no_fence : AA24FenceState := mkFence AA24FenceNone 0 0.

Record AA24Delivery := mkDelivery { dRecord : AA24Record; AA24DequeueTime : Z }.

(** The expectation of a later mapping. *)
Definition successor (e : AA24Expected) (worker stream planFloor tokenFloor : Z) : AA24Expected :=
  mkExpected (mkBinding (AA24Build (AA24Binding_ e)) worker stream) (AA24MappingBytes e) (AA24Limits_ e) planFloor tokenFloor (AA24ClockDomain e).

Definition lane_index (kind : Z) : nat := Z.to_nat (kind - 1).
Definition known_lane (kind : Z) : Prop := 1 <= kind <= 4.

(** A method of a lane that leaves the mapping alone. *)
Definition by_view {A} (f : list byte -> aa24Lane -> aa24Lane * A) (mem : list byte) (n : aa24Lane) : list byte * aa24Lane * A :=
  let (n, a) := f mem n in (mem, n, a).

(** A list without its first element of a kind. *)
Fixpoint remove_first {A} (p : A -> bool) (l : list A) : list A :=
  match l with
  | [] => []
  | a :: rest => if p a then rest else a :: remove_first p rest
  end.
