(* ===== verification/IpcQueue.v ===== *)
(** A lane is a bounded queue (src/localworker/aa24_ipc.go): the two sides'
    views of a lane over one mapping represent a queue of records, and each
    operation does to it what the queue's does. *)

From S2P Require Import Prelude Memory PlanTypes IpcLayout IpcLayoutLaws IpcRecord IpcLane.
#[local] Open Scope list_scope.
#[local] Open Scope Z_scope.

(** ** The queue *)

(** The records waiting, and how many were ever written. *)
Record queue := mkQueue { waiting : list AA24Record; written : Z }.

(** ** What every operation of a lane keeps *)

Definition same_shape (n n' : aa24Lane) : Prop :=
  aa24Layout n' = aa24Layout n /\ aa24PayloadCap n' = aa24PayloadCap n /\ aa24IsProducer n' = aa24IsProducer n.

Lemma indices_shape mem n : same_shape n (aa24Indices mem n).1.
Proof. unfold aa24Indices. destruct (_ || _); [done|]. destruct (aa24IsProducer n) eqn:E; (destruct (_ || _); [done|]); unfold same_shape; cbn; by rewrite E. Qed.

Lemma shape_trans a b c : same_shape a b -> same_shape b c -> same_shape a c.
Proof. intros (A1 & A2 & A3) (B1 & B2 & B3). unfold same_shape. by rewrite B1, B2, B3. Qed.

Lemma bump_shape k n : same_shape n (aa24Bump k n).
Proof. unfold aa24Bump. by destruct (_ =? _). Qed.

Lemma occupancy_shape o n : same_shape n (see_occupancy o n).
Proof. unfold see_occupancy. by destruct (_ <? _). Qed.

Lemma budget_shape r i n : same_shape n (restart_budget r i n).
Proof. unfold restart_budget. by destruct (_ && _). Qed.

Lemma write_shape lo r reserve mem n : same_shape n (aa24Write lo r reserve mem n).1.2.
Proof.
  unfold aa24Write. destruct (negb _); [done|]. destruct (_ <? _); [done|]. destruct (negb _); [done|]. unfold aa24HasRoom.
  pose proof (indices_shape mem n) as Hs. destruct (aa24Indices mem n) as [n1 [[p c]|e]]; cbn [fst snd] in *; [|done].
  destruct (_ <? _); [|cbn [fst snd]; by apply (shape_trans _ n1), bump_shape]. destruct (_ =? _); [done|]. cbn [fst snd].
  eapply shape_trans; [|apply occupancy_shape]. eapply shape_trans; [|apply bump_shape]. eapply shape_trans; [|apply budget_shape]. exact Hs.
Qed.

Lemma peek_shape lo cap mem n : same_shape n (aa24Peek lo cap mem n).1.
Proof.
  unfold aa24Peek. destruct (aa24IsProducer n); [done|]. pose proof (indices_shape mem n) as Hs. destruct (aa24Indices mem n) as [n' [[p c]|e]]; [|done]. by destruct (_ =? _).
Qed.

Lemma release_shape mem n : same_shape n (aa24Release mem n).2.
Proof.
  unfold aa24Release. pose proof (indices_shape mem n) as Hs. destruct (aa24Indices mem n) as [n1 [[p c]|e]]; cbn [fst snd] in *; [|done]. destruct (_ =? _); [done|]. cbn [fst snd].
  eapply shape_trans; [|apply occupancy_shape]. eapply shape_trans; [|apply bump_shape]. exact Hs.
Qed.

Lemma read_shape lo cap mem n : same_shape n (aa24Read lo cap mem n).1.2.
Proof.
  unfold aa24Read. pose proof (peek_shape lo cap mem n) as Hs. destruct (aa24Peek lo cap mem n) as [n1 [[r|]|e]]; cbn [fst snd] in *; [|done|done].
  pose proof (release_shape mem n1) as Hr. destruct (aa24Release mem n1) as [m n2]. cbn [fst snd] in *. by apply (shape_trans _ n1).
Qed.

Lemma expired_shape budget now mem n : same_shape n (aa24ServiceExpired budget now mem n).1.
Proof.
  unfold aa24ServiceExpired. pose proof (indices_shape mem n) as Hs. destruct (aa24Indices mem n) as [n1 [[p c]|e]]; cbn [fst snd] in *; [|done]. by destruct (_ || _).
Qed.

(** What is read has the shape its lane demands. *)
Lemma read_is_shaped lo cap mem n mem' n' r : aa24Read lo cap mem n = (mem', n', Ok (Some r)) -> aa24Shape r (aa24Kind (aa24Layout n)) lo = true.
Proof.
  unfold aa24Read. assert (forall n1, aa24Peek lo cap mem n = (n1, Ok (Some r)) -> aa24Shape r (aa24Kind (aa24Layout n)) lo = true) as Hp.
  { intros n1. unfold aa24Peek. destruct (aa24IsProducer n); [done|]. pose proof (indices_shape mem n) as (S1 & _). destruct (aa24Indices mem n) as [n2 [[p c]|e]]; [|done]. cbn [fst] in S1.
    destruct (_ =? _); [done|]. unfold read_slot. cbv zeta. destruct (_ <? _); [done|]. destruct (_ && _); [done|]. destruct (_ && _); [done|]. destruct (_ <? _); [done|]. destruct (_ <? _); [done|].
    destruct (existsb _ _); [done|]. rewrite S1. destruct (aa24Shape _ _ _) eqn:E; [|done]. cbn [negb rbind]. intros [= _ <-]. exact E. }
  destruct (aa24Peek lo cap mem n) as [n1 [[r1|]|e]]; [|done|done]. destruct (aa24Release mem n1). intros [= _ _ <-]. by apply (Hp n1).
Qed.

Section lane.
Context (lo : AA24Layout) (v : aa24LaneLayout) (cap : Z).

Definition q_write (r : AA24Record) (reserve : Z) (q : queue) : queue * option aa24_error :=
  if cap <? len (AA24Payload r) then (q, Some ErrAA24Oversize)
  else if negb (aa24Shape r (aa24Kind v) lo) then (q, Some ErrAA24Record)
  else if aa24Capacity v <=? len (waiting q) + reserve then (q, Some ErrAA24Full)
  else if written q =? MaxUint64 then (q, Some ErrAA24Counter)
  else (mkQueue (waiting q ++ [r]) (written q + 1), None).

(** A reader with a buffer of [dst] bytes; a payload on a control lane is refused. *)
Definition q_peek (dst : Z) (q : queue) : result aa24_error (option AA24Record) :=
  match waiting q with
  | [] => Ok None
  | r :: _ =>
      if negb (len (AA24Payload r) =? 0) && is_control (aa24Kind v) then Err ErrAA24Record
      else if dst <? len (AA24Payload r) then Err ErrAA24Buffer
      else Ok (Some r)
  end.

Definition q_release (q : queue) : queue := mkQueue (tail (waiting q)) (written q).

Definition q_read (dst : Z) (q : queue) : queue * result aa24_error (option AA24Record) :=
  match q_peek dst q with
  | Ok (Some r) => (q_release q, Ok (Some r))
  | other => (q, other)
  end.

(** ** Where a lane lies *)

Record geometry (mem : list byte) : Prop := {
  geo_inside : Forall (inside (len mem)) (lane_ranges v);
  geo_apart : ForallOrdPairs apart_ranges (lane_ranges v);
  geo_slot : aa24EnvelopeBytes <= aa24SlotBytes v < 2 ^ 32;
  geo_capacity : 1 <= aa24Capacity v <= 2 ^ 20;
  geo_cap : 0 <= cap <= aa24SlotBytes v - aa24EnvelopeBytes }.

Definition slot_at (i : Z) : Z := aa24SlotOffset v + (i mod aa24Capacity v) * aa24SlotBytes v.

(** What may be in a slot. *)
Definition sendable (r : AA24Record) : Prop := typed_record r /\ aa24Shape r (aa24Kind v) lo = true /\ len (AA24Payload r) <= cap.

Definition image (r : AA24Record) : list byte := aa24Encode r (replicate (Z.to_nat (aa24SlotBytes v)) x00).

Definition first_of (q : queue) : Z := written q - len (waiting q).

(** The producer's view [p] and the consumer's view [c] of the lane. *)
Record represents (mem : list byte) (p c : aa24Lane) (q : queue) : Prop := {
  rep_geometry : geometry mem;
  rep_views : aa24Layout p = v /\ aa24Layout c = v /\ aa24PayloadCap p = cap /\ aa24PayloadCap c = cap /\
    aa24IsProducer p = true /\ aa24IsProducer c = false;
  rep_indices : get64 (aa24ProducerOffset v) mem = written q /\ get64 (aa24ConsumerOffset v) mem = first_of q;
  rep_range : 0 <= first_of q /\ written q <= MaxUint64 /\ len (waiting q) <= aa24Capacity v;
  rep_producer : aa24LocalProducer p = written q /\ aa24LocalConsumer p <= first_of q;
  rep_consumer : aa24LocalConsumer c = first_of q /\ aa24LocalProducer c <= written q;
  rep_sendable : Forall sendable (waiting q);
  rep_slots : forall i r, waiting q !! i = Some r -> slice (slot_at (first_of q + Z.of_nat i)) (aa24SlotBytes v) mem = image r }.

(** A memory that agrees on the ranges of the lane. *)
Definition agrees (mem mem' : list byte) : Prop :=
  len mem' = len mem /\ forall a n, (a, n) ∈ lane_ranges v -> slice a n mem' = slice a n mem.

Lemma geometry_len mem mem' : len mem' = len mem -> geometry mem -> geometry mem'.
Proof. intros E [? ? ? ? ?]. split; [by rewrite E|done..]. Qed.

Lemma agrees_64 mem mem' a : agrees mem mem' -> (a, 8) ∈ lane_ranges v -> get64 a mem' = get64 a mem.
Proof. intros [_ H] Ha. unfold get64. by rewrite (H _ _ Ha). Qed.

Lemma slot_inside mem i : geometry mem -> 0 <= i mod aa24Capacity v < aa24Capacity v /\
  aa24SlotOffset v <= slot_at i /\ slot_at i + aa24SlotBytes v <= aa24SlotOffset v + region_bytes v /\
  0 <= aa24SlotOffset v /\ 0 <= region_bytes v /\ aa24SlotOffset v + region_bytes v <= len mem.
Proof.
  intros [Hin _ Hs Hc _]. unfold aa24EnvelopeBytes in Hs. apply Forall_cons in Hin as [(H1 & H2 & H3) _]. cbn [fst snd] in *.
  pose proof (Z.mod_pos_bound i (aa24Capacity v) ltac:(lia)) as Hm. unfold slot_at, region_bytes in *. split; [done|]. split_and!; nia.
Qed.

Lemma agrees_slot mem mem' i : geometry mem -> agrees mem mem' -> slice (slot_at i) (aa24SlotBytes v) mem' = slice (slot_at i) (aa24SlotBytes v) mem.
Proof.
  intros Hg [_ H]. destruct (slot_inside mem i Hg) as (_ & H1 & H2 & H3 & H4 & _).
  assert (E : slice (aa24SlotOffset v) (region_bytes v) mem' = slice (aa24SlotOffset v) (region_bytes v) mem) by (apply H; by left).
  apply (f_equal (slice (slot_at i - aa24SlotOffset v) (aa24SlotBytes v))) in E. rewrite !slice_slice in E by lia.
  replace (aa24SlotOffset v + (slot_at i - aa24SlotOffset v)) with (slot_at i) in E by lia. exact E.
Qed.

Lemma represents_agrees mem mem' p c q : agrees mem mem' -> represents mem p c q -> represents mem' p c q.
Proof.
  intros Ha [Hg Hv [H1 H2] Hr Hp Hc Hs Hsl]. split; try done.
  - apply (geometry_len mem); [apply Ha|done].
  - rewrite !(agrees_64 mem mem') by (done || (unfold lane_ranges; set_solver)). done.
  - intros i r Hi. rewrite (agrees_slot mem) by done. by apply Hsl.
Qed.

(** ** Indices *)

Lemma producer_indices mem p c q :
  represents mem p c q -> aa24Indices mem p = (set_local (written q) (first_of q) p, Ok (written q, first_of q)).
Proof.
  intros [Hg (V1 & _ & _ & _ & V5 & _) [H1 H2] (R1 & R2 & R3) (P1 & P2) _ _ _]. pose proof (geo_capacity _ Hg) as Hc. unfold aa24Indices, aa24LoadAcquire. rewrite V1, V5, H1, H2, P1.
  unfold first_of in *. pose proof (len_nonneg (waiting q)). rewrite wrap_small by lia.
  destruct (Z.ltb_spec (written q) (written q - len (waiting q))); [lia|]. destruct (Z.ltb_spec (aa24Capacity v) (written q - (written q - len (waiting q)))); [lia|].
  cbn [orb]. rewrite Z.eqb_refl. destruct (Z.ltb_spec (written q - len (waiting q)) (aa24LocalConsumer p)); [lia|]. done.
Qed.

Lemma consumer_indices mem p c q :
  represents mem p c q -> aa24Indices mem c = (set_local (written q) (first_of q) c, Ok (written q, first_of q)).
Proof.
  intros [Hg (_ & V2 & _ & _ & _ & V6) [H1 H2] (R1 & R2 & R3) _ (C1 & C2) _ _]. pose proof (geo_capacity _ Hg) as Hc. unfold aa24Indices, aa24LoadAcquire. rewrite V2, V6, H1, H2, C1.
  unfold first_of in *. pose proof (len_nonneg (waiting q)). rewrite wrap_small by lia.
  destruct (Z.ltb_spec (written q) (written q - len (waiting q))); [lia|]. destruct (Z.ltb_spec (aa24Capacity v) (written q - (written q - len (waiting q)))); [lia|].
  cbn [orb]. rewrite Z.eqb_refl. destruct (Z.ltb_spec (written q) (aa24LocalProducer c)); [lia|]. done.
Qed.

(** The views may learn the indices, and count, without any harm. *)
Definition same_lane (n n' : aa24Lane) : Prop :=
  aa24Layout n' = aa24Layout n /\ aa24PayloadCap n' = aa24PayloadCap n /\ aa24IsProducer n' = aa24IsProducer n /\
  aa24LocalProducer n' = aa24LocalProducer n /\ aa24LocalConsumer n' = aa24LocalConsumer n.

Lemma bump_same k n : same_lane n (aa24Bump k n).
Proof. unfold aa24Bump. by destruct (_ =? _). Qed.

Lemma occupancy_same o n : same_lane n (see_occupancy o n).
Proof. unfold see_occupancy. by destruct (_ <? _). Qed.

Lemma budget_same r i n : same_lane n (restart_budget r i n).
Proof. unfold restart_budget. by destruct (_ && _). Qed.

Lemma same_lane_shape n n' : same_lane n n' -> same_shape n n'.
Proof. by intros (? & ? & ? & _). Qed.

Lemma same_lane_trans a b c : same_lane a b -> same_lane b c -> same_lane a c.
Proof. intros (? & ? & ? & ? & ?) (? & ? & ? & ? & ?). unfold same_lane. split_and!; congruence. Qed.

Lemma represents_same mem p p' c c' q : same_lane p p' -> same_lane c c' -> represents mem p c q -> represents mem p' c' q.
Proof.
  intros (A1 & A2 & A3 & A4 & A5) (B1 & B2 & B3 & B4 & B5) [Hg Hv Hi Hr Hp Hc Hs Hsl].
  split; try done; [by rewrite A1, A2, A3, B1, B2, B3|by rewrite A4, A5|by rewrite B4, B5].
Qed.

Lemma represents_seen mem p c q :
  represents mem p c q -> represents mem (set_local (written q) (first_of q) p) c q /\ represents mem p (set_local (written q) (first_of q) c) q.
Proof.
  intros [Hg Hv Hi Hr Hp Hc Hs Hsl]. pose proof (len_nonneg (waiting q)). unfold first_of in *.
  split; split; try done; cbn [set_local aa24LocalProducer aa24LocalConsumer]; unfold first_of; lia.
Qed.

(** ** Writing *)

(** Only the lane's own ranges changed. *)
Definition framed (mem mem' : list byte) : Prop :=
  len mem' = len mem /\
  forall a n, 0 <= a -> 0 <= n -> Forall (fun r => apart_ranges r (a, n)) (lane_ranges v) -> slice a n mem' = slice a n mem.

Lemma framed_refl mem : framed mem mem.
Proof. done. Qed.

Lemma framed_trans mem1 mem2 mem3 : framed mem1 mem2 -> framed mem2 mem3 -> framed mem1 mem3.
Proof. intros [L1 H1] [L2 H2]. split; [congruence|]. intros a n Ha Hn H. by rewrite H2, H1. Qed.

Lemma framed_store mem o bs a n :
  geometry mem -> (a, n) ∈ lane_ranges v -> a <= o -> o + len bs <= a + n -> framed mem (store o bs mem).
Proof.
  intros Hg Ha Ho Hb. pose proof (len_nonneg bs) as Hl. destruct (proj1 (Forall_forall _ _) (geo_inside _ Hg) _ Ha) as (I1 & I2 & I3). cbn [fst snd] in *.
  assert (fits o (len bs) mem) as Hf by (unfold fits; lia). split; [by apply len_store|]. intros b m Hb0 Hm Hap.
  apply slice_store_other; [done|done|done|]. pose proof (proj1 (Forall_forall _ _) Hap _ Ha) as H. unfold apart_ranges, disjoint in *. cbn [fst snd] in H. lia.
Qed.

(** The three ranges of the lane, apart from each other. *)
Lemma geometry_apart mem : geometry mem ->
  disjoint (aa24SlotOffset v) (region_bytes v) (aa24ProducerOffset v) 8 /\ disjoint (aa24SlotOffset v) (region_bytes v) (aa24ConsumerOffset v) 8 /\
  disjoint (aa24ProducerOffset v) 8 (aa24ConsumerOffset v) 8 /\
  inside (len mem) (aa24ProducerOffset v, 8) /\ inside (len mem) (aa24ConsumerOffset v, 8).
Proof.
  intros [Hi Ha _ _ _]. unfold lane_ranges in *. rewrite !Forall_cons in Hi. destruct Hi as (_ & I1 & I2 & _).
  apply ordered_pairs_cons in Ha as [H1 H2]. apply ordered_pairs_cons in H2 as [H2 _]. rewrite !Forall_cons in H1. rewrite Forall_cons in H2.
  destruct H1 as (A & B & _), H2 as (C & _). by split_and!.
Qed.

(** Two slots in use are apart. *)
Lemma slots_apart i j : 1 <= aa24Capacity v -> 0 <= aa24SlotBytes v -> 0 < Z.abs (i - j) < aa24Capacity v ->
  disjoint (slot_at i) (aa24SlotBytes v) (slot_at j) (aa24SlotBytes v).
Proof.
  intros Hc Hs Hij. unfold slot_at, disjoint.
  assert (i mod aa24Capacity v <> j mod aa24Capacity v) as Hne.
  { intros E. pose proof (Z.div_mod i (aa24Capacity v) ltac:(lia)) as Ei. pose proof (Z.div_mod j (aa24Capacity v) ltac:(lia)) as Ej. rewrite E in Ei.
    set (k := i / aa24Capacity v - j / aa24Capacity v). assert (i - j = aa24Capacity v * k) as Ek by (unfold k; lia).
    destruct (Z_lt_le_dec k 0); [nia|]. destruct (Z_lt_le_dec 0 k); nia. }
  destruct (Z_lt_le_dec (i mod aa24Capacity v) (j mod aa24Capacity v)); [left|right]; nia.
Qed.

Lemma len_image r : len (AA24Payload r) <= cap -> 0 <= cap <= aa24SlotBytes v - 128 -> len (image r) = aa24SlotBytes v.
Proof. intros H1 H2. unfold image. rewrite len_encode; rewrite len_zeros; lia. Qed.

Lemma encode_slot r mem i : geometry mem -> aa24Encode r (slice (slot_at i) (aa24SlotBytes v) mem) = image r.
Proof.
  intros Hg. unfold image. rewrite !encode_is_writes. f_equal. f_equal. destruct (slot_inside mem i Hg) as (H0 & H1 & H2 & H3 & H4 & H5).
  pose proof (geo_slot _ Hg) as Hs. unfold aa24EnvelopeBytes in Hs. rewrite length_replicate.
  assert (len (slice (slot_at i) (aa24SlotBytes v) mem) = aa24SlotBytes v) as L by (apply len_slice; unfold fits; lia). unfold len in L. lia.
Qed.

(** The memory after a record was written and the index released. *)
Definition pushed (r : AA24Record) (i : Z) (mem : list byte) : list byte :=
  put64 (aa24ProducerOffset v) (i + 1) (store (slot_at i) (image r) mem).

Lemma pushed_framed r i mem : geometry mem -> len (AA24Payload r) <= cap -> framed mem (pushed r i mem).
Proof.
  intros Hg Hr. destruct (slot_inside mem i Hg) as (H0 & H1 & H2 & H3 & H4 & H5). pose proof (geo_cap _ Hg) as Hc. unfold aa24EnvelopeBytes in Hc.
  pose proof (len_image r Hr Hc) as Li.
  assert (framed mem (store (slot_at i) (image r) mem)) as F by (apply (framed_store _ _ _ (aa24SlotOffset v) (region_bytes v)); [done|by left|lia|lia]).
  apply (framed_trans _ _ _ F). apply (framed_store _ _ _ (aa24ProducerOffset v) 8); [apply (geometry_len mem); [apply F|done]|by right; left|lia|].
  rewrite len_le_bytes. lia.
Qed.

Lemma pushed_represents mem p c q r :
  represents mem p c q -> sendable r -> len (waiting q) < aa24Capacity v -> written q < MaxUint64 ->
  represents (pushed r (written q) mem) (set_local (written q + 1) (first_of q) p) c (mkQueue (waiting q ++ [r]) (written q + 1)).
Proof.
  intros [Hg Hv [H1 H2] (R1 & R2 & R3) (P1 & P2) (C1 & C2) Hs Hsl] Hr Hroom Hmax.
  destruct (slot_inside mem (written q) Hg) as (K0 & K1 & K2 & K3 & K4 & K5). pose proof (geo_cap _ Hg) as Hcap. unfold aa24EnvelopeBytes in Hcap.
  pose proof (geo_slot _ Hg) as Hsb. unfold aa24EnvelopeBytes in Hsb. pose proof (geo_capacity _ Hg) as Hcc.
  destruct Hr as (Ht & Hshape & Hlen). pose proof (len_image r Hlen Hcap) as Li. destruct (pushed_framed r (written q) mem Hg Hlen) as [Lp _].
  destruct (geometry_apart mem Hg) as (A1 & A2 & A3 & (I1 & _ & I2) & (J1 & _ & J2)). cbn [fst snd] in *.
  set (m1 := store (slot_at (written q)) (image r) mem). assert (fits (slot_at (written q)) (len (image r)) mem) as Hf by (unfold fits; lia).
  assert (len m1 = len mem) as Lm by (by apply len_store). assert (fits (aa24ProducerOffset v) 8 m1) as Hfp by (unfold fits; lia).
  assert (Hslot : forall j, slice (slot_at j) (aa24SlotBytes v) (pushed r (written q) mem) = slice (slot_at j) (aa24SlotBytes v) m1).
  { intros j. destruct (slot_inside mem j Hg) as (_ & G1 & G2 & _). unfold pushed, put64. fold m1. apply slice_store_other; rewrite ?len_le_bytes; [done|lia|lia|].
    unfold disjoint in *. lia. }
  assert (Hfirst : first_of (mkQueue (waiting q ++ [r]) (written q + 1)) = first_of q).
  { unfold first_of. cbn [written waiting]. rewrite len_app. change (len [r]) with 1. lia. }
  pose proof (len_nonneg (waiting q)) as Hw. unfold MaxUint64 in *. split; rewrite ?Hfirst; cbn [written waiting set_local aa24Layout aa24PayloadCap aa24IsProducer aa24LocalProducer aa24LocalConsumer].
  - by apply (geometry_len mem).
  - done.
  - unfold pushed. fold m1. split; [apply get64_put64; [done|unfold first_of in *; lia]|].
    unfold put64. rewrite get64_store; [|by rewrite len_le_bytes|lia|rewrite len_le_bytes; done].
    unfold m1. rewrite get64_store; [done|done|lia|]. rewrite Li. unfold disjoint in *. lia.
  - rewrite len_app. change (len [r]) with 1. unfold MaxUint64. lia.
  - lia.
  - lia.
  - apply Forall_app. split; [done|]. apply Forall_singleton. by split_and!.
  - intros i r0 Hi. rewrite Hslot. unfold m1. apply lookup_app_Some in Hi as [Hi|[Hge Hi]].
    + pose proof (lookup_lt_Some _ _ _ Hi) as Hlt. rewrite slice_store_other; [by apply Hsl|done| | |].
      * destruct (slot_inside mem (first_of q + Z.of_nat i) Hg) as (_ & G1 & _ & G3 & _). lia.
      * lia.
      * rewrite Li. apply slots_apart; [lia|lia|]. unfold first_of, len in *. lia.
    + apply list_lookup_singleton_Some in Hi as [Hi <-]. assert (first_of q + Z.of_nat i = written q) as -> by (unfold first_of, len in *; lia).
      rewrite <- Li at 1. by apply slice_store_same.
Qed.

Lemma has_room mem p c q reserve :
  represents mem p c q -> 0 <= reserve <= 2 ^ 20 ->
  aa24HasRoom reserve mem p = (set_local (written q) (first_of q) p, Ok (len (waiting q) + reserve <? aa24Capacity v)).
Proof.
  intros H Hr. unfold aa24HasRoom. rewrite (producer_indices mem p c q H). pose proof (geo_capacity _ (rep_geometry _ _ _ _ H)). destruct (rep_range _ _ _ _ H) as (R1 & R2 & R3).
  pose proof (len_nonneg (waiting q)). destruct (rep_views _ _ _ _ H) as (V1 & _). cbn [set_local aa24Layout]. rewrite V1. unfold first_of. rewrite wrap_small by lia. do 3 f_equal. lia.
Qed.

Lemma write_refines mem p c q r reserve :
  represents mem p c q -> 0 <= reserve <= 2 ^ 20 -> typed_record r ->
  exists mem' p' q' e, aa24Write lo r reserve mem p = (mem', p', e) /\ q_write r reserve q = (q', e) /\
    represents mem' p' c q' /\ framed mem mem'.
Proof.
  intros H Hres Ht. pose proof (proj1 (represents_seen mem p c q H)) as Hseen. pose proof (rep_geometry _ _ _ _ H) as Hg.
  destruct (rep_views _ _ _ _ H) as (V1 & V2 & V3 & V4 & V5 & V6). destruct (rep_range _ _ _ _ H) as (R1 & R2 & R3).
  unfold aa24Write, q_write. rewrite V5, V3, V1, (has_room mem p c q reserve H Hres). cbn [negb].
  destruct (Z.ltb_spec cap (len (AA24Payload r))) as [|Hlen]; [by eexists _, _, _, _|]. destruct (aa24Shape r (aa24Kind v) lo) eqn:Esh; cbn [negb]; [|by eexists _, _, _, _].
  rewrite Z.ltb_antisym. destruct (Z.leb_spec (aa24Capacity v) (len (waiting q) + reserve)) as [|Hroom]; cbn [negb].
  - eexists _, _, _, _. split; [done|]. split; [done|]. split; [|done]. apply (represents_same mem _ _ c c q (bump_same CRefused _)); [done|exact Hseen].
  - cbn [set_local aa24LocalProducer aa24Layout aa24LocalConsumer]. destruct (Z.eqb_spec (written q) MaxUint64) as [|Hmax]; [by eexists _, _, _, _|].
    assert (sendable r) as Hsend by done. eexists _, _, _, _. split; [done|]. split; [done|]. unfold aa24Slot. cbn [set_local aa24Layout]. rewrite V1.
    fold (slot_at (written q)). rewrite (encode_slot r mem (written q) Hg). unfold aa24StoreRelease. fold (pushed r (written q) mem).
    split; [|by apply pushed_framed]. eapply (represents_same _ (set_local (written q + 1) (first_of q) p) _ c c); [|done|apply pushed_represents; done || lia].
    eapply same_lane_trans; [apply budget_same|]. eapply same_lane_trans; [apply bump_same|]. apply occupancy_same.
Qed.

(** ** Reading *)

Lemma completion_is_empty r kind : aa24Shape r kind lo = true -> AA24Kind r = AA24RecordCompletion -> len (AA24Payload r) = 0.
Proof.
  intros H E. unfold aa24Shape in H. destruct (_ || _) in H; [done|]. rewrite E in H. cbv zeta in H. cbn [Z.eqb Pos.eqb AA24RecordCompletion AA24RecordPublish AA24RecordRevoke
    AA24RecordAcknowledge AA24RecordGap AA24RecordStop AA24RecordCommand AA24RecordRaw] in H.
  apply andb_true_iff in H as [H _]. apply andb_true_iff in H as [_ H%Z.eqb_eq]. done.
Qed.

(** What [read_slot] looks at, for the image of a record. *)
Lemma image_reads_back mem r :
  geometry mem -> sendable r ->
  with_payload (AA24Payload r) (aa24DecodeEnvelope (image r)) = r /\ get32 4 (image r) = len (AA24Payload r) /\
  slice aa24EnvelopeBytes (len (AA24Payload r)) (image r) = AA24Payload r /\
  existsb (fun b => negb (b =b x00)) (drop (Z.to_nat (aa24EnvelopeBytes + len (AA24Payload r))) (image r)) = false.
Proof.
  intros Hg (Ht & Hsh & Hlen). pose proof (geo_slot _ Hg) as Hs. pose proof (geo_cap _ Hg) as Hcap. unfold aa24EnvelopeBytes in Hs, Hcap. pose proof (len_nonneg (AA24Payload r)) as Hp.
  assert (len (replicate (Z.to_nat (aa24SlotBytes v)) x00) = aa24SlotBytes v) as Lz by (rewrite len_zeros; lia).
  destruct (envelope_reads_back r (replicate (Z.to_nat (aa24SlotBytes v)) x00) ltac:(lia) Ht ltac:(lia)) as (E1 & E2 & E3 & E4).
  split; [exact E1|]. split; [exact E2|]. split; [exact E3|].
  assert (Z.to_nat (aa24EnvelopeBytes + len (AA24Payload r)) = (128 + length (AA24Payload r))%nat) as -> by (unfold aa24EnvelopeBytes, len; lia).
  unfold image. rewrite E4. generalize (length (replicate (Z.to_nat (aa24SlotBytes v)) x00) - (128 + length (AA24Payload r)))%nat. clear.
  induction n as [|n IH]; [done|exact IH].
Qed.

Lemma image_kind mem r : geometry mem -> sendable r -> get32 0 (image r) = AA24Kind r.
Proof. intros Hg Hr. destruct (image_reads_back mem r Hg Hr) as (E & _). generalize dependent (image r). intros im E. rewrite <- E. unfold aa24DecodeEnvelope, with_payload. cbn [AA24Kind]. reflexivity. Qed.

Lemma read_image mem r dst n :
  geometry mem -> sendable r -> aa24Layout n = v -> aa24PayloadCap n = cap ->
  read_slot lo dst (image r) n =
    if negb (len (AA24Payload r) =? 0) && is_control (aa24Kind v) then Err ErrAA24Record
    else if dst <? len (AA24Payload r) then Err ErrAA24Buffer else Ok r.
Proof.
  intros Hg Hr Hv Hc. destruct (image_reads_back mem r Hg Hr) as (E1 & E2 & E3 & E4). pose proof (image_kind mem r Hg Hr) as E0.
  pose proof (geo_slot _ Hg) as Hs. pose proof (geo_cap _ Hg) as Hcap. destruct Hr as (Ht & Hsh & Hlen). pose proof (len_nonneg (AA24Payload r)) as Hp.
  generalize dependent (image r). intros im E1 E2 E3 E4 E0. unfold read_slot. cbv zeta. rewrite E2, E0, E3, E4, E1, Hv, Hc, Hsh. unfold aa24EnvelopeBytes in *. rewrite wrap_small by lia.
  destruct (Z.ltb_spec (aa24SlotBytes v - 128) (len (AA24Payload r))); [lia|]. destruct (negb _ && is_control _); [reflexivity|].
  assert (negb (len (AA24Payload r) =? 0) && (AA24Kind r =? AA24RecordCompletion) = false) as ->.
  { destruct (Z.eqb_spec (AA24Kind r) AA24RecordCompletion) as [E|]; [|apply andb_false_r]. by rewrite (completion_is_empty r _ Hsh E). }
  destruct (Z.ltb_spec cap (len (AA24Payload r))); [lia|]. reflexivity.
Qed.

Lemma peek_refines mem p c q dst :
  represents mem p c q -> aa24Peek lo dst mem c = (set_local (written q) (first_of q) c, q_peek dst q).
Proof.
  intros H. destruct (rep_views _ _ _ _ H) as (V1 & V2 & V3 & V4 & V5 & V6). unfold aa24Peek, q_peek. rewrite V6, (consumer_indices mem p c q H).
  destruct (waiting q) as [|r rest] eqn:Ew.
  - replace (first_of q) with (written q) by (unfold first_of; rewrite Ew; change (len (@nil AA24Record)) with 0; lia). by rewrite Z.eqb_refl.
  - destruct (Z.eqb_spec (written q) (first_of q)) as [E|_].
    + exfalso. unfold first_of in E. rewrite Ew, len_cons in E. pose proof (len_nonneg rest). lia.
    + pose proof (rep_slots _ _ _ _ H 0 r) as Hs. rewrite Ew in Hs. specialize (Hs eq_refl). rewrite Z.add_0_r in Hs.
      unfold aa24Slot. cbn [set_local aa24Layout]. rewrite V2. fold (slot_at (first_of q)). rewrite Hs.
      pose proof (rep_sendable _ _ _ _ H) as Hall. rewrite Ew in Hall. apply Forall_cons in Hall as [Hr _].
      rewrite (read_image mem r dst _ (rep_geometry _ _ _ _ H) Hr); [|done|done]. destruct (_ && _); [done|]. by destruct (_ <? _).
Qed.

(** The memory after the first record was released. *)
Definition popped (i : Z) (mem : list byte) : list byte := put64 (aa24ConsumerOffset v) (i + 1) mem.

Lemma popped_framed i mem : geometry mem -> framed mem (popped i mem).
Proof. intros Hg. apply (framed_store _ _ _ (aa24ConsumerOffset v) 8); [done|by right; right; left|lia|rewrite len_le_bytes; lia]. Qed.

Lemma popped_represents mem p c q r rest :
  represents mem p c q -> waiting q = r :: rest ->
  represents (popped (first_of q) mem) p (set_local (written q) (first_of q + 1) c) (mkQueue rest (written q)).
Proof.
  intros [Hg Hv [H1 H2] (R1 & R2 & R3) (P1 & P2) (C1 & C2) Hs Hsl] Ew. rewrite Ew in *. destruct (geometry_apart mem Hg) as (A1 & A2 & A3 & (I1 & _ & I2) & (J1 & _ & J2)). cbn [fst snd] in *.
  assert (fits (aa24ConsumerOffset v) 8 mem) as Hf by (unfold fits; lia). destruct (popped_framed (first_of q) mem Hg) as [Lp _]. pose proof (len_nonneg rest) as Hr.
  assert (Hfirst : first_of (mkQueue rest (written q)) = first_of q + 1).
  { unfold first_of. cbn [written waiting]. rewrite Ew, len_cons. lia. }
  rewrite len_cons in R3. assert (first_of q + 1 + len rest = written q) as Hw by (unfold first_of; rewrite Ew, len_cons; lia). unfold MaxUint64 in *. apply Forall_cons in Hs as [_ Hs].
  split; rewrite ?Hfirst; cbn [written waiting set_local aa24Layout aa24PayloadCap aa24IsProducer aa24LocalProducer aa24LocalConsumer].
  - by apply (geometry_len mem).
  - done.
  - unfold popped. split; [unfold put64; rewrite get64_store; [done|by rewrite len_le_bytes|lia|rewrite len_le_bytes; unfold disjoint in *; lia]|].
    apply get64_put64; [done|lia].
  - unfold MaxUint64. lia.
  - lia.
  - lia.
  - done.
  - intros i r0 Hi. replace (first_of q + 1 + Z.of_nat i) with (first_of q + Z.of_nat (S i)) by lia. rewrite <- (Hsl (S i) r0 Hi).
    destruct (slot_inside mem (first_of q + Z.of_nat (S i)) Hg) as (_ & G1 & G2 & G3 & _). pose proof (geo_slot _ Hg) as Hsb. unfold aa24EnvelopeBytes in Hsb.
    unfold popped, put64. apply slice_store_other; rewrite ?len_le_bytes; [done|lia|lia|]. unfold disjoint in *. lia.
Qed.

Lemma release_refines mem p c q :
  represents mem p c q ->
  exists mem' c', aa24Release mem c = (mem', c') /\ represents mem' p c' (q_release q) /\ framed mem mem'.
Proof.
  intros H. pose proof (proj2 (represents_seen mem p c q H)) as Hseen. destruct (rep_views _ _ _ _ H) as (V1 & V2 & _). destruct (rep_range _ _ _ _ H) as (R1 & R2 & R3).
  unfold aa24Release, q_release. rewrite (consumer_indices mem p c q H). destruct (waiting q) as [|r rest] eqn:Ew.
  - assert (first_of q = written q) as E by (unfold first_of; rewrite Ew; change (len (@nil AA24Record)) with 0; lia). rewrite E, Z.eqb_refl.
    eexists _, _. split; [done|]. split; [|done]. cbn [tail]. rewrite E in Hseen. destruct q as [w n]. cbn in Ew |- *. by subst w.
  - pose proof (len_nonneg rest). assert (first_of q + 1 + len rest = written q) as Hw by (unfold first_of; rewrite Ew, len_cons; lia).
    destruct (Z.eqb_spec (written q) (first_of q)); [lia|]. unfold MaxUint64 in R2. rewrite wrap_small by lia. eexists _, _. split; [done|].
    unfold aa24StoreRelease. cbn [set_local aa24Layout]. rewrite V2. fold (popped (first_of q) mem). split; [|by apply popped_framed, (rep_geometry _ _ _ _ H)].
    cbn [tail]. eapply (represents_same _ p _ (set_local (written q) (first_of q + 1) c)); [done| |by apply (popped_represents mem p c q r rest)].
    eapply same_lane_trans; [|apply occupancy_same]. apply bump_same.
Qed.

Lemma read_refines mem p c q dst :
  represents mem p c q ->
  exists mem' c' q' a, aa24Read lo dst mem c = (mem', c', a) /\ q_read dst q = (q', a) /\ represents mem' p c' q' /\ framed mem mem'.
Proof.
  intros H. pose proof (proj2 (represents_seen mem p c q H)) as Hseen. unfold aa24Read, q_read. rewrite (peek_refines mem p c q dst H).
  destruct (q_peek dst q) as [[r|]|e]; [|by eexists _, _, _, _..].
  destruct (release_refines mem p _ q Hseen) as (mem' & c' & E & Hr & Hf). rewrite E. by eexists _, _, _, _.
Qed.

(** Whatever the memory holds, a lane operation stays inside its ranges. *)
Lemma write_framed r reserve mem n :
  geometry mem -> aa24Layout n = v -> aa24PayloadCap n = cap ->
  framed mem (aa24Write lo r reserve mem n).1.1 /\ same_shape n (aa24Write lo r reserve mem n).1.2.
Proof.
  intros Hg Hv Hc. unfold aa24Write. destruct (negb _); [done|]. rewrite Hc. destruct (Z.ltb_spec cap (len (AA24Payload r))) as [|Hlen]; [done|]. destruct (negb _); [done|].
  unfold aa24HasRoom. pose proof (indices_shape mem n) as Hs. destruct (aa24Indices mem n) as [n1 [[p c]|e]]; cbn [fst snd] in *; [|done].
  destruct (_ <? _); [|split; [done|]; destruct Hs as (S1 & S2 & S3), (bump_same CRefused n1) as (T1 & T2 & T3 & _); unfold same_shape; cbn [fst snd]; by rewrite T1, T2, T3].
  destruct (_ =? _); [done|]. cbn [fst snd]. destruct Hs as (S1 & S2 & S3). unfold aa24Slot. rewrite S1, Hv. fold (slot_at (aa24LocalProducer n1)).
  rewrite (encode_slot r mem _ Hg). cbn [set_local aa24Layout aa24LocalConsumer]. unfold aa24StoreRelease. fold (pushed r (aa24LocalProducer n1) mem). split; [by apply pushed_framed|].
  match goal with |- same_shape n (see_occupancy ?o (aa24Bump ?k (restart_budget ?a ?b ?m))) =>
    pose proof (same_lane_trans _ _ _ (same_lane_trans _ _ _ (budget_same a b m) (bump_same k _)) (occupancy_same o _)) as (T1 & T2 & T3 & _) end.
  unfold same_shape. cbn [set_local aa24Layout aa24PayloadCap aa24IsProducer] in *. by rewrite T1, T2, T3.
Qed.

Lemma write_done r reserve mem n mem' n' :
  geometry mem -> aa24Layout n = v -> aa24Write lo r reserve mem n = (mem', n', None) -> mem' = pushed r (get64 (aa24ProducerOffset v) mem) mem.
Proof.
  intros Hg Hv. unfold aa24Write. destruct (aa24IsProducer n) eqn:Ep; [|done]. cbn [negb]. destruct (_ <? _); [done|]. destruct (negb _); [done|].
  unfold aa24HasRoom, aa24Indices, aa24LoadAcquire. destruct (_ || _); [done|]. rewrite Ep. destruct (_ || _) eqn:E; [done|].
  apply orb_false_iff in E as [E%negb_false_iff%Z.eqb_eq _]. destruct (_ <? _); [|done]. cbn [set_local aa24LocalProducer aa24Layout aa24LocalConsumer]. destruct (_ =? _); [done|].
  unfold aa24Slot. cbn [set_local aa24Layout]. rewrite Hv in *. rewrite <- E. fold (slot_at (get64 (aa24ProducerOffset v) mem)). rewrite (encode_slot r mem _ Hg). by intros [= <- _].
Qed.

Lemma release_framed mem n :
  geometry mem -> aa24Layout n = v -> framed mem (aa24Release mem n).1 /\ same_shape n (aa24Release mem n).2.
Proof.
  intros Hg Hv. unfold aa24Release. pose proof (indices_shape mem n) as Hs. destruct (aa24Indices mem n) as [n1 [[p c]|e]]; cbn [fst snd] in *; [|done].
  destruct (_ =? _); [done|]. cbn [fst snd]. destruct Hs as (S1 & S2 & S3). rewrite S1, Hv. split.
  - apply (framed_store _ _ _ (aa24ConsumerOffset v) 8); [done|by right; right; left|lia|rewrite len_le_bytes; lia].
  - match goal with |- same_shape n (see_occupancy ?o (aa24Bump ?k ?m)) => pose proof (same_lane_trans _ _ _ (bump_same k m) (occupancy_same o _)) as (T1 & T2 & T3 & _) end.
    unfold same_shape. cbn [set_local aa24Layout aa24PayloadCap aa24IsProducer] in *. by rewrite T1, T2, T3.
Qed.

(** Another lane's work does not disturb this one. *)
Lemma framed_represents (mem mem' : list byte) p c q (others : list (Z * Z)) :
  len mem' = len mem ->
  (forall a n, 0 <= a -> 0 <= n -> Forall (fun r => apart_ranges r (a, n)) others -> slice a n mem' = slice a n mem) ->
  Forall (fun r => Forall (fun o => apart_ranges o r) others) (lane_ranges v) ->
  represents mem p c q -> represents mem' p c q.
Proof.
  intros Hl Hf Hap H. apply (represents_agrees mem mem'); [|done]. split; [done|]. intros a n Ha. 
  destruct (proj1 (Forall_forall _ _) (geo_inside _ (rep_geometry _ _ _ _ H)) _ Ha) as (I1 & I2 & I3). cbn [fst snd] in *.
  apply Hf; [done|done|]. exact (proj1 (Forall_forall _ _) Hap _ Ha).
Qed.
End lane.
