(* ===== verification/IpcLanes.v ===== *)
(** The four lanes over one mapping (src/localworker/aa24_ipc.go): after
    validation, whatever the two sides do to their lanes is what four
    independent bounded queues do. *)

From S2P Require Import Prelude Memory PlanTypes IpcLayout IpcLayoutLaws IpcFresh IpcRecord IpcLane IpcQueue.
#[local] Open Scope list_scope.
#[local] Open Scope Z_scope.

(** ** Pairs of a concatenation *)

Section pairs.
Context {A B : Type} (R : B -> B -> Prop) (Rsym : forall a b, R a b -> R b a) (f : A -> list B).

Lemma ordered_pairs_app l k : ForallOrdPairs R (l ++ k) -> ForallOrdPairs R l /\ ForallOrdPairs R k /\ Forall (fun a => Forall (R a) k) l.
Proof.
  induction l as [|a l IH]; cbn [app]; intros H; [split_and!; [constructor|done|constructor]|].
  apply ordered_pairs_cons in H as [[H1 H2]%Forall_app H3]. destruct (IH H3) as (I1 & I2 & I3).
  split_and!; [by constructor|done|by constructor].
Qed.

Lemma ordered_pairs_block l i x : ForallOrdPairs R (l ≫= f) -> l !! i = Some x -> ForallOrdPairs R (f x).
Proof.
  revert i. induction l as [|a l IH]; intros [|i] H E; try done; cbn in H; apply ordered_pairs_app in H as (H1 & H2 & _); [by injection E as ->|by apply (IH i)].
Qed.

Lemma ordered_pairs_blocks l i j x y :
  ForallOrdPairs R (l ≫= f) -> i <> j -> l !! i = Some x -> l !! j = Some y -> Forall (fun a => Forall (R a) (f y)) (f x).
Proof.
  revert i j. induction l as [|a l IH]; intros [|i] [|j] H Hij Ex Ey; try done; cbn in H; apply ordered_pairs_app in H as (H1 & H2 & H3).
  - injection Ex as ->. apply (Forall_impl _ _ _ H3). intros b Hb. apply Forall_forall. intros c Hc. apply (proj1 (Forall_forall _ _) Hb).
    apply list_elem_of_bind. exists y. split; [done|]. by apply (list_elem_of_lookup_2 _ j).
  - injection Ey as ->. apply Forall_forall. intros b Hb. apply Forall_forall. intros c Hc. apply Rsym.
    refine (proj1 (Forall_forall _ _) (proj1 (Forall_forall _ _) H3 c Hc) b _). apply list_elem_of_bind. exists x. split; [done|]. by apply (list_elem_of_lookup_2 _ i).
  - apply (IH i j); [done|congruence|done|done].
Qed.
End pairs.

(** ** The lanes of both sides *)

Record wire := mkWire { shared : list byte; writers : list aa24Lane; readers : list aa24Lane }.

(** The worker writes the lanes it produces and reads the others. *)
Definition attach_wire (lo : AA24Layout) (l : AA24Limits) (mem : list byte) : wire :=
  let worker := aa24AttachLanes lo l true in
  let host := aa24AttachLanes lo l false in
  mkWire mem (zip_with (fun a b => if aa24IsProducer a then a else b) worker host)
    (zip_with (fun a b => if aa24IsProducer a then b else a) worker host).

Inductive lane_op := OpWrite (k : nat) (r : AA24Record) (reserve : Z) | OpRead (k : nat) (dst : Z).
Inductive lane_answer := Wrote (e : option aa24_error) | Got (r : result aa24_error (option AA24Record)).

Definition no_queue : queue := mkQueue [] 0.
#[export] Instance queue_inhabited : Inhabited queue := populate no_queue.

Section ops.
Context (lo : AA24Layout) (l : AA24Limits).

Definition wire_step (op : lane_op) (w : wire) : wire * lane_answer :=
  match op with
  | OpWrite k r reserve =>
      let '(mem, n, e) := aa24Write lo r reserve (shared w) (writers w !!! k) in (mkWire mem (<[k := n]> (writers w)) (readers w), Wrote e)
  | OpRead k dst =>
      let '(mem, n, a) := aa24Read lo dst (shared w) (readers w !!! k) in (mkWire mem (writers w) (<[k := n]> (readers w)), Got a)
  end.

(** The payload a lane takes. *)
Definition lane_cap (v : aa24LaneLayout) : Z := aa24PayloadCap (attach_lane l true v).

Definition queue_step (op : lane_op) (qs : list queue) : list queue * lane_answer :=
  match op with
  | OpWrite k r reserve =>
      let v := aa24Lanes lo !!! k in
      let (q, e) := q_write lo v (lane_cap v) r reserve (qs !!! k) in (<[k := q]> qs, Wrote e)
  | OpRead k dst => let (q, a) := q_read (aa24Lanes lo !!! k) dst (qs !!! k) in (<[k := q]> qs, Got a)
  end.

Fixpoint run_all {S : Type} (step : lane_op -> S -> S * lane_answer) (ops : list lane_op) (s : S) : S * list lane_answer :=
  match ops with
  | [] => (s, [])
  | op :: rest => let (s, a) := step op s in let (s, answers) := run_all step rest s in (s, a :: answers)
  end.

(** What a side may do to a lane. *)
Definition op_ok (op : lane_op) : Prop :=
  match op with
  | OpWrite k r reserve => (k < 4)%nat /\ typed_record r /\ 0 <= reserve <= aa24ReservedSlots
  | OpRead k dst => (k < 4)%nat
  end.
End ops.

Section lanes.
Context (lo : AA24Layout) (l : AA24Limits).

(** Every lane of the wire represents its queue. *)
Record wire_represents (w : wire) (qs : list queue) : Prop := {
  wr_lanes : length (aa24Lanes lo) = 4%nat;
  wr_sizes : length (writers w) = 4%nat /\ length (readers w) = 4%nat /\ length qs = 4%nat;
  wr_apart : ForallOrdPairs apart_ranges (aa24Lanes lo ≫= lane_ranges);
  wr_each : forall k v, aa24Lanes lo !! k = Some v ->
    represents lo v (lane_cap l v) (shared w) (writers w !!! k) (readers w !!! k) (qs !!! k) }.

(** Work on one lane leaves what the others represent. *)
Lemma wire_update w qs k v mem' p' c' q' :
  wire_represents w qs -> aa24Lanes lo !! k = Some v -> represents lo v (lane_cap l v) mem' p' c' q' -> framed v (shared w) mem' ->
  wire_represents (mkWire mem' (<[k := p']> (writers w)) (<[k := c']> (readers w))) (<[k := q']> qs).
Proof.
  intros [H1 (H2 & H3 & H4) Hap Heach] Hv Hr [Fl Ff]. pose proof (lookup_lt_Some _ _ _ Hv) as Hk.
  split; cbn [shared writers readers]; rewrite ?length_insert; try done. intros j u Hu. pose proof (lookup_lt_Some _ _ _ Hu) as Hj.
  destruct (decide (k = j)) as [<-|Hkj].
  - rewrite Hv in Hu. injection Hu as <-. rewrite !list_lookup_total_insert_eq by lia. exact Hr.
  - rewrite !list_lookup_total_insert_ne by done.
    apply (framed_represents lo u (lane_cap l u) (shared w) mem' _ _ _ (lane_ranges v)); [done|done| |by apply Heach].
    apply Forall_forall. intros a Ha. apply Forall_forall. intros b Hb.
    pose proof (ordered_pairs_blocks apart_ranges apart_ranges_sym lane_ranges _ k j v u Hap Hkj Hv Hu) as H.
    exact (proj1 (Forall_forall _ _) (proj1 (Forall_forall _ _) H b Hb) a Ha).
Qed.

Lemma wire_step_refines op w qs :
  wire_represents w qs -> op_ok op ->
  exists w' qs' a, wire_step lo op w = (w', a) /\ queue_step lo l op qs = (qs', a) /\ wire_represents w' qs'.
Proof.
  intros H Hop. pose proof (wr_lanes _ _ H) as H4. destruct (wr_sizes _ _ H) as (S1 & S2 & S3).
  assert (Hk : forall k, (k < 4)%nat -> exists v, aa24Lanes lo !! k = Some v /\ aa24Lanes lo !!! k = v).
  { intros k Hk. destruct (lookup_lt_is_Some_2 (aa24Lanes lo) k) as [v Hv]; [lia|]. exists v. split; [done|]. by apply list_lookup_total_correct. }
  destruct op as [k r reserve|k dst]; cbn [op_ok] in Hop; cbn [wire_step queue_step].
  - destruct Hop as (Hlt & Ht & Hres). destruct (Hk k Hlt) as (v & Hv & Hv'). rewrite Hv'.
    destruct (write_refines lo v (lane_cap l v) _ _ _ _ r reserve (wr_each _ _ H k v Hv)) as (mem' & p' & q' & e & E1 & E2 & Hr & Hf); [unfold aa24ReservedSlots in Hres; lia|done|].
    rewrite E1, E2. eexists _, _, _. split; [done|]. split; [done|]. pose proof (wire_update w qs k v mem' p' _ q' H Hv Hr Hf) as U.
    rewrite (list_insert_id (readers w)) in U; [done|]. apply list_lookup_lookup_total_lt. lia.
  - destruct (Hk k Hop) as (v & Hv & Hv'). rewrite Hv'.
    destruct (read_refines lo v (lane_cap l v) _ _ _ _ dst (wr_each _ _ H k v Hv)) as (mem' & c' & q' & a & E1 & E2 & Hr & Hf).
    rewrite E1, E2. eexists _, _, _. split; [done|]. split; [done|]. pose proof (wire_update w qs k v mem' _ c' q' H Hv Hr Hf) as U.
    rewrite (list_insert_id (writers w)) in U; [done|]. apply list_lookup_lookup_total_lt. lia.
Qed.

Lemma wire_run_refines ops w qs :
  wire_represents w qs -> Forall op_ok ops ->
  exists w' qs' answers, run_all (wire_step lo) ops w = (w', answers) /\ run_all (queue_step lo l) ops qs = (qs', answers) /\ wire_represents w' qs'.
Proof.
  revert w qs. induction ops as [|op ops IH]; intros w qs H Hops; [by eexists _, _, _|]. apply Forall_cons in Hops as [Hop Hops].
  destruct (wire_step_refines op w qs H Hop) as (w1 & qs1 & a & E1 & E2 & H1). destruct (IH w1 qs1 H1 Hops) as (w2 & qs2 & as_ & E3 & E4 & H2).
  exists w2, qs2, (a :: as_). cbn [run_all]. by rewrite E1, E2, E3, E4.
Qed.
End lanes.

(** ** From validation *)

Lemma validated_limits aligned mem e lo : AA24ValidateMapping aligned mem e = Ok lo -> AA24MaxCapacity (AA24Limits_ e) <= 2 ^ 20.
Proof.
  unfold AA24ValidateMapping, validate_header. destruct (limits24_validate _) eqn:E; [done|]. intros _. by apply limits24_capacity.
Qed.

Lemma attach_same l b1 b2 v :
  aa24Layout (attach_lane l b1 v) = v /\ aa24PayloadCap (attach_lane l b1 v) = aa24PayloadCap (attach_lane l b2 v) /\
  aa24LocalProducer (attach_lane l b1 v) = 0 /\ aa24LocalConsumer (attach_lane l b1 v) = 0 /\
  aa24IsProducer (attach_lane l (negb b1) v) = negb (aa24IsProducer (attach_lane l b1 v)).
Proof. unfold attach_lane. cbn [aa24Layout aa24PayloadCap aa24LocalProducer aa24LocalConsumer aa24IsProducer]. destruct (_ || _), b1; done. Qed.

Lemma lane_geometry mem e lo k v :
  well_formed mem e lo -> AA24MaxCapacity (AA24Limits_ e) <= 2 ^ 20 -> 0 <= AA24MaxPayloadBytes (AA24Limits_ e) ->
  aa24Lanes lo !! k = Some v -> geometry v (lane_cap (AA24Limits_ e) v) mem.
Proof.
  intros Hwf Hc Hp Hv. destruct (wf_sized _ _ _ Hwf k v Hv) as (_ & (S1 & S2) & S3 & _ & S5 & _). unfold layout_ranges in *.
  pose proof (wf_inside _ _ _ Hwf) as Hi. pose proof (wf_apart _ _ _ Hwf) as Ha. unfold layout_ranges in Hi, Ha.
  apply Forall_cons in Hi as [_ [_ Hi]%Forall_cons]. apply ordered_pairs_cons in Ha as [_ [_ Ha]%ordered_pairs_cons].
  split.
  - apply Forall_forall. intros r Hr. apply (proj1 (Forall_forall _ _) Hi). apply list_elem_of_bind. exists v. split; [done|]. by apply (list_elem_of_lookup_2 _ k).
  - by apply (ordered_pairs_block apart_ranges lane_ranges (aa24Lanes lo) k).
  - done.
  - lia.
  - unfold lane_cap, attach_lane, aa24EnvelopeBytes in *. cbn [aa24PayloadCap]. rewrite wrap_small by lia. destruct (Z.ltb_spec (AA24MaxPayloadBytes (AA24Limits_ e)) (aa24SlotBytes v - 128)); lia.
Qed.

Lemma attach_represents mem e lo k v :
  well_formed mem e lo -> AA24MaxCapacity (AA24Limits_ e) <= 2 ^ 20 -> 0 <= AA24MaxPayloadBytes (AA24Limits_ e) -> aa24Lanes lo !! k = Some v ->
  let w := attach_wire lo (AA24Limits_ e) mem in
  represents lo v (lane_cap (AA24Limits_ e) v) mem (writers w !!! k) (readers w !!! k) no_queue.
Proof.
  intros Hwf Hc Hp Hv. cbv zeta. set (l := AA24Limits_ e) in *. unfold attach_wire, aa24AttachLanes. cbn [writers readers].
  set (a := attach_lane l true v). set (b := attach_lane l false v).
  assert (Hl : forall (g : aa24Lane -> aa24Lane -> aa24Lane), zip_with g (attach_lane l true <$> aa24Lanes lo) (attach_lane l false <$> aa24Lanes lo) !!! k = g a b).
  { intros g. apply list_lookup_total_correct. rewrite lookup_zip_with, !list_lookup_fmap, Hv. done. }
  rewrite !Hl. destruct (attach_same l true true v) as (A1 & A2 & A3 & A4 & A5). destruct (attach_same l false true v) as (B1 & B2 & B3 & B4 & _).
  cbn [negb] in A5. fold a in A1, A2, A3, A4, A5. fold b in B1, B2, B3, B4, A5. destruct (wf_fresh _ _ _ Hwf k v Hv) as (F1 & F2).
  assert (aa24PayloadCap a = lane_cap l v) as Ca by done. assert (aa24PayloadCap b = lane_cap l v) as Cb by (by rewrite B2).
  split; cbn [no_queue waiting written].
  - by apply (lane_geometry mem e lo k v).
  - destruct (aa24IsProducer a) eqn:Ea; cbn [negb] in A5; done.
  - split; [exact F1|]. rewrite F2. reflexivity.
  - pose proof (geo_capacity _ _ _ (lane_geometry mem e lo k v Hwf Hc Hp Hv)). change (0 <= 0 /\ 0 <= MaxUint64 /\ 0 <= aa24Capacity v). unfold MaxUint64. lia.
  - destruct (aa24IsProducer a); unfold first_of; cbn; by rewrite ?A3, ?A4, ?B3, ?B4.
  - destruct (aa24IsProducer a); unfold first_of; cbn; by rewrite ?A3, ?A4, ?B3, ?B4.
  - constructor.
  - intros i r Hi. done.
Qed.

Lemma attached_represents mem e lo :
  well_formed mem e lo -> AA24MaxCapacity (AA24Limits_ e) <= 2 ^ 20 -> 0 <= AA24MaxPayloadBytes (AA24Limits_ e) ->
  wire_represents lo (AA24Limits_ e) (attach_wire lo (AA24Limits_ e) mem) (replicate 4 no_queue).
Proof.
  intros Hwf Hc Hp. pose proof (wf_lanes _ _ _ Hwf) as H4. split.
  - done.
  - unfold attach_wire, aa24AttachLanes. cbn [writers readers]. rewrite !length_zip_with, !length_fmap, length_replicate, H4. done.
  - pose proof (wf_apart _ _ _ Hwf) as Ha. unfold layout_ranges in Ha. by apply ordered_pairs_cons in Ha as [_ [_ Ha]%ordered_pairs_cons].
  - intros k v Hv. pose proof (lookup_lt_Some _ _ _ Hv). rewrite lookup_total_replicate_2 by lia. by apply attach_represents.
Qed.

(** C5: over a mapping that was validated, any sequence of writes and reads
    that the two sides make on their lanes has the answers of four bounded
    queues that know nothing of memory or of each other: what is read is what
    was written, in order and byte for byte, a lane is full exactly when its
    capacity (less the reserve) is used up, and no operation runs into a
    corrupted lane. *)
Theorem lanes_refine_queues aligned mem e lo ops
    (Hval : AA24ValidateMapping aligned mem e = Ok lo) (Hpay : 0 <= AA24MaxPayloadBytes (AA24Limits_ e)) (Hops : Forall op_ok ops) :
  (run_all (wire_step lo) ops (attach_wire lo (AA24Limits_ e) mem)).2 = (run_all (queue_step lo (AA24Limits_ e)) ops (replicate 4 no_queue)).2 /\
  wire_represents lo (AA24Limits_ e) (run_all (wire_step lo) ops (attach_wire lo (AA24Limits_ e) mem)).1
    (run_all (queue_step lo (AA24Limits_ e)) ops (replicate 4 no_queue)).1.
Proof.
  pose proof (attached_represents mem e lo (validated_is_well_formed aligned mem e lo Hval) (validated_limits aligned mem e lo Hval) Hpay) as H.
  destruct (wire_run_refines lo (AA24Limits_ e) ops _ _ H Hops) as (w' & qs' & answers & E1 & E2 & H'). by rewrite E1, E2.
Qed.

(** ** At a small mapping *)

Definition demo_mapping : list byte := (AA24InitMapping true (replicate 1536 xff) demo_binding demo_config demo_limits24).1.
Definition demo_expected : AA24Expected := mkExpected demo_binding 1536 demo_limits24 0 0 AA24DefaultClockDomain.
Definition demo_layout : AA24Layout :=
  mkLayout 1536 64 1472 64
    [mkLaneLayout 1 144 2 320 88 96; mkLaneLayout 2 144 2 608 152 160; mkLaneLayout 3 144 2 896 216 224; mkLaneLayout 4 144 2 1184 280 288].

(** An observed symbol that belongs to no command. *)
Definition demo_raw (sequence time : Z) (octet : byte) : AA24Record :=
  mkRecord24 AA24RecordRaw 7 3 1 0 0 0 0 0 sequence time 0 0 0 0 AA24StatusPending x00 octet AA24DirectionReceive x00 0 [].

(** A plan for a device, and a command under it. *)
Definition demo_ref : AA24PlanRef := mkPlanRef (mkKey 1 x08 1) 7 3 1 100.
Definition demo_identity : AA24CommandIdentity := mkCommand demo_ref 1 1 90 80.
Definition demo_publish : AA24Record :=
  aa24ApplyRef demo_ref (mkRecord24 AA24RecordPublish 0 0 0 0 0 0 0 0 0 0 0 0 1504 16 0 x00 x00 x00 x00 0 []).
Definition demo_command : AA24Record :=
  aa24ApplyIdentity demo_identity (mkRecord24 AA24RecordCommand 0 0 0 0 0 0 0 0 0 0 0 0 0 0 0 x00 x00 x00 x00 0 [x01; x02]).
Definition demo_ops : list lane_op :=
  [OpWrite 3 (demo_raw 1 5 x2a) 0; OpRead 2 16; OpWrite 3 (demo_raw 2 6 xff) 0; OpWrite 3 (demo_raw 3 7 x01) 0; OpRead 3 16; OpRead 3 16; OpRead 3 16].

Lemma demo_validates : AA24ValidateMapping true demo_mapping demo_expected = Ok demo_layout.
Proof. vm_compute. reflexivity. Qed.

Lemma demo_raw_typed s t o : 0 <= s < 2 ^ 64 -> 0 <= t < 2 ^ 64 -> typed_record (demo_raw s t o).
Proof. intros Hs Ht. split; repeat (apply Forall_cons; split); try apply Forall_nil; try exact I; try exact Hs; try exact Ht; split; (discriminate || reflexivity). Qed.

Lemma demo_ops_ok : Forall op_ok demo_ops.
Proof.
  unfold demo_ops, aa24ReservedSlots. rewrite !Forall_cons, Forall_nil. cbn [op_ok].
  assert (0 <= 0 <= aa24ReservedSlots) by done. split_and!; try lia; try done; apply demo_raw_typed; lia.
Qed.

Lemma validated_mapping_well_formed_witness : AA24ValidateMapping true demo_mapping demo_expected = Ok demo_layout /\ well_formed demo_mapping demo_expected demo_layout.
Proof. split; [exact demo_validates|]. exact (validated_mapping_well_formed true demo_mapping demo_expected demo_layout demo_validates). Defined.

Lemma lanes_refine_queues_witness :
  (run_all (queue_step demo_layout demo_limits24) demo_ops (replicate 4 no_queue)).2 =
    [Wrote None; Got (Ok None); Wrote None; Wrote (Some ErrAA24Full); Got (Ok (Some (demo_raw 1 5 x2a))); Got (Ok (Some (demo_raw 2 6 xff))); Got (Ok None)] /\
  (run_all (wire_step demo_layout) demo_ops (attach_wire demo_layout demo_limits24 demo_mapping)).2 =
    (run_all (queue_step demo_layout demo_limits24) demo_ops (replicate 4 no_queue)).2.
Proof.
  split; [vm_compute; reflexivity|].
  exact (proj1 (lanes_refine_queues true demo_mapping demo_expected demo_layout demo_ops demo_validates ltac:(discriminate) demo_ops_ok)).
Defined.
