(* ===== verification/Calls.v ===== *)
(** Calls on an object: a state monad without loops that could run out.  What a
    call does to the object is stated as a preorder that its steps move along. *)

From S2P Require Import Prelude.
From Stdlib Require Import RelationClasses.

Definition ST (S A : Type) : Type := S -> S * A.

#[export] Instance st_ret {S} : MRet (ST S) := fun A a s => (s, a).
#[export] Instance st_bind {S} : MBind (ST S) := fun A B f m s => let (s', a) := m s in f a s'.

Definition look {S A} (f : S -> A) : ST S A := fun s => (s, f s).
Definition update {S} (f : S -> S) : ST S unit := fun s => (f s, tt).
Definition only_if {S} (b : bool) (m : ST S unit) : ST S unit := if b then m else mret tt.

(** [m] changes the state only along [R]. *)
Definition moves {S A} (R : S -> S -> Prop) (m : ST S A) : Prop := forall s, R s (m s).1.

(** An invariant as a preorder. *)
Definition kept {S} (I : S -> Prop) (s s' : S) : Prop := I s -> I s'.

#[export] Instance kept_preorder {S} (I : S -> Prop) : PreOrder (kept I).
Proof. split; [intros s H; exact H|]. intros a b c H1 H2 H. exact (H2 (H1 H)). Qed.

(** Two preorders at once. *)
Definition both {S} (R Q : S -> S -> Prop) (s s' : S) : Prop := R s s' /\ Q s s'.

#[export] Instance both_preorder {S} (R Q : S -> S -> Prop) `{!PreOrder R} `{!PreOrder Q} : PreOrder (both R Q).
Proof. split; [intros s; split; reflexivity|]. intros a b c [H1 H2] [H3 H4]. split; etrans; eassumption. Qed.

(** A value that stays as it is. *)
Definition same {S A} (f : S -> A) (s s' : S) : Prop := f s' = f s.

#[export] Instance same_preorder {S A} (f : S -> A) : PreOrder (same f).
Proof. split; [done|]. intros a b c H1 H2. unfold same in *. congruence. Qed.

(** A number that never goes down. *)
Definition grows {S} (f : S -> Z) (s s' : S) : Prop := (f s <= f s')%Z.

#[export] Instance grows_preorder {S} (f : S -> Z) : PreOrder (grows f).
Proof. split; [intros s; unfold grows; lia|]. intros a b c H1 H2. unfold grows in *. lia. Qed.

Section moves.
Context {S : Type} (R : S -> S -> Prop) `{!PreOrder R}.

Lemma moves_ret {A} (a : A) : moves R (mret a).
Proof. intros s. reflexivity. Qed.

Lemma moves_look {A} (f : S -> A) : moves R (look f).
Proof. intros s. reflexivity. Qed.

Lemma moves_update (f : S -> S) : (forall s, R s (f s)) -> moves R (update f).
Proof. intros H s. apply H. Qed.

Lemma moves_bind {A B} (m : ST S A) (f : A -> ST S B) : moves R m -> (forall a, moves R (f a)) -> moves R (m ≫= f).
Proof.
  intros Hm Hf s. unfold mbind, st_bind. specialize (Hm s). destruct (m s) as [s1 a]. etrans; [exact Hm|]. apply (Hf a s1).
Qed.

(** A continuation may use what was looked at. *)
Lemma moves_look_bind {A B} (g : S -> A) (f : A -> ST S B) : (forall s, R s (f (g s) s).1) -> moves R (look g ≫= f).
Proof. intros H s. apply H. Qed.

Lemma moves_only_if b (m : ST S unit) : moves R m -> moves R (only_if b m).
Proof. destruct b; [done|]. intros _. apply moves_ret. Qed.
End moves.

Create HintDb moves.

Ltac moves_step :=
  match goal with
  | |- moves _ (mret _) => apply moves_ret; [exact _]
  | |- moves _ (look _) => apply moves_look; [exact _]
  | |- moves _ (only_if _ _) => apply moves_only_if; [exact _|]
  | |- moves _ (_ ≫= _) => apply moves_bind; [exact _| |intros ?]
  | |- moves _ (match ?x with _ => _ end) => destruct x
  | |- moves _ _ => solve [auto with moves]
  end.
Ltac moves_tac := repeat moves_step.
