(* ===== verification/IpcWorker.v ===== *)
(** src/localworker/aa24_ipc.go, the worker's side of the mapping: AA24Worker
    with all its methods.

    The state of the object is one record; it holds the mapping and the arena
    layout that the source's lanes point to.  A call is one step: the peer
    changes the mapping only between calls.  The slices of the source that have
    a fixed capacity are lists and the capacity is the limit they were made
    with.  The scratch buffer is its capacity. *)

From S2P Require Import Prelude Memory Calls PlanTypes IpcLayout IpcRecord IpcLane.
#[local] Open Scope list_scope.
#[local] Open Scope Z_scope.

Record AA24Observation := mkObservation {
  oTransaction : Z; oRawOctet : byte; oDirection : byte; oPhase : byte; AA24Selection : AA24CommandIdentity }.

Definition aa24Valid (o : AA24Observation) : bool :=
  if (oTransaction o =? 0) || (oDirection o =b AA24DirectionControl) || (AA24DirectionEcho <b oDirection o) || (aa24MaxPhase <? u8 (oPhase o))
  then false
  else
    let selection := AA24Selection o in
    if bool_decide (selection = zero_command) then true
    else
      let ref := AA24Ref selection in
      (AA24Transaction selection =? oTransaction o) && negb (AA23Subscriber (AA24Key ref) =? 0) && aa23IsTargetAddress (AA23Address (AA24Key ref)) &&
      negb (AA23Epoch (AA24Key ref) =? 0) && negb (AA24Plan ref =? 0) && negb (AA24PlanExpiry ref =? 0) &&
      negb (AA24OwnerToken selection =? 0) && negb (AA24OwnerExpiry selection =? 0) && negb (AA24RequestDeadline selection =? 0).

Record aa24AdoptedPlan := mkAdopted { adoptedRef : AA24PlanRef; aa24Revoked : bool }.

Record AA24Worker := mkWorker {
  wMem : list byte; wLayout : AA24Layout; aa24Expected : AA24Expected; aa24Lanes : list aa24Lane; aa24Clock : aa23ClockGuard;
  aa24NextSequence : Z; aa24LastCapture : Z; aa24Fence : AA24FenceState; aa24GapLatched : bool; aa24GapWritten : bool; aa24GapIndex : Z;
  aa24GapRecord : AA24Record; aa24StopObserved : bool; aa24Adopted : list aa24AdoptedPlan; aa24RefusedRefs : list AA24PlanRef;
  aa24RetireRetry : list AA24PlanRef; aa24PlanFloor : Z; aa24TokenFloor : Z; aa24Active : AA24CommandIdentity; aa24HasActive : bool;
  aa24Lost : Z; aa24Refused : Z; aa24Detached : bool }.

Definition set_wire (v0 : list byte) (v1 : list aa24Lane) (w : AA24Worker) : AA24Worker :=
  mkWorker v0 (wLayout w) (aa24Expected w) v1 (aa24Clock w) (aa24NextSequence w) (aa24LastCapture w) (aa24Fence w) (aa24GapLatched w) (aa24GapWritten
    w) (aa24GapIndex w) (aa24GapRecord w) (aa24StopObserved w) (aa24Adopted w) (aa24RefusedRefs w) (aa24RetireRetry w) (aa24PlanFloor w)
    (aa24TokenFloor w) (aa24Active w) (aa24HasActive w) (aa24Lost w) (aa24Refused w) (aa24Detached w).
Definition set_clock (v0 : aa23ClockGuard) (w : AA24Worker) : AA24Worker :=
  mkWorker (wMem w) (wLayout w) (aa24Expected w) (aa24Lanes w) v0 (aa24NextSequence w) (aa24LastCapture w) (aa24Fence w) (aa24GapLatched w)
    (aa24GapWritten w) (aa24GapIndex w) (aa24GapRecord w) (aa24StopObserved w) (aa24Adopted w) (aa24RefusedRefs w) (aa24RetireRetry w) (aa24PlanFloor
    w) (aa24TokenFloor w) (aa24Active w) (aa24HasActive w) (aa24Lost w) (aa24Refused w) (aa24Detached w).
Definition set_next (v0 : Z) (w : AA24Worker) : AA24Worker :=
  mkWorker (wMem w) (wLayout w) (aa24Expected w) (aa24Lanes w) (aa24Clock w) v0 (aa24LastCapture w) (aa24Fence w) (aa24GapLatched w) (aa24GapWritten
    w) (aa24GapIndex w) (aa24GapRecord w) (aa24StopObserved w) (aa24Adopted w) (aa24RefusedRefs w) (aa24RetireRetry w) (aa24PlanFloor w)
    (aa24TokenFloor w) (aa24Active w) (aa24HasActive w) (aa24Lost w) (aa24Refused w) (aa24Detached w).
Definition set_last (v0 : Z) (w : AA24Worker) : AA24Worker :=
  mkWorker (wMem w) (wLayout w) (aa24Expected w) (aa24Lanes w) (aa24Clock w) (aa24NextSequence w) v0 (aa24Fence w) (aa24GapLatched w) (aa24GapWritten
    w) (aa24GapIndex w) (aa24GapRecord w) (aa24StopObserved w) (aa24Adopted w) (aa24RefusedRefs w) (aa24RetireRetry w) (aa24PlanFloor w)
    (aa24TokenFloor w) (aa24Active w) (aa24HasActive w) (aa24Lost w) (aa24Refused w) (aa24Detached w).
Definition set_fence (v0 : AA24FenceState) (w : AA24Worker) : AA24Worker :=
  mkWorker (wMem w) (wLayout w) (aa24Expected w) (aa24Lanes w) (aa24Clock w) (aa24NextSequence w) (aa24LastCapture w) v0 (aa24GapLatched w)
    (aa24GapWritten w) (aa24GapIndex w) (aa24GapRecord w) (aa24StopObserved w) (aa24Adopted w) (aa24RefusedRefs w) (aa24RetireRetry w) (aa24PlanFloor
    w) (aa24TokenFloor w) (aa24Active w) (aa24HasActive w) (aa24Lost w) (aa24Refused w) (aa24Detached w).
Definition set_latch (v0 : bool) (v1 : AA24Record) (w : AA24Worker) : AA24Worker :=
  mkWorker (wMem w) (wLayout w) (aa24Expected w) (aa24Lanes w) (aa24Clock w) (aa24NextSequence w) (aa24LastCapture w) (aa24Fence w) v0 (aa24GapWritten
    w) (aa24GapIndex w) v1 (aa24StopObserved w) (aa24Adopted w) (aa24RefusedRefs w) (aa24RetireRetry w) (aa24PlanFloor w) (aa24TokenFloor w)
    (aa24Active w) (aa24HasActive w) (aa24Lost w) (aa24Refused w) (aa24Detached w).
Definition set_gap_written (v0 : bool) (v1 : Z) (w : AA24Worker) : AA24Worker :=
  mkWorker (wMem w) (wLayout w) (aa24Expected w) (aa24Lanes w) (aa24Clock w) (aa24NextSequence w) (aa24LastCapture w) (aa24Fence w) (aa24GapLatched w)
    v0 v1 (aa24GapRecord w) (aa24StopObserved w) (aa24Adopted w) (aa24RefusedRefs w) (aa24RetireRetry w) (aa24PlanFloor w) (aa24TokenFloor w)
    (aa24Active w) (aa24HasActive w) (aa24Lost w) (aa24Refused w) (aa24Detached w).
Definition set_stop (v0 : bool) (w : AA24Worker) : AA24Worker :=
  mkWorker (wMem w) (wLayout w) (aa24Expected w) (aa24Lanes w) (aa24Clock w) (aa24NextSequence w) (aa24LastCapture w) (aa24Fence w) (aa24GapLatched w)
    (aa24GapWritten w) (aa24GapIndex w) (aa24GapRecord w) v0 (aa24Adopted w) (aa24RefusedRefs w) (aa24RetireRetry w) (aa24PlanFloor w) (aa24TokenFloor
    w) (aa24Active w) (aa24HasActive w) (aa24Lost w) (aa24Refused w) (aa24Detached w).
Definition set_adopted (v0 : list aa24AdoptedPlan) (w : AA24Worker) : AA24Worker :=
  mkWorker (wMem w) (wLayout w) (aa24Expected w) (aa24Lanes w) (aa24Clock w) (aa24NextSequence w) (aa24LastCapture w) (aa24Fence w) (aa24GapLatched w)
    (aa24GapWritten w) (aa24GapIndex w) (aa24GapRecord w) (aa24StopObserved w) v0 (aa24RefusedRefs w) (aa24RetireRetry w) (aa24PlanFloor w)
    (aa24TokenFloor w) (aa24Active w) (aa24HasActive w) (aa24Lost w) (aa24Refused w) (aa24Detached w).
Definition set_refused (v0 : list AA24PlanRef) (w : AA24Worker) : AA24Worker :=
  mkWorker (wMem w) (wLayout w) (aa24Expected w) (aa24Lanes w) (aa24Clock w) (aa24NextSequence w) (aa24LastCapture w) (aa24Fence w) (aa24GapLatched w)
    (aa24GapWritten w) (aa24GapIndex w) (aa24GapRecord w) (aa24StopObserved w) (aa24Adopted w) v0 (aa24RetireRetry w) (aa24PlanFloor w)
    (aa24TokenFloor w) (aa24Active w) (aa24HasActive w) (aa24Lost w) (aa24Refused w) (aa24Detached w).
Definition set_retry (v0 : list AA24PlanRef) (w : AA24Worker) : AA24Worker :=
  mkWorker (wMem w) (wLayout w) (aa24Expected w) (aa24Lanes w) (aa24Clock w) (aa24NextSequence w) (aa24LastCapture w) (aa24Fence w) (aa24GapLatched w)
    (aa24GapWritten w) (aa24GapIndex w) (aa24GapRecord w) (aa24StopObserved w) (aa24Adopted w) (aa24RefusedRefs w) v0 (aa24PlanFloor w)
    (aa24TokenFloor w) (aa24Active w) (aa24HasActive w) (aa24Lost w) (aa24Refused w) (aa24Detached w).
Definition set_plan_floor (v0 : Z) (w : AA24Worker) : AA24Worker :=
  mkWorker (wMem w) (wLayout w) (aa24Expected w) (aa24Lanes w) (aa24Clock w) (aa24NextSequence w) (aa24LastCapture w) (aa24Fence w) (aa24GapLatched w)
    (aa24GapWritten w) (aa24GapIndex w) (aa24GapRecord w) (aa24StopObserved w) (aa24Adopted w) (aa24RefusedRefs w) (aa24RetireRetry w) v0
    (aa24TokenFloor w) (aa24Active w) (aa24HasActive w) (aa24Lost w) (aa24Refused w) (aa24Detached w).
Definition set_token_floor (v0 : Z) (w : AA24Worker) : AA24Worker :=
  mkWorker (wMem w) (wLayout w) (aa24Expected w) (aa24Lanes w) (aa24Clock w) (aa24NextSequence w) (aa24LastCapture w) (aa24Fence w) (aa24GapLatched w)
    (aa24GapWritten w) (aa24GapIndex w) (aa24GapRecord w) (aa24StopObserved w) (aa24Adopted w) (aa24RefusedRefs w) (aa24RetireRetry w) (aa24PlanFloor
    w) v0 (aa24Active w) (aa24HasActive w) (aa24Lost w) (aa24Refused w) (aa24Detached w).
Definition set_active_id (v0 : AA24CommandIdentity) (w : AA24Worker) : AA24Worker :=
  mkWorker (wMem w) (wLayout w) (aa24Expected w) (aa24Lanes w) (aa24Clock w) (aa24NextSequence w) (aa24LastCapture w) (aa24Fence w) (aa24GapLatched w)
    (aa24GapWritten w) (aa24GapIndex w) (aa24GapRecord w) (aa24StopObserved w) (aa24Adopted w) (aa24RefusedRefs w) (aa24RetireRetry w) (aa24PlanFloor
    w) (aa24TokenFloor w) v0 (aa24HasActive w) (aa24Lost w) (aa24Refused w) (aa24Detached w).
Definition set_active (v0 : bool) (w : AA24Worker) : AA24Worker :=
  mkWorker (wMem w) (wLayout w) (aa24Expected w) (aa24Lanes w) (aa24Clock w) (aa24NextSequence w) (aa24LastCapture w) (aa24Fence w) (aa24GapLatched w)
    (aa24GapWritten w) (aa24GapIndex w) (aa24GapRecord w) (aa24StopObserved w) (aa24Adopted w) (aa24RefusedRefs w) (aa24RetireRetry w) (aa24PlanFloor
    w) (aa24TokenFloor w) (aa24Active w) v0 (aa24Lost w) (aa24Refused w) (aa24Detached w).
Definition set_lost (v0 : Z) (w : AA24Worker) : AA24Worker :=
  mkWorker (wMem w) (wLayout w) (aa24Expected w) (aa24Lanes w) (aa24Clock w) (aa24NextSequence w) (aa24LastCapture w) (aa24Fence w) (aa24GapLatched w)
    (aa24GapWritten w) (aa24GapIndex w) (aa24GapRecord w) (aa24StopObserved w) (aa24Adopted w) (aa24RefusedRefs w) (aa24RetireRetry w) (aa24PlanFloor
    w) (aa24TokenFloor w) (aa24Active w) (aa24HasActive w) v0 (aa24Refused w) (aa24Detached w).
Definition set_refused_count (v0 : Z) (w : AA24Worker) : AA24Worker :=
  mkWorker (wMem w) (wLayout w) (aa24Expected w) (aa24Lanes w) (aa24Clock w) (aa24NextSequence w) (aa24LastCapture w) (aa24Fence w) (aa24GapLatched w)
    (aa24GapWritten w) (aa24GapIndex w) (aa24GapRecord w) (aa24StopObserved w) (aa24Adopted w) (aa24RefusedRefs w) (aa24RetireRetry w) (aa24PlanFloor
    w) (aa24TokenFloor w) (aa24Active w) (aa24HasActive w) (aa24Lost w) v0 (aa24Detached w).
Definition set_detached (w : AA24Worker) : AA24Worker :=
  mkWorker (wMem w) (wLayout w) (aa24Expected w) (replicate 4 zero_lane) (aa24Clock w) (aa24NextSequence w) (aa24LastCapture w) (aa24Fence w)
    (aa24GapLatched w) (aa24GapWritten w) (aa24GapIndex w) (aa24GapRecord w) (aa24StopObserved w) [] [] [] (aa24PlanFloor w) (aa24TokenFloor w)
    (aa24Active w) (aa24HasActive w) (aa24Lost w) (aa24Refused w) true.

#[local] Notation W := (ST AA24Worker).

Definition wLimits (w : AA24Worker) : AA24Limits := AA24Limits_ (aa24Expected w).
Definition wBinding (w : AA24Worker) : AA24Binding := AA24Binding_ (aa24Expected w).
(** The capacity the tables of plan references are made with. *)
Definition plan_room (w : AA24Worker) : Z := AA24MaxPlans (wLimits w).

Definition AA24AttachWorker (aligned : bool) (mem : list byte) (e : AA24Expected) : result aa24_error AA24Worker :=
  if AA24ClockDomain e =? 0 then Err ErrAA24Clock
  else
    let* layout := AA24ValidateMapping aligned mem e in
    Ok (mkWorker mem layout e (aa24AttachLanes layout (AA24Limits_ e) true) (aa24SeedClock (AA24ClockDomain e)) 1 0 no_fence false false 0
      zero_record24 false [] [] [] (AA24PlanFloor e) (AA24TokenFloor e) zero_command false 0 0 false).

(** ** Lanes *)

Definition aa24Lane_ (kind : Z) (w : AA24Worker) : aa24Lane := aa24Lanes w !!! lane_index kind.

(** A method of a lane, on the lane of a kind. *)
Definition on_lane {A} (kind : Z) (f : list byte -> aa24Lane -> list byte * aa24Lane * A) : W A :=
  fun w => let '(mem, n, a) := f (wMem w) (aa24Lane_ kind w) in (set_wire mem (<[lane_index kind := n]> (aa24Lanes w)) w, a).

Definition lane_write (kind : Z) (r : AA24Record) (reserve : Z) : W (option aa24_error) :=
  lo ← look wLayout; on_lane kind (aa24Write lo r reserve).
Definition lane_peek (kind cap : Z) : W (result aa24_error (option AA24Record)) := lo ← look wLayout; on_lane kind (by_view (aa24Peek lo cap)).
Definition lane_read (kind cap : Z) : W (result aa24_error (option AA24Record)) := lo ← look wLayout; on_lane kind (aa24Read lo cap).
Definition lane_release (kind : Z) : W unit := on_lane kind (fun mem n => let (mem, n) := aa24Release mem n in (mem, n, tt)).
Definition lane_bump (kind : Z) (k : counter) : W unit := on_lane kind (fun mem n => (mem, aa24Bump k n, tt)).
Definition lane_room (kind reserve : Z) : W (result aa24_error bool) := on_lane kind (by_view (aa24HasRoom reserve)).
Definition lane_indices (kind : Z) : W (result aa24_error (Z * Z)) := on_lane kind (by_view aa24Indices).
Definition lane_expired (kind budget now : Z) : W (result aa24_error bool) := on_lane kind (by_view (aa24ServiceExpired budget now)).

(** ** The fence and the gap *)

Definition AA24OutputOpen (w : AA24Worker) : bool := negb (aa24Detached w) && bool_decide (AA24Reason (aa24Fence w) = AA24FenceNone).

Definition close_fence (reason : AA24FenceReason) (sequence tick : Z) (w : AA24Worker) : AA24Worker :=
  let w := if bool_decide (AA24Reason (aa24Fence w) = AA24FenceNone) then set_fence (mkFence reason sequence tick) w else w in
  set_active false w.
Definition aa24Close (reason : AA24FenceReason) (sequence tick : Z) : W unit := update (close_fence reason sequence tick).

Definition aa24FlushGap : W unit :=
  latched ← look aa24GapLatched; done ← look aa24GapWritten;
  if negb latched || done then mret tt
  else
    index ← look (fun w => aa24LocalProducer (aa24Lane_ AA24LaneWorkerControl w));
    gap ← look aa24GapRecord;
    err ← lane_write AA24LaneWorkerControl gap 0;
    match err with None => update (set_gap_written true index) | Some _ => mret tt end.

Definition gap_record (w : AA24Worker) (sequence tick : Z) : AA24Record :=
  mkRecord24 AA24RecordGap (bWorker (wBinding w)) (bStream (wBinding w)) 0 0 0 0 0 0 sequence tick 0 0 0 0 0 x00 x00 x00 x00 0 [].

(** The latch of the one gap of the stream. *)
Definition latch_gap (sequence tick : Z) (w : AA24Worker) : AA24Worker :=
  if aa24GapLatched w then w else set_latch true (gap_record w sequence tick) w.

Definition aa24RaiseGap (reason : AA24FenceReason) (sequence tick : Z) : W unit :=
  aa24Close reason sequence tick;; update (latch_gap sequence tick);; aa24FlushGap.

Definition aa24GapSequence : W Z :=
  sequence ← look aa24NextSequence;
  only_if (negb (sequence =? MaxUint64)) (update (set_next (sequence + 1)));; mret sequence.

Definition aa24TrustedTick (w : AA24Worker) : Z := if negb (aa23Last (aa24Clock w) =? 0) then aa23Last (aa24Clock w) else 1.

(** The trusted tick, or the last capture when that is later. *)
Definition trusted_stamp (w : AA24Worker) : Z :=
  let tick := aa24TrustedTick w in if tick <? aa24LastCapture w then aa24LastCapture w else tick.

Definition aa24RaiseLocalGap (reason : AA24FenceReason) : W unit :=
  latched ← look aa24GapLatched;
  if (latched : bool) then aa24FlushGap
  else tick ← look trusted_stamp; sequence ← aa24GapSequence; aa24RaiseGap reason sequence tick.

Definition aa24AllocateSequence (tick : Z) : W (result aa24_error Z) :=
  sequence ← look aa24NextSequence;
  if sequence =? MaxUint64 then aa24RaiseGap AA24FenceCounter MaxUint64 tick;; mret (Err ErrAA24Counter)
  else update (set_next (sequence + 1));; mret (Ok sequence).

Definition aa24Tick (now : AA23ClockReading) : W (option aa24_error) :=
  detached ← look aa24Detached;
  if (detached : bool) then mret (Some ErrAA24Detached)
  else
    clock ← look aa24Clock;
    let (clock, err) := aa23Observe now clock in
    update (set_clock clock);;
    if bool_decide (err <> None) || (AA23Tick now =? 0) then aa24RaiseLocalGap AA24FenceClock;; mret (Some ErrAA24Clock)
    else aa24FlushGap;; mret None.

(** ** Retirement *)

Definition aa24DropRefused (ref : AA24PlanRef) : W unit :=
  update (fun w => set_refused (remove_first (fun held => ref_matches held ref) (aa24RefusedRefs w)) w).

Definition acknowledge_record (ref : AA24PlanRef) (sequence now : Z) : AA24Record :=
  let r := aa24ApplyRef ref (mkRecord24 AA24RecordAcknowledge 0 0 0 0 0 0 0 0 0 0 0 0 0 0 AA24StatusRetired x00 x00 x00 x00 0 []) in
  mkRecord24 (AA24Kind r) (rWorker r) (rStream r) (rTransaction r) (rPlan r) (AA24Subscriber r) (AA24Epoch r) (rOwnerToken r) (rOwnerExpiry r)
    sequence now (rPlanExpiry r) (rRequestDeadline r) (rArenaOffset r) (AA24PlanBytes r) (AA24Status r)
    (AA24Target r) (AA24RawOctet r) (AA24Direction r) (AA24Phase r) (AA24Flags r) (AA24Payload r).

Definition aa24PostRetired (ref : AA24PlanRef) (now : Z) : W (option aa24_error) :=
  room ← lane_room AA24LaneWorkerControl aa24ReservedSlots;
  match room with
  | Err err => aa24RaiseLocalGap AA24FenceCorruption;; mret (Some err)
  | Ok false => aa24RaiseLocalGap AA24FenceControlSaturated;; mret (Some ErrAA24ControlFull)
  | Ok true =>
      allocated ← aa24AllocateSequence now;
      match allocated with
      | Err err => mret (Some err)
      | Ok sequence =>
          err ← lane_write AA24LaneWorkerControl (acknowledge_record ref sequence now) aa24ReservedSlots;
          match err with
          | Some err => aa24RaiseLocalGap AA24FenceCorruption;; mret (Some err)
          | None => update (set_last now);; mret None
          end
      end
  end.

(** The loop always works on the first reference: it goes on only after it
    removed that one. *)
Fixpoint retry_loop (refs : list AA24PlanRef) (now : Z) : W unit :=
  match refs with
  | [] => mret tt
  | ref :: rest =>
      room ← lane_room AA24LaneWorkerControl aa24ReservedSlots;
      match room with
      | Ok true =>
          err ← aa24PostRetired ref now;
          match err with
          | Some _ => mret tt
          | None => update (set_retry rest);; aa24DropRefused ref;; retry_loop rest now
          end
      | _ => mret tt
      end
  end.
Definition aa24RetryRetired (now : Z) : W unit := refs ← look aa24RetireRetry; retry_loop refs now.

(** ** Control *)

Definition aa24IdentityMatches (r : AA24Record) (w : AA24Worker) : bool :=
  (rWorker r =? bWorker (wBinding w)) && (rStream r =? bStream (wBinding w)).

(** The revocation of an adopted plan: [None] when no plan matches. *)
Fixpoint revoke_adopted (ref : AA24PlanRef) (l : list aa24AdoptedPlan) : option (list aa24AdoptedPlan) :=
  match l with
  | [] => None
  | a :: rest =>
      if ref_matches (adoptedRef a) ref then Some (mkAdopted (adoptedRef a) true :: rest)
      else rest' ← revoke_adopted ref rest; Some (a :: rest')
  end.

Definition handle_revoke (ref : AA24PlanRef) (now : Z) : W bool :=
  adopted ← look aa24Adopted;
  match revoke_adopted ref adopted with
  | Some adopted =>
      update (set_adopted adopted);;
      update (fun w => if aa24HasActive w && ref_matches (AA24Ref (aa24Active w)) ref then set_active false w else w);;
      mret true
  | None =>
      refused ← look aa24RefusedRefs;
      if existsb (fun held => ref_matches held ref) refused then
        err ← aa24PostRetired ref now;
        match err with
        | Some _ => mret false
        | None => aa24DropRefused ref;; mret true
        end
      else lane_bump AA24LaneHostControl CDropped;; mret true
  end.

(** A refused publication is kept while there is room; [full] is what happens
    without. *)
Definition keep_refused (ref : AA24PlanRef) (full : W unit) : W unit :=
  update (fun w => set_refused_count (wrap 64 (aa24Refused w + 1)) w);;
  refused ← look aa24RefusedRefs; room ← look plan_room;
  if len refused <? room then update (set_refused (refused ++ [ref])) else full.

Definition handle_publish (r : AA24Record) (now : Z) (fenced : bool) : W bool :=
  fence ← look aa24Fence;
  if fenced || negb (bool_decide (AA24Reason fence = AA24FenceNone))
  then keep_refused (aa24Ref r) (lane_bump AA24LaneHostControl CDropped);; mret true
  else
    floor ← look aa24PlanFloor; adopted ← look aa24Adopted; room ← look plan_room;
    if (rPlan r <=? floor) || (rPlanExpiry r <=? now) || (len adopted =? room)
    then keep_refused (aa24Ref r) (aa24RaiseLocalGap AA24FenceControlSaturated);; mret true
    else update (set_plan_floor (rPlan r));; update (set_adopted (adopted ++ [mkAdopted (aa24Ref r) false]));; mret true.

Definition aa24HandleControl (r : AA24Record) (now : Z) (fenced : bool) : W bool :=
  matches ← look (aa24IdentityMatches r);
  if negb matches then lane_bump AA24LaneHostControl CDropped;; mret true
  else if AA24Kind r =? AA24RecordStop then update (set_stop true);; aa24Close AA24FenceStop 0 0;; mret true
  else if AA24Kind r =? AA24RecordRevoke then handle_revoke (aa24Ref r) now
  else if AA24Kind r =? AA24RecordPublish then handle_publish r now fenced
  else mret true.

Fixpoint drain_loop (budget : nat) (now : Z) (fenced : bool) : W unit :=
  match budget with
  | O => mret tt
  | S budget =>
      scratch ← look (fun w => AA24MaxPayloadBytes (wLimits w));
      record ← lane_peek AA24LaneHostControl scratch;
      match record with
      | Err _ => aa24RaiseLocalGap AA24FenceCorruption
      | Ok None => mret tt
      | Ok (Some r) =>
          handled ← aa24HandleControl r now fenced;
          if (handled : bool) then lane_release AA24LaneHostControl;; drain_loop budget now fenced else mret tt
      end
  end.
Definition aa24DrainControl (now : Z) (fenced : bool) : W unit :=
  budget ← look (fun w => aa24Capacity (aa24Layout (aa24Lane_ AA24LaneHostControl w)));
  drain_loop (Z.to_nat budget) now fenced.

Fixpoint saturated_loop (indices : list nat) : W unit :=
  match indices with
  | [] => mret tt
  | index :: rest =>
      saturated ← look (fun w => aa24Saturated (aa24Lanes w !!! index));
      only_if saturated (aa24RaiseLocalGap AA24FenceCounter);; saturated_loop rest
  end.

(** What the service does once control is drained. *)
Definition watch_lanes (now : Z) : W unit :=
  saturated_loop (seq 0 4);;
  budget ← look (fun w => AA24ControlServiceTicks (wLimits w));
  expired ← lane_expired AA24LaneWorkerControl budget now;
  match expired with
  | Err _ => aa24RaiseLocalGap AA24FenceCorruption
  | Ok true => aa24RaiseLocalGap AA24FenceControlDeadline
  | Ok false => mret tt
  end;;
  aa24RetryRetired now.

Definition aa24Service (now : AA23ClockReading) : W (option aa24_error) :=
  err ← aa24Tick now;
  match err with
  | Some err =>
      only_if (bool_decide (err = ErrAA24Clock))
        (trusted ← look trusted_stamp; aa24DrainControl trusted true;; aa24RetryRetired trusted);;
      mret (Some err)
  | None => aa24DrainControl (AA23Tick now) false;; watch_lanes (AA23Tick now);; mret None
  end.

Definition AA24PollControl (now : AA23ClockReading) : W (option aa24_error) := aa24Service now.

Definition AA24PendingRevocations (dst : list AA24PlanRef) (w : AA24Worker) : list AA24PlanRef :=
  dst ++ (adoptedRef <$> filter (fun a => aa24Revoked a = true) (aa24Adopted w)).

(** ** Observations *)

Definition aa24CountLost : W unit :=
  lost ← look aa24Lost;
  if lost =? MaxUint64 then aa24RaiseLocalGap AA24FenceCounter else update (set_lost (lost + 1)).

Definition aa24WriteData (r : AA24Record) : W (option aa24_error) :=
  err ← lane_write AA24LaneWorkerData r 0;
  match err with
  | None => mret None
  | Some ErrAA24Full =>
      aa24RaiseGap AA24FenceDataFull (AA24CaptureSequence r) (AA24CaptureTime r);; aa24CountLost;; mret (Some ErrAA24Gap)
  | Some ErrAA24Record =>
      aa24RaiseGap AA24FenceCorruption (AA24CaptureSequence r) (AA24CaptureTime r);; mret (Some ErrAA24Record)
  | Some err =>
      let reason := if bool_decide (err = ErrAA24Counter) then AA24FenceCounter else AA24FenceCorruption in
      aa24RaiseGap reason (AA24CaptureSequence r) (AA24CaptureTime r);; aa24CountLost;; mret (Some err)
  end.

Definition raw_record (w : AA24Worker) (o : AA24Observation) (sequence now : Z) : AA24Record :=
  let r := aa24ApplyIdentity (AA24Selection o)
    (mkRecord24 AA24RecordRaw 0 0 0 0 0 0 0 0 0 0 0 0 0 0 0 x00 (oRawOctet o) (oDirection o) (oPhase o) 0 []) in
  mkRecord24 (AA24Kind r) (bWorker (wBinding w)) (bStream (wBinding w)) (oTransaction o) (rPlan r) (AA24Subscriber r) (AA24Epoch r)
    (rOwnerToken r) (rOwnerExpiry r) sequence now (rPlanExpiry r) (rRequestDeadline r) (rArenaOffset r) (AA24PlanBytes r) (AA24Status r)
    (AA24Target r) (AA24RawOctet r) (AA24Direction r) (AA24Phase r) (AA24Flags r) (AA24Payload r).

Definition is_active (identity : AA24CommandIdentity) (w : AA24Worker) : bool := aa24HasActive w && command_matches (aa24Active w) identity.

(** The ordinal and the error, as the source returns both. *)
Definition AA24ObserveRaw (o : AA24Observation) (now : AA23ClockReading) : W (Z * option aa24_error) :=
  if negb (aa24Valid o) then mret (0, Some ErrAA24Record)
  else
    err ← aa24Tick now;
    match err with
    | Some err => only_if (negb (bool_decide (err = ErrAA24Detached))) aa24CountLost;; mret (0, Some err)
    | None =>
        open ← look AA24OutputOpen;
        if negb open then aa24CountLost;; mret (0, Some ErrAA24OutputFenced)
        else
          active ← look (is_active (AA24Selection o));
          if negb (bool_decide (AA24Selection o = zero_command)) && negb active then mret (0, Some ErrAA24Mismatch)
          else
            allocated ← aa24AllocateSequence (AA23Tick now);
            match allocated with
            | Err err => aa24CountLost;; mret (0, Some err)
            | Ok sequence =>
                r ← look (fun w => raw_record w o sequence (AA23Tick now));
                update (set_last (AA23Tick now));;
                err ← aa24WriteData r; mret (sequence, err)
            end
    end.

(** ** Commands *)

Fixpoint check_plan (ref : AA24PlanRef) (l : list aa24AdoptedPlan) : option aa24_error :=
  match l with
  | [] => Some ErrAA24Stale
  | a :: rest =>
      if ref_matches (adoptedRef a) ref then if aa24Revoked a then Some ErrAA24Revoked else None else check_plan ref rest
  end.
Definition aa24CheckPlan (ref : AA24PlanRef) (w : AA24Worker) : option aa24_error := check_plan ref (aa24Adopted w).

(** What is done with the next record of the host's data lane. *)
Definition admit_command (r : AA24Record) (now : Z) : W (option AA24Delivery * option aa24_error) :=
  let drop err := lane_bump AA24LaneHostData CDropped;; mret (None, Some err) in
  matches ← look (aa24IdentityMatches r); floor ← look aa24TokenFloor;
  if negb matches || (rOwnerToken r <=? floor) then drop ErrAA24Stale
  else
    update (set_token_floor (rOwnerToken r));;
    let identity := aa24Identity r in
    plan ← look (aa24CheckPlan (AA24Ref identity));
    match plan with
    | Some err => drop err
    | None =>
        if negb (aa24Live identity now) then drop ErrAA24Expired
        else update (set_active_id identity);; update (set_active true);; mret (Some (mkDelivery r now), None)
    end.

Definition AA24NextCommand (dst : Z) (now : AA23ClockReading) : W (option AA24Delivery * option aa24_error) :=
  err ← aa24Service now;
  match err with
  | Some err => mret (None, Some err)
  | None =>
      open ← look AA24OutputOpen;
      if negb open then mret (None, Some ErrAA24OutputFenced)
      else
        busy ← look (fun w => aa24HasActive w && aa24Live (aa24Active w) (AA23Tick now));
        if (busy : bool) then mret (None, None)
        else
          update (set_active false);;
          record ← lane_read AA24LaneHostData dst;
          match record with
          | Err ErrAA24Buffer => mret (None, Some ErrAA24Buffer)
          | Err err => aa24RaiseLocalGap AA24FenceCorruption;; mret (None, Some err)
          | Ok None => mret (None, None)
          | Ok (Some r) => admit_command r (AA23Tick now)
          end
  end.

Definition AA24AdmitOutput (identity : AA24CommandIdentity) (now : AA23ClockReading) : W (option aa24_error) :=
  err ← aa24Service now;
  match err with
  | Some err => mret (Some err)
  | None =>
      open ← look AA24OutputOpen;
      if negb open then mret (Some ErrAA24OutputFenced)
      else
        plan ← look (aa24CheckPlan (AA24Ref identity));
        match plan with
        | Some err => mret (Some err)
        | None =>
            active ← look (is_active identity);
            if negb active then mret (Some ErrAA24Mismatch)
            else if negb (aa24Live identity (AA23Tick now)) then update (set_active false);; mret (Some ErrAA24Expired)
            else mret None
        end
  end.

Definition completion_record (identity : AA24CommandIdentity) (status sequence now : Z) : AA24Record :=
  let r := aa24ApplyIdentity identity (mkRecord24 AA24RecordCompletion 0 0 0 0 0 0 0 0 0 0 0 0 0 0 status x00 x00 x00 x00 0 []) in
  mkRecord24 (AA24Kind r) (rWorker r) (rStream r) (rTransaction r) (rPlan r) (AA24Subscriber r) (AA24Epoch r) (rOwnerToken r) (rOwnerExpiry r)
    sequence now (rPlanExpiry r) (rRequestDeadline r) (rArenaOffset r) (AA24PlanBytes r) (AA24Status r)
    (AA24Target r) (AA24RawOctet r) (AA24Direction r) (AA24Phase r) (AA24Flags r) (AA24Payload r).

Definition AA24Complete (identity : AA24CommandIdentity) (status : Z) (now : AA23ClockReading) : W (option aa24_error) :=
  err ← aa24Tick now;
  match err with
  | Some err => mret (Some err)
  | None =>
      if (status =? AA24StatusPending) || (AA24StatusRetired <? status) then mret (Some ErrAA24Record)
      else
        active ← look (is_active identity);
        if negb active then mret (Some ErrAA24Mismatch)
        else if negb (aa24Live identity (AA23Tick now)) then update (set_active false);; mret (Some ErrAA24Expired)
        else
          allocated ← aa24AllocateSequence (AA23Tick now);
          match allocated with
          | Err err => mret (Some err)
          | Ok sequence =>
              update (set_last (AA23Tick now));; update (set_active false);;
              aa24WriteData (completion_record identity status sequence (AA23Tick now))
          end
  end.

(** ** Revocation, resynchronisation and teardown *)

Definition is_revoked (ref : AA24PlanRef) (a : aa24AdoptedPlan) : bool := aa24Revoked a && ref_matches (adoptedRef a) ref.

Definition acknowledge_at (ref : AA24PlanRef) (stamp : Z) : W (option aa24_error) :=
  adopted ← look aa24Adopted;
  if negb (existsb (is_revoked ref) adopted) then mret (Some ErrAA24Stale)
  else
    err ← aa24PostRetired ref stamp;
    match err with
    | Some err => mret (Some err)
    | None => update (fun w => set_adopted (remove_first (is_revoked ref) (aa24Adopted w)) w);; mret None
    end.

Definition AA24AcknowledgeRevocation (ref : AA24PlanRef) (now : AA23ClockReading) : W (option aa24_error) :=
  err ← aa24Service now;
  match err with
  | Some ErrAA24Clock => stamp ← look trusted_stamp; acknowledge_at ref stamp
  | Some err => mret (Some err)
  | None => acknowledge_at ref (AA23Tick now)
  end.

Definition aa24FenceAcknowledged : W (option aa24_error) :=
  stop ← look aa24StopObserved;
  if negb stop then mret (Some ErrAA24NotAcknowledged)
  else
    host ← lane_indices AA24LaneHostControl;
    match host with
    | Ok (producer, read) =>
        if negb (producer =? read) then mret (Some ErrAA24NotAcknowledged)
        else
          latched ← look aa24GapLatched; written ← look aa24GapWritten;
          if negb latched then mret None
          else if negb written then mret (Some ErrAA24NotAcknowledged)
          else
            worker ← lane_indices AA24LaneWorkerControl; index ← look aa24GapIndex;
            match worker with
            | Ok (_, consumer) => mret (if consumer <=? index then Some ErrAA24NotAcknowledged else None)
            | Err _ => mret (Some ErrAA24NotAcknowledged)
            end
    | Err _ => mret (Some ErrAA24NotAcknowledged)
    end.

Definition AA24ResyncExpected (next hostPlanFloor hostTokenFloor : Z) : W (result aa24_error AA24Expected) :=
  detached ← look aa24Detached;
  if (detached : bool) then mret (Err ErrAA24Detached)
  else
    err ← aa24FenceAcknowledged;
    match err with
    | Some err => mret (Err err)
    | None =>
        stream ← look (fun w => bStream (wBinding w));
        if next <=? stream then mret (Err ErrAA24Stale)
        else
          look (fun w => Ok (successor (aa24Expected w) (bWorker (wBinding w)) next
            (if aa24PlanFloor w <? hostPlanFloor then hostPlanFloor else aa24PlanFloor w)
            (if aa24TokenFloor w <? hostTokenFloor then hostTokenFloor else aa24TokenFloor w)))
    end.

Definition AA24Teardown : W (option aa24_error) :=
  detached ← look aa24Detached;
  if (detached : bool) then mret None
  else
    open ← look AA24OutputOpen;
    if (open : bool) then mret (Some ErrAA24NotAcknowledged)
    else
      err ← aa24FenceAcknowledged;
      match err with
      | Some _ => mret (Some ErrAA24NotAcknowledged)
      | None =>
          retry ← look aa24RetireRetry; adopted ← look aa24Adopted;
          if 0 <? len retry then mret (Some ErrAA24NotAcknowledged)
          else if existsb aa24Revoked adopted then mret (Some ErrAA24NotAcknowledged)
          else update set_detached;; mret None
      end.
