(* ===== verification/IpcWorkerWalk.v ===== *)
(** How the worker's calls move along a preorder (src/localworker/aa24_ipc.go):
    the facts about the single assignments and lane operations from which it
    follows for every method. *)

From S2P Require Import Prelude Memory Calls PlanTypes IpcLayout IpcRecord IpcLane IpcWorker.
#[local] Open Scope list_scope.
#[local] Open Scope Z_scope.

(** The exported calls that change the object. *)
Inductive worker_call :=
| CPollControl (now : AA23ClockReading)
| CObserveRaw (o : AA24Observation) (now : AA23ClockReading)
| CNextCommand (dst : Z) (now : AA23ClockReading)
| CAdmitOutput (identity : AA24CommandIdentity) (now : AA23ClockReading)
| CComplete (identity : AA24CommandIdentity) (status : Z) (now : AA23ClockReading)
| CAcknowledgeRevocation (ref : AA24PlanRef) (now : AA23ClockReading)
| CResyncExpected (next hostPlanFloor hostTokenFloor : Z)
| CTeardown.

Inductive worker_answer :=
| APoll (e : option aa24_error)
| AObserved (a : Z * option aa24_error)
| ACommand (a : option AA24Delivery * option aa24_error)
| AAdmit (e : option aa24_error)
| AComplete (e : option aa24_error)
| AAcknowledge (e : option aa24_error)
| AResync (a : result aa24_error AA24Expected)
| ATeardown (e : option aa24_error).

Definition worker_do (c : worker_call) : ST AA24Worker worker_answer :=
  match c with
  | CPollControl now => a ← AA24PollControl now; mret (APoll a)
  | CObserveRaw o now => a ← AA24ObserveRaw o now; mret (AObserved a)
  | CNextCommand dst now => a ← AA24NextCommand dst now; mret (ACommand a)
  | CAdmitOutput identity now => a ← AA24AdmitOutput identity now; mret (AAdmit a)
  | CComplete identity status now => a ← AA24Complete identity status now; mret (AComplete a)
  | CAcknowledgeRevocation ref now => a ← AA24AcknowledgeRevocation ref now; mret (AAcknowledge a)
  | CResyncExpected next p t => a ← AA24ResyncExpected next p t; mret (AResync a)
  | CTeardown => a ← AA24Teardown; mret (ATeardown a)
  end.

(** Calls in a row; before each one the peer has left some memory. *)
Fixpoint worker_run (calls : list (list byte * worker_call)) (w : AA24Worker) : AA24Worker * list worker_answer :=
  match calls with
  | [] => (w, [])
  | (mem, c) :: rest =>
      let (w, a) := worker_do c (set_wire mem (aa24Lanes w) w) in
      let (w, answers) := worker_run rest w in (w, a :: answers)
  end.

(** Lane operations of the worker: on the lanes it writes, and on the two it
    reads. *)
Record lane_steps (R : AA24Worker -> AA24Worker -> Prop) : Prop := {
  ls_write kind r reserve : kind = AA24LaneWorkerControl \/ kind = AA24LaneWorkerData -> moves R (lane_write kind r reserve);
  ls_bump kind k : kind = AA24LaneHostControl \/ kind = AA24LaneHostData -> moves R (lane_bump kind k);
  ls_room reserve : moves R (lane_room AA24LaneWorkerControl reserve);
  ls_expired budget now : moves R (lane_expired AA24LaneWorkerControl budget now) }.

Record reader_steps (R : AA24Worker -> AA24Worker -> Prop) : Prop := {
  ls_peek cap : moves R (lane_peek AA24LaneHostControl cap);
  ls_release : moves R (lane_release AA24LaneHostControl);
  ls_indices kind : kind = AA24LaneHostControl \/ kind = AA24LaneWorkerControl -> moves R (lane_indices kind) }.

(** The read of the host's data lane. *)
Definition read_step (R : AA24Worker -> AA24Worker -> Prop) : Prop := forall cap, moves R (lane_read AA24LaneHostData cap).

(** Assignments of the worker, with what holds where they are made. *)
Record field_steps (R : AA24Worker -> AA24Worker -> Prop) : Prop := {
  fs_clock now w : R w (set_clock (aa23Observe now (aa24Clock w)).1 w);
  fs_next w : aa24NextSequence w <> MaxUint64 -> R w (set_next (aa24NextSequence w + 1) w);
  fs_last t w : R w (set_last t w);
  fs_close reason s t w : reason <> AA24FenceNone -> R w (close_fence reason s t w);
  fs_latch s t w : AA24Reason (aa24Fence w) <> AA24FenceNone -> R w (latch_gap s t w);
  fs_written i w : aa24GapLatched w = true -> aa24GapWritten w = false -> R w (set_gap_written true i w);
  fs_stop w : R w (set_stop true w);
  fs_adopted l w : R w (set_adopted l w);
  fs_refused l w : R w (set_refused l w);
  fs_retry l w : R w (set_retry l w);
  fs_plan v w : aa24PlanFloor w < v -> R w (set_plan_floor v w);
  fs_token v w : aa24TokenFloor w < v -> R w (set_token_floor v w);
  fs_idle w : R w (set_active false w);
  fs_activate i w : AA24OutputOpen w = true -> aa24CheckPlan (AA24Ref i) w = None -> R w (set_active true (set_active_id i w));
  fs_lost w : aa24Lost w <> MaxUint64 -> R w (set_lost (aa24Lost w + 1) w);
  fs_count v w : R w (set_refused_count v w) }.

(** Teardown, on a closed stream. *)
Definition detach_step (R : AA24Worker -> AA24Worker -> Prop) : Prop := forall w, AA24OutputOpen w = false -> R w (set_detached w).

(** A relation that does not look at the mapping or the lanes. *)
Section blind.
Context (R : AA24Worker -> AA24Worker -> Prop) `{!PreOrder R} (Hblind : forall mem lanes w, R w (set_wire mem lanes w)).

Lemma blind_lane {A} kind (f : list byte -> aa24Lane -> list byte * aa24Lane * A) : moves R (on_lane kind f).
Proof. intros w. unfold on_lane. destruct (f _ _) as [[mem n] a]. apply Hblind. Qed.

Lemma blind_lane_steps : lane_steps R.
Proof.
  split; intros; unfold lane_write, lane_bump, lane_room, lane_expired; first [apply blind_lane | apply moves_look_bind; intros w; apply blind_lane].
Qed.

Lemma blind_reader_steps : reader_steps R.
Proof.
  split; intros; unfold lane_peek, lane_release, lane_indices; first [apply blind_lane | apply moves_look_bind; intros w; apply blind_lane].
Qed.

Lemma blind_read_step : read_step R.
Proof. intros cap. apply moves_look_bind. intros w. apply blind_lane. Qed.
End blind.

(** The fact of [field_steps] that fits. *)
Ltac field_step HF :=
  first [ apply (fs_clock _ HF) | apply (fs_next _ HF); done | apply (fs_last _ HF) | apply (fs_close _ HF); done | apply (fs_written _ HF); done
        | apply (fs_stop _ HF) | apply (fs_adopted _ HF) | apply (fs_refused _ HF) | apply (fs_retry _ HF) | apply (fs_plan _ HF); done
        | apply (fs_token _ HF); done | apply (fs_idle _ HF) | apply (fs_lost _ HF); done | apply (fs_count _ HF) ].

Section walk.
Context (R : AA24Worker -> AA24Worker -> Prop) `{!PreOrder R} (HL : lane_steps R) (HF : field_steps R).

#[local] Hint Resolve ls_room ls_expired : moves.
#[local] Hint Extern 1 (moves _ (lane_bump _ _)) => (apply ls_bump; [exact HL|first [left; reflexivity|right; reflexivity]]) : moves.
#[local] Hint Extern 1 (moves _ (lane_write _ _ _)) => (apply ls_write; [exact HL|first [left; reflexivity|right; reflexivity]]) : moves.
#[local] Hint Extern 1 (moves _ (update _)) => (apply moves_update; intros ?; field_step HF) : moves.

Lemma walk_close reason s t : reason <> AA24FenceNone -> moves R (aa24Close reason s t).
Proof. intros H. apply moves_update. intros w. field_step HF. Qed.

Lemma walk_flush : moves R aa24FlushGap.
Proof.
  apply moves_look_bind. intros w. unfold mbind, st_bind, look. cbn [fst]. destruct (aa24GapLatched w) eqn:El; [|reflexivity]. destruct (aa24GapWritten w) eqn:Ew; [reflexivity|].
  cbn [negb orb]. pose proof (ls_write R HL AA24LaneWorkerControl (aa24GapRecord w) 0 (or_introl eq_refl) w) as H.
  assert (Hw : aa24GapLatched (lane_write AA24LaneWorkerControl (aa24GapRecord w) 0 w).1 = true /\ aa24GapWritten (lane_write AA24LaneWorkerControl (aa24GapRecord w) 0 w).1 = false).
  { unfold lane_write, mbind, st_bind, look, on_lane. destruct (aa24Write _ _ _ _ _) as [[mem n] e]. cbn [fst aa24GapLatched aa24GapWritten set_wire]. done. }
  destruct (lane_write _ _ _ w) as [w1 [e|]]; cbn [fst] in *; destruct Hw as [Hw1 Hw2]; [exact H|]. etrans; [exact H|]. field_step HF.
Qed.

Lemma close_closes reason s t w : reason <> AA24FenceNone -> AA24Reason (aa24Fence (close_fence reason s t w)) <> AA24FenceNone.
Proof. intros H. unfold close_fence. by case_bool_decide. Qed.

Lemma walk_raise reason s t : reason <> AA24FenceNone -> moves R (aa24RaiseGap reason s t).
Proof.
  intros H w. unfold aa24RaiseGap, aa24Close, mbind, st_bind, update. cbn. etrans; [by apply (fs_close R HF reason s t)|].
  etrans; [apply (fs_latch R HF s t), close_closes, H|]. apply walk_flush.
Qed.

Lemma walk_gap_sequence : moves R aa24GapSequence.
Proof.
  apply moves_look_bind. intros w. unfold only_if, mbind, st_bind, update, mret, st_ret. destruct (Z.eqb_spec (aa24NextSequence w) MaxUint64) as [|Hne]; cbn; [reflexivity|].
  field_step HF.
Qed.

Lemma walk_local reason : reason <> AA24FenceNone -> moves R (aa24RaiseLocalGap reason).
Proof.
  intros H. unfold aa24RaiseLocalGap. pose proof walk_flush. pose proof walk_gap_sequence. pose proof (fun s t => walk_raise reason s t H). moves_tac; auto.
Qed.

Lemma walk_allocate t : moves R (aa24AllocateSequence t).
Proof.
  apply moves_look_bind. intros w. destruct (Z.eqb_spec (aa24NextSequence w) MaxUint64) as [|Hne].
  - assert (moves R (aa24RaiseGap AA24FenceCounter MaxUint64 t;; mret (Err ErrAA24Counter : result aa24_error Z))) as H; [|apply H].
    pose proof (walk_raise AA24FenceCounter MaxUint64 t ltac:(done)). moves_tac; auto.
  - unfold mbind, st_bind, update. cbn. field_step HF.
Qed.

#[local] Hint Resolve walk_flush walk_gap_sequence walk_allocate : moves.
#[local] Hint Extern 1 (moves _ (aa24RaiseLocalGap _)) => (apply walk_local; discriminate) : moves.
#[local] Hint Extern 1 (moves _ (aa24RaiseGap _ _ _)) => (apply walk_raise; discriminate) : moves.
#[local] Hint Extern 1 (moves _ (aa24Close _ _ _)) => (apply walk_close; discriminate) : moves.

Lemma walk_tick now : moves R (aa24Tick now).
Proof.
  apply moves_look_bind. intros w. destruct (aa24Detached w); [reflexivity|]. unfold mbind, st_bind, look, update. cbn.
  pose proof (fs_clock R HF now w) as Hc. destruct (aa23Observe now (aa24Clock w)) as [clock err]. cbn [fst] in Hc. cbn. etrans; [exact Hc|]. generalize (set_clock clock w). intros w1.
  destruct (_ || _).
  - assert (moves R (aa24RaiseLocalGap AA24FenceClock;; mret (Some ErrAA24Clock))) as H; [moves_tac|apply H].
  - assert (moves R (aa24FlushGap;; mret (None : option aa24_error))) as H; [moves_tac|apply H].
Qed.

Lemma walk_drop ref : moves R (aa24DropRefused ref).
Proof. apply moves_update. intros w. field_step HF. Qed.

Lemma walk_post ref now : moves R (aa24PostRetired ref now).
Proof. unfold aa24PostRetired. moves_tac. Qed.

#[local] Hint Resolve walk_drop walk_post walk_tick : moves.

Lemma walk_retry refs now : moves R (retry_loop refs now).
Proof. induction refs as [|ref rest IH]; cbn [retry_loop]; moves_tac. Qed.

Lemma walk_keep ref full : moves R full -> moves R (keep_refused ref full).
Proof. intros H. unfold keep_refused. moves_tac. Qed.

Lemma walk_publish r now fenced : moves R (handle_publish r now fenced).
Proof.
  unfold handle_publish. apply moves_bind; [exact _|moves_tac|intros fence]. destruct (_ || _).
  - apply moves_bind; [exact _| |intros _; moves_tac]. apply walk_keep. moves_tac.
  - apply moves_look_bind. intros w. unfold mbind, st_bind, look. cbn. destruct (Z.leb_spec (rPlan r) (aa24PlanFloor w)) as [|Hp]; cbn [orb].
    + assert (moves R (keep_refused (aa24Ref r) (aa24RaiseLocalGap AA24FenceControlSaturated);; mret true)) as Hrun; [|apply Hrun].
      apply moves_bind; [exact _| |intros _; moves_tac]. apply walk_keep. moves_tac.
    + destruct (_ || _).
      * assert (moves R (keep_refused (aa24Ref r) (aa24RaiseLocalGap AA24FenceControlSaturated);; mret true)) as Hrun; [|apply Hrun].
        apply moves_bind; [exact _| |intros _; moves_tac]. apply walk_keep. moves_tac.
      * unfold update. cbn. etrans; [by apply (fs_plan R HF)|]. field_step HF.
Qed.

Lemma walk_revoke ref now : moves R (handle_revoke ref now).
Proof.
  unfold handle_revoke. moves_tac. apply moves_update. intros w. destruct (_ && _); [field_step HF|reflexivity].
Qed.

#[local] Hint Resolve walk_retry walk_publish walk_revoke : moves.

Lemma walk_control r now fenced : moves R (aa24HandleControl r now fenced).
Proof. unfold aa24HandleControl. moves_tac. Qed.

Lemma walk_saturated l : moves R (saturated_loop l).
Proof. induction l as [|i l IH]; cbn [saturated_loop]; moves_tac. Qed.

Lemma walk_watch now : moves R (watch_lanes now).
Proof. pose proof walk_saturated. unfold watch_lanes, aa24RetryRetired. moves_tac. Qed.

Context (HR : reader_steps R).
#[local] Hint Resolve ls_peek ls_release : moves.
#[local] Hint Extern 1 (moves _ (lane_indices _)) => (apply ls_indices; [exact HR|first [left; reflexivity|right; reflexivity]]) : moves.

Lemma walk_drain budget now fenced : moves R (drain_loop budget now fenced).
Proof. pose proof walk_control. induction budget as [|budget IH]; cbn [drain_loop]; moves_tac. Qed.


#[local] Hint Resolve walk_drain walk_watch : moves.

Lemma walk_service now : moves R (aa24Service now).
Proof. unfold aa24Service, aa24DrainControl, aa24RetryRetired. moves_tac. Qed.

Lemma walk_count_lost : moves R aa24CountLost.
Proof.
  apply moves_look_bind. intros w. destruct (Z.eqb_spec (aa24Lost w) MaxUint64) as [|Hne]; [apply walk_local; discriminate|]. unfold update. field_step HF.
Qed.

#[local] Hint Resolve walk_service walk_count_lost : moves.

Lemma walk_data r : moves R (aa24WriteData r).
Proof.
  unfold aa24WriteData. apply moves_bind; [exact _|moves_tac|]. intros [e|]; [|moves_tac].
  assert (moves R (aa24RaiseGap (if bool_decide (e = ErrAA24Counter) then AA24FenceCounter else AA24FenceCorruption) (AA24CaptureSequence r) (AA24CaptureTime r))) as H
    by (apply walk_raise; by case_bool_decide).
  destruct e; moves_tac; auto.
Qed.

#[local] Hint Resolve walk_data : moves.

Lemma walk_observe o now : moves R (AA24ObserveRaw o now).
Proof. unfold AA24ObserveRaw. moves_tac. Qed.

Lemma walk_complete i status now : moves R (AA24Complete i status now).
Proof. unfold AA24Complete. moves_tac. Qed.

Lemma walk_acknowledge ref now : moves R (AA24AcknowledgeRevocation ref now).
Proof. unfold AA24AcknowledgeRevocation, acknowledge_at. moves_tac. Qed.

Lemma walk_fence_acknowledged : moves R aa24FenceAcknowledged.
Proof. unfold aa24FenceAcknowledged. moves_tac. Qed.

#[local] Hint Resolve walk_fence_acknowledged : moves.

Lemma walk_resync next p t : moves R (AA24ResyncExpected next p t).
Proof. unfold AA24ResyncExpected. moves_tac. Qed.

Lemma walk_admit i now : moves R (AA24AdmitOutput i now).
Proof. unfold AA24AdmitOutput. moves_tac. Qed.

Lemma on_lane_wire {A} kind (f : list byte -> aa24Lane -> list byte * aa24Lane * A) w : exists mem lanes, (on_lane kind f w).1 = set_wire mem lanes w.
Proof. unfold on_lane. destruct (f _ _) as [[mem n] a]. by eexists _, _. Qed.

(** A command is admitted only while output is open. *)
Lemma walk_admit_command r now w : AA24OutputOpen w = true -> R w (admit_command r now w).1.
Proof.
  intros Ho. assert (forall err, moves R (lane_bump AA24LaneHostData CDropped;; mret (None, Some err) : ST AA24Worker (option AA24Delivery * option aa24_error))) as Hdrop by (intros err; moves_tac).
  unfold admit_command. cbv zeta. unfold mbind, st_bind, look, update. cbn [fst].
  destruct (negb _ || _) eqn:Es; [exact (Hdrop _ w)|]. apply orb_false_iff in Es as [_ Es%Z.leb_gt]. etrans; [by apply (fs_token R HF)|].
  set (w1 := set_token_floor _ w). assert (AA24OutputOpen w1 = true) as Ho1 by done. clearbody w1.
  destruct (aa24CheckPlan _ w1) eqn:Ep; [exact (Hdrop _ w1)|]. destruct (negb _); [exact (Hdrop _ w1)|]. cbn. by apply (fs_activate R HF).
Qed.

Context (HQ : read_step R).

Lemma walk_next dst now : moves R (AA24NextCommand dst now).
Proof.
  unfold AA24NextCommand. apply moves_bind; [exact _|moves_tac|]. intros [e|]; [moves_tac|].
  apply moves_look_bind. intros w. destruct (AA24OutputOpen w) eqn:Ho; [|reflexivity]. cbn [negb]. unfold mbind at 1, st_bind at 1, look at 1.
  destruct (_ && _); [reflexivity|]. unfold mbind at 1, st_bind at 1, update. etrans; [apply (fs_idle R HF)|]. set (w1 := set_active false w).
  assert (AA24OutputOpen w1 = true) as Ho1 by exact Ho. clearbody w1. unfold mbind at 1, st_bind at 1.
  pose proof (HQ dst w1) as Hr. assert (AA24OutputOpen (lane_read AA24LaneHostData dst w1).1 = true) as Ho2.
  { unfold lane_read, mbind, st_bind, look. destruct (on_lane_wire AA24LaneHostData (aa24Read (wLayout w1) dst) w1) as (mem & lanes & ->). exact Ho1. }
  destruct (lane_read AA24LaneHostData dst w1) as [w2 a]. cbn [fst] in *. etrans; [exact Hr|]. destruct a as [[r|]|e].
  - by apply walk_admit_command.
  - reflexivity.
  - assert (moves R (aa24RaiseLocalGap AA24FenceCorruption;; mret (None, Some e) : ST AA24Worker (option AA24Delivery * option aa24_error))) as H by moves_tac.
    destruct e; try apply H. reflexivity.
Qed.

Lemma lane_indices_open kind w : AA24OutputOpen (lane_indices kind w).1 = AA24OutputOpen w.
Proof. unfold lane_indices. by destruct (on_lane_wire kind (by_view aa24Indices) w) as (mem & lanes & ->). Qed.

Lemma acknowledged_open w : AA24OutputOpen (aa24FenceAcknowledged w).1 = AA24OutputOpen w.
Proof.
  unfold aa24FenceAcknowledged, mbind, st_bind, look. cbn. destruct (aa24StopObserved w); [|done]. cbn [negb].
  pose proof (lane_indices_open AA24LaneHostControl w) as H1. destruct (lane_indices AA24LaneHostControl w) as [w1 [[p c]|e]]; cbn [fst] in H1; [|done].
  destruct (negb _); [done|]. destruct (aa24GapLatched w1); [|done]. cbn. destruct (aa24GapWritten w1); [|done]. cbn.
  pose proof (lane_indices_open AA24LaneWorkerControl w1) as H2. destruct (lane_indices AA24LaneWorkerControl w1) as [w2 [[p2 c2]|e]]; cbn [fst] in *; cbn; congruence.
Qed.

Context (HD : detach_step R).

Lemma walk_teardown : moves R AA24Teardown.
Proof.
  apply moves_look_bind. intros w. destruct (aa24Detached w); [reflexivity|]. unfold mbind at 1, st_bind at 1, look at 1. destruct (AA24OutputOpen w) eqn:Ho; [reflexivity|].
  unfold mbind at 1, st_bind at 1. pose proof (walk_fence_acknowledged w) as Hr. pose proof (acknowledged_open w) as Ho1. rewrite Ho in Ho1.
  destruct (aa24FenceAcknowledged w) as [w1 [e|]]; cbn [fst] in *; (etrans; [exact Hr|]); [reflexivity|].
  unfold mbind, st_bind, look, update. cbn. destruct (0 <? _); [reflexivity|]. destruct (existsb _ _); [reflexivity|]. cbn. by apply HD.
Qed.

Lemma walk_do c : moves R (worker_do c).
Proof.
  destruct c; cbn [worker_do]; apply moves_bind; try exact _; try (intros ?; moves_tac).
  - apply walk_service.
  - apply walk_observe.
  - apply walk_next.
  - apply walk_admit.
  - apply walk_complete.
  - apply walk_acknowledge.
  - apply walk_resync.
  - apply walk_teardown.
Qed.

(** The peer's work between the calls is a move too. *)
Lemma walk_run (Hpeer : forall mem w, R w (set_wire mem (aa24Lanes w) w)) calls w : R w (worker_run calls w).1.
Proof.
  revert w. induction calls as [|[mem c] rest IH]; intros w; [reflexivity|]. cbn [worker_run].
  pose proof (walk_do c (set_wire mem (aa24Lanes w) w)) as H. destruct (worker_do c _) as [w1 a]. cbn [fst] in H. specialize (IH w1).
  destruct (worker_run rest w1) as [w2 answers]. cbn [fst] in *. etrans; [apply Hpeer|]. etrans; eassumption.
Qed.
End walk.
