(* ===== verification/IpcWorkerLaws.v ===== *)
(** What the worker's side guarantees whatever its peer writes
    (src/localworker/aa24_ipc.go): a closed stream stays closed, ordinals and
    tokens never come twice, and what an admitted output stands on. *)

From Stdlib Require Import Sorting.Sorted.
From S2P Require Import Prelude Memory Calls PlanTypes IpcLayout IpcFresh IpcRecord IpcLane IpcLanes IpcWorker IpcWorkerWalk.
#[local] Open Scope list_scope.
#[local] Open Scope Z_scope.

Definition fenced (w : AA24Worker) : Prop := AA24Reason (aa24Fence w) <> AA24FenceNone.

(** ** The fence *)

(** A closed stream has no active command, and a latched gap has closed it. *)
Definition fence_quiet (w : AA24Worker) : Prop := (fenced w -> aa24HasActive w = false) /\ (aa24GapLatched w = true -> fenced w).
(** The first cause stays; so does the one gap, and where it was written. *)
Definition fence_stays (s s' : AA24Worker) : Prop := fenced s -> aa24Fence s' = aa24Fence s.
Definition gap_stays (s s' : AA24Worker) : Prop :=
  aa24GapLatched s = true ->
  aa24GapLatched s' = true /\ aa24GapRecord s' = aa24GapRecord s /\
  (aa24GapWritten s = true -> aa24GapWritten s' = true /\ aa24GapIndex s' = aa24GapIndex s).

#[export] Instance fence_stays_preorder : PreOrder fence_stays.
Proof. split; [done|]. intros a b c H1 H2 H. rewrite H2; [by apply H1|]. unfold fenced. by rewrite (H1 H). Qed.

#[export] Instance gap_stays_preorder : PreOrder gap_stays.
Proof.
  split; [done|]. intros a b c H1 H2 H. destruct (H1 H) as (L & E & K). destruct (H2 L) as (L' & E' & K'). split; [done|]. split; [congruence|].
  intros G. destruct (K G) as [G1 G2]. destruct (K' G1) as [G3 G4]. split; [done|congruence].
Qed.

Definition fence_moves : AA24Worker -> AA24Worker -> Prop := both (kept fence_quiet) (both fence_stays gap_stays).

#[export] Instance fence_moves_preorder : PreOrder fence_moves.
Proof. apply _. Qed.

(** What touches neither fence nor gap nor activity. *)
Lemma fence_unmoved s s' :
  aa24Fence s' = aa24Fence s -> aa24HasActive s' = aa24HasActive s -> aa24GapLatched s' = aa24GapLatched s -> aa24GapRecord s' = aa24GapRecord s ->
  aa24GapWritten s' = aa24GapWritten s -> aa24GapIndex s' = aa24GapIndex s -> fence_moves s s'.
Proof.
  intros E1 E2 E3 E4 E5 E6. unfold fence_moves, both, kept, fence_quiet, fence_stays, gap_stays, fenced. rewrite E1, E2, E3, E4, E5, E6. tauto.
Qed.

Lemma fence_lane_steps : lane_steps fence_moves.
Proof. apply blind_lane_steps. intros mem lanes w. by apply fence_unmoved. Qed.

Lemma fence_reader_steps : reader_steps fence_moves.
Proof. apply blind_reader_steps. intros mem lanes w. by apply fence_unmoved. Qed.

Lemma gap_unmoved s s' :
  aa24GapLatched s' = aa24GapLatched s -> aa24GapRecord s' = aa24GapRecord s -> aa24GapWritten s' = aa24GapWritten s -> aa24GapIndex s' = aa24GapIndex s ->
  gap_stays s s'.
Proof. intros E3 E4 E5 E6. unfold gap_stays. rewrite E3, E4, E5, E6. tauto. Qed.

Lemma fence_field_steps : field_steps fence_moves.
Proof.
  split; try (intros; by apply fence_unmoved).
  - intros reason s t w H. unfold close_fence. case_bool_decide as Hn; [|split; [|split; [done|by apply gap_unmoved]]].
    + split; [|split; [|by apply gap_unmoved]]; [intros [H1 H2]; split; [done|intros _; exact H]|]. intros Hf. by destruct Hf.
    + intros [H1 H2]. split; [done|exact H2].
  - intros s t w H. unfold latch_gap. destruct (aa24GapLatched w) eqn:E; [by apply fence_unmoved|]. split; [|split; [done|]].
    + intros [H1 H2]. by split.
    + intros Hl. congruence.
  - intros i w Hl Hw. split; [exact (fun H => H)|split; [done|]]. intros _. cbn. rewrite Hw. done.
  - intros w. split; [|split; [done|by apply gap_unmoved]]. intros [H1 H2]. split; [done|exact H2].
  - intros i w Ho _. unfold AA24OutputOpen in Ho. apply andb_true_iff in Ho as [_ Ho%bool_decide_eq_true]. split; [|split; [done|by apply gap_unmoved]].
    intros [H1 H2]. split; [|exact H2]. intros Hf. by destruct Hf.
Qed.

Lemma fence_read_step : read_step fence_moves.
Proof. apply blind_read_step. intros mem lanes w. by apply fence_unmoved. Qed.

Lemma fence_detach_step : detach_step fence_moves.
Proof. intros w _. by apply fence_unmoved. Qed.

Lemma worker_fence calls w : fence_moves w (worker_run calls w).1.
Proof. apply (walk_run fence_moves fence_lane_steps fence_field_steps fence_reader_steps fence_read_step fence_detach_step). intros mem v. by apply fence_unmoved. Qed.

Lemma fenced_closed w : fenced w -> AA24OutputOpen w = false.
Proof. intros H. unfold AA24OutputOpen. by rewrite bool_decide_eq_false_2, andb_false_r. Qed.

(** An answer that lets nothing out. *)
Definition refuses (a : worker_answer) : Prop :=
  match a with
  | AObserved (_, e) => e <> None
  | ACommand (d, e) => d = None /\ e <> None
  | AAdmit e | AComplete e => e <> None
  | _ => True
  end.

Lemma moved_fenced s s' : fence_quiet s -> fenced s -> fence_moves s s' -> fenced s' /\ fence_quiet s'.
Proof. intros Hq Hf (H1 & H2 & _). split; [unfold fenced; by rewrite (H2 Hf)|by apply H1]. Qed.

Lemma service_fenced now w : fence_quiet w -> fenced w -> fenced (aa24Service now w).1 /\ fence_quiet (aa24Service now w).1.
Proof. intros Hq Hf. apply (moved_fenced w _ Hq Hf), (walk_service fence_moves fence_lane_steps fence_field_steps fence_reader_steps). Qed.

Lemma tick_fenced now w : fence_quiet w -> fenced w -> fenced (aa24Tick now w).1 /\ fence_quiet (aa24Tick now w).1.
Proof. intros Hq Hf. apply (moved_fenced w _ Hq Hf), (walk_tick fence_moves fence_lane_steps fence_field_steps). Qed.

Lemma fenced_refuses c w : fence_quiet w -> fenced w -> refuses (worker_do c w).2.
Proof.
  intros Hq Hf. destruct c as [now|o now|dst now|i now|i status now|ref now|next p t|]; cbn [worker_do]; unfold mbind, st_bind, mret, st_ret; cbv beta.
  - by destruct (AA24PollControl now w).
  - unfold AA24ObserveRaw. destruct (negb _); [done|]. unfold mbind, st_bind, mret, st_ret, look. destruct (tick_fenced now w Hq Hf) as [Hf1 _].
    destruct (aa24Tick now w) as [w1 [e|]]; cbn [fst] in Hf1.
    + by destruct (only_if _ _ w1) as [w2 []].
    + rewrite (fenced_closed w1 Hf1). cbn [negb]. by destruct (aa24CountLost w1) as [w2 []].
  - unfold AA24NextCommand, mbind, st_bind, mret, st_ret, look. destruct (service_fenced now w Hq Hf) as [Hf1 _].
    destruct (aa24Service now w) as [w1 [e|]]; cbn [fst] in Hf1; [done|]. rewrite (fenced_closed w1 Hf1). done.
  - unfold AA24AdmitOutput, mbind, st_bind, mret, st_ret, look. destruct (service_fenced now w Hq Hf) as [Hf1 _].
    destruct (aa24Service now w) as [w1 [e|]]; cbn [fst] in Hf1; [done|]. rewrite (fenced_closed w1 Hf1). done.
  - unfold AA24Complete, mbind, st_bind, mret, st_ret, look. destruct (tick_fenced now w Hq Hf) as [Hf1 [Hq1 _]].
    destruct (aa24Tick now w) as [w1 [e|]]; cbn [fst] in *; [done|]. destruct (_ || _); [done|]. unfold is_active. rewrite (Hq1 Hf1). done.
  - by destruct (AA24AcknowledgeRevocation ref now w).
  - by destruct (AA24ResyncExpected next p t w).
  - by destruct (AA24Teardown w).
Qed.

Lemma attached_quiet aligned mem e w : AA24AttachWorker aligned mem e = Ok w -> fence_quiet w /\ aa24NextSequence w = 1 /\ aa24RetireRetry w = [].
Proof.
  unfold AA24AttachWorker. destruct (_ =? 0); [done|]. destruct (AA24ValidateMapping _ _ _); [|done]. cbn [rbind]. intros [= <-].
  split; [|done]. split; [done|]. intros H. discriminate H.
Qed.

Lemma fenced_run calls w : fence_quiet w -> fenced w -> Forall refuses (worker_run calls w).2.
Proof.
  revert w. induction calls as [|[mem c] rest IH]; intros w Hq Hf; [constructor|]. cbn [worker_run].
  pose proof (fenced_refuses c (set_wire mem (aa24Lanes w) w) Hq Hf) as Ha.
  pose proof (moved_fenced _ _ Hq Hf (walk_do fence_moves fence_lane_steps fence_field_steps fence_reader_steps fence_read_step fence_detach_step c (set_wire mem (aa24Lanes w) w))) as [Hf1 Hq1].
  destruct (worker_do c _) as [w1 a]. cbn [fst snd] in *. specialize (IH w1 Hq1 Hf1). destruct (worker_run rest w1) as [w2 answers]. by constructor.
Qed.

(** C17: from attachment on, and whatever the host writes into the mapping
    between the calls: once a fence is up its first cause never changes, the
    gap record that was latched stays, and every later call that observes,
    takes a command, admits an output or completes is refused. *)
Theorem fence_is_final aligned mem e w before after
    (Hattach : AA24AttachWorker aligned mem e = Ok w) (Hfenced : fenced (worker_run before w).1) :
  let w1 := (worker_run before w).1 in
  let (w2, answers) := worker_run after w1 in
  aa24Fence w2 = aa24Fence w1 /\ aa24HasActive w2 = false /\ Forall refuses answers /\
  (aa24GapLatched w1 = true -> aa24GapLatched w2 = true /\ aa24GapRecord w2 = aa24GapRecord w1).
Proof.
  cbv zeta. pose proof (proj1 (attached_quiet _ _ _ _ Hattach)) as Hq. pose proof (proj1 (worker_fence before w) Hq) as Hq1.
  pose proof (fenced_run after _ Hq1 Hfenced) as Ha. destruct (worker_fence after (worker_run before w).1) as (H1 & H2 & H3).
  destruct (worker_run after _) as [w2 answers]. cbn [fst snd] in *. specialize (H2 Hfenced). split; [done|]. split; [|split; [done|]].
  - apply (H1 Hq1). unfold fenced. by rewrite H2.
  - intros Hl. destruct (H3 Hl) as (? & ? & _). done.
Qed.

(** ** Ordinals *)

Lemma ascending_answers (f : worker_answer -> option Z) (g : AA24Worker -> Z) :
  (forall mem w, g (set_wire mem (aa24Lanes w) w) = g w) ->
  (forall c w, g w <= g (worker_do c w).1 /\ forall v, f (worker_do c w).2 = Some v -> g w < v <= g (worker_do c w).1) ->
  forall calls w, StronglySorted Z.lt (omap f (worker_run calls w).2) /\ Forall (fun v => g w < v) (omap f (worker_run calls w).2).
Proof.
  intros Hm Hc. induction calls as [|[mem c] rest IH]; intros w; [split; constructor|]. cbn [worker_run].
  destruct (Hc c (set_wire mem (aa24Lanes w) w)) as [Hg Hv]. rewrite Hm in Hg, Hv. destruct (worker_do c _) as [w1 a]. cbn [fst snd] in *.
  destruct (IH w1) as [Hs Hall]. destruct (worker_run rest w1) as [w2 answers]. cbn [fst snd] in *.
  assert (Forall (fun v => g w < v) (omap f answers)) as Hall' by (eapply Forall_impl; [exact Hall|]; cbn; intros; lia).
  cbn [omap list_omap]. destruct (f a) as [v|] eqn:Ef; [|done]. destruct (Hv v eq_refl). split.
  - constructor; [exact Hs|]. eapply Forall_impl; [exact Hall|]. cbn. intros. lia.
  - by constructor.
Qed.

(** The tokens of the commands that were handed out. *)
Definition delivered_token (a : worker_answer) : option Z :=
  match a with ACommand (Some d, _) => Some (rOwnerToken (dRecord d)) | _ => None end.
(** The ordinals of the observations that were kept. *)
Definition observed_sequence (a : worker_answer) : option Z :=
  match a with AObserved (s, None) => Some s | _ => None end.

Lemma token_lane_steps : lane_steps (grows aa24TokenFloor).
Proof. apply blind_lane_steps. intros mem lanes w. apply Z.le_refl. Qed.

Lemma token_reader_steps : reader_steps (grows aa24TokenFloor).
Proof. apply blind_reader_steps. intros mem lanes w. apply Z.le_refl. Qed.

Lemma token_field_steps : field_steps (grows aa24TokenFloor).
Proof.
  split; intros; unfold grows, close_fence, latch_gap; repeat case_bool_decide; try destruct (aa24GapLatched w); cbn; lia.
Qed.

Lemma token_read_step : read_step (grows aa24TokenFloor).
Proof. apply blind_read_step. intros mem lanes w. apply Z.le_refl. Qed.

Lemma token_detach_step : detach_step (grows aa24TokenFloor).
Proof. intros w _. apply Z.le_refl. Qed.

Lemma next_read_step : read_step (grows aa24NextSequence).
Proof. apply blind_read_step. intros mem lanes w. apply Z.le_refl. Qed.

Lemma next_detach_step : detach_step (grows aa24NextSequence).
Proof. intros w _. apply Z.le_refl. Qed.

Lemma next_lane_steps : lane_steps (grows aa24NextSequence).
Proof. apply blind_lane_steps. intros mem lanes w. apply Z.le_refl. Qed.

Lemma next_reader_steps : reader_steps (grows aa24NextSequence).
Proof. apply blind_reader_steps. intros mem lanes w. apply Z.le_refl. Qed.

Lemma next_field_steps : field_steps (grows aa24NextSequence).
Proof.
  split; intros; unfold grows, close_fence, latch_gap; repeat case_bool_decide; try destruct (aa24GapLatched w); cbn; lia.
Qed.

Lemma bump_token kind k w : aa24TokenFloor (lane_bump kind k w).1 = aa24TokenFloor w.
Proof. by unfold lane_bump; destruct (on_lane_wire kind (fun mem n => (mem, aa24Bump k n, tt)) w) as (m & l & ->). Qed.

Lemma admitted_token r now w d e w' : admit_command r now w = (w', (Some d, e)) -> aa24TokenFloor w < rOwnerToken (dRecord d) /\ aa24TokenFloor w' = rOwnerToken (dRecord d) /\ d = mkDelivery r now /\
  aa24Active w' = aa24Identity r /\ aa24HasActive w' = true.
Proof.
  unfold admit_command. cbv zeta. unfold mbind, st_bind, look, update, mret, st_ret.
  destruct (negb _ || _) eqn:Es; [by destruct (lane_bump _ _ w)|]. apply orb_false_iff in Es as [_ Es%Z.leb_gt].
  destruct (aa24CheckPlan _ _); [by destruct (lane_bump _ _ _)|]. destruct (negb _); [by destruct (lane_bump _ _ _)|].
  intros [= <- <- <-]. done.
Qed.

Lemma next_token dst now w : forall d e w', AA24NextCommand dst now w = (w', (Some d, e)) -> aa24TokenFloor w < rOwnerToken (dRecord d) <= aa24TokenFloor w'.
Proof.
  intros d e w'. unfold AA24NextCommand. unfold mbind, st_bind, look, update, mret, st_ret.
  pose proof (walk_service (grows aa24TokenFloor) token_lane_steps token_field_steps token_reader_steps now w) as Hg. unfold grows in Hg.
  destruct (aa24Service now w) as [w1 [err|]]; cbn [fst] in Hg; [done|]. destruct (negb _); [done|]. destruct (_ && _); [done|].
  pose proof (token_read_step dst (set_active false w1)) as Hr. unfold grows in Hr. change (aa24TokenFloor (set_active false w1)) with (aa24TokenFloor w1) in Hr.
  destruct (lane_read _ _ _) as [w2 [[r|]|err]]; cbn [fst] in Hr; [|done|].
  - intros E. apply admitted_token in E. lia.
  - destruct err; try done; by destruct (aa24RaiseLocalGap _ _).
Qed.

Lemma data_sequence r w : aa24NextSequence w <= aa24NextSequence (aa24WriteData r w).1.
Proof. exact (walk_data (grows aa24NextSequence) next_lane_steps next_field_steps r w). Qed.

Lemma observed_next o now w : forall s w', AA24ObserveRaw o now w = (w', (s, None)) -> aa24NextSequence w <= s < aa24NextSequence w'.
Proof.
  intros s w'. unfold AA24ObserveRaw. destruct (negb _); [done|]. unfold mbind, st_bind, look, update, mret, st_ret.
  pose proof (walk_tick (grows aa24NextSequence) next_lane_steps next_field_steps now w) as Hg. unfold grows in Hg.
  destruct (aa24Tick now w) as [w1 [err|]]; cbn [fst] in Hg; [by destruct (only_if _ _ w1) as [? []]|].
  destruct (negb _); [by destruct (aa24CountLost w1) as [? []]|]. destruct (_ && _); [done|].
  unfold aa24AllocateSequence, mbind, st_bind, look, update, mret, st_ret. destruct (_ =? _).
  - destruct (aa24RaiseGap _ _ _ w1) as [? []]. by destruct (aa24CountLost _) as [? []].
  - pose proof (data_sequence (raw_record (set_next (aa24NextSequence w1 + 1) w1) o (aa24NextSequence w1) (AA23Tick now))
      (set_last (AA23Tick now) (set_next (aa24NextSequence w1 + 1) w1))) as Hd.
    destruct (aa24WriteData _ _) as [w2 e]. cbn [fst] in Hd. intros [= <- <- _]. cbn in Hd. lia.
Qed.

(** C35: whatever the host writes into the mapping between the calls, even
    replayed or forged records: the owner tokens of the commands the worker
    hands out strictly increase, so no command is handed out twice, and the
    ordinals of the observations it keeps strictly increase. *)
Theorem nothing_comes_twice calls w :
  StronglySorted Z.lt (omap delivered_token (worker_run calls w).2) /\ StronglySorted Z.lt (omap observed_sequence (worker_run calls w).2).
Proof.
  split.
  - apply (ascending_answers delivered_token aa24TokenFloor); [done|]. intros c v.
    split; [exact (walk_do _ token_lane_steps token_field_steps token_reader_steps token_read_step token_detach_step c v)|]. intros t. destruct c; cbn [worker_do]; unfold mbind, st_bind, mret, st_ret;
      try by match goal with |- context[let (_, _) := ?m v in _] => destruct (m v) end.
    destruct (AA24NextCommand dst now v) as [w' [[d|] e]] eqn:E; [|done]. intros [= <-]. by apply (next_token dst now v d e).
  - apply (ascending_answers observed_sequence (fun w => aa24NextSequence w - 1)); [done|]. intros c v.
    split; [pose proof (walk_do _ next_lane_steps next_field_steps next_reader_steps next_read_step next_detach_step c v) as H; unfold grows in H; lia|]. intros t. destruct c; cbn [worker_do]; unfold mbind, st_bind, mret, st_ret;
      try by match goal with |- context[let (_, _) := ?m v in _] => destruct (m v) end.
    destruct (AA24ObserveRaw o now v) as [w' [s [e|]]] eqn:E; [done|]. intros [= <-]. pose proof (observed_next o now v s w' E). cbn. lia.
Qed.

(** ** At the small mapping *)

Definition demo_worker : AA24Worker :=
  mkWorker demo_mapping demo_layout demo_expected (aa24AttachLanes demo_layout demo_limits24 true) (aa24SeedClock 1) 1 0 no_fence false false 0
    zero_record24 false [] [] [] 0 0 zero_command false 0 0 false.

Lemma demo_attached : AA24AttachWorker true demo_mapping demo_expected = Ok demo_worker.
Proof. unfold AA24AttachWorker. rewrite demo_validates. reflexivity. Qed.

(** The observations of a clock that runs backwards. *)
Definition demo_symbol : AA24Observation := mkObservation 1 x2a AA24DirectionReceive x00 zero_command.
Definition demo_backwards : list (list byte * worker_call) :=
  [(demo_mapping, CObserveRaw demo_symbol (mkReading 1 5)); (demo_mapping, CObserveRaw demo_symbol (mkReading 1 4))].

Lemma fence_is_final_witness :
  fenced (worker_run demo_backwards demo_worker).1 /\
  (worker_run [(demo_mapping, CNextCommand 16 (mkReading 1 9))] (worker_run demo_backwards demo_worker).1).2 = [ACommand (None, Some ErrAA24Clock)] /\
  aa24Fence (worker_run [(demo_mapping, CNextCommand 16 (mkReading 1 9))] (worker_run demo_backwards demo_worker).1).1 = aa24Fence (worker_run demo_backwards demo_worker).1.
Proof.
  assert (fenced (worker_run demo_backwards demo_worker).1) as Hf by (vm_compute; discriminate). split; [exact Hf|]. split; [vm_compute; reflexivity|].
  pose proof (fence_is_final true demo_mapping demo_expected demo_worker demo_backwards [(demo_mapping, CNextCommand 16 (mkReading 1 9))] demo_attached Hf) as H.
  cbv zeta in H. rewrite (surjective_pairing (worker_run [_] _)) in H. exact (proj1 H).
Defined.
