(* ===== verification/IpcWorkerSafe.v ===== *)
(** What an admitted output of the worker stands on, and what becomes of an
    observation (src/localworker/aa24_ipc.go). *)

From S2P Require Import Prelude Memory Calls PlanTypes IpcLayout IpcLayoutLaws IpcFresh IpcRecord IpcLane IpcQueue IpcLanes IpcWorker IpcWorkerWalk IpcWorkerLaws.
#[local] Open Scope list_scope.
#[local] Open Scope Z_scope.

(** ** Where the lanes lie *)

Record placed (w : AA24Worker) : Prop := {
  pl_lanes : length (aa24Lanes w) = 4%nat;
  pl_each k n : aa24Lanes w !! k = Some n -> geometry (aa24Layout n) (aa24PayloadCap n) (wMem w);
  pl_apart : ForallOrdPairs apart_ranges ((aa24Layout <$> aa24Lanes w) ≫= lane_ranges) }.

Definition control (w : AA24Worker) : aa24Lane := aa24Lane_ AA24LaneHostControl w.

(** How many records wait in the host's control lane, by its index words. *)
Definition produced (w : AA24Worker) : Z := get64 (aa24ProducerOffset (aa24Layout (control w))) (wMem w).
Definition consumed (w : AA24Worker) : Z := get64 (aa24ConsumerOffset (aa24Layout (control w))) (wMem w).

(** The lanes stay where they are, and the host's control lane is not touched. *)
Definition control_kept (s s' : AA24Worker) : Prop :=
  placed s -> placed s' /\ same_lane (control s) (control s') /\ produced s' = produced s /\ consumed s' = consumed s.

#[export] Instance control_kept_preorder : PreOrder control_kept.
Proof.
  split; [intros s H; split; [done|split; [by repeat split|done]]|]. intros a b c H1 H2 H. destruct (H1 H) as (P1 & S1 & A1 & B1). destruct (H2 P1) as (P2 & S2 & A2 & B2).
  split; [done|]. split; [by eapply same_lane_trans|]. split; congruence.
Qed.

Lemma placed_lane kind w : placed w -> known_lane kind -> aa24Lanes w !! lane_index kind = Some (aa24Lane_ kind w).
Proof. intros H Hk. apply list_lookup_lookup_total_lt. rewrite (pl_lanes _ H). unfold lane_index, known_lane in *. lia. Qed.

Lemma placed_set mem' kind n' w :
  placed w -> known_lane kind -> framed (aa24Layout (aa24Lane_ kind w)) (wMem w) mem' -> same_shape (aa24Lane_ kind w) n' ->
  placed (set_wire mem' (<[lane_index kind := n']> (aa24Lanes w)) w).
Proof.
  intros H Hk [Hl _] (S1 & S2 & S3). pose proof (placed_lane kind w H Hk) as Hn. split; cbn [set_wire wMem aa24Lanes].
  - rewrite length_insert. apply H.
  - intros k n Hkn. apply (geometry_len _ _ (wMem w)); [done|]. apply list_lookup_insert_Some in Hkn as [(<- & <- & _)|[_ Hkn]]; [|by apply (pl_each w H k)].
    rewrite S1, S2. by apply (pl_each w H _ _ Hn).
  - rewrite list_fmap_insert, S1, list_insert_id; [apply H|]. by rewrite list_lookup_fmap, Hn.
Qed.

(** A word of another lane stays. *)
Lemma other_word mem' kind kind' o w :
  placed w -> known_lane kind -> known_lane kind' -> kind <> kind' -> framed (aa24Layout (aa24Lane_ kind w)) (wMem w) mem' ->
  (o, 8) ∈ lane_ranges (aa24Layout (aa24Lane_ kind' w)) -> get64 o mem' = get64 o (wMem w).
Proof.
  intros H Hk Hk' Hne [_ Hf] Ho. pose proof (placed_lane kind w H Hk) as Hn. pose proof (placed_lane kind' w H Hk') as Hn'. unfold get64. f_equal. apply Hf.
  - pose proof (proj1 (Forall_forall _ _) (geo_inside _ _ _ (pl_each w H _ _ Hn')) _ Ho) as (? & _). done.
  - lia.
  - pose proof (ordered_pairs_blocks apart_ranges apart_ranges_sym lane_ranges (aa24Layout <$> aa24Lanes w) (lane_index kind) (lane_index kind')
      (aa24Layout (aa24Lane_ kind w)) (aa24Layout (aa24Lane_ kind' w)) (pl_apart _ H)) as Hap.
    rewrite !list_lookup_fmap, Hn, Hn' in Hap. specialize (Hap ltac:(unfold lane_index, known_lane in *; lia) eq_refl eq_refl).
    eapply Forall_impl; [exact Hap|]. intros r Hr. exact (proj1 (Forall_forall _ _) Hr _ Ho).
Qed.

Lemma control_same mem' kind n' w :
  placed w -> known_lane kind -> kind <> AA24LaneHostControl -> framed (aa24Layout (aa24Lane_ kind w)) (wMem w) mem' -> same_shape (aa24Lane_ kind w) n' ->
  control_kept w (set_wire mem' (<[lane_index kind := n']> (aa24Lanes w)) w).
Proof.
  intros H Hk Hne Hf Hs _. assert (known_lane AA24LaneHostControl) as H1 by done.
  assert (control (set_wire mem' (<[lane_index kind := n']> (aa24Lanes w)) w) = control w) as E.
  { unfold control, aa24Lane_. cbn [set_wire aa24Lanes]. apply list_lookup_total_insert_ne. unfold lane_index, known_lane, AA24LaneHostControl in *. lia. }
  unfold produced, consumed. rewrite E. cbn [set_wire wMem]. split; [by apply placed_set|]. split; [done|].
  split; apply (other_word mem' kind AA24LaneHostControl); try done; unfold lane_ranges; set_solver.
Qed.

Lemma write_stays kind r reserve w :
  placed w -> known_lane kind ->
  let res := aa24Write (wLayout w) r reserve (wMem w) (aa24Lane_ kind w) in
  framed (aa24Layout (aa24Lane_ kind w)) (wMem w) res.1.1 /\ same_shape (aa24Lane_ kind w) res.1.2.
Proof. intros H Hk. apply (write_framed _ _ (aa24PayloadCap (aa24Lane_ kind w))); [|done|done]. apply (pl_each w H _ _ (placed_lane kind w H Hk)). Qed.

Lemma control_lane_steps : lane_steps control_kept.
Proof.
  split.
  - intros kind r reserve Hk. apply moves_look_bind. intros w H. assert (known_lane kind /\ kind <> AA24LaneHostControl) as [K1 K2] by (by destruct Hk as [->| ->]).
    pose proof (write_stays kind r reserve w H K1) as [Hf Hs]. unfold on_lane. destruct (aa24Write _ _ _ _ _) as [[mem' n'] e]. by apply control_same.
  - intros kind k [-> | ->] w H; unfold lane_bump, on_lane; cbn [fst].
    + pose proof (bump_same k (aa24Lane_ AA24LaneHostControl w)) as Hb.
      assert (control (set_wire (wMem w) (<[lane_index AA24LaneHostControl := aa24Bump k (aa24Lane_ AA24LaneHostControl w)]> (aa24Lanes w)) w) = aa24Bump k (control w)) as E.
      { unfold control, aa24Lane_ at 1. cbn [set_wire aa24Lanes]. apply list_lookup_total_insert_eq. rewrite (pl_lanes _ H). change (0 < 4)%nat. lia. }
      unfold produced, consumed. rewrite E. split; [apply placed_set; [done|done|done|by apply same_lane_shape]|]. split; [exact Hb|]. destruct Hb as (Hb & _).
      fold (control w) in Hb. by rewrite Hb.
    + apply control_same; [done|done|done|done|by apply same_lane_shape, bump_same|done].
  - intros reserve w H. unfold lane_room, on_lane, by_view, aa24HasRoom. pose proof (indices_shape (wMem w) (aa24Lane_ AA24LaneWorkerControl w)) as Hs.
    destruct (aa24Indices _ _) as [n' [[p c]|e]]; by apply control_same.
  - intros budget now w H. unfold lane_expired, on_lane, by_view, aa24ServiceExpired. pose proof (indices_shape (wMem w) (aa24Lane_ AA24LaneWorkerControl w)) as Hs.
    destruct (aa24Indices _ _) as [n' [[p c]|e]]; [|by apply control_same]. destruct (_ || _); by apply control_same.
Qed.

Lemma control_unmoved s s' : wMem s' = wMem s -> aa24Lanes s' = aa24Lanes s -> control_kept s s'.
Proof.
  intros E1 E2 [H1 H2 H3]. unfold produced, consumed, control, aa24Lane_. split; [|rewrite E1, E2; by repeat split].
  split; rewrite ?E1, ?E2; done.
Qed.

Lemma control_field_steps : field_steps control_kept.
Proof. split; intros; apply control_unmoved; unfold close_fence, latch_gap; repeat case_bool_decide; try destruct (aa24GapLatched w); done. Qed.

(** ** What raises the fence *)

Lemma raise_fences reason s t w : reason <> AA24FenceNone -> fenced (aa24RaiseGap reason s t w).1.
Proof.
  intros H. unfold aa24RaiseGap, aa24Close, mbind, st_bind, update. cbn [fst].
  pose proof (close_closes reason s t w H) as Hf. set (w1 := close_fence reason s t w) in *. clearbody w1.
  assert (fenced (latch_gap s t w1)) as Hf2 by (unfold latch_gap; by destruct (aa24GapLatched w1)). set (w2 := latch_gap s t w1) in *. clearbody w2.
  pose proof (walk_flush fence_moves fence_lane_steps fence_field_steps w2) as (_ & H2 & _). unfold fenced. by rewrite (H2 Hf2).
Qed.

Lemma local_fences reason w : reason <> AA24FenceNone -> fence_quiet w -> fenced (aa24RaiseLocalGap reason w).1.
Proof.
  intros H [_ Hq]. unfold aa24RaiseLocalGap, mbind, st_bind, look. destruct (aa24GapLatched w) eqn:El.
  - pose proof (walk_flush fence_moves fence_lane_steps fence_field_steps w) as (_ & H2 & _). unfold fenced. rewrite (H2 (Hq eq_refl)). by apply Hq.
  - destruct (aa24GapSequence w) as [w1 s]. by apply raise_fences.
Qed.

Lemma quiet_moves {A} (m : ST AA24Worker A) w : moves fence_moves m -> fence_quiet w -> fence_quiet (m w).1.
Proof. intros H Hq. exact (proj1 (H w) Hq). Qed.

Lemma allocate_fails t w w' e : aa24AllocateSequence t w = (w', Err e) -> fenced w'.
Proof.
  unfold aa24AllocateSequence, mbind, st_bind, look, update, mret, st_ret. destruct (_ =? _); [|done].
  pose proof (raise_fences AA24FenceCounter MaxUint64 t w ltac:(done)) as Hf. destruct (aa24RaiseGap _ _ _ w) as [w1 []]. by intros [= <- _].
Qed.

Lemma post_fails ref now w w' e : fence_quiet w -> aa24PostRetired ref now w = (w', Some e) -> fenced w'.
Proof.
  intros Hq. unfold aa24PostRetired, mbind, st_bind, mret, st_ret, update.
  pose proof (quiet_moves _ w (ls_room _ fence_lane_steps aa24ReservedSlots) Hq) as Hq1. destruct (lane_room _ _ w) as [w1 [[|]|err]]; cbn [fst] in Hq1.
  - pose proof (quiet_moves _ w1 (walk_allocate fence_moves fence_lane_steps fence_field_steps now) Hq1) as Hq2.
    destruct (aa24AllocateSequence now w1) as [w2 [s|err]] eqn:Ea; cbn [fst] in Hq2; [|intros [= <- _]; by apply allocate_fails in Ea].
    pose proof (quiet_moves _ w2 (ls_write _ fence_lane_steps AA24LaneWorkerControl (acknowledge_record ref s now) aa24ReservedSlots (or_introl eq_refl)) Hq2) as Hq3.
    destruct (lane_write _ _ _ w2) as [w3 [err|]]; cbn [fst] in Hq3; [|done]. pose proof (local_fences AA24FenceCorruption w3 ltac:(done) Hq3) as Hf.
    destruct (aa24RaiseLocalGap _ w3) as [w4 []]. by intros [= <- _].
  - pose proof (local_fences AA24FenceControlSaturated w1 ltac:(done) Hq1) as Hf. destruct (aa24RaiseLocalGap _ w1) as [w4 []]. by intros [= <- _].
  - pose proof (local_fences AA24FenceCorruption w1 ltac:(done) Hq1) as Hf. destruct (aa24RaiseLocalGap _ w1) as [w4 []]. by intros [= <- _].
Qed.

(** A control record stays queued only on a closed stream. *)
Lemma unhandled_fences r now f w w' : fence_quiet w -> aa24HandleControl r now f w = (w', false) -> fenced w'.
Proof.
  intros Hq. unfold aa24HandleControl, mbind, st_bind, mret, st_ret, look, update.
  destruct (negb _); [by destruct (lane_bump _ _ w)|]. destruct (_ =? _); [by destruct (aa24Close _ _ _ _)|]. destruct (_ =? _).
  - unfold handle_revoke, mbind, st_bind, mret, st_ret, look, update. destruct (revoke_adopted _ _); [done|]. destruct (existsb _ _); [|by destruct (lane_bump _ _ w)].
    destruct (aa24PostRetired _ now w) as [w1 [e|]] eqn:Ep; [|by destruct (aa24DropRefused _ w1)]. intros [= <-]. by apply post_fails in Ep.
  - destruct (_ =? _); [|done]. unfold handle_publish, mbind, st_bind, mret, st_ret, look, update. destruct (_ || _); [by destruct (keep_refused _ _ w)|].
    destruct (_ || _ || _); [by destruct (keep_refused _ _ w)|done].
Qed.

(** ** Draining the host's control lane *)

Definition room_of (w : AA24Worker) : Z := aa24Capacity (aa24Layout (control w)).

Lemma control_set mem' n' w : placed w -> control (set_wire mem' (<[lane_index AA24LaneHostControl := n']> (aa24Lanes w)) w) = n'.
Proof. intros H. unfold control, aa24Lane_. cbn [set_wire aa24Lanes]. apply list_lookup_total_insert_eq. rewrite (pl_lanes _ H). change (0 < 4)%nat. lia. Qed.

Lemma consumer_seen mem n :
  match aa24Indices mem n with
  | (n', Ok (p, c)) => aa24IsProducer n = false ->
      p = get64 (aa24ProducerOffset (aa24Layout n)) mem /\ c = get64 (aa24ConsumerOffset (aa24Layout n)) mem /\ c <= p <= c + aa24Capacity (aa24Layout n) /\ n' = set_local p c n
  | (_, Err _) => True
  end.
Proof.
  unfold aa24Indices, aa24LoadAcquire. destruct (_ || _) eqn:E; [done|]. apply orb_false_iff in E as [E1%Z.ltb_ge E2%Z.ltb_ge].
  pose proof (get64_range (aa24ProducerOffset (aa24Layout n)) mem). pose proof (get64_range (aa24ConsumerOffset (aa24Layout n)) mem). rewrite wrap_small in E2 by lia.
  destruct (aa24IsProducer n).
  - by destruct (_ || _).
  - destruct (_ || _) eqn:E3; [done|]. apply orb_false_iff in E3 as [E3%negb_false_iff%Z.eqb_eq _]. intros _. split; [done|]. split; [done|]. split; [lia|]. by rewrite E3.
Qed.

Lemma peek_facts cap w : placed w ->
  let (w1, a) := lane_peek AA24LaneHostControl cap w in
  placed w1 /\ produced w1 = produced w /\ consumed w1 = consumed w /\ room_of w1 = room_of w /\ fence_moves w w1 /\
  match a with
  | Ok None => produced w = consumed w
  | Ok (Some _) => consumed w < produced w <= consumed w + room_of w /\ aa24IsProducer (control w1) = false /\
      aa24LocalConsumer (control w1) = consumed w /\ aa24LocalProducer (control w1) <= produced w
  | Err _ => True
  end.
Proof.
  intros H. pose proof (ls_peek _ fence_reader_steps cap w) as Hm. unfold lane_peek, mbind, st_bind, look, on_lane, by_view, aa24Peek in *.
  pose proof (placed_set (wMem w) AA24LaneHostControl) as Hp. pose proof (fun n' => control_set (wMem w) n' w H) as Hc. fold (control w) in *.
  pose proof (consumer_seen (wMem w) (control w)) as Hi. pose proof (indices_shape (wMem w) (control w)) as Hs. destruct (aa24IsProducer (control w)) eqn:Ep.
  { cbn [fst] in Hm. specialize (Hp (control w) w H ltac:(done) ltac:(done) ltac:(done)). split; [exact Hp|]. unfold produced, consumed, room_of. rewrite Hc. by split_and!. }
  destruct (aa24Indices (wMem w) (control w)) as [n' [[p c]|e]]; cbn [fst] in *.
  - destruct (Hi eq_refl) as (-> & -> & Hr & ->). fold (produced w) in *. fold (consumed w) in *.
    assert (Hgoal : forall a : result aa24_error (option AA24Record), let w1 := set_wire (wMem w) (<[lane_index AA24LaneHostControl := set_local (produced w) (consumed w) (control w)]> (aa24Lanes w)) w in
      placed w1 /\ produced w1 = produced w /\ consumed w1 = consumed w /\ room_of w1 = room_of w /\ control w1 = set_local (produced w) (consumed w) (control w)).
    { intros a. cbv zeta. split; [by apply Hp|]. unfold produced, consumed, room_of. rewrite !Hc. cbn [set_local aa24Layout]. by split_and!. }
    destruct (Z.eqb_spec (produced w) (consumed w)) as [E|Hne]; cbn [fst] in Hm.
    + destruct (Hgoal (Ok None)) as (G1 & G2 & G3 & G4 & G5). by split_and!.
    + destruct (Hgoal (Ok None)) as (G1 & G2 & G3 & G4 & G5). split_and!; try done. destruct (read_slot _ _ _ _); cbn [rbind]; [|done].
      rewrite G5. cbn [set_local aa24IsProducer aa24LocalConsumer aa24LocalProducer]. unfold room_of. split; [lia|]. split; [exact Ep|]. split; [done|]. lia.
  - specialize (Hp n' w H ltac:(done) ltac:(done) Hs). split; [exact Hp|]. destruct Hs as (S1 & _). unfold produced, consumed, room_of. rewrite Hc, S1. by split_and!.
Qed.

Lemma release_facts w : placed w -> aa24IsProducer (control w) = false -> aa24LocalConsumer (control w) = consumed w -> aa24LocalProducer (control w) <= produced w ->
  consumed w < produced w <= consumed w + room_of w ->
  let w1 := (lane_release AA24LaneHostControl w).1 in
  placed w1 /\ produced w1 = produced w /\ consumed w1 = consumed w + 1 /\ room_of w1 = room_of w /\ fence_moves w w1.
Proof.
  intros H Hp Hc Hlp Hr. cbv zeta. pose proof (ls_release _ fence_reader_steps w) as Hm. unfold lane_release, on_lane in *. fold (control w) in *.
  pose proof (pl_each w H _ _ (placed_lane AA24LaneHostControl w H ltac:(done))) as Hg. fold (control w) in Hg.
  pose proof (release_framed _ _ (wMem w) (control w) Hg eq_refl) as [Hf Hs]. unfold aa24Release in *.
  assert (aa24Indices (wMem w) (control w) = (set_local (produced w) (consumed w) (control w), Ok (produced w, consumed w))) as Ei.
  { unfold aa24Indices, aa24LoadAcquire. fold (produced w). fold (consumed w). rewrite Hp, Hc. pose proof (get64_range (aa24ProducerOffset (aa24Layout (control w))) (wMem w)) as R1.
    pose proof (get64_range (aa24ConsumerOffset (aa24Layout (control w))) (wMem w)) as R2. fold (produced w) in R1. fold (consumed w) in R2. rewrite wrap_small by lia. fold (room_of w).
    destruct (Z.ltb_spec (produced w) (consumed w)); [lia|]. destruct (Z.ltb_spec (room_of w) (produced w - consumed w)); [lia|]. cbn [orb]. rewrite Z.eqb_refl.
    destruct (Z.ltb_spec (produced w) (aa24LocalProducer (control w))); [lia|]. done. }
  rewrite Ei in *. destruct (Z.eqb_spec (produced w) (consumed w)); [lia|]. cbn [fst snd set_local aa24Layout] in *.
  pose proof (get64_range (aa24ProducerOffset (aa24Layout (control w))) (wMem w)) as R1. fold (produced w) in R1.
  assert (0 <= consumed w) as R2 by (unfold consumed; apply get64_range).
  assert (wrap 64 (consumed w + 1) = consumed w + 1) as W1 by (apply wrap_small; lia). assert (wrap 64 (produced w - consumed w) = produced w - consumed w) as W2 by (apply wrap_small; lia).
  rewrite W1, W2 in *.
  match type of Hf with framed _ _ ?m => set (mem' := m) in * end. match type of Hs with same_shape _ ?m => set (n' := m) in * end.
  split; [by apply placed_set|]. set (w1 := set_wire mem' _ w) in *. assert (control w1 = n') as Ec by (by apply control_set). destruct Hs as (S1 & _).
  assert (produced w1 = get64 (aa24ProducerOffset (aa24Layout (control w))) mem' /\ consumed w1 = get64 (aa24ConsumerOffset (aa24Layout (control w))) mem' /\ room_of w1 = room_of w) as (E1 & E2 & E3).
  { unfold produced, consumed, room_of. rewrite Ec, S1. done. }
  rewrite E1, E2, E3.
  destruct (geometry_apart _ _ _ Hg) as (_ & _ & A3 & (I1 & _ & I2) & (J1 & _ & J2)). cbn [fst snd] in *.
  split; [unfold mem', aa24StoreRelease, put64; rewrite get64_store; [done| | |]; rewrite ?len_le_bytes; [unfold fits; lia|lia|unfold disjoint in *; lia]|].
  split; [unfold mem', aa24StoreRelease; apply get64_put64; [unfold fits; lia|lia]|]. split; [done|exact Hm].
Qed.

Lemma drained budget now f w :
  placed w -> fence_quiet w -> 0 <= produced w - consumed w <= Z.of_nat budget \/ room_of w <= Z.of_nat budget ->
  let w' := (drain_loop budget now f w).1 in placed w' /\ fence_quiet w' /\ (fenced w' \/ produced w' = consumed w').
Proof.
  revert w. induction budget as [|budget IH]; intros w Hp Hq Hb; cbv zeta; cbn [drain_loop].
  - pose proof (geo_capacity _ _ _ (pl_each w Hp _ _ (placed_lane AA24LaneHostControl w Hp ltac:(done)))) as Hc. fold (control w) in Hc. fold (room_of w) in Hc.
    split; [done|]. split; [done|]. cbn [mret st_ret fst]. destruct Hb as [Hb|Hb]; [|lia]. right. lia.
  - unfold mbind, st_bind, look, mret, st_ret. pose proof (peek_facts (AA24MaxPayloadBytes (wLimits w)) w Hp) as Hpk.
    destruct (lane_peek AA24LaneHostControl _ w) as [w1 [[r|]|e]]; destruct Hpk as (P1 & E1 & E2 & E3 & M1 & Ha); pose proof (proj1 M1 Hq) as Q1; [| |].
    + destruct Ha as (A1 & A2 & A3 & A4). pose proof (walk_control control_kept control_lane_steps control_field_steps r now f w1 P1) as (P2 & S2 & F1 & F2).
      pose proof (walk_control fence_moves fence_lane_steps fence_field_steps r now f w1) as M2. pose proof (proj1 M2 Q1) as Q2.
      destruct (aa24HandleControl r now f w1) as [w2 [|]] eqn:Eh; cbn [fst] in *.
      * destruct S2 as (T1 & T2 & T3 & T4 & T5). assert (room_of w2 = room_of w1) as E4 by (unfold room_of; by rewrite T1).
        pose proof (release_facts w2 P2 ltac:(congruence) ltac:(congruence) ltac:(lia) ltac:(lia)) as (P3 & F3 & F4 & F5 & M3).
        destruct (lane_release AA24LaneHostControl w2) as [w3 []]. cbn [fst] in *. apply IH; [done|exact (proj1 M3 Q2)|]. left. lia.
      * split; [done|]. split; [done|]. left. by apply (unhandled_fences r now f w1).
    + split; [done|]. split; [done|]. right. cbn [fst]. lia.
    + split; [apply (walk_local control_kept control_lane_steps control_field_steps); done|]. split; [|left; by apply local_fences].
      by apply (quiet_moves _ w1 (walk_local fence_moves fence_lane_steps fence_field_steps AA24FenceCorruption ltac:(done))).
Qed.

Lemma serviced now w : placed w -> fence_quiet w ->
  let (w', e) := aa24Service now w in e = None -> placed w' /\ fence_quiet w' /\ (fenced w' \/ produced w' = consumed w').
Proof.
  intros Hp Hq. unfold aa24Service, mbind, st_bind, mret, st_ret.
  pose proof (walk_tick control_kept control_lane_steps control_field_steps now w Hp) as (P1 & _).
  pose proof (quiet_moves _ w (walk_tick fence_moves fence_lane_steps fence_field_steps now) Hq) as Q1. destruct (aa24Tick now w) as [w1 [e|]]; cbn [fst] in *.
  - by destruct (only_if _ _ w1).
  - unfold aa24DrainControl, mbind, st_bind, look. fold (control w1). pose proof (geo_capacity _ _ _ (pl_each w1 P1 _ _ (placed_lane AA24LaneHostControl w1 P1 ltac:(done)))) as Hc. fold (control w1) in Hc.
    pose proof (drained (Z.to_nat (aa24Capacity (aa24Layout (control w1)))) (AA23Tick now) false w1 P1 Q1) as Hd. cbv zeta in Hd.
    destruct (drain_loop _ _ _ w1) as [w2 []]. cbn [fst] in Hd. destruct Hd as (P2 & Q2 & D2); [right; unfold room_of; lia|].
    pose proof (walk_watch control_kept control_lane_steps control_field_steps (AA23Tick now) w2 P2) as (P3 & _ & E1 & E2).
    pose proof (walk_watch fence_moves fence_lane_steps fence_field_steps (AA23Tick now) w2) as (Q3 & F3 & _). destruct (watch_lanes _ w2) as [w3 []]. cbn [fst] in *. intros _.
    split; [done|]. split; [by apply Q3|]. destruct D2 as [D2|D2]; [left; unfold fenced; by rewrite (F3 D2)|right; congruence].
Qed.

Lemma attach_placed aligned mem e w :
  AA24AttachWorker aligned mem e = Ok w -> 0 <= AA24MaxPayloadBytes (AA24Limits_ e) -> placed w.
Proof.
  unfold AA24AttachWorker. destruct (_ =? 0); [done|]. destruct (AA24ValidateMapping aligned mem e) as [lo|] eqn:Ev; [|done]. cbn [rbind]. intros [= <-] Hpay.
  pose proof (validated_is_well_formed _ _ _ _ Ev) as Hwf. pose proof (validated_limits _ _ _ _ Ev) as Hc.
  assert (aa24Layout <$> (attach_lane (AA24Limits_ e) true <$> IpcLayout.aa24Lanes lo) = IpcLayout.aa24Lanes lo) as El.
  { by induction (IpcLayout.aa24Lanes lo) as [|v l IH]; cbn; [|rewrite IH]. }
  split; cbn [aa24Lanes wMem]; unfold aa24AttachLanes.
  - rewrite length_fmap. apply (wf_lanes _ _ _ Hwf).
  - intros k n Hn. apply list_lookup_fmap_Some in Hn as (v & -> & Hv). by apply (lane_geometry mem e lo k v).
  - rewrite El. pose proof (wf_apart _ _ _ Hwf) as Ha. unfold layout_ranges in Ha. by apply ordered_pairs_cons in Ha as [_ [_ Ha]%ordered_pairs_cons].
Qed.

(** ** Until teardown the lanes stay in place *)

Section in_place.
Context (size : Z) (views : list aa24LaneLayout).

Definition in_place (w : AA24Worker) : Prop :=
  aa24Detached w = false -> placed w /\ len (wMem w) = size /\ aa24Layout <$> aa24Lanes w = views.

Lemma on_lane_kept {A} kind (f : list byte -> aa24Lane -> list byte * aa24Lane * A) :
  known_lane kind ->
  (forall w, placed w -> framed (aa24Layout (aa24Lane_ kind w)) (wMem w) (f (wMem w) (aa24Lane_ kind w)).1.1 /\
    same_shape (aa24Lane_ kind w) (f (wMem w) (aa24Lane_ kind w)).1.2) ->
  moves (kept in_place) (on_lane kind f).
Proof.
  intros Hk Hf w Hw. unfold on_lane. specialize (Hf w). destruct (f _ _) as [[mem' n'] a]. cbn [fst snd] in *. intros Hd. destruct (Hw Hd) as (Hp & Hl & Hv). destruct (Hf Hp) as [H1 H2]. split; [by apply placed_set|]. cbn [set_wire wMem aa24Lanes]. split; [rewrite <- Hl; apply H1|].
  destruct H2 as (S1 & _). rewrite list_fmap_insert, S1, list_insert_id; [done|]. by rewrite list_lookup_fmap, (placed_lane kind w Hp Hk).
Qed.

Lemma placed_lane_steps : lane_steps (kept in_place).
Proof.
  split.
  - intros kind r reserve Hk. assert (known_lane kind) as K by (by destruct Hk as [-> | ->]). apply moves_look_bind. intros w. apply (on_lane_kept kind); [done|]. intros v Hv.
    apply (write_framed _ _ (aa24PayloadCap (aa24Lane_ kind v))); [|done|done]. apply (pl_each v Hv _ _ (placed_lane kind v Hv K)).
  - intros kind k Hk. assert (known_lane kind) as K by (by destruct Hk as [-> | ->]). apply (on_lane_kept kind); [done|]. intros v Hv. split; [done|]. apply same_lane_shape, bump_same.
  - intros reserve. apply (on_lane_kept AA24LaneWorkerControl); [done|]. intros v Hv. unfold by_view, aa24HasRoom.
    pose proof (indices_shape (wMem v) (aa24Lane_ AA24LaneWorkerControl v)) as Hs. by destruct (aa24Indices _ _) as [n' [[p c]|e]].
  - intros budget now. apply (on_lane_kept AA24LaneWorkerControl); [done|]. intros v Hv. unfold by_view, aa24ServiceExpired.
    pose proof (indices_shape (wMem v) (aa24Lane_ AA24LaneWorkerControl v)) as Hs. destruct (aa24Indices _ _) as [n' [[p c]|e]]; [|done]. by destruct (_ || _).
Qed.

Lemma placed_reader_steps : reader_steps (kept in_place).
Proof.
  split.
  - intros cap. apply moves_look_bind. intros w. apply (on_lane_kept AA24LaneHostControl); [done|]. intros v Hv. unfold by_view.
    pose proof (peek_shape (wLayout w) cap (wMem v) (aa24Lane_ AA24LaneHostControl v)) as Hs. by destruct (aa24Peek _ _ _ _).
  - apply (on_lane_kept AA24LaneHostControl); [done|]. intros v Hv.
    pose proof (release_framed _ _ (wMem v) _ (pl_each v Hv _ _ (placed_lane AA24LaneHostControl v Hv ltac:(done))) eq_refl) as H. by destruct (aa24Release _ _).
  - intros kind Hk. assert (known_lane kind) as K by (by destruct Hk as [-> | ->]). apply (on_lane_kept kind); [done|]. intros v Hv. unfold by_view.
    pose proof (indices_shape (wMem v) (aa24Lane_ kind v)) as Hs. by destruct (aa24Indices _ _).
Qed.

Lemma placed_read_step : read_step (kept in_place).
Proof.
  intros cap. apply moves_look_bind. intros w. apply (on_lane_kept AA24LaneHostData); [done|]. intros v Hv. unfold aa24Read.
  pose proof (peek_shape (wLayout w) cap (wMem v) (aa24Lane_ AA24LaneHostData v)) as Hs. pose proof (pl_each v Hv _ _ (placed_lane AA24LaneHostData v Hv ltac:(done))) as Hg.
  destruct (aa24Peek _ _ _ _) as [n [[r|]|e]]; cbn [fst snd] in *; [|done|done]. destruct Hs as (S1 & S2 & S3).
  pose proof (release_framed _ _ (wMem v) n Hg S1) as [Hf Hs]. destruct (aa24Release (wMem v) n) as [m' n']. cbn [fst snd] in *. split; [done|]. by apply (shape_trans _ n).
Qed.

Lemma in_place_unmoved s s' : wMem s' = wMem s -> aa24Lanes s' = aa24Lanes s -> aa24Detached s' = aa24Detached s -> kept in_place s s'.
Proof.
  intros E1 E2 E3 H Hd. rewrite E3 in Hd. destruct (H Hd) as ([H1 H2 H3] & Hl & Hv). rewrite E1, E2. split; [|done]. split; rewrite ?E1, ?E2; done.
Qed.

Lemma placed_field_steps : field_steps (kept in_place).
Proof. split; intros; apply in_place_unmoved; unfold close_fence, latch_gap; repeat case_bool_decide; try destruct (aa24GapLatched w); done. Qed.

Lemma placed_detach_step : detach_step (kept in_place).
Proof. intros w _ _. done. Qed.

(** The peer may write what it likes, but the mapping keeps its size. *)
Definition sized (mem : list byte) (calls : list (list byte * worker_call)) : Prop := Forall (fun c => len c.1 = len mem) calls.

Lemma same_len_placed mem w : len mem = len (wMem w) -> placed w -> placed (set_wire mem (aa24Lanes w) w).
Proof. intros Hl [H1 H2 H3]. split; cbn [set_wire wMem aa24Lanes]; [done| |done]. intros k n Hn. by apply (geometry_len _ _ (wMem w)), (H2 k). Qed.

Lemma peer_in_place mem w : len mem = size -> in_place w -> in_place (set_wire mem (aa24Lanes w) w).
Proof. intros Hl H Hd. destruct (H Hd) as (Hp & He & Hv). split; [|done]. apply same_len_placed; [congruence|done]. Qed.

Lemma run_in_place calls w : Forall (fun c => len c.1 = size) calls -> in_place w -> in_place (worker_run calls w).1.
Proof.
  revert w. induction calls as [|[mem c] rest IH]; intros w Hs Hw; [done|]. apply Forall_cons in Hs as [Hs Hrest]. cbn [worker_run fst] in *.
  pose proof (walk_do _ placed_lane_steps placed_field_steps placed_reader_steps placed_read_step placed_detach_step c _ (peer_in_place mem w Hs Hw)) as H1.
  destruct (worker_do c _) as [w1 a]. cbn [fst] in H1. specialize (IH w1 Hrest H1). by destruct (worker_run rest w1).
Qed.
End in_place.

Lemma check_plan_adopted ref l : check_plan ref l = None -> exists a, a ∈ l /\ ref_matches (adoptedRef a) ref = true /\ aa24Revoked a = false.
Proof.
  induction l as [|a l IH]; cbn [check_plan]; [done|]. destruct (ref_matches _ _) eqn:E.
  - destruct (aa24Revoked a) eqn:Er; [done|]. intros _. exists a. split; [by left|done].
  - intros H. destruct (IH H) as (b & Hb & ?). exists b. split; [by right|done].
Qed.

Lemma detached_service now w : aa24Detached w = true -> (aa24Service now w).2 = Some ErrAA24Detached.
Proof. intros H. unfold aa24Service, aa24Tick, mbind, st_bind, look, mret, st_ret. rewrite H. done. Qed.

(** C6: when an output is admitted, then output is open, the command is the
    active one, its plan is adopted and not revoked, none of its deadlines has
    passed, and the host's control lane has been read to its end: no stop or
    revocation that the host had queued before the call is still waiting.  The
    host may have written anything into the mapping before any of the calls. *)
Theorem admitted_output_is_current aligned mem e w calls seen_mem identity now
    (Hattach : AA24AttachWorker aligned mem e = Ok w) (Hpay : 0 <= AA24MaxPayloadBytes (AA24Limits_ e))
    (Hsize : sized mem calls) (Hseen : len seen_mem = len mem) :
  let w1 := (worker_run calls w).1 in
  let (w2, err) := AA24AdmitOutput identity now (set_wire seen_mem (aa24Lanes w1) w1) in
  err = None ->
  AA24OutputOpen w2 = true /\ is_active identity w2 = true /\ aa24Live identity (AA23Tick now) = true /\
  (exists plan, plan ∈ aa24Adopted w2 /\ ref_matches (adoptedRef plan) (AA24Ref identity) = true /\ aa24Revoked plan = false) /\
  produced w2 = consumed w2.
Proof.
  cbv zeta. pose proof (attach_placed _ _ _ _ Hattach Hpay) as Hp0. assert (wMem w = mem) as Hm.
  { unfold AA24AttachWorker in Hattach. destruct (_ =? 0); [done|]. destruct (AA24ValidateMapping _ _ _); [|done]. by injection Hattach as <-. }
  assert (in_place (len mem) (aa24Layout <$> aa24Lanes w) w) as Hin by (intros _; by rewrite Hm). pose proof (run_in_place (len mem) _ calls w Hsize Hin) as Hin1.
  pose proof (peer_in_place (len mem) _ seen_mem _ Hseen Hin1) as Hin2. pose proof (proj1 (worker_fence calls w) (proj1 (attached_quiet _ _ _ _ Hattach))) as Hq.
  set (w1 := set_wire seen_mem _ _) in *. assert (fence_quiet w1) as Hq1 by exact Hq. clearbody w1. clear Hq Hin Hin1.
  unfold AA24AdmitOutput, mbind, st_bind, mret, st_ret, look, update.
  destruct (aa24Detached w1) eqn:Ed; [pose proof (detached_service now w1 Ed) as E; destruct (aa24Service now w1) as [w2 err]; cbn [snd] in E; by subst err|].
  destruct (Hin2 Ed) as (Hp & _). pose proof (serviced now w1 Hp Hq1) as Hs. destruct (aa24Service now w1) as [w2 [err|]]; [done|]. destruct (Hs eq_refl) as (P2 & Q2 & D2).
  destruct (AA24OutputOpen w2) eqn:Eo; [|done]. cbn [negb]. destruct (aa24CheckPlan _ w2) eqn:Ec; [done|]. destruct (is_active identity w2) eqn:Ea; [|done]. cbn [negb].
  destruct (aa24Live identity _) eqn:El; [|done]. cbn [negb]. intros _. split; [done|]. split; [done|]. split; [done|]. split; [by apply check_plan_adopted|].
  destruct D2 as [D2|D2]; [|done]. by rewrite (fenced_closed w2 D2) in Eo.
Qed.

(** ** At the small mapping *)

(** The memory after the host queued the plan and the command. *)
Definition demo_host (kind : Z) : aa24Lane := aa24AttachLanes demo_layout demo_limits24 false !!! lane_index kind.
Definition demo_queued : list byte :=
  (aa24Write demo_layout demo_command 0 (aa24Write demo_layout demo_publish 1 demo_mapping (demo_host AA24LaneHostControl)).1.1 (demo_host AA24LaneHostData)).1.1.

Definition demo_calls : list (list byte * worker_call) := [(demo_queued, CNextCommand 16 (mkReading 1 5))].

Lemma admitted_output_is_current_witness :
  let w1 := (worker_run demo_calls demo_worker).1 in
  (worker_run demo_calls demo_worker).2 = [ACommand (Some (mkDelivery demo_command 5), None)] /\
  (AA24AdmitOutput demo_identity (mkReading 1 6) (set_wire (wMem w1) (aa24Lanes w1) w1)).2 = None /\
  aa24Live demo_identity 6 = true /\
  produced (AA24AdmitOutput demo_identity (mkReading 1 6) (set_wire (wMem w1) (aa24Lanes w1) w1)).1 =
    consumed (AA24AdmitOutput demo_identity (mkReading 1 6) (set_wire (wMem w1) (aa24Lanes w1) w1)).1.
Proof.
  cbv zeta. split; [vm_compute; reflexivity|].
  assert ((AA24AdmitOutput demo_identity (mkReading 1 6) (set_wire (wMem (worker_run demo_calls demo_worker).1) (aa24Lanes (worker_run demo_calls demo_worker).1) (worker_run demo_calls demo_worker).1)).2 = None) as Ha
    by (vm_compute; reflexivity).
  split; [exact Ha|]. assert (sized demo_mapping demo_calls) as Hs by (apply Forall_singleton; vm_compute; reflexivity).
  assert (len (wMem (worker_run demo_calls demo_worker).1) = len demo_mapping) as Hl by (vm_compute; reflexivity).
  pose proof (admitted_output_is_current true demo_mapping demo_expected demo_worker demo_calls (wMem (worker_run demo_calls demo_worker).1) demo_identity (mkReading 1 6)
    demo_attached ltac:(discriminate) Hs Hl) as H.
  cbv zeta in H. rewrite (surjective_pairing (AA24AdmitOutput _ _ _)) in H. destruct (H Ha) as (_ & _ & L & _ & P). split; [exact L|exact P].
Defined.
