(* ===== verification/IpcWorkerObserve.v ===== *)
(** What becomes of an observation (src/localworker/aa24_ipc.go): it is in the
    data lane, or the stream is closed. *)

From S2P Require Import Prelude Memory Calls PlanTypes IpcLayout IpcLayoutLaws IpcFresh IpcRecord IpcLane IpcQueue IpcLanes.
From S2P Require Import IpcLane IpcWorker IpcWorkerWalk IpcWorkerLaws IpcWorkerSafe.
#[local] Open Scope list_scope.
#[local] Open Scope Z_scope.

(** ** The shape of a raw record *)

Lemma valid_shape w o sequence now lo :
  aa24Valid o = true -> bWorker (wBinding w) <> 0 -> bStream (wBinding w) <> 0 -> sequence <> 0 -> now <> 0 ->
  aa24Shape (raw_record w o sequence now) AA24LaneWorkerData lo = true.
Proof.
  intros Hv Hw Hs Hq Ht. unfold aa24Valid in Hv. destruct (_ || _) eqn:E in Hv; [done|].
  apply orb_false_iff in E as [E E4]. apply orb_false_iff in E as [E E3]. apply orb_false_iff in E as [E1 E2].
  unfold aa24Shape, raw_record, aa24ApplyIdentity, aa24ApplyRef.
  cbn [AA24Kind rWorker rStream rTransaction rPlan AA24Subscriber AA24Epoch rOwnerToken rOwnerExpiry AA24CaptureSequence AA24CaptureTime rPlanExpiry rRequestDeadline
    rArenaOffset AA24PlanBytes AA24Status AA24Target AA24RawOctet AA24Direction AA24Phase AA24Flags AA24Payload].
  rewrite E3, E4. apply Z.eqb_neq in Hw, Hs, Hq, Ht. rewrite Hw, Hs, Hq, Ht, E1, E2. cbv zeta.
  change (aa24KindOnLane AA24RecordRaw AA24LaneWorkerData) with true. change (AA24StatusRetired <? 0) with false. cbn [negb orb andb Z.eqb Pos.eqb AA24RecordRaw AA24RecordPublish AA24RecordRevoke
    AA24RecordAcknowledge AA24RecordGap AA24RecordStop AA24RecordCommand AA24StatusPending]. change (len (@nil byte) =? 0) with true. rewrite !andb_true_r.
  destruct (bool_decide_reflect (AA24Selection o = zero_command)) as [->|_].
  - apply orb_true_iff. right. done.
  - apply orb_true_iff. left. repeat (apply andb_true_iff in Hv as [Hv ?]).
    repeat match goal with H : ?b = true |- context[?b] => rewrite H end. done.
Qed.

(** ** A closed stream with its gap *)

Definition gapped (w : AA24Worker) : Prop := fenced w /\ aa24GapLatched w = true.

Lemma gapped_moves {A} (m : ST AA24Worker A) w : moves fence_moves m -> gapped w -> gapped (m w).1.
Proof. intros H [H1 H2]. destruct (H w) as (_ & F & G). split; [unfold fenced; by rewrite (F H1)|]. by destruct (G H2). Qed.

#[local] Notation flush_moves := (walk_flush fence_moves fence_lane_steps fence_field_steps).
#[local] Notation lost_moves := (walk_count_lost fence_moves fence_lane_steps fence_field_steps).

Lemma raise_gaps reason s t w : reason <> AA24FenceNone -> gapped (aa24RaiseGap reason s t w).1.
Proof.
  intros H. split; [by apply raise_fences|]. unfold aa24RaiseGap, aa24Close, mbind, st_bind, update. cbn [fst].
  set (w2 := latch_gap s t _). assert (aa24GapLatched w2 = true) as Hl by (unfold w2, latch_gap; destruct (aa24GapLatched (close_fence _ _ _ w)) eqn:E; done).
  pose proof (flush_moves w2) as (_ & _ & G). by destruct (G Hl).
Qed.

Lemma local_gaps reason w : reason <> AA24FenceNone -> fence_quiet w -> gapped (aa24RaiseLocalGap reason w).1.
Proof.
  intros H Hq. unfold aa24RaiseLocalGap, mbind, st_bind, look. destruct (aa24GapLatched w) eqn:El.
  - apply (gapped_moves _ w flush_moves). split; [by apply Hq|done].
  - destruct (aa24GapSequence w) as [w1 s]. by apply raise_gaps.
Qed.

Lemma data_error r w : let (w', e) := aa24WriteData r w in e <> None -> gapped w'.
Proof.
  unfold aa24WriteData, mbind, st_bind, mret, st_ret. destruct (lane_write _ _ _ w) as [w1 [e|]]; [|done].
  assert (forall reason : AA24FenceReason, reason <> AA24FenceNone -> gapped (aa24CountLost (aa24RaiseGap reason (AA24CaptureSequence r) (AA24CaptureTime r) w1).1).1) as Hg.
  { intros reason Hr. apply (gapped_moves _ _ lost_moves). by apply raise_gaps. }
  pose proof (Hg AA24FenceDataFull ltac:(done)) as G1. pose proof (raise_gaps AA24FenceCorruption (AA24CaptureSequence r) (AA24CaptureTime r) w1 ltac:(done)) as G2.
  specialize (Hg (if bool_decide (e = ErrAA24Counter) then AA24FenceCounter else AA24FenceCorruption) ltac:(by case_bool_decide)).
  destruct e; try (destruct (aa24RaiseGap _ _ _ w1) as [w2 []]; cbn [fst] in *; destruct (aa24CountLost w2) as [w3 []]; intros _; exact Hg).
  - destruct (aa24RaiseGap AA24FenceDataFull _ _ w1) as [w2 []]; cbn [fst] in *; destruct (aa24CountLost w2) as [w3 []]; intros _; exact G1.
  - destruct (aa24RaiseGap AA24FenceCorruption _ _ w1) as [w2 []]. intros _. exact G2.
Qed.

(** A tick on an open stream only moves the clock. *)
Lemma tick_open now w w1 :
  fence_quiet w -> aa24Tick now w = (w1, None) ->
  AA23Tick now <> 0 /\ aa24Detached w = false /\ (fenced w1 -> fenced w) /\ (~ fenced w1 -> w1 = set_clock (aa23Observe now (aa24Clock w)).1 w).
Proof.
  intros [_ Hq] Ht. unfold aa24Tick, mbind, st_bind, look, update, mret, st_ret in Ht. destruct (aa24Detached w) eqn:Ed; [done|].
  destruct (aa23Observe now (aa24Clock w)) as [c err]. cbn [fst]. destruct (_ || _) eqn:E; [by destruct (aa24RaiseLocalGap _ _)|]. apply orb_false_iff in E as [_ E%Z.eqb_neq].
  pose proof (flush_moves (set_clock c w)) as (_ & F & _). destruct (aa24FlushGap _) as [w2 []] eqn:Ef. injection Ht as <-. cbn [fst] in F.
  split; [done|]. split; [done|]. assert (aa24GapLatched w = false -> w2 = set_clock c w) as Hid.
  { intros El. unfold aa24FlushGap, mbind, st_bind, look, mret, st_ret in Ef. cbn [set_clock aa24GapLatched] in Ef. rewrite El in Ef. by injection Ef as <-. }
  destruct (aa24GapLatched w) eqn:El; [|split; [rewrite Hid by done; done|by intros _; apply Hid]].
  split; [intros _; by apply Hq|]. intros Hn. destruct Hn. unfold fenced. rewrite F; by apply Hq.
Qed.

(** Where an observation was put. *)
Definition kept_in_data (w : AA24Worker) (r : AA24Record) (w' : AA24Worker) : Prop :=
  let v := aa24Layout (aa24Lane_ AA24LaneWorkerData w) in wMem w' = pushed v r (get64 (aa24ProducerOffset v) (wMem w)) (wMem w).

Lemma data_written r w w' :
  placed w -> aa24WriteData r w = (w', None) -> kept_in_data w r w'.
Proof.
  intros Hp. unfold aa24WriteData, lane_write, on_lane, mbind, st_bind, mret, st_ret, look.
  pose proof (pl_each w Hp _ _ (placed_lane AA24LaneWorkerData w Hp ltac:(done))) as Hg.
  destruct (aa24Write _ _ _ _ _) as [[mem' n'] e] eqn:E. destruct e as [e|].
  - intros Hr. exfalso. destruct e; repeat match type of Hr with context[let (_, _) := ?m ?s in _] => destruct (m s) end; discriminate Hr.
  - intros [= <-]. unfold kept_in_data. cbn [set_wire wMem]. by apply (write_done _ _ _ _ _ _ _ _ _ Hg eq_refl) in E.
Qed.

(** A record of the right shape is refused for want of room or by a broken lane only. *)
Lemma shaped_not_refused r w : aa24Shape r AA24LaneWorkerData (wLayout w) = true -> aa24Kind (aa24Layout (aa24Lane_ AA24LaneWorkerData w)) = AA24LaneWorkerData ->
  (aa24WriteData r w).2 <> Some ErrAA24Record /\ (aa24WriteData r w).2 <> Some ErrAA24Mismatch.
Proof.
  intros Hs Hk. assert ((lane_write AA24LaneWorkerData r 0 w).2 <> Some ErrAA24Record /\ (lane_write AA24LaneWorkerData r 0 w).2 <> Some ErrAA24Mismatch) as [H1 H2].
  { unfold lane_write, on_lane, mbind, st_bind, look. unfold aa24Write. destruct (negb _); [done|]. destruct (_ <? _); [done|]. rewrite Hk, Hs. cbn [negb].
    unfold aa24HasRoom, aa24Indices. destruct (_ || _); [done|]. destruct (aa24IsProducer _); destruct (_ || _); try done; destruct (_ <? _); try done; by destruct (_ =? _). }
  unfold aa24WriteData, mbind, st_bind, mret, st_ret. destruct (lane_write _ _ _ w) as [w1 [e|]]; [|done]. cbn [snd] in H1, H2.
  split; intros E; destruct e; try done; repeat match type of E with context[let (_, _) := ?m ?s in _] => destruct (m s) end; discriminate E.
Qed.

(** ** The state an observation meets *)

Record reachable (size : Z) (views : list aa24LaneLayout) (w : AA24Worker) : Prop := {
  rc_quiet : fence_quiet w;
  rc_place : in_place size views w;
  rc_next : 1 <= aa24NextSequence w;
  rc_names : bWorker (wBinding w) <> 0 /\ bStream (wBinding w) <> 0;
  rc_kind v : views !! lane_index AA24LaneWorkerData = Some v -> aa24Kind v = AA24LaneWorkerData }.

Lemma names_lane_steps : lane_steps (same aa24Expected).
Proof. apply blind_lane_steps. intros mem lanes w. done. Qed.
Lemma names_reader_steps : reader_steps (same aa24Expected).
Proof. apply blind_reader_steps. intros mem lanes w. done. Qed.
Lemma names_read_step : read_step (same aa24Expected).
Proof. apply blind_read_step. intros mem lanes w. done. Qed.
Lemma names_field_steps : field_steps (same aa24Expected).
Proof. split; intros; unfold same, close_fence, latch_gap; repeat case_bool_decide; try destruct (aa24GapLatched w); done. Qed.
Lemma names_detach_step : detach_step (same aa24Expected).
Proof. intros w _. done. Qed.

Lemma attach_reachable aligned mem e w :
  AA24AttachWorker aligned mem e = Ok w -> 0 <= AA24MaxPayloadBytes (AA24Limits_ e) -> reachable (len mem) (aa24Layout <$> aa24Lanes w) w.
Proof.
  intros Ha Hp. pose proof (attach_placed _ _ _ _ Ha Hp) as Hpl. destruct (attached_quiet _ _ _ _ Ha) as (Hq & Hn & _).
  unfold AA24AttachWorker in Ha. destruct (_ =? 0); [done|]. destruct (AA24ValidateMapping aligned mem e) as [lo|] eqn:Ev; [|done]. cbn [rbind] in Ha.
  pose proof (validated_is_well_formed _ _ _ _ Ev) as Hwf. injection Ha as <-. split.
  - done.
  - intros _. by split_and!.
  - rewrite Hn. lia.
  - destruct (wf_identity _ _ _ Hwf) as (_ & _ & ? & ?). done.
  - intros v Hv. cbn [aa24Lanes] in Hv. unfold aa24AttachLanes in Hv. apply list_lookup_fmap_Some in Hv as (n & -> & Hn'). apply list_lookup_fmap_Some in Hn' as (u & -> & Hu).
    by destruct (wf_sized _ _ _ Hwf _ _ Hu) as [Hk _].
Qed.

Lemma run_reachable size views calls w : Forall (fun c => len c.1 = size) calls -> reachable size views w -> reachable size views (worker_run calls w).1.
Proof.
  intros Hs [H1 H2 H3 H4 H5]. split.
  - exact (proj1 (worker_fence calls w) H1).
  - by apply run_in_place.
  - pose proof (walk_run _ next_lane_steps next_field_steps next_reader_steps next_read_step next_detach_step ltac:(intros ? ?; apply Z.le_refl) calls w) as H. unfold grows in H. lia.
  - unfold wBinding. rewrite (walk_run _ names_lane_steps names_field_steps names_reader_steps names_read_step names_detach_step ltac:(done) calls w). done.
  - done.
Qed.

Lemma peer_reachable size views mem w : len mem = size -> reachable size views w -> reachable size views (set_wire mem (aa24Lanes w) w).
Proof. intros Hl [H1 H2 H3 H4 H5]. split; try done. by apply peer_in_place. Qed.

Lemma reachable_kind size views w : reachable size views w -> aa24Detached w = false -> aa24Kind (aa24Layout (aa24Lane_ AA24LaneWorkerData w)) = AA24LaneWorkerData.
Proof.
  intros H Hd. destruct (rc_place _ _ _ H Hd) as (Hp & _ & Hv). apply (rc_kind _ _ _ H). rewrite <- Hv.
  by rewrite list_lookup_fmap, (placed_lane AA24LaneWorkerData w Hp).
Qed.

(** An observation of an open stream, past the checks. *)
Lemma capture_kept size views w o now :
  reachable size views w -> aa24Detached w = false -> aa24Valid o = true -> AA23Tick now <> 0 ->
  let (w1, a) := aa24AllocateSequence (AA23Tick now) w in
  match a with
  | Err _ => gapped w1
  | Ok sequence =>
      sequence = aa24NextSequence w /\
      let r := raw_record w1 o sequence (AA23Tick now) in
      let (w2, e) := aa24WriteData r (set_last (AA23Tick now) w1) in
      (e <> Some ErrAA24Record /\ e <> Some ErrAA24Mismatch) /\ (e = None -> kept_in_data w (raw_record w o sequence (AA23Tick now)) w2) /\ (e <> None -> gapped w2)
  end.
Proof.
  intros Hr Hd Hv Ht. unfold aa24AllocateSequence, mbind, st_bind, look, update, mret, st_ret. destruct (_ =? _).
  - pose proof (raise_gaps AA24FenceCounter MaxUint64 (AA23Tick now) w ltac:(done)) as Hg. by destruct (aa24RaiseGap _ _ _ w) as [w1 []].
  - split; [done|]. cbv zeta. set (w1 := set_next _ w). change (raw_record w1 o (aa24NextSequence w) (AA23Tick now)) with (raw_record w o (aa24NextSequence w) (AA23Tick now)).
    set (r := raw_record w o (aa24NextSequence w) (AA23Tick now)). destruct (rc_names _ _ _ Hr) as [N1 N2]. pose proof (rc_next _ _ _ Hr) as Hn.
    destruct (rc_place _ _ _ Hr Hd) as (Hp & _). assert (placed (set_last (AA23Tick now) w1)) as Hp1 by (destruct Hp as [P1 P2 P3]; by split).
    pose proof (shaped_not_refused r (set_last (AA23Tick now) w1) (valid_shape w o (aa24NextSequence w) (AA23Tick now) _ Hv N1 N2 ltac:(lia) Ht) (reachable_kind _ _ _ Hr Hd)) as Hs.
    pose proof (data_error r (set_last (AA23Tick now) w1)) as He. pose proof (data_written r (set_last (AA23Tick now) w1)) as Hw.
    destruct (aa24WriteData r _) as [w2 e]. cbn [snd] in Hs. split; [done|]. split; [|done]. intros ->. exact (Hw w2 Hp1 eq_refl).
Qed.

Lemma tick_error now w w1 e : fence_quiet w -> aa24Detached w = false -> aa24Tick now w = (w1, Some e) -> e = ErrAA24Clock /\ gapped w1.
Proof.
  intros Hq Hd. unfold aa24Tick, mbind, st_bind, look, update, mret, st_ret. rewrite Hd. destruct (aa23Observe _ _) as [c err]. destruct (_ || _); [|by destruct (aa24FlushGap _)].
  pose proof (local_gaps AA24FenceClock (set_clock c w) ltac:(done) Hq) as Hg. destruct (aa24RaiseLocalGap _ _) as [w2 []]. by intros [= <- <-].
Qed.

Lemma observe_outcome size views w o now :
  reachable size views w -> aa24Detached w = false ->
  let (w2, a) := AA24ObserveRaw o now w in
  match a.2 with
  | None => a.1 = aa24NextSequence w /\ kept_in_data w (raw_record w o a.1 (AA23Tick now)) w2
  | Some ErrAA24Record => aa24Valid o = false /\ w2 = w
  | Some ErrAA24Mismatch => AA24Selection o <> zero_command /\ is_active (AA24Selection o) w2 = false
  | Some _ => fenced w2 /\ (fenced w \/ aa24GapLatched w2 = true)
  end.
Proof.
  intros Hr Hd. unfold AA24ObserveRaw. destruct (aa24Valid o) eqn:Hv; [|done]. cbn [negb]. unfold mbind, st_bind, look, update, mret, st_ret.
  destruct (aa24Tick now w) as [w1 [e|]] eqn:Et.
  { destruct (tick_error now w w1 e (rc_quiet _ _ _ Hr) Hd Et) as [-> Hg]. cbn [snd negb bool_decide]. rewrite bool_decide_eq_false_2 by done. cbn [negb only_if].
    pose proof (gapped_moves _ w1 lost_moves Hg) as [G1 G2]. destruct (aa24CountLost w1) as [w2 []]. cbn [fst snd] in *. by split; [|right]. }
  destruct (tick_open now w w1 (rc_quiet _ _ _ Hr) Et) as (Ht & _ & Hf & Hid).
  destruct (AA24OutputOpen w1) eqn:Eo; cbn [negb].
  2: { assert (aa24Detached w1 = false) as Hd1.
       { unfold aa24Tick, mbind, st_bind, look, update, mret, st_ret in Et. rewrite Hd in Et. destruct (aa23Observe _ _) as [c err]. destruct (_ || _); [by destruct (aa24RaiseLocalGap _ _)|].
         unfold aa24FlushGap, mbind, st_bind, look, update, mret, st_ret in Et. destruct (_ || _); [by injection Et as <-|].
         unfold lane_write, mbind, st_bind, look in Et. destruct (on_lane_wire AA24LaneWorkerControl (aa24Write (wLayout (set_clock c w)) (aa24GapRecord (set_clock c w)) 0) (set_clock c w)) as (m & l & Ew).
         destruct (on_lane _ _ _) as [w3 [x|]]; cbn [fst] in Ew; subst w3; by injection Et as <-. }
       unfold AA24OutputOpen in Eo. rewrite Hd1 in Eo. cbn [negb andb] in Eo. apply bool_decide_eq_false in Eo.
       pose proof (lost_moves w1) as (_ & F & _). destruct (aa24CountLost w1) as [w2 []]. cbn [fst snd] in *. split; [unfold fenced; by rewrite (F Eo)|left; by apply Hf]. }
  assert (~ fenced w1) as Hnf by (intros Hx; by rewrite (fenced_closed w1 Hx) in Eo). specialize (Hid Hnf).
  assert (reachable size views w1) as Hr1 by (rewrite Hid; destruct Hr; split; done || by apply (in_place_unmoved _ _ w)).
  destruct (negb (bool_decide _) && _) eqn:Em.
  { apply andb_true_iff in Em as [Em1%negb_true_iff Em2%negb_true_iff]. apply bool_decide_eq_false in Em1. done. }
  assert (aa24Detached w1 = false) as Hd1 by (by rewrite Hid). pose proof (capture_kept size views w1 o now Hr1 Hd1 Hv Ht) as Hc.
  destruct (aa24AllocateSequence (AA23Tick now) w1) as [w2 [s|e]] eqn:Ea.
  - destruct Hc as [Hs Hc]. cbv zeta in Hc. destruct (aa24WriteData _ _) as [w3 e]. destruct Hc as ([N1 N2] & Hk & Hg). cbn [fst snd].
    destruct e as [e|]; [|split; [rewrite Hs, Hid; done|]; specialize (Hk eq_refl); rewrite Hid in Hk; exact Hk].
    destruct (Hg ltac:(done)) as [G1 G2]. destruct e; try done; by split; [|right].
  - pose proof (gapped_moves _ w2 lost_moves Hc) as [G1 G2]. unfold aa24AllocateSequence, mbind, st_bind, look, update, mret, st_ret in Ea. destruct (_ =? _); [|done].
    destruct (aa24RaiseGap _ _ _ w1) as [w4 []]. injection Ea as -> <-. destruct (aa24CountLost w2) as [w3 []]. cbn [fst snd] in *. by split; [|right].
Qed.

(** C16: an observation is never lost without a trace.  Whatever the host
    does to the mapping: a well-formed observation either is in the data lane,
    in the next slot, under the next ordinal and byte for byte, or it was
    attributed to a command that is not active and is refused, or the stream is
    closed afterwards, and was closed before or has its gap latched.  Only a
    malformed one is refused without any effect. *)
Theorem observation_is_kept_or_fences aligned mem e w calls seen_mem o now
    (Hattach : AA24AttachWorker aligned mem e = Ok w) (Hpay : 0 <= AA24MaxPayloadBytes (AA24Limits_ e))
    (Hsize : sized mem calls) (Hseen : len seen_mem = len mem) :
  let w1 := set_wire seen_mem (aa24Lanes (worker_run calls w).1) (worker_run calls w).1 in
  aa24Detached w1 = false ->
  let (w2, a) := AA24ObserveRaw o now w1 in
  match a.2 with
  | None => a.1 = aa24NextSequence w1 /\ kept_in_data w1 (raw_record w1 o a.1 (AA23Tick now)) w2
  | Some ErrAA24Record => aa24Valid o = false /\ w2 = w1
  | Some ErrAA24Mismatch => AA24Selection o <> zero_command /\ is_active (AA24Selection o) w2 = false
  | Some _ => fenced w2 /\ (fenced w1 \/ aa24GapLatched w2 = true)
  end.
Proof.
  cbv zeta. intros Hd. pose proof (run_reachable _ _ calls w Hsize (attach_reachable _ _ _ _ Hattach Hpay)) as Hr.
  apply (observe_outcome (len mem) (aa24Layout <$> aa24Lanes w)); [by apply peer_reachable|done].
Qed.

Lemma observation_is_kept_or_fences_witness :
  let w1 := set_wire demo_mapping (aa24Lanes demo_worker) demo_worker in
  (AA24ObserveRaw demo_symbol (mkReading 1 5) w1).2 = (1, None) /\
  kept_in_data w1 (raw_record w1 demo_symbol 1 5) (AA24ObserveRaw demo_symbol (mkReading 1 5) w1).1.
Proof.
  cbv zeta. assert ((AA24ObserveRaw demo_symbol (mkReading 1 5) (set_wire demo_mapping (aa24Lanes demo_worker) demo_worker)).2 = (1, None)) as Ha by (vm_compute; reflexivity).
  split; [exact Ha|].
  pose proof (observation_is_kept_or_fences true demo_mapping demo_expected demo_worker [] demo_mapping demo_symbol (mkReading 1 5) demo_attached ltac:(discriminate)
    ltac:(constructor) ltac:(reflexivity)) as H.
  cbv zeta in H. specialize (H ltac:(reflexivity)). cbn [worker_run fst] in H. rewrite (surjective_pairing (AA24ObserveRaw _ _ _)) in H. rewrite Ha in H. exact (proj2 H).
Defined.
