(* ===== verification/IpcHost.v ===== *)
(** src/localworker/aa24_ipc.go, the host's side of the mapping: AA24Host with
    all its methods.

    As on the worker's side, the state is one record that holds the mapping and
    the layout the lanes point to, a call is one step, and a slice with a fixed
    capacity is a list with the capacity it was made with: the limit of plans,
    the limit of outstanding commands, the capacity of the worker's data lane
    for lingering identities and of its control lane for explained ordinals.  A
    delivery with its flag is an option. *)

From S2P Require Import Prelude Memory Calls PlanTypes IpcLayout IpcRecord IpcLane.
#[local] Open Scope list_scope.
#[local] Open Scope Z_scope.

Record aa24HostPlan := mkHostPlan { planRef : AA24PlanRef; aa24Revoking : bool }.

Record aa24Lingered := mkLingered { aa24Identity_ : AA24CommandIdentity; aa24Horizon : Z; aa24Strict : bool; aa24Retired : bool }.

Record AA24Host := mkHost {
  hMem : list byte; hLayout : AA24Layout; aa24Expected : AA24Expected; aa24Lanes : list aa24Lane; aa24Clock : aa23ClockGuard; aa24Fence :
  AA24FenceState; aa24StopSent : bool; aa24StopIndex : Z; aa24Terminated : bool; aa24Plans : list aa24HostPlan; aa24PlanFloor : Z;
  aa24TokenFloor : Z; aa24Outstanding : list AA24CommandIdentity; aa24Lingering : list aa24Lingered; aa24Cancelled : list
  AA24CommandIdentity; aa24NextCapture : Z; aa24Explained : list Z; aa24LastControlTime : Z; aa24LastDataCapture : Z; aa24Detached : bool;
  aa24RetainedStrict : bool; aa24RetainedHorizon : Z }.

Definition set_wire (v0 : list byte) (v1 : list aa24Lane) (h : AA24Host) : AA24Host :=
  mkHost v0 (hLayout h) (aa24Expected h) v1 (aa24Clock h) (aa24Fence h) (aa24StopSent h) (aa24StopIndex h) (aa24Terminated h) (aa24Plans h)
    (aa24PlanFloor h) (aa24TokenFloor h) (aa24Outstanding h) (aa24Lingering h) (aa24Cancelled h) (aa24NextCapture h) (aa24Explained h)
    (aa24LastControlTime h) (aa24LastDataCapture h) (aa24Detached h) (aa24RetainedStrict h) (aa24RetainedHorizon h).
Definition set_clock (v0 : aa23ClockGuard) (h : AA24Host) : AA24Host :=
  mkHost (hMem h) (hLayout h) (aa24Expected h) (aa24Lanes h) v0 (aa24Fence h) (aa24StopSent h) (aa24StopIndex h) (aa24Terminated h) (aa24Plans h)
    (aa24PlanFloor h) (aa24TokenFloor h) (aa24Outstanding h) (aa24Lingering h) (aa24Cancelled h) (aa24NextCapture h) (aa24Explained h)
    (aa24LastControlTime h) (aa24LastDataCapture h) (aa24Detached h) (aa24RetainedStrict h) (aa24RetainedHorizon h).
Definition set_fence (v0 : AA24FenceState) (h : AA24Host) : AA24Host :=
  mkHost (hMem h) (hLayout h) (aa24Expected h) (aa24Lanes h) (aa24Clock h) v0 (aa24StopSent h) (aa24StopIndex h) (aa24Terminated h) (aa24Plans h)
    (aa24PlanFloor h) (aa24TokenFloor h) (aa24Outstanding h) (aa24Lingering h) (aa24Cancelled h) (aa24NextCapture h) (aa24Explained h)
    (aa24LastControlTime h) (aa24LastDataCapture h) (aa24Detached h) (aa24RetainedStrict h) (aa24RetainedHorizon h).
Definition set_stop (v0 : bool) (v1 : Z) (h : AA24Host) : AA24Host :=
  mkHost (hMem h) (hLayout h) (aa24Expected h) (aa24Lanes h) (aa24Clock h) (aa24Fence h) v0 v1 (aa24Terminated h) (aa24Plans h) (aa24PlanFloor h)
    (aa24TokenFloor h) (aa24Outstanding h) (aa24Lingering h) (aa24Cancelled h) (aa24NextCapture h) (aa24Explained h) (aa24LastControlTime h)
    (aa24LastDataCapture h) (aa24Detached h) (aa24RetainedStrict h) (aa24RetainedHorizon h).
Definition set_terminated (v0 : bool) (h : AA24Host) : AA24Host :=
  mkHost (hMem h) (hLayout h) (aa24Expected h) (aa24Lanes h) (aa24Clock h) (aa24Fence h) (aa24StopSent h) (aa24StopIndex h) v0 (aa24Plans h)
    (aa24PlanFloor h) (aa24TokenFloor h) (aa24Outstanding h) (aa24Lingering h) (aa24Cancelled h) (aa24NextCapture h) (aa24Explained h)
    (aa24LastControlTime h) (aa24LastDataCapture h) (aa24Detached h) (aa24RetainedStrict h) (aa24RetainedHorizon h).
Definition set_plans (v0 : list aa24HostPlan) (h : AA24Host) : AA24Host :=
  mkHost (hMem h) (hLayout h) (aa24Expected h) (aa24Lanes h) (aa24Clock h) (aa24Fence h) (aa24StopSent h) (aa24StopIndex h) (aa24Terminated h) v0
    (aa24PlanFloor h) (aa24TokenFloor h) (aa24Outstanding h) (aa24Lingering h) (aa24Cancelled h) (aa24NextCapture h) (aa24Explained h)
    (aa24LastControlTime h) (aa24LastDataCapture h) (aa24Detached h) (aa24RetainedStrict h) (aa24RetainedHorizon h).
Definition set_plan_floor (v0 : Z) (h : AA24Host) : AA24Host :=
  mkHost (hMem h) (hLayout h) (aa24Expected h) (aa24Lanes h) (aa24Clock h) (aa24Fence h) (aa24StopSent h) (aa24StopIndex h) (aa24Terminated h)
    (aa24Plans h) v0 (aa24TokenFloor h) (aa24Outstanding h) (aa24Lingering h) (aa24Cancelled h) (aa24NextCapture h) (aa24Explained h)
    (aa24LastControlTime h) (aa24LastDataCapture h) (aa24Detached h) (aa24RetainedStrict h) (aa24RetainedHorizon h).
Definition set_token_floor (v0 : Z) (h : AA24Host) : AA24Host :=
  mkHost (hMem h) (hLayout h) (aa24Expected h) (aa24Lanes h) (aa24Clock h) (aa24Fence h) (aa24StopSent h) (aa24StopIndex h) (aa24Terminated h)
    (aa24Plans h) (aa24PlanFloor h) v0 (aa24Outstanding h) (aa24Lingering h) (aa24Cancelled h) (aa24NextCapture h) (aa24Explained h)
    (aa24LastControlTime h) (aa24LastDataCapture h) (aa24Detached h) (aa24RetainedStrict h) (aa24RetainedHorizon h).
Definition set_outstanding (v0 : list AA24CommandIdentity) (h : AA24Host) : AA24Host :=
  mkHost (hMem h) (hLayout h) (aa24Expected h) (aa24Lanes h) (aa24Clock h) (aa24Fence h) (aa24StopSent h) (aa24StopIndex h) (aa24Terminated h)
    (aa24Plans h) (aa24PlanFloor h) (aa24TokenFloor h) v0 (aa24Lingering h) (aa24Cancelled h) (aa24NextCapture h) (aa24Explained h)
    (aa24LastControlTime h) (aa24LastDataCapture h) (aa24Detached h) (aa24RetainedStrict h) (aa24RetainedHorizon h).
Definition set_lingering (v0 : list aa24Lingered) (h : AA24Host) : AA24Host :=
  mkHost (hMem h) (hLayout h) (aa24Expected h) (aa24Lanes h) (aa24Clock h) (aa24Fence h) (aa24StopSent h) (aa24StopIndex h) (aa24Terminated h)
    (aa24Plans h) (aa24PlanFloor h) (aa24TokenFloor h) (aa24Outstanding h) v0 (aa24Cancelled h) (aa24NextCapture h) (aa24Explained h)
    (aa24LastControlTime h) (aa24LastDataCapture h) (aa24Detached h) (aa24RetainedStrict h) (aa24RetainedHorizon h).
Definition set_cancelled (v0 : list AA24CommandIdentity) (h : AA24Host) : AA24Host :=
  mkHost (hMem h) (hLayout h) (aa24Expected h) (aa24Lanes h) (aa24Clock h) (aa24Fence h) (aa24StopSent h) (aa24StopIndex h) (aa24Terminated h)
    (aa24Plans h) (aa24PlanFloor h) (aa24TokenFloor h) (aa24Outstanding h) (aa24Lingering h) v0 (aa24NextCapture h) (aa24Explained h)
    (aa24LastControlTime h) (aa24LastDataCapture h) (aa24Detached h) (aa24RetainedStrict h) (aa24RetainedHorizon h).
Definition set_account (v0 : Z) (v1 : list Z) (h : AA24Host) : AA24Host :=
  mkHost (hMem h) (hLayout h) (aa24Expected h) (aa24Lanes h) (aa24Clock h) (aa24Fence h) (aa24StopSent h) (aa24StopIndex h) (aa24Terminated h)
    (aa24Plans h) (aa24PlanFloor h) (aa24TokenFloor h) (aa24Outstanding h) (aa24Lingering h) (aa24Cancelled h) v0 v1 (aa24LastControlTime h)
    (aa24LastDataCapture h) (aa24Detached h) (aa24RetainedStrict h) (aa24RetainedHorizon h).
Definition set_control_time (v0 : Z) (h : AA24Host) : AA24Host :=
  mkHost (hMem h) (hLayout h) (aa24Expected h) (aa24Lanes h) (aa24Clock h) (aa24Fence h) (aa24StopSent h) (aa24StopIndex h) (aa24Terminated h)
    (aa24Plans h) (aa24PlanFloor h) (aa24TokenFloor h) (aa24Outstanding h) (aa24Lingering h) (aa24Cancelled h) (aa24NextCapture h) (aa24Explained h)
    v0 (aa24LastDataCapture h) (aa24Detached h) (aa24RetainedStrict h) (aa24RetainedHorizon h).
Definition set_data_capture (v0 : Z) (h : AA24Host) : AA24Host :=
  mkHost (hMem h) (hLayout h) (aa24Expected h) (aa24Lanes h) (aa24Clock h) (aa24Fence h) (aa24StopSent h) (aa24StopIndex h) (aa24Terminated h)
    (aa24Plans h) (aa24PlanFloor h) (aa24TokenFloor h) (aa24Outstanding h) (aa24Lingering h) (aa24Cancelled h) (aa24NextCapture h) (aa24Explained h)
    (aa24LastControlTime h) v0 (aa24Detached h) (aa24RetainedStrict h) (aa24RetainedHorizon h).
Definition set_retained (v0 : bool) (v1 : Z) (h : AA24Host) : AA24Host :=
  mkHost (hMem h) (hLayout h) (aa24Expected h) (aa24Lanes h) (aa24Clock h) (aa24Fence h) (aa24StopSent h) (aa24StopIndex h) (aa24Terminated h)
    (aa24Plans h) (aa24PlanFloor h) (aa24TokenFloor h) (aa24Outstanding h) (aa24Lingering h) (aa24Cancelled h) (aa24NextCapture h) (aa24Explained h)
    (aa24LastControlTime h) (aa24LastDataCapture h) (aa24Detached h) v0 v1.
Definition set_detached (h : AA24Host) : AA24Host :=
  mkHost (hMem h) (hLayout h) (aa24Expected h) (replicate 4 zero_lane) (aa24Clock h) (aa24Fence h) (aa24StopSent h) (aa24StopIndex h) (aa24Terminated h)
    [] (aa24PlanFloor h) (aa24TokenFloor h) [] [] (aa24Cancelled h) (aa24NextCapture h) (aa24Explained h) (aa24LastControlTime h)
    (aa24LastDataCapture h) true (aa24RetainedStrict h) (aa24RetainedHorizon h).

#[local] Notation H := (ST AA24Host).

Definition hLimits (h : AA24Host) : AA24Limits := AA24Limits_ (aa24Expected h).
Definition hBinding (h : AA24Host) : AA24Binding := AA24Binding_ (aa24Expected h).

Definition AA24AttachHost (aligned : bool) (mem : list byte) (e : AA24Expected) : result aa24_error AA24Host :=
  if AA24ClockDomain e =? 0 then Err ErrAA24Clock
  else
    let* layout := AA24ValidateMapping aligned mem e in
    Ok (mkHost mem layout e (aa24AttachLanes layout (AA24Limits_ e) false) (aa24SeedClock (AA24ClockDomain e)) no_fence false 0 false [] (AA24PlanFloor e)
      (AA24TokenFloor e) [] [] [] 1 [] 0 0 false false 0).

(** ** Lanes *)

Definition aa24Lane_ (kind : Z) (h : AA24Host) : aa24Lane := aa24Lanes h !!! lane_index kind.

(** A method of a lane, on the lane of a kind. *)
Definition on_lane {A} (kind : Z) (f : list byte -> aa24Lane -> list byte * aa24Lane * A) : H A :=
  fun h => let '(mem, n, a) := f (hMem h) (aa24Lane_ kind h) in (set_wire mem (<[lane_index kind := n]> (aa24Lanes h)) h, a).

Definition lane_write (kind : Z) (r : AA24Record) (reserve : Z) : H (option aa24_error) := lo ← look hLayout; on_lane kind (aa24Write lo r reserve).
Definition lane_read (kind cap : Z) : H (result aa24_error (option AA24Record)) := lo ← look hLayout; on_lane kind (aa24Read lo cap).
Definition lane_bump (kind : Z) (k : counter) : H unit := on_lane kind (fun mem n => (mem, aa24Bump k n, tt)).
Definition lane_indices (kind : Z) : H (result aa24_error (Z * Z)) := on_lane kind (by_view aa24Indices).
Definition lane_expired (kind budget now : Z) : H (result aa24_error bool) := on_lane kind (by_view (aa24ServiceExpired budget now)).

(** The head of the worker's data lane, and what this side has read of it. *)
Definition data_lane (h : AA24Host) : aa24Lane := aa24Lane_ AA24LaneWorkerData h.
Definition data_head (h : AA24Host) : Z := aa24LoadAcquire (hMem h) (aa24ProducerOffset (aa24Layout (data_lane h))).
Definition data_tail (h : AA24Host) : Z := aa24LocalConsumer (data_lane h).

Definition linger_room (h : AA24Host) : Z := aa24Capacity (aa24Layout (data_lane h)).
Definition explained_room (h : AA24Host) : Z := aa24Capacity (aa24Layout (aa24Lane_ AA24LaneWorkerControl h)).
Definition plan_room (h : AA24Host) : Z := AA24MaxPlans (hLimits h).
Definition outstanding_room (h : AA24Host) : Z := AA24MaxOutstanding (hLimits h).

(** ** Views *)

Definition AA24OutputOpen (h : AA24Host) : bool := negb (aa24Detached h) && bool_decide (AA24Reason (aa24Fence h) = AA24FenceNone).
Definition AA24CancelledCommands (dst : list AA24CommandIdentity) (h : AA24Host) : list AA24CommandIdentity := dst ++ aa24Cancelled h.
Definition AA24QuarantinedPlans (dst : list AA24PlanRef) (h : AA24Host) : list AA24PlanRef := dst ++ (planRef <$> aa24Plans h).

(** ** Lingering identities *)

(** May the worker still complete this identity? *)
Definition aa24Pending (produced consumer progress : Z) (held : aa24Lingered) : bool :=
  negb (aa24Strict held) && negb (aa24Retired held) && ((consumer <? produced) || aa24Live (aa24Identity_ held) progress).

(** What a full list keeps. *)
Definition still_lingering (produced consumer progress : Z) (held : aa24Lingered) : bool :=
  (consumer <? aa24Horizon held) || aa24Pending produced consumer progress held.

Definition evict_lingering (h : AA24Host) : AA24Host :=
  let progress := if aa24LastControlTime h <? aa24LastDataCapture h then aa24LastDataCapture h else aa24LastControlTime h in
  set_lingering (filter (fun held => still_lingering (data_head h) (data_tail h) progress held = true) (aa24Lingering h)) h.

Definition aa24Linger (identity : AA24CommandIdentity) (strict : bool) (at_ : option Z) (retired : bool) : H bool :=
  room ← look linger_room;
  if room =? 0 then mret false
  else
    held ← look (fun h => len (aa24Lingering h));
    only_if (held =? room) (update evict_lingering);;
    held ← look (fun h => len (aa24Lingering h));
    if held =? room then mret false
    else
      horizon ← look (fun h => match at_ with Some horizon => horizon | None => data_head h end);
      update (fun h => set_lingering (aa24Lingering h ++ [mkLingered identity horizon strict retired]) h);; mret true.

Definition aa24LingerMoved (identity : AA24CommandIdentity) (retired : bool) : H bool :=
  strict ← look aa24RetainedStrict; horizon ← look aa24RetainedHorizon;
  if (strict : bool) then aa24Linger identity true (Some horizon) retired else aa24Linger identity false None retired.

(** The loops that keep the outstanding identities which could not be moved. *)
Fixpoint move_loop (leave : AA24CommandIdentity -> bool) (retired : bool) (ids : list AA24CommandIdentity) : H (list AA24CommandIdentity) :=
  match ids with
  | [] => mret []
  | identity :: rest =>
      moved ← (if leave identity then aa24LingerMoved identity retired else mret false);
      kept ← move_loop leave retired rest;
      mret (if (moved : bool) then kept else identity :: kept)
  end.

Definition aa24RetireExpired (now : Z) : H unit :=
  ids ← look aa24Outstanding;
  kept ← move_loop (fun identity => negb (aa24Live identity now)) false ids; update (set_outstanding kept).

(** ** The fence *)

Definition aa24Cancelling (identity : AA24CommandIdentity) (h : AA24Host) : bool := existsb (fun held => command_matches held identity) (aa24Cancelled h).

(** Every identity that lingers without a strict horizon takes this one. *)
Definition tighten (horizon : Z) (held : aa24Lingered) : aa24Lingered :=
  if aa24Strict held then held else mkLingered (aa24Identity_ held) horizon true (aa24Retired held).

Fixpoint cancel_loop (horizon : Z) (ids : list AA24CommandIdentity) : H (list AA24CommandIdentity) :=
  match ids with
  | [] => mret []
  | identity :: rest =>
      listed ← look (aa24Cancelling identity);
      only_if (negb listed) (update (fun h => set_cancelled (aa24Cancelled h ++ [identity]) h));;
      detached ← look aa24Detached;
      gone ← (if (detached : bool) then mret true else aa24Linger identity true (Some horizon) false);
      kept ← cancel_loop horizon rest;
      mret (if (gone : bool) then kept else identity :: kept)
  end.

Definition fence_horizon (h : AA24Host) : Z := if aa24Detached h then 0 else data_head h.

Definition aa24Close (reason : AA24FenceReason) (sequence tick : Z) : H unit :=
  update (fun h =>
    if bool_decide (AA24Reason (aa24Fence h) = AA24FenceNone) || bool_decide (reason = AA24FenceWorkerGap)
    then set_fence (mkFence reason sequence tick) h else h);;
  horizon ← look fence_horizon;
  update (fun h => if aa24Detached h then h else set_lingering (tighten horizon <$> aa24Lingering h) h);;
  linger ← look (fun h => if aa24RetainedStrict h && (aa24RetainedHorizon h <? horizon) then aa24RetainedHorizon h else horizon);
  ids ← look aa24Outstanding;
  kept ← cancel_loop linger ids;
  update (set_outstanding kept);;
  update (fun h =>
    if (0 <? len kept) && negb (aa24Detached h)
    then set_retained true (if negb (aa24RetainedStrict h) || (horizon <? aa24RetainedHorizon h) then horizon else aa24RetainedHorizon h) h
    else h).

Fixpoint saturated_loop (indices : list nat) : H unit :=
  match indices with
  | [] => mret tt
  | index :: rest =>
      saturated ← look (fun h => aa24Saturated (aa24Lanes h !!! index));
      only_if saturated (aa24Close AA24FenceCounter 0 0);; saturated_loop rest
  end.

Definition aa24Tick (now : AA23ClockReading) : H (option aa24_error) :=
  detached ← look aa24Detached;
  if (detached : bool) then mret (Some ErrAA24Detached)
  else
    clock ← look aa24Clock;
    let (clock, err) := aa23Observe now clock in
    update (set_clock clock);;
    if bool_decide (err <> None) || (AA23Tick now =? 0) then aa24Close AA24FenceClock 0 0;; mret (Some ErrAA24Clock)
    else
      saturated_loop (seq 0 4);;
      budget ← look (fun h => AA24ControlServiceTicks (hLimits h));
      expired ← lane_expired AA24LaneHostControl budget (AA23Tick now);
      match expired with
      | Err _ => aa24Close AA24FenceCorruption 0 0
      | Ok true => aa24Close AA24FenceControlDeadline 0 0
      | Ok false => mret tt
      end;;
      mret None.

(** ** Plans *)

Fixpoint aa24FindPlan (ref : AA24PlanRef) (plans : list aa24HostPlan) : option aa24HostPlan :=
  match plans with
  | [] => None
  | plan :: rest => if ref_matches (planRef plan) ref then Some plan else aa24FindPlan ref rest
  end.

Definition aa24RefOnMapping (ref : AA24PlanRef) (h : AA24Host) : bool := (pWorker ref =? bWorker (hBinding h)) && (pStream ref =? bStream (hBinding h)).

Definition aa24WriteControl (r : AA24Record) : H (option aa24_error) :=
  err ← lane_write AA24LaneHostControl r aa24ReservedSlots;
  match err with
  | None => mret None
  | Some ErrAA24Record => mret (Some ErrAA24Record)
  | Some ErrAA24Oversize => mret (Some ErrAA24Oversize)
  | Some ErrAA24Full => aa24Close AA24FenceControlSaturated 0 0;; mret (Some ErrAA24ControlFull)
  | Some err => aa24Close AA24FenceCorruption 0 0;; mret (Some err)
  end.

Definition publish_record (ref : AA24PlanRef) (arenaOffset planBytes : Z) : AA24Record :=
  aa24ApplyRef ref (mkRecord24 AA24RecordPublish 0 0 0 0 0 0 0 0 0 0 0 0 arenaOffset planBytes 0 x00 x00 x00 x00 0 []).

Definition AA24PublishPlan (ref : AA24PlanRef) (arenaOffset planBytes : Z) (now : AA23ClockReading) : H (option aa24_error) :=
  err ← aa24Tick now;
  match err with
  | Some err => mret (Some err)
  | None =>
      open ← look AA24OutputOpen; known ← look (aa24RefOnMapping ref); floor ← look aa24PlanFloor;
      held ← look (fun h => len (aa24Plans h)); room ← look plan_room;
      if negb open then mret (Some ErrAA24OutputFenced)
      else if negb known || (AA24Plan ref <=? floor) then mret (Some ErrAA24Stale)
      else if AA24PlanExpiry ref <=? AA23Tick now then mret (Some ErrAA24Expired)
      else if held =? room then mret (Some ErrAA24Capacity)
      else
        err ← aa24WriteControl (publish_record ref arenaOffset planBytes);
        match err with
        | Some err => mret (Some err)
        | None =>
            update (set_plan_floor (AA24Plan ref));;
            update (fun h => set_plans (aa24Plans h ++ [mkHostPlan ref false]) h);; mret None
        end
  end.

Definition revoke_record (ref : AA24PlanRef) : AA24Record :=
  aa24ApplyRef ref (mkRecord24 AA24RecordRevoke 0 0 0 0 0 0 0 0 0 0 0 0 0 0 0 x00 x00 x00 x00 0 []).

Fixpoint mark_revoking (ref : AA24PlanRef) (plans : list aa24HostPlan) : list aa24HostPlan :=
  match plans with
  | [] => []
  | plan :: rest => if ref_matches (planRef plan) ref then mkHostPlan (planRef plan) true :: rest else plan :: mark_revoking ref rest
  end.

(** What a call does that a clock fence does not stop. *)
Definition despite_clock {A} (now : AA23ClockReading) (refuse : aa24_error -> A) (k : H A) : H A :=
  err ← aa24Tick now;
  match err with
  | Some err => if bool_decide (err = ErrAA24Clock) then k else mret (refuse err)
  | None => k
  end.

Definition AA24RevokePlan (ref : AA24PlanRef) (now : AA23ClockReading) : H (option aa24_error) :=
  despite_clock now Some (
    plans ← look aa24Plans;
    match aa24FindPlan ref plans with
    | None => mret (Some ErrAA24Stale)
    | Some plan =>
        if aa24Revoking plan then mret None
        else
          err ← aa24WriteControl (revoke_record ref);
          match err with
          | Some err => mret (Some err)
          | None => update (fun h => set_plans (mark_revoking ref (aa24Plans h)) h);; mret None
          end
    end).

(** ** Commands *)

Definition command_record (identity : AA24CommandIdentity) (payload : list byte) : AA24Record :=
  aa24ApplyIdentity identity (mkRecord24 AA24RecordCommand 0 0 0 0 0 0 0 0 0 0 0 0 0 0 0 x00 x00 x00 x00 0 payload).

(** The write of a command, and what it records. *)
Definition queue_command (identity : AA24CommandIdentity) (payload : list byte) : H (option aa24_error) :=
  err ← lane_write AA24LaneHostData (command_record identity payload) 0;
  match err with
  | Some err =>
      only_if (negb (bool_decide (err = ErrAA24Full)) && negb (bool_decide (err = ErrAA24Record)) && negb (bool_decide (err = ErrAA24Oversize)))
        (aa24Close AA24FenceCorruption 0 0);;
      mret (Some err)
  | None =>
      update (set_token_floor (AA24OwnerToken identity));;
      update (fun h => set_outstanding (aa24Outstanding h ++ [identity]) h);; mret None
  end.

Definition AA24SendCommand (identity : AA24CommandIdentity) (payload : list byte) (now : AA23ClockReading) : H (option aa24_error) :=
  err ← aa24Tick now;
  match err with
  | Some err => mret (Some err)
  | None =>
      open ← look AA24OutputOpen; plan ← look (fun h => aa24FindPlan (AA24Ref identity) (aa24Plans h)); floor ← look aa24TokenFloor;
      if negb open then mret (Some ErrAA24OutputFenced)
      else
        match plan with
        | None => mret (Some ErrAA24Stale)
        | Some plan =>
            if AA24OwnerToken identity <=? floor then mret (Some ErrAA24Stale)
            else if aa24Revoking plan then mret (Some ErrAA24Revoked)
            else if negb (aa24Live identity (AA23Tick now)) then mret (Some ErrAA24Expired)
            else
              aa24RetireExpired (AA23Tick now);;
              held ← look (fun h => len (aa24Outstanding h)); room ← look outstanding_room;
              if held =? room then mret (Some ErrAA24Capacity) else queue_command identity payload
        end
  end.

(** ** Ordinals *)

(** The next expected ordinal moves past those explained early. *)
Fixpoint advance (fuel : nat) (next : Z) (explained : list Z) : Z * list Z :=
  match fuel with
  | O => (next, explained)
  | S fuel =>
      if existsb (fun held => (held =? next) && negb (held =? MaxUint64)) explained
      then advance fuel (wrap 64 (next + 1)) (remove_first (fun held => (held =? next) && negb (held =? MaxUint64)) explained)
      else (next, explained)
  end.

Definition account (room : Z) (sequence : Z) (control : bool) (next : Z) (explained : list Z) : (Z * list Z) * bool :=
  if sequence <? next then ((next, explained), false)
  else if next <? sequence then
    if negb control || (len explained =? room) then ((next, explained), false)
    else if existsb (fun held => held =? sequence) explained then ((next, explained), false)
    else ((next, explained ++ [sequence]), true)
  else if sequence =? MaxUint64 then ((next, explained), true)
  else (advance (length explained) (sequence + 1) explained, true).

Definition aa24AccountSequence (sequence : Z) (control : bool) : H bool :=
  room ← look explained_room; next ← look aa24NextCapture; explained ← look aa24Explained;
  let '((next, explained), ok) := account room sequence control next explained in
  update (set_account next explained);; mret ok.

(** ** Polling *)

Definition aa24IdentityMatches (r : AA24Record) (h : AA24Host) : bool := (rWorker r =? bWorker (hBinding h)) && (rStream r =? bStream (hBinding h)).

Definition aa24ReadFailed (err : aa24_error) : H aa24_error :=
  only_if (negb (bool_decide (err = ErrAA24Buffer))) (aa24Close AA24FenceCorruption 0 0);; mret err.

(** The field that remembers the last capture time is an argument. *)
Definition aa24CaptureRegressed (r : AA24Record) (last : AA24Host -> Z) (remember : Z -> AA24Host -> AA24Host) (now : Z) : H bool :=
  before ← look last;
  if (now <? AA24CaptureTime r) || (AA24CaptureTime r <? before) then mret true else update (remember (AA24CaptureTime r));; mret false.

#[local] Notation delivery := (option AA24Delivery * option aa24_error)%type.

(** The end of a retirement: the plan is gone and its commands linger. *)
Definition retire_plan (ref : AA24PlanRef) : H unit :=
  update (fun h => set_plans (remove_first (fun plan => ref_matches (planRef plan) ref) (aa24Plans h)) h);;
  ids ← look aa24Outstanding;
  kept ← move_loop (fun identity => ref_matches (AA24Ref identity) ref) true ids; update (set_outstanding kept).

(** A retirement counts for a plan that was revoked. *)
Definition handle_acknowledge (ref : AA24PlanRef) (delivered : AA24Delivery) : H delivery :=
  plan ← look (fun h => aa24FindPlan ref (aa24Plans h));
  match plan with
  | Some (mkHostPlan _ true) => retire_plan ref;; mret (Some delivered, None)
  | _ => lane_bump AA24LaneWorkerControl CDropped;; mret (None, Some ErrAA24Stale)
  end.

Definition aa24HandleControl (r : AA24Record) (now : Z) (clockFenced : bool) : H delivery :=
  matches ← look (aa24IdentityMatches r);
  if negb matches then lane_bump AA24LaneWorkerControl CDropped;; mret (None, Some ErrAA24Stale)
  else
    regressed ← (if clockFenced then mret false else aa24CaptureRegressed r aa24LastControlTime set_control_time now);
    let delivered := mkDelivery r now in
    if AA24Kind r =? AA24RecordGap then
      aa24AccountSequence (AA24CaptureSequence r) true;;
      aa24Close AA24FenceWorkerGap (AA24CaptureSequence r) (AA24CaptureTime r);; mret (Some delivered, None)
    else if (regressed : bool) then aa24Close AA24FenceClock (AA24CaptureSequence r) (AA24CaptureTime r);; mret (None, Some ErrAA24Clock)
    else
      open ← look AA24OutputOpen;
      fine ← (if (open : bool) then aa24AccountSequence (AA24CaptureSequence r) true else mret true);
      only_if (negb fine) (aa24Close AA24FenceDiscontinuity (AA24CaptureSequence r) (AA24CaptureTime r));;
      handle_acknowledge (aa24Ref r) delivered.

(** A completion is evidence for an outstanding identity, or for one that
    lingers. *)
Definition complete_outstanding (identity : AA24CommandIdentity) (h : AA24Host) : bool :=
  (negb (aa24RetainedStrict h) || (data_tail h <=? aa24RetainedHorizon h)) && existsb (fun held => command_matches held identity) (aa24Outstanding h).
Definition lingers (identity : AA24CommandIdentity) (tail : Z) (held : aa24Lingered) : bool :=
  command_matches (aa24Identity_ held) identity && (negb (aa24Strict held) || (tail <=? aa24Horizon held)).

Definition handle_completion (r : AA24Record) (delivered : AA24Delivery) : H delivery :=
  let identity := aa24Identity r in
  outstanding ← look (complete_outstanding identity);
  tail ← look data_tail;
  lingering ← look (fun h => existsb (lingers identity tail) (aa24Lingering h));
  if (outstanding : bool) then
    update (fun h => set_outstanding (remove_first (fun held => command_matches held identity) (aa24Outstanding h)) h);; mret (Some delivered, None)
  else if (lingering : bool) then
    update (fun h => set_lingering (remove_first (lingers identity tail) (aa24Lingering h)) h);; mret (Some delivered, None)
  else lane_bump AA24LaneWorkerData CDropped;; mret (None, Some ErrAA24Stale).

Definition aa24HandleData (r : AA24Record) (now : Z) : H delivery :=
  matches ← look (aa24IdentityMatches r);
  if negb matches then lane_bump AA24LaneWorkerData CDropped;; mret (None, Some ErrAA24Stale)
  else
    regressed ← aa24CaptureRegressed r aa24LastDataCapture set_data_capture now;
    if (regressed : bool) then aa24Close AA24FenceClock (AA24CaptureSequence r) (AA24CaptureTime r);; mret (None, Some ErrAA24Clock)
    else
      let delivered := mkDelivery r now in
      open ← look AA24OutputOpen;
      fine ← (if (open : bool) then aa24AccountSequence (AA24CaptureSequence r) false else mret true);
      if negb fine then
        aa24Close AA24FenceDiscontinuity (AA24CaptureSequence r) (AA24CaptureTime r);; mret (Some delivered, Some ErrAA24Gap)
      else if AA24Kind r =? AA24RecordCompletion then handle_completion r delivered
      else mret (Some delivered, None).

Definition aa24PollFencedControl (dst : Z) : H delivery :=
  record ← lane_read AA24LaneWorkerControl dst;
  match record with
  | Err err => err ← aa24ReadFailed err; mret (None, Some err)
  | Ok None => mret (None, Some ErrAA24Clock)
  | Ok (Some r) =>
      a ← aa24HandleControl r 0 true;
      mret (a.1, match a.2 with None => Some ErrAA24Clock | Some err => Some err end)
  end.

(** The data, once control had its turn; [head] was sampled before it. *)
Definition poll_data (dst now head : Z) : H delivery :=
  tail ← look data_tail;
  if head <=? tail then
    indices ← lane_indices AA24LaneWorkerData;
    match indices with
    | Err err => err ← aa24ReadFailed err; mret (None, Some err)
    | Ok _ => mret (None, None)
    end
  else
    record ← lane_read AA24LaneWorkerData dst;
    match record with
    | Err err => err ← aa24ReadFailed err; mret (None, Some err)
    | Ok None => mret (None, None)
    | Ok (Some r) => aa24HandleData r now
    end.

Definition AA24Poll (dst : Z) (now : AA23ClockReading) : H delivery :=
  err ← aa24Tick now;
  match err with
  | Some ErrAA24Clock => aa24PollFencedControl dst
  | Some err => mret (None, Some err)
  | None =>
      head ← look data_head;
      drain ← look (fun h => (len (aa24Explained h) =? explained_room h) && (data_tail h <? head));
      if (drain : bool) then poll_data dst (AA23Tick now) head
      else
        record ← lane_read AA24LaneWorkerControl dst;
        match record with
        | Err err => err ← aa24ReadFailed err; mret (None, Some err)
        | Ok (Some r) => aa24HandleControl r (AA23Tick now) false
        | Ok None => poll_data dst (AA23Tick now) head
        end
  end.

(** ** Stopping *)

Definition stop_record (h : AA24Host) : AA24Record :=
  mkRecord24 AA24RecordStop (bWorker (hBinding h)) (bStream (hBinding h)) 0 0 0 0 0 0 0 0 0 0 0 0 0 x00 x00 x00 x00 0 [].

Definition aa24SendStop : H (option aa24_error) :=
  sent ← look aa24StopSent;
  if (sent : bool) then mret None
  else
    index ← look (fun h => aa24LocalProducer (aa24Lane_ AA24LaneHostControl h));
    r ← look stop_record;
    err ← lane_write AA24LaneHostControl r 0;
    match err with
    | Some err => mret (Some err)
    | None => update (set_stop true index);; mret None
    end.

Definition AA24AcknowledgeGap (sequence : Z) (now : AA23ClockReading) : H (option aa24_error) :=
  despite_clock now Some (
    fence ← look aa24Fence;
    if bool_decide (AA24Reason fence = AA24FenceNone) then mret (Some ErrAA24NotFenced)
    else if negb (sequence =? AA24Sequence fence) then mret (Some ErrAA24Stale)
    else aa24SendStop).

Definition AA24RequestStop (now : AA23ClockReading) : H (option aa24_error) :=
  despite_clock now Some (aa24Close AA24FenceStop 0 0;; aa24SendStop).

Definition aa24StopConsumed : H bool :=
  sent ← look aa24StopSent;
  if negb sent then mret false
  else
    indices ← lane_indices AA24LaneHostControl; index ← look aa24StopIndex;
    match indices with
    | Ok (_, consumer) => mret (index <? consumer)
    | Err _ => mret false
    end.

Definition aa24ControlSettled : H bool :=
  stopped ← aa24StopConsumed;
  if negb stopped then mret false
  else
    worker ← lane_indices AA24LaneWorkerControl;
    match worker with
    | Ok (producer, consumer) =>
        if negb (producer =? consumer) then mret false
        else
          host ← lane_indices AA24LaneHostControl;
          match host with
          | Ok (produced, read) =>
              if negb (produced =? read) then mret false
              else plans ← look aa24Plans; mret (negb (existsb aa24Revoking plans))
          | Err _ => mret false
          end
    | Err _ => mret false
    end.

Definition aa24Successor (worker stream : Z) (h : AA24Host) : AA24Expected := successor (aa24Expected h) worker stream (aa24PlanFloor h) (aa24TokenFloor h).

Definition AA24ResyncExpected (next : Z) : H (result aa24_error AA24Expected) :=
  detached ← look aa24Detached; fence ← look aa24Fence;
  if (detached : bool) then mret (Err ErrAA24Detached)
  else if bool_decide (AA24Reason fence = AA24FenceNone) then mret (Err ErrAA24NotFenced)
  else
    settled ← aa24ControlSettled;
    if negb settled then mret (Err ErrAA24NotAcknowledged)
    else look (fun h => if next <=? bStream (hBinding h) then Err ErrAA24Stale else Ok (aa24Successor (bWorker (hBinding h)) next h)).

Definition AA24ObserveWorkerTerminated : H unit := update (set_terminated true);; aa24Close AA24FenceWorkerTerminated 0 0.

Definition AA24RestartExpected (nextWorker nextStream : Z) (h : AA24Host) : result aa24_error AA24Expected :=
  if aa24Detached h then Err ErrAA24Detached
  else if negb (aa24Terminated h) then Err ErrAA24NotAcknowledged
  else if (nextWorker <=? bWorker (hBinding h)) || (nextStream =? 0) then Err ErrAA24Stale
  else Ok (aa24Successor nextWorker nextStream h).

Definition AA24Teardown : H (option aa24_error) :=
  detached ← look aa24Detached; terminated ← look aa24Terminated;
  if (detached : bool) then mret None
  else
    settled ← (if (terminated : bool) then mret true else aa24ControlSettled);
    if negb settled then mret (Some ErrAA24NotAcknowledged) else update set_detached;; mret None.
