(* ===== verification/IpcHostWalk.v ===== *)
(** How the host's calls move along a preorder (src/localworker/aa24_ipc.go). *)

From S2P Require Import Prelude Memory Calls PlanTypes IpcLayout IpcRecord IpcLane IpcQueue IpcHost.
#[local] Open Scope list_scope.
#[local] Open Scope Z_scope.

(** The exported calls that change the object. *)
Inductive host_call :=
| HPublish (ref : AA24PlanRef) (arenaOffset planBytes : Z) (now : AA23ClockReading)
| HRevoke (ref : AA24PlanRef) (now : AA23ClockReading)
| HSend (identity : AA24CommandIdentity) (payload : list byte) (now : AA23ClockReading)
| HPoll (dst : Z) (now : AA23ClockReading)
| HAcknowledgeGap (sequence : Z) (now : AA23ClockReading)
| HRequestStop (now : AA23ClockReading)
| HResyncExpected (next : Z)
| HWorkerTerminated
| HTeardown.

Inductive host_answer :=
| BError (e : option aa24_error)
| BPoll (a : option AA24Delivery * option aa24_error)
| BResync (a : result aa24_error AA24Expected).

Definition host_do (c : host_call) : ST AA24Host host_answer :=
  match c with
  | HPublish ref off n now => a ← AA24PublishPlan ref off n now; mret (BError a)
  | HRevoke ref now => a ← AA24RevokePlan ref now; mret (BError a)
  | HSend identity payload now => a ← AA24SendCommand identity payload now; mret (BError a)
  | HPoll dst now => a ← AA24Poll dst now; mret (BPoll a)
  | HAcknowledgeGap sequence now => a ← AA24AcknowledgeGap sequence now; mret (BError a)
  | HRequestStop now => a ← AA24RequestStop now; mret (BError a)
  | HResyncExpected next => a ← AA24ResyncExpected next; mret (BResync a)
  | HWorkerTerminated => AA24ObserveWorkerTerminated;; mret (BError None)
  | HTeardown => a ← AA24Teardown; mret (BError a)
  end.

(** Calls in a row; before each one the peer has left some memory. *)
Fixpoint host_run (calls : list (list byte * host_call)) (h : AA24Host) : AA24Host * list (host_call * host_answer) :=
  match calls with
  | [] => (h, [])
  | (mem, c) :: rest =>
      let (h, a) := host_do c (set_wire mem (aa24Lanes h) h) in
      let (h, answers) := host_run rest h in (h, (c, a) :: answers)
  end.

(** What a relation must allow, for all calls but the two that queue work. *)
Record host_steps (R : AA24Host -> AA24Host -> Prop) : Prop := {
  hs_peer mem h : R h (set_wire mem (aa24Lanes h) h);
  hs_lane mem kind n h : known_lane kind -> same_shape (aa24Lane_ kind h) n -> R h (set_wire mem (<[lane_index kind := n]> (aa24Lanes h)) h);
  hs_clock now h : R h (set_clock (aa23Observe now (aa24Clock h)).1 h);
  hs_close reason s t : reason <> AA24FenceNone -> moves R (aa24Close reason s t);
  hs_account s control : moves R (aa24AccountSequence s control);
  hs_control_time t h : R h (set_control_time t h);
  hs_data_capture t h : R h (set_data_capture t h);
  hs_stop i h : R h (set_stop true i h);
  hs_terminated h : R h (set_terminated true h);
  hs_revoking ref h : R h (set_plans (mark_revoking ref (aa24Plans h)) h) }.

(** Retirements and completions. *)
Definition retire_step (R : AA24Host -> AA24Host -> Prop) : Prop :=
  forall ref p h, aa24FindPlan ref (aa24Plans h) = Some (mkHostPlan p true) -> R h (retire_plan ref h).1.

Record complete_steps (R : AA24Host -> AA24Host -> Prop) : Prop := {
  hs_completed i h : R h (set_outstanding (remove_first (fun held => command_matches held i) (aa24Outstanding h)) h);
  hs_lingered i tail h : R h (set_lingering (remove_first (lingers i tail) (aa24Lingering h)) h) }.

Section walk.
Context (R : AA24Host -> AA24Host -> Prop) `{!PreOrder R} (HS : host_steps R).

Lemma host_walk_lane {A} kind (f : list byte -> aa24Lane -> list byte * aa24Lane * A) :
  known_lane kind -> (forall mem n, same_shape n (f mem n).1.2) -> moves R (on_lane kind f).
Proof. intros Hk Hf h. unfold on_lane. specialize (Hf (hMem h) (aa24Lane_ kind h)). destruct (f _ _) as [[mem n] a]. by apply (hs_lane R HS). Qed.

Lemma host_walk_write kind r reserve : known_lane kind -> moves R (lane_write kind r reserve).
Proof. intros Hk. apply moves_look_bind. intros h. apply host_walk_lane; [done|]. intros mem n. apply write_shape. Qed.

Lemma host_walk_read kind cap : known_lane kind -> moves R (lane_read kind cap).
Proof. intros Hk. apply moves_look_bind. intros h. apply host_walk_lane; [done|]. intros mem n. apply read_shape. Qed.

Lemma host_walk_bump kind k : known_lane kind -> moves R (lane_bump kind k).
Proof. intros Hk. apply host_walk_lane; [done|]. intros mem n. apply bump_shape. Qed.

Lemma host_walk_indices kind : known_lane kind -> moves R (lane_indices kind).
Proof. intros Hk. apply host_walk_lane; [done|]. intros mem n. unfold by_view. pose proof (indices_shape mem n) as Hs. by destruct (aa24Indices mem n). Qed.

Lemma host_walk_expired kind budget now : known_lane kind -> moves R (lane_expired kind budget now).
Proof. intros Hk. apply host_walk_lane; [done|]. intros mem n. unfold by_view. pose proof (expired_shape budget now mem n) as Hs. by destruct (aa24ServiceExpired _ _ mem n). Qed.

#[local] Hint Extern 1 (known_lane _) => (split; discriminate) : moves.
#[local] Hint Resolve host_walk_write host_walk_read host_walk_bump host_walk_indices host_walk_expired : moves.
#[local] Hint Extern 1 (moves _ (aa24Close _ _ _)) => (apply (hs_close R HS); discriminate) : moves.

Lemma host_walk_saturated l : moves R (saturated_loop l).
Proof. induction l as [|i l IH]; cbn [saturated_loop]; moves_tac. Qed.

#[local] Hint Resolve host_walk_saturated : moves.

Lemma host_walk_tick now : moves R (aa24Tick now).
Proof.
  apply moves_look_bind. intros h. destruct (aa24Detached h); [reflexivity|]. unfold mbind at 1, st_bind at 1, look at 1. cbv beta iota.
  pose proof (hs_clock R HS now h) as Hc. destruct (aa23Observe now (aa24Clock h)) as [clock err]. cbn [fst] in Hc. unfold mbind at 1, st_bind at 1, update at 1. etrans; [exact Hc|].
  generalize (set_clock clock h). intros h1. destruct (_ || _).
  - assert (moves R (aa24Close AA24FenceClock 0 0;; mret (Some ErrAA24Clock))) as Hm; [moves_tac|apply Hm].
  - match goal with |- R h1 (?m h1).1 => assert (moves R m) as Hm; [moves_tac|apply Hm] end.
Qed.

#[local] Hint Resolve host_walk_tick : moves.

Lemma host_walk_write_control r : moves R (aa24WriteControl r).
Proof. unfold aa24WriteControl. moves_tac. Qed.

#[local] Hint Resolve host_walk_write_control : moves.

Lemma host_walk_despite {A} now (refuse : aa24_error -> A) k : moves R k -> moves R (despite_clock now refuse k).
Proof. intros Hk. unfold despite_clock. apply moves_bind; [exact _|moves_tac|]. intros [e|]; [case_bool_decide|]; [done|moves_tac|done]. Qed.

Lemma host_walk_revoke ref now : moves R (AA24RevokePlan ref now).
Proof.
  apply host_walk_despite. moves_tac. apply moves_update. intros h. apply (hs_revoking R HS).
Qed.

Lemma host_walk_account s control : moves R (aa24AccountSequence s control).
Proof. apply (hs_account R HS). Qed.

Lemma host_walk_failed e : moves R (aa24ReadFailed e).
Proof. unfold aa24ReadFailed. moves_tac. Qed.

#[local] Hint Resolve host_walk_account host_walk_failed : moves.

Lemma host_walk_regressed_control r now : moves R (aa24CaptureRegressed r aa24LastControlTime set_control_time now).
Proof. unfold aa24CaptureRegressed. moves_tac. apply moves_update. intros h. apply (hs_control_time R HS). Qed.

Lemma host_walk_regressed_data r now : moves R (aa24CaptureRegressed r aa24LastDataCapture set_data_capture now).
Proof. unfold aa24CaptureRegressed. moves_tac. apply moves_update. intros h. apply (hs_data_capture R HS). Qed.

#[local] Hint Resolve host_walk_regressed_control host_walk_regressed_data : moves.

Context (HT : retire_step R).

Lemma host_walk_handle_acknowledge ref d : moves R (handle_acknowledge ref d).
Proof.
  assert (moves R (lane_bump AA24LaneWorkerControl CDropped;; mret (None, Some ErrAA24Stale) : ST AA24Host (option AA24Delivery * option aa24_error))) as Hm by moves_tac.
  apply moves_look_bind. intros h. destruct (aa24FindPlan ref (aa24Plans h)) as [[p [|]]|] eqn:Ef; [|apply Hm|apply Hm].
  unfold mbind at 1, st_bind at 1. pose proof (HT ref p h Ef) as Hr. by destruct (retire_plan _ h) as [h1 []].
Qed.

#[local] Hint Resolve host_walk_handle_acknowledge : moves.

Lemma host_walk_control r now fenced : moves R (aa24HandleControl r now fenced).
Proof. unfold aa24HandleControl. moves_tac. Qed.

Context (HC : complete_steps R).

Lemma host_walk_completion r d : moves R (handle_completion r d).
Proof.
  unfold handle_completion. moves_tac; apply moves_update; intros h; [apply (hs_completed R HC)|apply (hs_lingered R HC)].
Qed.

#[local] Hint Resolve host_walk_control host_walk_completion : moves.

Lemma host_walk_data r now : moves R (aa24HandleData r now).
Proof. unfold aa24HandleData. moves_tac. Qed.

#[local] Hint Resolve host_walk_data : moves.

Lemma host_walk_poll_data dst now head : moves R (poll_data dst now head).
Proof. unfold poll_data. moves_tac. Qed.

Lemma host_walk_poll_fenced dst : moves R (aa24PollFencedControl dst).
Proof. unfold aa24PollFencedControl. moves_tac. Qed.

#[local] Hint Resolve host_walk_poll_data host_walk_poll_fenced : moves.

Lemma host_walk_poll dst now : moves R (AA24Poll dst now).
Proof. unfold AA24Poll. moves_tac. Qed.

Lemma host_walk_send_stop : moves R aa24SendStop.
Proof. unfold aa24SendStop. moves_tac. apply moves_update. intros h. apply (hs_stop R HS). Qed.

#[local] Hint Resolve host_walk_send_stop : moves.

Lemma host_walk_acknowledge_gap s now : moves R (AA24AcknowledgeGap s now).
Proof. apply host_walk_despite. moves_tac. Qed.

Lemma host_walk_request_stop now : moves R (AA24RequestStop now).
Proof. apply host_walk_despite. moves_tac. Qed.

Lemma host_walk_settled : moves R aa24ControlSettled.
Proof. unfold aa24ControlSettled, aa24StopConsumed. moves_tac. Qed.

#[local] Hint Resolve host_walk_settled : moves.

Lemma host_walk_resync next : moves R (AA24ResyncExpected next).
Proof. unfold AA24ResyncExpected. moves_tac. Qed.

Lemma host_walk_terminated : moves R AA24ObserveWorkerTerminated.
Proof. unfold AA24ObserveWorkerTerminated. moves_tac. apply moves_update. intros h. apply (hs_terminated R HS). Qed.

Lemma host_walk_teardown (Hdetach : forall h, R h (set_detached h)) : moves R AA24Teardown.
Proof. unfold AA24Teardown. moves_tac. Qed.

(** The two calls that queue work. *)
Lemma host_walk_publish (Hpublish : forall ref h, aa24PlanFloor h < AA24Plan ref -> R h (set_plans (aa24Plans h ++ [mkHostPlan ref false]) (set_plan_floor (AA24Plan ref) h)))
    ref off n now : moves R (AA24PublishPlan ref off n now).
Proof.
  unfold AA24PublishPlan. apply moves_bind; [exact _|moves_tac|]. intros [e|]; [moves_tac|]. unfold mbind at 1 2 3 4 5, st_bind at 1 2 3 4 5, look. intros h. cbv beta iota.
  destruct (negb _); [reflexivity|]. destruct (negb _ || _) eqn:Ef; [reflexivity|]. apply orb_false_iff in Ef as [_ Ef%Z.leb_gt]. destruct (_ <=? _); [reflexivity|].
  destruct (_ =? _); [reflexivity|]. unfold mbind at 1, st_bind at 1. pose proof (host_walk_write_control (publish_record ref off n) h) as Hw.
  assert (forall h1, aa24PlanFloor h1 = aa24PlanFloor h -> R h1 (set_plans (aa24Plans h1 ++ [mkHostPlan ref false]) (set_plan_floor (AA24Plan ref) h1))) as Hp by (intros h1 E; apply Hpublish; lia).
  destruct (aa24WriteControl _ h) as [h1 [e|]] eqn:Ew; cbn [fst] in Hw; [exact Hw|]. etrans; [exact Hw|]. unfold mbind, st_bind, update, mret, st_ret. cbn [fst]. apply (Hp h1).
  unfold aa24WriteControl, lane_write, mbind, st_bind, look, mret, st_ret, on_lane in Ew. destruct (aa24Write _ _ _ _ _) as [[m n'] [e|]].
  - exfalso. destruct e; repeat match type of Ew with context[let (_, _) := ?m ?s in _] => destruct (m s) end; discriminate Ew.
  - by injection Ew as <-.
Qed.
End walk.
