(* ===== verification/IpcHostLaws.v ===== *)
(** What the host's side guarantees whatever the worker writes
    (src/localworker/aa24_ipc.go): every completion it delivers answers one
    command it sent, and a published plan stays listed until its exact
    retirement. *)

From Stdlib Require Import Sorting.Sorted.
From S2P Require Import Prelude Memory Calls PlanTypes IpcLayout IpcLayoutLaws IpcFresh IpcRecord IpcLane IpcQueue IpcLanes IpcHost IpcHostWalk.
#[local] Open Scope list_scope.
#[local] Open Scope Z_scope.

(** ** Exact keys *)

Lemma key_matches_exact a b : key_matches a b = true <-> a = b.
Proof.
  unfold key_matches. destruct a as [s1 a1 e1], b as [s2 a2 e2]. cbn.
  destruct (Z.eqb_spec s1 s2), (byte_eqb_spec a1 a2), (Z.eqb_spec e1 e2); cbn; split; try done; congruence.
Qed.

Lemma ref_matches_exact a b : ref_matches a b = true <-> a = b.
Proof.
  unfold ref_matches. destruct a as [k1 w1 s1 p1 x1], b as [k2 w2 s2 p2 x2]. cbn.
  pose proof (key_matches_exact k1 k2) as Hk. destruct (key_matches k1 k2); cbn; [|split; [done|]; intros [= -> _]; by apply Hk].
  destruct (Z.eqb_spec w1 w2), (Z.eqb_spec s1 s2), (Z.eqb_spec p1 p2), (Z.eqb_spec x1 x2); cbn; split; try done; try congruence. intros _. f_equal; [by apply Hk|done..].
Qed.

Lemma command_matches_exact a b : command_matches a b = true <-> a = b.
Proof.
  unfold command_matches. destruct a as [r1 t1 o1 x1 d1], b as [r2 t2 o2 x2 d2]. cbn.
  pose proof (ref_matches_exact r1 r2) as Hk. destruct (ref_matches r1 r2); cbn; [|split; [done|]; intros [= -> _]; by apply Hk].
  destruct (Z.eqb_spec t1 t2), (Z.eqb_spec o1 o2), (Z.eqb_spec x1 x2), (Z.eqb_spec d1 d2); cbn; split; try done; try congruence. intros _. f_equal; [by apply Hk|done..].
Qed.

Lemma remove_first_perm {A} (p : A -> bool) l : existsb p l = true -> exists a, p a = true /\ l ≡ₚ a :: remove_first p l.
Proof.
  induction l as [|a l IH]; cbn; [done|]. destruct (p a) eqn:E; [intros _; by exists a|]. intros H. destruct (IH H) as (b & Hb & Hp). exists b. split; [done|]. rewrite Hp at 1. solve_Permutation.
Qed.

Lemma remove_first_sublist {A} (p : A -> bool) l : remove_first p l `sublist_of` l.
Proof. induction l as [|a l IH]; cbn; [done|]. destruct (p a); [by apply sublist_cons|by apply sublist_skip]. Qed.

(** ** Identities that may still be completed *)

Definition lingering_ids (h : AA24Host) : list AA24CommandIdentity := aa24Identity_ <$> aa24Lingering h.
Definition pending (h : AA24Host) : list AA24CommandIdentity := aa24Outstanding h ++ lingering_ids h.

(** They only become fewer, and no token is forgotten. *)
Definition shrinks (h h' : AA24Host) : Prop := pending h' ⊆+ pending h /\ aa24TokenFloor h' = aa24TokenFloor h.

#[export] Instance shrinks_preorder : PreOrder shrinks.
Proof. split; [done|]. intros a b c [H1 E1] [H2 E2]. split; [by etrans|congruence]. Qed.

Lemma shrinks_unmoved h h' : aa24Outstanding h' = aa24Outstanding h -> aa24Lingering h' = aa24Lingering h -> aa24TokenFloor h' = aa24TokenFloor h -> shrinks h h'.
Proof. intros E1 E2 E3. unfold shrinks, pending, lingering_ids. by rewrite E1, E2, E3. Qed.

(** A step of one of the loops, which hold the outstanding identities apart. *)
Definition loop_step (h h' : AA24Host) : Prop := aa24Outstanding h' = aa24Outstanding h /\ aa24TokenFloor h' = aa24TokenFloor h.

Lemma filter_ids (P : aa24Lingered -> Prop) `{!forall x, Decision (P x)} l : aa24Identity_ <$> filter P l ⊆+ aa24Identity_ <$> l.
Proof. apply fmap_submseteq, sublist_submseteq, sublist_filter. Qed.

Lemma linger_spec identity strict at_ retired h :
  let (h', moved) := aa24Linger identity strict at_ retired h in
  loop_step h h' /\ (if moved then [] else [identity]) ++ lingering_ids h' ⊆+ identity :: lingering_ids h.
Proof.
  unfold aa24Linger, only_if, update, mbind, st_bind, look, mret, st_ret. destruct (_ =? 0); [done|].
  assert (forall h1, loop_step h h1 -> lingering_ids h1 ⊆+ lingering_ids h ->
    let (h', moved) := (if len (aa24Lingering h1) =? linger_room h then (h1, false) else
      (set_lingering (aa24Lingering h1 ++ [mkLingered identity (match at_ with Some horizon => horizon | None => data_head h1 end) strict retired]) h1, true)) in
    loop_step h h' /\ (if moved then [] else [identity]) ++ lingering_ids h' ⊆+ identity :: lingering_ids h) as Hrest.
  { intros h1 Hl Hs. destruct (_ =? _); [split; [done|]; by apply submseteq_skip|]. split; [exact Hl|]. cbn [app]. unfold lingering_ids at 1. cbn [set_lingering aa24Lingering].
    rewrite fmap_app. cbn. rewrite (Permutation_app_comm _ [identity]). by apply submseteq_skip. }
  destruct (_ =? linger_room h).
  - cbn beta iota. specialize (Hrest (evict_lingering h) ltac:(done)). cbn beta iota in Hrest. 
    destruct (len (aa24Lingering (evict_lingering h)) =? linger_room h); apply Hrest; apply filter_ids.
  - cbn beta iota. specialize (Hrest h ltac:(done) ltac:(done)). destruct (len (aa24Lingering h) =? linger_room h); exact Hrest.
Qed.

Lemma loop_step_trans a b c : loop_step a b -> loop_step b c -> loop_step a c.
Proof. intros [A1 A2] [B1 B2]. split; congruence. Qed.

(** One identity of a loop, then the rest. *)
Lemma loop_cons (identity : AA24CommandIdentity) (moved : bool) kept rest l0 l1 l2 :
  (if moved then [] else [identity]) ++ l1 ⊆+ identity :: l0 -> kept ++ l2 ⊆+ rest ++ l1 ->
  (if moved then kept else identity :: kept) ++ l2 ⊆+ (identity :: rest) ++ l0.
Proof.
  intros H1 H2. etrans; [|etrans; [apply (submseteq_app (if moved then [] else [identity]) (if moved then [] else [identity]) _ _ (reflexivity _) H2)|]].
  - by destruct moved.
  - transitivity (rest ++ (if moved then [] else [identity]) ++ l1); [apply Permutation_submseteq; solve_Permutation|].
    transitivity (rest ++ identity :: l0); [by apply submseteq_app|apply Permutation_submseteq; solve_Permutation].
Qed.

Lemma move_loop_spec leave retired ids h :
  let (h', kept) := move_loop leave retired ids h in loop_step h h' /\ kept ++ lingering_ids h' ⊆+ ids ++ lingering_ids h.
Proof.
  revert h. induction ids as [|identity rest IH]; intros h; [done|]. cbn [move_loop]. unfold mbind, st_bind, mret, st_ret.
  assert (let (h', moved) := (if leave identity then aa24LingerMoved identity retired else (fun h => (h, false))) h in
    loop_step h h' /\ (if moved then [] else [identity]) ++ lingering_ids h' ⊆+ identity :: lingering_ids h) as H1.
  { destruct (leave identity); [|done]. unfold aa24LingerMoved, mbind, st_bind, look. destruct (aa24RetainedStrict h); apply linger_spec. }
  revert H1. match goal with |- (let (_, _) := ?x in _) -> _ => destruct x as [h1 moved] end. intros [S1 H1]. specialize (IH h1). destruct (move_loop leave retired rest h1) as [h2 kept]. destruct IH as [S2 H2].
  split; [by apply (loop_step_trans _ h1)|]. by apply (loop_cons identity moved kept rest (lingering_ids h) (lingering_ids h1)).
Qed.

Lemma cancel_loop_spec horizon ids h :
  let (h', kept) := cancel_loop horizon ids h in loop_step h h' /\ kept ++ lingering_ids h' ⊆+ ids ++ lingering_ids h.
Proof.
  revert h. induction ids as [|identity rest IH]; intros h; [done|]. cbn [cancel_loop]. unfold mbind, st_bind, mret, st_ret, look.
  assert (exists h0, only_if (negb (aa24Cancelling identity h)) (update (fun h => set_cancelled (aa24Cancelled h ++ [identity]) h)) h = (h0, tt) /\ loop_step h h0 /\ aa24Lingering h0 = aa24Lingering h) as (h0 & -> & S0 & L0).
  { destruct (aa24Cancelling identity h); cbn; by eexists. }
  assert (let (h', gone) := (if aa24Detached h0 then (mret true : ST AA24Host bool) else aa24Linger identity true (Some horizon) false) h0 in
    loop_step h0 h' /\ (if gone then [] else [identity]) ++ lingering_ids h' ⊆+ identity :: lingering_ids h0) as H1.
  { destruct (aa24Detached h0); [|apply linger_spec]. split; [done|]. by apply submseteq_cons. }
  cbv beta iota. unfold mret, st_ret in H1. revert H1. match goal with |- (let (_, _) := ?x in _) -> _ => destruct x as [h1 gone] end. intros [S1 H1]. specialize (IH h1). destruct (cancel_loop horizon rest h1) as [h2 kept]. destruct IH as [S2 H2].
  split; [apply (loop_step_trans _ h0); [done|by apply (loop_step_trans _ h1)]|]. apply (loop_cons identity gone kept rest _ (lingering_ids h1)); [|done].
  unfold lingering_ids at 2. rewrite <- L0. exact H1.
Qed.

Lemma tighten_ids horizon (l : list aa24Lingered) : aa24Identity_ <$> (tighten horizon <$> l) = aa24Identity_ <$> l.
Proof. induction l as [|a l IH]; [done|]. cbn. rewrite IH. unfold tighten. by destruct (aa24Strict a). Qed.

Lemma close_shrinks reason s t : moves shrinks (aa24Close reason s t).
Proof.
  unfold aa24Close. apply moves_bind; [exact _| |intros _].
  { apply moves_update. intros h. destruct (_ || _); by apply shrinks_unmoved. }
  apply moves_bind; [exact _|apply moves_look; exact _|intros horizon]. apply moves_bind; [exact _| |intros _].
  { apply moves_update. intros h. destruct (aa24Detached h); [done|]. unfold shrinks, pending, lingering_ids. cbn [set_lingering aa24Outstanding aa24Lingering aa24TokenFloor]. by rewrite tighten_ids. }
  apply moves_look_bind. intros h. set (linger := if _ && _ then _ else horizon). clearbody linger. unfold mbind, st_bind, look, update.
  pose proof (cancel_loop_spec linger (aa24Outstanding h) h) as Hc. destruct (cancel_loop linger (aa24Outstanding h) h) as [h1 kept]. destruct Hc as ([_ E] & Hp). cbn [fst].
  assert (shrinks h (set_outstanding kept h1)) as Hs by (split; [exact Hp|exact E]). etrans; [exact Hs|]. destruct (_ && _); by apply shrinks_unmoved.
Qed.

Lemma move_shrinks leave retired h : let (h', kept) := move_loop leave retired (aa24Outstanding h) h in shrinks h (set_outstanding kept h').
Proof. pose proof (move_loop_spec leave retired (aa24Outstanding h) h) as H. destruct (move_loop _ _ _ h) as [h' kept]. destruct H as ([_ E] & Hp). by split. Qed.

Lemma expired_shrinks now : moves shrinks (aa24RetireExpired now).
Proof.
  apply moves_look_bind. intros h. unfold mbind, st_bind, update. pose proof (move_shrinks (fun identity => negb (aa24Live identity now)) false h) as H.
  by destruct (move_loop _ _ _ h) as [h' kept].
Qed.

Lemma retire_shrinks ref : moves shrinks (retire_plan ref).
Proof.
  unfold retire_plan. apply moves_bind; [exact _|apply moves_update; intros h; by apply shrinks_unmoved|intros _].
  apply moves_look_bind. intros h. unfold mbind, st_bind, update. pose proof (move_shrinks (fun identity => ref_matches (AA24Ref identity) ref) true h) as H.
  by destruct (move_loop _ _ _ h) as [h' kept].
Qed.

(** A relation that does not look at the account. *)
Lemma blind_account (R : AA24Host -> AA24Host -> Prop) : (forall next explained h, R h (set_account next explained h)) -> forall s control, moves R (aa24AccountSequence s control).
Proof. intros H s control h. unfold aa24AccountSequence, mbind, st_bind, look, update, mret, st_ret. destruct (account _ _ _ _ _) as [[n e] ok]. apply H. Qed.

Lemma shrinks_steps : host_steps shrinks.
Proof.
  split; try (intros; by apply shrinks_unmoved).
  - intros reason s t _. apply close_shrinks.
  - apply blind_account. intros. by apply shrinks_unmoved.
Qed.

Lemma shrinks_retire : retire_step shrinks.
Proof. intros ref p h _. apply retire_shrinks. Qed.

Lemma shrinks_complete : complete_steps shrinks.
Proof.
  split.
  - intros i h. split; [|done]. unfold pending. cbn [set_outstanding aa24Outstanding]. apply submseteq_app; [|done]. apply sublist_submseteq, remove_first_sublist.
  - intros i tail h. split; [|done]. unfold pending, lingering_ids. cbn [set_lingering aa24Outstanding aa24Lingering]. apply submseteq_app; [done|].
    apply fmap_submseteq, sublist_submseteq, remove_first_sublist.
Qed.

Lemma detach_shrinks h : shrinks h (set_detached h).
Proof. split; [|done]. apply submseteq_nil_l. Qed.

(** ** Where completions come from *)

(** Until teardown a lane has the kind of its place. *)
Definition kinds_ok (h : AA24Host) : Prop := aa24Detached h = false -> forall kind, known_lane kind -> aa24Kind (aa24Layout (aa24Lane_ kind h)) = kind.

(** What neither the fence nor the loops touch. *)
Definition untouched (h : AA24Host) := (aa24Lanes h, aa24Detached h, aa24Plans h, aa24PlanFloor h, aa24Expected h).

Lemma linger_untouched identity strict at_ retired : moves (same untouched) (aa24Linger identity strict at_ retired).
Proof. unfold aa24Linger. moves_tac; by apply moves_update. Qed.

#[local] Hint Resolve linger_untouched : moves.

Lemma cancel_untouched horizon ids : moves (same untouched) (cancel_loop horizon ids).
Proof. induction ids as [|i ids IH]; cbn [cancel_loop]; moves_tac; by apply moves_update. Qed.

Lemma move_untouched leave retired ids : moves (same untouched) (move_loop leave retired ids).
Proof. induction ids as [|i ids IH]; cbn [move_loop]; unfold aa24LingerMoved; moves_tac. Qed.

#[local] Hint Resolve cancel_untouched move_untouched : moves.

Lemma close_untouched reason s t : moves (same untouched) (aa24Close reason s t).
Proof.
  unfold aa24Close. moves_tac; apply moves_update; intros h; try done.
  - by destruct (_ || _).
  - by destruct (aa24Detached h) eqn:E.
  - by destruct (_ && _).
Qed.

Lemma kinds_unmoved h h' : aa24Lanes h' = aa24Lanes h -> aa24Detached h' = aa24Detached h -> kept kinds_ok h h'.
Proof. intros E1 E2 H Hd kind Hk. rewrite E2 in Hd. unfold aa24Lane_. rewrite E1. by apply H. Qed.

Lemma kinds_untouched {A} (m : ST AA24Host A) : moves (same untouched) m -> moves (kept kinds_ok) m.
Proof. intros H h. specialize (H h). injection H as E1 E2 _ _ _. by apply kinds_unmoved. Qed.

Lemma kinds_steps : host_steps (kept kinds_ok).
Proof.
  split; try (intros; by apply kinds_unmoved).
  - intros mem kind n h Hk (S1 & _) H Hd kind' Hk'. specialize (H Hd kind' Hk'). unfold aa24Lane_ in *. cbn [set_wire aa24Lanes].
    destruct (decide (lane_index kind = lane_index kind')) as [E|Hne]; [|by rewrite list_lookup_total_insert_ne]. rewrite E in *.
    destruct (decide (lane_index kind' < length (aa24Lanes h))%nat); [rewrite list_lookup_total_insert_eq by done; by rewrite S1|by rewrite list_insert_ge by lia].
  - intros reason s t _. apply kinds_untouched, close_untouched.
  - apply blind_account. intros. by apply kinds_unmoved.
Qed.

Lemma kinds_retire : retire_step (kept kinds_ok).
Proof.
  intros ref p h _. apply (moves_bind (kept kinds_ok)); [apply moves_update; intros h1; by apply kinds_unmoved|intros _]. apply kinds_untouched. moves_tac; by apply moves_update.
Qed.

Lemma kinds_complete : complete_steps (kept kinds_ok).
Proof. split; intros; by apply kinds_unmoved. Qed.

Lemma kinds_detach h : kept kinds_ok h (set_detached h).
Proof. intros _ Hd. done. Qed.

(** Taking an identity off one of the two lists. *)
Lemma completion_takes r d h h' e :
  handle_completion r d h = (h', (Some d, e)) -> aa24Identity r :: pending h' ⊆+ pending h /\ aa24TokenFloor h' = aa24TokenFloor h.
Proof.
  unfold handle_completion, mbind, st_bind, look, update, mret, st_ret. cbv beta iota. destruct (complete_outstanding _ h) eqn:Eo.
  - intros [= <- <-]. split; [|done]. unfold complete_outstanding in Eo. apply andb_true_iff in Eo as [_ Eo].
    destruct (remove_first_perm _ _ Eo) as (a & Ha & Hp). apply command_matches_exact in Ha as ->.
    apply Permutation_submseteq. symmetry. exact (Permutation_app_tail (lingering_ids h) Hp).
  - destruct (existsb _ _) eqn:El; [|by destruct (lane_bump _ _ h)]. intros [= <- <-]. split; [|done].
    destruct (remove_first_perm _ _ El) as (a & Ha & Hp). unfold lingers in Ha. apply andb_true_iff in Ha as [Ha _]. apply command_matches_exact in Ha.
    apply Permutation_submseteq. symmetry. apply (fmap_Permutation aa24Identity_) in Hp. cbn [fmap list_fmap] in Hp. rewrite Ha in Hp.
    etrans; [exact (Permutation_app_head (aa24Outstanding h) Hp)|]. symmetry. apply Permutation_middle.
Qed.

Lemma shape_on_lane r lane lo : aa24Shape r lane lo = true -> aa24KindOnLane (AA24Kind r) lane = true.
Proof. unfold aa24Shape. destruct (aa24KindOnLane _ _); [done|]. done. Qed.

Lemma read_on_lane kind dst h h' r :
  lane_read kind dst h = (h', Ok (Some r)) -> kinds_ok h -> aa24Detached h = false -> known_lane kind -> aa24KindOnLane (AA24Kind r) kind = true.
Proof.
  unfold lane_read, on_lane, mbind, st_bind, look. destruct (aa24Read _ _ _ _) as [[mem n] a] eqn:E. intros [= <- ->] Hk Hd Hl.
  apply read_is_shaped, shape_on_lane in E. by rewrite (Hk Hd kind Hl) in E.
Qed.

Lemma control_record_back r now f h h' d e : aa24HandleControl r now f h = (h', (Some d, e)) -> dRecord d = r /\ e = None.
Proof.
  unfold aa24HandleControl, mbind, st_bind, look, mret, st_ret. destruct (negb _); [by destruct (lane_bump _ _ h)|].
  match goal with |- (let (_, _) := ?x in _) = _ -> _ => destruct x as [h1 regressed] end.
  destruct (_ =? _). { destruct (aa24AccountSequence _ _ h1) as [h2 x]. destruct (aa24Close _ _ _ h2) as [h3 []]. by intros [= _ <- <-]. }
  destruct regressed; [by destruct (aa24Close _ _ _ h1)|].
  match goal with |- (let (_, _) := ?x in _) = _ -> _ => destruct x as [h2 fine] end. match goal with |- (let (_, _) := ?x in _) = _ -> _ => destruct x as [h3 []] end.
  unfold handle_acknowledge, mbind, st_bind, look, mret, st_ret. destruct (aa24FindPlan _ _) as [[p [|]]|]; [|by destruct (lane_bump _ _ h3)|by destruct (lane_bump _ _ h3)].
  destruct (retire_plan _ h3) as [h4 []]. by intros [= _ <- <-].
Qed.

#[local] Notation regressed_moves := (host_walk_regressed_data shrinks shrinks_steps).
#[local] Notation account_moves := (host_walk_account shrinks shrinks_steps).

Lemma data_takes r now h h' d :
  aa24HandleData r now h = (h', (Some d, None)) -> dRecord d = r /\
  (AA24Kind r = AA24RecordCompletion -> aa24Identity r :: pending h' ⊆+ pending h /\ aa24TokenFloor h' = aa24TokenFloor h).
Proof.
  unfold aa24HandleData, mbind, st_bind, look, mret, st_ret. destruct (negb _); [by destruct (lane_bump _ _ h)|].
  pose proof (regressed_moves r now h) as M1. destruct (aa24CaptureRegressed _ _ _ _ h) as [h1 [|]]; cbn [fst] in M1; [by destruct (aa24Close _ _ _ h1)|].
  match goal with |- (let (_, _) := ?x in _) = _ -> _ => assert (shrinks h1 x.1) as M2 by (destruct (AA24OutputOpen h1); [apply account_moves|done]); destruct x as [h2 fine] end. cbn [fst] in M2.
  destruct (negb fine); [by destruct (aa24Close _ _ _ h2)|]. destruct (Z.eqb_spec (AA24Kind r) AA24RecordCompletion) as [E|Hne]; [|by intros [= _ <-]].
  intros Hc. assert (d = mkDelivery r now) as ->.
  { revert Hc. unfold handle_completion, mbind, st_bind, look, update, mret, st_ret. destruct (complete_outstanding _ _); [by intros [= _ <-]|]. destruct (existsb _ _); [by intros [= _ <-]|]. by destruct (lane_bump _ _ h2). }
  split; [done|]. intros _. apply completion_takes in Hc as [T1 T2]. destruct M1 as [P1 F1], M2 as [P2 F2]. split; [by etrans; [|etrans]|congruence].
Qed.

Lemma detached_steps : host_steps (same aa24Detached).
Proof. split; try done; [intros reason s t _ h; pose proof (close_untouched reason s t h) as H; by injection H|by apply blind_account]. Qed.

(** A completion that a poll delivers without an error. *)
Lemma poll_takes dst now h h' d :
  kinds_ok h -> AA24Poll dst now h = (h', (Some d, None)) -> AA24Kind (dRecord d) = AA24RecordCompletion ->
  aa24Identity (dRecord d) :: pending h' ⊆+ pending h /\ aa24TokenFloor h' = aa24TokenFloor h.
Proof.
  intros Hk. unfold AA24Poll, mbind, st_bind, look, mret, st_ret.
  pose proof (host_walk_tick shrinks shrinks_steps now h) as M1. pose proof (host_walk_tick _ kinds_steps now h Hk) as K1. pose proof (host_walk_tick _ detached_steps now h) as D1.
  assert (aa24Detached h = true -> (aa24Tick now h).2 = Some ErrAA24Detached) as Hdet by (intros E; unfold aa24Tick, mbind, st_bind, look; by rewrite E).
  destruct (aa24Tick now h) as [h1 [e|]]; cbn [fst snd] in *.
  { destruct e; try done. unfold aa24PollFencedControl, mbind, st_bind, look, mret, st_ret. destruct (lane_read _ _ h1) as [h2 [[r|]|e]]; [|done|by destruct (aa24ReadFailed e h2)].
    destruct (aa24HandleControl r 0 true h2) as [h3 [a [e|]]]; done. }
  assert (aa24Detached h1 = false) as Hd1 by (rewrite D1; destruct (aa24Detached h); [by specialize (Hdet eq_refl)|done]).
  assert (forall h2 head, shrinks h1 h2 -> poll_data dst (AA23Tick now) head h2 = (h', (Some d, None)) -> AA24Kind (dRecord d) = AA24RecordCompletion ->
    aa24Identity (dRecord d) :: pending h' ⊆+ pending h /\ aa24TokenFloor h' = aa24TokenFloor h) as Hdata.
  { intros h2 head M2. unfold poll_data, mbind, st_bind, look, mret, st_ret. destruct (head <=? _); [destruct (lane_indices _ h2) as [h3 [[p c]|e]]; [done|by destruct (aa24ReadFailed e h3)]|].
    pose proof (host_walk_read shrinks shrinks_steps AA24LaneWorkerData dst ltac:(done) h2) as M3. destruct (lane_read _ dst h2) as [h3 [[r|]|e]]; cbn [fst] in M3; [|done|by destruct (aa24ReadFailed e h3)].
    intros Hh. apply data_takes in Hh as [-> Hh]. intros Hc. destruct (Hh Hc) as [T1 T2]. destruct M1 as [P1 F1], M2 as [P2 F2], M3 as [P3 F3].
    split; [etrans; [exact T1|]; etrans; [exact P3|]; by etrans|congruence]. }
  destruct (_ && _); [by apply Hdata|].
  pose proof (host_walk_read shrinks shrinks_steps AA24LaneWorkerControl dst ltac:(done) h1) as M2. destruct (lane_read AA24LaneWorkerControl dst h1) as [h2 [[r|]|e]] eqn:Er; cbn [fst] in M2.
  - intros Hc. apply control_record_back in Hc as [-> _]. intros E. pose proof (read_on_lane _ _ _ _ _ Er K1 Hd1 ltac:(done)) as Hl. by rewrite E in Hl.
  - by apply Hdata.
  - by destruct (aa24ReadFailed e h2).
Qed.

(** ** Where commands come from *)

Lemma queue_spec identity payload h :
  let (h', e) := queue_command identity payload h in
  match e with
  | None => pending h' ⊆+ identity :: pending h /\ aa24TokenFloor h' = AA24OwnerToken identity
  | Some _ => shrinks h h'
  end.
Proof.
  unfold queue_command, mbind, st_bind, update, mret, st_ret. pose proof (host_walk_write shrinks shrinks_steps AA24LaneHostData (command_record identity payload) 0 ltac:(done) h) as M.
  destruct (lane_write _ _ _ h) as [h1 [e|]]; cbn [fst] in M.
  - assert (moves shrinks (only_if (negb (bool_decide (e = ErrAA24Full)) && negb (bool_decide (e = ErrAA24Record)) && negb (bool_decide (e = ErrAA24Oversize))) (aa24Close AA24FenceCorruption 0 0))) as Hm
      by (apply moves_only_if; [exact _|apply close_shrinks]).
    specialize (Hm h1). destruct (only_if _ _ h1) as [h2 []]. cbn [fst] in Hm. by etrans.
  - split; [|done]. destruct M as [M _]. unfold pending at 1, lingering_ids. cbn [set_outstanding set_token_floor aa24Outstanding aa24Lingering]. rewrite <- app_assoc. cbn [app].
    rewrite <- Permutation_middle. by apply submseteq_skip.
Qed.

Lemma retire_floor now h : aa24TokenFloor (aa24RetireExpired now h).1 = aa24TokenFloor h.
Proof. apply (expired_shrinks now h). Qed.

Lemma send_spec identity payload now h :
  let (h', e) := AA24SendCommand identity payload now h in
  match e with
  | None => pending h' ⊆+ identity :: pending h /\ aa24TokenFloor h < AA24OwnerToken identity /\ aa24TokenFloor h' = AA24OwnerToken identity
  | Some _ => shrinks h h'
  end.
Proof.
  unfold AA24SendCommand, mbind, st_bind, look, mret, st_ret. pose proof (host_walk_tick shrinks shrinks_steps now h) as M1.
  destruct (aa24Tick now h) as [h1 [e|]]; cbn [fst] in M1; [done|]. destruct (negb _); [done|]. destruct (aa24FindPlan _ _) as [plan|]; [|done].
  destruct (Z.leb_spec (AA24OwnerToken identity) (aa24TokenFloor h1)) as [|Ht]; [done|]. destruct (aa24Revoking plan); [done|]. destruct (negb _); [done|].
  pose proof (expired_shrinks (AA23Tick now) h1) as M2. destruct (aa24RetireExpired _ h1) as [h2 []]; cbn [fst] in M2. destruct (_ =? _); [by etrans|].
  pose proof (queue_spec identity payload h2) as Hq. destruct (queue_command identity payload h2) as [h3 [e|]]; [by do 2 etrans|].
  destruct Hq as [Q1 Q2], M1 as [P1 F1], M2 as [P2 F2]. split; [etrans; [exact Q1|]; apply submseteq_skip; by etrans|]. split; [lia|done].
Qed.

(** ** The ledger of a run *)

Definition sent (x : host_call * host_answer) : option AA24CommandIdentity :=
  match x with (HSend identity _ _, BError None) => Some identity | _ => None end.
Definition completed (x : host_call * host_answer) : option AA24CommandIdentity :=
  match x with
  | (HPoll _ _, BPoll (Some d, None)) => if AA24Kind (dRecord d) =? AA24RecordCompletion then Some (aa24Identity (dRecord d)) else None
  | _ => None
  end.

Lemma kinds_queue identity payload : moves (kept kinds_ok) (queue_command identity payload).
Proof.
  unfold queue_command. pose proof (host_walk_write _ kinds_steps AA24LaneHostData (command_record identity payload) 0 ltac:(done)).
  pose proof (hs_close _ kinds_steps AA24FenceCorruption 0 0 ltac:(done)). moves_tac; auto; apply moves_update; intros h; by apply kinds_unmoved.
Qed.

Lemma kinds_do c : moves (kept kinds_ok) (host_do c).
Proof.
  destruct c; cbn [host_do]; (apply moves_bind; [exact _| |intros ?; apply moves_ret; exact _]).
  - apply (host_walk_publish _ kinds_steps). intros r h _. by apply kinds_unmoved.
  - apply (host_walk_revoke _ kinds_steps).
  - unfold AA24SendCommand. pose proof (host_walk_tick _ kinds_steps now). pose proof (kinds_queue identity payload).
    assert (moves (kept kinds_ok) (aa24RetireExpired (AA23Tick now))) by (apply kinds_untouched; unfold aa24RetireExpired; moves_tac; by apply moves_update). moves_tac; auto.
  - apply (host_walk_poll _ kinds_steps kinds_retire kinds_complete).
  - apply (host_walk_acknowledge_gap _ kinds_steps).
  - apply (host_walk_request_stop _ kinds_steps).
  - apply (host_walk_resync _ kinds_steps).
  - apply (host_walk_terminated _ kinds_steps).
  - apply (host_walk_teardown _ kinds_steps), kinds_detach.
Qed.

Lemma ledger_do c h (Hk : kinds_ok h) :
  let (h', a) := host_do c h in
  option_list (completed (c, a)) ++ pending h' ⊆+ option_list (sent (c, a)) ++ pending h /\
  match sent (c, a) with
  | Some identity => aa24TokenFloor h < AA24OwnerToken identity /\ aa24TokenFloor h' = AA24OwnerToken identity
  | None => aa24TokenFloor h' = aa24TokenFloor h
  end.
Proof.
  assert (forall h' a, shrinks h h' -> completed (c, a) = None -> sent (c, a) = None ->
    option_list (completed (c, a)) ++ pending h' ⊆+ option_list (sent (c, a)) ++ pending h /\
    match sent (c, a) with Some identity => aa24TokenFloor h < AA24OwnerToken identity /\ aa24TokenFloor h' = AA24OwnerToken identity | None => aa24TokenFloor h' = aa24TokenFloor h end) as Hplain.
  { intros h' a [P F] -> ->. done. }
  destruct c; cbn [host_do]; unfold mbind, st_bind, mret, st_ret; cbv beta.
  - pose proof (host_walk_publish shrinks shrinks_steps ltac:(intros r h1 _; by apply shrinks_unmoved) ref arenaOffset planBytes now h) as M. destruct (AA24PublishPlan _ _ _ _ h). by apply Hplain.
  - pose proof (host_walk_revoke shrinks shrinks_steps ref now h) as M. destruct (AA24RevokePlan _ _ h). by apply Hplain.
  - pose proof (send_spec identity payload now h) as M. destruct (AA24SendCommand _ _ _ h) as [h' [e|]]; [by apply Hplain|]. destruct M as (P & F1 & F2). by split.
  - pose proof (host_walk_poll shrinks shrinks_steps shrinks_retire shrinks_complete dst now h) as M. destruct (AA24Poll dst now h) as [h' [[d|] [e|]]] eqn:Ep; cbn [fst] in M; try by apply Hplain.
    cbn [completed sent]. destruct (Z.eqb_spec (AA24Kind (dRecord d)) AA24RecordCompletion) as [E|]; [by apply (poll_takes dst now h)|]. by destruct M.
  - pose proof (host_walk_acknowledge_gap shrinks shrinks_steps sequence now h) as M. destruct (AA24AcknowledgeGap _ _ h). by apply Hplain.
  - pose proof (host_walk_request_stop shrinks shrinks_steps now h) as M. destruct (AA24RequestStop _ h). by apply Hplain.
  - pose proof (host_walk_resync shrinks shrinks_steps next h) as M. destruct (AA24ResyncExpected _ h). by apply Hplain.
  - pose proof (host_walk_terminated shrinks shrinks_steps h) as M. destruct (AA24ObserveWorkerTerminated h). by apply Hplain.
  - pose proof (host_walk_teardown shrinks shrinks_steps detach_shrinks h) as M. destruct (AA24Teardown h). by apply Hplain.
Qed.

Lemma ledger_run calls h (Hk : kinds_ok h) :
  let (h', answers) := host_run calls h in
  omap completed answers ++ pending h' ⊆+ omap sent answers ++ pending h /\
  StronglySorted Z.lt (AA24OwnerToken <$> omap sent answers) /\ Forall (fun t => aa24TokenFloor h < t) (AA24OwnerToken <$> omap sent answers).
Proof.
  revert h Hk. induction calls as [|[mem c] rest IH]; intros h Hk; [split; [done|split; constructor]|]. cbn [host_run].
  assert (kinds_ok (set_wire mem (aa24Lanes h) h)) as Hk0 by (by apply (hs_peer _ kinds_steps mem h)).
  pose proof (ledger_do c _ Hk0) as Hd. pose proof (kinds_do c _ Hk0) as Hk1. destruct (host_do c _) as [h1 a]. cbn [fst] in Hk1. destruct Hd as [D1 D2].
  specialize (IH h1 Hk1). destruct (host_run rest h1) as [h2 answers]. destruct IH as (I1 & I2 & I3).
  change (pending (set_wire mem (aa24Lanes h) h)) with (pending h) in D1. change (aa24TokenFloor (set_wire mem (aa24Lanes h) h)) with (aa24TokenFloor h) in D2. cbn [omap list_omap].
  assert (omap completed ((c, a) :: answers) = option_list (completed (c, a)) ++ omap completed answers /\ omap sent ((c, a) :: answers) = option_list (sent (c, a)) ++ omap sent answers) as [Ec Es].
  { cbn [omap list_omap]. by destruct (completed (c, a)), (sent (c, a)). }
  cbn [omap list_omap] in Ec, Es. rewrite Ec, Es. split; [|].
  - rewrite <- !app_assoc. etrans; [apply submseteq_app; [reflexivity|exact I1]|]. rewrite (Permutation_app_swap_app (option_list (completed (c, a)))), (Permutation_app_swap_app (option_list (sent (c, a)))).
    by apply submseteq_app.
  - destruct (sent (c, a)) as [i|]; cbn [option_list app fmap list_fmap].
    + destruct D2 as [D2 D3]. split; [constructor; [exact I2|]|constructor; [exact D2|]]; (eapply Forall_impl; [exact I3|]); cbn; intros; lia.
    + rewrite D2 in I3. by split.
Qed.

Lemma attached_kinds aligned mem e h : AA24AttachHost aligned mem e = Ok h -> kinds_ok h /\ pending h = [] /\ aa24Plans h = [].
Proof.
  unfold AA24AttachHost. destruct (_ =? 0); [done|]. destruct (AA24ValidateMapping aligned mem e) as [lo|] eqn:Ev; [|done]. cbn [rbind]. intros [= <-].
  pose proof (validated_is_well_formed _ _ _ _ Ev) as Hwf. split; [|done]. intros _ kind Hk. unfold aa24Lane_, aa24AttachLanes. cbn [aa24Lanes].
  destruct (lookup_lt_is_Some_2 (IpcLayout.aa24Lanes lo) (lane_index kind)) as [v Hv]; [rewrite (wf_lanes _ _ _ Hwf); unfold lane_index, known_lane in *; lia|].
  rewrite (list_lookup_total_correct _ _ (attach_lane (AA24Limits_ e) false v)) by (by rewrite list_lookup_fmap, Hv). cbn [attach_lane aa24Layout].
  destruct (wf_sized _ _ _ Hwf _ _ Hv) as [Hkind _]. rewrite Hkind. unfold lane_index, known_lane in *. lia.
Qed.


(** ** At the small mapping *)

Definition demo_host_side : AA24Host :=
  mkHost demo_mapping demo_layout demo_expected (aa24AttachLanes demo_layout demo_limits24 false) (aa24SeedClock 1) no_fence false 0 false [] 0 0
    [] [] [] 1 [] 0 0 false false 0.

Lemma demo_host_attached : AA24AttachHost true demo_mapping demo_expected = Ok demo_host_side.
Proof. unfold AA24AttachHost. rewrite demo_validates. reflexivity. Qed.

(** What the worker writes: a record in one of its lanes. *)
Definition demo_worker_writes (kind : Z) (r : AA24Record) (mem : list byte) : list byte :=
  (aa24Write demo_layout r 0 mem (aa24AttachLanes demo_layout demo_limits24 true !!! lane_index kind)).1.1.
Definition demo_completion : AA24Record :=
  mkRecord24 AA24RecordCompletion 7 3 1 1 1 1 1 90 1 6 100 80 0 0 AA24StatusAccepted x08 x00 x00 x00 0 [].

(** The host publishes and sends; the worker completes the command; the host
    polls twice. *)
Definition demo_publishing : list (list byte * host_call) := [(demo_mapping, HPublish demo_ref 1504 16 (mkReading 1 2))].
Definition demo_sending : list (list byte * host_call) :=
  demo_publishing ++ [(hMem (host_run demo_publishing demo_host_side).1, HSend demo_identity [x01; x02] (mkReading 1 3))].
Definition demo_polling : list (list byte * host_call) :=
  demo_sending ++ [(demo_worker_writes AA24LaneWorkerData demo_completion (hMem (host_run demo_sending demo_host_side).1), HPoll 16 (mkReading 1 9))].

