(* ===== verification/IpcHostPlans.v ===== *)
(** The host's quarantine of plans and its account of ordinals
    (src/localworker/aa24_ipc.go). *)

From S2P Require Import Prelude Memory Calls PlanTypes IpcLayout IpcLayoutLaws IpcFresh IpcRecord IpcLane IpcQueue IpcLanes IpcHost IpcHostWalk IpcHostLaws.
#[local] Open Scope list_scope.
#[local] Open Scope Z_scope.

(** ** Quarantine *)

Definition plan_refs (h : AA24Host) : list AA24PlanRef := planRef <$> aa24Plans h.

Lemma mark_refs ref plans : planRef <$> mark_revoking ref plans = planRef <$> plans.
Proof. induction plans as [|p plans IH]; [done|]. cbn. destruct (ref_matches _ _); cbn; [done|by rewrite IH]. Qed.

Lemma refs_steps : host_steps (same plan_refs).
Proof.
  split; try done.
  - intros reason s t _ h. pose proof (close_untouched reason s t h) as H. injection H as _ _ E _ _. unfold same, plan_refs. by rewrite E.
  - by apply blind_account.
  - intros ref h. apply mark_refs.
Qed.

Lemma refs_complete : complete_steps (same plan_refs).
Proof. done. Qed.

Lemma refs_untouched {A} (m : ST AA24Host A) : moves (same untouched) m -> moves (same plan_refs) m.
Proof. intros H h. specialize (H h). injection H as _ _ E _ _. unfold same, plan_refs. by rewrite E. Qed.

Lemma find_existsb ref plans p b : aa24FindPlan ref plans = Some (mkHostPlan p b) -> existsb (fun plan => ref_matches (planRef plan) ref) plans = true.
Proof. induction plans as [|q plans IH]; [done|]. cbn. destruct (ref_matches _ _); [done|]. exact IH. Qed.

(** A retirement takes one plan off the list: the one it names. *)
Lemma retire_takes ref p b h : aa24FindPlan ref (aa24Plans h) = Some (mkHostPlan p b) -> plan_refs (retire_plan ref h).1 ++ [ref] ≡ₚ plan_refs h.
Proof.
  intros Hf. unfold retire_plan, mbind, st_bind, look, update. cbv beta iota. set (h1 := set_plans _ h).
  pose proof (refs_untouched _ (move_untouched (fun identity => ref_matches (AA24Ref identity) ref) true (aa24Outstanding h1)) h1) as Hm.
  destruct (move_loop _ _ _ h1) as [h2 kept]. cbn [fst] in *. unfold same, plan_refs in *. cbn [set_outstanding aa24Plans]. rewrite Hm.
  unfold h1. cbn [set_plans aa24Plans]. destruct (remove_first_perm _ _ (find_existsb _ _ _ _ Hf)) as (q & Hq & Hp). apply ref_matches_exact in Hq.
  apply (fmap_Permutation planRef) in Hp. cbn [fmap list_fmap] in Hp. rewrite Hq in Hp. rewrite Hp. apply Permutation_app_comm.
Qed.

Lemma account_refs s control : moves (same plan_refs) (aa24AccountSequence s control).
Proof. apply (host_walk_account _ refs_steps). Qed.

(** What a control record does to the list. *)
Lemma control_refs r now f h :
  let (h', a) := aa24HandleControl r now f h in
  match a.1 with
  | Some d => dRecord d = r /\ (AA24Kind r = AA24RecordGap /\ plan_refs h' = plan_refs h \/ AA24Kind r <> AA24RecordGap /\ plan_refs h' ++ [aa24Ref r] ≡ₚ plan_refs h)
  | None => plan_refs h' = plan_refs h
  end.
Proof.
  unfold aa24HandleControl, mbind, st_bind, look, mret, st_ret. destruct (negb _).
  { pose proof (host_walk_bump _ refs_steps AA24LaneWorkerControl CDropped ltac:(done) h) as M. by destruct (lane_bump _ _ h). }
  match goal with |- context[let (s', a) := ?x in _] => assert (same plan_refs h x.1) as M1 by (destruct f; [done|apply (host_walk_regressed_control _ refs_steps)]); destruct x as [h1 regressed] end. cbn [fst] in M1.
  destruct (Z.eqb_spec (AA24Kind r) AA24RecordGap) as [E|Hne].
  { pose proof (account_refs (AA24CaptureSequence r) true h1) as M2. destruct (aa24AccountSequence _ _ h1) as [h2 x]. cbn [fst] in M2.
    pose proof (hs_close _ refs_steps AA24FenceWorkerGap (AA24CaptureSequence r) (AA24CaptureTime r) ltac:(done) h2) as M3. destruct (aa24Close _ _ _ h2) as [h3 []]. cbn [fst] in *.
    split; [done|]. left. unfold same in *. split; [done|congruence]. }
  destruct regressed.
  { pose proof (hs_close _ refs_steps AA24FenceClock (AA24CaptureSequence r) (AA24CaptureTime r) ltac:(done) h1) as M3. destruct (aa24Close _ _ _ h1) as [h3 []]. cbn [fst] in *. unfold same in *. congruence. }
  match goal with |- context[let (s', a) := ?x in _] => assert (same plan_refs h1 x.1) as M2 by (destruct (AA24OutputOpen h1); [apply account_refs|done]); destruct x as [h2 fine] end. cbn [fst] in M2.
  match goal with |- context[let (s', a) := ?x in _] => assert (same plan_refs h2 x.1) as M3 by (unfold only_if; destruct (negb fine); [by apply (hs_close _ refs_steps)|done]); destruct x as [h3 []] end. cbn [fst] in M3.
  unfold handle_acknowledge, mbind, st_bind, look, mret, st_ret. unfold same in *. pose proof (host_walk_bump _ refs_steps AA24LaneWorkerControl CDropped ltac:(done) h3) as M4.
  destruct (aa24FindPlan _ _) as [[p [|]]|] eqn:Ef; [|destruct (lane_bump _ _ h3); cbn [fst] in *; unfold same in M4; congruence..].
  pose proof (retire_takes _ _ _ _ Ef) as Ht. destruct (retire_plan _ h3) as [h4 []]. cbn [fst] in *. split; [done|]. right. split; [done|]. by rewrite Ht, M3, M2, M1.
Qed.

Lemma data_refs r now : moves (same plan_refs) (aa24HandleData r now).
Proof. apply (host_walk_data _ refs_steps refs_complete). Qed.

Lemma data_record_back r now h h' d e : aa24HandleData r now h = (h', (Some d, e)) -> dRecord d = r.
Proof.
  unfold aa24HandleData, mbind, st_bind, look, mret, st_ret. destruct (negb _); [by destruct (lane_bump _ _ h)|].
  destruct (aa24CaptureRegressed _ _ _ _ h) as [h1 [|]]; [by destruct (aa24Close _ _ _ h1)|].
  match goal with |- (let (_, _) := ?x in _) = _ -> _ => destruct x as [h2 fine] end.
  destruct (negb fine); [destruct (aa24Close _ _ _ h2); by intros [= _ <- _]|]. destruct (_ =? _); [|by intros [= _ <- _]].
  unfold handle_completion, mbind, st_bind, look, update, mret, st_ret. destruct (complete_outstanding _ _); [by intros [= _ <- _]|]. destruct (existsb _ _); [by intros [= _ <- _]|].
  by destruct (lane_bump _ _ h2).
Qed.

(** The retirement a poll delivered, beside whatever error. *)
Definition retired_of (a : option AA24Delivery * option aa24_error) : option AA24PlanRef :=
  match a.1 with Some d => if AA24Kind (dRecord d) =? AA24RecordAcknowledge then Some (aa24Ref (dRecord d)) else None | None => None end.

Lemma control_kinds r : aa24KindOnLane (AA24Kind r) AA24LaneWorkerControl = true -> AA24Kind r = AA24RecordAcknowledge \/ AA24Kind r = AA24RecordGap.
Proof. unfold aa24KindOnLane. cbn [Z.eqb AA24LaneWorkerControl AA24LaneHostControl Pos.eqb]. intros [?%Z.eqb_eq|?%Z.eqb_eq]%orb_true_iff; auto. Qed.

Lemma data_kinds r : aa24KindOnLane (AA24Kind r) AA24LaneWorkerData = true -> AA24Kind r <> AA24RecordAcknowledge.
Proof. unfold aa24KindOnLane. cbn [Z.eqb AA24LaneWorkerControl AA24LaneHostControl AA24LaneHostData AA24LaneWorkerData Pos.eqb]. intros H E. by rewrite E in H. Qed.

Lemma read_control_refs r now f h : aa24KindOnLane (AA24Kind r) AA24LaneWorkerControl = true ->
  let (h', a) := aa24HandleControl r now f h in plan_refs h' ++ option_list (retired_of a) ≡ₚ plan_refs h.
Proof.
  intros Hk%control_kinds. pose proof (control_refs r now f h) as H. destruct (aa24HandleControl r now f h) as [h' [[d|] e]]; cbn [fst] in H; unfold retired_of; cbn [fst].
  - destruct H as [-> [[E ->]|[Hne H]]]; [rewrite E; cbn; by rewrite app_nil_r|]. destruct Hk as [->|]; [|done]. exact H.
  - by rewrite H, app_nil_r.
Qed.

Lemma poll_refs dst now h (Hk : kinds_ok h) : let (h', a) := AA24Poll dst now h in plan_refs h' ++ option_list (retired_of a) ≡ₚ plan_refs h.
Proof.
  unfold AA24Poll, mbind, st_bind, look, mret, st_ret.
  pose proof (host_walk_tick _ refs_steps now h) as M1. pose proof (host_walk_tick _ kinds_steps now h Hk) as K1. pose proof (host_walk_tick _ detached_steps now h) as D1.
  assert (aa24Detached h = true -> (aa24Tick now h).2 = Some ErrAA24Detached) as Hdet by (intros E; unfold aa24Tick, mbind, st_bind, look; by rewrite E).
  assert (aa24Detached h = true \/ aa24Detached h = false) as Hd by (destruct (aa24Detached h); auto).
  destruct (aa24Tick now h) as [h1 e]. cbn [fst snd] in *. unfold same in M1.
  assert (forall e0, e = Some e0 -> e0 <> ErrAA24Clock -> plan_refs h1 ++ option_list (retired_of (None, Some e0)) ≡ₚ plan_refs h) as Hout by (intros; cbn; by rewrite app_nil_r, M1).
  assert (e = None \/ e = Some ErrAA24Clock -> aa24Detached h1 = false) as Hd1.
  { intros He. rewrite D1. destruct Hd as [Hd|Hd]; [|done]. rewrite (Hdet Hd) in He. by destruct He. }
  assert (forall kind h1, let (h2, a) := aa24ReadFailed kind h1 in plan_refs h2 = plan_refs h1) as Hfail.
  { intros kind h0. pose proof (host_walk_failed _ refs_steps kind h0) as M. destruct (aa24ReadFailed kind h0). exact M. }
  pose proof (host_walk_read _ refs_steps AA24LaneWorkerControl dst ltac:(done)) as MC. unfold moves in MC.
  destruct e as [e|].
  - destruct (decide (e = ErrAA24Clock)) as [->|Hne]; [|specialize (Hout e eq_refl Hne); by destruct e].
    unfold aa24PollFencedControl, mbind, st_bind, look, mret, st_ret. specialize (MC h1). destruct (lane_read AA24LaneWorkerControl dst h1) as [h2 [[r|]|e]] eqn:Er; cbn [fst] in MC; unfold same in MC.
    + pose proof (read_control_refs r 0 true h2 (read_on_lane _ _ _ _ _ Er K1 (Hd1 (or_intror eq_refl)) ltac:(done))) as Hc. destruct (aa24HandleControl r 0 true h2) as [h3 [a e]].
      unfold retired_of in *. cbn [fst snd] in *. by rewrite Hc, MC, M1.
    + cbn. by rewrite app_nil_r, MC, M1.
    + specialize (Hfail e h2). destruct (aa24ReadFailed e h2). cbn. by rewrite app_nil_r, Hfail, MC, M1.
  - assert (forall h2 head, plan_refs h2 = plan_refs h -> kinds_ok h2 -> aa24Detached h2 = false ->
      let (h', a) := poll_data dst (AA23Tick now) head h2 in plan_refs h' ++ option_list (retired_of a) ≡ₚ plan_refs h) as Hdata.
    { intros h2 head E2 K2 D2. unfold poll_data, mbind, st_bind, look, mret, st_ret. destruct (head <=? _).
      - pose proof (host_walk_indices _ refs_steps AA24LaneWorkerData ltac:(done) h2) as M3. destruct (lane_indices _ h2) as [h3 [[p c]|e]]; cbn [fst] in M3; unfold same in M3; [cbn; by rewrite app_nil_r, M3, E2|].
        specialize (Hfail e h3). destruct (aa24ReadFailed e h3). cbn. by rewrite app_nil_r, Hfail, M3, E2.
      - pose proof (host_walk_read _ refs_steps AA24LaneWorkerData dst ltac:(done) h2) as M3. destruct (lane_read AA24LaneWorkerData dst h2) as [h3 [[r|]|e]] eqn:Er; cbn [fst] in M3; unfold same in M3.
        + pose proof (data_kinds r (read_on_lane _ _ _ _ _ Er K2 D2 ltac:(done))) as Hr. pose proof (data_refs r (AA23Tick now) h3) as M4.
          destruct (aa24HandleData r _ h3) as [h4 [[d|] e]] eqn:Eh; cbn [fst] in M4; unfold same in M4; unfold retired_of; cbn [fst].
          * apply data_record_back in Eh as ->. apply Z.eqb_neq in Hr. rewrite Hr. cbn. by rewrite app_nil_r, M4, M3, E2.
          * cbn. by rewrite app_nil_r, M4, M3, E2.
        + cbn. by rewrite app_nil_r, M3, E2.
        + specialize (Hfail e h3). destruct (aa24ReadFailed e h3). cbn. by rewrite app_nil_r, Hfail, M3, E2. }
    specialize (Hd1 (or_introl eq_refl)). destruct (_ && _); [by apply Hdata|]. specialize (MC h1).
    pose proof (host_walk_read _ kinds_steps AA24LaneWorkerControl dst ltac:(done) h1 K1) as K2. pose proof (host_walk_read _ detached_steps AA24LaneWorkerControl dst ltac:(done) h1) as D2.
    destruct (lane_read AA24LaneWorkerControl dst h1) as [h2 [[r|]|e]] eqn:Er; cbn [fst] in MC, K2, D2; unfold same in MC, D2.
    + pose proof (read_control_refs r (AA23Tick now) false h2 (read_on_lane _ _ _ _ _ Er K1 Hd1 ltac:(done))) as Hc. destruct (aa24HandleControl r _ false h2) as [h3 a]. by rewrite Hc, MC, M1.
    + apply Hdata; [congruence|done|congruence].
    + specialize (Hfail e h2). destruct (aa24ReadFailed e h2). cbn. by rewrite app_nil_r, Hfail, MC, M1.
Qed.

Lemma publish_refs ref off n now h :
  let (h', e) := AA24PublishPlan ref off n now h in plan_refs h' = match e with None => plan_refs h ++ [ref] | Some _ => plan_refs h end.
Proof.
  unfold AA24PublishPlan, mbind, st_bind, look, update, mret, st_ret. pose proof (host_walk_tick _ refs_steps now h) as M1.
  destruct (aa24Tick now h) as [h1 [e|]]; cbn [fst] in M1; [exact M1|]. destruct (negb _); [exact M1|]. destruct (_ || _); [exact M1|]. destruct (_ <=? _); [exact M1|]. destruct (_ =? _); [exact M1|].
  pose proof (host_walk_write_control _ refs_steps (publish_record ref off n) h1) as M2. destruct (aa24WriteControl _ h1) as [h2 [e|]]; cbn [fst] in M2; unfold same in *; [congruence|].
  unfold plan_refs. cbn [set_plans set_plan_floor aa24Plans]. rewrite fmap_app. unfold plan_refs in *. cbn. congruence.
Qed.

(** ** The ledger of plans *)

Definition published (x : host_call * host_answer) : option AA24PlanRef :=
  match x with (HPublish ref _ _ _, BError None) => Some ref | _ => None end.
Definition retired (x : host_call * host_answer) : option AA24PlanRef := match x with (HPoll _ _, BPoll a) => retired_of a | _ => None end.

Lemma detached_do c h : aa24Detached h = true -> aa24Detached (host_do c h).1 = true.
Proof.
  assert (forall (m : ST AA24Host (option aa24_error)) (f : option aa24_error -> host_answer), aa24Detached (m h).1 = aa24Detached h -> aa24Detached h = true -> aa24Detached ((a ← m; mret (f a)) h).1 = true) as Hm.
  { intros m f E Hd. unfold mbind, st_bind. destruct (m h). cbn in *. congruence. }
  assert (retire_step (same aa24Detached)) as Hr.
  { intros ref p h1 _. assert (moves (same aa24Detached) (retire_plan ref)) as M; [|apply M]. unfold retire_plan.
    apply moves_bind; [exact _|by apply moves_update|intros _]. assert (forall leave r l, moves (same aa24Detached) (move_loop leave r l)) as Ml.
    { intros leave r l h2. pose proof (move_untouched leave r l h2) as H. by injection H. }
    moves_tac; auto; by apply moves_update. }
  intros Hd. destruct c; cbn [host_do].
  - apply Hm; [|done]. apply (host_walk_publish (same aa24Detached) detached_steps). done.
  - apply Hm; [|done]. apply (host_walk_revoke (same aa24Detached) detached_steps).
  - apply Hm; [|done]. unfold AA24SendCommand, mbind, st_bind, look, aa24Tick, mbind, st_bind, look, mret, st_ret. rewrite Hd. done.
  - unfold mbind, st_bind. pose proof (host_walk_poll _ detached_steps Hr ltac:(done) dst now h) as M. destruct (AA24Poll dst now h). cbn in *. unfold same in M. congruence.
  - apply Hm; [|done]. apply (host_walk_acknowledge_gap (same aa24Detached) detached_steps).
  - apply Hm; [|done]. apply (host_walk_request_stop (same aa24Detached) detached_steps).
  - unfold mbind, st_bind. pose proof (host_walk_resync _ detached_steps next h) as M. destruct (AA24ResyncExpected next h). cbn in *. unfold same in M. congruence.
  - unfold mbind, st_bind. pose proof (host_walk_terminated _ detached_steps h) as M. destruct (AA24ObserveWorkerTerminated h). cbn in *. unfold same in M. congruence.
  - unfold AA24Teardown, mbind, st_bind, look, mret, st_ret. by rewrite Hd.
Qed.

Lemma detached_run calls h : aa24Detached h = true -> aa24Detached (host_run calls h).1 = true.
Proof.
  revert h. induction calls as [|[mem c] rest IH]; intros h Hd; [done|]. cbn [host_run]. pose proof (detached_do c (set_wire mem (aa24Lanes h) h) Hd) as H1.
  destruct (host_do c _) as [h1 a]. cbn [fst] in H1. specialize (IH h1 H1). by destruct (host_run rest h1).
Qed.

Lemma send_refs identity payload now : moves (same plan_refs) (AA24SendCommand identity payload now).
Proof.
  assert (moves (same plan_refs) (aa24RetireExpired (AA23Tick now))) by (apply refs_untouched; unfold aa24RetireExpired; pose proof move_untouched; moves_tac; auto; by apply moves_update).
  pose proof (host_walk_tick _ refs_steps now). pose proof (host_walk_write _ refs_steps AA24LaneHostData (command_record identity payload) 0 ltac:(done)).
  pose proof (hs_close _ refs_steps AA24FenceCorruption 0 0 ltac:(done)). unfold AA24SendCommand, queue_command. moves_tac; auto; by apply moves_update.
Qed.

Lemma refs_do c h (Hk : kinds_ok h) :
  let (h', a) := host_do c h in aa24Detached h' = false ->
  plan_refs h' ++ option_list (retired (c, a)) ≡ₚ option_list (published (c, a)) ++ plan_refs h.
Proof.
  assert (forall h' a, plan_refs h' = plan_refs h -> retired (c, a) = None -> published (c, a) = None ->
    plan_refs h' ++ option_list (retired (c, a)) ≡ₚ option_list (published (c, a)) ++ plan_refs h) as Hplain by (intros h' a E -> ->; cbn; by rewrite app_nil_r, E).
  destruct c; cbn [host_do]; unfold mbind, st_bind, mret, st_ret; cbv beta.
  - pose proof (publish_refs ref arenaOffset planBytes now h) as M. destruct (AA24PublishPlan _ _ _ _ h) as [h' [e|]]; intros _; [by apply Hplain|]. cbn. rewrite app_nil_r, M. apply Permutation_app_comm.
  - pose proof (host_walk_revoke _ refs_steps ref now h) as M. destruct (AA24RevokePlan _ _ h); intros _. by apply Hplain.
  - pose proof (send_refs identity payload now h) as M. destruct (AA24SendCommand _ _ _ h); intros _. by apply Hplain.
  - pose proof (poll_refs dst now h Hk) as M. destruct (AA24Poll dst now h) as [h' a]. intros _. exact M.
  - pose proof (host_walk_acknowledge_gap _ refs_steps sequence now h) as M. destruct (AA24AcknowledgeGap _ _ h); intros _. by apply Hplain.
  - pose proof (host_walk_request_stop _ refs_steps now h) as M. destruct (AA24RequestStop _ h); intros _. by apply Hplain.
  - pose proof (host_walk_resync _ refs_steps next h) as M. destruct (AA24ResyncExpected _ h); intros _. by apply Hplain.
  - pose proof (host_walk_terminated _ refs_steps h) as M. destruct (AA24ObserveWorkerTerminated h); intros _. by apply Hplain.
  - unfold AA24Teardown, mbind, st_bind, look, update, mret, st_ret. destruct (aa24Detached h); [intros _; by apply Hplain|].
    match goal with |- context[let (s', a) := (if aa24Terminated h then _ else _) ?h0 in _] => assert (same plan_refs h ((if aa24Terminated h then (fun s => (s, true)) else aa24ControlSettled) h0).1) as M by
      (destruct (aa24Terminated h); [done|apply (host_walk_settled _ refs_steps)]) end.
    destruct (aa24Terminated h); [done|]. destruct (aa24ControlSettled h) as [h1 [|]]; cbn [fst negb] in *; [done|]. intros _. by apply Hplain.
Qed.

Lemma refs_run calls h (Hk : kinds_ok h) :
  let (h', answers) := host_run calls h in aa24Detached h' = false ->
  plan_refs h' ++ omap retired answers ≡ₚ omap published answers ++ plan_refs h.
Proof.
  revert h Hk. induction calls as [|[mem c] rest IH]; intros h Hk; [intros _; by rewrite app_nil_r|]. cbn [host_run].
  assert (kinds_ok (set_wire mem (aa24Lanes h) h)) as Hk0 by (by apply (hs_peer _ kinds_steps mem h)).
  pose proof (refs_do c _ Hk0) as Hd. pose proof (kinds_do c _ Hk0) as Hk1. destruct (host_do c _) as [h1 a]. cbn [fst] in Hk1.
  specialize (IH h1 Hk1). pose proof (detached_run rest h1) as Hmono. destruct (host_run rest h1) as [h2 answers]. cbn [fst] in Hmono. intros Hd2. specialize (IH Hd2).
  assert (aa24Detached h1 = false) as Hd1 by (destruct (aa24Detached h1); [by rewrite Hmono in Hd2|done]). specialize (Hd Hd1).
  change (plan_refs (set_wire mem (aa24Lanes h) h)) with (plan_refs h) in Hd.
  assert (omap retired ((c, a) :: answers) = option_list (retired (c, a)) ++ omap retired answers /\ omap published ((c, a) :: answers) = option_list (published (c, a)) ++ omap published answers) as [Ec Es].
  { cbn [omap list_omap]. by destruct (retired (c, a)), (published (c, a)). }
  rewrite Ec, Es. rewrite (Permutation_app_swap_app (plan_refs h2)), IH, (Permutation_app_swap_app (option_list (retired (c, a)))), <- app_assoc.
  rewrite (Permutation_app_comm (option_list (retired (c, a)))), Hd. apply Permutation_app_swap_app.
Qed.

(** C18: the quarantine of plans is exact.  Whatever the worker writes into
    the mapping between the calls: until teardown every plan whose publication
    succeeded is either still listed or was taken off by one delivered
    retirement that names exactly it, and nothing else is listed. *)
Theorem plans_stay_until_retired aligned mem e h calls (Hattach : AA24AttachHost aligned mem e = Ok h) :
  let (h', answers) := host_run calls h in aa24Detached h' = false ->
  AA24QuarantinedPlans [] h' ++ omap retired answers ≡ₚ omap published answers.
Proof.
  destruct (attached_kinds _ _ _ _ Hattach) as (Hk & _ & Hp). pose proof (refs_run calls h Hk) as Hr. destruct (host_run calls h) as [h' answers]. intros Hd. specialize (Hr Hd).
  unfold plan_refs in Hr. rewrite Hp, app_nil_r in Hr. exact Hr.
Qed.

(** ** Ordinals *)

(** What the host has accounted for: every ordinal below the next one, and
    those explained early. *)
Definition seen_ordinal (next : Z) (explained : list Z) (s : Z) : Prop := s < next \/ s ∈ explained.

Record account_ok (next : Z) (explained : list Z) : Prop := {
  ao_next : 1 <= next <= MaxUint64;
  ao_nodup : NoDup explained;
  ao_ahead s : s ∈ explained -> next <= s;
  ao_gap : next ∈ explained -> next = MaxUint64 }.

Lemma existsb_held next ex : existsb (fun held => (held =? next) && negb (held =? MaxUint64)) ex = true <-> next ∈ ex /\ next <> MaxUint64.
Proof.
  rewrite existsb_exists. split.
  - intros (s & Hs%list_elem_of_In & [E%Z.eqb_eq Hm%negb_true_iff]%andb_true_iff). subst s. apply Z.eqb_neq in Hm. done.
  - intros [Hs Hm]. exists next. split; [by apply list_elem_of_In|]. apply Z.eqb_neq in Hm. by rewrite Z.eqb_refl, Hm.
Qed.

Lemma remove_held next ex : NoDup ex -> next ∈ ex -> next <> MaxUint64 ->
  ex ≡ₚ next :: remove_first (fun held => (held =? next) && negb (held =? MaxUint64)) ex.
Proof.
  intros Hn Hs Hm. destruct (remove_first_perm _ ex (proj2 (existsb_held next ex) (conj Hs Hm))) as (a & Ha & Hp).
  apply andb_true_iff in Ha as [Ha%Z.eqb_eq _]. by subst a.
Qed.

Lemma advance_exact fuel next ex :
  (length ex <= fuel)%nat -> 1 <= next <= MaxUint64 -> NoDup ex -> (forall s, s ∈ ex -> next <= s) ->
  let (next', ex') := advance fuel next ex in account_ok next' ex' /\ forall s, seen_ordinal next' ex' s <-> seen_ordinal next ex s.
Proof.
  revert next ex. induction fuel as [|fuel IH]; intros next ex Hf Hn Hd Ha; cbn [advance].
  { destruct ex; [|cbn in Hf; lia]. split; [|done]. split; [done|done|done|]. intros H. by apply elem_of_nil in H. }
  destruct (existsb _ ex) eqn:E.
  - apply existsb_held in E as [Hs Hm]. pose proof (remove_held next ex Hd Hs Hm) as Hp. set (ex1 := remove_first _ ex) in *. clearbody ex1.
    assert (NoDup (next :: ex1)) as Hd1 by (by rewrite <- Hp). apply NoDup_cons in Hd1 as [Hni Hd1]. unfold MaxUint64 in *. rewrite wrap_small by lia.
    assert (forall s, s ∈ ex1 -> next + 1 <= s) as Ha1.
    { intros s Hs1. assert (s <> next) by (intros ->; done). assert (next <= s) by (apply Ha; rewrite Hp; by right). lia. }
    specialize (IH (next + 1) ex1). destruct (advance fuel (next + 1) ex1) as [n' e']. destruct IH as [I1 I2]; [apply Permutation_length in Hp; cbn in Hp; lia|lia|done|done|].
    split; [done|]. intros s. rewrite I2. unfold seen_ordinal. rewrite Hp, elem_of_cons. split; [intros [?|?]|intros [?|[?|?]]]; try (by right; right); try (left; lia); [|by right].
    destruct (decide (s = next)) as [->|]; [right; by left|left; lia].
  - split; [|done]. split; [done|done|done|]. intros Hs. destruct (decide (next = MaxUint64)) as [|Hm]; [done|]. by rewrite (proj2 (existsb_held next ex) (conj Hs Hm)) in E.
Qed.

Lemma account_exact room s control next ex (Hv : account_ok next ex) :
  let '((next', ex'), ok) := account room s control next ex in
  account_ok next' ex' /\
  if ok then (s < MaxUint64 -> ~ seen_ordinal next ex s /\ forall t, seen_ordinal next' ex' t <-> seen_ordinal next ex t \/ t = s)
  else next' = next /\ ex' = ex /\ (seen_ordinal next ex s \/ next < s /\ (control = false \/ len ex = room)).
Proof.
  destruct Hv as [V1 V2 V3 V4]. unfold account. destruct (Z.ltb_spec s next) as [|H1]; [split; [done|split; [done|split; [done|by left; left]]]|].
  destruct (Z.ltb_spec next s) as [H2|H2].
  - destruct (negb control || _) eqn:Ec.
    { split; [done|]. split; [done|]. split; [done|]. right. split; [done|]. apply orb_true_iff in Ec as [Ec%negb_true_iff|Ec%Z.eqb_eq]; auto. }
    destruct (existsb _ ex) eqn:E.
    { split; [done|]. split; [done|]. split; [done|]. left. right. apply existsb_exists in E as (t & Ht%list_elem_of_In & Et%Z.eqb_eq). by subst t. }
    assert (s ∉ ex) as Hns by (intros Hs; rewrite (proj2 (existsb_exists _ _)) in E; [done|]; exists s; split; [by apply list_elem_of_In|apply Z.eqb_refl]).
    split; [|intros _; split; [intros [?|?]; [lia|done]|]].
    + split; [done| | |].
      * apply NoDup_app. split; [done|]. split; [|apply NoDup_singleton]. intros x Hx Hx'%list_elem_of_singleton. by subst x.
      * intros t [Ht|Ht%list_elem_of_singleton]%elem_of_app; [by apply V3|lia].
      * intros [Ht|Ht%list_elem_of_singleton]%elem_of_app; [by apply V4|lia].
    + intros t. unfold seen_ordinal. rewrite elem_of_app, list_elem_of_singleton. tauto.
  - assert (s = next) as -> by lia. destruct (Z.eqb_spec next MaxUint64) as [E|Hm]; [split; [done|intros; lia]|].
    assert (forall t, t ∈ ex -> next + 1 <= t) as Ha. { intros t Ht. pose proof (V3 t Ht). destruct (decide (t = next)) as [->|]; [by specialize (V4 Ht)|lia]. }
    pose proof (advance_exact (length ex) (next + 1) ex ltac:(lia) ltac:(unfold MaxUint64 in *; lia) V2 Ha) as Hadv.
    destruct (advance _ _ ex) as [n' e']. destruct Hadv as [A1 A2]. split; [done|]. intros _. split; [intros [?|Ht]; [lia|by specialize (Ha next Ht); lia]|].
    intros t. rewrite A2. unfold seen_ordinal. split; [intros [?|?]; [|tauto]|intros [[?|?]| ->]; [left; lia|by right|left; lia]].
    destruct (decide (t = next)); [by right|left; left; lia].
Qed.

Definition accounted (h : AA24Host) : Prop := account_ok (aa24NextCapture h) (aa24Explained h).
Definition seen_by (h : AA24Host) (s : Z) : Prop := seen_ordinal (aa24NextCapture h) (aa24Explained h) s.

Lemma account_call s control h : accounted h ->
  let (h', ok) := aa24AccountSequence s control h in
  accounted h' /\
  if (ok : bool) then (s < MaxUint64 -> ~ seen_by h s /\ forall t, seen_by h' t <-> seen_by h t \/ t = s)
  else (forall t, seen_by h' t <-> seen_by h t) /\ (seen_by h s \/ aa24NextCapture h < s /\ (control = false \/ len (aa24Explained h) = explained_room h)).
Proof.
  intros Ha. unfold aa24AccountSequence, mbind, st_bind, look, update, mret, st_ret. pose proof (account_exact (explained_room h) s control _ _ Ha) as H.
  destruct (account _ _ _ _ _) as [[n e] ok]. destruct H as [H1 H2]. split; [exact H1|]. destruct ok; [exact H2|]. destruct H2 as (-> & -> & H2). by split.
Qed.

(** What the fence does not touch either. *)
Definition books (h : AA24Host) := (aa24NextCapture h, aa24Explained h).

Lemma linger_books identity strict at_ retired : moves (same books) (aa24Linger identity strict at_ retired).
Proof. unfold aa24Linger. moves_tac; by apply moves_update. Qed.

#[local] Hint Resolve linger_books : moves.

Lemma cancel_books horizon ids : moves (same books) (cancel_loop horizon ids).
Proof. induction ids as [|i ids IH]; cbn [cancel_loop]; moves_tac; by apply moves_update. Qed.

Lemma move_books leave retired ids : moves (same books) (move_loop leave retired ids).
Proof. induction ids as [|i ids IH]; cbn [move_loop]; unfold aa24LingerMoved; moves_tac. Qed.

#[local] Hint Resolve cancel_books move_books : moves.

Lemma close_books reason s t : moves (same books) (aa24Close reason s t).
Proof.
  unfold aa24Close. moves_tac; apply moves_update; intros h; try done.
  - by destruct (_ || _).
  - by destruct (aa24Detached h) eqn:E.
  - by destruct (_ && _).
Qed.

Lemma accounted_unmoved h h' : books h' = books h -> kept accounted h h'.
Proof. intros [= E1 E2] H. unfold accounted in *. by rewrite E1, E2. Qed.

Lemma accounted_books {A} (m : ST AA24Host A) : moves (same books) m -> moves (kept accounted) m.
Proof. intros H h. apply accounted_unmoved, H. Qed.

Lemma accounted_steps : host_steps (kept accounted).
Proof.
  split; try (intros; by apply accounted_unmoved).
  - intros reason s t _. apply accounted_books, close_books.
  - intros s control h Ha. pose proof (account_call s control h Ha) as H. destruct (aa24AccountSequence s control h). apply H.
Qed.

Lemma accounted_do c : moves (kept accounted) (host_do c).
Proof.
  assert (forall f r, moves (kept accounted) (ids ← look aa24Outstanding; kept ← move_loop f r ids; update (set_outstanding kept))) as Hm.
  { intros f r. apply accounted_books. moves_tac; by apply moves_update. }
  assert (retire_step (kept accounted)) as Hr.
  { intros ref p h _. apply (moves_bind (kept accounted)); [apply moves_update; intros h1; by apply accounted_unmoved|intros _]. apply Hm. }
  destruct c; cbn [host_do]; (apply moves_bind; [exact _| |intros ?; apply moves_ret; exact _]).
  - apply (host_walk_publish _ accounted_steps). intros r h _. by apply accounted_unmoved.
  - apply (host_walk_revoke _ accounted_steps).
  - unfold AA24SendCommand, queue_command. pose proof (host_walk_tick _ accounted_steps now). pose proof (fun f r l => accounted_books _ (move_books f r l)).
    pose proof (host_walk_write _ accounted_steps AA24LaneHostData (command_record identity payload) 0 ltac:(done)). pose proof (hs_close _ accounted_steps AA24FenceCorruption 0 0 ltac:(done)).
    unfold aa24RetireExpired. moves_tac; auto; apply moves_update; intros h; by apply (accounted_unmoved h).
  - apply (host_walk_poll _ accounted_steps Hr). split; [intros i h|intros i tail h]; by apply accounted_unmoved.
  - apply (host_walk_acknowledge_gap _ accounted_steps).
  - apply (host_walk_request_stop _ accounted_steps).
  - apply (host_walk_resync _ accounted_steps).
  - apply (host_walk_terminated _ accounted_steps).
  - apply (host_walk_teardown _ accounted_steps). intros h. by apply accounted_unmoved.
Qed.

Lemma accounted_run calls h : accounted h -> accounted (host_run calls h).1.
Proof.
  revert h. induction calls as [|[mem c] rest IH]; intros h Ha; [done|]. cbn [host_run].
  pose proof (accounted_do c (set_wire mem (aa24Lanes h) h) Ha) as H1. destruct (host_do c _) as [h1 a]. cbn [fst] in H1. specialize (IH h1 H1). by destruct (host_run rest h1).
Qed.


(** ** At the small mapping *)

Definition demo_retirement : AA24Record :=
  mkRecord24 AA24RecordAcknowledge 7 3 0 1 1 1 0 0 1 6 100 0 0 0 AA24StatusRetired x08 x00 x00 x00 0 [].
(** The worker reads the publication before the host revokes the plan. *)
Definition demo_worker_takes (kind : Z) (mem : list byte) : list byte :=
  (aa24Read demo_layout 16 mem (aa24AttachLanes demo_layout demo_limits24 true !!! lane_index kind)).1.1.
Definition demo_revoking : list (list byte * host_call) :=
  demo_publishing ++ [(demo_worker_takes AA24LaneHostControl (hMem (host_run demo_publishing demo_host_side).1), HRevoke demo_ref (mkReading 1 4))].
Definition demo_retiring : list (list byte * host_call) :=
  demo_revoking ++ [(demo_worker_writes AA24LaneWorkerControl demo_retirement (hMem (host_run demo_revoking demo_host_side).1), HPoll 16 (mkReading 1 9))].

Lemma plans_stay_until_retired_witness :
  omap retired (host_run demo_retiring demo_host_side).2 = [demo_ref] /\ aa24Detached (host_run demo_retiring demo_host_side).1 = false /\
  AA24QuarantinedPlans [] (host_run demo_retiring demo_host_side).1 ++ omap retired (host_run demo_retiring demo_host_side).2 ≡ₚ
    omap published (host_run demo_retiring demo_host_side).2.
Proof.
  assert (aa24Detached (host_run demo_retiring demo_host_side).1 = false) as Hd by (vm_compute; reflexivity).
  split; [vm_compute; reflexivity|]. split; [exact Hd|].
  pose proof (plans_stay_until_retired true demo_mapping demo_expected demo_host_side demo_retiring demo_host_attached) as H.
  rewrite (surjective_pairing (host_run _ _)) in H. exact (H Hd).
Defined.

