(* ===== verification/EngineTypes.v ===== *)
(** src/localworker/aa25_engine.go, the vocabulary of the bit-level engine:
    levels, events, prepared responses and the exact rational schedule.

    Ticks, sample indices and bit counts are unsigned 64-bit integers; a product
    of two of them keeps its high word, as [bits.Mul64] and [bits.Div64] do. *)

From S2P Require Import Prelude Errors Wire.
#[local] Open Scope list_scope.
#[local] Open Scope Z_scope.

Definition AA25NominalBaud : Z := 2400.
Definition AA25NominalSampleRate : Z := 24000.
Definition aa25SamplesPerBit : Z := 10.
Definition aa25BitsPerCharacter : Z := 10.
Definition aa25SamplesPerCharacter : Z := aa25SamplesPerBit * aa25BitsPerCharacter.
Definition aa25CentralFirst : Z := 4.
Definition aa25CentralLast : Z := 6.
Definition aa25StopCentralLast : Z := aa25SamplesPerBit * (aa25BitsPerCharacter - 1) + aa25CentralLast.
Definition aa25FinalOffset : Z := aa25SamplesPerCharacter - 1.
Definition aa25ResyncIdleSamples : Z := aa25SamplesPerCharacter.
Definition aa25MaxPreparedPayload : Z := 16.
Definition aa25MaxPreparedWire : Z := 1 + 2 * (1 + aa25MaxPreparedPayload + 1).
Definition aa25ControlCapacity : Z := 4.
Definition aa25MaxRequestNN : byte := x10.
Definition aa25SymbolEscape : byte := xa9.
Definition aa25SymbolSyn : byte := xaa.
Definition aa25AddressBroadcast : byte := xfe.
Definition aa25EscapedEscape : byte := x00.
Definition aa25EscapedSyn : byte := x01.
Definition aa25SymbolAck : byte := x00.
Definition aa25SymbolNack : byte := xff.
Definition aa25CRCPolynomial : byte := x9b.

Definition MaxTick : Z := 2 ^ 64 - 1.

Inductive AA25Level := AA25LevelLow | AA25LevelHigh.

#[export] Instance level_eq_dec : EqDecision AA25Level.
Proof. solve_decision. Defined.

(** A level of the type is 1 when it is high. *)
Definition level_of (high : bool) : AA25Level := if high then AA25LevelHigh else AA25LevelLow.
Definition is_high (level : AA25Level) : bool := bool_decide (level = AA25LevelHigh).

Record AA25Config := mkEngineConfig {
  AA25TickHz : Z; AA25ResponderAddress : byte; AA25TurnaroundTicks : Z; AA25TXLateToleranceTicks : Z; AA25EchoAllowanceTicks : Z }.

Inductive AA25EventKind :=
| AA25EventRawSymbol | AA25EventLogicalByte | AA25EventGap | AA25EventFault | AA25EventProvisional | AA25EventFrameValid
| AA25EventAdmitted | AA25EventTXIntent | AA25EventTXRelease | AA25EventTXComplete | AA25EventLoss.

#[export] Instance event_kind_eq_dec : EqDecision AA25EventKind.
Proof. solve_decision. Defined.

Inductive AA25Fault :=
| AA25FaultNone | AA25FaultFalseStart | AA25FaultBadStop | AA25FaultEscapeInvalid | AA25FaultSynInFrame | AA25FaultAddressInvalid
| AA25FaultBadCRC | AA25FaultTickRegression | AA25FaultStaleGeneration | AA25FaultRXBeforeResponse | AA25FaultEchoMismatch
| AA25FaultEchoMissing | AA25FaultEchoUnsolicited | AA25FaultTXLate | AA25FaultLengthInvalid | AA25FaultNackExhausted.

#[export] Instance fault_eq_dec : EqDecision AA25Fault.
Proof. solve_decision. Defined.

Record AA25Event := mkEvent {
  AA25Kind : AA25EventKind; eFault : AA25Fault; AA25Tick : Z; AA25SampleIndex : Z; AA25StartTick : Z; AA25Deadline : Z; AA25Missed : Z;
  eGeneration : Z; AA25Raw : byte; AA25Logical : byte; AA25WasEscaped : bool; AA25Echo : bool; eLevel : AA25Level; AA25Dissent : Z;
  AA25EdgePhase : list Z }.

#[export] Instance byte_inhabited : Inhabited byte := populate x00.

Definition zero_phase : list Z := replicate 10 0.

(** An event that leaves what it does not name at zero. *)
Definition plain_event (kind : AA25EventKind) (fault : AA25Fault) (tick start deadline missed generation : Z) (level : AA25Level) : AA25Event :=
  mkEvent kind fault tick start 0 deadline missed generation x00 x00 false false level 0 zero_phase.

Record AA25Stats := mkEngineStats {
  AA25Observations : Z; AA25MissedSamples : Z; AA25MaxObservationLate : Z; AA25TXEdges : Z; AA25EchoedSymbols : Z; AA25EventsDropped : Z;
  AA25ControlsApplied : Z; AA25Withdrawals : Z }.

Definition zero_engine_stats : AA25Stats := mkEngineStats 0 0 0 0 0 0 0 0.

(** ** Prepared responses *)

Record AA25Prepared := mkPrepared {
  AA25Generation : Z; AA25MatchPB : byte; AA25MatchSB : byte; AA25MatchNN : byte; aa25Wire : list byte; aa25WireLen : Z }.

Definition zero_prepared : AA25Prepared := mkPrepared 0 x00 x00 x00 (replicate 37 x00) 0.

Inductive aa25_error := AA25ErrInvalidConfig | AA25ErrMissingPort | AA25ErrInvalidResponse.

Definition crc25_bit (crc : byte) : byte :=
  if negb (band crc x80 =b x00) then bxor (bshl crc 1) aa25CRCPolynomial else bshl crc 1.

Definition aa25CRCUpdate (crc symbol : byte) : byte := bxor (Nat.iter 8 crc25_bit crc) symbol.

Definition aa25AppendRaw (symbol : byte) (p : AA25Prepared) : AA25Prepared :=
  mkPrepared (AA25Generation p) (AA25MatchPB p) (AA25MatchSB p) (AA25MatchNN p) (<[Z.to_nat (aa25WireLen p) := symbol]> (aa25Wire p))
    (wrap 8 (aa25WireLen p + 1)).

Definition aa25AppendLogical (value crc : byte) (p : AA25Prepared) : AA25Prepared * byte :=
  if value =b aa25SymbolEscape
  then (aa25AppendRaw aa25EscapedEscape (aa25AppendRaw aa25SymbolEscape p), aa25CRCUpdate (aa25CRCUpdate crc aa25SymbolEscape) aa25EscapedEscape)
  else if value =b aa25SymbolSyn
  then (aa25AppendRaw aa25EscapedSyn (aa25AppendRaw aa25SymbolEscape p), aa25CRCUpdate (aa25CRCUpdate crc aa25SymbolEscape) aa25EscapedSyn)
  else (aa25AppendRaw value p, aa25CRCUpdate crc value).

Definition append_payload (payload : list byte) (p : AA25Prepared * byte) : AA25Prepared * byte :=
  foldl (fun p value => aa25AppendLogical value p.2 p.1) p payload.

Definition AA25PrepareResponse (generation : Z) (pb sb nn : byte) (payload : list byte) : result aa25_error AA25Prepared :=
  if (generation =? 0) || (aa25MaxPreparedPayload <? len payload) then Err AA25ErrInvalidResponse
  else
    let p := mkPrepared generation pb sb nn (replicate 37 x00) 0 in
    let p := aa25AppendRaw aa25SymbolAck p in
    let p := aa25AppendLogical (b8 (len payload)) x00 p in
    let p := append_payload payload p in
    Ok (aa25AppendLogical p.2 p.2 p.1).1.

(** ** The rational schedule *)

Definition aa25RationalAt (index num den : Z) : Z * Z :=
  let product := index * num in
  if den <=? product / 2 ^ 64 then (MaxTick, 0) else (product / den, product mod den).

Definition aa25RationalDeadline (anchor index num den : Z) : Z :=
  let (whole, remainder) := aa25RationalAt index num den in
  let whole := if negb (remainder =? 0) then wrap 64 (whole + 1) else whole in
  wrap 64 (anchor + whole).

(** [bits.Add64] without a carry in: the sum and whether it carries. *)
Definition add64 (x y : Z) : Z * bool := (wrap 64 (x + y), 2 ^ 64 <=? x + y).

Definition aa25ScheduleReserve (c : AA25Config) : Z * bool :=
  let horizon := aa25RationalDeadline 0 ((1 + aa25MaxPreparedWire) * aa25BitsPerCharacter) (AA25TickHz c) AA25NominalBaud in
  let (sum, carryTurnaround) := add64 horizon (AA25TurnaroundTicks c) in
  let (sum, carryEcho) := add64 sum (AA25EchoAllowanceTicks c) in
  let (sum, carryLate) := add64 sum (AA25TXLateToleranceTicks c) in
  (sum, negb (carryTurnaround || carryEcho || carryLate)).

Definition aa25ScheduleFits (reserve anchor : Z) : bool := anchor <=? wrap 64 (MaxTick - reserve).

(** ** Addresses *)

Definition aa25InitiatorNibble (n : byte) : bool := (n =b x00) || (n =b x01) || (n =b x03) || (n =b x07) || (n =b x0f).
Definition aa25InitiatorAddress (a : byte) : bool := aa25InitiatorNibble (band a x0f) && aa25InitiatorNibble (bshr a 4).
