(* ===== verification/Engine.v ===== *)
(** src/localworker/aa25_engine.go, the state of the engine, and the ports it is
    driven through.

    The fields of [AA25Engine] are grouped: the sample schedule, the character
    being received, the frame around it, the prepared responses and the
    response being sent.  Each group has assignments to its fields.

    Then the methods of the engine, one definition each. *)

From S2P Require Import Prelude Calls EngineTypes.
#[local] Open Scope list_scope.
#[local] Open Scope Z_scope.

Record aa25Sampling := mkSampling {
  aa25SampleAnchor : Z; aa25NextSample : Z; aa25NextDeadline : Z; aa25LastNow : Z; aa25TickRegressing : bool }.
Definition set_next_sample (v0 : Z) (v1 : Z) (s : aa25Sampling) : aa25Sampling :=
  mkSampling (aa25SampleAnchor s) v0 v1 (aa25LastNow s) (aa25TickRegressing s).
Definition set_last_now (v : Z) (s : aa25Sampling) : aa25Sampling :=
  mkSampling (aa25SampleAnchor s) (aa25NextSample s) (aa25NextDeadline s) v (aa25TickRegressing s).
Definition set_regressing (v : bool) (s : aa25Sampling) : aa25Sampling :=
  mkSampling (aa25SampleAnchor s) (aa25NextSample s) (aa25NextDeadline s) (aa25LastNow s) v.

Inductive aa25RXState_ := aa25RXResync | aa25RXHunt | aa25RXCharacter | aa25RXStopTail.

#[export] Instance rx_state_eq_dec : EqDecision aa25RXState_.
Proof. solve_decision. Defined.

Record aa25Character := mkCharacter {
  aa25RXState : aa25RXState_; aa25PreviousLevel : AA25Level; aa25IdleRun : Z; aa25CharStartIndex : Z; aa25CharStartTick : Z; aa25CharEcho
  : bool; aa25CharLevel : AA25Level; aa25CharHighVotes : Z; aa25CharDissent : Z; aa25CharShift : byte; aa25CharEdgePhase : list Z;
  aa25FinalComplete : bool }.
Definition set_rx (v : aa25RXState_) (c : aa25Character) : aa25Character :=
  mkCharacter v (aa25PreviousLevel c) (aa25IdleRun c) (aa25CharStartIndex c) (aa25CharStartTick c) (aa25CharEcho c) (aa25CharLevel c)
    (aa25CharHighVotes c) (aa25CharDissent c) (aa25CharShift c) (aa25CharEdgePhase c) (aa25FinalComplete c).
Definition set_previous (v : AA25Level) (c : aa25Character) : aa25Character :=
  mkCharacter (aa25RXState c) v (aa25IdleRun c) (aa25CharStartIndex c) (aa25CharStartTick c) (aa25CharEcho c) (aa25CharLevel c)
    (aa25CharHighVotes c) (aa25CharDissent c) (aa25CharShift c) (aa25CharEdgePhase c) (aa25FinalComplete c).
Definition set_idle_run (v : Z) (c : aa25Character) : aa25Character :=
  mkCharacter (aa25RXState c) (aa25PreviousLevel c) v (aa25CharStartIndex c) (aa25CharStartTick c) (aa25CharEcho c) (aa25CharLevel c)
    (aa25CharHighVotes c) (aa25CharDissent c) (aa25CharShift c) (aa25CharEdgePhase c) (aa25FinalComplete c).
Definition set_char_echo (v : bool) (c : aa25Character) : aa25Character :=
  mkCharacter (aa25RXState c) (aa25PreviousLevel c) (aa25IdleRun c) (aa25CharStartIndex c) (aa25CharStartTick c) v (aa25CharLevel c)
    (aa25CharHighVotes c) (aa25CharDissent c) (aa25CharShift c) (aa25CharEdgePhase c) (aa25FinalComplete c).
Definition set_edge (v0 : AA25Level) (v1 : list Z) (c : aa25Character) : aa25Character :=
  mkCharacter (aa25RXState c) (aa25PreviousLevel c) (aa25IdleRun c) (aa25CharStartIndex c) (aa25CharStartTick c) (aa25CharEcho c) v0
    (aa25CharHighVotes c) (aa25CharDissent c) (aa25CharShift c) v1 (aa25FinalComplete c).
Definition set_votes (v : Z) (c : aa25Character) : aa25Character :=
  mkCharacter (aa25RXState c) (aa25PreviousLevel c) (aa25IdleRun c) (aa25CharStartIndex c) (aa25CharStartTick c) (aa25CharEcho c)
    (aa25CharLevel c) v (aa25CharDissent c) (aa25CharShift c) (aa25CharEdgePhase c) (aa25FinalComplete c).
Definition set_dissent (v : Z) (c : aa25Character) : aa25Character :=
  mkCharacter (aa25RXState c) (aa25PreviousLevel c) (aa25IdleRun c) (aa25CharStartIndex c) (aa25CharStartTick c) (aa25CharEcho c)
    (aa25CharLevel c) (aa25CharHighVotes c) v (aa25CharShift c) (aa25CharEdgePhase c) (aa25FinalComplete c).
Definition set_shift (v : byte) (c : aa25Character) : aa25Character :=
  mkCharacter (aa25RXState c) (aa25PreviousLevel c) (aa25IdleRun c) (aa25CharStartIndex c) (aa25CharStartTick c) (aa25CharEcho c)
    (aa25CharLevel c) (aa25CharHighVotes c) (aa25CharDissent c) v (aa25CharEdgePhase c) (aa25FinalComplete c).
Definition set_final (v : bool) (c : aa25Character) : aa25Character :=
  mkCharacter (aa25RXState c) (aa25PreviousLevel c) (aa25IdleRun c) (aa25CharStartIndex c) (aa25CharStartTick c) (aa25CharEcho c)
    (aa25CharLevel c) (aa25CharHighVotes c) (aa25CharDissent c) (aa25CharShift c) (aa25CharEdgePhase c) v.

Inductive aa25FramePhase_ :=
| aa25FrameUnsynced | aa25FrameSource_ | aa25FrameTarget | aa25FramePB_ | aa25FrameSB_ | aa25FrameNN_ | aa25FrameData | aa25FrameCRC_ | aa25FrameTrailing.

#[export] Instance frame_phase_eq_dec : EqDecision aa25FramePhase_.
Proof. solve_decision. Defined.

Record aa25Frame := mkFrameState {
  aa25FramePhase : aa25FramePhase_; aa25EscapePending : bool; aa25FrameCRC : byte; aa25FrameSource : byte; aa25FramePB : byte; aa25FrameSB
  : byte; aa25FrameNN : byte; aa25FrameLeft : byte }.
Definition set_phase (v : aa25FramePhase_) (f : aa25Frame) : aa25Frame :=
  mkFrameState v (aa25EscapePending f) (aa25FrameCRC f) (aa25FrameSource f) (aa25FramePB f) (aa25FrameSB f) (aa25FrameNN f)
    (aa25FrameLeft f).
Definition set_escape (v : bool) (f : aa25Frame) : aa25Frame :=
  mkFrameState (aa25FramePhase f) v (aa25FrameCRC f) (aa25FrameSource f) (aa25FramePB f) (aa25FrameSB f) (aa25FrameNN f)
    (aa25FrameLeft f).
Definition set_crc (v : byte) (f : aa25Frame) : aa25Frame :=
  mkFrameState (aa25FramePhase f) (aa25EscapePending f) v (aa25FrameSource f) (aa25FramePB f) (aa25FrameSB f) (aa25FrameNN f)
    (aa25FrameLeft f).
Definition set_source (v : byte) (f : aa25Frame) : aa25Frame :=
  mkFrameState (aa25FramePhase f) (aa25EscapePending f) (aa25FrameCRC f) v (aa25FramePB f) (aa25FrameSB f) (aa25FrameNN f)
    (aa25FrameLeft f).
Definition set_pb (v : byte) (f : aa25Frame) : aa25Frame :=
  mkFrameState (aa25FramePhase f) (aa25EscapePending f) (aa25FrameCRC f) (aa25FrameSource f) v (aa25FrameSB f) (aa25FrameNN f)
    (aa25FrameLeft f).
Definition set_sb (v : byte) (f : aa25Frame) : aa25Frame :=
  mkFrameState (aa25FramePhase f) (aa25EscapePending f) (aa25FrameCRC f) (aa25FrameSource f) (aa25FramePB f) v (aa25FrameNN f)
    (aa25FrameLeft f).
Definition set_nn (v : byte) (f : aa25Frame) : aa25Frame :=
  mkFrameState (aa25FramePhase f) (aa25EscapePending f) (aa25FrameCRC f) (aa25FrameSource f) (aa25FramePB f) (aa25FrameSB f) v
    (aa25FrameLeft f).
Definition set_left (v : byte) (f : aa25Frame) : aa25Frame :=
  mkFrameState (aa25FramePhase f) (aa25EscapePending f) (aa25FrameCRC f) (aa25FrameSource f) (aa25FramePB f) (aa25FrameSB f)
    (aa25FrameNN f) v.

Record aa25Admission := mkAdmission {
  aa25Slot : AA25Prepared; aa25SlotValid : bool; aa25Pinned : AA25Prepared; aa25PinnedValid : bool; aa25LastGeneration : Z }.
Definition set_slot (v0 : AA25Prepared) (v1 : bool) (v2 : Z) (a : aa25Admission) : aa25Admission :=
  mkAdmission v0 v1 (aa25Pinned a) (aa25PinnedValid a) v2.
Definition set_slot_valid (v : bool) (a : aa25Admission) : aa25Admission :=
  mkAdmission (aa25Slot a) v (aa25Pinned a) (aa25PinnedValid a) (aa25LastGeneration a).
Definition set_pinned (v0 : AA25Prepared) (v1 : bool) (a : aa25Admission) : aa25Admission :=
  mkAdmission (aa25Slot a) (aa25SlotValid a) v0 v1 (aa25LastGeneration a).
Definition set_pinned_valid (v : bool) (a : aa25Admission) : aa25Admission :=
  mkAdmission (aa25Slot a) (aa25SlotValid a) (aa25Pinned a) v (aa25LastGeneration a).

Inductive aa25TXState_ := aa25TXIdle | aa25TXWaiting | aa25TXActive | aa25TXAwaitAck.

#[export] Instance tx_state_eq_dec : EqDecision aa25TXState_.
Proof. solve_decision. Defined.

Record aa25Transmit := mkTransmit {
  aa25TXState : aa25TXState_; aa25TXAnchor : Z; aa25TXBit : Z; aa25TXBase : Z; aa25TXRetried : bool; aa25RetryCancel : bool; aa25AckSince
  : Z; aa25TXLevel : AA25Level; aa25EchoIndex : Z }.
Definition set_tx_state (v : aa25TXState_) (t : aa25Transmit) : aa25Transmit :=
  mkTransmit v (aa25TXAnchor t) (aa25TXBit t) (aa25TXBase t) (aa25TXRetried t) (aa25RetryCancel t) (aa25AckSince t) (aa25TXLevel t)
    (aa25EchoIndex t).
Definition set_tx_bit (v : Z) (t : aa25Transmit) : aa25Transmit :=
  mkTransmit (aa25TXState t) (aa25TXAnchor t) v (aa25TXBase t) (aa25TXRetried t) (aa25RetryCancel t) (aa25AckSince t) (aa25TXLevel t)
    (aa25EchoIndex t).
Definition set_retry_cancel (v : bool) (t : aa25Transmit) : aa25Transmit :=
  mkTransmit (aa25TXState t) (aa25TXAnchor t) (aa25TXBit t) (aa25TXBase t) (aa25TXRetried t) v (aa25AckSince t) (aa25TXLevel t)
    (aa25EchoIndex t).
Definition set_ack_since (v : Z) (t : aa25Transmit) : aa25Transmit :=
  mkTransmit (aa25TXState t) (aa25TXAnchor t) (aa25TXBit t) (aa25TXBase t) (aa25TXRetried t) (aa25RetryCancel t) v (aa25TXLevel t)
    (aa25EchoIndex t).
Definition set_level (v : AA25Level) (t : aa25Transmit) : aa25Transmit :=
  mkTransmit (aa25TXState t) (aa25TXAnchor t) (aa25TXBit t) (aa25TXBase t) (aa25TXRetried t) (aa25RetryCancel t) (aa25AckSince t) v
    (aa25EchoIndex t).
Definition set_echo_index (v : Z) (t : aa25Transmit) : aa25Transmit :=
  mkTransmit (aa25TXState t) (aa25TXAnchor t) (aa25TXBit t) (aa25TXBase t) (aa25TXRetried t) (aa25RetryCancel t) (aa25AckSince t)
    (aa25TXLevel t) v.

Inductive aa25Control := aa25ControlNone | aa25ControlOffer (p : AA25Prepared) | aa25ControlWithdraw.

Record AA25Engine := mkEngine {
  aa25Config : AA25Config; aa25Stats : AA25Stats; aa25ReserveTicks : Z; sampling : aa25Sampling; character : aa25Character; frame :
  aa25Frame; admission : aa25Admission; transmit : aa25Transmit; aa25LossPending : bool; aa25LossApplied : bool; aa25Controls : list
  aa25Control; aa25ControlHead : Z; aa25ControlCount : Z }.
Definition with_stats (v : AA25Stats) (e : AA25Engine) : AA25Engine :=
  mkEngine (aa25Config e) v (aa25ReserveTicks e) (sampling e) (character e) (frame e) (admission e) (transmit e) (aa25LossPending e)
    (aa25LossApplied e) (aa25Controls e) (aa25ControlHead e) (aa25ControlCount e).
Definition with_sampling (v : aa25Sampling) (e : AA25Engine) : AA25Engine :=
  mkEngine (aa25Config e) (aa25Stats e) (aa25ReserveTicks e) v (character e) (frame e) (admission e) (transmit e) (aa25LossPending e)
    (aa25LossApplied e) (aa25Controls e) (aa25ControlHead e) (aa25ControlCount e).
Definition with_character (v : aa25Character) (e : AA25Engine) : AA25Engine :=
  mkEngine (aa25Config e) (aa25Stats e) (aa25ReserveTicks e) (sampling e) v (frame e) (admission e) (transmit e) (aa25LossPending e)
    (aa25LossApplied e) (aa25Controls e) (aa25ControlHead e) (aa25ControlCount e).
Definition with_frame (v : aa25Frame) (e : AA25Engine) : AA25Engine :=
  mkEngine (aa25Config e) (aa25Stats e) (aa25ReserveTicks e) (sampling e) (character e) v (admission e) (transmit e) (aa25LossPending e)
    (aa25LossApplied e) (aa25Controls e) (aa25ControlHead e) (aa25ControlCount e).
Definition with_admission (v : aa25Admission) (e : AA25Engine) : AA25Engine :=
  mkEngine (aa25Config e) (aa25Stats e) (aa25ReserveTicks e) (sampling e) (character e) (frame e) v (transmit e) (aa25LossPending e)
    (aa25LossApplied e) (aa25Controls e) (aa25ControlHead e) (aa25ControlCount e).
Definition with_transmit (v : aa25Transmit) (e : AA25Engine) : AA25Engine :=
  mkEngine (aa25Config e) (aa25Stats e) (aa25ReserveTicks e) (sampling e) (character e) (frame e) (admission e) v (aa25LossPending e)
    (aa25LossApplied e) (aa25Controls e) (aa25ControlHead e) (aa25ControlCount e).
Definition with_loss (v0 : bool) (v1 : bool) (e : AA25Engine) : AA25Engine :=
  mkEngine (aa25Config e) (aa25Stats e) (aa25ReserveTicks e) (sampling e) (character e) (frame e) (admission e) (transmit e) v0 v1
    (aa25Controls e) (aa25ControlHead e) (aa25ControlCount e).
Definition with_controls (v0 : list aa25Control) (v1 : Z) (v2 : Z) (e : AA25Engine) : AA25Engine :=
  mkEngine (aa25Config e) (aa25Stats e) (aa25ReserveTicks e) (sampling e) (character e) (frame e) (admission e) (transmit e)
    (aa25LossPending e) (aa25LossApplied e) v0 v1 v2.

Definition start_character : aa25Character :=
  mkCharacter aa25RXResync AA25LevelHigh 0 0 0 false AA25LevelHigh 0 0 x00 zero_phase false.
Definition start_frame : aa25Frame := mkFrameState aa25FrameUnsynced false x00 x00 x00 x00 x00 x00.
Definition start_admission : aa25Admission := mkAdmission zero_prepared false zero_prepared false 0.
Definition start_transmit : aa25Transmit := mkTransmit aa25TXIdle 0 0 0 false false 0 AA25LevelHigh 0.

(** ** Ports *)

(** What is outside the engine, with the four ports as methods. *)
Class EnginePorts (W : Type) := {
  AA25NowTicks : W -> W * Z;
  AA25SampleLevel : W -> W * AA25Level;
  AA25WriteEdge : AA25Level -> W -> W;
  AA25TryPublish : AA25Event -> W -> W * bool }.

(** An engine with what is around it. *)
Record machine (W : Type) := mkMachine { eng : AA25Engine; world : W }.
Arguments mkMachine {W}.
Arguments eng {W}.
Arguments world {W}.

Section ports.
Context {W : Type} `{EnginePorts W}.

Definition got {A} (f : AA25Engine -> A) : ST (machine W) A := look (fun m => f (eng m)).
Definition change (f : AA25Engine -> AA25Engine) : ST (machine W) unit := update (fun m => mkMachine (f (eng m)) (world m)).
Definition on_character (f : aa25Character -> aa25Character) : ST (machine W) unit := change (fun e => with_character (f (character e)) e).
Definition on_frame (f : aa25Frame -> aa25Frame) : ST (machine W) unit := change (fun e => with_frame (f (frame e)) e).
Definition on_admission (f : aa25Admission -> aa25Admission) : ST (machine W) unit := change (fun e => with_admission (f (admission e)) e).
Definition on_transmit (f : aa25Transmit -> aa25Transmit) : ST (machine W) unit := change (fun e => with_transmit (f (transmit e)) e).
Definition on_sampling (f : aa25Sampling -> aa25Sampling) : ST (machine W) unit := change (fun e => with_sampling (f (sampling e)) e).
Definition on_stats (f : AA25Stats -> AA25Stats) : ST (machine W) unit := change (fun e => with_stats (f (aa25Stats e)) e).

Definition now_ticks : ST (machine W) Z := fun m => let (w, t) := AA25NowTicks (world m) in (mkMachine (eng m) w, t).
Definition sample_level : ST (machine W) AA25Level := fun m => let (w, l) := AA25SampleLevel (world m) in (mkMachine (eng m) w, l).
Definition write_edge (level : AA25Level) : ST (machine W) unit := update (fun m => mkMachine (eng m) (AA25WriteEdge level (world m))).
Definition try_publish (event : AA25Event) : ST (machine W) bool :=
  fun m => let (w, accepted) := AA25TryPublish event (world m) in (mkMachine (eng m) w, accepted).
End ports.

(** * The engine

    src/localworker/aa25_engine.go, the engine: one definition per method.

    A method is a computation on the engine and what is around it.  Indices into
    the arrays of a prepared response are within them (EngineSafety.v). *)

(** ** Counters *)

Definition count_observation (late : Z) (s : AA25Stats) : AA25Stats :=
  mkEngineStats (wrap 64 (AA25Observations s + 1)) (AA25MissedSamples s)
    (if AA25MaxObservationLate s <? late then late else AA25MaxObservationLate s)
    (AA25TXEdges s) (AA25EchoedSymbols s) (AA25EventsDropped s) (AA25ControlsApplied s) (AA25Withdrawals s).
Definition count_missed (missed : Z) (s : AA25Stats) : AA25Stats :=
  mkEngineStats (AA25Observations s) (wrap 64 (AA25MissedSamples s + missed)) (AA25MaxObservationLate s)
    (AA25TXEdges s) (AA25EchoedSymbols s) (AA25EventsDropped s) (AA25ControlsApplied s) (AA25Withdrawals s).
Definition count_edge (s : AA25Stats) : AA25Stats :=
  mkEngineStats (AA25Observations s) (AA25MissedSamples s) (AA25MaxObservationLate s)
    (wrap 64 (AA25TXEdges s + 1)) (AA25EchoedSymbols s) (AA25EventsDropped s) (AA25ControlsApplied s) (AA25Withdrawals s).
Definition count_echoed (s : AA25Stats) : AA25Stats :=
  mkEngineStats (AA25Observations s) (AA25MissedSamples s) (AA25MaxObservationLate s)
    (AA25TXEdges s) (wrap 64 (AA25EchoedSymbols s + 1)) (AA25EventsDropped s) (AA25ControlsApplied s) (AA25Withdrawals s).
Definition count_dropped (s : AA25Stats) : AA25Stats :=
  mkEngineStats (AA25Observations s) (AA25MissedSamples s) (AA25MaxObservationLate s)
    (AA25TXEdges s) (AA25EchoedSymbols s) (wrap 64 (AA25EventsDropped s + 1)) (AA25ControlsApplied s) (AA25Withdrawals s).
Definition count_control (s : AA25Stats) : AA25Stats :=
  mkEngineStats (AA25Observations s) (AA25MissedSamples s) (AA25MaxObservationLate s)
    (AA25TXEdges s) (AA25EchoedSymbols s) (AA25EventsDropped s) (wrap 64 (AA25ControlsApplied s + 1)) (AA25Withdrawals s).
Definition count_withdrawal (s : AA25Stats) : AA25Stats :=
  mkEngineStats (AA25Observations s) (AA25MissedSamples s) (AA25MaxObservationLate s)
    (AA25TXEdges s) (AA25EchoedSymbols s) (AA25EventsDropped s) (AA25ControlsApplied s) (wrap 64 (AA25Withdrawals s + 1)).

(** ** Schedules *)

Definition aa25SampleDeadline (index : Z) (e : AA25Engine) : Z :=
  aa25RationalDeadline (aa25SampleAnchor (sampling e)) index (AA25TickHz (aa25Config e)) AA25NominalSampleRate.

(** A deadline of a response depends on the configuration and on the response;
    the methods take both from the engine. *)
Definition tx_deadline (c : AA25Config) (t : aa25Transmit) (bit : Z) : Z :=
  aa25RationalDeadline (wrap 64 (aa25TXAnchor t + AA25TurnaroundTicks c)) (wrap 64 (aa25BitsPerCharacter + bit - aa25TXBase t))
    (AA25TickHz c) AA25NominalBaud.
Definition aa25TXDeadline (bit : Z) (e : AA25Engine) : Z := tx_deadline (aa25Config e) (transmit e) bit.

Definition echo_deadline (c : AA25Config) (t : aa25Transmit) : Z :=
  wrap 64 (tx_deadline c t (wrap 64 ((aa25EchoIndex t + 1) * aa25BitsPerCharacter)) + AA25EchoAllowanceTicks c).
Definition aa25EchoDeadline (e : AA25Engine) : Z := echo_deadline (aa25Config e) (transmit e).

Definition ack_deadline (c : AA25Config) (t : aa25Transmit) : Z :=
  let allowance := AA25TickHz c / 5 in
  if wrap 64 (MaxTick - allowance) <? aa25AckSince t then MaxTick else wrap 64 (aa25AckSince t + allowance).
Definition aa25AckDeadline (e : AA25Engine) : Z := ack_deadline (aa25Config e) (transmit e).

(** A symbol of the pinned response, and one bit of a response as 8N1 framing
    sends it: start bit, data bits, stop bit. *)
Definition pinned_symbol (index : Z) (e : AA25Engine) : byte := aa25Wire (aa25Pinned (admission e)) !!! Z.to_nat index.
Definition pinned_length (e : AA25Engine) : Z := aa25WireLen (aa25Pinned (admission e)).

Definition bit_level (p : AA25Prepared) (bit : Z) : AA25Level :=
  let position := bit mod aa25BitsPerCharacter in
  if position =? 0 then AA25LevelLow
  else if position =? aa25BitsPerCharacter - 1 then AA25LevelHigh
  else level_of (Z.testbit (u8 (aa25Wire p !!! Z.to_nat (bit / aa25BitsPerCharacter))) (position - 1)).
Definition aa25TXBitLevel (bit : Z) (e : AA25Engine) : AA25Level := bit_level (aa25Pinned (admission e)) bit.

Definition AA25NextDeadlineTick (e : AA25Engine) : Z :=
  let next := aa25NextDeadline (sampling e) in
  let t := transmit e in
  let earlier candidate next := if candidate <? next then candidate else next in
  match aa25TXState t with
  | aa25TXIdle => next
  | aa25TXAwaitAck => earlier (aa25AckDeadline e) next
  | _ =>
      let length := pinned_length e in
      let next :=
        if (aa25TXBit t <? length * aa25BitsPerCharacter) || (aa25EchoIndex t =? length) then earlier (aa25TXDeadline (aa25TXBit t) e) next else next in
      if bool_decide (aa25TXState t = aa25TXActive) && (aa25EchoIndex t <? length) then earlier (aa25EchoDeadline e) next else next
  end.

Section engine.
Context {W : Type} `{EnginePorts W}.
#[local] Notation M := (ST (machine W)).

(** ** Events *)

Definition aa25Publish (event : AA25Event) : M unit :=
  accepted ← try_publish event;
  only_if (negb accepted) (on_stats count_dropped;; change (fun e => with_loss true (aa25LossApplied e) e)).

Definition aa25PublishFault (fault : AA25Fault) (now : Z) : M unit :=
  aa25Publish (plain_event AA25EventFault fault now 0 0 0 0 AA25LevelLow).

(** ** Giving up *)

Definition aa25StartFrame : M unit :=
  on_frame (fun f => set_crc x00 (set_escape false (set_phase aa25FrameSource_ f)));;
  sending ← got (fun e => negb (bool_decide (aa25TXState (transmit e) = aa25TXIdle)));
  on_admission (set_pinned_valid sending).

Definition aa25DropFrame : M unit :=
  on_frame (fun f => set_escape false (set_phase aa25FrameUnsynced f));;
  sending ← got (fun e => negb (bool_decide (aa25TXState (transmit e) = aa25TXIdle)));
  on_admission (set_pinned_valid sending).

Definition aa25AbortTX (now : Z) : M unit :=
  idle ← got (fun e => bool_decide (aa25TXState (transmit e) = aa25TXIdle));
  only_if (negb idle) (
    on_transmit (set_tx_state aa25TXIdle);;
    on_admission (set_pinned_valid false);;
    low ← got (fun e => bool_decide (aa25TXLevel (transmit e) = AA25LevelLow));
    only_if low (
      write_edge AA25LevelHigh;;
      on_transmit (set_level AA25LevelHigh);;
      on_stats count_edge;;
      aa25Publish (plain_event AA25EventTXRelease AA25FaultNone now 0 0 0 0 AA25LevelHigh))).

Definition aa25InvalidateReception (now : Z) : M unit :=
  aa25AbortTX now;; aa25DropFrame;; on_character (fun c => set_final false (set_idle_run 0 (set_rx aa25RXResync c))).

Definition aa25WithdrawAdmission : M unit :=
  on_admission (fun a => set_pinned_valid false (set_slot_valid false a));; on_stats count_withdrawal.

Definition aa25FailResponse (fault : AA25Fault) (now : Z) : M unit :=
  aa25PublishFault fault now;; aa25InvalidateReception now;; aa25WithdrawAdmission.

(** ** The response *)

Definition aa25DriveEdge (level : AA25Level) (deadline now : Z) : M unit :=
  write_edge level;;
  on_transmit (set_level level);;
  on_stats count_edge;;
  generation ← got (fun e => AA25Generation (aa25Pinned (admission e)));
  aa25Publish (plain_event AA25EventTXIntent AA25FaultNone now 0 deadline 0 generation level).

Definition aa25CompleteTX (now : Z) : M unit :=
  generation ← got (fun e => AA25Generation (aa25Pinned (admission e)));
  aa25Publish (plain_event AA25EventTXComplete AA25FaultNone now 0 0 0 generation AA25LevelLow);;
  on_transmit (fun t => set_ack_since now (set_tx_state aa25TXAwaitAck t)).

(** The next bit of a response that is on the wire. *)
Definition send_bit (now : Z) : M unit :=
  bit ← got (fun e => aa25TXBit (transmit e));
  deadline ← got (aa25TXDeadline bit); level ← got (aa25TXBitLevel bit);
  current ← got (fun e => aa25TXLevel (transmit e)); tolerance ← got (fun e => AA25TXLateToleranceTicks (aa25Config e));
  if now <? deadline then mret tt
  else if bool_decide (level = current) then on_transmit (set_tx_bit (wrap 64 (bit + 1)))
  else if wrap 64 (deadline + tolerance) <? now then aa25FailResponse AA25FaultTXLate now
  else aa25DriveEdge level deadline now;; on_transmit (set_tx_bit (wrap 64 (bit + 1))).

Definition step_active (now : Z) : M unit :=
  length ← got pinned_length; echo ← got (fun e => aa25EchoIndex (transmit e)); bit ← got (fun e => aa25TXBit (transmit e));
  echoDeadline ← got aa25EchoDeadline; endDeadline ← got (aa25TXDeadline (length * aa25BitsPerCharacter));
  if (echo <? length) && (echoDeadline <=? now) then aa25FailResponse AA25FaultEchoMissing now
  else if bit <? length * aa25BitsPerCharacter then send_bit now
  else if (echo =? length) && (endDeadline <=? now) then aa25CompleteTX now
  else mret tt.

Definition aa25StepTX (now : Z) : M unit :=
  state ← got (fun e => aa25TXState (transmit e));
  match state with
  | aa25TXIdle => mret tt
  | aa25TXAwaitAck => deadline ← got aa25AckDeadline; if deadline <=? now then aa25AbortTX now else mret tt
  | aa25TXWaiting =>
      final ← got (fun e => aa25FinalComplete (character e)); start ← got (fun e => aa25TXDeadline (aa25TXBase (transmit e)) e);
      if negb final || (now <? start) then mret tt else on_transmit (set_tx_state aa25TXActive);; step_active now
  | aa25TXActive => step_active now
  end.

(** A retransmission starts at the second symbol, on a schedule of its own. *)
Definition aa25HandleFinalAck (symbol : byte) (now : Z) : M unit :=
  deadline ← got aa25AckDeadline;
  on_transmit (set_tx_state aa25TXIdle);;
  on_admission (set_pinned_valid false);;
  if negb (symbol =b aa25SymbolNack) || (deadline <=? now) then mret tt
  else
    t ← got transmit; start ← got (fun e => aa25CharStartTick (character e)); reserve ← got aa25ReserveTicks;
    if aa25RetryCancel t then mret tt
    else if aa25TXRetried t then aa25PublishFault AA25FaultNackExhausted now
    else if negb (aa25ScheduleFits reserve start) then aa25PublishFault AA25FaultTXLate now
    else
      on_admission (set_pinned_valid true);;
      on_transmit (fun t => mkTransmit aa25TXWaiting start aa25BitsPerCharacter aa25BitsPerCharacter true (aa25RetryCancel t) (aa25AckSince t)
        (aa25TXLevel t) 1).

(** ** The frame *)

Definition aa25AdmitResponse (now : Z) : M unit :=
  a ← got admission; f ← got frame; start ← got (fun e => aa25CharStartTick (character e)); reserve ← got aa25ReserveTicks;
  if negb (aa25PinnedValid a) then mret tt
  else if negb (aa25FramePB f =b AA25MatchPB (aa25Pinned a)) || negb (aa25FrameSB f =b AA25MatchSB (aa25Pinned a)) ||
          negb (aa25FrameNN f =b AA25MatchNN (aa25Pinned a))
  then on_admission (set_pinned_valid false)
  else if negb (aa25ScheduleFits reserve start) then on_admission (set_pinned_valid false);; aa25PublishFault AA25FaultTXLate now
  else
    on_transmit (fun t => mkTransmit aa25TXWaiting start 0 0 false false (aa25AckSince t) (aa25TXLevel t) 0);;
    deadline ← got (aa25TXDeadline 0);
    aa25Publish (plain_event AA25EventAdmitted AA25FaultNone now 0 deadline 0 (AA25Generation (aa25Pinned a)) AA25LevelLow).

Definition drop_faulty (fault : AA25Fault) (now : Z) : M unit := aa25PublishFault fault now;; aa25DropFrame.

(** The target of the frame: only here a prepared response is pinned. *)
Definition observe_target (logical : byte) (escaped : bool) (now : Z) : M unit :=
  if escaped then drop_faulty AA25FaultAddressInvalid now
  else
    on_frame (set_phase aa25FramePB_);;
    address ← got (fun e => AA25ResponderAddress (aa25Config e)); source ← got (fun e => aa25FrameSource (frame e)); a ← got admission;
    if (logical =b address) && negb (aa25InitiatorAddress source) then drop_faulty AA25FaultAddressInvalid now
    else if (logical =b address) && aa25SlotValid a then
      on_admission (set_pinned (aa25Slot a) true);;
      aa25Publish (plain_event AA25EventProvisional AA25FaultNone now 0 0 0 (AA25Generation (aa25Slot a)) AA25LevelLow)
    else mret tt.

Definition observe_crc (logical : byte) (now : Z) : M unit :=
  on_frame (set_phase aa25FrameTrailing);;
  crc ← got (fun e => aa25FrameCRC (frame e));
  if negb (logical =b crc) then aa25PublishFault AA25FaultBadCRC now;; on_admission (set_pinned_valid false)
  else aa25Publish (plain_event AA25EventFrameValid AA25FaultNone now 0 0 0 0 AA25LevelLow);; aa25AdmitResponse now.

Definition aa25DeliverLogical (logical : byte) (escaped : bool) (now : Z) : M unit :=
  c ← got character;
  aa25Publish (mkEvent AA25EventLogicalByte AA25FaultNone now (aa25CharStartIndex c) (aa25CharStartTick c) 0 0 0 x00 logical escaped (aa25CharEcho c)
    AA25LevelLow 0 zero_phase);;
  phase ← got (fun e => aa25FramePhase (frame e));
  match phase with
  | aa25FrameSource_ =>
      if (escaped : bool) then drop_faulty AA25FaultAddressInvalid now
      else on_frame (fun f => set_phase aa25FrameTarget (set_source logical f))
  | aa25FrameTarget => observe_target logical escaped now
  | aa25FramePB_ => on_frame (fun f => set_phase aa25FrameSB_ (set_pb logical f))
  | aa25FrameSB_ => on_frame (fun f => set_phase aa25FrameNN_ (set_sb logical f))
  | aa25FrameNN_ =>
      if u8 aa25MaxRequestNN <? u8 logical then drop_faulty AA25FaultLengthInvalid now
      else
        on_frame (fun f => set_phase (if logical =b x00 then aa25FrameCRC_ else aa25FrameData) (set_left logical (set_nn logical f)))
  | aa25FrameData =>
      on_frame (fun f =>
        let left := b8 (u8 (aa25FrameLeft f) - 1) in set_phase (if left =b x00 then aa25FrameCRC_ else aa25FrameData) (set_left left f))
  | aa25FrameCRC_ => observe_crc logical now
  | aa25FrameUnsynced | aa25FrameTrailing => mret tt
  end.

(** The CRC covers what comes before the CRC itself. *)
Definition advance_crc (symbol : byte) (f : aa25Frame) : aa25Frame :=
  if bool_decide (aa25FramePhase f = aa25FrameCRC_) then f else set_crc (aa25CRCUpdate (aa25FrameCRC f) symbol) f.

Definition feed_escaped (symbol : byte) (now : Z) : M unit :=
  on_frame (set_escape false);;
  if (symbol =b aa25EscapedEscape) || (symbol =b aa25EscapedSyn) then
    on_frame (advance_crc symbol);;
    aa25DeliverLogical (if symbol =b aa25EscapedEscape then aa25SymbolEscape else aa25SymbolSyn) true now
  else
    aa25PublishFault AA25FaultEscapeInvalid now;; aa25AbortTX now;; aa25DropFrame;;
    only_if (symbol =b aa25SymbolSyn) aa25StartFrame.

Definition aa25FeedFrame (symbol : byte) (now : Z) : M unit :=
  f ← got frame;
  if bool_decide (aa25FramePhase f = aa25FrameUnsynced) then only_if (symbol =b aa25SymbolSyn) aa25StartFrame
  else if aa25EscapePending f then feed_escaped symbol now
  else if symbol =b aa25SymbolSyn then
    only_if (negb (bool_decide (aa25FramePhase f = aa25FrameSource_)) && negb (bool_decide (aa25FramePhase f = aa25FrameTrailing)))
      (aa25PublishFault AA25FaultSynInFrame now);;
    aa25StartFrame
  else if symbol =b aa25SymbolEscape then on_frame (fun f => advance_crc symbol (set_escape true f))
  else on_frame (advance_crc symbol);; aa25DeliverLogical symbol false now.

(** ** The character *)

(** Whether what is received is the echo of what is sent. *)
Definition hearing_echo (e : AA25Engine) : bool := aa25CharEcho (character e) && bool_decide (aa25TXState (transmit e) = aa25TXActive).

Definition aa25CompleteSymbol (index now : Z) : M unit :=
  c ← got character; echo ← got hearing_echo;
  only_if echo (on_transmit (fun t => set_echo_index (wrap 64 (aa25EchoIndex t + 1)) t);; on_stats count_echoed);;
  aa25Publish (mkEvent AA25EventRawSymbol AA25FaultNone now index (aa25CharStartTick c) 0 0 0 (aa25CharShift c) x00 false (aa25CharEcho c)
    AA25LevelLow (aa25CharDissent c) (aa25CharEdgePhase c));;
  waiting ← got (fun e => bool_decide (aa25TXState (transmit e) = aa25TXAwaitAck));
  only_if waiting (aa25HandleFinalAck (aa25CharShift c) now);;
  aa25FeedFrame (aa25CharShift c) now.

Definition aa25FailCharacter (fault : AA25Fault) (now : Z) : M unit :=
  aa25PublishFault fault now;;
  echo ← got hearing_echo;
  if (echo : bool) then aa25FailResponse AA25FaultEchoMismatch now else aa25AbortTX now;; aa25DropFrame.

(** What a decided bit does: the start bit, the eight data bits, the stop bit. *)
Definition decide_bit (bit : Z) (high : bool) (index now : Z) : M unit :=
  if bit =? 0 then only_if high (on_character (set_rx aa25RXHunt);; aa25FailCharacter AA25FaultFalseStart now)
  else if bit <? aa25BitsPerCharacter - 1 then
    only_if high (on_character (fun c => set_shift (bor (aa25CharShift c) (b8 (2 ^ (bit - 1)))) c));;
    echo ← got hearing_echo; intended ← got (fun e => Z.testbit (u8 (pinned_symbol (aa25EchoIndex (transmit e)) e)) (bit - 1));
    only_if (echo && negb (Bool.eqb intended high)) (aa25FailResponse AA25FaultEchoMismatch now)
  else if negb high then
    on_character (fun c => set_idle_run 0 (set_rx aa25RXResync c));; aa25FailCharacter AA25FaultBadStop now
  else on_character (set_rx aa25RXStopTail);; aa25CompleteSymbol index now.

(** A change of level and where in the bit it came. *)
Definition note_edge (level : AA25Level) (position : Z) (c : aa25Character) : aa25Character :=
  if bool_decide (level = aa25CharLevel c) then c
  else
    let seen := aa25CharEdgePhase c !!! Z.to_nat position in
    set_edge level (if seen =? 255 then aa25CharEdgePhase c else <[Z.to_nat position := seen + 1]> (aa25CharEdgePhase c)) c.

Definition aa25ObserveCharacter (level : AA25Level) (index now : Z) : M unit :=
  start ← got (fun e => aa25CharStartIndex (character e));
  let offset := wrap 64 (index - start) in
  let position := offset mod aa25SamplesPerBit in
  on_character (note_edge level position);;
  if (position <? aa25CentralFirst) || (aa25CentralLast <? position) then mret tt
  else
    only_if (is_high level) (on_character (fun c => set_votes (wrap 8 (aa25CharHighVotes c + 1)) c));;
    if negb (position =? aa25CentralLast) then mret tt
    else
      votes ← got (fun e => aa25CharHighVotes (character e));
      let high := 2 <=? votes in
      on_character (fun c => set_dissent (wrap 8 (aa25CharDissent c + (if high then 3 - votes else votes))) (set_votes 0 c));;
      decide_bit (offset / aa25SamplesPerBit) high index now.

Definition aa25BeginCharacter (index now : Z) : M unit :=
  on_character (fun c => mkCharacter aa25RXCharacter (aa25PreviousLevel c) (aa25IdleRun c) index now (aa25CharEcho c) AA25LevelLow 0 0 x00 zero_phase false);;
  t ← got transmit; length ← got pinned_length; deadline ← got (fun e => aa25TXDeadline (aa25TXBit (transmit e)) e);
  only_if (bool_decide (aa25TXState t = aa25TXActive) && (aa25TXBit t =? length * aa25BitsPerCharacter) && (aa25EchoIndex t =? length) && (deadline <=? now))
    (aa25CompleteTX now);;
  state ← got (fun e => aa25TXState (transmit e));
  on_character (set_char_echo (bool_decide (state = aa25TXActive)));;
  match state with
  | aa25TXWaiting => aa25PublishFault AA25FaultRXBeforeResponse now;; aa25AbortTX now;; aa25DropFrame;; aa25WithdrawAdmission
  | aa25TXActive =>
      ahead ← got (fun e =>
        wrap 64 (aa25TXBit (transmit e) + aa25BitsPerCharacter - 1) / aa25BitsPerCharacter <=? aa25EchoIndex (transmit e));
      only_if ahead (aa25FailResponse AA25FaultEchoUnsolicited now)
  | aa25TXIdle | aa25TXAwaitAck => mret tt
  end.

Definition aa25Observe (level : AA25Level) (index now : Z) : M unit :=
  c ← got character;
  match aa25RXState c with
  | aa25RXResync =>
      if is_high level then
        on_character (fun c =>
          let run := wrap 64 (aa25IdleRun c + 1) in set_rx (if aa25ResyncIdleSamples <=? run then aa25RXHunt else aa25RXResync) (set_idle_run run c))
      else on_character (set_idle_run 0)
  | aa25RXHunt => only_if (negb (is_high level) && is_high (aa25PreviousLevel c)) (aa25BeginCharacter index now)
  | aa25RXCharacter => aa25ObserveCharacter level index now
  | aa25RXStopTail =>
      if negb (is_high level) then aa25BeginCharacter index now
      else
        only_if (aa25FinalOffset <=? wrap 64 (index - aa25CharStartIndex c)) (on_character (fun c => set_rx aa25RXHunt (set_final true c)))
  end;;
  on_character (set_previous level).

(** ** Steps *)

Definition lose_samples (missed now : Z) : M unit :=
  on_stats (count_missed missed);;
  next ← got (fun e => aa25NextSample (sampling e));
  aa25Publish (mkEvent AA25EventGap AA25FaultNone now next 0 0 missed 0 x00 x00 false false AA25LevelLow 0 zero_phase);;
  aa25InvalidateReception now;; aa25WithdrawAdmission.

Definition aa25StepRX (now : Z) : M unit :=
  s ← got sampling; hz ← got (fun e => AA25TickHz (aa25Config e));
  if now <? aa25NextDeadline s then mret tt
  else
    let index := (aa25RationalAt (wrap 64 (now - aa25SampleAnchor s)) AA25NominalSampleRate hz).1 in
    let missed := wrap 64 (index - aa25NextSample s) in
    only_if (0 <? missed) (lose_samples missed now);;
    level ← sample_level;
    deadline ← got (aa25SampleDeadline index); next ← got (aa25SampleDeadline (wrap 64 (index + 1)));
    on_stats (count_observation (wrap 64 (now - deadline)));;
    on_sampling (set_next_sample (wrap 64 (index + 1)) next);;
    aa25Observe level index now.

Definition aa25ApplyLoss (now : Z) : M unit :=
  pending ← got aa25LossPending; applied ← got aa25LossApplied;
  only_if pending (
    only_if (negb applied) (change (fun e => with_loss (aa25LossPending e) true e);; aa25InvalidateReception now;; aa25WithdrawAdmission);;
    dropped ← got (fun e => AA25EventsDropped (aa25Stats e));
    accepted ← try_publish (plain_event AA25EventLoss AA25FaultNone now 0 0 dropped 0 AA25LevelLow);
    only_if accepted (change (with_loss false false))).

Definition apply_control (item : aa25Control) (now : Z) : M unit :=
  match item with
  | aa25ControlOffer p =>
      pending ← got aa25LossPending; last ← got (fun e => aa25LastGeneration (admission e));
      if (pending : bool) then mret tt
      else if AA25Generation p <=? last then aa25PublishFault AA25FaultStaleGeneration now
      else on_admission (set_slot p true (AA25Generation p))
  | aa25ControlWithdraw =>
      on_admission (set_slot_valid false);; on_stats count_withdrawal;;
      state ← got (fun e => aa25TXState (transmit e));
      only_if (bool_decide (state = aa25TXWaiting) || bool_decide (state = aa25TXAwaitAck)) (aa25AbortTX now);;
      on_transmit (set_retry_cancel true);;
      idle ← got (fun e => bool_decide (aa25TXState (transmit e) = aa25TXIdle));
      only_if idle (on_admission (set_pinned_valid false))
  | aa25ControlNone => mret tt
  end.

Definition aa25StepHousekeeping (now : Z) : M unit :=
  items ← got aa25Controls; head ← got aa25ControlHead; count ← got aa25ControlCount;
  if count =? 0 then mret tt
  else
    change (with_controls items (wrap 8 (head + 1) mod aa25ControlCapacity) (count - 1));;
    on_stats count_control;;
    apply_control (default aa25ControlNone (items !! Z.to_nat head)) now.

Definition AA25Step : M unit :=
  now ← now_ticks; s ← got sampling;
  if now <? aa25LastNow s then
    only_if (negb (aa25TickRegressing s)) (
      on_sampling (set_regressing true);;
      aa25PublishFault AA25FaultTickRegression now;; aa25InvalidateReception now;; aa25WithdrawAdmission);;
    aa25ApplyLoss now
  else
    on_sampling (fun s => set_last_now now (set_regressing false s));;
    aa25StepRX now;; aa25ApplyLoss now;; aa25StepTX now;; aa25ApplyLoss now;; aa25StepHousekeeping now.

(** ** Offers *)

Definition aa25PushControl (item : aa25Control) : M bool :=
  items ← got aa25Controls; head ← got aa25ControlHead; count ← got aa25ControlCount;
  if count =? aa25ControlCapacity then mret false
  else change (with_controls (<[Z.to_nat (wrap 8 (head + count) mod aa25ControlCapacity) := item]> items) head (count + 1));; mret true.

Definition AA25OfferPrepared (p : AA25Prepared) : M bool :=
  if (AA25Generation p =? 0) || (aa25WireLen p =? 0) then mret false else aa25PushControl (aa25ControlOffer p).

Definition AA25OfferWithdraw : M bool := aa25PushControl aa25ControlWithdraw.

(** ** Construction: whether every port is there is an argument *)

Definition AA25NewEngine (ports : bool) (c : AA25Config) (w : W) : W * result aa25_error AA25Engine :=
  if negb ports then (w, Err AA25ErrMissingPort)
  else if (AA25TickHz c <? AA25NominalSampleRate) || (AA25ResponderAddress c =b aa25SymbolEscape) || (AA25ResponderAddress c =b aa25SymbolSyn) ||
          (AA25ResponderAddress c =b aa25AddressBroadcast) || aa25InitiatorAddress (AA25ResponderAddress c) || (AA25TickHz c <? AA25TurnaroundTicks c)
  then (w, Err AA25ErrInvalidConfig)
  else
    let bitWhole := (aa25RationalAt 1 (AA25TickHz c) AA25NominalBaud).1 in
    let charWhole := (aa25RationalAt aa25BitsPerCharacter (AA25TickHz c) AA25NominalBaud).1 in
    if (bitWhole <=? AA25TXLateToleranceTicks c) || (charWhole <=? AA25EchoAllowanceTicks c) then (w, Err AA25ErrInvalidConfig)
    else
      let (reserve, representable) := aa25ScheduleReserve c in
      let (w, now) := AA25NowTicks w in
      if negb representable || negb (aa25ScheduleFits reserve now) then (w, Err AA25ErrInvalidConfig)
      else
        (w, Ok (mkEngine c zero_engine_stats reserve (mkSampling now 0 now now false) start_character start_frame start_admission start_transmit
          false false (replicate 4 aa25ControlNone) 0 0)).
End engine.
