(* ===== verification/EngineTrace.v ===== *)
(** What an engine does to the outside (src/localworker/aa25_engine.go): ports
    that record every edge and every event, and a logic for what a method does
    to the state that decides about output.

    Whether an event is accepted changes only counters and the loss flags, so
    the rest of the engine, the [core], moves the same way with any sink. *)

From S2P Require Import Prelude Calls EngineTypes Engine.
#[local] Open Scope list_scope.
#[local] Open Scope Z_scope.

(** ** Recording ports *)

Inductive action := DidEdge (level : AA25Level) | DidPublish (event : AA25Event) (accepted : bool).

Record recorded (W : Type) := mkRecorded { inside : W; actions : list action }.
Arguments mkRecorded {W}.
Arguments inside {W}.
Arguments actions {W}.

#[export] Instance recording {W} `{EnginePorts W} : EnginePorts (recorded W) := {
  AA25NowTicks := fun r => let (w, t) := AA25NowTicks (inside r) in (mkRecorded w (actions r), t);
  AA25SampleLevel := fun r => let (w, l) := AA25SampleLevel (inside r) in (mkRecorded w (actions r), l);
  AA25WriteEdge := fun l r => mkRecorded (AA25WriteEdge l (inside r)) (actions r ++ [DidEdge l]);
  AA25TryPublish := fun ev r => let (w, ok) := AA25TryPublish ev (inside r) in (mkRecorded w (actions r ++ [DidPublish ev ok]), ok) }.

(** ** What is worth remembering of the actions *)

Inductive mark := MEdge (level : AA25Level) | MIntent (level : AA25Level) (deadline tick : Z) | MEcho (symbol : byte) | MComplete (generation : Z).

Definition event_marks (ev : AA25Event) : list mark :=
  match AA25Kind ev with
  | AA25EventTXIntent => [MIntent (eLevel ev) (AA25Deadline ev) (AA25Tick ev)]
  | AA25EventRawSymbol => if AA25Echo ev then [MEcho (AA25Raw ev)] else []
  | AA25EventTXComplete => [MComplete (eGeneration ev)]
  | _ => []
  end.

Definition action_marks (a : action) : list mark :=
  match a with DidEdge l => [MEdge l] | DidPublish ev _ => event_marks ev end.

Definition marks_of (l : list action) : list mark := flat_map action_marks l.

Lemma marks_of_app l l' : marks_of (l ++ l') = marks_of l ++ marks_of l'.
Proof. apply flat_map_app. Qed.

(** ** The core *)

Record core := mkCore {
  k_config : AA25Config; k_reserve : Z; k_next : Z; k_char : aa25Character; k_phase : aa25FramePhase_; k_adm : aa25Admission; k_tx : aa25Transmit;
  k_controls : list aa25Control; k_marks : list mark }.

Definition core_of (e : AA25Engine) (ms : list mark) : core :=
  mkCore (aa25Config e) (aa25ReserveTicks e) (aa25NextSample (sampling e)) (character e) (aa25FramePhase (frame e)) (admission e) (transmit e)
    (aa25Controls e) ms.

Definition k_with_next (v : Z) (c : core) : core :=
  mkCore (k_config c) (k_reserve c) v (k_char c) (k_phase c) (k_adm c) (k_tx c) (k_controls c) (k_marks c).
Definition k_with_char (v : aa25Character) (c : core) : core :=
  mkCore (k_config c) (k_reserve c) (k_next c) v (k_phase c) (k_adm c) (k_tx c) (k_controls c) (k_marks c).
Definition k_with_phase (v : aa25FramePhase_) (c : core) : core :=
  mkCore (k_config c) (k_reserve c) (k_next c) (k_char c) v (k_adm c) (k_tx c) (k_controls c) (k_marks c).
Definition k_with_adm (v : aa25Admission) (c : core) : core :=
  mkCore (k_config c) (k_reserve c) (k_next c) (k_char c) (k_phase c) v (k_tx c) (k_controls c) (k_marks c).
Definition k_with_tx (v : aa25Transmit) (c : core) : core :=
  mkCore (k_config c) (k_reserve c) (k_next c) (k_char c) (k_phase c) (k_adm c) v (k_controls c) (k_marks c).
Definition k_with_controls (v : list aa25Control) (c : core) : core :=
  mkCore (k_config c) (k_reserve c) (k_next c) (k_char c) (k_phase c) (k_adm c) (k_tx c) v (k_marks c).
Definition k_marked (ms : list mark) (c : core) : core :=
  mkCore (k_config c) (k_reserve c) (k_next c) (k_char c) (k_phase c) (k_adm c) (k_tx c) (k_controls c) (k_marks c ++ ms).

Lemma k_marked_nil c : k_marked [] c = c.
Proof. unfold k_marked. rewrite app_nil_r. by destruct c. Qed.

Section logic.
Context {W : Type} `{EnginePorts W}.
#[local] Notation M := (ST (machine (recorded W))).

Definition core_at (m : machine (recorded W)) : core := core_of (eng m) (marks_of (actions (world m))).

(** From any state with core [c], [m] leads to a core and an answer in [Q]. *)
Definition wp {A} (m : M A) (Q : A -> core -> Prop) (c : core) : Prop := forall s, core_at s = c -> Q (m s).2 (core_at (m s).1).

Lemma wp_ret {A} (a : A) Q c : Q a c -> wp (mret a) Q c.
Proof. intros HQ s <-. exact HQ. Qed.

Lemma wp_bind {A B} (m : M A) (f : A -> M B) Q c : wp m (fun a => wp (f a) Q) c -> wp (m ≫= f) Q c.
Proof.
  intros Hm s Hs. specialize (Hm s Hs). unfold mbind, st_bind. destruct (m s) as [s' a]. exact (Hm s' eq_refl).
Qed.

Lemma wp_mono {A} (m : M A) (Q Q' : A -> core -> Prop) c : wp m Q c -> (forall a c', Q a c' -> Q' a c') -> wp m Q' c.
Proof. intros Hm HQ s Hs. apply HQ, Hm, Hs. Qed.

Lemma wp_only_if b (m : M unit) Q c : (b = true -> wp m Q c) -> (b = false -> Q tt c) -> wp (only_if b m) Q c.
Proof. destruct b; intros H1 H2; [by apply H1|]. apply wp_ret. by apply H2. Qed.

(** What is looked up agrees with the core. *)
Lemma wp_got {A} (f : AA25Engine -> A) Q c : (forall e, core_of e (k_marks c) = c -> Q (f e) c) -> wp (got f) Q c.
Proof. intros HQ s <-. apply HQ. reflexivity. Qed.

Lemma wp_on_character f Q c : Q tt (k_with_char (f (k_char c)) c) -> wp (on_character f) Q c.
Proof. intros HQ s <-. exact HQ. Qed.
Lemma wp_on_admission f Q c : Q tt (k_with_adm (f (k_adm c)) c) -> wp (on_admission f) Q c.
Proof. intros HQ s <-. exact HQ. Qed.
Lemma wp_on_transmit f Q c : Q tt (k_with_tx (f (k_tx c)) c) -> wp (on_transmit f) Q c.
Proof. intros HQ s <-. exact HQ. Qed.
Lemma wp_on_frame f Q c : (forall r, aa25FramePhase r = k_phase c -> Q tt (k_with_phase (aa25FramePhase (f r)) c)) -> wp (on_frame f) Q c.
Proof. intros HQ s <-. exact (HQ (frame (eng s)) eq_refl). Qed.
Lemma wp_on_sampling f Q c : (forall r, aa25NextSample r = k_next c -> Q tt (k_with_next (aa25NextSample (f r)) c)) -> wp (on_sampling f) Q c.
Proof. intros HQ s <-. exact (HQ (sampling (eng s)) eq_refl). Qed.
Lemma wp_on_stats f Q c : Q tt c -> wp (on_stats f) Q c.
Proof. intros HQ s <-. exact HQ. Qed.
Lemma wp_with_loss f g Q c : Q tt c -> wp (change (fun e => with_loss (f e) (g e) e)) Q c.
Proof. intros HQ s <-. exact HQ. Qed.
Lemma wp_with_controls l f g Q c : Q tt (k_with_controls l c) -> wp (change (with_controls l f g)) Q c.
Proof. intros HQ s <-. exact HQ. Qed.

Lemma wp_now Q c : (forall t, Q t c) -> wp now_ticks Q c.
Proof. intros HQ s <-. unfold now_ticks. cbn. destruct (AA25NowTicks (inside (world s))) as [w t]. exact (HQ t). Qed.
Lemma wp_sample Q c : (forall l, Q l c) -> wp sample_level Q c.
Proof. intros HQ s <-. unfold sample_level. cbn. destruct (AA25SampleLevel (inside (world s))) as [w l]. exact (HQ l). Qed.

Lemma wp_write_edge l Q c : Q tt (k_marked [MEdge l] c) -> wp (write_edge l) Q c.
Proof.
  intros HQ s <-. unfold write_edge, update, core_at in *. cbn. rewrite marks_of_app. exact HQ.
Qed.

Lemma wp_try_publish ev Q c : (forall ok, Q ok (k_marked (event_marks ev) c)) -> wp (try_publish ev) Q c.
Proof.
  intros HQ s <-. unfold try_publish, core_at in *. cbn. destruct (AA25TryPublish ev (inside (world s))) as [w ok]. cbn.
  rewrite marks_of_app. unfold marks_of at 2. cbn [flat_map action_marks]. rewrite app_nil_r. exact (HQ ok).
Qed.

(** ** Events, and giving up *)

Lemma wp_publish ev Q c : Q tt (k_marked (event_marks ev) c) -> wp (aa25Publish ev) Q c.
Proof.
  intros HQ. apply wp_bind, wp_try_publish. intros ok. apply wp_only_if; [|done]. intros _.
  apply wp_bind, wp_on_stats, wp_with_loss, HQ.
Qed.

Lemma wp_fault fault now Q c : Q tt c -> wp (aa25PublishFault fault now) Q c.
Proof. intros HQ. apply wp_publish. cbn. by rewrite k_marked_nil. Qed.

Definition idle (c : core) : bool := bool_decide (aa25TXState (k_tx c) = aa25TXIdle).

Definition dropped (c : core) : core := k_with_adm (set_pinned_valid (negb (idle c)) (k_adm c)) (k_with_phase aa25FrameUnsynced c).
Definition started (c : core) : core := k_with_adm (set_pinned_valid (negb (idle c)) (k_adm c)) (k_with_phase aa25FrameSource_ c).

(** The line after a release: one edge when it was low. *)
Definition released (c : core) : core :=
  if bool_decide (aa25TXLevel (k_tx c) = AA25LevelLow)
  then k_marked [MEdge AA25LevelHigh] (k_with_tx (set_level AA25LevelHigh (k_tx c)) c) else c.

Definition aborted (c : core) : core :=
  if idle c then c else released (k_with_adm (set_pinned_valid false (k_adm c)) (k_with_tx (set_tx_state aa25TXIdle (k_tx c)) c)).

Definition withdrawn (c : core) : core := k_with_adm (set_pinned_valid false (set_slot_valid false (k_adm c))) c.

Definition invalidated (c : core) : core :=
  let c := dropped (aborted c) in k_with_char (set_final false (set_idle_run 0 (set_rx aa25RXResync (k_char c)))) c.

Lemma wp_drop Q c : Q tt (dropped c) -> wp aa25DropFrame Q c.
Proof.
  intros HQ. apply wp_bind, wp_on_frame. intros r Hr. apply wp_bind, wp_got. intros e He.
  apply wp_on_admission. apply (f_equal k_tx) in He. cbn in He. rewrite He. exact HQ.
Qed.

Lemma wp_start Q c : Q tt (started c) -> wp aa25StartFrame Q c.
Proof.
  intros HQ. apply wp_bind, wp_on_frame. intros r Hr. apply wp_bind, wp_got. intros e He.
  apply wp_on_admission. apply (f_equal k_tx) in He. cbn in He. rewrite He. exact HQ.
Qed.

Lemma wp_abort now Q c : Q tt (aborted c) -> wp (aa25AbortTX now) Q c.
Proof.
  intros HQ. unfold aborted, idle in HQ. apply wp_bind, wp_got. intros e He. apply (f_equal k_tx) in He. cbn in He. rewrite He.
  apply wp_only_if; intros Hi; rewrite ?negb_true_iff, ?negb_false_iff in Hi; rewrite Hi in HQ; [|done].
  apply wp_bind, wp_on_transmit, wp_bind, wp_on_admission, wp_bind, wp_got. intros e' He'. apply (f_equal k_tx) in He'. cbn in He'. rewrite He'.
  unfold released in HQ. cbn in HQ. apply wp_only_if; intros Hl; cbn in Hl; rewrite Hl in HQ; [|exact HQ].
  apply wp_bind, wp_write_edge, wp_bind, wp_on_transmit, wp_bind, wp_on_stats, wp_publish. cbn. rewrite k_marked_nil. exact HQ.
Qed.

Lemma wp_withdraw Q c : Q tt (withdrawn c) -> wp aa25WithdrawAdmission Q c.
Proof. intros HQ. apply wp_bind, wp_on_admission, wp_on_stats. exact HQ. Qed.

Lemma wp_invalidate now Q c : Q tt (invalidated c) -> wp (aa25InvalidateReception now) Q c.
Proof. intros HQ. apply wp_bind, wp_abort, wp_bind, wp_drop, wp_on_character. exact HQ. Qed.

Lemma wp_fail fault now Q c : Q tt (withdrawn (invalidated c)) -> wp (aa25FailResponse fault now) Q c.
Proof. intros HQ. apply wp_bind, wp_fault, wp_bind, wp_invalidate, wp_withdraw. exact HQ. Qed.
End logic.

(** What an engine of a core has in its fields. *)
Ltac core_eqs He :=
  let H1 := fresh in let H2 := fresh in let H3 := fresh in let H4 := fresh in let H5 := fresh in let H6 := fresh in let H7 := fresh in let H8 := fresh in
  pose proof (f_equal k_config He) as H1; pose proof (f_equal k_reserve He) as H2; pose proof (f_equal k_char He) as H3;
  pose proof (f_equal k_adm He) as H4; pose proof (f_equal k_tx He) as H5; pose proof (f_equal k_controls He) as H6;
  pose proof (f_equal k_phase He) as H7; pose proof (f_equal k_next He) as H8;
  cbn [core_of k_config k_reserve k_char k_adm k_tx k_controls k_phase k_next] in H1, H2, H3, H4, H5, H6, H7, H8;
  unfold aa25TXDeadline, aa25EchoDeadline, aa25AckDeadline, aa25TXBitLevel, pinned_length, pinned_symbol, hearing_echo;
  try rewrite H1; try rewrite H2; try rewrite H3; try rewrite H4; try rewrite H5; try rewrite H6; try rewrite H7; try rewrite H8;
  clear H1 H2 H3 H4 H5 H6 H7 H8.

(** One step of a method. *)
Ltac wp1 :=
  lazymatch goal with
  | |- wp (mret _) _ _ => apply wp_ret
  | |- wp (got _) _ _ => apply wp_got; let e := fresh "e" in let He := fresh "He" in intros e He; core_eqs He; clear He; try clear e
  | |- wp (on_character _) _ _ => apply wp_on_character
  | |- wp (on_frame _) _ _ => apply wp_on_frame
  | |- wp (on_admission _) _ _ => apply wp_on_admission
  | |- wp (on_transmit _) _ _ => apply wp_on_transmit
  | |- wp (on_stats _) _ _ => apply wp_on_stats
  | |- wp (aa25PublishFault _ _) _ _ => apply wp_fault
  | |- wp (aa25Publish _) _ _ => apply wp_publish
  | |- wp (aa25AbortTX _) _ _ => apply wp_abort
  | |- wp aa25DropFrame _ _ => apply wp_drop
  | |- wp aa25StartFrame _ _ => apply wp_start
  | |- wp aa25WithdrawAdmission _ _ => apply wp_withdraw
  | |- wp (aa25InvalidateReception _) _ _ => apply wp_invalidate
  | |- wp (aa25FailResponse _ _) _ _ => apply wp_fail
  | |- wp (write_edge _) _ _ => apply wp_write_edge
  | |- wp (_ ≫= _) _ _ => apply wp_bind
  end; cbv beta.
Ltac wps := repeat wp1.
