(* ===== verification/EngineAttempt.v ===== *)
(** The schedule of a response is exact (src/localworker/aa25_engine.go): for an
    anchor that fits the reserve, no deadline wraps, and bit n of a response is
    due at the first whole tick that is not before its exact instant.

    Then attempts to send a response: what each puts on the line, announces
    and hears, and what a sequence of them explains. *)

From S2P Require Import Prelude Calls EngineTypes Engine EngineTrace.
#[local] Open Scope list_scope.
#[local] Open Scope Z_scope.
#[local] Ltac Zify.zify_post_hook ::= Z.to_euclidean_division_equations.

(** The width of the fields of a configuration. *)
Definition typed_engine (c : AA25Config) : Prop :=
  0 <= AA25TickHz c < 2 ^ 64 /\ 0 <= AA25TurnaroundTicks c < 2 ^ 64 /\ 0 <= AA25TXLateToleranceTicks c < 2 ^ 64 /\ 0 <= AA25EchoAllowanceTicks c < 2 ^ 64.

(** The first whole tick that is not before [n] bit times. *)
Definition bit_ticks (c : AA25Config) (n : Z) : Z := (n * AA25TickHz c + 2399) / 2400.

(** What the constructor makes sure of. *)
Record scheduled (c : AA25Config) (reserve : Z) : Prop := {
  sch_hz : 24000 <= AA25TickHz c < 2 ^ 64;
  sch_turn : 0 <= AA25TurnaroundTicks c;
  sch_late : 0 <= AA25TXLateToleranceTicks c < AA25TickHz c / 2400;
  sch_echo : 0 <= AA25EchoAllowanceTicks c < 10 * AA25TickHz c / 2400;
  sch_reserve : reserve = bit_ticks c 380 + AA25TurnaroundTicks c + AA25EchoAllowanceTicks c + AA25TXLateToleranceTicks c;
  sch_fits : reserve < 2 ^ 64 }.

Lemma bit_ticks_mono c n m : 0 <= AA25TickHz c -> n <= m -> bit_ticks c n <= bit_ticks c m.
Proof. intros. unfold bit_ticks. apply Z.div_le_mono; nia. Qed.

Lemma rational_at_small n hz : 0 <= n <= 380 -> 0 <= hz < 2 ^ 64 -> aa25RationalAt n hz 2400 = (n * hz / 2400, (n * hz) mod 2400).
Proof.
  intros Hn Hh. unfold aa25RationalAt. cbv zeta.
  assert (n * hz / 2 ^ 64 < 2400) by (apply Z.div_lt_upper_bound; nia).
  destruct (Z.leb_spec 2400 (n * hz / 2 ^ 64)); [lia|done].
Qed.

Lemma ceil_spec a : 0 <= a -> (a + 2399) / 2400 = a / 2400 + (if a mod 2400 =? 0 then 0 else 1).
Proof. intros. destruct (Z.eqb_spec (a mod 2400) 0); lia. Qed.

Lemma rational_deadline_exact c anchor n :
  0 <= n <= 380 -> 0 <= AA25TickHz c < 2 ^ 64 -> 0 <= anchor -> anchor + bit_ticks c n < 2 ^ 64 ->
  aa25RationalDeadline anchor n (AA25TickHz c) 2400 = anchor + bit_ticks c n.
Proof.
  intros Hn Hh Ha Hs. unfold aa25RationalDeadline, bit_ticks in *. rewrite rational_at_small by done. cbn [negb].
  rewrite ceil_spec in * by nia. pose proof (Z.div_pos (n * AA25TickHz c) 2400 ltac:(nia) ltac:(lia)) as Hq.
  generalize dependent (n * AA25TickHz c / 2400). intros q Hs Hq.
  destruct (_ mod 2400 =? 0); cbn [negb]; [rewrite wrap_small by lia|rewrite (wrap_small 64 (q + 1)), wrap_small by lia]; lia.
Qed.

Lemma bit_ticks_pos c n : 0 <= AA25TickHz c -> 0 <= n -> 0 <= bit_ticks c n.
Proof. intros. unfold bit_ticks. apply Z.div_pos; nia. Qed.

(** A whole character takes at least the ticks the constructor counts for it. *)
Lemma bit_ticks_add c n m : 0 <= AA25TickHz c -> 0 <= n -> 0 <= m -> bit_ticks c n + m * AA25TickHz c / 2400 <= bit_ticks c (n + m).
Proof.
  intros. unfold bit_ticks. replace ((n + m) * AA25TickHz c + 2399) with (n * AA25TickHz c + 2399 + m * AA25TickHz c) by ring.
  pose proof (Z.div_mod (n * AA25TickHz c + 2399) 2400 ltac:(lia)). pose proof (Z.div_mod (m * AA25TickHz c) 2400 ltac:(lia)).
  pose proof (Z.mod_pos_bound (n * AA25TickHz c + 2399) 2400 ltac:(lia)). pose proof (Z.mod_pos_bound (m * AA25TickHz c) 2400 ltac:(lia)).
  apply Z.div_le_lower_bound; lia.
Qed.

Lemma add64_no_carry x y : 0 <= x -> 0 <= y -> (add64 x y).2 = false -> x + y < 2 ^ 64 /\ (add64 x y).1 = x + y.
Proof. intros Hx Hy. unfold add64. cbn [fst snd]. destruct (Z.leb_spec (2 ^ 64) (x + y)); [done|]. rewrite wrap_small by lia. done. Qed.

Lemma reserve_exact c sum : typed_engine c -> aa25ScheduleReserve c = (sum, true) ->
  sum = bit_ticks c 380 + AA25TurnaroundTicks c + AA25EchoAllowanceTicks c + AA25TXLateToleranceTicks c /\ sum < 2 ^ 64.
Proof.
  intros (Hh & Ht & Hl & He). unfold aa25ScheduleReserve.
  change ((1 + aa25MaxPreparedWire) * aa25BitsPerCharacter) with 380. change AA25NominalBaud with 2400.
  assert (bit_ticks c 380 < 2 ^ 64) as Hb by (unfold bit_ticks; apply Z.div_lt_upper_bound; lia).
  pose proof (bit_ticks_pos c 380 ltac:(lia) ltac:(lia)).
  rewrite rational_deadline_exact by lia. rewrite Z.add_0_l.
  pose proof (add64_no_carry (bit_ticks c 380) (AA25TurnaroundTicks c) ltac:(lia) ltac:(lia)) as H1.
  destruct (add64 (bit_ticks c 380) _) as [s1 c1]. cbn [fst snd] in H1.
  assert (0 <= s1 -> s1 + AA25EchoAllowanceTicks c < 2 ^ 64 \/ (add64 s1 (AA25EchoAllowanceTicks c)).2 = true) as H2.
  { intros. destruct (add64 s1 _).2 eqn:E; [by right|left]. apply add64_no_carry in E as [? _]; lia. }
  pose proof (add64_no_carry s1 (AA25EchoAllowanceTicks c)) as H3. destruct (add64 s1 _) as [s2 c2]. cbn [fst snd] in *.
  pose proof (add64_no_carry s2 (AA25TXLateToleranceTicks c)) as H4. destruct (add64 s2 _) as [s3 c3]. cbn [fst snd] in *.
  destruct c1, c2, c3; cbn; try (intros [= _]; done). intros [= <-].
  destruct H1 as [? ->]; [done|]. destruct H3 as [? ->]; [lia..|done|]. destruct H4 as [? ->]; [lia..|done|]. lia.
Qed.

(** The deadline of a bit, for an anchor that fits. *)
Definition bit_deadline (c : AA25Config) (anchor base bit : Z) : Z := anchor + AA25TurnaroundTicks c + bit_ticks c (10 + bit - base).

Definition fits (reserve anchor : Z) : Prop := 0 <= anchor /\ anchor + reserve < 2 ^ 64.

Lemma schedule_fits_spec c reserve anchor : scheduled c reserve -> 0 <= anchor -> aa25ScheduleFits reserve anchor = true -> fits reserve anchor.
Proof.
  intros [] Ha. unfold aa25ScheduleFits. pose proof (bit_ticks_pos c 380 ltac:(lia) ltac:(lia)).
  unfold MaxTick. rewrite wrap_small by lia. intros Hf%Z.leb_le. split; lia.
Qed.

Lemma tx_deadline_exact c reserve anchor base bit : scheduled c reserve -> fits reserve anchor -> 0 <= 10 + bit - base <= 380 ->
  aa25RationalDeadline (wrap 64 (anchor + AA25TurnaroundTicks c)) (wrap 64 (aa25BitsPerCharacter + bit - base)) (AA25TickHz c) AA25NominalBaud =
  bit_deadline c anchor base bit /\
  0 <= bit_deadline c anchor base bit /\
  bit_deadline c anchor base bit + AA25EchoAllowanceTicks c + AA25TXLateToleranceTicks c < 2 ^ 64.
Proof.
  intros [] [Ha Hf] Hb. change aa25BitsPerCharacter with 10. change AA25NominalBaud with 2400.
  pose proof (bit_ticks_mono c (10 + bit - base) 380 ltac:(lia) ltac:(lia)). pose proof (bit_ticks_pos c (10 + bit - base) ltac:(lia) ltac:(lia)).
  unfold bit_deadline. rewrite (wrap_small 64 (anchor + _)) by lia. rewrite (wrap_small 64 (10 + bit - base)) by lia.
  rewrite rational_deadline_exact by lia. lia.
Qed.

(** * Attempts

    Attempts of the engine to send a response (src/localworker/aa25_engine.go):
    what each puts on the line, announces and hears, and a sequence of attempts
    that explains everything an engine did. *)

(** ** Responses *)

(** What a prepared response is: between one symbol and as many as the array
    holds, none of them SYN. *)
Record proper (p : AA25Prepared) : Prop := {
  pr_length : 1 <= aa25WireLen p <= 37;
  pr_array : length (aa25Wire p) = 37%nat;
  pr_syn : forall i, 0 <= i < aa25WireLen p -> aa25Wire p !!! Z.to_nat i <> aa25SymbolSyn }.

(** ** Attempts *)

(** A response sent from bit [a_base] up to before bit [a_bits], with the
    symbols before [a_heard] heard back; [a_done] when it was completed. *)
Record attempt := mkAttempt { a_response : AA25Prepared; a_base : Z; a_anchor : Z; a_bits : Z; a_heard : Z; a_done : bool }.

(** The bits at which the line changes. *)
Definition changes (p : AA25Prepared) (base bits : Z) : list Z :=
  filter (fun bit => bit_level p bit <> bit_level p (bit - 1)) (seqZ base (bits - base)).

Definition driven (a : attempt) : list AA25Level := bit_level (a_response a) <$> changes (a_response a) (a_base a) (a_bits a).

(** An attempt that ends on a low bit is released. *)
Definition edges (a : attempt) : list AA25Level :=
  driven a ++ (if bool_decide (bit_level (a_response a) (a_bits a - 1) = AA25LevelLow) then [AA25LevelHigh] else []).

Definition intents (c : AA25Config) (a : attempt) : list (AA25Level * Z) :=
  (fun bit => (bit_level (a_response a) bit, bit_deadline c (a_anchor a) (a_base a) bit)) <$> changes (a_response a) (a_base a) (a_bits a).

Definition heard (a : attempt) : list byte :=
  (fun i => aa25Wire (a_response a) !!! Z.to_nat i) <$> seqZ (a_base a / 10) (a_heard a - a_base a / 10).

(** Never more than two characters ahead of what was heard back; complete only
    with every bit sent and every symbol heard. *)
Record attempt_ok (Offered : AA25Prepared -> Prop) (c : AA25Config) (reserve : Z) (a : attempt) : Prop := {
  ok_offered : Offered (a_response a);
  ok_anchor : fits reserve (a_anchor a);
  ok_base : a_base a = 0 \/ a_base a = 10;
  ok_bits : a_base a <= a_bits a <= 10 * aa25WireLen (a_response a);
  ok_heard : a_base a / 10 <= a_heard a <= aa25WireLen (a_response a);
  ok_behind : 10 * a_heard a < a_bits a + 10;
  ok_ahead : a_bits a <= 10 * (a_heard a + 2);
  ok_done : a_done a = true -> a_bits a = 10 * aa25WireLen (a_response a) /\ a_heard a = aa25WireLen (a_response a) }.

(** A retransmission follows the completed first transmission of its response. *)
Inductive chained : list attempt -> Prop :=
| chained_nil : chained []
| chained_first l a : chained l -> a_base a = 0 -> chained (l ++ [a])
| chained_again l a b : chained (l ++ [a]) -> a_base a = 0 -> a_done a = true -> a_response b = a_response a -> a_base b = 10 ->
    chained ((l ++ [a]) ++ [b]).

(** ** Projections of what was done *)

Definition mark_edge (m : mark) : option AA25Level := match m with MEdge l => Some l | _ => None end.
Definition mark_intent (m : mark) : option (AA25Level * Z) := match m with MIntent l d _ => Some (l, d) | _ => None end.
Definition mark_echo (m : mark) : option byte := match m with MEcho b => Some b | _ => None end.
Definition mark_complete (m : mark) : option Z := match m with MComplete g => Some g | _ => None end.

(** An edge is written at its deadline or at most the tolerance after it. *)
Definition in_time (c : AA25Config) (m : mark) : Prop :=
  match m with MIntent _ deadline tick => deadline <= tick <= deadline + AA25TXLateToleranceTicks c | _ => True end.

Definition completed (a : attempt) : option Z := if a_done a then Some (AA25Generation (a_response a)) else None.

(** [past] and the attempt in progress explain the marks. *)
Record explains (c : AA25Config) (past current : list attempt) (ms : list mark) : Prop := {
  ex_edges : omap mark_edge ms = flat_map edges past ++ flat_map driven current;
  ex_intents : omap mark_intent ms = flat_map (intents c) (past ++ current);
  ex_heard : omap mark_echo ms = flat_map heard (past ++ current);
  ex_completed : omap mark_complete ms = omap completed past;
  ex_time : Forall (in_time c) ms }.

(** ** Growth of an attempt *)

Lemma seqZ_snoc m n : 0 <= n -> seqZ m (n + 1) = seqZ m n ++ [m + n].
Proof. intros. rewrite seqZ_app by lia. done. Qed.

Lemma changes_same p base bits : base <= bits -> bit_level p bits = bit_level p (bits - 1) -> changes p base (bits + 1) = changes p base bits.
Proof.
  intros Hb He. unfold changes. replace (bits + 1 - base) with (bits - base + 1) by lia. rewrite seqZ_snoc, filter_app by lia.
  replace (base + (bits - base)) with bits by lia. rewrite filter_cons_False, filter_nil by (intros H; by apply H). apply app_nil_r.
Qed.

Lemma changes_new p base bits : base <= bits -> bit_level p bits <> bit_level p (bits - 1) -> changes p base (bits + 1) = changes p base bits ++ [bits].
Proof.
  intros Hb He. unfold changes. replace (bits + 1 - base) with (bits - base + 1) by lia. rewrite seqZ_snoc, filter_app by lia.
  replace (base + (bits - base)) with bits by lia. by rewrite filter_cons_True, filter_nil.
Qed.

Lemma changes_none p base : changes p base base = [].
Proof. unfold changes. by rewrite Z.sub_diag. Qed.

Lemma heard_none p base anchor bits d : heard (mkAttempt p base anchor bits (base / 10) d) = [].
Proof. unfold heard. cbn. by rewrite Z.sub_diag. Qed.

Lemma heard_snoc p base anchor bits n d :
  base / 10 <= n -> heard (mkAttempt p base anchor bits (n + 1) d) = heard (mkAttempt p base anchor bits n d) ++ [aa25Wire p !!! Z.to_nat n].
Proof.
  intros. unfold heard. cbn. replace (n + 1 - base / 10) with (n - base / 10 + 1) by lia. rewrite seqZ_snoc, fmap_app by lia. cbn.
  by replace (base / 10 + (n - base / 10)) with n by lia.
Qed.

Lemma stop_level p n : bit_level p (10 * n - 1) = AA25LevelHigh.
Proof.
  unfold bit_level. change aa25BitsPerCharacter with 10. replace ((10 * n - 1) mod 10) with 9; [done|].
  replace (10 * n - 1) with (9 + (n - 1) * 10) by lia. by rewrite Z.mod_add by lia.
Qed.

Lemma start_level p n : bit_level p (10 * n) = AA25LevelLow.
Proof. unfold bit_level. change aa25BitsPerCharacter with 10. rewrite Z.mul_comm, Z.mod_mul by lia. done. Qed.

(** ** What each action adds *)

Section explains.
Context (c : AA25Config).
Implicit Types (past current : list attempt) (ms : list mark).

Lemma explains_begin past ms p base anchor : explains c past [] ms -> explains c past [mkAttempt p base anchor base (base / 10) false] ms.
Proof.
  intros []. split; [| | |done..].
  - rewrite ex_edges0. cbn. unfold driven. cbn. by rewrite changes_none.
  - rewrite ex_intents0, !flat_map_app. cbn. unfold intents. cbn. by rewrite changes_none.
  - rewrite ex_heard0, !flat_map_app. cbn. by rewrite heard_none.
Qed.

Lemma explains_bit past ms p base anchor bits h :
  base <= bits -> bit_level p bits = bit_level p (bits - 1) ->
  explains c past [mkAttempt p base anchor bits h false] ms -> explains c past [mkAttempt p base anchor (bits + 1) h false] ms.
Proof.
  intros Hb He []. split; [| | |done..].
  - rewrite ex_edges0. cbn. unfold driven. cbn. by rewrite (changes_same p base bits).
  - rewrite ex_intents0, !flat_map_app. cbn. unfold intents. cbn. by rewrite (changes_same p base bits).
  - rewrite ex_heard0, !flat_map_app. done.
Qed.

Lemma explains_edge past ms p base anchor bits h now :
  base <= bits -> bit_level p bits <> bit_level p (bits - 1) ->
  bit_deadline c anchor base bits <= now <= bit_deadline c anchor base bits + AA25TXLateToleranceTicks c ->
  explains c past [mkAttempt p base anchor bits h false] ms ->
  explains c past [mkAttempt p base anchor (bits + 1) h false]
    (ms ++ [MEdge (bit_level p bits)] ++ [MIntent (bit_level p bits) (bit_deadline c anchor base bits) now]).
Proof.
  intros Hb He Ht []. split.
  - rewrite !omap_app, ex_edges0. cbn. unfold driven. cbn. rewrite changes_new, fmap_app by done. cbn. rewrite ?app_nil_r, <- ?app_assoc. done.
  - rewrite !omap_app, ex_intents0, !flat_map_app. cbn. unfold intents. cbn. rewrite changes_new, fmap_app by done. cbn. rewrite ?app_nil_r, <- ?app_assoc. done.
  - rewrite !omap_app, ex_heard0, !flat_map_app. cbn. rewrite !app_nil_r. done.
  - rewrite !omap_app, ex_completed0. cbn. by rewrite app_nil_r.
  - apply Forall_app. split; [done|]. constructor; [done|]. by constructor.
Qed.

Lemma explains_echo past ms p base anchor bits h :
  base / 10 <= h -> explains c past [mkAttempt p base anchor bits h false] ms ->
  explains c past [mkAttempt p base anchor bits (h + 1) false] (ms ++ [MEcho (aa25Wire p !!! Z.to_nat h)]).
Proof.
  intros Hh []. split.
  - rewrite omap_app, ex_edges0. cbn. rewrite !app_nil_r. done.
  - rewrite omap_app, ex_intents0, !flat_map_app. cbn. rewrite !app_nil_r. done.
  - rewrite omap_app, ex_heard0, !flat_map_app. cbn. rewrite !app_nil_r, heard_snoc by done. rewrite <- ?app_assoc. done.
  - rewrite omap_app, ex_completed0. cbn. by rewrite app_nil_r.
  - apply Forall_app. split; [done|]. by constructor.
Qed.

(** The end of an attempt that is given up. *)
Lemma explains_abort past ms a :
  a_done a = false -> explains c past [a] ms ->
  explains c (past ++ [a]) [] (ms ++ (if bool_decide (bit_level (a_response a) (a_bits a - 1) = AA25LevelLow) then [MEdge AA25LevelHigh] else [])).
Proof.
  intros Hd []. cbn [flat_map] in *. rewrite app_nil_r in *. split.
  - rewrite omap_app, ex_edges0, flat_map_app. cbn. unfold edges at 3. rewrite !app_nil_r, <- app_assoc. f_equal. f_equal.
    destruct (bool_decide _); cbn; rewrite ?app_nil_r; done.
  - rewrite omap_app, app_nil_r, ex_intents0. destruct (bool_decide _); cbn; rewrite ?app_nil_r; done.
  - rewrite omap_app, app_nil_r, ex_heard0. destruct (bool_decide _); cbn; rewrite ?app_nil_r; done.
  - rewrite !omap_app, ex_completed0. f_equal. cbn. unfold completed. rewrite Hd. by destruct (bool_decide _).
  - apply Forall_app. split; [done|]. destruct (bool_decide _); by constructor.
Qed.

(** The end of an attempt that is complete. *)
Lemma explains_complete past ms p base anchor bits h :
  bit_level p (bits - 1) = AA25LevelHigh -> explains c past [mkAttempt p base anchor bits h false] ms ->
  explains c (past ++ [mkAttempt p base anchor bits h true]) [] (ms ++ [MComplete (AA25Generation p)]).
Proof.
  intros Hl []. cbn [flat_map] in *. rewrite app_nil_r in *. split.
  - rewrite omap_app, ex_edges0, flat_map_app. cbn. unfold edges, driven. cbn. by rewrite Hl, !app_nil_r.
  - rewrite omap_app, !app_nil_r, ex_intents0, !flat_map_app. cbn. by rewrite !app_nil_r.
  - rewrite omap_app, !app_nil_r, ex_heard0, !flat_map_app. cbn. by rewrite !app_nil_r.
  - by rewrite !omap_app, ex_completed0.
  - apply Forall_app. split; [done|]. by constructor.
Qed.
End explains.
