(* ===== verification/EngineSafety.v ===== *)
(** The invariant of the engine (src/localworker/aa25_engine.go): what is on the
    line is always part of a response that was offered, sent bit by bit on its
    schedule and no more than two characters ahead of its echo, and the line is
    released in between. *)

From S2P Require Import Prelude Calls EngineTypes Engine EngineTrace EngineAttempt.
#[local] Open Scope list_scope.
#[local] Open Scope Z_scope.

Section safety.
Context (cfg : AA25Config) (reserve : Z) (Hsch : scheduled cfg reserve).
Context (Offered : AA25Prepared -> Prop) (Hoffered : forall p, Offered p -> proper p).

(** The attempt in progress. *)
Definition current (c : core) : list attempt :=
  match aa25TXState (k_tx c) with
  | aa25TXActive => [mkAttempt (aa25Pinned (k_adm c)) (aa25TXBase (k_tx c)) (aa25TXAnchor (k_tx c)) (aa25TXBit (k_tx c)) (aa25EchoIndex (k_tx c)) false]
  | _ => []
  end.

Definition ends_complete (past : list attempt) (p : AA25Prepared) (first : bool) : Prop :=
  exists l a, past = l ++ [a] /\ a_done a = true /\ a_response a = p /\ (first = true -> a_base a = 0).

(** How the past leads to the present: a retransmission only follows a complete
    first transmission of the same response. *)
Definition linked (past : list attempt) (c : core) : Prop :=
  let t := k_tx c in
  match aa25TXState t with
  | aa25TXIdle => True
  | aa25TXAwaitAck => ends_complete past (aa25Pinned (k_adm c)) (negb (aa25TXRetried t))
  | _ => aa25TXRetried t = false /\ aa25TXBase t = 0 \/ aa25TXRetried t = true /\ aa25TXBase t = 10 /\ ends_complete past (aa25Pinned (k_adm c)) true
  end.

Definition stage (c : core) : Prop :=
  let t := k_tx c in
  match aa25TXState t with
  | aa25TXIdle => aa25TXLevel t = AA25LevelHigh
  | aa25TXWaiting =>
      aa25TXLevel t = AA25LevelHigh /\ k_phase c = aa25FrameTrailing /\ Offered (aa25Pinned (k_adm c)) /\ fits reserve (aa25TXAnchor t) /\
      aa25TXBit t = aa25TXBase t /\ aa25EchoIndex t = aa25TXBase t / 10
  | aa25TXActive =>
      aa25TXLevel t = bit_level (aa25Pinned (k_adm c)) (aa25TXBit t - 1) /\ k_phase c = aa25FrameTrailing /\ Offered (aa25Pinned (k_adm c)) /\
      Forall (attempt_ok Offered cfg reserve) (current c)
  | aa25TXAwaitAck => aa25TXLevel t = AA25LevelHigh /\ k_phase c = aa25FrameTrailing /\ Offered (aa25Pinned (k_adm c))
  end.

Record binv (c : core) : Prop := {
  b_config : k_config c = cfg;
  b_reserve : k_reserve c = reserve;
  b_controls : forall p, aa25ControlOffer p ∈ k_controls c -> Offered p;
  b_slot : aa25SlotValid (k_adm c) = true -> Offered (aa25Slot (k_adm c));
  b_pinned : aa25PinnedValid (k_adm c) = true -> Offered (aa25Pinned (k_adm c));
  b_start : 0 <= aa25CharStartTick (k_char c);
  b_stage : stage c;
  b_trace : exists past, chained past /\ Forall (attempt_ok Offered cfg reserve) past /\ explains cfg past (current c) (k_marks c) /\ linked past c }.

(** How many data bits are decided after the sample at an offset. *)
Definition decided (offset : Z) : Z := (offset - 6) / 10.

(** What is known after [n] data bits of a character: the bits not yet decided
    are clear, it is an echo exactly while a response is sent, and then its
    symbol is on the line and the bits decided are those of that symbol. *)
Definition hears (c : core) (n : Z) : Prop :=
  (forall i, n <= i -> Z.testbit (u8 (aa25CharShift (k_char c))) i = false) /\
  aa25CharEcho (k_char c) = bool_decide (aa25TXState (k_tx c) = aa25TXActive) /\
  aa25TXState (k_tx c) <> aa25TXWaiting /\
  (aa25TXState (k_tx c) = aa25TXActive ->
    10 * aa25EchoIndex (k_tx c) < aa25TXBit (k_tx c) /\
    forall i, 0 <= i < n ->
      Z.testbit (u8 (aa25CharShift (k_char c))) i = Z.testbit (u8 (aa25Wire (aa25Pinned (k_adm c)) !!! Z.to_nat (aa25EchoIndex (k_tx c)))) i).

(** While a character is received its samples are consecutive. *)
Definition receiving (c : core) (next : Z) : Prop :=
  aa25RXState (k_char c) = aa25RXCharacter ->
  exists offset, 0 <= offset < 96 /\ next = wrap 64 (aa25CharStartIndex (k_char c) + offset + 1) /\ hears c (decided offset).

Definition inv (c : core) : Prop := binv c /\ receiving c (k_next c).

(** Between characters. *)
Definition quiet (c : core) : Prop := binv c /\ aa25RXState (k_char c) <> aa25RXCharacter.

Lemma quiet_inv c : quiet c -> inv c.
Proof. intros [H1 H2]. split; [done|]. intros H. by destruct (H2 H). Qed.

(** ** Giving up *)

Lemma idle_true c : idle c = true <-> aa25TXState (k_tx c) = aa25TXIdle.
Proof. unfold idle. apply bool_decide_eq_true. Qed.

Lemma linked_idle past c : idle c = true -> linked past c.
Proof. intros H%idle_true. unfold linked. by rewrite H. Qed.

Lemma current_idle c : idle c = true -> current c = [].
Proof. intros H%idle_true. unfold current. by rewrite H. Qed.

Lemma aborted_idle c : idle (aborted c) = true.
Proof.
  unfold aborted. destruct (idle c) eqn:E; [done|]. unfold released. destruct (bool_decide _); reflexivity.
Qed.

Lemma binv_char c v : binv c -> 0 <= aa25CharStartTick v -> binv (k_with_char v c).
Proof. intros [] Hv. by split. Qed.

Lemma binv_withdrawn c : binv c -> binv (withdrawn c).
Proof. intros []. by split. Qed.

Lemma binv_dropped c : binv c -> idle c = true -> binv (dropped c).
Proof.
  intros [] Hi. pose proof Hi as Hi'. apply idle_true in Hi'. split; try done.
  - cbn. rewrite Hi. done.
  - unfold stage in *. cbn. rewrite Hi' in *. done.
Qed.

Lemma binv_started c : binv c -> idle c = true -> binv (started c).
Proof.
  intros [] Hi. pose proof Hi as Hi'. apply idle_true in Hi'. split; try done.
  - cbn. rewrite Hi. done.
  - unfold stage in *. cbn. rewrite Hi' in *. done.
Qed.

Lemma high_or_low l : bool_decide (l = AA25LevelLow) = false -> l = AA25LevelHigh.
Proof. by destruct l. Qed.
(** Where the line is low, a response is being sent. *)
Lemma stage_high c : stage c -> aa25TXState (k_tx c) <> aa25TXActive -> aa25TXLevel (k_tx c) = AA25LevelHigh.
Proof. unfold stage. destruct (aa25TXState (k_tx c)); tauto. Qed.

Lemma aborted_high c : idle c = false -> aa25TXLevel (k_tx c) = AA25LevelHigh ->
  aborted c = k_with_adm (set_pinned_valid false (k_adm c)) (k_with_tx (set_tx_state aa25TXIdle (k_tx c)) c).
Proof. intros Hi Hl. unfold aborted, released. rewrite Hi. cbn. by rewrite Hl. Qed.

Lemma chained_next past c bits h d :
  chained past -> aa25TXState (k_tx c) = aa25TXActive -> linked past c ->
  chained (past ++ [mkAttempt (aa25Pinned (k_adm c)) (aa25TXBase (k_tx c)) (aa25TXAnchor (k_tx c)) bits h d]).
Proof.
  intros Hc Ha. unfold linked. rewrite Ha. intros [[_ Hb]|(_ & Hb & l & a & -> & Hd & Hr & H0)]; [by apply chained_first|].
  apply chained_again; auto.
Qed.

Lemma binv_aborted c : binv c -> binv (aborted c).
Proof.
  intros Hb. destruct (idle c) eqn:Hi; [unfold aborted; by rewrite Hi|]. pose proof (b_stage _ Hb) as Hs.
  destruct (decide (aa25TXState (k_tx c) = aa25TXActive)) as [Ha|Ha].
  - destruct Hb. destruct b_trace0 as (past & H1 & H2 & H3 & H4). unfold stage in Hs. rewrite Ha in Hs. destruct Hs as (Hl & _ & _ & Hok).
    unfold current in H3, Hok. rewrite Ha in H3, Hok. pose proof (explains_abort _ _ _ (mkAttempt _ _ _ _ _ false) eq_refl H3) as H3'. cbn in H3'. rewrite <- Hl in H3'.
    pose proof (chained_next past c (aa25TXBit (k_tx c)) (aa25EchoIndex (k_tx c)) false H1 Ha H4) as Hc.
    unfold aborted, released. rewrite Hi. cbn. destruct (bool_decide _) eqn:El; (split; [done..| |]; cbn in *).
    + done.
    + eexists. split; [exact Hc|]. split; [by apply Forall_app|]. done.
    + unfold stage. cbn. by apply high_or_low.
    + eexists. split; [exact Hc|]. split; [by apply Forall_app|]. split; [|done]. rewrite app_nil_r in H3'. done.
  - rewrite (aborted_high c Hi (stage_high c Hs Ha)). destruct Hb. split; try done.
    + unfold stage. cbn. by rewrite (stage_high c Hs Ha).
    + destruct b_trace0 as (past & H1 & H2 & H3 & _). exists past. split; [done|]. split; [done|]. unfold current in *. cbn. by destruct (aa25TXState (k_tx c)).
Qed.

Lemma binv_invalidated c : binv c -> binv (invalidated c).
Proof.
  intros Hb. unfold invalidated. pose proof (binv_dropped _ (binv_aborted _ Hb) (aborted_idle c)) as H.
  apply binv_char; [done|]. exact (b_start _ H).
Qed.

Lemma inv_invalidated c : binv c -> inv (invalidated c).
Proof. intros Hb. apply quiet_inv. split; [by apply binv_invalidated|done]. Qed.

Lemma inv_withdrawn c : inv c -> inv (withdrawn c).
Proof. intros [H1 H2]. split; [by apply binv_withdrawn|exact H2]. Qed.

Lemma inv_failed c : binv c -> inv (withdrawn (invalidated c)).
Proof. intros Hb. by apply inv_withdrawn, inv_invalidated. Qed.


(** ** The response on the wire *)

Lemma active_ok c : binv c -> aa25TXState (k_tx c) = aa25TXActive ->
  attempt_ok Offered cfg reserve (mkAttempt (aa25Pinned (k_adm c)) (aa25TXBase (k_tx c)) (aa25TXAnchor (k_tx c)) (aa25TXBit (k_tx c)) (aa25EchoIndex (k_tx c)) false).
Proof.
  intros [] Ha. unfold stage in *. rewrite Ha in *. destruct b_stage0 as (_ & _ & _ & Hok). unfold current in Hok. rewrite Ha in Hok.
  exact (proj1 (Forall_singleton _ _) Hok).
Qed.

(** The sending engine with other progress, once that is explained. *)
Lemma binv_progress c t ms :
  binv c -> aa25TXState (k_tx c) = aa25TXActive -> aa25TXState t = aa25TXActive ->
  aa25TXBase t = aa25TXBase (k_tx c) -> aa25TXAnchor t = aa25TXAnchor (k_tx c) -> aa25TXRetried t = aa25TXRetried (k_tx c) ->
  aa25TXLevel t = bit_level (aa25Pinned (k_adm c)) (aa25TXBit t - 1) ->
  attempt_ok Offered cfg reserve (mkAttempt (aa25Pinned (k_adm c)) (aa25TXBase (k_tx c)) (aa25TXAnchor (k_tx c)) (aa25TXBit t) (aa25EchoIndex t) false) ->
  (forall past,
    explains cfg past [mkAttempt (aa25Pinned (k_adm c)) (aa25TXBase (k_tx c)) (aa25TXAnchor (k_tx c)) (aa25TXBit (k_tx c)) (aa25EchoIndex (k_tx c)) false] (k_marks c) ->
    explains cfg past [mkAttempt (aa25Pinned (k_adm c)) (aa25TXBase (k_tx c)) (aa25TXAnchor (k_tx c)) (aa25TXBit t) (aa25EchoIndex t) false] (k_marks c ++ ms)) ->
  binv (k_marked ms (k_with_tx t c)).
Proof.
  intros Hb Ha Ht E1 E2 E3 El Hok Hex. destruct Hb. split; try done.
  - unfold stage in *. rewrite Ha in b_stage0. unfold current. cbn. rewrite Ht, E1, E2. destruct b_stage0 as (_ & ? & ? & _).
    split; [done|]. split; [done|]. split; [done|]. exact (proj2 (Forall_singleton _ _) Hok).
  - destruct b_trace0 as (past & H1 & H2 & H3 & H4). exists past. split; [done|]. split; [done|]. unfold current in *. cbn. rewrite Ha in H3. rewrite Ht, E1, E2.
    split; [by apply Hex|]. unfold linked in *. cbn. rewrite Ha in H4. rewrite Ht, E1, E3. exact H4.
Qed.

Lemma base_cases a : attempt_ok Offered cfg reserve a -> 0 <= a_base a / 10 /\ a_base a = 10 * (a_base a / 10) /\ 0 <= a_base a <= 10.
Proof. intros Ha. destruct (ok_base _ _ _ _ Ha) as [->| ->]; [change (0 / 10) with 0|change (10 / 10) with 1]; lia. Qed.

(** The deadlines of an attempt. *)
Lemma attempt_deadline a t bit :
  aa25TXAnchor t = a_anchor a -> aa25TXBase t = a_base a -> attempt_ok Offered cfg reserve a -> a_base a <= bit + 10 -> bit <= 10 * aa25WireLen (a_response a) ->
  tx_deadline cfg t bit = bit_deadline cfg (a_anchor a) (a_base a) bit /\ 0 <= bit_deadline cfg (a_anchor a) (a_base a) bit /\ bit_deadline cfg (a_anchor a) (a_base a) bit + AA25EchoAllowanceTicks cfg + AA25TXLateToleranceTicks cfg < 2 ^ 64.
Proof.
  intros E1 E2 Ha Hlo Hhi. unfold tx_deadline. rewrite E1, E2. pose proof (base_cases a Ha) as (? & ? & ?). pose proof (pr_length _ (Hoffered _ (ok_offered _ _ _ _ Ha))).
  apply tx_deadline_exact with (reserve := reserve); [done|exact (ok_anchor _ _ _ _ Ha)|lia].
Qed.

(** A bit is sent before the echo of the symbol two characters back is due. *)
Lemma bit_not_ahead a bit now : attempt_ok Offered cfg reserve a -> a_base a <= bit -> a_heard a < aa25WireLen (a_response a) ->
  bit_deadline cfg (a_anchor a) (a_base a) bit <= now ->
  now < bit_deadline cfg (a_anchor a) (a_base a) (10 * (a_heard a + 1)) + AA25EchoAllowanceTicks cfg ->
  bit < 10 * (a_heard a + 2).
Proof.
  intros Ha Hlo Hh H1 H2. pose proof (base_cases a Ha) as (? & ? & ?). pose proof (sch_hz _ _ Hsch). pose proof (sch_echo _ _ Hsch).
  pose proof (ok_heard _ _ _ _ Ha). unfold bit_deadline in *.
  destruct (Z.lt_ge_cases bit (10 * (a_heard a + 2))) as [?|Hge]; [done|exfalso].
  pose proof (bit_ticks_add cfg (10 + 10 * (a_heard a + 1) - a_base a) 10 ltac:(lia) ltac:(lia) ltac:(lia)).
  pose proof (bit_ticks_mono cfg (10 + 10 * (a_heard a + 1) - a_base a + 10) (10 + bit - a_base a) ltac:(lia) ltac:(lia)). lia.
Qed.

Context {W : Type} `{EnginePorts W}.
#[local] Notation M := (ST (machine (recorded W))).

(** The attempt of a sending engine. *)
Definition sending (c : core) : attempt :=
  mkAttempt (aa25Pinned (k_adm c)) (aa25TXBase (k_tx c)) (aa25TXAnchor (k_tx c)) (aa25TXBit (k_tx c)) (aa25EchoIndex (k_tx c)) false.

Lemma next_bit_ok c now :
  attempt_ok Offered cfg reserve (sending c) -> aa25TXBit (k_tx c) < 10 * aa25WireLen (aa25Pinned (k_adm c)) ->
  bit_deadline cfg (aa25TXAnchor (k_tx c)) (aa25TXBase (k_tx c)) (aa25TXBit (k_tx c)) <= now ->
  (aa25EchoIndex (k_tx c) < aa25WireLen (aa25Pinned (k_adm c)) ->
    now < bit_deadline cfg (aa25TXAnchor (k_tx c)) (aa25TXBase (k_tx c)) (10 * (aa25EchoIndex (k_tx c) + 1)) + AA25EchoAllowanceTicks cfg) ->
  attempt_ok Offered cfg reserve (mkAttempt (aa25Pinned (k_adm c)) (aa25TXBase (k_tx c)) (aa25TXAnchor (k_tx c)) (aa25TXBit (k_tx c) + 1) (aa25EchoIndex (k_tx c)) false).
Proof.
  intros Hok Hlt Hd He. pose proof (bit_not_ahead (sending c) (aa25TXBit (k_tx c)) now Hok) as Ha. cbn in Ha.
  pose proof (ok_bits _ _ _ _ Hok) as Hb. pose proof (ok_behind _ _ _ _ Hok) as Hbe. pose proof (ok_heard _ _ _ _ Hok) as Hh. cbn in Hb, Hbe, Hh.
  destruct Hok. split; cbn in *; try done; [lia|lia|].
  destruct (Z.lt_ge_cases (aa25EchoIndex (k_tx c)) (aa25WireLen (aa25Pinned (k_adm c)))) as [Hl|Hl]; [specialize (Ha ltac:(lia) Hl Hd (He Hl)); lia|lia].
Qed.

Lemma receiving_more c t ms next :
  receiving c next -> aa25TXState t = aa25TXState (k_tx c) -> aa25EchoIndex t = aa25EchoIndex (k_tx c) -> aa25TXBit (k_tx c) <= aa25TXBit t ->
  receiving (k_marked ms (k_with_tx t c)) next.
Proof.
  intros Hr E1 E2 E3 Hc. destruct (Hr Hc) as (o & H1 & H2 & H3 & H4 & H5 & H6). exists o. unfold hears. cbn. rewrite E1, E2.
  split; [done|]. split; [done|]. split; [done|]. split; [done|]. split; [done|]. intros Ha. destruct (H6 Ha). split; [lia|done].
Qed.

Lemma wp_send_bit now c :
  inv c -> aa25TXState (k_tx c) = aa25TXActive -> aa25TXBit (k_tx c) < 10 * aa25WireLen (aa25Pinned (k_adm c)) ->
  (aa25EchoIndex (k_tx c) < aa25WireLen (aa25Pinned (k_adm c)) ->
    now < bit_deadline cfg (aa25TXAnchor (k_tx c)) (aa25TXBase (k_tx c)) (10 * (aa25EchoIndex (k_tx c) + 1)) + AA25EchoAllowanceTicks cfg) ->
  wp (send_bit now : M unit) (fun _ => inv) c.
Proof.
  intros [Hb Hr] Ha Hlt Hecho. unfold send_bit. wps. pose proof (active_ok c Hb Ha) as Hok.
  pose proof (ok_bits _ _ _ _ Hok) as Hbits. pose proof (base_cases _ Hok) as (Hb1 & Hb2 & Hb3). cbn in Hbits, Hb1, Hb2, Hb3. pose proof (pr_length _ (Hoffered _ (ok_offered _ _ _ _ Hok))) as Hlen. cbn in Hlen.
  destruct (attempt_deadline (sending c) (k_tx c) (aa25TXBit (k_tx c)) eq_refl eq_refl Hok ltac:(cbn; lia) ltac:(cbn; lia)) as (Hd & Hd0 & Hd1).
  cbn in Hd, Hd0, Hd1. rewrite (b_config _ Hb), Hd. rewrite (wrap_small 64 (aa25TXBit _ + 1)) by lia. rewrite (wrap_small 64 (bit_deadline _ _ _ _ + _)); [|pose proof (sch_late _ _ Hsch); pose proof (sch_echo _ _ Hsch); lia].
  destruct (Z.ltb_spec now (bit_deadline cfg (aa25TXAnchor (k_tx c)) (aa25TXBase (k_tx c)) (aa25TXBit (k_tx c)))) as [?|Hnow]; [by apply wp_ret|].
  pose proof (next_bit_ok c now Hok Hlt Hnow Hecho) as Hok'.
  assert (aa25TXLevel (k_tx c) = bit_level (aa25Pinned (k_adm c)) (aa25TXBit (k_tx c) - 1)) as Hl by (pose proof (b_stage _ Hb) as Hs; unfold stage in Hs; rewrite Ha in Hs; tauto).
  destruct (bool_decide _) eqn:El; [apply bool_decide_eq_true in El|apply bool_decide_eq_false in El].
  - wps. rewrite <- (k_marked_nil (k_with_tx _ _)). split; [|by apply receiving_more; [done..|cbn; lia]].
    apply binv_progress; try done; [cbn; by rewrite Z.add_simpl_r, El|].
    intros past Hex. rewrite app_nil_r. apply explains_bit; [lia|congruence|done].
  - destruct (Z.ltb_spec (bit_deadline cfg (aa25TXAnchor (k_tx c)) (aa25TXBase (k_tx c)) (aa25TXBit (k_tx c)) + AA25TXLateToleranceTicks cfg) now); [wps; by apply inv_failed|].
    unfold aa25DriveEdge. wps. cbn.
    match goal with |- inv (k_with_tx ?t (k_marked ?m2 (k_with_tx _ (k_marked ?m1 _)))) =>
      replace (k_with_tx _ _) with (k_marked (m1 ++ m2) (k_with_tx t c)) by (unfold k_marked, k_with_tx; cbn; by rewrite <- app_assoc) end.
    split; [|by apply receiving_more; [done..|cbn; lia]].
    apply binv_progress; try done; [cbn; by rewrite Z.add_simpl_r|].
    intros past Hex. apply explains_edge; [lia|congruence|lia|done].
Qed.

Lemma wp_complete now Q c :
  Q tt (k_with_tx (set_ack_since now (set_tx_state aa25TXAwaitAck (k_tx c))) (k_marked [MComplete (AA25Generation (aa25Pinned (k_adm c)))] c)) ->
  wp (aa25CompleteTX now : M unit) Q c.
Proof. intros HQ. unfold aa25CompleteTX. wps. exact HQ. Qed.

Lemma binv_complete c now :
  binv c -> aa25TXState (k_tx c) = aa25TXActive -> aa25TXBit (k_tx c) = 10 * aa25WireLen (aa25Pinned (k_adm c)) ->
  aa25EchoIndex (k_tx c) = aa25WireLen (aa25Pinned (k_adm c)) ->
  binv (k_with_tx (set_ack_since now (set_tx_state aa25TXAwaitAck (k_tx c))) (k_marked [MComplete (AA25Generation (aa25Pinned (k_adm c)))] c)).
Proof.
  intros Hb Ha Hbit Hecho. pose proof (active_ok c Hb Ha) as Hok. destruct Hb. unfold stage in b_stage0. rewrite Ha in b_stage0.
  destruct b_stage0 as (Hl & Hp & Ho & _). rewrite Hbit, stop_level in Hl. split; try done.
  destruct b_trace0 as (past & H1 & H2 & H3 & H4). unfold current in H3. rewrite Ha in H3.
  exists (past ++ [mkAttempt (aa25Pinned (k_adm c)) (aa25TXBase (k_tx c)) (aa25TXAnchor (k_tx c)) (aa25TXBit (k_tx c)) (aa25EchoIndex (k_tx c)) true]).
  split; [by apply chained_next|]. split; [|split].
  - apply Forall_app. split; [done|]. apply (proj2 (Forall_singleton _ _)). destruct Hok. by split.
  - apply explains_complete; [by rewrite Hbit, stop_level|done].
  - unfold linked in *. cbn. rewrite Ha in H4. eexists _, _. split; [done|]. split; [done|]. split; [done|]. cbn.
    destruct H4 as [[-> ->]|(-> & -> & _)]; [done|discriminate].
Qed.

(** No character is in the middle of being heard when the last echo is in. *)
Lemma all_heard_quiet c : inv c -> aa25TXState (k_tx c) = aa25TXActive -> aa25TXBit (k_tx c) = 10 * aa25WireLen (aa25Pinned (k_adm c)) ->
  aa25EchoIndex (k_tx c) = aa25WireLen (aa25Pinned (k_adm c)) -> aa25RXState (k_char c) <> aa25RXCharacter.
Proof. intros [_ Hr] Ha Hb He Hc. destruct (Hr Hc) as (o & _ & _ & _ & _ & _ & H6). destruct (H6 Ha). lia. Qed.

Lemma wp_step_active now c : inv c -> aa25TXState (k_tx c) = aa25TXActive -> wp (step_active now : M unit) (fun _ => inv) c.
Proof.
  intros Hi Ha. pose proof Hi as [Hb Hr]. unfold step_active. wps. pose proof (active_ok c Hb Ha) as Hok.
  pose proof (pr_length _ (Hoffered _ (ok_offered _ _ _ _ Hok))) as Hlen. cbn in Hlen. pose proof (base_cases _ Hok) as (? & ? & ?). cbn in *.
  change (aa25BitsPerCharacter) with 10. rewrite (b_config _ Hb).
  destruct (Z.ltb_spec (aa25EchoIndex (k_tx c)) (aa25WireLen (aa25Pinned (k_adm c)))) as [Hlt|Hge]; cbn [andb].
  - assert (echo_deadline cfg (k_tx c) =
      bit_deadline cfg (aa25TXAnchor (k_tx c)) (aa25TXBase (k_tx c)) (10 * (aa25EchoIndex (k_tx c) + 1)) + AA25EchoAllowanceTicks cfg) as ->.
    { pose proof (ok_heard _ _ _ _ Hok) as Hh. cbn in Hh. unfold echo_deadline. change aa25BitsPerCharacter with 10. rewrite (wrap_small 64 (_ * _)) by lia.
      replace ((aa25EchoIndex (k_tx c) + 1) * 10) with (10 * (aa25EchoIndex (k_tx c) + 1)) by ring.
      destruct (attempt_deadline (sending c) (k_tx c) (10 * (aa25EchoIndex (k_tx c) + 1)) eq_refl eq_refl Hok ltac:(cbn; lia) ltac:(cbn; lia)) as (-> & ? & ?).
      cbn in *. apply wrap_small. pose proof (sch_late _ _ Hsch). pose proof (sch_echo _ _ Hsch). lia. }
    destruct (Z.leb_spec (bit_deadline cfg (aa25TXAnchor (k_tx c)) (aa25TXBase (k_tx c)) (10 * (aa25EchoIndex (k_tx c) + 1)) + AA25EchoAllowanceTicks cfg) now); [wps; by apply inv_failed|].
    destruct (Z.ltb_spec (aa25TXBit (k_tx c)) (aa25WireLen (aa25Pinned (k_adm c)) * 10)); [apply wp_send_bit; [done..|lia|lia]|].
    destruct (Z.eqb_spec (aa25EchoIndex (k_tx c)) (aa25WireLen (aa25Pinned (k_adm c)))); [lia|]. by apply wp_ret.
  - destruct (Z.ltb_spec (aa25TXBit (k_tx c)) (aa25WireLen (aa25Pinned (k_adm c)) * 10)); [apply wp_send_bit; [done..|lia|lia]|].
    pose proof (ok_bits _ _ _ _ Hok) as Hbits. pose proof (ok_heard _ _ _ _ Hok) as Hh. cbn in Hbits, Hh.
    destruct (_ && _); [|by apply wp_ret]. apply wp_complete. apply quiet_inv. split; [apply binv_complete; [done..|lia|lia]|].
    exact (all_heard_quiet c Hi Ha ltac:(lia) ltac:(lia)).
Qed.

(** Giving up a response that is not on the wire. *)
Lemma receiving_aborted c next : stage c -> receiving c next -> aa25TXState (k_tx c) <> aa25TXActive -> receiving (aborted c) next.
Proof.
  intros Hs Hr Ha. destruct (idle c) eqn:Hi; [unfold aborted; by rewrite Hi|]. rewrite (aborted_high c Hi (stage_high c Hs Ha)).
  intros Hc. destruct (Hr Hc) as (o & H1 & H2 & H3 & H4 & H5 & H6). exists o. unfold hears. cbn.
  split; [done|]. split; [done|]. split; [done|]. split; [|done]. rewrite H4. by apply bool_decide_eq_false.
Qed.

Lemma inv_aborted c : inv c -> aa25TXState (k_tx c) <> aa25TXActive -> inv (aborted c).
Proof.
  intros [Hb Hr] Ha. split; [by apply binv_aborted|].
  replace (k_next (aborted c)) with (k_next c) by (unfold aborted, released; destruct (idle c); [done|]; by destruct (bool_decide _)).
  apply receiving_aborted; [exact (b_stage _ Hb)|done..].
Qed.

Lemma wp_step_tx now c : inv c -> wp (aa25StepTX now : M unit) (fun _ => inv) c.
Proof.
  intros Hi. pose proof Hi as [Hb Hr]. unfold aa25StepTX. wp1. wp1. destruct (aa25TXState (k_tx c)) eqn:Ha.
  - by apply wp_ret.
  - wps. destruct (_ || _) eqn:E; [by apply wp_ret|]. wps. apply orb_false_iff in E as [_ _].
    apply wp_step_active; [|done]. pose proof (b_stage _ Hb) as Hs. unfold stage in Hs. rewrite Ha in Hs.
    destruct Hs as (Hl & Hp & Ho & Hf & Hbit & Hecho). split.
    + destruct Hb. destruct b_trace0 as (past & H1 & H2 & H3 & H4). unfold linked in H4. rewrite Ha in H4.
      assert (aa25TXBase (k_tx c) = 0 \/ aa25TXBase (k_tx c) = 10) as Hbase by tauto.
      assert (attempt_ok Offered cfg reserve (sending c)) as Hok.
      { pose proof (Hoffered _ Ho) as Hpr. pose proof (pr_length _ Hpr). split; cbn; try done; rewrite ?Hbit, ?Hecho; (destruct Hbase as [->| ->]; [change (0 / 10) with 0|change (10 / 10) with 1]; lia). }
      split; try done.
      * unfold stage. cbn. split; [|split; [done|split; [done|exact (proj2 (Forall_singleton _ _) Hok)]]].
        rewrite Hbit, Hl. destruct Hbase as [->| ->]; symmetry; [exact (stop_level _ 0)|exact (stop_level _ 1)].
      * exists past. split; [done|]. split; [done|]. unfold current in *. cbn. rewrite Ha in H3. split; [|unfold linked; cbn; tauto].
        rewrite Hbit, Hecho. by apply explains_begin.
    + intros Hc. destruct (Hr Hc) as (o & _ & _ & _ & _ & H5 & _). done.
  - by apply wp_step_active.
  - wps. destruct (_ <=? now); wps; [|done]. apply inv_aborted; [done|]. by rewrite Ha.
Qed.

(** ** The frame *)

Lemma binv_phase c p : binv c -> idle c = true -> binv (k_with_phase p c).
Proof.
  intros [] Hi. apply idle_true in Hi. split; try done. unfold stage in *. cbn. rewrite Hi in *. done.
Qed.

Lemma binv_unpin c : binv c -> binv (k_with_adm (set_pinned_valid false (k_adm c)) c).
Proof. intros []. by split. Qed.

Lemma binv_pin c : binv c -> idle c = true -> aa25SlotValid (k_adm c) = true -> binv (k_with_adm (set_pinned (aa25Slot (k_adm c)) true (k_adm c)) c).
Proof.
  intros [] Hi Hs. apply idle_true in Hi. split; try done.
  - cbn. auto.
  - unfold stage in *. cbn. rewrite Hi in *. done.
  - destruct b_trace0 as (past & H1 & H2 & H3 & H4). exists past. unfold current, linked in *. cbn. rewrite Hi in *. done.
Qed.

Lemma wp_admit now c : quiet c -> idle c = true -> k_phase c = aa25FrameTrailing -> wp (aa25AdmitResponse now : M unit) (fun _ => quiet) c.
Proof.
  intros [Hb Hq] Hi Hp. unfold aa25AdmitResponse. wps. destruct (aa25PinnedValid (k_adm c)) eqn:Hv; cbn [negb]; [|by apply wp_ret].
  destruct (_ || _); [wps; split; [by apply binv_unpin|done]|].
  destruct (aa25ScheduleFits _ _) eqn:Hf; cbn [negb]; [|wps; split; [by apply binv_unpin|done]].
  wps. cbn [event_marks plain_event AA25Kind]. rewrite k_marked_nil. split; [|done]. apply idle_true in Hi. destruct Hb.
  rewrite b_reserve0 in Hf. pose proof (schedule_fits_spec cfg reserve _ Hsch b_start0 Hf) as Hfits.
  unfold stage in b_stage0. rewrite Hi in b_stage0. split; try done.
  - unfold stage. cbn. split; [done|]. split; [done|]. split; [auto|]. done.
  - destruct b_trace0 as (past & H1 & H2 & H3 & H4). exists past. split; [done|]. split; [done|]. unfold current in *. cbn. rewrite Hi in H3.
    split; [done|]. unfold linked. cbn. by left.
Qed.

Lemma wp_drop_faulty fault now c : quiet c -> idle c = true -> wp (drop_faulty fault now : M unit) (fun _ => quiet) c.
Proof. intros [Hb Hq] Hi. unfold drop_faulty. wps. split; [by apply binv_dropped|done]. Qed.

Lemma wp_observe_target logical escaped now c :
  quiet c -> idle c = true -> wp (observe_target logical escaped now : M unit) (fun _ => quiet) c.
Proof.
  intros [Hb Hq] Hi. unfold observe_target. destruct escaped; [by apply wp_drop_faulty|]. wp1. wp1. intros r Hr. wps.
  assert (quiet (k_with_phase aa25FramePB_ c)) as Hpb by (split; [by apply binv_phase|done]).
  destruct (_ && _); [by apply wp_drop_faulty|]. cbn. destruct (aa25SlotValid (k_adm c)) eqn:Hs; [|rewrite andb_false_r; by apply wp_ret].
  rewrite andb_true_r. destruct (_ =b _); [|by apply wp_ret]. wps. cbn. rewrite k_marked_nil. split; [|done].
  apply (binv_pin (k_with_phase aa25FramePB_ c)); [exact (proj1 Hpb)|done..].
Qed.

Lemma wp_observe_crc logical now c : quiet c -> idle c = true -> wp (observe_crc logical now : M unit) (fun _ => quiet) c.
Proof.
  intros [Hb Hq] Hi. unfold observe_crc. wp1. wp1. intros r Hr. wps.
  assert (quiet (k_with_phase aa25FrameTrailing c)) as Ht by (split; [by apply binv_phase|done]).
  destruct (_ =b _); cbn [negb]; wps.
  - cbn [event_marks plain_event AA25Kind]. rewrite k_marked_nil. by apply wp_admit.
  - split; [by apply binv_unpin, Ht|done].
Qed.

Lemma wp_deliver logical escaped now c : quiet c -> wp (aa25DeliverLogical logical escaped now : M unit) (fun _ => quiet) c.
Proof.
  intros Hqc. pose proof Hqc as [Hb Hq]. unfold aa25DeliverLogical. wps. cbn [event_marks AA25Kind]. rewrite k_marked_nil. wps.
  destruct (idle c) eqn:Hi.
  - assert (forall p, quiet (k_with_phase p c)) as Hph by (intros p; split; [by apply binv_phase|done]).
    destruct (k_phase c); try (by apply wp_ret); try (wp1; intros r Hr; apply Hph).
    + destruct escaped; [by apply wp_drop_faulty|]. wp1. intros r Hr. apply Hph.
    + by apply wp_observe_target.
    + destruct (_ <? _); [by apply wp_drop_faulty|]. wp1. intros r Hr. apply Hph.
    + by apply wp_observe_crc.
  - assert (k_phase c = aa25FrameTrailing) as ->; [|by apply wp_ret].
    pose proof (b_stage _ Hb) as Hs. unfold stage in Hs. unfold idle in Hi. apply bool_decide_eq_false in Hi.
    destruct (aa25TXState (k_tx c)); tauto.
Qed.

End safety.
