(* ===== verification/EngineReceive.v ===== *)
(** Receiving with a response on the line (src/localworker/aa25_engine.go): the
    frame, the final acknowledgement and the characters keep the invariant of
    EngineSafety.v; what is counted as an echo is the symbol that was sent.

    Then the steps, offers and withdrawals as a whole. *)

From S2P Require Import Prelude Calls EngineTypes Engine EngineTrace EngineAttempt EngineSafety.
#[local] Open Scope list_scope.
#[local] Open Scope Z_scope.

Section receive.
Context (cfg : AA25Config) (reserve : Z) (Hsch : scheduled cfg reserve).
Context (Offered : AA25Prepared -> Prop) (Hoffered : forall p, Offered p -> proper p).
Context {W : Type} `{EnginePorts W}.
#[local] Notation M := (ST (machine (recorded W))).
#[local] Notation quiet := (quiet cfg reserve Offered).
#[local] Notation binv := (binv cfg reserve Offered).
#[local] Notation inv := (inv cfg reserve Offered).

(** ** Symbols of a frame *)

Lemma quiet_started c : quiet c -> idle c = true -> quiet (started c).
Proof. intros [Hb Hq] Hi. split; [by apply binv_started|exact Hq]. Qed.

Lemma same_phase c r : aa25FramePhase r = k_phase c -> k_with_phase (aa25FramePhase r) c = c.
Proof. intros ->. by destruct c. Qed.

Lemma advance_phase symbol r : aa25FramePhase (advance_crc symbol r) = aa25FramePhase r.
Proof. unfold advance_crc. by case_bool_decide. Qed.

Lemma quiet_aborted c : quiet c -> quiet (aborted c).
Proof.
  intros [Hb Hq]. split; [by apply binv_aborted|]. unfold aborted, released. destruct (idle c); [done|]. by destruct (bool_decide _).
Qed.

Lemma quiet_dropped c : quiet c -> idle c = true -> quiet (dropped c).
Proof. intros [Hb Hq] Hi. split; [by apply binv_dropped|exact Hq]. Qed.

Lemma phase_sending c : binv c -> idle c = false -> k_phase c = aa25FrameTrailing.
Proof.
  intros Hb Hi. pose proof (b_stage _ _ _ _ Hb) as Hs. unfold stage in Hs. unfold idle in Hi. apply bool_decide_eq_false in Hi.
  destruct (aa25TXState (k_tx c)); tauto.
Qed.

Lemma wp_feed_escaped symbol now c : quiet c -> wp (feed_escaped symbol now : M unit) (fun _ => quiet) c.
Proof.
  intros Hq. unfold feed_escaped. wp1. wp1. intros r Hr. cbn. rewrite (same_phase c r Hr).
  destruct (_ || _).
  - wp1. wp1. intros r' Hr'. rewrite advance_phase, (same_phase c r' Hr'). by apply wp_deliver.
  - wps. pose proof (quiet_dropped _ (quiet_aborted c Hq) (aborted_idle c)) as Hd. apply wp_only_if; [|done].
    intros _. wps. apply quiet_started; [done|]. exact (aborted_idle c).
Qed.

Lemma wp_feed symbol now c : quiet c -> (idle c = false -> symbol <> aa25SymbolSyn) -> wp (aa25FeedFrame symbol now : M unit) (fun _ => quiet) c.
Proof.
  intros Hq Hs. unfold aa25FeedFrame. wp1. apply wp_got. intros e He. rewrite (f_equal k_phase He : aa25FramePhase (frame e) = _).
  assert ((symbol =b aa25SymbolSyn) = true -> idle c = true) as Hsyn.
  { intros ->%byte_eqb_eq. destruct (idle c); [done|]. by destruct (Hs eq_refl). }
  destruct (bool_decide _); [apply wp_only_if; [intros E; wps; by apply quiet_started; auto|done]|].
  destruct (aa25EscapePending (frame e)); [by apply wp_feed_escaped|]. destruct (symbol =b aa25SymbolSyn) eqn:E.
  - wp1. apply wp_only_if; intros _; wps; apply quiet_started; auto.
  - destruct (symbol =b aa25SymbolEscape).
    + wp1. intros r Hr. rewrite advance_phase. cbn. by rewrite (same_phase c r Hr).
    + wp1. wp1. intros r Hr. rewrite advance_phase, (same_phase c r Hr). by apply wp_deliver.
Qed.
(** ** The final acknowledgement *)

Lemma binv_acknowledged c :
  binv c -> aa25TXState (k_tx c) = aa25TXAwaitAck ->
  binv (k_with_adm (set_pinned_valid false (k_adm c)) (k_with_tx (set_tx_state aa25TXIdle (k_tx c)) c)).
Proof.
  intros Hb Ha. assert (idle c = false) as Hi by (apply bool_decide_eq_false; congruence).
  rewrite <- (aborted_high c Hi); [by apply binv_aborted|]. apply (stage_high cfg reserve Offered); [exact (b_stage _ _ _ _ Hb)|congruence].
Qed.

Lemma binv_retransmit c anchor :
  binv c -> aa25TXState (k_tx c) = aa25TXAwaitAck -> aa25TXRetried (k_tx c) = false -> fits reserve anchor ->
  binv (k_with_tx (mkTransmit aa25TXWaiting anchor 10 10 true (aa25RetryCancel (k_tx c)) (aa25AckSince (k_tx c)) (aa25TXLevel (k_tx c)) 1)
    (k_with_adm (set_pinned_valid true (set_pinned_valid false (k_adm c))) c)).
Proof.
  intros Hb Ha Hr Hf. pose proof (b_stage _ _ _ _ Hb) as Hs. unfold stage in Hs. rewrite Ha in Hs. destruct Hs as (Hl & Hp & Ho).
  destruct Hb. split; try done. destruct b_trace as (past & H1 & H2 & H3 & H4). exists past. split; [done|]. split; [done|].
  unfold current, linked in *. cbn. rewrite Ha in H3, H4. rewrite Hr in H4. split; [done|]. by right.
Qed.

Lemma wp_final_ack symbol now c :
  quiet c -> aa25TXState (k_tx c) = aa25TXAwaitAck ->
  wp (aa25HandleFinalAck symbol now : M unit) (fun _ c' => quiet c' /\ (idle c' = false -> symbol <> aa25SymbolSyn)) c.
Proof.
  intros [Hb Hq] Ha. pose proof (binv_acknowledged c Hb Ha) as Hi. unfold aa25HandleFinalAck. wps.
  destruct (symbol =b aa25SymbolNack) eqn:En; cbn [negb orb]; [|by wps].
  apply byte_eqb_eq in En as ->. destruct (_ <=? _); wps; [done|]. cbn.
  destruct (aa25RetryCancel (k_tx c)); [by wps|]. destruct (aa25TXRetried (k_tx c)) eqn:Hr; [by wps|].
  rewrite (b_reserve _ _ _ _ Hb). destruct (aa25ScheduleFits _ _) eqn:Hf; cbn [negb]; wps; [|done].
  apply (schedule_fits_spec cfg reserve _ Hsch (b_start _ _ _ _ Hb)) in Hf. split; [|done]. split; [|exact Hq].
  exact (binv_retransmit c _ Hb Ha Hr Hf).
Qed.

(** ** A symbol *)

(** The attempt after one more symbol came back. *)
Lemma echo_ok a :
  attempt_ok Offered cfg reserve a -> a_done a = false -> 10 * a_heard a < a_bits a ->
  attempt_ok Offered cfg reserve (mkAttempt (a_response a) (a_base a) (a_anchor a) (a_bits a) (a_heard a + 1) false).
Proof. intros [] Hd Hh. split; cbn in *; try done; lia. Qed.

Lemma quiet_echo c :
  quiet c -> aa25TXState (k_tx c) = aa25TXActive -> 10 * aa25EchoIndex (k_tx c) < aa25TXBit (k_tx c) ->
  aa25CharShift (k_char c) = aa25Wire (aa25Pinned (k_adm c)) !!! Z.to_nat (aa25EchoIndex (k_tx c)) ->
  quiet (k_marked [MEcho (aa25CharShift (k_char c))] (k_with_tx (set_echo_index (wrap 64 (aa25EchoIndex (k_tx c) + 1)) (k_tx c)) c)).
Proof.
  intros [Hb Hq] Ha He Hs. split; [|exact Hq]. pose proof (active_ok _ _ _ c Hb Ha) as Hok. pose proof (pr_length _ (Hoffered _ (ok_offered _ _ _ _ Hok))) as Hlen.
  pose proof (ok_bits _ _ _ _ Hok) as Hbits. pose proof (base_cases _ _ _ _ Hok) as (Hb1 & _). pose proof (ok_heard _ _ _ _ Hok) as Hh. cbn in Hlen, Hbits, Hh, Hb1.
  rewrite wrap_small by lia. rewrite Hs. apply binv_progress; try done.
  - pose proof (b_stage _ _ _ _ Hb) as Hst. unfold stage in Hst. rewrite Ha in Hst. tauto.
  - exact (echo_ok _ Hok eq_refl He).
  - intros past Hex. apply explains_echo; [lia|done].
Qed.

Lemma active_not_syn c :
  binv c -> aa25TXState (k_tx c) = aa25TXActive -> 10 * aa25EchoIndex (k_tx c) < aa25TXBit (k_tx c) ->
  aa25Wire (aa25Pinned (k_adm c)) !!! Z.to_nat (aa25EchoIndex (k_tx c)) <> aa25SymbolSyn.
Proof.
  intros Hb Ha He. pose proof (active_ok _ _ _ c Hb Ha) as Hok. pose proof (ok_bits _ _ _ _ Hok) as Hbits. pose proof (ok_heard _ _ _ _ Hok) as Hh.
  pose proof (base_cases _ _ _ _ Hok) as (Hb1 & _). cbn in Hbits, Hh, Hb1. apply (pr_syn _ (Hoffered _ (ok_offered _ _ _ _ Hok))). cbn. lia.
Qed.

Lemma wp_complete_symbol index now c :
  quiet c -> aa25CharEcho (k_char c) = bool_decide (aa25TXState (k_tx c) = aa25TXActive) -> aa25TXState (k_tx c) <> aa25TXWaiting ->
  (aa25TXState (k_tx c) = aa25TXActive ->
    10 * aa25EchoIndex (k_tx c) < aa25TXBit (k_tx c) /\
    aa25CharShift (k_char c) = aa25Wire (aa25Pinned (k_adm c)) !!! Z.to_nat (aa25EchoIndex (k_tx c))) ->
  wp (aa25CompleteSymbol index now : M unit) (fun _ => quiet) c.
Proof.
  intros Hq Hce Hw Hact. pose proof Hq as [Hb _]. unfold aa25CompleteSymbol. wps. rewrite Hce, andb_diag.
  destruct (bool_decide _) eqn:Ha.
  - apply bool_decide_eq_true in Ha. destruct (Hact Ha) as [He Hs]. pose proof (quiet_echo c Hq Ha He Hs) as Hq'.
    apply wp_only_if; [intros _|done]. wps. cbn. rewrite (bool_decide_false (aa25TXState _ = _)) by congruence. apply wp_only_if; [done|intros _]. apply wp_feed; [exact Hq'|]. intros _. rewrite Hs. by apply active_not_syn.
  - apply wp_only_if; [done|intros _]. wps. cbn. rewrite k_marked_nil. apply bool_decide_eq_false in Ha. apply wp_only_if.
    + intros Hk%bool_decide_eq_true. eapply wp_mono; [by apply wp_final_ack|]. intros [] c' [H1 H2]. by apply wp_feed.
    + intros Hk%bool_decide_eq_false. apply wp_feed; [done|]. intros Hi. apply bool_decide_eq_false in Hi. by destruct (aa25TXState (k_tx c)).
Qed.

(** ** A character *)

Lemma failed_quiet c : binv c -> quiet (withdrawn (invalidated c)).
Proof. intros Hb. split; [by apply binv_withdrawn, binv_invalidated|done]. Qed.

Lemma invalidated_quiet c : binv c -> quiet (invalidated c).
Proof. intros Hb. split; [by apply binv_invalidated|done]. Qed.

Lemma quiet_char c v : binv c -> 0 <= aa25CharStartTick v -> aa25RXState v <> aa25RXCharacter -> quiet (k_with_char v c).
Proof. intros Hb Hs Hr. split; [by apply binv_char|done]. Qed.

Lemma wp_fail_character fault now c : quiet c -> wp (aa25FailCharacter fault now : M unit) (fun _ => quiet) c.
Proof.
  intros Hq. pose proof (quiet_aborted c Hq) as Ha. unfold aa25FailCharacter. wps.
  destruct (aa25CharEcho (k_char c) && bool_decide (aa25TXState (k_tx c) = aa25TXActive)); wps.
  - by apply failed_quiet, Hq.
  - apply quiet_dropped; [done|apply aborted_idle].
Qed.

(** What is heard depends on the symbol so far. *)
Lemma hears_char c v n :
  hears c n -> aa25CharShift v = aa25CharShift (k_char c) -> aa25CharEcho v = aa25CharEcho (k_char c) -> hears (k_with_char v c) n.
Proof. unfold hears. cbn. by intros H1 -> ->. Qed.

Lemma decided_central offset : 0 <= offset -> offset mod 10 = 6 -> decided offset = offset / 10 /\ decided (offset - 1) = offset / 10 - 1.
Proof.
  intros H0 Hm. unfold decided. pose proof (Z.div_mod offset 10 ltac:(lia)). split; symmetry; [apply Z.div_unique with 0|apply Z.div_unique with 9]; lia.
Qed.

Lemma decided_other offset : 0 <= offset -> offset mod 10 <> 6 -> decided offset = decided (offset - 1).
Proof.
  intros H0 Hm. unfold decided. pose proof (Z.div_mod offset 10 ltac:(lia)). pose proof (Z.mod_pos_bound offset 10 ltac:(lia)).
  pose proof (Z.div_mod (offset - 1 - 6) 10 ltac:(lia)). pose proof (Z.mod_pos_bound (offset - 1 - 6) 10 ltac:(lia)).
  symmetry. apply Z.div_unique with ((offset - 1 - 6) mod 10 + 1); lia.
Qed.

(** The symbol after one more bit. *)
Lemma shift_bit shift n i : 0 <= n < 8 -> 0 <= i -> Z.testbit (u8 (bor shift (b8 (2 ^ n)))) i = Z.testbit (u8 shift) i || (i =? n).
Proof.
  intros Hn Hi. rewrite u8_bor, u8_b8_small, Z.lor_spec, Z.pow2_bits_eqb by (try split; try apply Z.pow_nonneg; try (change 256 with (2 ^ 8); apply Z.pow_lt_mono_r); lia).
  by rewrite Z.eqb_sym.
Qed.

Lemma hears_high c n :
  0 <= n < 8 -> hears c n ->
  (aa25TXState (k_tx c) = aa25TXActive -> Z.testbit (u8 (aa25Wire (aa25Pinned (k_adm c)) !!! Z.to_nat (aa25EchoIndex (k_tx c)))) n = true) ->
  hears (k_with_char (set_shift (bor (aa25CharShift (k_char c)) (b8 (2 ^ n))) (k_char c)) c) (n + 1).
Proof.
  intros Hn (H1 & H2 & H3 & H4) Ht. unfold hears. cbn. split; [|split; [done|split; [done|]]].
  - intros i Hi. rewrite shift_bit, H1 by lia. apply Z.eqb_neq. lia.
  - intros Ha. destruct (H4 Ha) as [H5 H6]. split; [done|]. intros i Hi. rewrite shift_bit by lia.
    destruct (Z.eqb_spec i n) as [->|Hne]; [by rewrite orb_true_r, Ht|]. rewrite orb_false_r. apply H6. lia.
Qed.

Lemma hears_low c n :
  hears c n -> (aa25TXState (k_tx c) = aa25TXActive -> Z.testbit (u8 (aa25Wire (aa25Pinned (k_adm c)) !!! Z.to_nat (aa25EchoIndex (k_tx c)))) n = false) ->
  hears c (n + 1).
Proof.
  intros (H1 & H2 & H3 & H4) Ht. unfold hears. split; [|split; [done|split; [done|]]].
  - intros i Hi. apply H1. lia.
  - intros Ha. destruct (H4 Ha) as [H5 H6]. split; [done|]. intros i Hi.
    destruct (decide (i = n)) as [->|Hne]; [|apply H6; lia]. rewrite Ht, H1 by (done || lia). done.
Qed.

(** All eight bits agree: the symbol heard is the symbol sent. *)
Lemma hears_symbol c :
  hears c 8 -> aa25TXState (k_tx c) = aa25TXActive -> aa25CharShift (k_char c) = aa25Wire (aa25Pinned (k_adm c)) !!! Z.to_nat (aa25EchoIndex (k_tx c)).
Proof.
  intros (_ & _ & _ & H4) Ha. destruct (H4 Ha) as [_ H6]. apply u8_inj, Z.bits_inj'. intros n Hn.
  destruct (Z.lt_ge_cases n 8); [apply H6; lia|]. by rewrite !u8_testbit_high by lia.
Qed.

(** ** Samples of a character *)

Lemma inv_heard c offset :
  binv c -> 0 <= offset < 96 -> k_next c = wrap 64 (aa25CharStartIndex (k_char c) + offset + 1) -> hears c (decided offset) -> inv c.
Proof. intros Hb Ho Hn Hh. split; [done|]. intros _. by exists offset. Qed.

Lemma hears_bit c n (high : bool) :
  0 <= n < 8 -> hears c n ->
  (aa25TXState (k_tx c) = aa25TXActive -> Z.testbit (u8 (aa25Wire (aa25Pinned (k_adm c)) !!! Z.to_nat (aa25EchoIndex (k_tx c)))) n = high) ->
  hears (if high then k_with_char (set_shift (bor (aa25CharShift (k_char c)) (b8 (2 ^ n))) (k_char c)) c else c) (n + 1).
Proof. destruct high; [apply hears_high|intros _; apply hears_low]. Qed.

(** A bit that is not the one sent gives the response up. *)
Lemma wp_check_bit n (high : bool) now c :
  binv c -> aa25CharEcho (k_char c) = bool_decide (aa25TXState (k_tx c) = aa25TXActive) ->
  ((aa25TXState (k_tx c) = aa25TXActive -> Z.testbit (u8 (aa25Wire (aa25Pinned (k_adm c)) !!! Z.to_nat (aa25EchoIndex (k_tx c)))) n = high) -> inv c) ->
  wp (echo ← got hearing_echo; intended ← got (fun e => Z.testbit (u8 (pinned_symbol (aa25EchoIndex (transmit e)) e)) n);
      only_if (echo && negb (Bool.eqb intended high)) (aa25FailResponse AA25FaultEchoMismatch now) : M unit) (fun _ => inv) c.
Proof.
  intros Hb Hce Hi. wps. rewrite Hce, andb_diag. apply wp_only_if; [intros _; wps; by apply quiet_inv, failed_quiet|].
  intros [Ha|Ht]%andb_false_iff; apply Hi; [by apply bool_decide_eq_false in Ha|]. intros _. by apply negb_false_iff, Bool.eqb_prop in Ht.
Qed.

Lemma wp_decide_bit bit (high : bool) index now c :
  binv c -> 0 <= bit <= 9 -> k_next c = wrap 64 (aa25CharStartIndex (k_char c) + (10 * bit + 6) + 1) -> hears c (bit - 1) ->
  wp (decide_bit bit high index now : M unit) (fun _ => inv) c.
Proof.
  intros Hb Hbit Hn Hh. pose proof Hh as (_ & Hce & Hw & _). pose proof (b_start _ _ _ _ Hb) as Hst. unfold decide_bit.
  destruct (Z.eqb_spec bit 0) as [E|H0]; [|change (aa25BitsPerCharacter - 1) with 9; destruct (Z.ltb_spec bit 9) as [Hlt|Hge]].
  - subst bit. apply wp_only_if; intros _.
    + wps. eapply wp_mono; [by apply wp_fail_character, quiet_char|intros ? c'; apply quiet_inv].
    + apply inv_heard with 6; [done|lia|done|]. change (decided 6) with (-1 + 1). apply hears_low; [done|]. intros _. by apply Z.testbit_neg_r.
  - wp1. set (c' := if high then k_with_char (set_shift (bor (aa25CharShift (k_char c)) (b8 (2 ^ (bit - 1)))) (k_char c)) c else c).
    assert (wp (echo ← got hearing_echo; intended ← got (fun e => Z.testbit (u8 (pinned_symbol (aa25EchoIndex (transmit e)) e)) (bit - 1));
      only_if (echo && negb (Bool.eqb intended high)) (aa25FailResponse AA25FaultEchoMismatch now) : M unit) (fun _ => inv) c') as Hc'.
    { apply wp_check_bit; [by destruct high; [apply binv_char|]|by destruct high|]. intros Ht.
      apply inv_heard with (10 * bit + 6); [by destruct high; [apply binv_char|]|lia|by destruct high|].
      unfold decided. replace (10 * bit + 6 - 6) with (bit * 10) by lia. rewrite Z.div_mul by lia.
      pose proof (hears_bit c (bit - 1) high ltac:(lia) Hh) as Hk. rewrite Z.sub_add in Hk. apply Hk. by destruct high. }
    destruct high; apply wp_only_if; [intros _; wp1; exact Hc'|done|done|intros _; exact Hc'].
  - assert (bit = 9) as -> by lia. destruct high; cbn [negb].
    + wps. eapply wp_mono; [apply wp_complete_symbol; try done; [by apply quiet_char|]|intros ? c'; apply quiet_inv].
      intros Ha. split; [by apply Hh|]. by apply (hears_symbol c).
    + wps. eapply wp_mono; [by apply wp_fail_character, quiet_char|intros ? c'; apply quiet_inv].
Qed.

Lemma note_edge_same level position c :
  aa25RXState (note_edge level position c) = aa25RXState c /\ aa25CharStartIndex (note_edge level position c) = aa25CharStartIndex c /\
  aa25CharStartTick (note_edge level position c) = aa25CharStartTick c /\ aa25CharEcho (note_edge level position c) = aa25CharEcho c /\
  aa25CharShift (note_edge level position c) = aa25CharShift c.
Proof. unfold note_edge. by destruct (bool_decide _). Qed.

Lemma wp_central offset high index now c :
  binv c -> 0 <= offset <= 96 -> offset mod 10 = 6 -> k_next c = wrap 64 (aa25CharStartIndex (k_char c) + offset + 1) -> hears c (decided (offset - 1)) ->
  wp (votes ← got (fun e => aa25CharHighVotes (character e));
      on_character (fun c => set_dissent (wrap 8 (aa25CharDissent c + (if high votes then 3 - votes else votes))) (set_votes 0 c));;
      decide_bit (offset / 10) (high votes) index now : M unit) (fun _ => inv) c.
Proof.
  intros Hb Ho Hm Hn Hh. destruct (decided_central offset ltac:(lia) Hm) as [_ Hd]. rewrite Hd in Hh. wps.
  pose proof (Z.div_mod offset 10 ltac:(lia)). apply wp_decide_bit; cbn.
  - apply binv_char; [done|exact (b_start _ _ _ _ Hb)].
  - lia.
  - rewrite Hn. f_equal. lia.
  - by apply hears_char.
Qed.

Lemma wp_observe_character level index now offset c :
  binv c -> 0 <= offset <= 96 -> index = wrap 64 (aa25CharStartIndex (k_char c) + offset) ->
  k_next c = wrap 64 (aa25CharStartIndex (k_char c) + offset + 1) -> hears c (decided (offset - 1)) ->
  wp (aa25ObserveCharacter level index now : M unit) (fun _ => inv) c.
Proof.
  intros Hb Ho -> Hn Hh. unfold aa25ObserveCharacter. wps.
  replace (wrap 64 (wrap 64 (aa25CharStartIndex (k_char c) + offset) - aa25CharStartIndex (k_char c))) with offset.
  2:{ unfold wrap. rewrite Zminus_mod_idemp_l, Z.add_simpl_l. symmetry. apply Z.mod_small. lia. }
  change aa25SamplesPerBit with 10. destruct (note_edge_same level (offset mod 10) (k_char c)) as (_ & E2 & E3 & E4 & E5).
  set (c1 := k_with_char (note_edge level (offset mod 10) (k_char c)) c).
  assert (binv c1) as Hb1 by (apply binv_char; [done|]; rewrite E3; exact (b_start _ _ _ _ Hb)).
  assert (hears c1 (decided (offset - 1))) as Hh1 by by apply hears_char.
  assert (k_next c1 = wrap 64 (aa25CharStartIndex (k_char c1) + offset + 1)) as Hn1 by by (cbn; rewrite E2).
  clearbody c1. clear Hb Hn Hh E2 E3 E4 E5.
  assert (offset mod 10 <> 6 -> inv c1) as Hother.
  { intros Hm. assert (offset <> 96) by (intros ->; by apply Hm). apply inv_heard with offset; [done|lia|done|]. by rewrite decided_other by (done || lia). }
  change aa25CentralFirst with 4. change aa25CentralLast with 6.
  destruct (_ || _) eqn:Ec; [wps; apply Hother; lia|]. wp1.
  apply wp_only_if; intros _; [wps|]; (destruct (Z.eqb_spec (offset mod 10) 6) as [Hm|Hm]; cbn [negb]).
  - apply wp_central; [apply binv_char; [done|exact (b_start _ _ _ _ Hb1)]|done|done|done|by apply hears_char].
  - wps. destruct (Hother Hm) as [H1 H2]. split; [apply binv_char; [done|exact (b_start _ _ _ _ H1)]|].
    intros Hc. destruct (H2 Hc) as (o & ? & ? & ?). exists o. split; [done|]. split; [done|]. by apply hears_char.
  - by apply wp_central.
  - wps. by apply Hother.
Qed.

(** ** The start of a character *)

Lemma begin_inv c : 
  binv c -> k_next c = wrap 64 (aa25CharStartIndex (k_char c) + 1) -> aa25CharShift (k_char c) = x00 ->
  aa25CharEcho (k_char c) = bool_decide (aa25TXState (k_tx c) = aa25TXActive) -> aa25TXState (k_tx c) <> aa25TXWaiting ->
  (aa25TXState (k_tx c) = aa25TXActive -> 10 * aa25EchoIndex (k_tx c) < aa25TXBit (k_tx c)) -> inv c.
Proof.
  intros Hb Hn Hs He Hw Ha. apply inv_heard with 0; [done|lia|by rewrite Z.add_0_r|]. split; [|split; [done|split; [done|]]].
  - intros i _. rewrite Hs. apply Z.testbit_0_l.
  - intros Hact. split; [by apply Ha|]. change (decided 0) with (-1). lia.
Qed.

(** From the character that begins: whose it is, and what a response does. *)
Lemma wp_whose now c :
  binv c -> k_next c = wrap 64 (aa25CharStartIndex (k_char c) + 1) -> aa25CharShift (k_char c) = x00 ->
  wp (state ← got (fun e => aa25TXState (transmit e));
      on_character (set_char_echo (bool_decide (state = aa25TXActive)));;
      match state with
      | aa25TXWaiting => aa25PublishFault AA25FaultRXBeforeResponse now;; aa25AbortTX now;; aa25DropFrame;; aa25WithdrawAdmission
      | aa25TXActive =>
          ahead ← got (fun e =>
            wrap 64 (aa25TXBit (transmit e) + aa25BitsPerCharacter - 1) / aa25BitsPerCharacter <=? aa25EchoIndex (transmit e));
          only_if ahead (aa25FailResponse AA25FaultEchoUnsolicited now)
      | aa25TXIdle | aa25TXAwaitAck => mret tt
      end : M unit) (fun _ => inv) c.
Proof.
  intros Hb Hn Hs. wps. set (c1 := k_with_char (set_char_echo (bool_decide (aa25TXState (k_tx c) = aa25TXActive)) (k_char c)) c).
  assert (binv c1) as Hb1 by (apply binv_char; [done|exact (b_start _ _ _ _ Hb)]).
  destruct (aa25TXState (k_tx c)) eqn:Ha.
  - wps. apply begin_inv; cbn; rewrite ?Ha; done.
  - wps. pose proof (aborted_idle c1) as Hi. pose proof (binv_aborted _ _ _ _ Hb1) as Hba.
    assert (idle c1 = false) as Hi1 by (apply bool_decide_eq_false; cbn; congruence).
    assert (aa25TXLevel (k_tx c1) = AA25LevelHigh) as Hl by (apply (stage_high _ _ _ _ (b_stage _ _ _ _ Hb1)); cbn; congruence).
    apply begin_inv; [by apply binv_withdrawn, binv_dropped|rewrite (aborted_high c1 Hi1 Hl); cbn; done..].
  - wps. cbn. change aa25BitsPerCharacter with 10. pose proof (active_ok _ _ _ c Hb Ha) as Hok. pose proof (ok_bits _ _ _ _ Hok) as Hbits.
    pose proof (pr_length _ (Hoffered _ (ok_offered _ _ _ _ Hok))). pose proof (base_cases _ _ _ _ Hok). cbn in *. rewrite wrap_small by lia.
    apply wp_only_if; [intros _; wps; by apply quiet_inv, failed_quiet|]. intros Hk%Z.leb_gt. apply begin_inv; cbn; rewrite ?Ha; try done.
    intros _. pose proof (Z.div_mod (aa25TXBit (k_tx c) + 10 - 1) 10 ltac:(lia)). pose proof (Z.mod_pos_bound (aa25TXBit (k_tx c) + 10 - 1) 10 ltac:(lia)). lia.
  - wps. apply begin_inv; cbn; rewrite ?Ha; done.
Qed.

Lemma wp_begin_character index now c :
  binv c -> 0 <= now -> k_next c = wrap 64 (index + 1) -> wp (aa25BeginCharacter index now : M unit) (fun _ => inv) c.
Proof.
  intros Hb Hnow Hn. unfold aa25BeginCharacter. do 8 wp1. apply wp_bind.
  set (c1 := k_with_char _ c). assert (binv c1) as Hb1 by by apply binv_char.
  apply wp_only_if; [|intros _; by apply wp_whose].
  intros (((Ha%bool_decide_eq_true & Hbit%Z.eqb_eq)%andb_true_iff & He%Z.eqb_eq)%andb_true_iff & _)%andb_true_iff.
  apply wp_complete, wp_whose; [|done..]. apply binv_complete; [done|done|by rewrite Hbit, Z.mul_comm|done].
Qed.

(** ** Samples *)

(** Before a sample: the next one is counted already. *)
Record sampled (c : core) (index : Z) : Prop := {
  sa_binv : binv c;
  sa_next : k_next c = wrap 64 (index + 1);
  sa_character : aa25RXState (k_char c) = aa25RXCharacter ->
    exists offset, 0 <= offset <= 96 /\ index = wrap 64 (aa25CharStartIndex (k_char c) + offset) /\ hears c (decided (offset - 1)) }.

Lemma inv_previous level c : inv c -> inv (k_with_char (set_previous level (k_char c)) c).
Proof.
  intros [H1 H2]. split; [apply binv_char; [done|exact (b_start _ _ _ _ H1)]|]. intros Hc. destruct (H2 Hc) as (o & ? & ? & ?).
  exists o. split; [done|]. split; [done|]. by apply hears_char.
Qed.

Lemma wp_observe level index now c : sampled c index -> 0 <= now -> wp (aa25Observe level index now : M unit) (fun _ => inv) c.
Proof.
  intros [Hb Hn Hc] Hnow. pose proof (b_start _ _ _ _ Hb) as Hst. unfold aa25Observe. wp1. wp1. apply wp_bind.
  enough (wp (match aa25RXState (k_char c) with
    | aa25RXResync =>
        if is_high level then
          on_character (fun c =>
            let run := wrap 64 (aa25IdleRun c + 1) in set_rx (if aa25ResyncIdleSamples <=? run then aa25RXHunt else aa25RXResync) (set_idle_run run c))
        else on_character (set_idle_run 0)
    | aa25RXHunt => only_if (negb (is_high level) && is_high (aa25PreviousLevel (k_char c))) (aa25BeginCharacter index now)
    | aa25RXCharacter => aa25ObserveCharacter level index now
    | aa25RXStopTail =>
        if negb (is_high level) then aa25BeginCharacter index now
        else
          only_if (aa25FinalOffset <=? wrap 64 (index - aa25CharStartIndex (k_char c))) (on_character (fun c => set_rx aa25RXHunt (set_final true c)))
    end : M unit) (fun _ => inv) c) as Hw.
  { eapply wp_mono; [exact Hw|]. intros [] c' Hi. wps. by apply inv_previous. }
  destruct (aa25RXState (k_char c)) eqn:Hr.
  - destruct (is_high level); wps; apply quiet_inv, quiet_char; cbn; try done; [by destruct (_ <=? _)|by rewrite Hr].
  - apply wp_only_if; intros _; [by apply wp_begin_character|]. apply quiet_inv. split; [done|by rewrite Hr].
  - destruct (Hc eq_refl) as (offset & Ho & -> & Hh). apply wp_observe_character with offset; try done.
    rewrite Hn. unfold wrap. by rewrite Zplus_mod_idemp_l.
  - destruct (negb _); [by apply wp_begin_character|]. apply wp_only_if; intros _; [wps; by apply quiet_inv, quiet_char|].
    apply quiet_inv. split; [done|by rewrite Hr].
Qed.

Lemma rational_at_range i num den : 0 <= i -> 0 < num -> 0 < den -> 0 <= (aa25RationalAt i num den).1 < 2 ^ 64.
Proof.
  intros Hi Hn Hd. unfold aa25RationalAt. cbv zeta. destruct (Z.leb_spec den (i * num / 2 ^ 64)) as [?|Hlt]; cbn [fst]; [unfold MaxTick; lia|].
  pose proof (Z.div_mod (i * num) (2 ^ 64) ltac:(lia)). pose proof (Z.mod_pos_bound (i * num) (2 ^ 64) ltac:(lia)).
  split; [apply Z.div_pos; nia|]. apply Z.div_lt_upper_bound; nia.
Qed.

Lemma binv_next c v : binv c -> binv (k_with_next v c).
Proof. intros []. by split. Qed.

Lemma sampled_quiet c index : quiet c -> sampled (k_with_next (wrap 64 (index + 1)) c) index.
Proof. intros [Hb Hq]. split; [by apply binv_next|done|]. intros Hc. by destruct Hq. Qed.

Lemma sampled_inv c index :
  inv c -> 0 <= index < 2 ^ 64 -> wrap 64 (index - k_next c) = 0 -> sampled (k_with_next (wrap 64 (index + 1)) c) index.
Proof.
  intros [Hb Hr] Hi Hm. split; [by apply binv_next|done|]. intros Hc. destruct (Hr Hc) as (o & Ho & Hn & Hh). exists (o + 1). cbn.
  split; [lia|]. split; [|by rewrite Z.add_simpl_r]. rewrite Z.add_assoc, <- Hn.
  assert (index mod 2 ^ 64 = k_next c mod 2 ^ 64) as E by (unfold wrap in Hm; rewrite <- (Z.sub_add (k_next c) index), Zplus_mod, Hm; cbn [Z.add]; apply Z.mod_mod; lia).
  rewrite Hn in E |- *. unfold wrap in *. rewrite Z.mod_mod in E by lia. rewrite <- E. symmetry. by apply Z.mod_small.
Qed.

Lemma wp_lose missed now c : inv c -> wp (lose_samples missed now : M unit) (fun _ => quiet) c.
Proof.
  intros [Hb _]. unfold lose_samples. wp1. wp1. wp1. wp1. wps. cbn [event_marks AA25Kind]. rewrite k_marked_nil. by apply failed_quiet.
Qed.

Lemma wp_step_rx now c : inv c -> 0 <= now -> wp (aa25StepRX now : M unit) (fun _ => inv) c.
Proof.
  intros Hi Hnow. unfold aa25StepRX. do 4 wp1. rewrite (b_config _ _ _ _ (proj1 Hi)). destruct (now <? _); [by wps|].
  pose proof (rational_at_range (wrap 64 (now - aa25SampleAnchor (sampling e))) AA25NominalSampleRate (AA25TickHz cfg)
    (proj1 (wrap_range 64 _ ltac:(lia))) ltac:(done) ltac:(pose proof (sch_hz _ _ Hsch); lia)) as Hix.
  set (index := (aa25RationalAt _ _ _).1) in *. clearbody index.
  assert (forall c', sampled (k_with_next (wrap 64 (index + 1)) c') index ->
    wp (level ← sample_level;
    deadline ← got (aa25SampleDeadline index); next ← got (aa25SampleDeadline (wrap 64 (index + 1)));
    on_stats (count_observation (wrap 64 (now - deadline)));;
    on_sampling (set_next_sample (wrap 64 (index + 1)) next);;
    aa25Observe level index now : M unit) (fun _ => inv) c') as Hgo.
  { intros c' Hs. apply wp_bind, wp_sample. intros l. apply wp_bind, wp_got. intros e1 _. apply wp_bind, wp_got. intros e2 _.
    wp1. wp1. wp1. apply wp_on_sampling. intros r _. by apply wp_observe. }
  apply wp_bind, wp_only_if; intros Hm.
  - eapply wp_mono; [by apply wp_lose|]. intros [] c' Hq. by apply Hgo, sampled_quiet.
  - apply Hgo, sampled_inv; [done..|]. apply Z.ltb_ge in Hm. pose proof (wrap_range 64 (index - k_next c) ltac:(lia)). lia.
Qed.

End receive.

(** * Steps and runs

    The steps and runs of the engine (src/localworker/aa25_engine.go): every
    step, offer and withdrawal keeps the invariant, from construction on. *)

Section run.
Context (cfg : AA25Config) (reserve : Z) (Hsch : scheduled cfg reserve).
Context (Offered : AA25Prepared -> Prop) (Hoffered : forall p, Offered p -> proper p).
Context {W : Type} `{EnginePorts W} (Hticks : forall w : W, 0 <= (AA25NowTicks w).2 < 2 ^ 64).
#[local] Notation M := (ST (machine (recorded W))).
#[local] Notation quiet := (quiet cfg reserve Offered).
#[local] Notation binv := (binv cfg reserve Offered).
#[local] Notation inv := (inv cfg reserve Offered).

(** ** Changes that keep the invariant *)

Lemma inv_admission c a :
  inv c -> aa25Pinned a = aa25Pinned (k_adm c) -> (aa25SlotValid a = true -> Offered (aa25Slot a)) ->
  (aa25PinnedValid a = true -> aa25PinnedValid (k_adm c) = true) -> inv (k_with_adm a c).
Proof.
  intros [Hb Hr] Ep Hs Hp. split.
  - destruct Hb. split; try done.
    + cbn. rewrite Ep. auto.
    + unfold stage, current in *. cbn. by rewrite Ep.
    + unfold current, linked in *. cbn. by rewrite Ep.
  - intros Hc. destruct (Hr Hc) as (o & H1 & H2 & H3). exists o. unfold hears in *. cbn. by rewrite Ep.
Qed.

Lemma inv_retry_cancel c v : inv c -> inv (k_with_tx (set_retry_cancel v (k_tx c)) c).
Proof. intros [Hb Hr]. split; [destruct Hb; by split|exact Hr]. Qed.

Lemma inv_controls c l : inv c -> (forall p, aa25ControlOffer p ∈ l -> Offered p) -> inv (k_with_controls l c).
Proof. intros [Hb Hr] Hl. split; [destruct Hb; by split|exact Hr]. Qed.

Lemma same_next c v : v = k_next c -> k_with_next v c = c.
Proof. intros ->. by destruct c. Qed.

(** ** Losses and controls *)

Lemma wp_apply_loss now c : inv c -> wp (aa25ApplyLoss now : M unit) (fun _ => inv) c.
Proof.
  intros Hi. unfold aa25ApplyLoss. do 4 wp1. apply wp_only_if; [intros _|done].
  assert (forall c', inv c' -> wp (dropped ← got (fun e => AA25EventsDropped (aa25Stats e));
    accepted ← try_publish (plain_event AA25EventLoss AA25FaultNone now 0 0 dropped 0 AA25LevelLow);
    only_if accepted (change (with_loss false false)) : M unit) (fun _ => inv) c') as Hp.
  { intros c' Hi'. do 2 wp1. apply wp_bind, wp_try_publish. intros ok. cbn. rewrite k_marked_nil.
    apply wp_only_if; [intros _|done]. by apply (wp_with_loss (fun _ => false) (fun _ => false)). }
  apply wp_bind, wp_only_if; intros _; [|by apply Hp].
  apply wp_bind, (wp_with_loss aa25LossPending (fun _ => true)). do 3 wp1. by apply Hp, inv_failed, Hi.
Qed.

Lemma wp_control item now c : inv c -> (forall p, item = aa25ControlOffer p -> Offered p) -> wp (apply_control item now : M unit) (fun _ => inv) c.
Proof.
  intros Hi Ho. destruct item as [|p|]; cbn [apply_control].
  - by apply wp_ret.
  - do 4 wp1. destruct (aa25LossPending _); [by apply wp_ret|]. destruct (_ <=? _); wps; [done|].
    apply inv_admission; cbn; auto.
  - wps. set (c1 := k_with_adm _ c). assert (inv c1) as Hi1 by by apply inv_admission.
    assert (forall c', inv c' -> wp (on_transmit (set_retry_cancel true);;
      idle ← got (fun e => bool_decide (aa25TXState (transmit e) = aa25TXIdle));
      only_if idle (on_admission (set_pinned_valid false)) : M unit) (fun _ => inv) c') as Hend.
    { intros c' Hi'. wps. apply wp_only_if; intros _; [wps; apply inv_admission; cbn; try done|]; try by apply inv_retry_cancel.
      exact (b_slot _ _ _ _ (proj1 Hi')). }
    apply wp_only_if; intros Hs; [wp1|by apply Hend].
    apply Hend, inv_aborted; [done|]. intros Ha. cbn in Hs, Ha. rewrite Ha in Hs. done.
Qed.

Lemma wp_housekeeping now c : inv c -> wp (aa25StepHousekeeping now : M unit) (fun _ => inv) c.
Proof.
  intros Hi. unfold aa25StepHousekeeping. do 6 wp1. destruct (_ =? 0); [by apply wp_ret|].
  apply wp_bind, wp_with_controls. do 2 wp1. replace (k_with_controls (k_controls c) c) with c by by destruct c.
  apply wp_control; [done|]. intros p Hp. apply (b_controls _ _ _ _ (proj1 Hi)).
  destruct (k_controls c !! _) eqn:E; cbn in Hp; [|done]. subst. by eapply list_elem_of_lookup_2.
Qed.

(** ** Steps *)

Lemma wp_typed_now (Q : Z -> core -> Prop) c : (forall t, 0 <= t -> Q t c) -> wp (now_ticks : M Z) Q c.
Proof.
  intros HQ s <-. unfold now_ticks. cbn. pose proof (Hticks (inside (world s))) as Ht.
  destruct (AA25NowTicks (inside (world s))) as [w t]. cbn in Ht. apply (HQ t). lia.
Qed.

Lemma wp_step c : inv c -> wp (AA25Step : M unit) (fun _ => inv) c.
Proof.
  intros Hi. unfold AA25Step. apply wp_bind, wp_typed_now. intros now Hnow. apply wp_bind, wp_got. intros e He.
  destruct (now <? _).
  - apply wp_bind, wp_only_if; intros _; [|by apply wp_apply_loss].
    apply wp_bind, wp_on_sampling. intros r Hr. cbn. rewrite same_next by done. wps. by apply wp_apply_loss, inv_failed, Hi.
  - apply wp_bind, wp_on_sampling. intros r Hr. cbn. rewrite same_next by done.
    apply wp_bind. eapply wp_mono; [by apply wp_step_rx|]. intros [] c1 H1.
    apply wp_bind. eapply wp_mono; [by apply wp_apply_loss|]. intros [] c2 H2.
    apply wp_bind. eapply wp_mono; [by apply wp_step_tx|]. intros [] c3 H3.
    apply wp_bind. eapply wp_mono; [by apply wp_apply_loss|]. intros [] c4 H4. by apply wp_housekeeping.
Qed.

Lemma wp_push item c : inv c -> (forall p, item = aa25ControlOffer p -> Offered p) -> wp (aa25PushControl item : M bool) (fun _ => inv) c.
Proof.
  intros Hi Ho. unfold aa25PushControl. do 6 wp1. destruct (_ =? _); [by apply wp_ret|].
  apply wp_bind, wp_with_controls. wps. apply inv_controls; [done|]. intros p Hp.
  apply list_elem_of_lookup in Hp as [i Hp]. apply list_lookup_insert_Some in Hp as [(_ & Hp & _)|[_ Hp]]; [by apply Ho|].
  by apply (b_controls _ _ _ _ (proj1 Hi)), (list_elem_of_lookup_2 _ i).
Qed.
End run.
