(* ===== verification/EngineLine.v ===== *)
(** Prepared responses (src/localworker/aa25_engine.go): what [AA25PrepareResponse]
    makes is an acknowledgement and then the response segment as the rest of the
    program encodes it; it fits the array and holds no SYN.

    Then runs of an engine from its construction, and steps before the next
    deadline. *)

From S2P Require Import Prelude Errors Wire PlanTypes PlanCodec Calls EngineTypes Engine EngineTrace EngineAttempt EngineSafety.
From S2P Require Import EngineReceive.
#[local] Open Scope list_scope.
#[local] Open Scope Z_scope.

(** The symbols in a prepared response. *)
Record written (p : AA25Prepared) (symbols : list byte) : Prop := {
  wr_fits : (length symbols <= 37)%nat;
  wr_wire : aa25Wire p = symbols ++ replicate (37 - length symbols) x00;
  wr_length : aa25WireLen p = len symbols }.

(** The rest of a response is untouched while it is written. *)
Definition same_request (p q : AA25Prepared) : Prop :=
  AA25Generation p = AA25Generation q /\ AA25MatchPB p = AA25MatchPB q /\ AA25MatchSB p = AA25MatchSB q /\ AA25MatchNN p = AA25MatchNN q.

Lemma same_request_trans p q r : same_request p q -> same_request q r -> same_request p r.
Proof. intros (?&?&?&?) (?&?&?&?). repeat split; congruence. Qed.

Lemma append_raw_written symbol p l : written p l -> (length l < 37)%nat -> written (aa25AppendRaw symbol p) (l ++ [symbol]).
Proof.
  intros [H1 H2 H3] Hl. split; cbn.
  - rewrite length_app. cbn. lia.
  - rewrite H2, H3. unfold len. rewrite Nat2Z.id, length_app. cbn [length].
    rewrite insert_app_r_alt by lia. rewrite Nat.sub_diag.
    replace (37 - length l)%nat with (S (37 - (length l + 1)))%nat by lia. cbn. by rewrite <- app_assoc.
  - rewrite H3, len_app. unfold len in *. cbn [length]. apply wrap_small. lia.
Qed.

Lemma crc25_update_agrees c v : aa25CRCUpdate c v = crc_update c v.
Proof. rewrite <- crc_step_agrees. reflexivity. Qed.

Lemma append_logical_written v crc p l :
  written p l -> (length l + length (escape_symbol v) <= 37)%nat ->
  written (aa25AppendLogical v crc p).1 (l ++ escape_symbol v) /\ (aa25AppendLogical v crc p).2 = crc_symbol crc v /\
  same_request (aa25AppendLogical v crc p).1 p.
Proof.
  intros Hw. unfold aa25AppendLogical, escape_symbol, crc_symbol. change aa25SymbolEscape with SymbolEscape. change aa25SymbolSyn with SymbolSyn.
  change aa25EscapedEscape with x00. change aa25EscapedSyn with x01. rewrite !crc25_update_agrees.
  destruct (v =b SymbolEscape), (v =b SymbolSyn); cbn [length fst snd]; intros Hl; (split; [|by split]);
    try (apply append_raw_written; [done|lia]);
    match goal with |- written _ (l ++ [?x; ?y]) => replace (l ++ [x; y]) with ((l ++ [x]) ++ [y]) by by rewrite <- app_assoc end;
    (apply append_raw_written; [apply append_raw_written; [done|lia]|rewrite length_app; cbn; lia]).
Qed.

Lemma append_payload_written payload p crc l :
  written p l -> (length l + length (EscapeBytes payload) <= 37)%nat ->
  written (append_payload payload (p, crc)).1 (l ++ EscapeBytes payload) /\ (append_payload payload (p, crc)).2 = foldl crc_symbol crc payload /\
  same_request (append_payload payload (p, crc)).1 p.
Proof.
  revert p crc l. induction payload as [|v payload IH]; intros p crc l Hw Hl.
  - cbn. rewrite app_nil_r. done.
  - cbn [EscapeBytes] in *. rewrite length_app in Hl. destruct (append_logical_written v crc p l Hw ltac:(lia)) as (H1 & H2 & H3).
    unfold append_payload in *. cbn [foldl fst snd]. destruct (aa25AppendLogical v crc p) as [p' crc']. cbn [fst snd] in *. subst crc'.
    destruct (IH p' (crc_symbol crc v) _ H1 ltac:(rewrite length_app; lia)) as (H4 & H5 & H6). rewrite <- app_assoc in H4.
    split; [done|]. split; [done|]. by apply same_request_trans with p'.
Qed.

(** The wire of a response: ACK, then the segment the program's encoders make. *)
Definition response_wire (payload : list byte) : list byte := SymbolAck :: (AA23EncodeResponse [] payload).1.

Lemma response_wire_eq payload : len payload <= 16 -> response_wire payload = SymbolAck :: EscapeBytes (slave_segment payload).
Proof. intros Hl. unfold response_wire. rewrite encode_response_eq. destruct (Z.ltb_spec 255 (len payload)); [lia|done]. Qed.

Lemma segment_length payload : len payload <= 16 -> (length (EscapeBytes (slave_segment payload)) <= 36)%nat.
Proof.
  intros Hl. destruct (EscapeBytes_length (slave_segment payload)) as [_ H].
  assert (length (slave_segment payload) = length payload + 2)%nat as E by (unfold slave_segment; rewrite length_app; cbn [length]; lia).
  rewrite E in H. unfold len in Hl. lia.
Qed.

Lemma prepare_written generation pb sb nn payload p :
  AA25PrepareResponse generation pb sb nn payload = Ok p ->
  len payload <= 16 /\ generation <> 0 /\ written p (response_wire payload) /\
  AA25Generation p = generation /\ AA25MatchPB p = pb /\ AA25MatchSB p = sb /\ AA25MatchNN p = nn.
Proof.
  unfold AA25PrepareResponse. change aa25MaxPreparedPayload with 16. destruct (_ || _) eqn:E; [done|]. apply orb_false_iff in E as [Hg Hl].
  apply Z.eqb_neq in Hg. apply Z.ltb_ge in Hl. cbv zeta. set (p0 := mkPrepared generation pb sb nn (replicate 37 x00) 0).
  assert (written p0 []) as H0 by (split; [cbn; lia|done|done]).
  pose proof (append_raw_written aa25SymbolAck p0 [] H0 ltac:(cbn; lia)) as H1.
  pose proof (segment_length payload Hl) as Hs. unfold slave_segment in Hs. cbn [app EscapeBytes] in Hs. rewrite EscapeBytes_app in Hs.
  cbn [EscapeBytes] in Hs. rewrite !length_app in Hs. cbn [length] in Hs. cbn [app] in H1.
  destruct (append_logical_written (b8 (len payload)) x00 _ _ H1 ltac:(cbn [length]; lia)) as (H2 & H3 & H4).
  destruct (aa25AppendLogical (b8 (len payload)) x00 _) as [p1 crc1]. cbn [fst snd] in H2, H3, H4.
  destruct (append_payload_written payload p1 crc1 _ H2 ltac:(rewrite length_app; cbn [length]; lia)) as (H5 & H6 & H7).
  destruct (append_payload payload (p1, crc1)) as [p2 crc2]. cbn [fst snd] in H5, H6, H7 |- *.
  destruct (append_logical_written crc2 crc2 p2 _ H5) as (H8 & _ & H9).
  { subst. rewrite !length_app. cbn [length]. change (CRC (b8 (len payload) :: payload)) with (foldl crc_symbol (crc_symbol x00 (b8 (len payload))) payload) in Hs. lia. }
  intros [= <-]. split; [done|]. split; [done|]. split.
  - rewrite response_wire_eq by done. unfold slave_segment. cbn [app EscapeBytes]. rewrite EscapeBytes_app. cbn [EscapeBytes]. rewrite app_nil_r.
    change (CRC (b8 (len payload) :: payload)) with (foldl crc_symbol (crc_symbol x00 (b8 (len payload))) payload). subst crc1 crc2.
    cbn [app] in H8. rewrite <- !app_assoc in H8. exact H8.
  - destruct H4 as (?&?&?&?), H7 as (?&?&?&?), H9 as (?&?&?&?). cbn in *. repeat split; congruence.
Qed.

Lemma written_proper p l : written p l -> l <> [] -> SymbolSyn ∉ l -> proper p.
Proof.
  intros [H1 H2 H3] Hn Hs. split.
  - rewrite H3. unfold len. destruct l; [done|]. cbn in *. lia.
  - rewrite H2, length_app, length_replicate. lia.
  - intros i Hi E. apply Hs. rewrite H3 in Hi. unfold len in Hi.
    destruct (lookup_lt_is_Some_2 l (Z.to_nat i) ltac:(lia)) as [b Hb]. rewrite H2, list_lookup_total_alt, lookup_app_l, Hb in E by lia.
    cbn in E. subst b. by eapply list_elem_of_lookup_2.
Qed.

(** What the constructor of responses makes. *)
Definition prepared (p : AA25Prepared) : Prop := exists generation pb sb nn payload, AA25PrepareResponse generation pb sb nn payload = Ok p.

Lemma response_wire_no_syn payload : len payload <= 16 -> SymbolSyn ∉ response_wire payload.
Proof.
  intros Hl. rewrite response_wire_eq by done. intros [H|H]%elem_of_cons; [done|]. by apply EscapeBytes_no_syn in H.
Qed.

Lemma prepared_proper p : prepared p -> proper p.
Proof.
  intros (g & pb & sb & nn & payload & E). destruct (prepare_written _ _ _ _ _ _ E) as (Hl & _ & Hw & _).
  apply (written_proper p _ Hw); [done|by apply response_wire_no_syn].
Qed.

(** C32: A prepared response is the acknowledgement followed by the response segment
    every other encoder of the program makes (the worker's and the bus's), it
    fits the array with the length the worker announces, it carries what it
    must match, and it holds no SYN; exactly a generation of zero or a payload
    of more than sixteen bytes is refused. *)
Theorem prepared_response_is_encoded generation pb sb nn payload :
  match AA25PrepareResponse generation pb sb nn payload with
  | Ok p =>
      generation <> 0 /\ len payload <= 16 /\
      take (Z.to_nat (aa25WireLen p)) (aa25Wire p) = SymbolAck :: (AA23EncodeResponse [] payload).1 /\
      EncodeSlaveResponse payload = Ok (AA23EncodeResponse [] payload).1 /\
      aa25WireLen p <= aa25MaxPreparedWire /\ ~ (SymbolSyn ∈ take (Z.to_nat (aa25WireLen p)) (aa25Wire p)) /\
      AA25Generation p = generation /\ AA25MatchPB p = pb /\ AA25MatchSB p = sb /\ AA25MatchNN p = nn
  | Err err => err = AA25ErrInvalidResponse /\ (generation = 0 \/ 16 < len payload)
  end.
Proof.
  destruct (AA25PrepareResponse generation pb sb nn payload) as [p|err] eqn:E.
  - destruct (prepare_written _ _ _ _ _ _ E) as (Hl & Hg & [H1 H2 H3] & Hm).
    assert (take (Z.to_nat (aa25WireLen p)) (aa25Wire p) = response_wire payload) as Ht
      by (rewrite H2, H3; unfold len; by rewrite Nat2Z.id, take_app_length).
    rewrite Ht. split; [done|]. split; [done|]. split; [done|]. split.
    { unfold EncodeSlaveResponse. rewrite encode_response_eq. destruct (Z.ltb_spec 255 (len payload)); [lia|done]. }
    split; [|split; [by apply response_wire_no_syn|done]]. rewrite H3. unfold len. change aa25MaxPreparedWire with 37. lia.
  - unfold AA25PrepareResponse in E. destruct (_ || _) eqn:Eo; [|done]. injection E as <-. split; [done|].
    apply orb_true_iff in Eo as [?|?]; [left; lia|right]. change aa25MaxPreparedPayload with 16 in *. lia.
Qed.

(** * The line

    What an engine does to the line, whatever its ports do
    (src/localworker/aa25_engine.go): from construction on, every edge belongs to
    a response that was offered, on its schedule, no more than two characters
    ahead of its echo, and the line is released in between. *)

(** ** Runs *)

Inductive engine_op := OpStep | OpOffer (p : AA25Prepared) | OpWithdraw.

(** What an attempt may be of: what was offered. *)
Definition offered_in (ops : list engine_op) (p : AA25Prepared) : Prop := OpOffer p ∈ ops.

Section runs.
Context {W : Type} `{EnginePorts W}.

Definition engine_step (op : engine_op) : ST (machine W) unit :=
  match op with
  | OpStep => AA25Step
  | OpOffer p => AA25OfferPrepared p;; mret tt
  | OpWithdraw => AA25OfferWithdraw;; mret tt
  end.

Definition engine_run (ops : list engine_op) (m : machine W) : machine W := foldl (fun m op => (engine_step op m).1) m ops.
End runs.

(** ** Construction *)

#[local] Ltac refused E := lazymatch goal with |- (if ?b then _ else _) = _ -> _ => destruct b eqn:E; [done|] end.

Lemma new_engine_scheduled {W} `{EnginePorts W} c (w w' : W) e :
  typed_engine c -> AA25NewEngine true c w = (w', Ok e) ->
  scheduled c (aa25ReserveTicks e) /\ w' = (AA25NowTicks w).1 /\ aa25Config e = c /\ character e = start_character /\ frame e = start_frame /\
  admission e = start_admission /\ transmit e = start_transmit /\ aa25Controls e = replicate 4 aa25ControlNone.
Proof.
  intros Ht. pose proof Ht as (Hh & Htu & Hl & He). unfold AA25NewEngine. cbn [negb]. cbv zeta.
  refused E1. refused E2. destruct (aa25ScheduleReserve c) as [reserve ok] eqn:Er.
  destruct (AA25NowTicks w) as [w1 now] eqn:Ew. refused E3. intros E; injection E as <- <-. cbn. split; [|done].
  apply orb_false_iff in E3 as [->%negb_false_iff Hf]. apply orb_false_iff in E2 as [Hb Hc].
  repeat (apply orb_false_iff in E1 as [E1 ?]). apply reserve_exact in Er as [Hr1 Hr2]; [|done].
  change AA25NominalSampleRate with 24000 in E1. change AA25NominalBaud with 2400 in *. change aa25BitsPerCharacter with 10 in Hc.
  rewrite rational_at_small in Hb, Hc by lia. cbn [fst] in Hb, Hc. rewrite Z.mul_1_l in Hb.
  split; try done; lia.
Qed.

Section line.
Context {W : Type} `{EnginePorts W} (Hticks : forall w : W, 0 <= (AA25NowTicks w).2 < 2 ^ 64).
Context (cfg : AA25Config) (Htyped : typed_engine cfg).

Lemma start_inv (Offered : AA25Prepared -> Prop) (w : W) w' e :
  AA25NewEngine true cfg (mkRecorded w []) = (w', Ok e) ->
  scheduled cfg (aa25ReserveTicks e) /\ inv cfg (aa25ReserveTicks e) Offered (core_at (mkMachine e w')).
Proof.
  intros E. destruct (new_engine_scheduled _ _ _ _ Htyped E) as (Hs & Hw & Hc & E1 & E2 & E3 & E4 & E5). split; [done|].
  apply quiet_inv. unfold core_at, core_of. cbn [eng world]. rewrite Hc, E1, E2, E3, E4, E5.
  assert (actions w' = []) as -> by (subst w'; cbn; by destruct (AA25NowTicks w)). split; [|done]. split; cbn; try done.
  - intros p Hp. repeat (apply elem_of_cons in Hp as [Hp|Hp]; [done|]). by apply elem_of_nil in Hp.
  - exists []. split; [constructor|]. split; [constructor|]. split; [|done]. by split.
Qed.

Lemma inv_step reserve O op (m : machine (recorded W)) :
  scheduled cfg reserve -> (forall p, O p -> proper p) -> (forall p, op = OpOffer p -> O p) ->
  inv cfg reserve O (core_at m) -> inv cfg reserve O (core_at (engine_step op m).1).
Proof.
  intros Hs HO Hop Hi. destruct op as [|p|]; cbn [engine_step].
  - exact (wp_step cfg reserve Hs O HO Hticks (core_at m) Hi m eq_refl).
  - assert (wp (AA25OfferPrepared p;; mret tt : ST (machine (recorded W)) unit) (fun _ => inv cfg reserve O) (core_at m)) as Hw; [|exact (Hw m eq_refl)].
    apply wp_bind. unfold AA25OfferPrepared. destruct (_ || _); [by do 2 apply wp_ret|].
    eapply wp_mono; [apply wp_push; [exact Hi|]|intros b c Hc; by apply wp_ret]. intros p' [= ->]. by apply Hop.
  - assert (wp (AA25OfferWithdraw;; mret tt : ST (machine (recorded W)) unit) (fun _ => inv cfg reserve O) (core_at m)) as Hw; [|exact (Hw m eq_refl)].
    apply wp_bind. eapply wp_mono; [apply wp_push; [exact Hi|done]|intros b c Hc; by apply wp_ret].
Qed.

Lemma inv_run reserve (O : AA25Prepared -> Prop) ops (m : machine (recorded W)) :
  scheduled cfg reserve -> (forall p, O p -> proper p) -> (forall p, OpOffer p ∈ ops -> O p) ->
  inv cfg reserve O (core_at m) -> inv cfg reserve O (core_at (engine_run ops m)).
Proof.
  intros Hs HO. revert m. induction ops as [|op ops IH]; intros m Hin Hi; [done|]. cbn [engine_run foldl].
  apply IH; [intros p Hp; apply Hin; by apply list_elem_of_further|]. apply inv_step; try done. intros p ->. apply Hin, list_elem_of_here.
Qed.
End line.

(** ** What is left on the line *)

Definition line_level (edges : list AA25Level) : AA25Level := default AA25LevelHigh (last edges).

Lemma line_level_app l l' : line_level (l ++ l') = match l' with [] => line_level l | _ => line_level l' end.
Proof. unfold line_level. destruct l' as [|x l'] using rev_ind; [by rewrite app_nil_r|]. rewrite app_assoc, !last_snoc. by destruct l'. Qed.

Lemma driven_level p base bits h anchor d :
  bit_level p (base - 1) = AA25LevelHigh -> base <= bits -> line_level (driven (mkAttempt p base anchor bits h d)) = bit_level p (bits - 1).
Proof.
  intros H0. unfold driven. cbn. intros Hb. replace bits with (base + (bits - base)) by lia.
  generalize (bits - base) (ltac:(lia) : 0 <= bits - base). intros n Hn. revert n Hn. apply natlike_ind.
  - rewrite Z.add_0_r, changes_none. done.
  - intros n Hn IH. replace (base + Z.succ n) with (base + n + 1) by lia. rewrite Z.add_simpl_r.
    destruct (decide (bit_level p (base + n) = bit_level p (base + n - 1))) as [E|E].
    + rewrite changes_same, E by (done || lia). exact IH.
    + rewrite changes_new, fmap_app by (done || lia). cbn. rewrite line_level_app. done.
Qed.

Section levels.
Context (O : AA25Prepared -> Prop) (c : AA25Config) (reserve : Z).

Lemma attempt_driven a : attempt_ok O c reserve a -> line_level (driven a) = bit_level (a_response a) (a_bits a - 1).
Proof.
  intros []. destruct a as [p base anchor bits h d]. cbn in *. apply driven_level; [|lia].
  destruct ok_base as [->| ->]; [exact (stop_level p 0)|exact (stop_level p 1)].
Qed.

(** A finished attempt leaves the line released. *)
Lemma attempt_edges a : attempt_ok O c reserve a -> line_level (edges a) = AA25LevelHigh.
Proof.
  intros Ha. unfold edges. rewrite line_level_app, (attempt_driven a Ha).
  destruct (bit_level (a_response a) (a_bits a - 1)); cbn; done.
Qed.

Lemma past_edges past : Forall (attempt_ok O c reserve) past -> line_level (flat_map edges past) = AA25LevelHigh.
Proof.
  induction past as [|a past IH] using rev_ind; intros Hp; [done|]. apply Forall_app in Hp as [Hp [Ha _]%Forall_cons].
  rewrite flat_map_app, line_level_app. cbn. rewrite app_nil_r. pose proof (attempt_edges a Ha) as He. destruct (edges a); [by apply IH|done].
Qed.
End levels.

(** ** What is heard of a complete response *)

Lemma lookups_drop (l : list byte) n : 0 <= n <= len l -> (fun i => l !!! Z.to_nat i) <$> seqZ n (len l - n) = drop (Z.to_nat n) l.
Proof.
  intros Hn. apply list_eq. intros i. rewrite list_lookup_fmap, lookup_drop. unfold len in *. destruct (Nat.lt_ge_cases i (length l - Z.to_nat n)) as [Hi|Hi].
  - rewrite lookup_seqZ_lt by lia. cbn. rewrite Z2Nat.inj_add, Nat2Z.id by lia. symmetry. apply list_lookup_lookup_total_lt. lia.
  - rewrite lookup_seqZ_ge by lia. cbn. symmetry. apply lookup_ge_None_2. lia.
Qed.

Lemma heard_complete p base anchor bits d : proper p -> 0 <= base / 10 <= aa25WireLen p ->
  heard (mkAttempt p base anchor bits (aa25WireLen p) d) = drop (Z.to_nat (base / 10)) (take (Z.to_nat (aa25WireLen p)) (aa25Wire p)).
Proof.
  intros [H1 H2 _] Hb. unfold heard. cbn. set (l := take _ _). assert (len l = aa25WireLen p) as Hl by (unfold len, l; rewrite length_take; lia).
  rewrite <- Hl at 1. rewrite <- lookups_drop by lia. apply list_fmap_ext. intros i x Hx. apply lookup_seqZ in Hx as [-> Hx].
  rewrite !list_lookup_total_alt. unfold l. rewrite lookup_take_lt by lia. done.
Qed.

(** ** Runs from construction *)

(** A run of a new engine that was offered prepared responses only. *)
Record engine_history {W} `{EnginePorts W} (cfg : AA25Config) (w : W) (ops : list engine_op) (final : machine (recorded W)) (reserve : Z) : Prop := {
  hi_typed : typed_engine cfg;
  hi_ticks : forall w : W, 0 <= (AA25NowTicks w).2 < 2 ^ 64;
  hi_offers : forall p, offered_in ops p -> prepared p;
  hi_start : exists w' e, AA25NewEngine true cfg (mkRecorded w []) = (w', Ok e) /\ aa25ReserveTicks e = reserve /\
    final = engine_run ops (mkMachine e w') }.

Definition trace {W} (m : machine (recorded W)) : list mark := marks_of (actions (world m)).

Section histories.
Context {W : Type} `{EnginePorts W}.

Lemma history_inv cfg w ops final reserve :
  engine_history cfg w ops final reserve -> scheduled cfg reserve /\ inv cfg reserve (offered_in ops) (core_at final).
Proof.
  intros [Ht Hk Ho (w' & e & E & <- & ->)]. destruct (start_inv cfg Ht (offered_in ops) w w' e E) as [Hs Hi]. split; [done|].
  apply inv_run; try done. intros p Hp. by apply prepared_proper, Ho.
Qed.

Lemma history_explained cfg w ops final reserve :
  engine_history cfg w ops final reserve ->
  exists past, chained past /\ Forall (attempt_ok (offered_in ops) cfg reserve) (past ++ current (core_at final)) /\
    explains cfg past (current (core_at final)) (trace final).
Proof.
  intros Hh. destruct (history_inv _ _ _ _ _ Hh) as (Hs & Hb & _). pose proof (b_trace _ _ _ _ Hb) as (past & H1 & H2 & H3 & _).
  exists past. split; [done|]. split; [|done]. apply Forall_app. split; [done|].
  pose proof (b_stage _ _ _ _ Hb) as Hst. unfold stage in Hst. unfold current in *. destruct (aa25TXState _); [constructor..|tauto|constructor].
Qed.

(** Everything a run writes, announces and counts as heard is that of a
    sequence of attempts, of which at most the last is in progress. *)
Definition explained (ops : list engine_op) (cfg : AA25Config) (reserve : Z) (past now : list attempt) (ms : list mark) : Prop :=
  chained past /\ (length now <= 1)%nat /\ Forall (attempt_ok (offered_in ops) cfg reserve) (past ++ now) /\ explains cfg past now ms.

Lemma line_history cfg w ops final reserve :
  engine_history cfg w ops final reserve ->
  exists past now, explained ops cfg reserve past now (trace final) /\
    (now = [] <-> aa25TXState (transmit (eng final)) <> aa25TXActive).
Proof.
  intros Hh. destruct (history_explained _ _ _ _ _ Hh) as (past & H1 & H2 & H3). exists past, (current (core_at final)).
  split; [split; [done|split; [|done]]|]; unfold current; cbn; destruct (aa25TXState _); cbn; split || lia; done.
Qed.

(** C8: Whatever the ports do, all an engine writes on the line, announces and
    counts as echoes is explained by attempts to send responses that were
    offered to it, one after the other; each is sent bit by bit and never more
    than two characters ahead of what was heard back; an attempt that ends
    early is released; a retransmission only follows the completed first
    transmission of the same response, and starts at its second symbol. *)
Theorem line_carries_offered_responses cfg w ops final reserve :
  engine_history cfg w ops final reserve ->
  exists past now, explained ops cfg reserve past now (trace final) /\
    (now = [] <-> aa25TXState (transmit (eng final)) <> aa25TXActive).
Proof.
  apply line_history.
Qed.

(** C33: The line is where the engine left it, and it is released whenever no
    response is being sent. *)
Theorem line_released_unless_sending cfg w ops final reserve :
  engine_history cfg w ops final reserve ->
  line_level (omap mark_edge (trace final)) = aa25TXLevel (transmit (eng final)) /\
  (aa25TXState (transmit (eng final)) <> aa25TXActive -> aa25TXLevel (transmit (eng final)) = AA25LevelHigh).
Proof.
  intros Hh. destruct (history_inv _ _ _ _ _ Hh) as (Hs & Hb & _). destruct (history_explained _ _ _ _ _ Hh) as (past & _ & H2 & H3).
  apply Forall_app in H2 as [Hp Hc]. pose proof (b_stage _ _ _ _ Hb) as Hst.
  assert (aa25TXState (transmit (eng final)) <> aa25TXActive -> aa25TXLevel (transmit (eng final)) = AA25LevelHigh) as Hhigh
    by exact (stage_high cfg reserve _ (core_at final) Hst).
  split; [|done]. rewrite (ex_edges _ _ _ _ H3), line_level_app. pose proof (past_edges _ _ _ _ Hp) as Hl.
  destruct (decide (aa25TXState (transmit (eng final)) = aa25TXActive)) as [Ha|Ha].
  - unfold stage in Hst. unfold current in *. cbn in *. rewrite Ha in *. destruct Hst as [-> _]. apply Forall_cons in Hc as [Hc _].
    pose proof (attempt_driven _ _ _ _ Hc) as Hd. cbn in *. rewrite app_nil_r. destruct (driven _); [|done]. rewrite Hl. exact Hd.
  - rewrite Hhigh by done. unfold current. cbn. by destruct (aa25TXState _).
Qed.


End histories.

(** * Sleeping

    Between its deadlines an engine has nothing to do
    (src/localworker/aa25_engine.go): a step before [AA25NextDeadlineTick] only
    notes the tick, so a driver may sleep until then. *)

(** What the next deadline says about the response. *)
Definition tx_before (now : Z) (e : AA25Engine) : Prop :=
  match aa25TXState (transmit e) with
  | aa25TXIdle => True
  | aa25TXWaiting => now < aa25TXDeadline (aa25TXBase (transmit e)) e
  | aa25TXActive =>
      (aa25EchoIndex (transmit e) < pinned_length e -> now < aa25EchoDeadline e) /\
      (aa25TXBit (transmit e) < pinned_length e * 10 -> now < aa25TXDeadline (aa25TXBit (transmit e)) e) /\
      (pinned_length e * 10 <= aa25TXBit (transmit e) -> aa25EchoIndex (transmit e) = pinned_length e -> now < aa25TXDeadline (pinned_length e * 10) e)
  | aa25TXAwaitAck => now < aa25AckDeadline e
  end.

(** Where the response is, as far as its deadlines depend on it. *)
Definition tx_placed (e : AA25Engine) : Prop :=
  match aa25TXState (transmit e) with
  | aa25TXWaiting => aa25TXBit (transmit e) = aa25TXBase (transmit e) /\
      (aa25TXBase (transmit e) < pinned_length e * 10 \/ aa25EchoIndex (transmit e) = pinned_length e)
  | aa25TXActive => aa25TXBit (transmit e) <= pinned_length e * 10
  | _ => True
  end.

Lemma next_deadline_covers now e :
  tx_placed e -> now < AA25NextDeadlineTick e -> now < aa25NextDeadline (sampling e) /\ tx_before now e.
Proof.
  unfold tx_placed, tx_before, AA25NextDeadlineTick. change aa25BitsPerCharacter with 10. destruct (aa25TXState (transmit e)) eqn:Es; intros Hp Hn.
  - done.
  - destruct Hp as [Hb Hp]. rewrite bool_decide_false in Hn by done. cbn [andb] in Hn. rewrite Hb in Hn.
    assert ((aa25TXBase (transmit e) <? pinned_length e * 10) || (aa25EchoIndex (transmit e) =? pinned_length e) = true) as E
      by (apply orb_true_iff; destruct Hp; [left|right]; lia).
    rewrite E in Hn. destruct (Z.ltb_spec (aa25TXDeadline (aa25TXBase (transmit e)) e) (aa25NextDeadline (sampling e))); lia.
  - rewrite bool_decide_true in Hn by done. cbn [andb] in Hn. revert Hn.
    destruct (Z.ltb_spec (aa25TXBit (transmit e)) (pinned_length e * 10)); destruct (Z.eqb_spec (aa25EchoIndex (transmit e)) (pinned_length e)); cbn [orb];
      destruct (Z.ltb_spec (aa25EchoIndex (transmit e)) (pinned_length e));
      repeat match goal with |- context [if ?a <? ?b then _ else _] => lazymatch b with context [if _ then _ else _] => fail | _ => destruct (Z.ltb_spec a b) end end; intros Hn;
      (split; [lia|split; [lia|split; [lia|]]]); intros Hge Heq; try lia; replace (pinned_length e * 10) with (aa25TXBit (transmit e)) by lia; lia.
  - destruct (Z.ltb_spec (aa25AckDeadline e) (aa25NextDeadline (sampling e))); lia.
Qed.

Section idle.
Context {W : Type} `{EnginePorts W}.
#[local] Notation M := (ST (machine W)).

Lemma got_then {A B} (f : AA25Engine -> A) (k : A -> M B) s : (got f ≫= k) s = k (f (eng s)) s.
Proof. reflexivity. Qed.

Lemma step_active_waits now s : aa25TXState (transmit (eng s)) = aa25TXActive -> tx_before now (eng s) -> step_active now s = (s, tt).
Proof.
  unfold tx_before. intros -> (H1 & H2 & H3). unfold step_active. rewrite !got_then. change aa25BitsPerCharacter with 10.
  destruct (Z.ltb_spec (aa25EchoIndex (transmit (eng s))) (pinned_length (eng s))) as [Hl|Hl]; cbn [andb].
  - destruct (Z.leb_spec (aa25EchoDeadline (eng s)) now); [specialize (H1 Hl); lia|].
    destruct (Z.ltb_spec (aa25TXBit (transmit (eng s))) (pinned_length (eng s) * 10)) as [Hb|Hb].
    + unfold send_bit. rewrite !got_then. destruct (Z.ltb_spec now (aa25TXDeadline (aa25TXBit (transmit (eng s))) (eng s))); [done|specialize (H2 Hb); lia].
    + destruct (Z.eqb_spec (aa25EchoIndex (transmit (eng s))) (pinned_length (eng s))); [lia|done].
  - destruct (Z.ltb_spec (aa25TXBit (transmit (eng s))) (pinned_length (eng s) * 10)) as [Hb|Hb].
    + unfold send_bit. rewrite !got_then. destruct (Z.ltb_spec now (aa25TXDeadline (aa25TXBit (transmit (eng s))) (eng s))); [done|specialize (H2 Hb); lia].
    + destruct (Z.eqb_spec (aa25EchoIndex (transmit (eng s))) (pinned_length (eng s))) as [He|He]; [|done]. cbn [andb].
      specialize (H3 Hb He). destruct (Z.leb_spec (aa25TXDeadline (pinned_length (eng s) * 10) (eng s)) now); [lia|done].
Qed.

Lemma step_tx_waits now s : tx_before now (eng s) -> aa25StepTX now s = (s, tt).
Proof.
  intros Hb. unfold aa25StepTX. rewrite got_then. destruct (aa25TXState (transmit (eng s))) eqn:E.
  - done.
  - rewrite !got_then. unfold tx_before in Hb. rewrite E in Hb. destruct (Z.ltb_spec now (aa25TXDeadline (aa25TXBase (transmit (eng s))) (eng s))); [|lia].
    by rewrite orb_true_r.
  - by apply step_active_waits.
  - rewrite got_then. unfold tx_before in Hb. rewrite E in Hb. destruct (Z.leb_spec (aa25AckDeadline (eng s)) now); [lia|done].
Qed.

Lemma step_waits (s : machine W) w now :
  AA25NowTicks (world s) = (w, now) -> aa25LossPending (eng s) = false -> aa25ControlCount (eng s) = 0 ->
  aa25LastNow (sampling (eng s)) <= now < aa25NextDeadline (sampling (eng s)) -> tx_before now (eng s) ->
  AA25Step s = (mkMachine (with_sampling (set_last_now now (set_regressing false (sampling (eng s)))) (eng s)) w, tt).
Proof.
  intros Hw Hl Hc [Hn1 Hn2] Hb. unfold AA25Step, now_ticks at 1, mbind at 1, st_bind at 1. rewrite Hw. rewrite got_then. cbn [eng].
  destruct (Z.ltb_spec now (aa25LastNow (sampling (eng s)))); [lia|]. set (s1 := mkMachine (with_sampling _ _) w).
  change ((aa25StepRX now;; aa25ApplyLoss now;; aa25StepTX now;; aa25ApplyLoss now;; aa25StepHousekeeping now) s1 = (s1, tt)).
  assert (aa25StepRX now s1 = (s1, tt)) as E1.
  { unfold aa25StepRX. rewrite !got_then. cbn. destruct (Z.ltb_spec now (aa25NextDeadline (sampling (eng s)))); [done|lia]. }
  assert (aa25ApplyLoss now s1 = (s1, tt)) as E2 by (unfold aa25ApplyLoss; rewrite !got_then; cbn; by rewrite Hl).
  assert (aa25StepTX now s1 = (s1, tt)) as E3 by by apply step_tx_waits.
  assert (aa25StepHousekeeping now s1 = (s1, tt)) as E4 by (unfold aa25StepHousekeeping; rewrite !got_then; cbn; by rewrite Hc).
  do 4 (unfold mbind at 1, st_bind at 1; rewrite ?E1, ?E2, ?E3). exact E4.
Qed.
End idle.

Lemma history_placed {W} `{EnginePorts W} cfg (w : W) ops final reserve : engine_history cfg w ops final reserve -> tx_placed (eng final).
Proof.
  intros Hh. destruct (history_inv _ _ _ _ _ Hh) as (Hs & Hb & _). pose proof (b_stage _ _ _ _ Hb) as Hst. unfold stage, current, tx_placed in *.
  cbn in Hst. change (pinned_length (eng final)) with (aa25WireLen (aa25Pinned (admission (eng final)))).
  destruct (aa25TXState (transmit (eng final))) eqn:E; [done| |..|done].
  - destruct Hst as (_ & _ & Ho & _ & Hbit & He). split; [done|]. pose proof (b_trace _ _ _ _ Hb) as (past & _ & _ & _ & Hl). unfold linked in Hl. cbn in Hl. rewrite E in Hl.
    pose proof (pr_length _ (prepared_proper _ (hi_offers _ _ _ _ _ Hh _ Ho))) as Hlen. cbn in *.
    assert (aa25TXBase (transmit (eng final)) = 0 \/ aa25TXBase (transmit (eng final)) = 10) as [Eb|Eb] by tauto; rewrite Eb in *; [left; lia|].
    change (10 / 10) with 1 in He. lia.
  - destruct Hst as (_ & _ & _ & Hok). apply Forall_cons in Hok as [Hok _]. pose proof (ok_bits _ _ _ _ Hok). cbn in *. lia.
Qed.

(** C34: Before the deadline it names, with nothing refused and nothing offered, a
    step of an engine changes nothing but the tick it last saw, and does
    nothing outside but ask for the time. *)
Theorem step_before_next_deadline {W} `{EnginePorts W} cfg (w : W) ops final reserve w' now :
  engine_history cfg w ops final reserve ->
  AA25NowTicks (world final) = (w', now) -> aa25LossPending (eng final) = false -> aa25ControlCount (eng final) = 0 ->
  aa25LastNow (sampling (eng final)) <= now < AA25NextDeadlineTick (eng final) ->
  AA25Step final = (mkMachine (with_sampling (set_last_now now (set_regressing false (sampling (eng final)))) (eng final)) w', tt) /\
  actions w' = actions (world final).
Proof.
  intros Hh Hw Hl Hc [Hn1 Hn2]. destruct (next_deadline_covers now (eng final) (history_placed _ _ _ _ _ Hh) Hn2) as [Hn3 Hb]. split.
  - by apply step_waits.
  - cbn in Hw. destruct (AA25NowTicks (inside (world final))). by injection Hw as <- _.
Qed.
