(* ===== verification/EngineExamples.v ===== *)
(** The engine on a concrete bus (src/localworker/aa25_engine.go): a request, the
    response, a negative acknowledgement, the retransmission and its
    acknowledgement; and what happens when the sink refuses an event. *)

From S2P Require Import Prelude Calls EngineTypes Engine EngineTrace EngineAttempt EngineLine.
#[local] Open Scope list_scope.
#[local] Open Scope Z_scope.

(** A bus at one tick per sample, ten samples per bit, on which others send
    bursts of symbols; the line is low when anyone drives it low.  The sink
    refuses the first event of some kinds. *)
Record demo_world := mkDemo { d_now : Z; d_sent : list (Z * list byte); d_line : AA25Level; d_refuse : list AA25EventKind }.

Definition symbol_level (symbol : byte) (bit : Z) : bool :=
  if bit =? 0 then false else if bit =? 9 then true else Z.testbit (u8 symbol) (bit - 1).

Definition sent_level (now : Z) (burst : Z * list byte) : bool :=
  let offset := now - burst.1 in
  if (offset <? 0) || (100 * len burst.2 <=? offset) then true
  else symbol_level (nth (Z.to_nat (offset / 100)) burst.2 x00) (offset mod 100 / 10).

#[export] Instance demo_ports : EnginePorts demo_world := {
  AA25NowTicks := fun w => (mkDemo (d_now w + 1) (d_sent w) (d_line w) (d_refuse w), wrap 64 (d_now w));
  AA25SampleLevel := fun w => (w, level_of (is_high (d_line w) && forallb (sent_level (d_now w - 1)) (d_sent w)));
  AA25WriteEdge := fun l w => mkDemo (d_now w) (d_sent w) l (d_refuse w);
  AA25TryPublish := fun ev w =>
    let refused := existsb (fun k => bool_decide (k = AA25Kind ev)) (d_refuse w) in
    (mkDemo (d_now w) (d_sent w) (d_line w) (if refused then [] else d_refuse w), negb refused) }.

Definition demo_engine_config : AA25Config := mkEngineConfig 24000 x08 5 2 50.

Definition demo_prepared : AA25Prepared :=
  match AA25PrepareResponse 1 x07 x04 x00 [xa9; x12] with Ok p => p | Err _ => zero_prepared end.

(** SYN, then a request of 0x10 to 0x08; later a NACK, and later an ACK. *)
Definition demo_request : list byte := let r := [x10; x08; x07; x04; x00] in xaa :: r ++ [foldl aa25CRCUpdate x00 r].
Definition demo_bus (refuse : list AA25EventKind) : demo_world :=
  mkDemo 0 [(120, demo_request); (1480, [xff]); (2250, [x00])] AA25LevelHigh refuse.

Definition demo_ops (steps : nat) : list engine_op := OpOffer demo_prepared :: replicate steps OpStep.

Definition run_new (config : AA25Config) (w : demo_world) (steps : nat) : machine (recorded demo_world) :=
  match AA25NewEngine true config (mkRecorded w []) with
  | (w, Ok e) => engine_run (demo_ops steps) (mkMachine e w)
  | (w, Err _) => mkMachine (mkEngine config zero_engine_stats 0 (mkSampling 0 0 0 0 false) start_character start_frame
      start_admission start_transmit false false [] 0 0) w
  end.

Definition demo_run (refuse : list AA25EventKind) (steps : nat) : machine (recorded demo_world) := run_new demo_engine_config (demo_bus refuse) steps.

Definition demo_reserve : Z := 3857.

Lemma demo_prepared_prepared : prepared demo_prepared.
Proof. exists 1, x07, x04, x00, [xa9; x12]. vm_compute. reflexivity. Qed.

Definition op_response (op : engine_op) : option AA25Prepared := match op with OpOffer p => Some p | _ => None end.

Lemma demo_offers steps p : offered_in (demo_ops steps) p -> prepared p.
Proof.
  unfold offered_in, demo_ops. intros Hp. apply elem_of_cons in Hp as [Hp|Hp].
  - pose proof (f_equal op_response Hp) as E. cbn [op_response] in E. apply Some_inj in E. rewrite E. exact demo_prepared_prepared.
  - apply elem_of_replicate in Hp as [Hp _]. discriminate Hp.
Qed.

Lemma demo_history refuse steps :
  engine_history demo_engine_config (demo_bus refuse) (demo_ops steps) (demo_run refuse steps) demo_reserve.
Proof.
  split.
  - repeat split; cbn; lia.
  - intros w. apply wrap_range. lia.
  - exact (demo_offers steps).
  - eexists _, _. split; [reflexivity|]. split; [vm_compute; reflexivity|reflexivity].
Qed.

(** One complete transmission, then the retransmission without the ACK. *)
Example demo_completes : omap mark_complete (trace (demo_run [] 2500)) = [1; 1].
Proof. vm_compute. reflexivity. Qed.
Example demo_echoes :
  omap mark_echo (trace (demo_run [] 2500)) = [x00; x02; xa9; x00; x12; x4a] ++ [x02; xa9; x00; x12; x4a].
Proof. vm_compute. reflexivity. Qed.

(** ** The theorems about runs, on this run *)

Lemma line_carries_offered_responses_witness :
  length (omap mark_edge (trace (demo_run [] 1000))) = 5%nat /\
  exists past now, explained (demo_ops 1000) demo_engine_config demo_reserve past now (trace (demo_run [] 1000)) /\
    (now = [] <-> aa25TXState (transmit (eng (demo_run [] 1000))) <> aa25TXActive).
Proof. split; [vm_compute; reflexivity|]. exact (line_carries_offered_responses _ _ _ _ _ (demo_history [] 1000)). Defined.

Lemma line_released_unless_sending_witness :
  aa25TXState (transmit (eng (demo_run [] 1000))) = aa25TXActive /\
  line_level (omap mark_edge (trace (demo_run [] 1000))) = aa25TXLevel (transmit (eng (demo_run [] 1000))) /\
  (aa25TXState (transmit (eng (demo_run [] 1000))) <> aa25TXActive -> aa25TXLevel (transmit (eng (demo_run [] 1000))) = AA25LevelHigh).
Proof. split; [vm_compute; reflexivity|]. exact (line_released_unless_sending _ _ _ _ _ (demo_history [] 1000)). Defined.



(** ** A refused event *)

(** The sink refuses the announcement of an edge: the response is given up in
    the same step, which therefore writes two edges. *)
Example refused_intent_writes_two_edges :
  omap mark_edge (trace (demo_run [AA25EventTXIntent] 824)) = [] /\
  omap mark_edge (trace (demo_run [AA25EventTXIntent] 825)) = [AA25LevelLow; AA25LevelHigh].
Proof. split; vm_compute; reflexivity. Qed.

(** ** Sleeping *)

(** Ten ticks per sample, and a silent bus. *)
Definition silent_config : AA25Config := mkEngineConfig 240000 x08 50 20 500.
Definition silent_run : machine (recorded demo_world) := run_new silent_config (mkDemo 0 [] AA25LevelHigh []) 1.

Lemma silent_history : engine_history silent_config (mkDemo 0 [] AA25LevelHigh []) (demo_ops 1) silent_run 38570.
Proof.
  split.
  - repeat split; cbn; lia.
  - intros w. apply wrap_range. lia.
  - exact (demo_offers 1).
  - eexists _, _. split; [reflexivity|]. split; [vm_compute; reflexivity|reflexivity].
Qed.

Lemma step_before_next_deadline_witness :
  let w' := (AA25NowTicks (world silent_run)).1 in
  AA25Step silent_run =
    (mkMachine (with_sampling (set_last_now 2 (set_regressing false (sampling (eng silent_run)))) (eng silent_run)) w', tt) /\
  actions w' = actions (world silent_run).
Proof.
  apply (step_before_next_deadline _ _ _ _ _ _ 2 silent_history); [vm_compute; reflexivity..|]. split; vm_compute; [discriminate|reflexivity].
Defined.
